(* ===== verification/_CoqProject ===== *)
-Q . S2P
Prelude.v
GoLib.v
Flate.v
Float.v
Json.v
Orders.v
Payments.v
Transitions.v
Webhooks.v
Errsanitize.v
JsonText.v
JsonAny.v
Netip.v
Wire.v
Openapi.v
Store.v
Queries.v
Consumer.v
EventRepo.v
Samples.v
Querier.v
Processing.v
Redelivery.v
Outbox.v
Config.v
OutboxRepo.v
Receive.v
WebhookRepo.v
Inbox.v
Replay.v
OrderApp.v
Gorm.v
CheckoutApp.v
Stripe.v
Amqp.v
Delivery.v
Messaging.v
Durations.v
Ratelimit.v
Metrics.v
Worker.v
Auth.v
ClientIP.v
Health.v
Http.v
Docs.v
Handlers.v
Api.v
Embedded.v
Conformance.v
Contracttest.v
Tracing.v
Gate.v
CheckoutRepo.v
Checkout.v
Pipeline.v
Serving.v
Contract.v
Deployment.v
Lifecycle.v
Sandbox.v
SandboxCmd.v
Chaos.v
