(* ===== verification/Prelude.v ===== *)
(** * Payments boilerplate: a verification library

    The repository is a payment service in Go. A client creates an order and
    asks for a checkout; the API reserves a payment attempt in PostgreSQL and
    opens a session at the payment provider. The provider reports what happened
    by webhook: the API verifies the event and stores it in an inbox together
    with an outbox message, a worker relays the message to RabbitMQ, and a
    consumer takes it back and moves attempt, payment and order in one
    transaction. Nothing but a verified event pays an order.

    This library models that program in Rocq and proves what makes it correct.
    Definitions keep the names of the source, statements are read from the SQL,
    and every definition runs: the witnesses evaluate the program on concrete
    databases.

    ** Files

    Each file is a component; a section of a file is a source file.

    - [GoLib], [Flate], [Float], [Json], [JsonText], [JsonAny], [Netip], [Wire]:
      what the program uses of Go's library: machine integers with their
      wrap-around, byte strings, UTF-8, hexadecimal, base64, DEFLATE, case
      mapping, durations, [float64] arithmetic with rounding to nearest,
      [json.Valid], the decoding of a JSON object into a struct or of any JSON
      into an interface value, the encoding of strings, [net/netip], and
      requests, headers, response writers and [ServeMux] patterns.
    - [Orders], [Payments], [Webhooks]: [internal/domain]. [Payments.Decide] is
      the transition matrix; [Transitions] has the theorems about it, over any
      series of deliveries.
    - [Errsanitize]: [internal/platform/errsanitize].
    - [Store], [Queries]: PostgreSQL as the program uses it. [Store.DB] is the
      five tables of [db/migrations/00002_payments.sql], [Store.schema] their
      keys, checks and unique indexes as an invariant every statement preserves;
      [Queries] has one definition per statement of [internal/adapters/postgres/
      queries]. [Store.Store] is a connection: the database, the state a rollback
      returns to, and the fault schedule. [Querier] is the generated interface of
      the statements, with any program written against it as its client.
    - [Consumer], [EventRepo], [Processing], [Redelivery]:
      [internal/application/consumer] over [repositories/events.go]: one message,
      from the inbox entry to the paid order, and the same message again.
    - [Outbox], [OutboxRepo]: [internal/application/outbox] over
      [repositories/outbox.go]: leasing, publishing, settling.
    - [Receive], [WebhookRepo], [Inbox], [Replay]: [internal/application/webhooks]
      over [repositories/webhooks.go] and [operations.go]: receiving events,
      inspecting and replaying them.
    - [OrderApp]: [internal/application/orders] and [adapters/catalog].
    - [Gorm], [CheckoutApp], [CheckoutRepo], [Checkout]: [adapters/postgres/models],
      [internal/application/payments] and [repositories/orders.go],
      [payments.go]: idempotent orders and checkouts among concurrent sessions.
    - [Stripe]: [internal/adapters/payments/stripe]: opening a session, verifying
      an event, interpreting a stored one.
    - [Amqp], [Delivery], [Messaging]: [internal/adapters/rabbitmq]: connections
      with their deadlines, topology and retry tiers ([Amqp]), the publisher and
      the consumer with its handling of one delivery and its reconnect loop
      ([Delivery]), and their theorems ([Messaging]).
    - [Ratelimit], [Auth], [Health]: [internal/platform/ratelimit], [auth] and
      [health].
    - [Openapi]: [internal/transport/http/openapi/server.gen.go]: models, response
      objects, parameter binding, strict handlers, routes. [Embedded]: the
      contract that file carries, decoded, and the functions that hand it out.
      [Conformance] compares the two.
    - [ClientIP], [Http], [Handlers]: [internal/transport/http]: the client's
      address, the middleware chain with its limits, authentication, error
      handlers and documentation routes, the handlers of the operations. [Docs]:
      the hashes of the inline scripts of the documentation page, SHA-256 and
      base64 included, and the writer behind the access log. [Api], [Tracing] and
      [Gate] have the theorems about the assembled server.
    - [Pipeline]: every entry point of the use cases as one step relation on the
      database.
    - [Config]: [internal/platform/config]: the rules of [Load] and what they
      derive. [Durations] shows that Go's text of a duration names it, so that no
      two retry tiers share a queue.
    - [Metrics]: [internal/platform/metrics]: the catalogue of instruments, the
      closed vocabularies of their labels, observers, collectors, samplers.
    - [Worker]: [internal/runtime/worker] with [platform/retry] and the sanitized
      fields of [platform/logging]: what a loaded configuration makes of the
      relay, the consumer, its ladder, the samplers and the log lines.
    - [Serving]: [internal/runtime/api]: the API composed: use cases on one
      database and one provider, behind the handlers and the middlewares.
      [Contract] relates its answers to the rows behind them.
    - [Deployment]: any number of API processes and workers on one database and
      one broker, a turn at a time.
    - [Lifecycle]: [platform/telemetry], [platform/database], the rest of
      [platform/logging] and [internal/runtime], and [cmd]: what a process opens,
      in which order, and how it gives it back, however it ends.
    - [Sandbox], [SandboxCmd]: [internal/sandbox] and [cmd/sandbox], the tool that
      drives test flows on a local deployment: configuration checks, rendered and
      signed events, the reads and the cleanup of the local database ([Sandbox]);
      the client, the flags and the commands ([SandboxCmd]).
    - [Contracttest], [Chaos]: the tools of the test suites:
      [internal/contracttest], and the fault proxy of [tests/chaos] as a step
      relation over its goroutines.
    - [Samples]: concrete parameters and a database the witnesses share.

    ** How the code is modelled

    A Go function that may fail returns [res]; one that also acts on the world
    is an [M W A], state passing over a world [W]. Errors are values of [error]
    with Go's wrapping, so [errors.Is] is the function [Is]. A port (a Go
    interface) is a class over the world, so that a use case is proved against
    the port, and an adapter is an instance: [Consumer.RepositoryContract] is what
    the consuming service asks of its repository, and [EventRepo] discharges it.
    A callback that captures variables is a function on a state of captured
    values. An observer is the list of notifications a call returns.

    Faults. Every round trip to the database consults a schedule of [fault]s:
    it runs, it fails without effect, or it takes effect while the client sees
    an error (a lost acknowledgement). This is how deadlines, cancelled
    contexts and broken connections appear. Theorems quantify over every
    schedule.

    Concurrency. Statements are atomic. The transactions that lock their rows
    first ([Process], [Reprocess]) or run one statement at a time are modelled
    one after another, which is what the locks enforce. The use cases that rely
    on unique indexes instead (orders, checkouts) run in a [Gorm.World], where a
    [Race], any function on databases that keeps the books, runs before each
    statement; [Pipeline.history_is_kept] shows that the program itself keeps
    them, so its own sessions are such races.

    The broker. A connection is the state of its socket ([Amqp.deadlineConn]) and
    of a broker the driver changes; what the AMQP driver promises is
    [Amqp.DriverDocumented]: a confirmation means the broker took the copy, an
    acknowledgement settles its own delivery, and nothing else moves. Every call
    may fail. The consumer's loops run over the events and turns they are given.

    The server. A handler takes a request, the response under construction and
    the state of the server (the world of the use cases, the limiters, what was
    logged and counted) and returns them with the panic that ended it, if any.
    Middlewares compose as in the source. What a request draws at random or
    reads from a clock travels with it ([Wire.Draws]).

    Recursion is structural, over the list a loop of the source ranges over. The
    counters are these. In the matcher of [Errsanitize] a star and the
    replacement loop count the runes left to read, and an iteration that consumes
    none ends them; the loops of [Ratelimit] count the buckets of the list they
    shorten; the parser of [Netip] counts the eight groups of an address: none
    of these bounds is ever reached early. [JsonAny] counts calls, for which twice
    the bytes are enough ([interface_enough]); [Flate] the bits, of which a symbol
    takes one; the search for scripts in [Docs] the bytes
    ([find_scripts_enough]). [Delivery.drainReturns] counts turns
    because the loop can be endless: [Messaging.drain_ends_unless_closed] says
    when two are enough and when no number is. [Outbox.Run] and [Delivery.Run],
    the endless loops of the relay and the consumer, are functions of the turns
    taken so far.

    ** What is proved

    - The books ([Pipeline]): in every database the program can reach, an order
      is paid exactly when one, and only one, payment of its amount was charged;
      durable facts are never taken back; an event that waits has its one
      message; the guards of the updates never reject an approved move.
    - Consumption ([Processing], [Redelivery], [Consumer]): one event is applied in
      full or not at all, and not again unless a failure of it is counted later;
      only matching money pays an order, the answer to the broker agrees with the
      inbox, retries are bounded.
    - The matrix ([Transitions]): a success is never lost, redelivery writes
      nothing, conflict-free deliveries commute, deliveries settle.
    - Reception and replay ([Inbox], [Replay]): an acknowledged event is durable
      and accepted once, unverified input is inert, a replay restarts failed
      work and nothing else.
    - The relay ([Outbox], [OutboxRepo]): leases are exclusive, a settlement needs
      its lease, rows record only what the broker said, delays are bounded.
    - Orders and checkouts ([Checkout], [Orders]): one key is one order and one
      attempt, the provider is asked only for a committed reservation at the
      exact price, an answered checkout is durable and reused.
    - The provider ([Stripe]): an order is paid only for a session Stripe reports
      as paid, with its total and its reference; the reference round-trips; what
      cannot be read is terminal.
    - The broker ([Messaging]): a delivery is acknowledged only when its event is
      accounted for; a published message is routed and readable; deadlines hold
      to the end of an operation; when the drain ends; how reconnects wait.
    - The limits ([Ratelimit], [Gate], [ClientIP], [Auth]): bounded memory, private
      buckets refined by the shared table for everyone who is back within the
      idle time, one bucket charged before routing, an identity no header can
      forge, keys that cannot be invented.
    - The server ([Api], [Tracing]): without a key nothing changes; the provider
      stops delivering only what is stored; every response, error body and log
      line carries the correlation id, a client's only if it is a safe token, and
      the security headers and a content policy are everywhere.
    - The processes ([Config], [Worker], [Serving]): which configurations load, that
      a loaded one starts the API unless a named part is missing, that the worker
      runs it unchanged and its leases cover their batches; that everything the
      API serves is steps of [Pipeline], and strangers are refused.
    - The answers ([Contract]): what the API says of an order, an event and its
      message or its own health is what the database says, within the contract's
      enumerations.
    - The system ([Deployment]): whatever turns its processes take, over AMQP and
      HTTP, the database takes steps of [Pipeline] only, so its books balance.
    - The contract ([Conformance]): the document embedded in the program declares
      exactly the routes, the public operations and the statuses of the
      generated server; what the composed server answers is declared there, but
      for a path parameter that does not bind and a port that refuses.
    - The statements ([Querier]): no client of the generated interface, whatever
      it calls and in whatever transactions, breaks the schema, loses a row,
      changes a price or moves what is settled.
    - The documentation page ([Docs]): its policy names the digest of each inline
      script and of nothing else; when the access log shows the status sent.
    - The test tools ([Contracttest], [Chaos]): the manifest check accepts exactly
      the complete manifests, marked examples are read back, an exchange is
      judged exactly; the proxy's [Close] ends without help from any peer and
      leaves no socket, a proxy that withholds forwards nothing, no wake-up is
      lost.
    - The lifecycle ([Lifecycle]): everything a process acquires is released once,
      in reverse order, whatever fails; it serves exactly when its own parts
      answer, and a worker does not need the broker for that.
    - The metrics ([Metrics]): whatever happens, measurements stay in the catalogue
      and in the vocabularies, and the number of series has a fixed bound.
    - The sandbox ([Sandbox], [SandboxCmd]): a rendered event takes a waiting
      payment to the state its scenario announces; a cleanup removes one order of
      the tool in full or nothing, and leaves sound books; requests stay below a
      loopback origin and nothing is deleted unconfirmed.
    - Values ([Orders], [Webhooks], [Errsanitize]): exact pricing or an overflow
      error, identifiers that round-trip, error text that PostgreSQL can store.

    ** Parameters

    Code outside the repository is a parameter: the Unicode case tables
    ([UnicodeTables]), the URL parser ([UrlParser]), float conversion out of range
    ([FloatConversion]), the texts of JSON errors ([JsonErrors]), of decoding
    errors ([DecodeErrors]) and of [%q] ([GoQuote]), the OpenAPI library ([Loader],
    [KinOpenAPI]), HMAC ([Hmac]), the casts of PostgreSQL ([Postgres]), the Stripe SDK
    ([StripeSDK], [SessionCreator]), the AMQP driver ([Driver], [DriverDocumented]),
    the [jsonb] path operator ([JsonPath]), the HTTP transport ([Transport]), the
    texts of times and of flags ([TimeText], [FlagValues]),
    the runtime that binds styled parameters ([Runtime]), the page of the API
    browser, and GORM ([Gorm]), whose documented SQL is [GormDocumented] and which
    [sql_gorm] satisfies. The use cases see the provider and the broker through
    their ports ([Verifier], [Interpreter], [Provider], [Publisher], [Handler]).
    Reading a local file and parsing the environment are arguments of
    [Config.Load]; what a provider of instruments refuses is an argument of
    [Metrics.NewWithProvider]; what the parts of a starting process answer is a
    [Lifecycle.Platform]; what one call of the API meets (faults, commits of
    other sessions, clocks, entropy) is a [Serving.Circumstance].
    [Samples] and the witnesses instantiate all of them.

    ** What is not modelled

    - Signals, the encoders of the logger, exporters and traces: they answer as
      parameters of [Lifecycle]. The log lines a sampler and the components of
      the worker write while they run.
    - Of the sandbox, the deadlines of its contexts (they are errors of the calls
      and the ends of the waits) and the text it prints. Of the chaos proxy, the
      bytes it copies.
    - Of the generated server, the constructors for other routers and base paths
      and the errors of cookies and JSON parameters, which nothing uses. The
      tracing wrapper around the routes, the timeouts of the HTTP server, the page
      of the API browser, and a response that fails to reach its client.
    - The goroutines, timers and signals around the relay and the consumer; the
      mutexes of the publisher and the limiter appear as atomic operations.
    - Timestamps are integers of nanoseconds; PostgreSQL's rounding to
      microseconds is not modelled. Text PostgreSQL rejects (invalid UTF-8 or
      NUL) is covered by the fault of the statement. *)

From stdpp Require Export base gmap strings list pretty fin_maps sorting.
From Stdlib Require Export ZArith Lia.
From Stdlib Require Import Ascii.

#[export] Set Default Goal Selector "!".

(** ** Notation

    [go_scope] holds the few notations the whole development shares: boolean
    equality of Go strings and the two binds of the effect model. *)
Declare Scope go_scope.
Delimit Scope go_scope with go.
#[global] Open Scope go_scope.
#[global] Open Scope Z_scope.

Notation "a =s? b" := (String.eqb a b) (at level 70, no associativity) : go_scope.
Notation "a <>s? b" := (negb (String.eqb a b)) (at level 70, no associativity) : go_scope.

(** ** Errors

    A Go [error] value. [errors.Is] compares identities while it unwraps, so a
    package-level sentinel is identified by its qualified variable name; every
    other error is a fresh value that no code compares against. [ErrWrap] and
    [ErrWrap2] are [fmt.Errorf] with one and two [%w] verbs, together with the
    text around the verbs. [ErrValue] is a value of a program type that carries
    a number. *)
Inductive error : Type :=
| ErrSentinel (name text : string)
| ErrNew (text : string)
| ErrWrap (pre : string) (cause : error) (post : string)
| ErrWrap2 (pre : string) (first : error) (mid : string) (second : error) (post : string)
| ErrPermanent (cause : error)
| ErrValue (type text : string) (value : Z).

#[export] Instance error_eq_dec : EqDecision error.
Proof. solve_decision. Defined.

(** [err.Error()]. *)
Fixpoint Error (e : error) : string :=
  match e with
  | ErrSentinel _ text => text
  | ErrNew text => text
  | ErrWrap pre cause post => pre +:+ Error cause +:+ post
  | ErrWrap2 pre e1 mid e2 post => pre +:+ Error e1 +:+ mid +:+ Error e2 +:+ post
  | ErrPermanent cause => "permanent: " +:+ Error cause
  | ErrValue _ text _ => text
  end.

(** Identity of two error values, as [==] sees it when the target is a
    package-level sentinel. *)
Definition same_sentinel (e target : error) : bool :=
  match e, target with
  | ErrSentinel n _, ErrSentinel m _ => n =s? m
  | _, _ => false
  end.

(** [errors.Is]: the error itself or anything it wraps. *)
Fixpoint Is (e target : error) : bool :=
  same_sentinel e target ||
  match e with
  | ErrWrap _ cause _ => Is cause target
  | ErrWrap2 _ e1 _ e2 _ => Is e1 target || Is e2 target
  | ErrPermanent cause => Is cause target
  | _ => false
  end.

(** [errors.As] for a type that carries a number: the first in the chain. *)
Fixpoint As (e : error) (type : string) : option Z :=
  match e with
  | ErrValue t _ value => if t =s? type then Some value else None
  | ErrWrap _ cause _ => As cause type
  | ErrWrap2 _ e1 _ e2 _ => match As e1 type with Some v => Some v | None => As e2 type end
  | ErrPermanent cause => As cause type
  | _ => None
  end.

(** ** Results

    A Go function returning [(T, error)] whose first component is the zero
    value whenever the error is non-nil. *)
Inductive res (A : Type) : Type :=
| Ok (a : A)
| Err (e : error).
Arguments Ok {A} a.
Arguments Err {A} e.

#[export] Instance res_eq_dec `{EqDecision A} : EqDecision (res A).
Proof. solve_decision. Defined.

Definition res_bind {A B} (r : res A) (k : A -> res B) : res B :=
  match r with Ok a => k a | Err e => Err e end.

(** Rewrites the error of a result, the [if err != nil { return wrap(err) }]
    idiom. *)
Definition res_wrap {A} (f : error -> error) (r : res A) : res A :=
  match r with Ok a => Ok a | Err e => Err (f e) end.

Definition is_ok {A} (r : res A) : bool :=
  match r with Ok _ => true | Err _ => false end.

Notation "'try' x ':=' r 'in' k" := (res_bind r (fun x => k))
  (at level 10, x pattern, k at level 200) : go_scope.

(** ** Effects

    A Go method that reads and writes an outside world [W] (a store, a broker)
    and may fail. The world is threaded also when the method fails. *)
Definition M (W A : Type) : Type := W -> res A * W.

Definition gret {W A} (a : A) : M W A := fun w => (Ok a, w).
Definition gfail {W A} (e : error) : M W A := fun w => (Err e, w).
Definition gbind {W A B} (m : M W A) (k : A -> M W B) : M W B :=
  fun w => let '(r, w1) := m w in
           match r with Ok a => k a w1 | Err e => (Err e, w1) end.
Definition glift {W A} (r : res A) : M W A := fun w => (r, w).
Definition gwrap {W A} (f : error -> error) (m : M W A) : M W A :=
  fun w => let '(r, w1) := m w in (res_wrap f r, w1).

Notation "'let!' x ':=' m 'in' k" := (gbind m (fun x => k))
  (at level 10, x pattern, k at level 200) : go_scope.

(** [fmt.Errorf("<msg>: %w", err)]. *)
Definition wrapf (msg : string) (e : error) : error := ErrWrap (msg +:+ ": ") e "".

(** ** Automation *)
Create HintDb go.

(** Case analysis on every boolean string comparison in sight. *)
Ltac str_cases :=
  repeat match goal with
  | |- context [String.eqb ?a ?b] => destruct (String.eqb_spec a b)
  | H : context [String.eqb ?a ?b] |- _ => destruct (String.eqb_spec a b)
  end.

(** Splits the matches and conditionals of the goal and of the hypotheses,
    keeping the equations. *)
Ltac go_match :=
  repeat (case_match; simplify_eq/=).

(** Turns boolean hypotheses into propositions. *)
Ltac go_bool :=
  repeat match goal with
  | H : _ && _ = true |- _ => apply andb_true_iff in H as [? ?]
  | H : _ || _ = false |- _ => apply orb_false_iff in H as [? ?]
  | H : negb _ = true |- _ => apply negb_true_iff in H
  | H : negb _ = false |- _ => apply negb_false_iff in H
  | H : (_ =s? _) = true |- _ => apply String.eqb_eq in H
  | H : (_ =s? _) = false |- _ => apply String.eqb_neq in H
  | H : (_ =? _) = true |- _ => apply Z.eqb_eq in H
  | H : (_ =? _) = false |- _ => apply Z.eqb_neq in H
  | H : (_ <? _) = true |- _ => apply Z.ltb_lt in H
  | H : (_ <? _) = false |- _ => apply Z.ltb_ge in H
  | H : (_ <=? _) = true |- _ => apply Z.leb_le in H
  | H : (_ <=? _) = false |- _ => apply Z.leb_gt in H
  | H : (_ >? _) = true |- _ => rewrite Z.gtb_ltb in H; apply Z.ltb_lt in H
  | H : (_ >? _) = false |- _ => rewrite Z.gtb_ltb in H; apply Z.ltb_ge in H
  end.

(** ** Lemmas on errors and results *)

Lemma Is_wrapf msg e t : Is (wrapf msg e) t = Is e t.
Proof. reflexivity. Qed.

Lemma Is_sentinel n tx t :
  Is (ErrSentinel n tx) t = same_sentinel (ErrSentinel n tx) t.
Proof. simpl. by rewrite orb_false_r. Qed.

Lemma same_sentinel_refl n tx tx' :
  same_sentinel (ErrSentinel n tx) (ErrSentinel n tx') = true.
Proof. apply String.eqb_refl. Qed.

Lemma res_wrap_Ok {A} f (r : res A) a : res_wrap f r = Ok a -> r = Ok a.
Proof. by destruct r. Qed.

Lemma gbind_Ok {W A B} (m : M W A) (k : A -> M W B) w b w2 :
  gbind m k w = (Ok b, w2) ->
  exists a w1, m w = (Ok a, w1) /\ k a w1 = (Ok b, w2).
Proof. unfold gbind. destruct (m w) as [[a|e] w1]; naive_solver. Qed.

Lemma gwrap_Ok {W A} f (m : M W A) w a w1 :
  gwrap f m w = (Ok a, w1) -> m w = (Ok a, w1).
Proof. unfold gwrap. destruct (m w) as [[?|?] ?]; naive_solver. Qed.

(** Inverts a successful chain of binds one step at a time. *)
Ltac inv_bind H :=
  let a := fresh "a" in let w := fresh "w" in let H1 := fresh "Hm" in
  apply gbind_Ok in H as (a & w & H1 & H); try apply gwrap_Ok in H1.

Create Rewrite HintDb go_rw.
#[export] Hint Rewrite @Is_wrapf @Is_sentinel : go_rw.
#[export] Hint Resolve same_sentinel_refl : go.
