(* ===== verification/GoLib.v ===== *)
(** * What the program uses of the Go language and its standard library

    Machine integers with their wrap-around, [time.Time] and
    [time.Duration], byte strings with [strings.TrimSpace],
    [strings.EqualFold], [strings.ToUpper], [encoding/hex] and the UTF-8
    decoder behind them. The Unicode case tables beyond ASCII are a parameter
    ([UnicodeTables]). *)

From S2P Require Import Prelude.
From Stdlib Require Import Ascii.

(** ** Machine integers *)

Definition MaxInt64 : Z := 2 ^ 63 - 1.
Definition MinInt64 : Z := - 2 ^ 63.
Definition MaxInt32 : Z := 2 ^ 31 - 1.

(** Two's complement wrap-around at a width. *)
Definition wrap (bits z : Z) : Z := (z + 2 ^ (bits - 1)) mod 2 ^ bits - 2 ^ (bits - 1).
Definition wrap64 (z : Z) : Z := wrap 64 z.
Definition wrap32 (z : Z) : Z := wrap 32 z.

(** Converting a [float64] beyond the [int64] range is left to the
    implementation by the Go specification. *)
Class FloatConversion : Type := out_of_range : Z -> Z.
Definition to_int64 `{FloatConversion} (z : Z) : Z :=
  if (MinInt64 <=? z) && (z <=? MaxInt64) then z else wrap64 (out_of_range z).

Definition in_int64 (z : Z) : Prop := MinInt64 <= z <= MaxInt64.
Definition in_int32 (z : Z) : Prop := - 2 ^ 31 <= z <= MaxInt32.

(** ** Time

    An instant is a number of nanoseconds since the zero [time.Time]; location
    and monotonic reading are not represented, so [UTC] keeps the instant. *)
Definition Time : Type := Z.
Definition Duration : Type := Z.

Definition Millisecond : Duration := 1000000.
Definition Second : Duration := 1000 * Millisecond.
Definition Minute : Duration := 60 * Second.

Definition IsZero (t : Time) : bool := t =? 0.
Definition UTC (t : Time) : Time := t.
Definition After (t u : Time) : bool := t >? u.

(** [t.Sub(u)] saturates at the ends of a [Duration]. *)
Definition Sub (t u : Time) : Duration := Z.max MinInt64 (Z.min MaxInt64 (t - u)).

(** [time.Unix(sec, 0)]: seconds counted from 1970, which is 62135596800
    seconds after the zero time. *)
Definition Unix (sec : Z) : Time := (sec + 62135596800) * Second.

(** ** Byte strings *)

Definition code (a : ascii) : Z := Z.of_N (N_of_ascii a).
Definition codes (s : string) : list Z := code <$> String.list_ascii_of_string s.
Definition of_codes (l : list Z) : string :=
  String.string_of_list_ascii ((fun z => ascii_of_N (Z.to_N z)) <$> l).

(** [len(s)]. *)
Definition len (s : string) : Z := Z.of_nat (String.length s).

(** [strings.HasPrefix] and [s[n:]]. *)
Definition HasPrefix (s p : string) : bool := String.prefix p s.
Definition slice_from (n : nat) (s : string) : string := String.substring n (String.length s - n) s.

(** *** [strings.TrimSpace]

    The encodings of every rune [unicode.IsSpace] accepts. *)
Definition space_runes : list (list Z) :=
  [[9]; [10]; [11]; [12]; [13]; [32]; [194; 133]; [194; 160]; [225; 154; 128];
   [226; 128; 128]; [226; 128; 129]; [226; 128; 130]; [226; 128; 131];
   [226; 128; 132]; [226; 128; 133]; [226; 128; 134]; [226; 128; 135];
   [226; 128; 136]; [226; 128; 137]; [226; 128; 138]; [226; 128; 168];
   [226; 128; 169]; [226; 128; 175]; [226; 129; 159]; [227; 128; 128]].

Fixpoint starts_with (p l : list Z) : bool :=
  match p, l with
  | [], _ => true
  | x :: p', y :: l' => (x =? y) && starts_with p' l'
  | _ :: _, [] => false
  end.

(** Length of the table entry [l] starts with, zero when there is none. *)
Definition match_len (table : list (list Z)) (l : list Z) : nat :=
  match List.find (fun p => starts_with p l) table with
  | Some p => length p
  | None => 0
  end.

Fixpoint trim_table (table : list (list Z)) (skip : nat) (l : list Z) : list Z :=
  match l with
  | [] => []
  | _ :: t =>
      match skip with
      | S k => trim_table table k t
      | O => match match_len table l with
             | O => l
             | S k => trim_table table k t
             end
      end
  end.

Definition trim_codes (l : list Z) : list Z :=
  reverse (trim_table (reverse <$> space_runes) 0 (reverse (trim_table space_runes 0 l))).

Definition TrimSpace (s : string) : string := of_codes (trim_codes (codes s)).

(** *** UTF-8

    Length of the well-formed encoding a byte sequence starts with, as
    [utf8.DecodeRune] accepts it; zero when the first byte starts none. *)
Definition cont (b : Z) : bool := (128 <=? b) && (b <=? 191).

Definition rune_len (l : list Z) : nat :=
  match l with
  | [] => 0
  | b0 :: t =>
      if b0 <=? 127 then 1%nat
      else match t with
      | b1 :: t1 =>
          if (194 <=? b0) && (b0 <=? 223) then (if cont b1 then 2%nat else 0%nat)
          else match t1 with
          | b2 :: t2 =>
              if (224 <=? b0) && (b0 <=? 239) then
                if (if b0 =? 224 then (160 <=? b1) && (b1 <=? 191)
                    else if b0 =? 237 then (128 <=? b1) && (b1 <=? 159)
                    else cont b1) && cont b2
                then 3%nat else 0%nat
              else match t2 with
              | b3 :: _ =>
                  if (240 <=? b0) && (b0 <=? 244) &&
                     (if b0 =? 240 then (144 <=? b1) && (b1 <=? 191)
                      else if b0 =? 244 then (128 <=? b1) && (b1 <=? 143)
                      else cont b1) && cont b2 && cont b3
                  then 4%nat else 0%nat
              | [] => 0%nat
              end
          | [] => 0%nat
          end
      | [] => 0%nat
      end
  end.

Definition RuneError : Z := 65533.

(** The code point of a well-formed encoding of the given length. *)
Definition rune_value (n : nat) (l : list Z) : Z :=
  match n, l with
  | 1%nat, b0 :: _ => b0
  | 2%nat, b0 :: b1 :: _ => (b0 - 192) * 64 + (b1 - 128)
  | 3%nat, b0 :: b1 :: b2 :: _ => (b0 - 224) * 4096 + (b1 - 128) * 64 + (b2 - 128)
  | 4%nat, b0 :: b1 :: b2 :: b3 :: _ =>
      (b0 - 240) * 262144 + (b1 - 128) * 4096 + (b2 - 128) * 64 + (b3 - 128)
  | _, _ => RuneError
  end.

(** The runes of [for _, r := range s]: an invalid byte yields [RuneError] and
    advances by one. *)
Fixpoint runes_from (skip : nat) (l : list Z) : list Z :=
  match l with
  | [] => []
  | _ :: t =>
      match skip with
      | S k => runes_from k t
      | O => let n := rune_len l in rune_value n l :: runes_from (pred n) t
      end
  end.
Definition runes (s : string) : list Z := runes_from 0 (codes s).

(** [utf8.AppendRune]. *)
Definition encode_rune (r : Z) : list Z :=
  if (0 <=? r) && (r <=? 127) then [r]
  else if (0 <=? r) && (r <=? 2047) then [192 + r / 64; 128 + r mod 64]
  else if (r <? 0) || (1114111 <? r) || ((55296 <=? r) && (r <=? 57343))
       then [239; 191; 189]
  else if r <=? 65535 then [224 + r / 4096; 128 + (r / 64) mod 64; 128 + r mod 64]
  else [240 + r / 262144; 128 + (r / 4096) mod 64; 128 + (r / 64) mod 64; 128 + r mod 64].

(** *** Case

    The tables of package [unicode] for code points from 128 up: the
    representative of a rune's simple-folding orbit and its upper- and lower-case
    mappings. The two orbits that reach into ASCII (U+017F with s, U+212A with k) are
    part of the model. *)
Class UnicodeTables : Type := {
  fold_orbit : Z -> Z;
  upper_mapping : Z -> Z;
  lower_mapping : Z -> Z;
}.

Definition is_upper (r : Z) : bool := (65 <=? r) && (r <=? 90).
Definition is_lower (r : Z) : bool := (97 <=? r) && (r <=? 122).
Definition lower_ascii (r : Z) : Z := if is_upper r then r + 32 else r.
Definition upper_ascii (r : Z) : Z := if is_lower r then r - 32 else r.

Section Case.
Context `{UnicodeTables}.

Definition fold_rune (r : Z) : Z :=
  if r <? 128 then lower_ascii r
  else if r =? 383 then 115
  else if r =? 8490 then 107
  else fold_orbit r.

Definition upper_rune (r : Z) : Z := if r <? 128 then upper_ascii r else upper_mapping r.

(** [strings.EqualFold]. *)
Definition EqualFold (s t : string) : bool :=
  bool_decide ((fold_rune <$> runes s) = (fold_rune <$> runes t)).

Definition lower_rune (r : Z) : Z := if r <? 128 then lower_ascii r else lower_mapping r.

(** [strings.ToUpper], [strings.ToLower]. *)
Definition ToUpper (s : string) : string :=
  of_codes (runes s ≫= fun r => encode_rune (upper_rune r)).
Definition ToLower (s : string) : string :=
  of_codes (runes s ≫= fun r => encode_rune (lower_rune r)).
End Case.

(** [strings.TrimRight] of a byte. *)
Fixpoint drop_codes (c : Z) (l : list Z) : list Z :=
  match l with x :: t => if x =? c then drop_codes c t else l | [] => [] end.
Definition TrimRight (s : string) (c : Z) : string := of_codes (reverse (drop_codes c (reverse (codes s)))).

(** *** [encoding/hex] *)

Definition hex_digit (n : Z) : Z := if n <? 10 then 48 + n else 87 + n.

Definition from_hex (c : Z) : option Z :=
  if (48 <=? c) && (c <=? 57) then Some (c - 48)
  else if (97 <=? c) && (c <=? 102) then Some (c - 87)
  else if (65 <=? c) && (c <=? 70) then Some (c - 55)
  else None.

Definition hex_codes (l : list Z) : list Z :=
  l ≫= fun b => [hex_digit (b / 16); hex_digit (b mod 16)].

(** [hex.EncodeToString] and the result of [hex.DecodeString]: [None] is any
    decoding error. *)
Definition hex_encode (l : list Z) : string :=
  of_codes (hex_codes l).

Fixpoint hex_decode_codes (l : list Z) : option (list Z) :=
  match l with
  | [] => Some []
  | [_] => None
  | c0 :: c1 :: t =>
      match from_hex c0, from_hex c1, hex_decode_codes t with
      | Some h, Some k, Some r => Some (16 * h + k :: r)
      | _, _, _ => None
      end
  end.
Definition hex_decode (s : string) : option (list Z) := hex_decode_codes (codes s).

Definition is_byte (b : Z) : Prop := 0 <= b < 256.

(** *** [net/url]

    What the program reads of a parsed URL; [url.Parse] itself is a parameter,
    [None] being any parse error. *)
Record URL := mkURL { URL_Scheme : string; URL_Host : string; URL_Path : string }.

Class UrlParser : Type := url_parse : string -> option URL.

(** ** Formatting *)

(** [%q], which consults the tables of printable runes. *)
Class GoQuote : Type := Quote : string -> string.

(** [time.Duration.String]. [fmt_frac] writes the digits of a fraction of
    [prec] places without its trailing zeros, and leaves the whole part. *)
Fixpoint fmt_frac (prec : nat) (print : bool) (v : Z) (suffix : list Z) : list Z * Z :=
  match prec with
  | O => (if print then 46 :: suffix else suffix, v)
  | S prec =>
      let digit := v mod 10 in
      let print := print || negb (digit =? 0) in
      fmt_frac prec print (v / 10) (if print then 48 + digit :: suffix else suffix)
  end.

Definition Microsecond : Duration := 1000.

Definition fmt_clock (u : Z) (frac : list Z) : list Z :=
  let sec := codes (pretty (u mod 60)) ++ frac in
  let u := u / 60 in
  if 0 <? u then
    let minutes := codes (pretty (u mod 60)) ++ [109] ++ sec in
    let u := u / 60 in
    if 0 <? u then codes (pretty u) ++ [104] ++ minutes else minutes
  else sec.

Definition Duration_codes (d : Duration) : list Z :=
  let u := Z.abs d in
  let text :=
    if u <? Second then
      if u =? 0 then codes "0s"
      else if u <? Microsecond then codes (pretty u +:+ "ns")
      else if u <? Millisecond then
        let '(frac, w) := fmt_frac 3 false u [194; 181; 115] in codes (pretty w) ++ frac
      else let '(frac, w) := fmt_frac 6 false u [109; 115] in codes (pretty w) ++ frac
    else let '(frac, w) := fmt_frac 9 false u [115] in fmt_clock w frac in
  if d <? 0 then 45 :: text else text.

Definition Duration_String (d : Duration) : string := of_codes (Duration_codes d).

(** ** Lemmas *)

Lemma wrap_range bits z :
  0 < bits -> - 2 ^ (bits - 1) <= wrap bits z < 2 ^ (bits - 1).
Proof.
  intros Hb. unfold wrap.
  assert (2 ^ bits = 2 * 2 ^ (bits - 1)) as E
    by (rewrite <- Z.pow_succ_r by lia; f_equal; lia).
  pose proof (Z.pow_pos_nonneg 2 (bits - 1) ltac:(lia) ltac:(lia)).
  pose proof (Z.mod_pos_bound (z + 2 ^ (bits - 1)) (2 ^ bits) ltac:(lia)). lia.
Qed.

Lemma wrap_id bits z :
  0 < bits -> - 2 ^ (bits - 1) <= z < 2 ^ (bits - 1) -> wrap bits z = z.
Proof.
  intros Hb Hz. unfold wrap.
  assert (2 ^ bits = 2 * 2 ^ (bits - 1)) as E
    by (rewrite <- Z.pow_succ_r by lia; f_equal; lia).
  rewrite Z.mod_small; lia.
Qed.

Lemma wrap64_id z : in_int64 z -> wrap64 z = z.
Proof. unfold in_int64, MinInt64, MaxInt64. intros. apply wrap_id; lia. Qed.

Lemma wrap32_id z : in_int32 z -> wrap32 z = z.
Proof. unfold in_int32, MaxInt32. intros. apply wrap_id; lia. Qed.

Lemma wrap64_range z : in_int64 (wrap64 z).
Proof. pose proof (wrap_range 64 z). unfold in_int64, MinInt64, MaxInt64, wrap64. lia. Qed.

Lemma code_byte a : is_byte (code a).
Proof. unfold code, is_byte. pose proof (N_ascii_bounded a). lia. Qed.

Lemma codes_bytes s : Forall is_byte (codes s).
Proof. unfold codes. induction (String.list_ascii_of_string s); constructor; auto using code_byte. Qed.

Lemma of_codes_codes s : of_codes (codes s) = s.
Proof.
  unfold of_codes, codes. rewrite <- list_fmap_compose.
  etrans; [| apply String.string_of_list_ascii_of_string]. f_equal.
  rewrite <- (list_fmap_id (String.list_ascii_of_string s)) at 2.
  apply list_fmap_ext. intros i a _. unfold compose, code, id. simpl.
  rewrite N2Z.id. apply ascii_N_embedding.
Qed.

Lemma codes_of_codes l : Forall is_byte l -> codes (of_codes l) = l.
Proof.
  intros Hl. unfold of_codes, codes.
  rewrite String.list_ascii_of_string_of_list_ascii, <- list_fmap_compose.
  rewrite <- (list_fmap_id l) at 2. apply list_fmap_ext. intros i z Hz.
  rewrite Forall_lookup in Hl. apply Hl in Hz. unfold is_byte in Hz.
  unfold compose, code, id. simpl.
  rewrite N_ascii_embedding by lia. lia.
Qed.

Lemma codes_app s t : codes (s +:+ t) = codes s ++ codes t.
Proof. unfold codes. induction s as [|a s IH]; [done|]. simpl. by f_equal. Qed.

Lemma len_codes s : len s = Z.of_nat (length (codes s)).
Proof.
  unfold len, codes. rewrite length_fmap. f_equal.
  induction s; simpl; congruence.
Qed.

Lemma len_app s t : len (s +:+ t) = len s + len t.
Proof. rewrite !len_codes, codes_app, length_app. lia. Qed.

Lemma HasPrefix_app p s : HasPrefix (p +:+ s) p = true.
Proof.
  unfold HasPrefix. induction p as [|a p IH]; [by destruct s|].
  simpl. destruct (ascii_dec a a); [done | congruence].
Qed.

Lemma substring_all s : String.substring 0 (String.length s) s = s.
Proof. induction s as [|b s IHs]; simpl; [done | by rewrite IHs]. Qed.

Lemma slice_from_app p s n : n = String.length p -> slice_from n (p +:+ s) = s.
Proof.
  intros ->. unfold slice_from. induction p as [|a p IH]; [| apply IH].
  change ("" +:+ s) with s. simpl. rewrite Nat.sub_0_r. apply substring_all.
Qed.

Lemma trim_codes_nil : trim_codes [] = [].
Proof. reflexivity. Qed.

(** Text that starts and ends with a graphic ASCII byte has nothing to trim. *)
Definition graphic (b : Z) : Prop := 33 <= b <= 126.

Lemma trim_table_graphic table b l :
  Forall (fun p => exists x t, p = x :: t /\ ~ graphic x) table -> graphic b ->
  trim_table table 0 (b :: l) = b :: l.
Proof.
  intros Ht Hb. cbn [trim_table].
  assert (match_len table (b :: l) = 0%nat) as ->; [|done].
  unfold match_len. induction Ht as [|p table (x & t & -> & Hx) _ IH]; [done|]. cbn [List.find starts_with].
  destruct (Z.eqb_spec x b); [by subst | done].
Qed.

Lemma TrimSpace_graphic s : Forall graphic (codes s) -> TrimSpace s = s.
Proof.
  intros H. unfold TrimSpace, trim_codes.
  assert (forall l, Forall graphic l -> trim_table space_runes 0 l = l /\
            trim_table (reverse <$> space_runes) 0 l = l) as T.
  { intros [|b l] Hl; [done|]. apply Forall_inv in Hl.
    split; apply trim_table_graphic; try done; repeat constructor;
      (eexists _, _; split; [reflexivity | unfold graphic; lia]). }
  rewrite (proj1 (T _ H)), (proj2 (T _ ltac:(by apply Forall_reverse))).
  by rewrite reverse_involutive, of_codes_codes.
Qed.

(** Hexadecimal. *)
Lemma from_hex_digit n : 0 <= n < 16 -> from_hex (hex_digit n) = Some n.
Proof.
  intros Hn. unfold hex_digit, from_hex.
  destruct (Z.ltb_spec n 10).
  - replace ((48 <=? 48 + n) && (48 + n <=? 57)) with true by lia. f_equal. lia.
  - replace ((48 <=? 87 + n) && (87 + n <=? 57)) with false by lia.
    replace ((97 <=? 87 + n) && (87 + n <=? 102)) with true by lia. f_equal. lia.
Qed.

Lemma hex_digit_byte n : 0 <= n < 16 -> is_byte (hex_digit n).
Proof. unfold hex_digit, is_byte. destruct (Z.ltb_spec n 10); lia. Qed.

Lemma is_byte_nibbles b : is_byte b -> 0 <= b / 16 < 16 /\ 0 <= b mod 16 < 16.
Proof.
  unfold is_byte. intros.
  pose proof (Z.mod_pos_bound b 16). pose proof (Z.div_mod b 16). lia.
Qed.

Lemma hex_codes_cons b l :
  hex_codes (b :: l) = hex_digit (b / 16) :: hex_digit (b mod 16) :: hex_codes l.
Proof. reflexivity. Qed.

Lemma hex_codes_bytes l : Forall is_byte l -> Forall is_byte (hex_codes l).
Proof.
  induction 1 as [|b l Hb _ IH]; [constructor|].
  apply is_byte_nibbles in Hb as [? ?]. rewrite hex_codes_cons.
  constructor; [by apply hex_digit_byte|].
  constructor; [by apply hex_digit_byte | done].
Qed.

Lemma hex_codes_graphic l : Forall is_byte l -> Forall graphic (hex_codes l).
Proof.
  assert (forall n, 0 <= n < 16 -> graphic (hex_digit n)) as G
    by (unfold graphic, hex_digit; intros; case_match; lia).
  induction 1 as [|b l Hb _ IH]; [constructor|].
  apply is_byte_nibbles in Hb as [? ?]. rewrite hex_codes_cons.
  apply Forall_cons. split; [by apply G|]. apply Forall_cons. auto.
Qed.

Lemma hex_decode_codes_encode l :
  Forall is_byte l -> hex_decode_codes (hex_codes l) = Some l.
Proof.
  induction 1 as [|b l Hb _ IH]; [done|].
  pose proof (is_byte_nibbles _ Hb) as [? ?].
  rewrite hex_codes_cons. cbn [hex_decode_codes]. rewrite !from_hex_digit, IH by done.
  f_equal. f_equal. pose proof (Z.div_mod b 16). lia.
Qed.

Lemma codes_hex_encode l : Forall is_byte l -> codes (hex_encode l) = hex_codes l.
Proof. intros. by apply codes_of_codes, hex_codes_bytes. Qed.

Lemma hex_decode_encode l : Forall is_byte l -> hex_decode (hex_encode l) = Some l.
Proof.
  intros. unfold hex_decode. by rewrite codes_hex_encode, hex_decode_codes_encode.
Qed.

Lemma len_hex_encode l : Forall is_byte l -> len (hex_encode l) = 2 * Z.of_nat (length l).
Proof.
  intros Hl. rewrite len_codes, codes_hex_encode by done.
  clear Hl. induction l as [|b l IH]; [done|].
  rewrite hex_codes_cons. cbn [length]. lia.
Qed.

(** [EqualFold] is an equivalence on strings. *)
Section CaseLemmas.
Context `{UnicodeTables}.

Lemma EqualFold_refl s : EqualFold s s = true.
Proof. unfold EqualFold. by apply bool_decide_eq_true. Qed.

Lemma EqualFold_sym s t : EqualFold s t = EqualFold t s.
Proof. unfold EqualFold. apply bool_decide_ext. naive_solver. Qed.

Lemma EqualFold_trans s t u :
  EqualFold s t = true -> EqualFold t u = true -> EqualFold s u = true.
Proof. unfold EqualFold. rewrite !bool_decide_eq_true. congruence. Qed.
End CaseLemmas.

#[export] Hint Resolve EqualFold_refl codes_bytes wrap64_range : go.
#[export] Hint Rewrite @EqualFold_refl : go_rw.
