(* ===== verification/Flate.v ===== *)
(** * [encoding/base64] and [compress/flate]

    The decoders behind the contract the generated server embeds: the standard
    padded alphabet, and the three kinds of DEFLATE blocks. Any decoding error
    is [None]. *)

From stdpp Require Import pmap.
From S2P Require Import Prelude GoLib.

(** ** [base64.StdEncoding] *)

Definition base64_value (c : Z) : option Z :=
  if (65 <=? c) && (c <=? 90) then Some (c - 65)
  else if (97 <=? c) && (c <=? 122) then Some (c - 71)
  else if (48 <=? c) && (c <=? 57) then Some (c + 4)
  else if c =? 43 then Some 62
  else if c =? 47 then Some 63
  else None.

Definition base64_digit (n : Z) : Z :=
  if n <? 26 then n + 65 else if n <? 52 then n + 71 else if n <? 62 then n - 4 else if n =? 62 then 43 else 47.

(** The bytes of the first [n] places of a group of four digits. *)
Definition group_bytes (n : nat) (v : Z) : list Z := take n [v / 65536 mod 256; v / 256 mod 256; v mod 256].

Definition group_value (digits : list Z) : option Z :=
  foldl (fun acc c => match acc, base64_value c with Some v, Some d => Some (64 * v + d) | _, _ => None end)
    (Some 0) digits.

Fixpoint base64_groups (l : list Z) : option (list Z) :=
  match l with
  | [] => Some []
  | a :: b :: c :: d :: t =>
      if c =? 61 then
        if (d =? 61) && bool_decide (t = []) then group_bytes 1 <$> group_value [a; b; 65; 65] else None
      else if (d =? 61) then
        if bool_decide (t = []) then group_bytes 2 <$> group_value [a; b; c; 65] else None
      else match group_value [a; b; c; d], base64_groups t with
           | Some v, Some bytes => Some (group_bytes 3 v ++ bytes)
           | _, _ => None
           end
  | _ => None
  end.

(** [DecodeString], which skips line ends. *)
Definition base64_DecodeString (s : string) : option (list Z) :=
  base64_groups (List.filter (fun c => negb ((c =? 10) || (c =? 13))) (codes s)).

(** ** Bits *)

(** The bits of a stream, the lowest of each byte first. *)
Definition byte_bits (b : Z) : list bool := Z.testbit b <$> [0; 1; 2; 3; 4; 5; 6; 7].
Definition bits_of (bytes : list Z) : list bool := bytes ≫= byte_bits.

(** A parser of the stream. *)
Definition Reader (A : Type) : Type := list bool -> option (A * list bool).
Definition rret {A} (a : A) : Reader A := fun l => Some (a, l).
Definition rfail {A} : Reader A := fun _ => None.
Definition rbind {A B} (m : Reader A) (k : A -> Reader B) : Reader B := fun l =>
  match m l with Some (a, l) => k a l | None => None end.
Notation "'read' x ':=' m 'in' k" := (rbind m (fun x => k))
  (at level 200, x binder, m at level 100, k at level 200, only parsing) : go_scope.

Fixpoint take_bits (n : nat) : Reader Z := fun l =>
  match n with
  | O => Some (0, l)
  | S n =>
      match l with
      | [] => None
      | b :: t => match take_bits n t with Some (z, r) => Some (2 * z + Z.b2z b, r) | None => None end
      end
  end.

(** ** Huffman codes *)

Inductive code_tree : Type := Unused | Symbol (s : Z) | Branch (zero one : code_tree).

Fixpoint add_code (code : list bool) (s : Z) (t : code_tree) : code_tree :=
  match code with
  | [] => Symbol s
  | b :: code =>
      let '(zero, one) := match t with Branch zero one => (zero, one) | _ => (Unused, Unused) end in
      if b then Branch zero (add_code code s one) else Branch (add_code code s zero) one
  end.

(** A code of [n] bits, the highest first. *)
Fixpoint code_bits (n : nat) (code : Z) (acc : list bool) : list bool :=
  match n with O => acc | S n => code_bits n (code / 2) (Z.odd code :: acc) end.

(** The symbols of one length take consecutive codes, in order. *)
Fixpoint assign_length (len : nat) (i : Z) (lengths : list Z) (acc : code_tree * Z) : code_tree * Z :=
  match lengths with
  | [] => acc
  | x :: lengths =>
      assign_length len (i + 1) lengths
        (if x =? Z.of_nat len then (add_code (code_bits len acc.2 []) i acc.1, acc.2 + 1) else acc)
  end.

Definition assign_codes (max : nat) (lengths : list Z) : code_tree * Z :=
  foldl (fun '(t, code) len => assign_length len 0 lengths (t, 2 * code)) (Unused, 0) (seq 1 max).

(** [huffmanDecoder.init]: the lengths have to describe a complete code, or a
    single symbol of one bit; no symbol at all fails when it is used. *)
Definition huffman (lengths : list Z) : option code_tree :=
  let max := Z.to_nat (foldr Z.max 0 lengths) in
  let '(t, code) := assign_codes max lengths in
  if (max =? 0)%nat || (code =? 2 ^ Z.of_nat max) || ((code =? 1) && (max =? 1)%nat) then Some t else None.

(** [huffSym]. *)
Fixpoint huffSym (t : code_tree) : Reader Z := fun l =>
  match t with
  | Symbol s => Some (s, l)
  | Unused => None
  | Branch zero one => match l with b :: l => huffSym (if b : bool then one else zero) l | [] => None end
  end.

(** ** Output *)

(** The bytes written so far by position, from one. *)
Record window := mkWindow { next_position : positive; history : Pmap Z }.
Definition window_start : window := mkWindow 1 ∅.
Definition put (o : window) (b : Z) : window :=
  mkWindow (Pos.succ (next_position o)) (<[next_position o := b]> (history o)).

(** A match may reach into the bytes it writes. *)
Fixpoint copy_back (n : nat) (distance : positive) (o : window) : option window :=
  match n with
  | O => Some o
  | S n => match history o !! (next_position o - distance)%positive with
           | Some b => copy_back n distance (put o b)
           | None => None
           end
  end.

(** The bytes before a position, in front of [acc]. *)
Fixpoint bytes_before (n : nat) (p : positive) (m : Pmap Z) (acc : list Z) : option (list Z) :=
  match n with
  | O => Some acc
  | S n => match m !! Pos.pred p with Some b => bytes_before n (Pos.pred p) m (b :: acc) | None => None end
  end.
Definition window_bytes (o : window) : option (list Z) :=
  bytes_before (pred (Pos.to_nat (next_position o))) (next_position o) (history o) [].

(** ** Blocks *)

(** The length a symbol from 257 names, and how many bits follow it. *)
Definition length_code (v : Z) : option (Z * nat) :=
  if v <? 265 then Some (v - 254, 0%nat)
  else if v <? 269 then Some (v * 2 - 519, 1%nat)
  else if v <? 273 then Some (v * 4 - 1057, 2%nat)
  else if v <? 277 then Some (v * 8 - 2149, 3%nat)
  else if v <? 281 then Some (v * 16 - 4365, 4%nat)
  else if v <? 285 then Some (v * 32 - 8861, 5%nat)
  else if v <? 286 then Some (258, 0%nat)
  else None.

Definition distance_code (v : Z) : option (Z * nat) :=
  if v <? 4 then Some (v + 1, 0%nat)
  else if v <? 30 then
    let nb := (v - 2) / 2 in Some (2 ^ (nb + 1) + 1 + v mod 2 * 2 ^ nb, Z.to_nat nb)
  else None.

Definition with_extra (code : option (Z * nat)) : Reader Z :=
  match code with
  | Some (base, n) => read x := take_bits n in rret (base + x)
  | None => rfail
  end.

(** [huffmanBlock]: every symbol takes a bit at least, so the bits left bound
    the symbols. *)
Fixpoint huffmanBlock (fuel : nat) (literals distances : code_tree) (o : window) : Reader window :=
  match fuel with
  | O => rfail
  | S fuel =>
      read v := huffSym literals in
      if v <? 256 then huffmanBlock fuel literals distances (put o v)
      else if v =? 256 then rret o
      else
        read length := with_extra (length_code v) in
        read d := huffSym distances in
        read dist := with_extra (distance_code d) in
        match copy_back (Z.to_nat length) (Z.to_pos dist) o with
        | Some o' => if dist <? Zpos (next_position o) then huffmanBlock fuel literals distances o' else rfail
        | None => rfail
        end
  end.

Definition codeOrder : list Z := [16; 17; 18; 0; 8; 7; 9; 6; 10; 5; 11; 4; 12; 3; 13; 2; 14; 1; 15].

Fixpoint take_lengths (n : nat) : Reader (list Z) :=
  match n with
  | O => rret []
  | S n => read x := take_bits 3 in read xs := take_lengths n in rret (x :: xs)
  end.

Definition ordered_lengths (xs : list Z) : list Z :=
  (fun i => default 0 (snd <$> List.find (fun p => p.1 =? i) (zip codeOrder xs))) <$> seqZ 0 19.

(** The lengths of both codes, the latest first; a repeat writes three at
    least. *)
Fixpoint code_lengths (fuel : nat) (n : Z) (t : code_tree) (acc : list Z) : Reader (list Z) :=
  if n <=? Z.of_nat (length acc) then (if Z.of_nat (length acc) =? n then rret (reverse acc) else rfail)
  else
    match fuel with
    | O => rfail
    | S fuel =>
        read x := huffSym t in
        if x <? 16 then code_lengths fuel n t (x :: acc)
        else
          let '(rep, nb, b) :=
            if x =? 16 then (3, 2%nat, head acc) else if x =? 17 then (3, 3%nat, Some 0) else (11, 7%nat, Some 0) in
          match b with
          | None => rfail
          | Some b => read more := take_bits nb in code_lengths fuel n t (replicate (Z.to_nat (rep + more)) b ++ acc)
          end
    end.

Definition lift {A} (o : option A) : Reader A := match o with Some a => rret a | None => rfail end.

(** [readHuffman]. *)
Definition readHuffman : Reader (code_tree * code_tree) :=
  read hlit := take_bits 5 in
  read hdist := take_bits 5 in
  read hclen := take_bits 4 in
  let nlit := hlit + 257 in
  let ndist := hdist + 1 in
  if (286 <? nlit) || (30 <? ndist) then rfail
  else
    read xs := take_lengths (Z.to_nat (hclen + 4)) in
    read codes := lift (huffman (ordered_lengths xs)) in
    read ls := code_lengths (Z.to_nat (nlit + ndist)) (nlit + ndist) codes [] in
    read literals := lift (huffman (take (Z.to_nat nlit) ls)) in
    read distances := lift (huffman (drop (Z.to_nat nlit) ls)) in
    rret (literals, distances).

(** The codes of a block without a table of its own. *)
Definition fixed_lengths : list Z := replicate 144 8 ++ replicate 112 9 ++ replicate 24 7 ++ replicate 8 8.
Definition fixed_codes : option (code_tree * code_tree) :=
  literals ← huffman fixed_lengths; distances ← huffman (replicate 32 5); Some (literals, distances).

(** [dataBlock]: from the next byte on. *)
Fixpoint take_bytes (n : nat) (o : window) : Reader window :=
  match n with O => rret o | S n => read b := take_bits 8 in take_bytes n (put o b) end.
Definition align : Reader unit := fun l => Some (tt, drop (length l mod 8)%nat l).
Definition dataBlock (o : window) : Reader window :=
  read _ := align in
  read n := take_bits 16 in
  read complement := take_bits 16 in
  if complement =? 65535 - n then take_bytes (Z.to_nat n) o else rfail.

Definition inflate_block (type : Z) (o : window) : Reader window := fun l =>
  (if type =? 0 then dataBlock o
   else if type =? 1 then
     read trees := lift fixed_codes in huffmanBlock (length l) trees.1 trees.2 o
   else if type =? 2 then
     read trees := readHuffman in huffmanBlock (length l) trees.1 trees.2 o
   else rfail) l.

(** [nextBlock] until the final one: each takes three bits at least. *)
Fixpoint inflate_blocks (fuel : nat) (o : window) : Reader window :=
  match fuel with
  | O => rfail
  | S fuel =>
      read final := take_bits 1 in
      read type := take_bits 2 in
      read o := inflate_block type o in
      if final =? 1 then rret o else inflate_blocks fuel o
  end.

(** What [flate.NewReader] yields to its end; what follows is not read. *)
Definition inflate (bytes : list Z) : option (list Z) :=
  let l := bits_of bytes in
  match inflate_blocks (length l) window_start l with
  | Some (o, _) => window_bytes o
  | None => None
  end.
