(* ===== verification/Float.v ===== *)
(** * [float64]

    The value of a [float64] is a rational; an operation rounds its exact
    result to 53 significant bits, ties to even. No operation of the program
    comes near the ends of the exponent range, which is left unbounded. *)

From S2P Require Import Prelude GoLib.
From Stdlib Require Import QArith Qround Qpower Lqa.
#[local] Open Scope Q_scope.

(** Powers of two. *)
Definition pow2 (e : Z) : Q := Qpower 2 e.

(** The exponent of the last of 53 bits of a positive number. *)
Definition exponent (q : Q) : Z :=
  let e := (Z.log2 (Qnum q) - Z.log2 (Zpos (Qden q)) - 53)%Z in
  if Qle_bool (pow2 53) (q * pow2 (- e)) then (e + 1)%Z else e.

(** The nearest integer, ties to even. *)
Definition nearest (q : Q) : Z :=
  let f := Qfloor q in
  let r := q - inject_Z f in
  if Qle_bool r (1 # 2) && negb (Qeq_bool r (1 # 2) && Z.odd f) then f else (f + 1)%Z.

Definition round_pos (q : Q) : Q :=
  let e := exponent q in Qred (inject_Z (nearest (q * pow2 (- e))) * pow2 e).

Definition round (q : Q) : Q :=
  if Qle_bool q 0 then (if Qle_bool 0 q then 0 else - round_pos (- q)) else round_pos q.

(** [float64(z)] and the four operations the program uses. *)
Definition float_of_int (z : Z) : Q := round (inject_Z z).
Definition fadd (x y : Q) : Q := round (x + y).
Definition fsub (x y : Q) : Q := round (x - y).
Definition fmul (x y : Q) : Q := round (x * y).
Definition fdiv (x y : Q) : Q := round (x / y).

(** [math.Min] of two numbers. *)
Definition fmin (x y : Q) : Q := if Qle_bool x y then x else y.

(** Truncation towards zero. *)
Definition truncate (q : Q) : Z := Z.quot (Qnum q) (Zpos (Qden q)).

(** ** Lemmas *)

Lemma pow2_pos e : 0 < pow2 e.
Proof. apply Qpower_0_lt. lra. Qed.

Lemma pow2_plus a b : pow2 (a + b) == pow2 a * pow2 b.
Proof. apply Qpower_plus. lra. Qed.

Lemma pow2_inv e : pow2 e * pow2 (- e) == 1.
Proof. rewrite <- pow2_plus. by rewrite Z.add_opp_diag_r. Qed.

Lemma pow2_Z e : (0 <= e)%Z -> pow2 e == inject_Z (2 ^ e).
Proof. intros He. symmetry. by apply Zpower_Qpower. Qed.

Lemma pow2_mono a b : (a <= b)%Z -> pow2 a <= pow2 b.
Proof. intros. apply Qpower_le_compat_l; [done | lra]. Qed.

Lemma nearest_range q : inject_Z (nearest q) <= q + (1 # 2) /\ q - (1 # 2) <= inject_Z (nearest q).
Proof.
  unfold nearest. pose proof (Qfloor_le q) as H1. pose proof (Qlt_floor q) as H2.
  rewrite inject_Z_plus in H2. change (inject_Z 1) with 1 in H2.
  destruct (Qle_bool (q - inject_Z (Qfloor q)) (1 # 2)) eqn:E1; simpl.
  - apply Qle_bool_iff in E1. destruct (Qeq_bool _ _) eqn:E2; simpl; [|split; lra].
    apply Qeq_bool_iff in E2. destruct (Z.odd _); simpl; [|split; lra].
    rewrite inject_Z_plus. change (inject_Z 1) with 1. split; lra.
  - assert (~ q - inject_Z (Qfloor q) <= 1 # 2) as E by (rewrite <- Qle_bool_iff, E1; done).
    rewrite inject_Z_plus. change (inject_Z 1) with 1. split; lra.
Qed.

Lemma nearest_int z : nearest (inject_Z z) = z.
Proof.
  unfold nearest. rewrite Qfloor_Z.
  replace (Qle_bool (inject_Z z - inject_Z z) (1 # 2)) with true by (symmetry; apply Qle_bool_iff; lra).
  replace (Qeq_bool (inject_Z z - inject_Z z) (1 # 2)) with false; [done|].
  symmetry. apply not_true_iff_false. rewrite Qeq_bool_iff. lra.
Qed.

#[export] Instance nearest_proper : Proper (Qeq ==> eq) nearest.
Proof.
  intros x y E. unfold nearest.
  assert (Qfloor x = Qfloor y) as -> by (by rewrite E).
  assert (x - inject_Z (Qfloor y) == y - inject_Z (Qfloor y)) as D by lra.
  by rewrite (Qleb_comp _ _ D _ _ (Qeq_refl (1 # 2))), (Qeqb_comp _ _ D _ _ (Qeq_refl (1 # 2))).
Qed.

Lemma nearest_cases q (f := Qfloor q) (r := q - inject_Z f) :
  (nearest q = f /\ (r < 1 # 2 \/ (r == 1 # 2 /\ Z.odd f = false))) \/
  (nearest q = (f + 1)%Z /\ (1 # 2 < r \/ (r == 1 # 2 /\ Z.odd f = true))).
Proof.
  unfold nearest. fold f. fold r.
  destruct (Qle_bool r (1 # 2)) eqn:E1; simpl.
  - apply Qle_bool_iff in E1. destruct (Qeq_bool r (1 # 2)) eqn:E2; simpl.
    + apply Qeq_bool_iff in E2. destruct (Z.odd f) eqn:E3; simpl; auto.
    + apply not_true_iff_false in E2. rewrite Qeq_bool_iff in E2. left. split; [done|]. left. lra.
  - apply not_true_iff_false in E1. rewrite Qle_bool_iff in E1. right. split; [done|]. left. lra.
Qed.

Lemma nearest_mono x y : x <= y -> (nearest x <= nearest y)%Z.
Proof.
  intros Hxy. pose proof (Qfloor_resp_le _ _ Hxy) as Hf.
  destruct (nearest_cases x) as [[-> Hx]|[-> Hx]], (nearest_cases y) as [[-> Hy]|[-> Hy]]; try lia.
  destruct (decide (Qfloor x = Qfloor y)) as [E|E]; [|lia]. rewrite E in *.
  exfalso. destruct Hx as [Hx|[Hx Hx']], Hy as [Hy|[Hy Hy']]; try congruence; lra.
Qed.

(** The scaled number has exactly 53 bits before its point. *)
Lemma exponent_range q : 0 < q -> pow2 52 <= q * pow2 (- exponent q) /\ q * pow2 (- exponent q) < pow2 53.
Proof.
  intros Hq. destruct q as [n d]. assert (0 < n)%Z as Hn by (unfold Qlt in Hq; simpl in Hq; lia).
  pose proof (Z.log2_spec n Hn) as [N1 N2]. pose proof (Z.log2_spec (Zpos d) ltac:(lia)) as [D1 D2].
  unfold exponent. cbn [Qnum Qden]. set (a := Z.log2 n) in *. set (b := Z.log2 (Zpos d)) in *.
  assert (0 <= a)%Z by apply Z.log2_nonneg. assert (0 <= b)%Z by apply Z.log2_nonneg.
  set (e := (a - b - 53)%Z).
  assert (n # d == inject_Z n / inject_Z (Zpos d)) as Eq by (by rewrite Qmake_Qdiv).
  assert (pow2 a <= inject_Z n /\ inject_Z n < pow2 (a + 1)) as [A1 A2].
  { rewrite !pow2_Z by lia. rewrite <- Zle_Qle, <- Zlt_Qlt. split; [done|]. by rewrite Z.add_1_r. }
  assert (pow2 b <= inject_Z (Zpos d) /\ inject_Z (Zpos d) < pow2 (b + 1)) as [B1 B2].
  { rewrite !pow2_Z by lia. rewrite <- Zle_Qle, <- Zlt_Qlt. split; [done|]. by rewrite Z.add_1_r. }
  assert (0 < inject_Z (Zpos d)) as Hd by (by rewrite <- (Zlt_Qlt 0)).
  assert (pow2 52 < (n # d) * pow2 (- e)) as L.
  { rewrite Eq. unfold Qdiv. rewrite <- Qmult_assoc, (Qmult_comm (/ _)), Qmult_assoc.
    apply Qlt_shift_div_l; [done|]. apply Qlt_le_trans with (pow2 52 * pow2 (b + 1)).
    - apply Qmult_lt_l; [apply pow2_pos | done].
    - apply Qle_trans with (pow2 a * pow2 (- e)); [|apply Qmult_le_r; [apply pow2_pos | done]].
      rewrite <- !pow2_plus. apply pow2_mono. lia. }
  assert ((n # d) * pow2 (- e) < pow2 54) as U.
  { rewrite Eq. unfold Qdiv. rewrite <- Qmult_assoc, (Qmult_comm (/ _)), Qmult_assoc.
    apply Qlt_shift_div_r; [done|]. apply Qlt_le_trans with (pow2 (a + 1) * pow2 (- e)).
    - apply Qmult_lt_r; [apply pow2_pos | done].
    - apply Qle_trans with (pow2 54 * pow2 b); [|apply Qmult_le_l; [apply pow2_pos | done]].
      rewrite <- !pow2_plus. apply pow2_mono. lia. }
  destruct (Qle_bool (pow2 53) _) eqn:E.
  - apply Qle_bool_iff in E. assert (pow2 (- (e + 1)) == pow2 (- e) * (1 # 2)) as P.
    { replace (- (e + 1))%Z with (- e + -1)%Z by lia. rewrite pow2_plus. done. }
    rewrite P, Qmult_assoc. change (pow2 54) with (pow2 53 * 2) in U. change (pow2 53) with (pow2 52 * 2) in E.
    split; lra.
  - apply not_true_iff_false in E. rewrite Qle_bool_iff in E. split; lra.
Qed.

Lemma round_pos_value q : 0 < q -> exists m,
  round_pos q == inject_Z m * pow2 (exponent q) /\ m = nearest (q * pow2 (- exponent q)) /\ (2 ^ 52 <= m <= 2 ^ 53)%Z.
Proof.
  intros Hq. exists (nearest (q * pow2 (- exponent q))). split; [apply Qred_correct|]. split; [done|].
  destruct (exponent_range q Hq) as [L U].
  assert (pow2 52 == inject_Z (2 ^ 52)) as E1 by done. assert (pow2 53 == inject_Z (2 ^ 53)) as E2 by done.
  rewrite E1 in L. rewrite E2 in U. split.
  - rewrite <- (nearest_int (2 ^ 52)). by apply nearest_mono.
  - rewrite <- (nearest_int (2 ^ 53)). apply nearest_mono. by apply Qlt_le_weak.
Qed.

Lemma scaled q e : q == q * pow2 (- e) * pow2 e.
Proof. rewrite <- Qmult_assoc, (Qmult_comm (pow2 (- e))), pow2_inv, Qmult_1_r. reflexivity. Qed.

Lemma round_pos_mono x y : 0 < x -> x <= y -> round_pos x <= round_pos y.
Proof.
  intros Hx Hxy. assert (0 < y) as Hy by (eapply Qlt_le_trans; done).
  destruct (round_pos_value x Hx) as (m & Em & Dm & Lm & Um).
  destruct (round_pos_value y Hy) as (k & Ek & Dk & Lk & Uk).
  destruct (exponent_range x Hx) as [Lx Ux], (exponent_range y Hy) as [Ly Uy]. rewrite Em, Ek.
  destruct (Z.lt_trichotomy (exponent x) (exponent y)) as [E|[E|E]].
  - apply Qle_trans with (inject_Z (2 ^ 53) * pow2 (exponent x));
      [apply Qmult_le_r; [apply pow2_pos | by rewrite <- Zle_Qle]|].
    apply Qle_trans with (inject_Z (2 ^ 52) * pow2 (exponent y));
      [|apply Qmult_le_r; [apply pow2_pos | by rewrite <- Zle_Qle]].
    rewrite <- !(pow2_Z 52), <- !(pow2_Z 53), <- !pow2_plus by done. apply pow2_mono. lia.
  - rewrite E in *. apply Qmult_le_r; [apply pow2_pos|]. rewrite <- Zle_Qle. subst m k.
    apply nearest_mono. apply Qmult_le_r; [apply pow2_pos | done].
  - exfalso. assert (y < x); [|lra].
    rewrite (scaled y (exponent y)), (scaled x (exponent x)).
    apply Qlt_le_trans with (pow2 53 * pow2 (exponent y)); [apply Qmult_lt_r; [apply pow2_pos | done]|].
    apply Qle_trans with (pow2 52 * pow2 (exponent x)); [|apply Qmult_le_r; [apply pow2_pos | done]].
    rewrite <- !pow2_plus. apply pow2_mono. lia.
Qed.

Lemma round_pos_pos q : 0 < q -> 0 < round_pos q.
Proof.
  intros Hq. destruct (round_pos_value q Hq) as (m & -> & _ & L & _).
  apply Qmult_lt_0_compat; [rewrite <- (Zlt_Qlt 0); lia | apply pow2_pos].
Qed.

Lemma round_pos_int z : (0 < z <= 2 ^ 53)%Z -> round_pos (inject_Z z) == inject_Z z.
Proof.
  intros Hz. assert (0 < inject_Z z) as Hq by (rewrite <- (Zlt_Qlt 0); lia).
  destruct (exponent_range _ Hq) as [L U]. set (e := exponent (inject_Z z)) in *.
  destruct (decide (z = 2 ^ 53)%Z) as [->|Hne]; [reflexivity|].
  assert (e <= 0)%Z as He.
  { destruct (Z.le_gt_cases e 0) as [|He]; [done|]. exfalso.
    assert (inject_Z z * pow2 (- e) <= inject_Z z * pow2 (- (1))) as H1
      by (apply Qmult_le_l; [done | apply pow2_mono; lia]).
    assert (inject_Z z * pow2 (- (1)) < inject_Z (2 ^ 53) * pow2 (- (1))) as H2
      by (apply Qmult_lt_r; [apply pow2_pos | rewrite <- Zlt_Qlt; lia]).
    change (inject_Z (2 ^ 53) * pow2 (- (1))) with (inject_Z (2 ^ 53) * (1 # 2)) in H2.
    assert (pow2 52 == inject_Z (2 ^ 53) * (1 # 2)) as E by done. rewrite E in L. lra. }
  unfold round_pos. fold e. rewrite Qred_correct.
  assert (inject_Z z * pow2 (- e) == inject_Z (z * 2 ^ (- e))) as E
    by (rewrite pow2_Z, inject_Z_mult by lia; reflexivity).
  rewrite (nearest_proper _ _ E), nearest_int, <- E. symmetry. apply scaled.
Qed.

Lemma round_nonneg q : 0 <= q -> 0 <= round q.
Proof.
  intros Hq. unfold round. destruct (Qle_bool q 0) eqn:E.
  - rewrite (proj2 (Qle_bool_iff 0 q) Hq). lra.
  - apply not_true_iff_false in E. rewrite Qle_bool_iff in E. apply Qlt_le_weak, round_pos_pos. lra.
Qed.

Lemma round_mono x y : 0 <= x -> x <= y -> round x <= round y.
Proof.
  intros Hx Hxy. unfold round at 1. destruct (Qle_bool x 0) eqn:E.
  - rewrite (proj2 (Qle_bool_iff 0 x) Hx). apply round_nonneg. lra.
  - apply not_true_iff_false in E. rewrite Qle_bool_iff in E. unfold round.
    replace (Qle_bool y 0) with false; [apply round_pos_mono; [lra | done]|].
    symmetry. apply not_true_iff_false. rewrite Qle_bool_iff. lra.
Qed.

Lemma round_int z : (0 <= z <= 2 ^ 53)%Z -> round (inject_Z z) == inject_Z z.
Proof.
  intros Hz. destruct (decide (z = 0)%Z) as [->|Hne]; [reflexivity|]. unfold round.
  replace (Qle_bool (inject_Z z) 0) with false; [apply round_pos_int; lia|].
  symmetry. apply not_true_iff_false. rewrite Qle_bool_iff.
  change 0 with (inject_Z 0). rewrite <- Zle_Qle. lia.
Qed.

Lemma round_eq x y : 0 <= x -> x == y -> round x == round y.
Proof. intros Hx E. apply Qle_antisym; apply round_mono; lra. Qed.

Lemma float_of_int_nonneg z : (0 <= z)%Z -> 0 <= float_of_int z.
Proof. intros Hz. apply round_nonneg. by rewrite <- (Zle_Qle 0). Qed.

Lemma fmin_le_l x y : fmin x y <= x.
Proof.
  unfold fmin. destruct (Qle_bool x y) eqn:E; [lra|].
  apply not_true_iff_false in E. rewrite Qle_bool_iff in E. lra.
Qed.

Lemma fmin_nonneg x y : 0 <= x -> 0 <= y -> 0 <= fmin x y.
Proof. unfold fmin. by destruct (Qle_bool x y). Qed.
