(* ===== verification/Json.v ===== *)
(** * [encoding/json]: what [json.Valid] accepts

    The scanner of the standard library as a state machine that consumes one
    byte at a time: the state it is in and the stack of open objects and
    arrays, bounded by the library's nesting limit. *)

From S2P Require Import Prelude GoLib.

Definition maxNestingDepth : Z := 10000.

(** What the scanner is inside of. *)
Inductive ctx : Type := ObjectKey | ObjectValue | ArrayValue.

Inductive step_state : Type :=
| BeginValueOrEmpty
| BeginValue
| BeginStringOrEmpty
| BeginString
| EndValue
| EndTop
| InString
| InStringEsc
| InStringEscU (digits : nat)
| Neg | Num1 | Num0 | Dot | Dot0 | Exp | ExpSign | Exp0
| Literal (rest : list Z).

Record scanner := mkScanner { sc_step : step_state; sc_stack : list ctx }.

Definition scan_start : scanner := mkScanner BeginValue [].

Definition is_space (c : Z) : bool := (c =? 32) || (c =? 9) || (c =? 13) || (c =? 10).
Definition is_digit (c : Z) : bool := (48 <=? c) && (c <=? 57).
Definition is_hex (c : Z) : bool := bool_decide (is_Some (from_hex c)).

Definition push (s : list ctx) (c : ctx) (next : step_state) : option scanner :=
  if Z.of_nat (length s) <? maxNestingDepth then Some (mkScanner next (c :: s)) else None.

Definition pop (s : list ctx) : option scanner :=
  match s with
  | [] | [_] => Some (mkScanner EndTop [])
  | _ :: t => Some (mkScanner EndValue t)
  end.

Definition end_top (c : Z) : option scanner :=
  if is_space c then Some (mkScanner EndTop []) else None.

Definition end_value (s : list ctx) (c : Z) : option scanner :=
  match s with
  | [] => end_top c
  | top :: t =>
      if is_space c then Some (mkScanner EndValue s)
      else match top with
      | ObjectKey => if c =? 58 then Some (mkScanner BeginValue (ObjectValue :: t)) else None
      | ObjectValue =>
          if c =? 44 then Some (mkScanner BeginString (ObjectKey :: t))
          else if c =? 125 then pop s else None
      | ArrayValue =>
          if c =? 44 then Some (mkScanner BeginValue s)
          else if c =? 93 then pop s else None
      end
  end.

Definition begin_value (s : list ctx) (c : Z) : option scanner :=
  if is_space c then Some (mkScanner BeginValue s)
  else if c =? 123 then push s ObjectKey BeginStringOrEmpty
  else if c =? 91 then push s ArrayValue BeginValueOrEmpty
  else if c =? 34 then Some (mkScanner InString s)
  else if c =? 45 then Some (mkScanner Neg s)
  else if c =? 48 then Some (mkScanner Num0 s)
  else if c =? 116 then Some (mkScanner (Literal [114; 117; 101]) s)
  else if c =? 102 then Some (mkScanner (Literal [97; 108; 115; 101]) s)
  else if c =? 110 then Some (mkScanner (Literal [117; 108; 108]) s)
  else if is_digit c then Some (mkScanner Num1 s)
  else None.

Definition begin_string (s : list ctx) (c : Z) : option scanner :=
  if is_space c then Some (mkScanner BeginString s)
  else if c =? 34 then Some (mkScanner InString s) else None.

Definition is_exp (c : Z) : bool := (c =? 101) || (c =? 69).

Definition num0 (s : list ctx) (c : Z) : option scanner :=
  if c =? 46 then Some (mkScanner Dot s)
  else if is_exp c then Some (mkScanner Exp s)
  else end_value s c.

Definition exp_sign (s : list ctx) (c : Z) : option scanner :=
  if is_digit c then Some (mkScanner Exp0 s) else None.

(** One byte; [None] is a syntax error. *)
Definition scan_step (m : scanner) (c : Z) : option scanner :=
  let s := sc_stack m in
  match sc_step m with
  | BeginValueOrEmpty =>
      if is_space c then Some m else if c =? 93 then end_value s c else begin_value s c
  | BeginValue => begin_value s c
  | BeginStringOrEmpty =>
      if is_space c then Some m
      else if c =? 125 then end_value (ObjectValue :: tail s) c
      else begin_string s c
  | BeginString => begin_string s c
  | EndValue => end_value s c
  | EndTop => end_top c
  | InString =>
      if c =? 34 then Some (mkScanner EndValue s)
      else if c =? 92 then Some (mkScanner InStringEsc s)
      else if c <? 32 then None else Some m
  | InStringEsc =>
      if bool_decide (c ∈ [98; 102; 110; 114; 116; 92; 47; 34]) then Some (mkScanner InString s)
      else if c =? 117 then Some (mkScanner (InStringEscU 4) s) else None
  | InStringEscU digits =>
      if is_hex c
      then Some (mkScanner (match digits with S (S k) => InStringEscU (S k) | _ => InString end) s)
      else None
  | Neg =>
      if c =? 48 then Some (mkScanner Num0 s)
      else if is_digit c then Some (mkScanner Num1 s) else None
  | Num1 => if is_digit c then Some m else num0 s c
  | Num0 => num0 s c
  | Dot => if is_digit c then Some (mkScanner Dot0 s) else None
  | Dot0 =>
      if is_digit c then Some m
      else if is_exp c then Some (mkScanner Exp s) else end_value s c
  | Exp => if (c =? 43) || (c =? 45) then Some (mkScanner ExpSign s) else exp_sign s c
  | ExpSign => exp_sign s c
  | Exp0 => if is_digit c then Some m else end_value s c
  | Literal [] => None
  | Literal [x] => if c =? x then Some (mkScanner EndValue s) else None
  | Literal (x :: rest) => if c =? x then Some (mkScanner (Literal rest) s) else None
  end.

Fixpoint scan (m : scanner) (l : list Z) : option scanner :=
  match l with
  | [] => Some m
  | c :: t => match scan_step m c with Some m' => scan m' t | None => None end
  end.

(** End of input: a pending value is closed by a space. *)
Definition scan_eof (m : scanner) : bool :=
  match sc_step m with
  | EndTop => true
  | _ => match scan_step m 32 with
         | Some (mkScanner EndTop _) => true
         | _ => false
         end
  end.

(** [json.Valid]. *)
Definition json_Valid (data : string) : bool :=
  match scan scan_start (codes data) with
  | Some m => scan_eof m
  | None => false
  end.

Lemma json_Valid_empty : json_Valid "" = false.
Proof. reflexivity. Qed.

Lemma json_Valid_nonempty s : json_Valid s = true -> s <> "".
Proof. by intros ? ->. Qed.
