(* ===== verification/Orders.v ===== *)
(** * Orders: [internal/domain/orders]

    The commercial intent of a purchase: identifiers, currencies, catalogue
    products and the pricing of an order. Go's open string types ([Status],
    [Currency]) stay strings, so the zero value and any stored text are
    represented. *)

From S2P Require Import Prelude GoLib.

(** ** Identifiers: [id.go] *)

Definition IDPrefix : string := "ord_".

Definition ErrInvalidID : error := ErrSentinel "orders.ErrInvalidID" "invalid order id".

(** [NewID]: the argument is what [rand.Read] delivered into the 16-byte
    buffer. *)
Definition NewID (entropy : res (list Z)) : res string :=
  match entropy with
  | Err err => Err (wrapf "generate order id" err)
  | Ok value => Ok (IDPrefix +:+ hex_encode value)
  end.

Definition ValidateID (id : string) : res unit :=
  if negb (len id =? len IDPrefix + 32) || negb (HasPrefix id IDPrefix) then Err ErrInvalidID
  else match hex_decode (slice_from (String.length IDPrefix) id) with
       | None => Err ErrInvalidID
       | Some _ => Ok tt
       end.

(** ** Statuses, limits and errors: [order.go] *)

Definition Status : Type := string.
Definition StatusPending : Status := "pending".
Definition StatusPaid : Status := "paid".
Definition StatusCancelled : Status := "cancelled".
Definition StatusExpired : Status := "expired".

Definition MaxQuantity : Z := 1000.
Definition MaxIdempotencyKeyLength : Z := 255.
Definition MaxProductIDLength : Z := 128.

Definition Currency : Type := string.
Definition BRL : Currency := "BRL".

(** [currencyPattern], [^[A-Z]{3}$]: exactly three upper-case ASCII letters. *)
Definition Currency_Valid (c : Currency) : bool :=
  match codes c with
  | [a; b; d] => is_upper a && is_upper b && is_upper d
  | _ => false
  end.

Definition ErrInvalidProductID : error :=
  ErrSentinel "orders.ErrInvalidProductID" "product id must be between 1 and 128 characters".
Definition ErrInvalidQuantity : error :=
  ErrSentinel "orders.ErrInvalidQuantity" ("quantity must be between 1 and " +:+ pretty MaxQuantity).
Definition ErrInvalidIdempotencyKey : error :=
  ErrSentinel "orders.ErrInvalidIdempotencyKey" "idempotency key must be between 1 and 255 characters".
Definition ErrInvalidProduct : error :=
  ErrSentinel "orders.ErrInvalidProduct" "product has an invalid price or currency".
Definition ErrAmountOverflow : error :=
  ErrSentinel "orders.ErrAmountOverflow" "order amount overflows the supported range".

(** ** Products *)

Record Product := mkProduct {
  Product_ID : string;
  Product_Name : string;
  Product_UnitAmount : Z;
  Product_Currency : Currency;
}.

#[export] Instance Product_eq_dec : EqDecision Product.
Proof. solve_decision. Defined.

Definition validProductID (id : string) : bool :=
  (id <>s? "") && (len id <=? MaxProductIDLength) && (TrimSpace id =s? id).

Definition Product_Validate (p : Product) : res unit :=
  if negb (validProductID (Product_ID p)) then Err ErrInvalidProductID
  else if (Product_UnitAmount p <=? 0) || negb (Currency_Valid (Product_Currency p))
  then Err ErrInvalidProduct
  else Ok tt.

(** ** Orders *)

Record Order := mkOrder {
  Order_ID : string;
  Order_Status : Status;
  Order_Amount : Z;
  Order_Currency : Currency;
  Order_ProductID : string;
  Order_Quantity : Z;
  Order_IdempotencyKey : string;
  Order_CreatedAt : Time;
  Order_UpdatedAt : Time;
}.

#[export] Instance Order_eq_dec : EqDecision Order.
Proof. solve_decision. Defined.

Definition ValidateProductID (id : string) : res unit :=
  if negb (validProductID id) then Err ErrInvalidProductID else Ok tt.

Definition ValidateQuantity (quantity : Z) : res unit :=
  if (quantity <? 1) || (MaxQuantity <? quantity) then Err ErrInvalidQuantity else Ok tt.

Definition ValidateIdempotencyKey (key : string) : res unit :=
  if (key =s? "") || (MaxIdempotencyKeyLength <? len key) || (TrimSpace key <>s? key)
  then Err ErrInvalidIdempotencyKey else Ok tt.

(** [int64] division truncates; the product wraps when it is not guarded. *)
Definition multiply (unitAmount quantity : Z) : res Z :=
  if Z.quot MaxInt64 quantity <? unitAmount then Err ErrAmountOverflow
  else Ok (wrap64 (unitAmount * quantity)).

Definition New (id : string) (product : Product) (quantity : Z)
    (idempotencyKey : string) (now : Time) : res Order :=
  if TrimSpace id =s? "" then Err (ErrNew "order id is required") else
  try _ := Product_Validate product in
  try _ := ValidateQuantity quantity in
  try _ := ValidateIdempotencyKey idempotencyKey in
  try amount := multiply (Product_UnitAmount product) quantity in
  Ok {| Order_ID := id; Order_Status := StatusPending; Order_Amount := amount;
        Order_Currency := Product_Currency product; Order_ProductID := Product_ID product;
        Order_Quantity := quantity; Order_IdempotencyKey := idempotencyKey;
        Order_CreatedAt := UTC now; Order_UpdatedAt := UTC now |}.

Definition Settled (o : Order) : bool := Order_Status o <>s? StatusPending.

Definition MarkPaid (o : Order) (now : Time) : Order * bool :=
  if Order_Status o <>s? StatusPending then (o, false)
  else ({| Order_ID := Order_ID o; Order_Status := StatusPaid; Order_Amount := Order_Amount o;
           Order_Currency := Order_Currency o; Order_ProductID := Order_ProductID o;
           Order_Quantity := Order_Quantity o; Order_IdempotencyKey := Order_IdempotencyKey o;
           Order_CreatedAt := Order_CreatedAt o; Order_UpdatedAt := UTC now |}, true).

(** ** Lemmas *)

Lemma multiply_spec unitAmount quantity :
  0 < unitAmount -> 1 <= quantity -> in_int64 quantity ->
  multiply unitAmount quantity =
    if MaxInt64 <? unitAmount * quantity then Err ErrAmountOverflow
    else Ok (unitAmount * quantity).
Proof.
  intros Hu Hq Hq64. unfold multiply.
  rewrite Z.quot_div_nonneg by (unfold MaxInt64; lia).
  pose proof (Z.div_lt_upper_bound MaxInt64 quantity unitAmount).
  pose proof (Z.div_le_lower_bound MaxInt64 quantity unitAmount).
  destruct (Z.ltb_spec (MaxInt64 / quantity) unitAmount),
           (Z.ltb_spec MaxInt64 (unitAmount * quantity)); try (exfalso; lia); [done|].
  f_equal. apply wrap64_id. unfold in_int64, MinInt64. nia.
Qed.

Lemma ValidateQuantity_spec q :
  ValidateQuantity q = if bool_decide (1 <= q <= MaxQuantity) then Ok tt else Err ErrInvalidQuantity.
Proof.
  unfold ValidateQuantity. case_bool_decide; destruct (Z.ltb_spec q 1), (Z.ltb_spec MaxQuantity q);
    simpl; try done; lia.
Qed.

Lemma ValidateIdempotencyKey_cases k :
  ValidateIdempotencyKey k = Ok tt \/ ValidateIdempotencyKey k = Err ErrInvalidIdempotencyKey.
Proof. unfold ValidateIdempotencyKey. case_match; auto. Qed.

Lemma ValidateIdempotencyKey_nonempty k : ValidateIdempotencyKey k = Ok tt -> k <> "".
Proof. unfold ValidateIdempotencyKey. by intros ? ->. Qed.

Lemma Product_Validate_Ok p :
  Product_Validate p = Ok tt <->
  validProductID (Product_ID p) = true /\ 0 < Product_UnitAmount p /\
  Currency_Valid (Product_Currency p) = true.
Proof.
  unfold Product_Validate.
  destruct (validProductID _), (Z.leb_spec (Product_UnitAmount p) 0),
    (Currency_Valid (Product_Currency p)); simpl;
    (split; [intros ?; try done | intros (? & ? & ?); done || lia]).
Qed.

(** Everything [New] guarantees about the order it returns. *)
Record well_priced (o : Order) : Prop := {
  wp_amount : 0 < Order_Amount o <= MaxInt64;
  wp_exact : exists unit, Order_Amount o = unit * Order_Quantity o;
  wp_quantity : 1 <= Order_Quantity o <= MaxQuantity;
  wp_currency : Currency_Valid (Order_Currency o) = true;
  wp_key : ValidateIdempotencyKey (Order_IdempotencyKey o) = Ok tt;
}.

Lemma New_Ok id p q key now o :
  New id p q key now = Ok o ->
  Product_Validate p = Ok tt /\ 1 <= q <= MaxQuantity /\ ValidateIdempotencyKey key = Ok tt /\
  0 < Product_UnitAmount p /\ Product_UnitAmount p * q <= MaxInt64 /\
  o = mkOrder id StatusPending (Product_UnitAmount p * q) (Product_Currency p)
        (Product_ID p) q key (UTC now) (UTC now).
Proof.
  unfold New. case_match; [done|]. rewrite ValidateQuantity_spec.
  destruct (Product_Validate p) as [[]|] eqn:Hp; [|done]. simpl.
  case_bool_decide as Hq; [|done]. simpl.
  destruct (ValidateIdempotencyKey key) as [[]|] eqn:Hk; [|done]. simpl.
  pose proof (proj1 (Product_Validate_Ok p) Hp) as (_ & ? & _).
  rewrite multiply_spec by (try done; try lia; unfold in_int64, MinInt64, MaxInt64, MaxQuantity in *; lia).
  destruct (Z.ltb_spec MaxInt64 (Product_UnitAmount p * q)); simpl; [done|].
  intros [= <-]. done.
Qed.

Lemma New_well_priced id p q key now o : New id p q key now = Ok o -> well_priced o.
Proof.
  intros (Hp & Hq & Hk & Hu & Ha & ->)%New_Ok.
  apply Product_Validate_Ok in Hp as (? & ? & ?).
  split; simpl; eauto; nia.
Qed.

#[export] Hint Resolve New_well_priced : go.

Lemma ValidateID_spec id :
  ValidateID id = Ok tt <->
  len id = 36 /\ HasPrefix id IDPrefix = true /\
  is_Some (hex_decode (slice_from (String.length IDPrefix) id)).
Proof.
  unfold ValidateID. change (len IDPrefix + 32) with 36.
  destruct (Z.eqb_spec (len id) 36), (HasPrefix id IDPrefix); simpl;
    try (split; [done | intros (? & ? & ?); done]).
  destruct (hex_decode _); split; try done; naive_solver.
Qed.

Lemma NewID_Ok entropy id :
  NewID entropy = Ok id -> exists l, entropy = Ok l /\ id = IDPrefix +:+ hex_encode l.
Proof. destruct entropy; simpl; [|done]. intros [= <-]. eauto. Qed.

(** A generated identifier never starts with an upper-case digit. *)
Lemma generated_head_not_A l t : Forall is_byte l -> hex_codes l <> 65 :: t.
Proof.
  destruct 1 as [|b l Hb _]; [done|]. rewrite hex_codes_cons. intros [= H _].
  apply is_byte_nibbles in Hb as [Hb _].
  unfold hex_digit in H. destruct (Z.ltb_spec (b / 16) 10); lia.
Qed.

(** A text of 1 to [max] bytes without surrounding space. *)
Definition bare_text (max : Z) (s : string) : Prop := 1 <= len s <= max /\ TrimSpace s = s.
Definition three_capitals (c : Currency) : Prop :=
  exists x y z, codes c = [x; y; z] /\ Forall (fun a => 65 <= a <= 90) [x; y; z].

(** What [New] asks of its arguments, in its order, with the error it answers
    when that is the first not to hold. *)
Definition pricing_rules (id : string) (p : Product) (q : Z) (key : string) : list (Prop * error) :=
  [(TrimSpace id <> "", ErrNew "order id is required");
   (bare_text 128 (Product_ID p), ErrInvalidProductID);
   (0 < Product_UnitAmount p /\ three_capitals (Product_Currency p), ErrInvalidProduct);
   (1 <= q <= 1000, ErrInvalidQuantity);
   (bare_text 255 key, ErrInvalidIdempotencyKey);
   (Product_UnitAmount p * q <= MaxInt64, ErrAmountOverflow)].

(** The error of the first rule that is broken. *)
Definition first_broken (rules : list (Prop * error)) (e : error) : Prop :=
  exists pre (rule : Prop) post, rules = pre ++ (rule, e) :: post /\ Forall (fun r => r.1) pre /\ ~ rule.

Lemma first_broken_breaks rules e : first_broken rules e -> Forall (fun r => r.1) rules -> False.
Proof. intros (pre & rule & post & -> & _ & Hn) [_ [Hr _]%Forall_cons]%Forall_app. done. Qed.

Lemma first_broken_cons (rule : Prop) e0 rules e :
  first_broken ((rule, e0) :: rules) e <-> ~ rule /\ e = e0 \/ rule /\ first_broken rules e.
Proof.
  split.
  - intros ([|[r0 e1] pre] & r & post & E & Hp & Hn); simplify_eq/=; [by left|right].
    apply Forall_cons in Hp as [Hr Hp]. split; [done|]. by exists pre, r, post.
  - intros [[Hn ->]|[Hr (pre & r & post & -> & Hp & Hn)]]; [by exists [], rule, rules|].
    exists ((rule, e0) :: pre), r, post. split_and!; [done | by constructor | done].
Qed.

Lemma first_broken_unique rules e e' : first_broken rules e -> first_broken rules e' -> e = e'.
Proof.
  induction rules as [|[rule e0] rules IH]; [intros (pre & rule & post & E & _); by destruct pre|].
  rewrite !first_broken_cons. intros [[??]|[??]] [[??]|[??]]; try done; [congruence | by apply IH].
Qed.

Lemma bare_text_spec max s :
  bare_text max s <-> (s <>s? "") && (len s <=? max) && (TrimSpace s =s? s) = true.
Proof.
  unfold bare_text. rewrite !andb_true_iff, negb_true_iff, String.eqb_neq, Z.leb_le, String.eqb_eq.
  assert (1 <= len s <-> s <> "") as ->; [|tauto].
  unfold len. destruct s; cbn [String.length]; split; try done; lia.
Qed.

Lemma three_capitals_spec c : three_capitals c <-> Currency_Valid c = true.
Proof.
  unfold three_capitals, Currency_Valid, is_upper. split.
  - intros (x & y & z & -> & Hf). rewrite !Forall_cons in Hf. lia.
  - intros H. destruct (codes c) as [|x [|y [|z [|]]]]; try done. exists x, y, z. split; [done|]. rewrite !Forall_cons. split_and!; lia || constructor.
Qed.

(** What a chain of checks decides. *)
Definition decides {A} (rules : list (Prop * error)) (r : res A) (a : A) : Prop :=
  Forall (fun rule => rule.1) rules /\ r = Ok a \/ exists e, first_broken rules e /\ r = Err e.

Lemma decides_cons {A} (rule : Prop) (b : bool) e rules (r : res A) a : (rule <-> b = true) ->
  (rule -> decides rules r a) -> decides ((rule, e) :: rules) (if b then r else Err e) a.
Proof.
  intros Hb Hr. unfold decides in *. setoid_rewrite first_broken_cons. destruct b.
  - assert rule as Ht by tauto. destruct (Hr Ht) as [[??]|(e' & ? & ?)]; [left; by split; [constructor|] | right; eauto].
  - right. exists e. split; [|done]. left. split; [|done]. intros Ht%Hb. done.
Qed.

Lemma New_checks id p q key now : New id p q key now =
  if TrimSpace id <>s? "" then
  if validProductID (Product_ID p) then
  if (0 <? Product_UnitAmount p) && Currency_Valid (Product_Currency p) then
  if bool_decide (1 <= q <= 1000) then
  if (key <>s? "") && (len key <=? 255) && (TrimSpace key =s? key) then
  if Product_UnitAmount p * q <=? MaxInt64 then
    Ok (mkOrder id StatusPending (Product_UnitAmount p * q) (Product_Currency p) (Product_ID p) q key now now)
  else Err ErrAmountOverflow else Err ErrInvalidIdempotencyKey else Err ErrInvalidQuantity
  else Err ErrInvalidProduct else Err ErrInvalidProductID else Err (ErrNew "order id is required").
Proof.
  unfold New, Product_Validate, ValidateIdempotencyKey. rewrite ValidateQuantity_spec.
  change MaxQuantity with 1000. change MaxIdempotencyKeyLength with 255. rewrite (Z.leb_antisym 0), (Z.ltb_antisym (len key)).
  destruct (TrimSpace id =s? ""), (validProductID _); try done. cbn [negb res_bind].
  destruct (Z.ltb_spec 0 (Product_UnitAmount p)), (Currency_Valid _); try done. cbn [negb orb andb res_bind].
  case_bool_decide as Hq; [|done]. cbn [res_bind].
  destruct (key =s? ""), (len key <=? 255), (TrimSpace key =s? key); try done. cbn [negb orb andb res_bind].
  rewrite multiply_spec, (Z.ltb_antisym _ MaxInt64) by (try done; try lia; unfold in_int64, MinInt64, MaxInt64; lia).
  by destruct (_ <=? MaxInt64).
Qed.

Lemma New_decides id p q key now : decides (pricing_rules id p q key) (New id p q key now)
  (mkOrder id StatusPending (Product_UnitAmount p * q) (Product_Currency p) (Product_ID p) q key now now).
Proof.
  rewrite New_checks. repeat (apply decides_cons; [|intros _]); [..|left; by split].
  - by rewrite negb_true_iff, String.eqb_neq.
  - apply bare_text_spec.
  - by rewrite three_capitals_spec, andb_true_iff, Z.ltb_lt.
  - by rewrite bool_decide_eq_true.
  - apply bare_text_spec.
  - by rewrite Z.leb_le.
Qed.

(** ** Properties *)

(** C39: pricing an order. For every [int64] unit price, [New] returns an order
    exactly when the identifier is not blank, the product identifier has
    between 1 and 128 bytes and no surrounding space, the price is positive in
    a currency of three capitals, the quantity is between 1 and 1000, the key
    has between 1 and 255 bytes and no surrounding space, and unit price times
    quantity fits in an [int64]; the order is then pending, at exactly that
    product, with the fields it was given. It returns an error exactly when one
    of these does not hold, and then the error of the first of them. *)
Theorem New_prices_exactly (id : string) (p : Product) (q : Z) (key : string) (now : Time) :
  (forall o, New id p q key now = Ok o <->
     Forall (fun rule => rule.1) (pricing_rules id p q key) /\
     o = mkOrder id StatusPending (Product_UnitAmount p * q) (Product_Currency p) (Product_ID p) q key now now) /\
  (forall e, New id p q key now = Err e <-> first_broken (pricing_rules id p q key) e).
Proof.
  destruct (New_decides id p q key now) as [(Hr & E)|(e & He & E)]; rewrite E; split.
  - intros o. split; [by intros [= <-] | by intros [_ ->]].
  - intros e. split; [done|]. intros He. by destruct (first_broken_breaks _ _ He).
  - intros o. split; [done|]. intros [Hr _]. by destruct (first_broken_breaks _ _ He).
  - intros e'. split; [by intros [= <-]|]. intros He'. f_equal. by eapply first_broken_unique.
Qed.

Example sample_pricing :
  New "ord_1" (mkProduct "product_demo" "Demo" 10000 BRL) 3 "key" 5
    = Ok (mkOrder "ord_1" StatusPending 30000 BRL "product_demo" 3 "key" 5 5) /\
  New "ord_1" (mkProduct " product_demo" "Demo" 10000 BRL) 3 "key" 5 = Err ErrInvalidProductID.
Proof. by vm_compute. Qed.

(** Identifiers round trip. Whatever sixteen bytes the random source
    delivers, the identifier [NewID] builds from them passes [ValidateID], and
    the bytes can be read back from it. *)
Theorem ValidateID_accepts_generated (l : list Z) (id : string) :
  Forall is_byte l -> length l = 16%nat -> NewID (Ok l) = Ok id ->
  ValidateID id = Ok tt /\ hex_decode (slice_from (String.length IDPrefix) id) = Some l.
Proof.
  intros Hl Hn (l' & [= <-] & ->)%NewID_Ok.
  rewrite ValidateID_spec, HasPrefix_app, len_app, len_hex_encode, Hn by done.
  rewrite slice_from_app, hex_decode_encode by done. naive_solver.
Qed.

Lemma ValidateID_accepts_generated_witness :
  ValidateID "ord_000102030405060708090a0b0c0d0eff" = Ok tt.
Proof.
  eapply (ValidateID_accepts_generated [0;1;2;3;4;5;6;7;8;9;10;11;12;13;14;255]).
  - repeat (constructor; [unfold is_byte; lia|]). constructor.
  - reflexivity.
  - vm_compute. reflexivity.
Defined.

(** [ValidateID] accepts identifiers [NewID] cannot generate: an
    upper-case hexadecimal body passes, while generated bodies are lower case. *)
Theorem ValidateID_accepts_more :
  exists id, ValidateID id = Ok tt /\ (forall l, Forall is_byte l -> NewID (Ok l) <> Ok id).
Proof.
  exists "ord_AAAAAAAAAAAAAAAAAAAAAAAAAAAAAAAA". split; [vm_compute; reflexivity|].
  intros l Hl (l' & [= <-] & E)%NewID_Ok. apply (f_equal codes) in E.
  rewrite codes_app, codes_hex_encode in E by done. vm_compute codes in E.
  cbn [app] in E. injection E as E. symmetry in E. by apply generated_head_not_A in E.
Qed.
