(* ===== verification/Payments.v ===== *)
(** * Payments: [internal/domain/payments]

    Payments, attempts and provider sessions ([payment.go], [id.go]) and the
    transition matrix that decides what a provider event does to them
    ([transition.go]). The status types are Go string types, so every string is
    a possible stored value; [""] is the zero value that leaves an entity
    untouched. *)

From S2P Require Import Prelude GoLib Orders.

(** ** [id.go] *)

Definition paymentIDPrefix : string := "pay_".
Definition attemptIDPrefix : string := "pat_".

Definition newID (prefix : string) (entropy : res (list Z)) : res string :=
  match entropy with
  | Err err => Err (wrapf ("generate " +:+ prefix +:+ " id") err)
  | Ok value => Ok (prefix +:+ hex_encode value)
  end.
Definition NewPaymentID (entropy : res (list Z)) : res string := newID paymentIDPrefix entropy.
Definition NewAttemptID (entropy : res (list Z)) : res string := newID attemptIDPrefix entropy.

(** ** [payment.go] *)

Definition Provider : Type := string.
Definition Stripe : Provider := "stripe".

Definition Status : Type := string.
Definition StatusPending : Status := "pending".
Definition StatusProcessing : Status := "processing".
Definition StatusSucceeded : Status := "succeeded".
Definition StatusFailed : Status := "failed".
Definition StatusCancelled : Status := "cancelled".
Definition StatusPartiallyRefunded : Status := "partially_refunded".
Definition StatusRefunded : Status := "refunded".

Definition AttemptStatus : Type := string.
Definition AttemptStatusCreated : AttemptStatus := "created".
Definition AttemptStatusPending : AttemptStatus := "pending".
Definition AttemptStatusSucceeded : AttemptStatus := "succeeded".
Definition AttemptStatusFailed : AttemptStatus := "failed".
Definition AttemptStatusExpired : AttemptStatus := "expired".
Definition AttemptStatusCancelled : AttemptStatus := "cancelled".

Definition ErrInvalidPayment : error := ErrSentinel "payments.ErrInvalidPayment" "invalid payment".
Definition ErrInvalidAttempt : error := ErrSentinel "payments.ErrInvalidAttempt" "invalid payment attempt".
Definition ErrInvalidSession : error := ErrSentinel "payments.ErrInvalidSession" "invalid checkout session".

Record Payment := mkPayment {
  Payment_ID : string;
  Payment_OrderID : string;
  Payment_Provider : Provider;
  Payment_Status : Status;
  Payment_Amount : Z;
  Payment_Currency : Currency;
  Payment_CreatedAt : Time;
  Payment_UpdatedAt : Time;
}.

Record Attempt := mkAttempt {
  Attempt_ID : string;
  Attempt_PaymentID : string;
  Attempt_Provider : Provider;
  Attempt_Status : AttemptStatus;
  Attempt_IdempotencyKey : string;
  Attempt_ProviderSessionID : string;
  Attempt_ProviderPaymentIntentID : string;
  Attempt_CheckoutURL : string;
  Attempt_ExpiresAt : Time;
  Attempt_CreatedAt : Time;
  Attempt_UpdatedAt : Time;
}.

Record Session := mkSession {
  Session_ID : string;
  Session_PaymentIntentID : string;
  Session_URL : string;
  Session_ExpiresAt : Time;
}.

#[export] Instance Payment_eq_dec : EqDecision Payment.
Proof. solve_decision. Defined.
#[export] Instance Attempt_eq_dec : EqDecision Attempt.
Proof. solve_decision. Defined.
#[export] Instance Session_eq_dec : EqDecision Session.
Proof. solve_decision. Defined.

Definition New (paymentID attemptID : string) (order : Order) (idempotencyKey : string)
    (now : Time) : res (Payment * Attempt) :=
  if (TrimSpace paymentID =s? "") || (TrimSpace attemptID =s? "") ||
     (Order_ID order =s? "") || (Order_Amount order <=? 0) ||
     negb (Currency_Valid (Order_Currency order)) ||
     negb (is_ok (ValidateQuantity (Order_Quantity order)))
  then Err ErrInvalidPayment
  else if negb (is_ok (ValidateIdempotencyKey idempotencyKey)) then Err ErrInvalidAttempt
  else Ok (mkPayment paymentID (Order_ID order) Stripe StatusPending
             (Order_Amount order) (Order_Currency order) (UTC now) (UTC now),
           mkAttempt attemptID paymentID Stripe AttemptStatusCreated idempotencyKey
             "" "" "" 0 (UTC now) (UTC now)).

Definition AttachSession `{UrlParser} (a : Attempt) (session : Session) (now : Time) : res Attempt :=
  let invalid := match url_parse (Session_URL session) with
                 | None => true
                 | Some parsed => (URL_Scheme parsed <>s? "https") || (URL_Host parsed =s? "")
                 end in
  if (TrimSpace (Session_ID session) =s? "") || invalid ||
     negb (After (Session_ExpiresAt session) now)
  then Err ErrInvalidSession
  else Ok (mkAttempt (Attempt_ID a) (Attempt_PaymentID a) (Attempt_Provider a)
             AttemptStatusPending (Attempt_IdempotencyKey a) (Session_ID session)
             (Session_PaymentIntentID session) (Session_URL session)
             (UTC (Session_ExpiresAt session)) (Attempt_CreatedAt a) (UTC now)).

Definition HasSession (a : Attempt) : bool :=
  (Attempt_Status a =s? AttemptStatusPending) && (Attempt_ProviderSessionID a <>s? "") &&
  (Attempt_CheckoutURL a <>s? "") && negb (IsZero (Attempt_ExpiresAt a)).

(** ** [transition.go] *)

Definition Outcome : Type := string.
Definition OutcomeSucceeded : Outcome := "succeeded".
Definition OutcomePending : Outcome := "pending".
Definition OutcomeFailed : Outcome := "failed".
Definition OutcomeExpired : Outcome := "expired".

Inductive Decision : Type :=
| DecisionApply
| DecisionNoOp
| DecisionConflict.

#[export] Instance Decision_eq_dec : EqDecision Decision.
Proof. solve_decision. Defined.

Definition Decision_String (d : Decision) : string :=
  match d with
  | DecisionApply => "apply"
  | DecisionNoOp => "no-op"
  | DecisionConflict => "conflict"
  end.

Record Transition := mkTransition {
  Transition_Decision : Decision;
  Transition_Attempt : AttemptStatus;
  Transition_Payment : Status;
  Transition_OrderPaid : bool;
  Transition_Reason : string;
}.

#[export] Instance Transition_eq_dec : EqDecision Transition.
Proof. solve_decision. Defined.

(** The two literals the matrix returns without a target. *)
Definition noop (reason : string) : Transition := mkTransition DecisionNoOp "" "" false reason.
Definition conflict (reason : string) : Transition := mkTransition DecisionConflict "" "" false reason.

Definition attemptSettled (status : AttemptStatus) : bool :=
  (status =s? AttemptStatusSucceeded) || (status =s? AttemptStatusFailed) ||
  (status =s? AttemptStatusExpired) || (status =s? AttemptStatusCancelled).

Definition paymentSettled (status : Status) : bool :=
  (status =s? StatusSucceeded) || (status =s? StatusFailed) || (status =s? StatusCancelled) ||
  (status =s? StatusPartiallyRefunded) || (status =s? StatusRefunded).

Definition decideSucceeded (payment : Status) (attempt : AttemptStatus) : Transition :=
  if (payment =s? StatusSucceeded) && (attempt =s? AttemptStatusSucceeded)
  then noop "payment already succeeded"
  else if (payment =s? StatusPartiallyRefunded) || (payment =s? StatusRefunded)
  then noop ("payment already " +:+ payment)
  else if paymentSettled payment
  then conflict ("provider reports success over a payment already " +:+ payment)
  else if attempt =s? AttemptStatusSucceeded
  then mkTransition DecisionApply "" StatusSucceeded true
         "attempt already succeeded; settling the payment only"
  else if attemptSettled attempt
  then conflict ("provider reports success over an attempt already " +:+ attempt)
  else mkTransition DecisionApply AttemptStatusSucceeded StatusSucceeded true "".

Definition decidePending (payment : Status) (attempt : AttemptStatus) : Transition :=
  if paymentSettled payment
  then noop ("payment already " +:+ payment +:+ "; a completed session adds nothing")
  else if payment =s? StatusProcessing then noop "payment already processing"
  else if attemptSettled attempt
  then noop ("attempt already " +:+ attempt +:+ "; a completed session adds nothing")
  else mkTransition DecisionApply "" StatusProcessing false "".

Definition decideFailed (payment : Status) (attempt : AttemptStatus) : Transition :=
  if (payment =s? StatusFailed) && (attempt =s? AttemptStatusFailed)
  then noop "payment already failed"
  else if payment =s? StatusSucceeded then noop "payment already succeeded"
  else if paymentSettled payment then noop ("payment already " +:+ payment)
  else if attempt =s? AttemptStatusFailed
  then mkTransition DecisionApply "" StatusFailed false
         "attempt already failed; failing the payment only"
  else if attemptSettled attempt then noop ("attempt already " +:+ attempt)
  else mkTransition DecisionApply AttemptStatusFailed StatusFailed false "".

Definition decideExpired (payment : Status) (attempt : AttemptStatus) : Transition :=
  if attemptSettled attempt then noop ("attempt already " +:+ attempt)
  else if paymentSettled payment
  then noop ("payment already " +:+ payment +:+ "; the session expiring changes nothing")
  else mkTransition DecisionApply AttemptStatusExpired "" false "".

Definition Decide (outcome : Outcome) (payment : Status) (attempt : AttemptStatus) : Transition :=
  if outcome =s? OutcomeSucceeded then decideSucceeded payment attempt
  else if outcome =s? OutcomePending then decidePending payment attempt
  else if outcome =s? OutcomeFailed then decideFailed payment attempt
  else if outcome =s? OutcomeExpired then decideExpired payment attempt
  else conflict ("unknown financial outcome: " +:+ outcome).
