(* ===== verification/Transitions.v ===== *)
(** * Theory of the transition matrix

    [Payments.Decide] answers one event at a time. Here the matrix is iterated:
    [deliver] writes an approved transition the way the consumer's
    [applyEffect] does (an empty target leaves its entity untouched) and
    [deliver_all] runs a whole sequence of deliveries, counting transitions
    and conflicts. The theorems are about every arrival order. *)

From S2P Require Import Prelude GoLib Payments.

(** ** Delivering events *)

Definition State : Type := Status * AttemptStatus.

Definition write (target current : string) : string :=
  if target =s? "" then current else target.

Definition applied (t : Transition) (s : State) : State :=
  (write (Transition_Payment t) s.1, write (Transition_Attempt t) s.2).

Record Run := mkRun { run_state : State; run_applies : nat; run_conflicts : nat }.

Definition deliver (r : Run) (o : Outcome) : Run :=
  let t := Decide o (run_state r).1 (run_state r).2 in
  match Transition_Decision t with
  | DecisionApply => mkRun (applied t (run_state r)) (S (run_applies r)) (run_conflicts r)
  | DecisionNoOp => r
  | DecisionConflict => mkRun (run_state r) (run_applies r) (S (run_conflicts r))
  end.

Definition deliver_all (l : list Outcome) (s : State) : Run := fold_left deliver l (mkRun s 0 0).

(** The payment was charged: recorded as succeeded, or refunded afterwards. *)
Definition charged (p : Status) : bool :=
  (p =s? StatusSucceeded) || (p =s? StatusPartiallyRefunded) || (p =s? StatusRefunded).

(** How far an aggregate got; every transition increases it. *)
Definition payment_rank (p : Status) : nat :=
  if paymentSettled p then 2 else if p =s? StatusProcessing then 1 else 0.
Definition attempt_rank (a : AttemptStatus) : nat := if attemptSettled a then 1 else 0.
Definition rank (s : State) : nat := payment_rank s.1 + attempt_rank s.2.

Definition known_outcome (o : Outcome) : bool :=
  (o =s? OutcomeSucceeded) || (o =s? OutcomePending) || (o =s? OutcomeFailed) || (o =s? OutcomeExpired).

(** The states in which a success contradicts what is recorded. *)
Definition contradicts_success (p : Status) (a : AttemptStatus) : bool :=
  if paymentSettled p
  then (p =s? StatusFailed) || (p =s? StatusCancelled) ||
       ((p =s? StatusSucceeded) && (a <>s? AttemptStatusSucceeded))
  else attemptSettled a && (a <>s? AttemptStatusSucceeded).

Definition conflicting (o : Outcome) (p : Status) (a : AttemptStatus) : bool :=
  negb (known_outcome o) || ((o =s? OutcomeSucceeded) && contradicts_success p a).

(** The states in which an event has nothing left to add. *)
Definition quiet (o : Outcome) (p : Status) (a : AttemptStatus) : bool :=
  if o =s? OutcomeSucceeded then charged p
  else if o =s? OutcomePending then paymentSettled p || (p =s? StatusProcessing) || attemptSettled a
  else if o =s? OutcomeFailed then paymentSettled p || (attemptSettled a && (a <>s? AttemptStatusFailed))
  else paymentSettled p || attemptSettled a.

(** The rows of the matrix as a relation: six that write, one that has nothing
    to add and one that contradicts. *)
Inductive row : Outcome -> Status -> AttemptStatus -> Transition -> Prop :=
| row_settle p a :
    paymentSettled p = false -> attemptSettled a = false ->
    row OutcomeSucceeded p a
      (mkTransition DecisionApply AttemptStatusSucceeded StatusSucceeded true "")
| row_settle_payment p reason :
    paymentSettled p = false ->
    row OutcomeSucceeded p AttemptStatusSucceeded
      (mkTransition DecisionApply "" StatusSucceeded true reason)
| row_process p a :
    paymentSettled p = false -> p <> StatusProcessing -> attemptSettled a = false ->
    row OutcomePending p a (mkTransition DecisionApply "" StatusProcessing false "")
| row_fail p a :
    paymentSettled p = false -> attemptSettled a = false ->
    row OutcomeFailed p a (mkTransition DecisionApply AttemptStatusFailed StatusFailed false "")
| row_fail_payment p reason :
    paymentSettled p = false ->
    row OutcomeFailed p AttemptStatusFailed
      (mkTransition DecisionApply "" StatusFailed false reason)
| row_expire p a :
    paymentSettled p = false -> attemptSettled a = false ->
    row OutcomeExpired p a (mkTransition DecisionApply AttemptStatusExpired "" false "")
| row_noop o p a reason :
    conflicting o p a = false -> quiet o p a = true -> row o p a (noop reason)
| row_conflict o p a reason :
    conflicting o p a = true -> row o p a (conflict reason).

(** ** The matrix has exactly these rows *)

Lemma paymentSettled_charged p :
  paymentSettled p = charged p || (p =s? StatusFailed) || (p =s? StatusCancelled).
Proof.
  unfold paymentSettled, charged.
  destruct (p =s? StatusSucceeded), (p =s? StatusFailed), (p =s? StatusCancelled),
    (p =s? StatusPartiallyRefunded), (p =s? StatusRefunded); reflexivity.
Qed.

Lemma attempt_succeeded_settled : attemptSettled AttemptStatusSucceeded = true.
Proof. reflexivity. Qed.
Lemma attempt_failed_settled : attemptSettled AttemptStatusFailed = true.
Proof. reflexivity. Qed.

(** Splits the conditions of the matrix without unfolding the predicates on
    statuses. *)
Ltac row_split :=
  repeat match goal with
  | |- context [if ?b then _ else _] => let E := fresh "E" in destruct b eqn:E
  end; go_bool; subst.

Lemma decideSucceeded_row p a : row OutcomeSucceeded p a (decideSucceeded p a).
Proof.
  unfold decideSucceeded.
  destruct ((p =s? StatusSucceeded) && (a =s? AttemptStatusSucceeded)) eqn:E1.
  { go_bool. subst. by constructor. }
  destruct ((p =s? StatusPartiallyRefunded) || (p =s? StatusRefunded)) eqn:E2.
  { constructor.
    - apply orb_true_iff in E2 as [?%String.eqb_eq|?%String.eqb_eq]; by subst p.
    - unfold quiet, charged. rewrite <- orb_assoc, E2. simpl. apply orb_true_r. }
  destruct (paymentSettled p) eqn:E3.
  { constructor. unfold conflicting, contradicts_success. rewrite E3. simpl.
    rewrite paymentSettled_charged in E3. unfold charged in E3. revert E1 E2 E3.
    destruct (p =s? StatusSucceeded), (a =s? AttemptStatusSucceeded),
      (p =s? StatusFailed), (p =s? StatusCancelled), (p =s? StatusPartiallyRefunded),
      (p =s? StatusRefunded); simpl; congruence. }
  destruct (String.eqb_spec a AttemptStatusSucceeded) as [Ea|Ha].
  { subst. by apply row_settle_payment. }
  destruct (attemptSettled a) eqn:E4.
  { constructor. unfold conflicting, contradicts_success. rewrite E3, E4. simpl.
    by destruct (String.eqb_spec a AttemptStatusSucceeded). }
  by constructor.
Qed.

Lemma decidePending_row p a : row OutcomePending p a (decidePending p a).
Proof.
  unfold decidePending.
  destruct (paymentSettled p) eqn:E1; [constructor; unfold quiet; rewrite ?E1; done|].
  destruct (String.eqb_spec p StatusProcessing) as [->|Hp]; [by constructor|].
  destruct (attemptSettled a) eqn:E2; [|by constructor].
  constructor; unfold quiet; simpl; rewrite ?E1, ?E2, ?orb_true_r; done.
Qed.

Lemma decideFailed_row p a : row OutcomeFailed p a (decideFailed p a).
Proof.
  unfold decideFailed.
  destruct ((p =s? StatusFailed) && (a =s? AttemptStatusFailed)) eqn:E1.
  { go_bool. subst. by constructor. }
  destruct (String.eqb_spec p StatusSucceeded) as [->|Hp]; [by constructor|].
  destruct (paymentSettled p) eqn:E2; [constructor; unfold quiet; rewrite ?E2; done|].
  destruct (String.eqb_spec a AttemptStatusFailed) as [Ea|Ha]; [subst; by apply row_fail_payment|].
  destruct (attemptSettled a) eqn:E3; [|by constructor].
  constructor; unfold quiet; simpl; rewrite ?E2, ?E3; [done|].
  by destruct (String.eqb_spec a AttemptStatusFailed).
Qed.

Lemma decideExpired_row p a : row OutcomeExpired p a (decideExpired p a).
Proof.
  unfold decideExpired.
  destruct (attemptSettled a) eqn:E1;
    [constructor; unfold quiet; simpl; rewrite ?E1, ?orb_true_r; done|].
  destruct (paymentSettled p) eqn:E2; [constructor; unfold quiet; rewrite ?E2; done|].
  by constructor.
Qed.

Lemma Decide_row o p a : row o p a (Decide o p a).
Proof.
  unfold Decide.
  destruct (String.eqb_spec o OutcomeSucceeded) as [->|H1]; [apply decideSucceeded_row|].
  destruct (String.eqb_spec o OutcomePending) as [->|H2]; [apply decidePending_row|].
  destruct (String.eqb_spec o OutcomeFailed) as [->|H3]; [apply decideFailed_row|].
  destruct (String.eqb_spec o OutcomeExpired) as [->|H4]; [apply decideExpired_row|].
  constructor. unfold conflicting, known_outcome.
  apply String.eqb_neq in H1, H2, H3, H4. by rewrite H1, H2, H3, H4.
Qed.

(** Case analysis on the answer of the matrix. *)
Ltac by_rows o p a := destruct (Decide_row o p a); simpl in *; try done.

(** ** Lemmas *)

Lemma apply_unsettled o p a :
  Transition_Decision (Decide o p a) = DecisionApply -> paymentSettled p = false.
Proof. by_rows o p a. Qed.

Lemma apply_attempt_unsettled o p a :
  Transition_Decision (Decide o p a) = DecisionApply ->
  Transition_Attempt (Decide o p a) <> "" ->
  attemptSettled a = false /\ attemptSettled (Transition_Attempt (Decide o p a)) = true.
Proof. by_rows o p a. Qed.

Lemma apply_order_paid o p a :
  Transition_OrderPaid (Decide o p a) = true <-> Transition_Payment (Decide o p a) = StatusSucceeded.
Proof. by_rows o p a. Qed.

Lemma order_paid_apply o p a :
  Transition_OrderPaid (Decide o p a) = true ->
  o = OutcomeSucceeded /\ Transition_Decision (Decide o p a) = DecisionApply /\
  Transition_Payment (Decide o p a) = StatusSucceeded.
Proof. by_rows o p a. Qed.

Lemma apply_some_target o p a :
  Transition_Decision (Decide o p a) = DecisionApply ->
  Transition_Payment (Decide o p a) <> "" \/ Transition_Attempt (Decide o p a) <> "".
Proof. by_rows o p a; intros _; by (left + right). Qed.

Lemma not_apply_no_target o p a :
  Transition_Decision (Decide o p a) <> DecisionApply ->
  Transition_Payment (Decide o p a) = "" /\ Transition_Attempt (Decide o p a) = "" /\
  Transition_OrderPaid (Decide o p a) = false.
Proof. by_rows o p a. Qed.

(** ** Sequences of deliveries *)

Lemma deliver_conflicts_mono r o : (run_conflicts r <= run_conflicts (deliver r o))%nat.
Proof. unfold deliver. case_match; simpl; lia. Qed.

Lemma fold_conflicts_mono l r : (run_conflicts r <= run_conflicts (fold_left deliver l r))%nat.
Proof.
  revert r. induction l as [|o l IH]; intros r; simpl; [lia|].
  pose proof (deliver_conflicts_mono r o). specialize (IH (deliver r o)). lia.
Qed.

Lemma deliver_settled r o :
  paymentSettled (run_state r).1 = true -> run_state (deliver r o) = run_state r.
Proof.
  intros H. unfold deliver. destruct (Transition_Decision _) eqn:E; [|done..].
  apply apply_unsettled in E. congruence.
Qed.

Lemma fold_settled l r :
  paymentSettled (run_state r).1 = true -> run_state (fold_left deliver l r) = run_state r.
Proof.
  revert r. induction l as [|o l IH]; intros r H; [done|]. simpl.
  rewrite IH; rewrite deliver_settled; done.
Qed.

Lemma charged_settled p : charged p = true -> paymentSettled p = true.
Proof. intros H. by rewrite paymentSettled_charged, H. Qed.

Lemma deliver_success r :
  charged (run_state (deliver r OutcomeSucceeded)).1 = true \/
  (run_conflicts r < run_conflicts (deliver r OutcomeSucceeded))%nat.
Proof.
  unfold deliver. destruct r as [[p a] n c]. simpl.
  pose proof (Decide_row OutcomeSucceeded p a) as H.
  inversion H as [? ? Hp Ha E|? ? Hp E| | | | |? ? ? ? Hc Hq E|]; simpl; auto.
Qed.

Lemma rank_apply o s :
  Transition_Decision (Decide o s.1 s.2) = DecisionApply ->
  (rank s < rank (applied (Decide o s.1 s.2) s) <= 3)%nat.
Proof.
  destruct s as [p a]. unfold rank, payment_rank, attempt_rank, applied. simpl.
  destruct (Decide_row o p a) as [p a Hp Ha|p ? Hp|p a Hp Hx Ha|p a Hp Ha|p ? Hp|p a Hp Ha| |];
    simpl; try done; intros _; rewrite ?Hp, ?Ha; simpl; repeat case_match; try lia.
  all: change (write "") with (fun c : string => c) in *; simpl in *; go_bool; congruence.
Qed.

Lemma rank_le s : (rank s <= 3)%nat.
Proof. unfold rank, payment_rank, attempt_rank. repeat case_match; lia. Qed.

Lemma deliver_rank r o :
  (run_applies (deliver r o) + rank (run_state r) <=
   run_applies r + rank (run_state (deliver r o)))%nat.
Proof.
  unfold deliver. destruct (Transition_Decision _) eqn:E; simpl; try lia.
  apply rank_apply in E. lia.
Qed.

Lemma fold_rank l r :
  (run_applies (fold_left deliver l r) + rank (run_state r) <=
   run_applies r + rank (run_state (fold_left deliver l r)))%nat.
Proof.
  revert r. induction l as [|o l IH]; intros r; simpl; [lia|].
  pose proof (deliver_rank r o). specialize (IH (deliver r o)). lia.
Qed.

(** The final state of a conflict-free delivery of events among succeeded,
    pending and failed, read off the set of outcomes. *)
Definition summary (l : list Outcome) (s : State) : State :=
  if bool_decide (OutcomeSucceeded ∈ l) then (StatusSucceeded, AttemptStatusSucceeded)
  else if bool_decide (OutcomeFailed ∈ l) then (StatusFailed, AttemptStatusFailed)
  else if bool_decide (OutcomePending ∈ l) then (StatusProcessing, s.2)
  else s.

Definition open (s : State) : Prop := paymentSettled s.1 = false /\ attemptSettled s.2 = false.

(** One delivery in an open state. *)
Lemma deliver_open r o :
  open (run_state r) -> o ∈ [OutcomeSucceeded; OutcomePending; OutcomeFailed] ->
  run_conflicts (deliver r o) = run_conflicts r /\
  run_state (deliver r o) = summary [o] (run_state r).
Proof.
  intros [Hp Ha] Ho. destruct r as [[p a] n c]. simpl in *.
  unfold deliver, summary, applied. simpl.
  repeat (apply elem_of_cons in Ho as [->|Ho]); [| | |by apply elem_of_nil in Ho];
    unfold Decide; simpl.
  - unfold decideSucceeded. rewrite Hp, Ha.
    destruct (String.eqb_spec p StatusSucceeded); [by subst p|].
    destruct (String.eqb_spec p StatusPartiallyRefunded); [by subst p|].
    destruct (String.eqb_spec p StatusRefunded); [by subst p|].
    destruct (String.eqb_spec a AttemptStatusSucceeded); [by subst a|]. done.
  - unfold decidePending. rewrite Hp, Ha.
    destruct (String.eqb_spec p StatusProcessing); [by subst p|]. done.
  - unfold decideFailed. rewrite Hp, Ha.
    destruct (String.eqb_spec p StatusFailed); [by subst p|].
    destruct (String.eqb_spec p StatusSucceeded); [by subst p|].
    destruct (String.eqb_spec a AttemptStatusFailed); [by subst a|]. done.
Qed.

(** A success after a recorded failure is a conflict. *)
Lemma fold_failed_success l r :
  run_state r = (StatusFailed, AttemptStatusFailed) -> OutcomeSucceeded ∈ l ->
  (run_conflicts r < run_conflicts (fold_left deliver l r))%nat.
Proof.
  revert r. induction l as [|o l IH]; intros r Hr Hin; [by apply elem_of_nil in Hin|].
  simpl. pose proof (deliver_conflicts_mono r o).
  apply elem_of_cons in Hin as [<-|Hin].
  - pose proof (fold_conflicts_mono l (deliver r OutcomeSucceeded)).
    destruct (deliver_success r) as [Hc|]; [|lia].
    rewrite deliver_settled, Hr in Hc by (by rewrite Hr). done.
  - enough (run_conflicts (deliver r o) < run_conflicts (fold_left deliver l (deliver r o)))%nat by lia.
    apply IH; [|done]. by rewrite deliver_settled; rewrite Hr.
Qed.

Lemma fold_summary l r :
  open (run_state r) ->
  (forall o, o ∈ l -> o ∈ [OutcomeSucceeded; OutcomePending; OutcomeFailed]) ->
  run_conflicts (fold_left deliver l r) = run_conflicts r ->
  run_state (fold_left deliver l r) = summary l (run_state r).
Proof.
  revert r. induction l as [|o l IH]; intros r Hopen Hl Hc; [done|]. simpl in *.
  assert (o ∈ [OutcomeSucceeded; OutcomePending; OutcomeFailed]) as Ho by (apply Hl; left).
  destruct (deliver_open r o Hopen Ho) as [Ec Es].
  repeat (apply elem_of_cons in Ho as [->|Ho]); [| | |by apply elem_of_nil in Ho].
  - rewrite fold_settled, Es by (by rewrite Es). unfold summary.
    rewrite !bool_decide_true by (by left). done.
  - rewrite IH; [| |set_solver|congruence].
    + rewrite Es. unfold summary. simpl. repeat case_bool_decide; set_solver.
    + rewrite Es. destruct Hopen. done.
  - assert (OutcomeSucceeded ∉ l) as Hns.
    { intros Hin. pose proof (fold_failed_success l (deliver r OutcomeFailed)) as H.
      rewrite Es in H. specialize (H eq_refl Hin). lia. }
    rewrite fold_settled, Es by (by rewrite Es). unfold summary. simpl.
    repeat case_bool_decide; set_solver.
Qed.

(** *** Inert events stay inert *)

Definition inert (o : Outcome) (s : State) : Prop :=
  Transition_Decision (Decide o s.1 s.2) <> DecisionApply.

Lemma inert_deliver o r : inert o (run_state r) ->
  run_state (deliver r o) = run_state r /\ run_applies (deliver r o) = run_applies r.
Proof. unfold inert, deliver. destruct (Transition_Decision _); done. Qed.

(** In an open state every known outcome applies, except a second pending. *)
Lemma Decide_open o p a :
  open (p, a) -> known_outcome o = true -> (o = OutcomePending -> p <> StatusProcessing) ->
  Transition_Decision (Decide o p a) = DecisionApply.
Proof.
  intros [Hp Ha] Hk Hx. simpl in *.
  destruct (Decide_row o p a) as [| | | | | |? ? ? ? Hc Hq|? ? ? ? Hc]; try done; exfalso.
  - revert Hq. unfold quiet. rewrite Hp, Ha. simpl.
    destruct (String.eqb_spec o OutcomeSucceeded); [intros ?%charged_settled; congruence|].
    destruct (String.eqb_spec o OutcomePending); [|by case_match].
    rewrite orb_false_r. intros ?%String.eqb_eq. by apply Hx.
  - unfold conflicting, contradicts_success in Hc. rewrite Hk, Hp, Ha in Hc. simpl in Hc.
    by rewrite andb_false_r in Hc.
Qed.

Lemma applies_known o p a :
  Transition_Decision (Decide o p a) = DecisionApply -> known_outcome o = true.
Proof. by_rows o p a. Qed.

(** Every transition leaves its own outcome inert. *)
Lemma applied_inert o s :
  Transition_Decision (Decide o s.1 s.2) = DecisionApply ->
  inert o (applied (Decide o s.1 s.2) s).
Proof.
  destruct s as [p a]. unfold inert, applied. simpl. intros H H2.
  pose proof (apply_unsettled _ _ _ H2) as Hu.
  destruct (Decide_row o p a) as [| |p a Hp Hx Ha| | |p a Hp Ha| |]; simpl in *; try done.
Qed.

Lemma inert_preserved o o' s :
  inert o s -> Transition_Decision (Decide o' s.1 s.2) = DecisionApply ->
  inert o (applied (Decide o' s.1 s.2) s).
Proof.
  destruct s as [p a]. unfold inert, applied. simpl. intros Hi H' H.
  pose proof (apply_unsettled _ _ _ H) as Hu. pose proof (applies_known _ _ _ H) as Hk.
  destruct (Decide_row o' p a) as [| |p a Hp Hx Ha| | |p a Hp Ha| |]; simpl in *; try done; apply Hi.
  - apply Decide_open; done.
  - apply Decide_open; [done..|]. intros -> ->.
    revert H. unfold Decide, decidePending. simpl. by destruct (paymentSettled _).
Qed.

Lemma inert_deliver_preserved o o' r :
  inert o (run_state r) -> inert o (run_state (deliver r o')).
Proof.
  intros Hi. unfold deliver. destruct (Transition_Decision _) eqn:E; [|done..].
  by apply inert_preserved.
Qed.

Lemma deliver_inert o r : inert o (run_state (deliver r o)).
Proof.
  unfold deliver. destruct (Transition_Decision _) eqn:E; simpl.
  - by apply applied_inert.
  - unfold inert. by rewrite E.
  - unfold inert. by rewrite E.
Qed.

Lemma fold_inert o l r : inert o (run_state r) \/ o ∈ l -> inert o (run_state (fold_left deliver l r)).
Proof.
  revert r. induction l as [|o' l IH]; intros r H; simpl.
  - destruct H as [|H]; [done | by apply elem_of_nil in H].
  - apply IH. destruct H as [H|[->|H]%elem_of_cons]; auto using inert_deliver_preserved, deliver_inert.
Qed.

(** ** Properties *)

(** What an approved transition may do. The matrix approves a transition
    only over an unsettled payment; it moves an attempt only from an unsettled
    to a settled status; it always names something to write; and it pays the
    order exactly when it records the payment as succeeded, which happens only
    for a provider success. Every other answer names nothing to write. *)
Theorem Decide_safe (o : Outcome) (p : Status) (a : AttemptStatus) :
  let t := Decide o p a in
  (Transition_OrderPaid t = true <-> Transition_Payment t = StatusSucceeded) /\
  (Transition_OrderPaid t = true -> o = OutcomeSucceeded /\ Transition_Decision t = DecisionApply) /\
  if decide (Transition_Decision t = DecisionApply)
  then paymentSettled p = false /\
       (Transition_Attempt t <> "" -> attemptSettled a = false /\ attemptSettled (Transition_Attempt t) = true) /\
       (Transition_Payment t <> "" \/ Transition_Attempt t <> "")
  else Transition_Payment t = "" /\ Transition_Attempt t = "" /\ Transition_OrderPaid t = false.
Proof.
  intros t. split; [apply apply_order_paid|].
  split; [intros H; by destruct (order_paid_apply _ _ _ H) as (? & ? & ?)|].
  case_decide as H.
  - split; [by eapply apply_unsettled|]. split; [by apply apply_attempt_unsettled|].
    by apply apply_some_target.
  - by apply not_apply_no_target.
Qed.

(** When the matrix refuses. A delivery is a conflict exactly when its
    outcome is none of the four known ones, or it reports a success over a
    payment recorded as failed or cancelled, over a succeeded payment whose
    attempt is not, or over an attempt that ended any other way. *)
Theorem Decide_conflict_iff (o : Outcome) (p : Status) (a : AttemptStatus) :
  Transition_Decision (Decide o p a) = DecisionConflict <-> conflicting o p a = true.
Proof.
  destruct (Decide_row o p a) as [p a Hp Ha|p ? Hp|p a Hp Hx Ha|p a Hp Ha|p ? Hp|p a Hp Ha|o p a ? Hc|o p a ? Hc];
    simpl; unfold conflicting, contradicts_success in *; simpl; rewrite ?Hp, ?Ha; simpl;
    split; intros; try done; congruence.
Qed.

(** C22: a charge is never lost. Whatever the recorded state and whatever else
    is delivered before and after, once a success is among the deliveries the
    payment ends recorded as charged or a conflict was raised for an operator. *)
Theorem success_never_lost (s : State) (l : list Outcome) :
  OutcomeSucceeded ∈ l ->
  charged (run_state (deliver_all l s)).1 = true \/ (0 < run_conflicts (deliver_all l s))%nat.
Proof.
  intros (l1 & l2 & ->)%list_elem_of_split. unfold deliver_all.
  rewrite fold_left_app. simpl. set (r := fold_left deliver l1 _).
  pose proof (fold_conflicts_mono l2 (deliver r OutcomeSucceeded)).
  destruct (deliver_success r) as [Hc|Hlt]; [left|right; lia].
  by rewrite fold_settled; [|apply charged_settled].
Qed.

Lemma success_never_lost_witness :
  charged (run_state (deliver_all ["pending"; "succeeded"; "expired"] ("pending", "pending"))).1 = true \/
  (0 < run_conflicts (deliver_all ["pending"; "succeeded"; "expired"] ("pending", "pending")))%nat.
Proof.
  apply (success_never_lost ("pending", "pending") ["pending"; "succeeded"; "expired"]).
  apply list_elem_of_further, list_elem_of_here.
Defined.

(** Deliveries are idempotent at any distance. After any sequence of
    deliveries, delivering again an event that was part of it, however long ago
    and whatever came in between, writes nothing. *)
Theorem redelivery_writes_nothing (s : State) (l : list Outcome) (o : Outcome) :
  o ∈ l ->
  run_state (deliver (deliver_all l s) o) = run_state (deliver_all l s) /\
  run_applies (deliver (deliver_all l s) o) = run_applies (deliver_all l s).
Proof. intros Ho. apply inert_deliver, fold_inert. by right. Qed.

Lemma redelivery_writes_nothing_witness :
  run_state (deliver (deliver_all ["pending"; "failed"] ("pending", "created")) "pending") = ("failed", "failed").
Proof.
  apply (redelivery_writes_nothing ("pending", "created") ["pending"; "failed"] "pending").
  apply list_elem_of_here.
Defined.

(** An aggregate settles. Over any sequence of deliveries at most three
    transitions are approved, and a settled payment never moves again. *)
Theorem deliveries_settle (s : State) (l l' : list Outcome) :
  (run_applies (deliver_all l s) <= 3)%nat /\
  (paymentSettled (run_state (deliver_all l s)).1 = true ->
   run_state (deliver_all (l ++ l') s) = run_state (deliver_all l s)).
Proof.
  unfold deliver_all. split.
  - pose proof (fold_rank l (mkRun s 0 0)) as H.
    pose proof (rank_le (run_state (fold_left deliver l (mkRun s 0 0)))). simpl in *. lia.
  - intros H. rewrite fold_left_app. by apply fold_settled.
Qed.

Lemma deliveries_settle_witness :
  run_state (deliver_all (["succeeded"] ++ ["failed"; "expired"]) ("processing", "pending"))
  = ("succeeded", "succeeded").
Proof. apply (proj2 (deliveries_settle ("processing", "pending") ["succeeded"] ["failed"; "expired"])). reflexivity. Defined.

(** Order independence. From an open payment and attempt, deliveries of
    succeeded, pending and failed that raise no conflict end in a state that
    depends only on which outcomes occurred, so any two arrival orders of the
    same events that raise no conflict agree. *)
Theorem arrival_order_irrelevant (s : State) (l l' : list Outcome) :
  open s ->
  (forall o, o ∈ l -> o ∈ [OutcomeSucceeded; OutcomePending; OutcomeFailed]) ->
  (forall o, o ∈ l <-> o ∈ l') ->
  run_conflicts (deliver_all l s) = 0%nat -> run_conflicts (deliver_all l' s) = 0%nat ->
  run_state (deliver_all l s) = run_state (deliver_all l' s).
Proof.
  intros Hs Hl Heq H1 H2. unfold deliver_all in *.
  rewrite !fold_summary; try done; [|set_solver].
  unfold summary. by rewrite !(bool_decide_ext _ _ (Heq _)).
Qed.

Lemma arrival_order_irrelevant_witness :
  run_state (deliver_all ["pending"; "succeeded"; "failed"] ("pending", "pending")) =
  run_state (deliver_all ["succeeded"; "failed"; "pending"; "succeeded"] ("pending", "pending")).
Proof.
  apply (arrival_order_irrelevant ("pending", "pending")
           ["pending"; "succeeded"; "failed"] ["succeeded"; "failed"; "pending"; "succeeded"]).
  - split; reflexivity.
  - set_solver.
  - set_solver.
  - reflexivity.
  - reflexivity.
Defined.
