(* ===== verification/Webhooks.v ===== *)
(** * Inbox events and outbox messages: [internal/domain/webhooks]

    The durable inbox entry, the message produced from it and their
    identifiers ([event.go], [id.go]). Payload bytes are Go byte strings. *)

From S2P Require Import Prelude GoLib Json.

(** ** [event.go] *)

Definition Provider : Type := string.
Definition Stripe : Provider := "stripe".

Definition Kind : Type := string.
Definition KindUnknown : Kind := "".
Definition KindCheckoutCompleted : Kind := "checkout.completed".
Definition KindCheckoutPaymentSucceeded : Kind := "checkout.payment_succeeded".
Definition KindCheckoutPaymentFailed : Kind := "checkout.payment_failed".
Definition KindCheckoutExpired : Kind := "checkout.expired".

Definition Status : Type := string.
Definition StatusPending : Status := "pending".
Definition StatusProcessing : Status := "processing".
Definition StatusProcessed : Status := "processed".
Definition StatusFailed : Status := "failed".
Definition StatusSkipped : Status := "skipped".

Definition MessageStatus : Type := string.
Definition MessageStatusPending : MessageStatus := "pending".
Definition MessagePublished : MessageStatus := "published".
Definition MessageStatusFailed : MessageStatus := "failed".

Definition SchemaVersion : Z := 1.
Definition routingKeyPrefix : string := "payment.webhook.".

Definition ErrInvalidEvent : error := ErrSentinel "webhooks.ErrInvalidEvent" "invalid webhook event".
Definition ErrInvalidMessage : error := ErrSentinel "webhooks.ErrInvalidMessage" "invalid outbox message".

Record Event := mkEvent {
  Event_ID : string;
  Event_Provider : Provider;
  Event_ProviderEventID : string;
  Event_Type : string;
  Event_Kind : Kind;
  Event_RawPayload : string;
  Event_Payload : string;
  Event_Status : Status;
  Event_ReceivedAt : Time;
}.

Record Message := mkMessage {
  Message_ID : string;
  Message_EventID : string;
  Message_Kind : Kind;
  Message_SchemaVersion : Z;
  Message_RoutingKey : string;
  Message_CorrelationID : string;
  Message_OccurredAt : Time;
  Message_Status : MessageStatus;
  Message_CreatedAt : Time;
}.

#[export] Instance Event_eq_dec : EqDecision Event.
Proof. solve_decision. Defined.
#[export] Instance Message_eq_dec : EqDecision Message.
Proof. solve_decision. Defined.

Definition NewEvent (id : string) (provider : Provider) (providerEventID eventType : string)
    (kind : Kind) (raw payload : string) (now : Time) : res Event :=
  if (TrimSpace id =s? "") || (TrimSpace provider =s? "") ||
     (TrimSpace providerEventID =s? "") || (TrimSpace eventType =s? "") ||
     (len raw =? 0) || negb (json_Valid payload)
  then Err ErrInvalidEvent
  else
    let status := if kind =s? KindUnknown then StatusSkipped else StatusPending in
    Ok (mkEvent id provider providerEventID eventType kind raw payload status (UTC now)).

Definition Handled (e : Event) : bool := Event_Kind e <>s? KindUnknown.

Definition NewMessage (id : string) (event : Event) (correlationID : string)
    (occurredAt now : Time) : res Message :=
  if (TrimSpace id =s? "") || (TrimSpace (Event_ID event) =s? "") || negb (Handled event)
  then Err ErrInvalidMessage
  else
    let occurredAt := if IsZero occurredAt then now else occurredAt in
    Ok (mkMessage id (Event_ID event) (Event_Kind event) SchemaVersion
          (routingKeyPrefix +:+ Event_Kind event) correlationID
          (UTC occurredAt) MessageStatusPending (UTC now)).

(** ** [id.go] *)

Definition eventIDPrefix : string := "evt_".
Definition messageIDPrefix : string := "msg_".

Definition ErrInvalidEventID : error :=
  ErrSentinel "webhooks.ErrInvalidEventID" "invalid webhook event id".

Definition ValidateEventID (id : string) : res unit :=
  if negb (HasPrefix id eventIDPrefix) || negb (len id =? len eventIDPrefix + 32)
  then Err ErrInvalidEventID
  else match hex_decode (slice_from (String.length eventIDPrefix) id) with
       | None => Err ErrInvalidEventID
       | Some _ => Ok tt
       end.

Definition newID (prefix : string) (entropy : res (list Z)) : res string :=
  match entropy with
  | Err err => Err (wrapf ("generate " +:+ prefix +:+ " id") err)
  | Ok value => Ok (prefix +:+ hex_encode value)
  end.

Definition NewEventID (entropy : res (list Z)) : res string := newID eventIDPrefix entropy.
Definition NewMessageID (entropy : res (list Z)) : res string := newID messageIDPrefix entropy.

(** ** Lemmas *)

Lemma NewEvent_Ok id pr pid ty k raw pay now e :
  NewEvent id pr pid ty k raw pay now = Ok e ->
  e = mkEvent id pr pid ty k raw pay (if k =s? KindUnknown then StatusSkipped else StatusPending) now /\
  TrimSpace id <> "" /\ raw <> "" /\ json_Valid pay = true.
Proof.
  unfold NewEvent. case_match eqn:E; [done|]. intros [= <-].
  go_bool. repeat split; try done. by intros ->.
Qed.

Lemma Handled_spec e : Handled e = true <-> Event_Kind e <> KindUnknown.
Proof. unfold Handled. by rewrite negb_true_iff, String.eqb_neq. Qed.

Lemma NewMessage_Ok id e c occ now m :
  NewMessage id e c occ now = Ok m ->
  Handled e = true /\
  m = mkMessage id (Event_ID e) (Event_Kind e) SchemaVersion (routingKeyPrefix +:+ Event_Kind e)
        c (if IsZero occ then now else occ) MessageStatusPending now.
Proof. unfold NewMessage. case_match eqn:E; [done|]. intros [= <-]. go_bool. done. Qed.

(** ** Properties *)

(** Inbox identifiers round trip. Sixteen random bytes always yield an
    identifier [ValidateEventID] accepts, from which they can be read back, and
    an identifier it accepts never names an outbox message. *)
Theorem event_id_roundtrip (l : list Z) :
  Forall is_byte l -> length l = 16%nat ->
  exists id, NewEventID (Ok l) = Ok id /\ ValidateEventID id = Ok tt /\
    hex_decode (slice_from (String.length eventIDPrefix) id) = Some l /\
    forall l', NewMessageID (Ok l') <> Ok id.
Proof.
  intros Hl Hn. eexists. split; [reflexivity|].
  assert (hex_decode (slice_from (String.length eventIDPrefix) (eventIDPrefix +:+ hex_encode l)) = Some l) as E
    by (rewrite slice_from_app, hex_decode_encode; done).
  unfold ValidateEventID. rewrite E, HasPrefix_app, len_app, len_hex_encode, Hn by done. done.
Qed.

Lemma event_id_roundtrip_witness :
  exists id, NewEventID (Ok [0;1;2;3;4;5;6;7;8;9;10;11;12;13;14;255]) = Ok id /\
    ValidateEventID id = Ok tt /\
    hex_decode (slice_from 4 id) = Some [0;1;2;3;4;5;6;7;8;9;10;11;12;13;14;255] /\
    forall l', NewMessageID (Ok l') <> Ok id.
Proof.
  apply (event_id_roundtrip [0;1;2;3;4;5;6;7;8;9;10;11;12;13;14;255]).
  - repeat (constructor; [unfold is_byte; lia|]). constructor.
  - reflexivity.
Defined.
