(* ===== verification/Errsanitize.v ===== *)
(** * Error sanitizing: [internal/platform/errsanitize]

    [Sanitize] makes error text valid, redacts what looks like a credential
    and cuts it at [MaxLength] bytes on a rune boundary. The regular
    expressions are those of the source, run by a backtracking matcher with
    the leftmost-first priority of package [regexp]. *)

From S2P Require Import Prelude GoLib.

(** ** Regular expressions

    Patterns over runes. Repetition is greedy; alternatives are tried in
    order. *)
Inductive re : Type :=
| Eps
| Cls (p : Z -> bool)
| Seq (r1 r2 : re)
| Alt (r1 r2 : re)
| Star (r : re)
| WordB.

Definition Plus (r : re) : re := Seq r (Star r).
Definition Opt (r : re) : re := Alt r Eps.

Definition is_word (c : Z) : bool :=
  is_upper c || is_lower c || ((48 <=? c) && (c <=? 57)) || (c =? 95).

(** [\b]: exactly one side of the position is an ASCII word character. *)
Definition at_boundary (prev next : option Z) : bool :=
  xorb (from_option is_word false prev) (from_option is_word false next).

(** Matches [r] at the head of [l], whose preceding rune is [prev], and hands
    what is left to [k]; the first success in priority order wins. *)
Fixpoint rmatch (r : re) (prev : option Z) (l : list Z)
    (k : option Z -> list Z -> option (option Z * list Z)) : option (option Z * list Z) :=
  match r with
  | Eps => k prev l
  | Cls p => match l with c :: t => if p c then k (Some c) t else None | [] => None end
  | Seq r1 r2 => rmatch r1 prev l (fun prev' l' => rmatch r2 prev' l' k)
  | Alt r1 r2 => match rmatch r1 prev l k with Some x => Some x | None => rmatch r2 prev l k end
  | Star r' =>
      (fix loop (n : nat) (prev : option Z) (l : list Z) :=
         match n with
         | O => k prev l
         | S n' =>
             match rmatch r' prev l (fun prev' l' =>
                     if (length l' <? length l)%nat then loop n' prev' l' else None) with
             | Some x => Some x
             | None => k prev l
             end
         end) (length l) prev l
  | WordB => if at_boundary prev (head l) then k prev l else None
  end.

Definition match_here (r : re) (prev : option Z) (l : list Z) : option (option Z * list Z) :=
  rmatch r prev l (fun prev' l' => Some (prev', l')).

(** [ReplaceAllString] with a literal replacement: matches are taken left to
    right and do not overlap. A match that consumes nothing is passed over; no
    pattern below has one. [n] bounds the runes still to read. *)
Fixpoint replace_from (n : nat) (r : re) (repl : list Z) (prev : option Z) (l : list Z) : list Z :=
  match n, l with
  | S n', c :: t =>
      match match_here r prev l with
      | Some (prev', rest) =>
          if (length rest <? length l)%nat then repl ++ replace_from n' r repl prev' rest
          else c :: replace_from n' r repl (Some c) t
      | None => c :: replace_from n' r repl (Some c) t
      end
  | _, _ => []
  end.

Definition ReplaceAllString (r : re) (repl : string) (s : string) : string :=
  let l := runes s in
  of_codes (replace_from (length l) r (runes repl) None l ≫= encode_rune).

(** ** The patterns *)

(** A character under [(?i)]: letters match both cases, and [k] and [s] also
    match the two letters that fold to them (U+212A, U+017F). *)
Definition ichar (c : Z) : re :=
  Cls (fun x => (lower_ascii x =? lower_ascii c) ||
                ((lower_ascii c =? 107) && (x =? 8490)) || ((lower_ascii c =? 115) && (x =? 383))).
Definition char (c : Z) : re := Cls (fun x => x =? c).
Definition one_of (s : string) : re := Cls (fun x => bool_decide (x ∈ codes s)).
Definition lit (f : Z -> re) (s : string) : re := foldr (fun c r => Seq (f c) r) Eps (codes s).
Definition ilit : string -> re := lit ichar.
Fixpoint alts (l : list re) : re :=
  match l with [] => Cls (fun _ => false) | [r] => r | r :: t => Alt r (alts t) end.

(** [\s], and the double quote. *)
Definition is_ws (c : Z) : bool := bool_decide (c ∈ [9; 10; 12; 13; 32]).
Definition ws : re := Star (Cls is_ws).
Definition quote : Z := 34.
Definition alnum : re := Cls (fun c => is_upper c || is_lower c || ((48 <=? c) && (c <=? 57))).
Definition digit : re := Cls (fun c => (48 <=? c) && (c <=? 57)).
Definition not_in (p : Z -> bool) (s : string) : re :=
  Cls (fun c => negb (p c) && negb (bool_decide (c ∈ codes s))).
Definition none (_ : Z) : bool := false.
Definition is_newline (c : Z) : bool := c =? 10.
Definition seq (l : list re) : re := foldr Seq Eps l.

Definition url_credentials : re :=
  seq [WordB;
       alts [Seq (ilit "postgres") (Opt (ilit "ql")); Seq (ilit "amqp") (Opt (ichar 115));
             Seq (ilit "http") (Opt (ichar 115)); ilit "mysql"; ilit "redis";
             Seq (ilit "mongodb") (Opt (ilit "+srv"))];
       ilit "://"; Plus (not_in is_ws "/@"); char 64].

Definition header_value : re :=
  seq [WordB;
       alts [ilit "authorization"; ilit "x-api-key"; ilit "proxy-authorization"; ilit "cookie"; ilit "set-cookie"];
       ws; one_of ":="; ws; Plus (not_in is_newline ",;")].

Definition stripe_signature_header : re :=
  seq [WordB; ilit "stripe-signature"; ws; one_of ":="; ws; Plus (not_in is_newline ";")].

Definition key_value : re :=
  seq [WordB;
       alts [ilit "password"; ilit "passwd"; ilit "pwd"; ilit "token"; ilit "secret";
             seq [ilit "api"; Opt (one_of "_-"); ilit "key"];
             seq [ilit "access"; Opt (one_of "_-"); ilit "key"];
             seq [ilit "client"; Opt (one_of "_-"); ilit "secret"]];
       WordB; Opt (Cls (fun c => (c =? quote) || (c =? 39))); ws; one_of ":="; ws;
       alts [seq [char quote; Star (Cls (fun c => negb (c =? quote))); char quote];
             seq [char 39; Star (not_in none "'"); char 39];
             Plus (not_in is_ws "&,;}")]].

Definition stripe_key : re :=
  seq [WordB; one_of "sr"; lit char "k_"; alts [lit char "live"; lit char "test"]; char 95; Plus alnum; WordB].

Definition webhook_secret : re := seq [WordB; lit char "whsec_"; Plus alnum; WordB].

Definition signature_value : re :=
  seq [WordB; lit char "t="; Plus digit;
       Plus (seq [lit char ",v"; Plus digit; char 61; Plus alnum]); WordB].

Definition patterns : list re :=
  [url_credentials; header_value; stripe_signature_header; key_value; stripe_key; webhook_secret;
   signature_value].

(** ** Sanitizing *)

Definition Redacted : string := "[REDACTED]".
Definition MaxLength : Z := 500.

(** [strings.ToValidUTF8]: every run of invalid bytes becomes one copy of the
    replacement. *)
Fixpoint to_valid (repl : list Z) (skip : nat) (in_run : bool) (l : list Z) : list Z :=
  match l with
  | [] => []
  | b :: t =>
      match skip with
      | S k => b :: to_valid repl k false t
      | O => match rune_len l with
             | O => (if in_run then [] else repl) ++ to_valid repl 0 true t
             | S k => b :: to_valid repl k false t
             end
      end
  end.

Definition ToValidUTF8 (s repl : string) : string := of_codes (to_valid (codes repl) 0 false (codes s)).

(** [strings.ReplaceAll] of the NUL byte. *)
Definition replace_nul (l : list Z) : list Z :=
  l ≫= fun b => if b =? 0 then codes Redacted else [b].

Definition validText (s : string) : string :=
  of_codes (replace_nul (codes (ToValidUTF8 s Redacted))).

Definition RuneStart (b : Z) : bool := negb (Z.land b 192 =? 128).

(** The loop that steps back to a rune start. *)
Fixpoint cut_back (l : list Z) (cut : nat) : nat :=
  match cut with
  | O => O
  | S k => if RuneStart (nth cut l 0) then cut else cut_back l k
  end.

Definition Truncate (s : string) (maxBytes : Z) : string :=
  if maxBytes <=? 0 then ""
  else let s := validText s in
       if len s <=? maxBytes then s
       else let l := codes s in of_codes (take (cut_back l (Z.to_nat maxBytes)) l).

Definition Sanitize (text : string) : string :=
  Truncate (foldl (fun text pattern => ReplaceAllString pattern Redacted text) (validText text) patterns)
    MaxLength.

(** ** Valid UTF-8

    A byte sequence that is a concatenation of well-formed encodings. *)
Record wf_rune (r : list Z) : Prop := {
  wf_nonempty : r <> [];
  wf_len : forall t, rune_len (r ++ t) = length r;
  wf_cont : Forall (fun b => cont b = true) (tail r);
}.

Definition utf8 (l : list Z) : Prop := exists rs, l = mjoin rs /\ Forall wf_rune rs.

Lemma rune_len_le l : (rune_len l <= length l)%nat.
Proof. unfold rune_len. repeat (case_match; simpl; try lia). Qed.

Lemma rune_len_wf l n : rune_len l = S n -> wf_rune (take (S n) l).
Proof.
  intros H. split.
  - by destruct l.
  - intros t. revert H. unfold rune_len.
    repeat (case_match; simplify_eq/=; try done); intros; simplify_eq/=;
      congruence.
  - revert H. unfold rune_len.
    repeat (case_match; simplify_eq/=; try done); intros; simplify_eq/=;
      go_bool; repeat constructor; unfold cont in *; go_bool; lia.
Qed.

Lemma utf8_nil : utf8 [].
Proof. exists []. by split; [|constructor]. Qed.

Lemma utf8_app l1 l2 : utf8 l1 -> utf8 l2 -> utf8 (l1 ++ l2).
Proof.
  intros (r1 & -> & H1) (r2 & -> & H2). exists (r1 ++ r2).
  split; [by rewrite join_app | by apply Forall_app].
Qed.

Lemma utf8_rune r : wf_rune r -> utf8 r.
Proof. intros H. exists [r]. split; [by simpl; rewrite app_nil_r | by constructor]. Qed.

Lemma ascii_wf b : b <= 127 -> wf_rune [b].
Proof.
  intros Hb. split; [done| |constructor]. intros t. simpl.
  by replace (b <=? 127) with true by lia.
Qed.

Lemma utf8_ascii l : Forall (fun b => b <= 127) l -> utf8 l.
Proof.
  induction 1 as [|b l Hb _ IH]; [apply utf8_nil|].
  apply (utf8_app [b]); [by apply utf8_rune, ascii_wf | done].
Qed.

Lemma Redacted_ascii : Forall (fun b => b <= 127) (codes Redacted).
Proof. unfold Redacted. simpl. repeat constructor; unfold code; simpl; lia. Qed.

Lemma to_valid_skip repl k l : (k <= length l)%nat ->
  to_valid repl k false l = take k l ++ to_valid repl 0 false (drop k l).
Proof.
  revert k. induction l as [|x l IH]; intros [|k] Hk; try done.
  simpl in *. rewrite IH by lia. done.
Qed.

(** The two ways the first byte is read. *)
Lemma to_valid_step repl b x l :
  (rune_len (x :: l) = 0%nat /\
   to_valid repl 0 b (x :: l) = (if b then [] else repl) ++ to_valid repl 0 true l) \/
  (exists k, rune_len (x :: l) = S k /\ wf_rune (take (S k) (x :: l)) /\
   to_valid repl 0 b (x :: l) = take (S k) (x :: l) ++ to_valid repl 0 false (drop (S k) (x :: l))).
Proof.
  destruct (rune_len (x :: l)) as [|k] eqn:E.
  - left. cbn [to_valid]. by rewrite E.
  - right. exists k. split; [done|]. split; [by apply rune_len_wf|].
    cbn [to_valid]. rewrite E. pose proof (rune_len_le (x :: l)) as H.
    rewrite E in H. simpl in H. by rewrite to_valid_skip by lia.
Qed.

Lemma to_valid_utf8 repl b l : utf8 repl -> utf8 (to_valid repl 0 b l).
Proof.
  intros Hr. remember (length l) as n eqn:Hn. revert b l Hn.
  induction (lt_wf n) as [n _ IH]. intros b [|x l] ->; [apply utf8_nil|].
  destruct (to_valid_step repl b x l) as [[_ ->]|(k & E & Hw & ->)]; apply utf8_app.
  - destruct b; [apply utf8_nil | done].
  - eapply IH; [|done]. simpl. lia.
  - by apply utf8_rune.
  - eapply IH; [|done]. rewrite length_drop. simpl. lia.
Qed.

Lemma replace_nul_cons c l :
  replace_nul (c :: l) = (if c =? 0 then codes Redacted else [c]) ++ replace_nul l.
Proof. reflexivity. Qed.

Lemma replace_nul_app l1 l2 : replace_nul (l1 ++ l2) = replace_nul l1 ++ replace_nul l2.
Proof. apply bind_app. Qed.

Lemma replace_nul_id l : 0 ∉ l -> replace_nul l = l.
Proof.
  induction l as [|c l IH]; [done|]. rewrite not_elem_of_cons. intros [Hc Hl].
  rewrite replace_nul_cons. replace (c =? 0) with false by lia. simpl. by rewrite IH.
Qed.

Lemma utf8_nul l : utf8 l -> utf8 (replace_nul l).
Proof.
  intros (rs & -> & H). induction H as [|r rs Hr _ IH]; [apply utf8_nil|].
  simpl. rewrite replace_nul_app. apply utf8_app; [clear IH|done].
  destruct r as [|b t]; [by destruct Hr|].
  destruct (decide (b = 0)) as [->|Hb].
  - assert (t = []) as -> by (pose proof (wf_len _ Hr []) as E; simpl in E; by destruct t).
    apply utf8_ascii, Redacted_ascii.
  - rewrite replace_nul_id; [by apply utf8_rune|].
    intros [?|Hin]%elem_of_cons; [done|]. apply wf_cont in Hr. simpl in Hr.
    rewrite Forall_forall in Hr. by apply Hr in Hin.
Qed.

Lemma replace_nul_clean l : 0 ∉ replace_nul l.
Proof.
  unfold replace_nul. rewrite list_elem_of_bind. intros (b & H & _). revert H.
  destruct (Z.eqb_spec b 0).
  - by apply (bool_decide_unpack (0 ∉ codes Redacted)).
  - rewrite list_elem_of_singleton. congruence.
Qed.

(** Cutting valid text at a rune start leaves valid text. *)
Lemma cont_not_start b : cont b = true -> RuneStart b = false.
Proof.
  unfold cont, RuneStart. intros H. go_bool.
  assert (128 <= b < 192) as Hb by lia. clear -Hb.
  assert (forallb (fun k => Z.land (128 + Z.of_nat k) 192 =? 128) (List.seq 0 64) = true) as F
    by (vm_compute; reflexivity).
  rewrite forallb_forall in F. specialize (F (Z.to_nat (b - 128))).
  rewrite in_seq, Z2Nat.id, Zplus_minus in F by lia. rewrite F by lia. done.
Qed.

Lemma nth_cont rs n : Forall wf_rune rs -> (n < length (mjoin rs))%nat ->
  RuneStart (nth n (mjoin rs) 0) = true -> utf8 (take n (mjoin rs)).
Proof.
  intros H. revert n. induction H as [|r rs Hr _ IH]; intros n Hn Hs; simpl in *; [lia|].
  rewrite length_app in Hn.
  destruct (decide (n < length r)%nat) as [Hlt|Hge].
  - destruct n as [|n]; [apply utf8_nil|]. exfalso.
    rewrite app_nth1 in Hs by done. destruct r as [|b t]; simpl in *; [lia|].
    apply wf_cont in Hr. simpl in Hr. rewrite Forall_forall in Hr.
    rewrite cont_not_start in Hs; [done|]. apply Hr. apply list_elem_of_In, nth_In. lia.
  - rewrite app_nth2 in Hs by lia. rewrite take_app_ge by lia.
    apply utf8_app; [by apply utf8_rune|]. apply IH; [lia | done].
Qed.

Lemma cut_back_le l n : (cut_back l n <= n)%nat.
Proof. induction n as [|n IH]; simpl; [done|]. case_match; lia. Qed.

Lemma cut_back_utf8 l n : utf8 l -> (n < length l)%nat -> utf8 (take (cut_back l n) l).
Proof.
  intros (rs & -> & Hrs). induction n as [|n IH]; intros Hn; [apply utf8_nil|].
  cbn [cut_back]. destruct (RuneStart _) eqn:E; [by apply nth_cont | apply IH; lia].
Qed.

Lemma to_valid_bytes repl k b l :
  Forall is_byte repl -> Forall is_byte l -> Forall is_byte (to_valid repl k b l).
Proof.
  intros Hr Hl. revert k b. induction Hl as [|x l Hx _ IH]; intros k b; cbn [to_valid]; [done|].
  destruct k; [destruct (rune_len (x :: l))|]; [| by constructor..].
  apply Forall_app. split; [by destruct b | done].
Qed.

Lemma replace_nul_bytes l : Forall is_byte l -> Forall is_byte (replace_nul l).
Proof.
  induction 1 as [|x l Hx _ IH]; [constructor|]. unfold replace_nul in *. simpl.
  apply Forall_app. split; [|done]. case_match; [apply codes_bytes | by constructor].
Qed.

Lemma codes_validText s :
  codes (validText s) = replace_nul (to_valid (codes Redacted) 0 false (codes s)).
Proof.
  unfold validText, ToValidUTF8.
  assert (Forall is_byte (to_valid (codes Redacted) 0 false (codes s))) as H
    by (apply to_valid_bytes; apply codes_bytes).
  rewrite (codes_of_codes (to_valid _ _ _ _)) by done.
  by apply codes_of_codes, replace_nul_bytes.
Qed.

(** Valid text without a NUL byte: what PostgreSQL and JSON accept. *)
Definition clean (s : string) : Prop := utf8 (codes s) /\ 0 ∉ codes s.

Lemma validText_clean s : clean (validText s).
Proof.
  unfold clean. rewrite codes_validText. split; [|apply replace_nul_clean].
  apply utf8_nul, to_valid_utf8, utf8_ascii, Redacted_ascii.
Qed.

Lemma Truncate_clean s n : clean (Truncate s n) /\ len (Truncate s n) <= Z.max 0 n.
Proof.
  unfold Truncate. destruct (Z.leb_spec n 0).
  { split; [|unfold len; simpl; lia]. split; [apply utf8_nil | apply not_elem_of_nil]. }
  destruct (Z.leb_spec (len (validText s)) n); [split; [apply validText_clean | lia]|].
  destruct (validText_clean s) as [Hu Hz]. rewrite len_codes in *.
  set (l := codes (validText s)) in *.
  unfold clean. rewrite codes_of_codes by (apply Forall_take; apply codes_bytes).
  pose proof (cut_back_le l (Z.to_nat n)). split; [split|].
  - apply cut_back_utf8; [done | lia].
  - intros Hin. apply Hz. rewrite <- (take_drop (cut_back l (Z.to_nat n)) l).
    apply elem_of_app. by left.
  - rewrite length_take. lia.
Qed.

(** ** Properties *)

(** Sanitized error text can always be stored. Whatever bytes an error
    message holds, what [Sanitize] returns is at most [MaxLength] bytes of
    valid UTF-8 without a NUL byte. *)
Theorem Sanitize_storable (text : string) :
  len (Sanitize text) <= MaxLength /\ clean (Sanitize text).
Proof. unfold Sanitize. destruct (Truncate_clean (foldl (fun t p => ReplaceAllString p Redacted t) (validText text) patterns) MaxLength) as [? H]. split; [exact H | done]. Qed.
