(* ===== verification/JsonText.v ===== *)
(** * [encoding/json]: decoding into structs and encoding strings

    [Json] decides which texts are JSON. Here: the members of an object as
    they lie in the text, string literals in both directions, and
    [json.Unmarshal] into the structs of the program, whose fields are
    strings, raw messages and structs. *)

From S2P Require Import Prelude GoLib Json Errsanitize.
From Stdlib Require Import Ascii.

(** ** The members of an object

    One pass of the scanner that files every byte under the key or the value
    it belongs to. The stack tells where the byte is: [[ObjectKey]] and
    [[ObjectValue]] are directly inside the outermost object. *)
Record collector := mkCollector {
  col_scan : scanner;
  col_key : list Z;
  col_value : list Z;
  col_members : list (list Z * list Z);
}.

Definition collect_start : collector := mkCollector scan_start [] [] [].

Definition collect_step (st : collector) (c : Z) : option collector :=
  let '(mkCollector m k v acc) := st in
  match scan_step m c with
  | None => None
  | Some m' =>
      Some match sc_stack m, sc_stack m' with
      | [ObjectKey], [ObjectKey] => mkCollector m' (k ++ [c]) v acc
      | [ObjectKey], [ObjectValue] => mkCollector m' k [] acc
      | [ObjectValue], [ObjectKey] | [ObjectValue], [] => mkCollector m' [] [] (acc ++ [(k, v)])
      | [], _ | [ObjectKey], [] => mkCollector m' [] [] acc
      | _, _ => mkCollector m' k (v ++ [c]) acc
      end
  end.

Fixpoint collect (st : collector) (l : list Z) : option collector :=
  match l with
  | [] => Some st
  | c :: t => match collect_step st c with Some st' => collect st' t | None => None end
  end.

Fixpoint drop_spaces (l : list Z) : list Z :=
  match l with
  | c :: t => if is_space c then drop_spaces t else l
  | [] => []
  end.

(** The text of a value without the blanks around it. *)
Definition trim_json (l : list Z) : list Z := reverse (drop_spaces (reverse (drop_spaces l))).

(** The members of the object a valid text holds, in order, as raw text. *)
Definition members (l : list Z) : list (list Z * list Z) :=
  match collect collect_start l with
  | Some st => (fun kv => (trim_json kv.1, trim_json kv.2)) <$> col_members st
  | None => []
  end.

(** ** String literals *)

(** The four digits of a [\u] escape. *)
Definition getu4 (l : list Z) : option Z :=
  match l with
  | 92 :: 117 :: a :: b :: c :: d :: _ =>
      match from_hex a, from_hex b, from_hex c, from_hex d with
      | Some a, Some b, Some c, Some d => Some (a * 4096 + b * 256 + c * 16 + d)
      | _, _, _, _ => None
      end
  | _ => None
  end.

Definition is_surrogate (r : Z) : bool := (55296 <=? r) && (r <? 57344).

(** [utf16.DecodeRune]. *)
Definition decode_utf16 (r1 r2 : Z) : Z :=
  if (55296 <=? r1) && (r1 <? 56320) && (56320 <=? r2) && (r2 <? 57344)
  then (r1 - 55296) * 1024 + (r2 - 56320) + 65536
  else RuneError.

(** The rune of the [\u] escape the text starts with, and its length. *)
Definition unescape_u (l : list Z) : Z * nat :=
  match getu4 l with
  | None => (RuneError, 6%nat)
  | Some r =>
      if is_surrogate r then
        let dec := decode_utf16 r (default (-1) (getu4 (drop 6 l))) in
        if dec =? RuneError then (RuneError, 6%nat) else (dec, 12%nat)
      else (r, 6%nat)
  end.

Definition unescape_char (c : Z) : Z :=
  if c =? 98 then 8 else if c =? 102 then 12 else if c =? 110 then 10
  else if c =? 114 then 13 else if c =? 116 then 9 else c.

(** What the head of a literal's body stands for, and how many bytes it
    takes. *)
Definition unquote_head (l : list Z) : list Z * nat :=
  match l with
  | [] => ([], 1%nat)
  | b :: t =>
      if b =? 92 then
        if starts_with [117] t then let '(r, n) := unescape_u l in (encode_rune r, n)
        else ([unescape_char (default 0 (head t))], 2%nat)
      else match rune_len l with
      | O => (encode_rune RuneError, 1%nat)
      | S n => (take (S n) l, S n)
      end
  end.

Fixpoint unquote_body (skip : nat) (l : list Z) : list Z :=
  match l with
  | [] => []
  | _ :: t =>
      match skip with
      | S k => unquote_body k t
      | O => let '(out, n) := unquote_head l in out ++ unquote_body (pred n) t
      end
  end.

(** The value of a literal, quotes included. *)
Definition unquote (l : list Z) : string := of_codes (unquote_body 0 (removelast (tail l))).

(** The encoder, which also escapes what HTML would interpret. *)
Definition html_safe (b : Z) : bool :=
  (32 <=? b) && negb (bool_decide (b ∈ [34; 38; 60; 62; 92])).

Definition escape_ascii (b : Z) : list Z :=
  if html_safe b then [b]
  else if bool_decide (b ∈ [34; 92]) then [92; b]
  else if b =? 8 then [92; 98] else if b =? 12 then [92; 102] else if b =? 10 then [92; 110]
  else if b =? 13 then [92; 114] else if b =? 9 then [92; 116]
  else [92; 117; 48; 48; hex_digit (b / 16); hex_digit (b mod 16)].

(** One rune of the source string: its bytes, and whether they are one. *)
Definition quote_head (l : list Z) : list Z * nat :=
  match l with
  | [] => ([], 1%nat)
  | b :: _ =>
      if b <? 128 then (escape_ascii b, 1%nat)
      else match rune_len l with
      | O => ([92; 117; 102; 102; 102; 100], 1%nat)
      | S n =>
          if starts_with [226; 128; 168] l || starts_with [226; 128; 169] l
          then ([92; 117; 50; 48; 50; hex_digit (nth 2 l 0 - 160)], S n)
          else (take (S n) l, S n)
      end
  end.

Fixpoint quote_body (skip : nat) (l : list Z) : list Z :=
  match l with
  | [] => []
  | _ :: t =>
      match skip with
      | S k => quote_body k t
      | O => let '(out, n) := quote_head l in out ++ quote_body (pred n) t
      end
  end.

Definition quote_json (s : string) : list Z := [34] ++ quote_body 0 (codes s) ++ [34].

(** ** [json.Unmarshal] into a struct *)

Inductive value_kind : Type := KObject | KArray | KString | KNumber | KBool | KNull.

(** The kind of a value, from its first byte. *)
Definition kind_of (l : list Z) : value_kind :=
  match l with
  | 123 :: _ => KObject
  | 91 :: _ => KArray
  | 34 :: _ => KString
  | 110 :: _ => KNull
  | 116 :: _ | 102 :: _ => KBool
  | _ => KNumber
  end.

(** The text of the library's error messages. *)
Class JsonErrors : Type := {
  syntax_error : string -> string;
  type_error : list Z -> string;
}.

Section Unmarshal.
Context `{UnicodeTables} `{JsonErrors} {S : Type}.

(** A field: its name and how a value is stored in it. The error is the first
    the library saved; decoding goes on after one. *)
Definition store : Type := list Z -> S -> S * option error.
Definition fields : Type := list (string * store).

Definition first_error (e1 e2 : option error) : option error :=
  match e1 with Some _ => e1 | None => e2 end.

(** The field of a key: the exact name first, then any case. *)
Definition field_of (fs : fields) (key : string) : option store :=
  match List.find (fun f => f.1 =s? key) fs with
  | Some f => Some f.2
  | None => snd <$> List.find (fun f => EqualFold f.1 key) fs
  end.

Fixpoint store_members (fs : fields) (ms : list (list Z * list Z)) (s : S) : S * option error :=
  match ms with
  | [] => (s, None)
  | (key, value) :: ms =>
      let '(s, e1) := match field_of fs (unquote key) with
                      | Some put => put value s
                      | None => (s, None)
                      end in
      let '(s, e2) := store_members fs ms s in
      (s, first_error e1 e2)
  end.

(** A value for a struct: [null] leaves it alone, anything but an object is a
    type error. *)
Definition store_struct (fs : fields) : store := fun value s =>
  match kind_of value with
  | KObject => store_members fs (members value) s
  | KNull => (s, None)
  | _ => (s, Some (ErrNew (type_error value)))
  end.

(** A value for a string field, given its setter. *)
Definition store_string (set : string -> S -> S) : store := fun value s =>
  match kind_of value with
  | KString => (set (unquote value) s, None)
  | KNull => (s, None)
  | _ => (s, Some (ErrNew (type_error value)))
  end.

(** A [json.RawMessage] takes the text of any value, [null] included. *)
Definition store_raw (set : string -> S -> S) : store := fun value s => (set (of_codes value) s, None).

(** The whole text is checked first. *)
Definition Unmarshal (fs : fields) (data : string) (s : S) : S * option error :=
  if json_Valid data
  then store_struct fs (trim_json (codes data)) s
  else (s, Some (ErrNew (syntax_error data))).
End Unmarshal.
Arguments store S : clear implicits.
Arguments fields S : clear implicits.

(** Every error is one the library makes. *)
Section Fresh.
Context `{UnicodeTables} `{JsonErrors} {S : Type}.

Definition fresh (e : option error) : Prop := forall err, e = Some err -> exists text, err = ErrNew text.
Definition fresh_store (put : store S) : Prop := forall value s, fresh (put value s).2.

Lemma store_string_fresh set : fresh_store (store_string set).
Proof. intros v s. unfold store_string, fresh. case_match; naive_solver. Qed.

Lemma store_raw_fresh set : fresh_store (store_raw set).
Proof. intros v s err. done. Qed.

Lemma store_members_fresh fs ms s : Forall (fun f => fresh_store f.2) fs -> fresh (store_members fs ms s).2.
Proof.
  intros Hf. revert s. induction ms as [|[k v] ms IH]; intros s err; [done|]. cbn [store_members].
  destruct (match field_of fs (unquote k) with Some put => _ | None => _ end) as [s1 e1] eqn:E1.
  specialize (IH s1). destruct (store_members fs ms s1) as [s2 e2]. cbn [snd] in *.
  unfold first_error. destruct e1 as [e1|]; [|apply IH]. intros [= <-].
  unfold field_of in E1. rewrite Forall_forall in Hf.
  assert (forall f, In f fs -> f.2 v s = (s1, Some e1) -> exists text, e1 = ErrNew text) as G.
  { intros f Hin E. apply list_elem_of_In in Hin. apply (Hf f Hin v s). by rewrite E. }
  destruct (List.find (fun f => f.1 =s? unquote k) fs) as [f|] eqn:F.
  - apply find_some in F as [F _]. by eapply G.
  - destruct (List.find (fun f => EqualFold f.1 (unquote k)) fs) as [f|] eqn:F'; [|done].
    apply find_some in F' as [F' _]. by eapply G.
Qed.

Lemma store_struct_fresh fs : Forall (fun f => fresh_store f.2) fs -> fresh_store (store_struct fs).
Proof.
  intros Hf v s err. unfold store_struct. destruct (kind_of v); [by apply store_members_fresh| | | | |];
    try (intros [= <-]; eauto); done.
Qed.

Lemma Unmarshal_fresh fs data s : Forall (fun f => fresh_store f.2) fs -> fresh (Unmarshal fs data s).2.
Proof.
  intros Hf. unfold Unmarshal. destruct (json_Valid data); [by apply store_struct_fresh|].
  intros err [= <-]. eauto.
Qed.
End Fresh.

(** ** Encoding an object *)

Fixpoint join_members (kvs : list (list Z * list Z)) : list Z :=
  match kvs with
  | [] => []
  | [(k, v)] => k ++ [58] ++ v
  | (k, v) :: rest => k ++ [58] ++ v ++ [44] ++ join_members rest
  end.

Definition encode_object (kvs : list (list Z * list Z)) : list Z := [123] ++ join_members kvs ++ [125].

(** ** [time.Time.MarshalJSON]

    RFC 3339 with nanoseconds, for an instant in UTC. Days are counted from
    March 1st of year 0, so that a leap day ends its year. *)
Definition Date (t : Time) : Z * Z * Z :=
  let days := t / (86400 * Second) + 306 in
  let era := days / 146097 in
  let doe := days mod 146097 in
  let yoe := (doe - doe / 1460 + doe / 36524 - doe / 146096) / 365 in
  let doy := doe - (365 * yoe + yoe / 4 - yoe / 100) in
  let mp := (5 * doy + 2) / 153 in
  let month := if mp <? 10 then mp + 3 else mp - 9 in
  (yoe + era * 400 + (if month <=? 2 then 1 else 0), month, doy - (153 * mp + 2) / 5 + 1).

Definition pad2 (n : Z) : list Z := [48 + n / 10 mod 10; 48 + n mod 10].
Definition pad4 (n : Z) : list Z := pad2 (n / 100) ++ pad2 n.

(** The fraction of a second without trailing zeros. *)
Fixpoint fraction (places : nat) (n : Z) : list Z :=
  match places with
  | O => []
  | S k => if n =? 0 then []
           else 48 + n / 10 ^ Z.of_nat k mod 10 :: fraction k (n mod 10 ^ Z.of_nat k)
  end.

Definition format_time (t : Time) : list Z :=
  let '(year, month, day) := Date t in
  let sec := t / Second mod 86400 in
  let nano := t mod Second in
  pad4 year ++ [45] ++ pad2 month ++ [45] ++ pad2 day ++ [84] ++
  pad2 (sec / 3600) ++ [58] ++ pad2 (sec / 60 mod 60) ++ [58] ++ pad2 (sec mod 60) ++
  (if nano =? 0 then [] else 46 :: fraction 9 nano) ++ [90].

(** A year outside of [0, 9999] is an error. *)
Definition MarshalTime (t : Time) : option (list Z) :=
  let '(year, _, _) := Date t in
  if (year <? 0) || (9999 <? year) then None else Some ([34] ++ format_time t ++ [34]).

(** ** Lemmas: literals *)

Lemma unquote_body_skip k l : unquote_body k l = unquote_body 0 (drop k l).
Proof. revert k. induction l as [|x l IH]; intros [|k]; try done. apply IH. Qed.

Lemma quote_body_skip k l : quote_body k l = quote_body 0 (drop k l).
Proof. revert k. induction l as [|x l IH]; intros [|k]; try done. apply IH. Qed.

Lemma quote_body_head l out n : l <> [] -> quote_head l = (out, S n) ->
  quote_body 0 l = out ++ quote_body 0 (drop (S n) l).
Proof. destruct l as [|x l]; [done|]. intros _ E. cbn [quote_body]. rewrite E. cbn [pred]. by rewrite quote_body_skip. Qed.

Lemma unquote_body_head l out n : l <> [] -> unquote_head l = (out, S n) ->
  unquote_body 0 l = out ++ unquote_body 0 (drop (S n) l).
Proof. destruct l as [|x l]; [done|]. intros _ E. cbn [unquote_body]. rewrite E. cbn [pred]. by rewrite unquote_body_skip. Qed.

(** Text the scanner reads without leaving the innermost object or array. *)
Inductive steady (s : list ctx) : scanner -> list Z -> scanner -> Prop :=
| steady_nil m : steady s m [] m
| steady_cons m c m1 t m2 : scan_step m c = Some m1 -> sc_stack m1 = s -> steady s m1 t m2 ->
    steady s m (c :: t) m2.

Lemma steady_app s m1 l1 m2 l2 m3 : steady s m1 l1 m2 -> steady s m2 l2 m3 -> steady s m1 (l1 ++ l2) m3.
Proof. induction 1; [done|]. intros. simpl. econstructor; eauto. Qed.

Lemma steady_one s st c st' : scan_step (mkScanner st s) c = Some (mkScanner st' s) ->
  steady s (mkScanner st s) [c] (mkScanner st' s).
Proof. intros. econstructor; [done..|constructor]. Qed.

Definition in_string (l : list Z) : Prop :=
  forall s, steady s (mkScanner InString s) l (mkScanner InString s).

Lemma in_string_app l1 l2 : in_string l1 -> in_string l2 -> in_string (l1 ++ l2).
Proof. intros H1 H2 s. eapply steady_app; [apply H1 | apply H2]. Qed.

Lemma in_string_plain l : Forall (fun b => 32 <= b /\ b <> 34 /\ b <> 92) l -> in_string l.
Proof.
  induction 1 as [|b l (H1 & H2 & H3) _ IH]; [intros s; constructor|].
  apply (in_string_app [b]); [|done]. intros s. apply steady_one. unfold scan_step. simpl.
  rewrite (proj2 (Z.eqb_neq b 34)), (proj2 (Z.eqb_neq b 92)), (proj2 (Z.ltb_ge b 32)) by lia. done.
Qed.

(** What one rune becomes in a literal, and how it is read back. *)
Record quoted (r q : list Z) : Prop := {
  quoted_by : forall t, quote_body 0 (r ++ t) = q ++ quote_body 0 t;
  quoted_back : forall t, unquote_body 0 (q ++ t) = r ++ unquote_body 0 t;
  quoted_scans : in_string q;
}.

Lemma quoted_nil : quoted [] [].
Proof. split; [done..|]. intros s. constructor. Qed.

Lemma quoted_app r1 q1 r2 q2 : quoted r1 q1 -> quoted r2 q2 -> quoted (r1 ++ r2) (q1 ++ q2).
Proof.
  intros [A1 B1 C1] [A2 B2 C2]. split.
  - intros t. by rewrite <- !app_assoc, A1, A2.
  - intros t. by rewrite <- !app_assoc, B1, B2.
  - by apply in_string_app.
Qed.

(** The 128 one-byte runes, by evaluation. *)
Lemma quoted_ascii b : 0 <= b < 128 -> quoted [b] (escape_ascii b).
Proof.
  intros Hb.
  assert (b ∈ (Z.of_nat <$> List.seq 0 128)) as Hin.
  { apply list_elem_of_fmap. exists (Z.to_nat b). split; [lia|]. apply list_elem_of_In, in_seq. lia. }
  clear Hb. revert b Hin. apply Forall_forall. cbn [List.seq fmap list_fmap].
  repeat (apply Forall_cons; split;
    [ split; [reflexivity | reflexivity | intros s; repeat (eapply steady_cons; [reflexivity | reflexivity |]); constructor] |]).
  constructor.
Qed.

Lemma starts_with_split p l : starts_with p l = true -> exists t, l = p ++ t.
Proof.
  revert l. induction p as [|x p IH]; intros l; [by exists l|].
  destruct l as [|y l]; [done|]. simpl. intros H. go_bool. subst.
  destruct (IH l) as [t ->]; [done|]. by exists t.
Qed.

Lemma starts_with_app p l t : starts_with p l = true -> starts_with p (l ++ t) = true.
Proof.
  intros [u ->]%starts_with_split. rewrite <- app_assoc.
  induction p as [|x p IH]; [done|]. simpl. by rewrite Z.eqb_refl.
Qed.

(** The two separators HTML and JavaScript read as line ends. *)
Lemma separator_rune r t b : wf_rune r -> b = 168 \/ b = 169 ->
  starts_with [226; 128; b] (r ++ t) = true -> r = [226; 128; b].
Proof.
  intros Hr Hb [u E]%starts_with_split. pose proof (wf_len _ Hr t) as L. rewrite E in L.
  assert (length r = 3%nat) as L' by (by destruct Hb as [-> | ->]).
  apply (f_equal (take 3)) in E. rewrite <- L', take_app_length, L' in E. by rewrite E.
Qed.

Lemma wf_rune_head b r : wf_rune (b :: r) -> 128 <= b -> Forall (fun c => 32 <= c /\ c <> 34 /\ c <> 92) (b :: r).
Proof.
  intros Hr Hb. constructor; [lia|]. apply wf_cont in Hr. simpl in Hr.
  eapply Forall_impl; [apply Hr|]. unfold cont. intros c Hc. go_bool. lia.
Qed.

Lemma quote_head_wide b r t : wf_rune (b :: r) -> 128 <= b ->
  quote_head ((b :: r) ++ t) =
    (if bool_decide (b :: r = [226; 128; 168] \/ b :: r = [226; 128; 169])
     then [92; 117; 50; 48; 50; hex_digit (nth 1 r 0 - 160)] else b :: r, length (b :: r)).
Proof.
  intros Hr Hb. unfold quote_head. cbn [app]. rewrite (proj2 (Z.ltb_ge b 128)) by lia.
  rewrite (wf_len _ Hr t : rune_len (b :: r ++ t) = length (b :: r)).
  case_bool_decide as D; cbn [length].
  - by destruct D as [[= -> ->] | [= -> ->]].
  - assert (forall c, c = 168 \/ c = 169 -> starts_with [226; 128; c] (b :: r ++ t) = false) as N.
    { intros c Hc. apply not_true_iff_false. intros E. apply D.
      rewrite (separator_rune (b :: r) t c) by done. destruct Hc as [-> | ->]; auto. }
    rewrite !N by auto. simpl. by rewrite take_app_length.
Qed.

Lemma quoted_wide b r : wf_rune (b :: r) -> 128 <= b -> exists q, quoted (b :: r) q.
Proof.
  intros Hr Hb.
  pose proof (fun t => quote_head_wide b r t Hr Hb) as Q.
  pose proof (fun t => quote_body_head ((b :: r) ++ t) _ _ ltac:(done) (Q t)) as B.
  clear Q. case_bool_decide as D.
  - eexists. split.
    + intros t. rewrite B. by destruct D as [[= -> ->] | [= -> ->]].
    + intros t. by destruct D as [[= -> ->] | [= -> ->]].
    + destruct D as [[= -> ->] | [= -> ->]]; intros s;
        repeat (eapply steady_cons; [reflexivity | reflexivity |]); constructor.
  - exists (b :: r). split.
    + intros t. rewrite B. f_equal. f_equal. apply (drop_app_length (b :: r)).
    + intros t. rewrite (unquote_body_head _ (b :: r) (length r)); [|done|].
      * f_equal. f_equal. apply (drop_app_length (b :: r)).
      * unfold unquote_head. cbn [app]. rewrite (proj2 (Z.eqb_neq b 92)) by lia.
        rewrite (wf_len _ Hr t : rune_len (b :: r ++ t) = length (b :: r)). cbn [length].
        simpl. by rewrite take_app_length.
    + by apply in_string_plain, wf_rune_head.
Qed.

Lemma quoted_rune r : wf_rune r -> Forall is_byte r -> exists q, quoted r q.
Proof.
  destruct r as [|b r]; intros Hr Hb; [by destruct (wf_nonempty _ Hr)|].
  destruct (decide (b < 128)) as [Hlt|Hge]; [|apply quoted_wide; [done|lia]].
  assert (r = []) as ->.
  { pose proof (wf_len _ Hr []) as E. simpl in E.
    rewrite (proj2 (Z.leb_le b 127)) in E by lia. simpl in E. by destruct r. }
  exists (escape_ascii b). apply quoted_ascii. apply Forall_inv in Hb. unfold is_byte in Hb. lia.
Qed.

(** A string literal reads back as the string, and the scanner takes it as one
    token. *)
Lemma quoted_all l : utf8 l -> Forall is_byte l -> quoted l (quote_body 0 l).
Proof.
  intros (rs & -> & H) Hb.
  assert (exists q, quoted (mjoin rs) q) as [q Q].
  { induction H as [|r rs Hr _ IH]; simpl in *; [exists []; apply quoted_nil|].
    apply Forall_app in Hb as [H1 H2]. destruct (IH H2) as [q2 Q2].
    destruct (quoted_rune r Hr H1) as [q1 Q1]. eexists. by apply quoted_app. }
  pose proof (quoted_by _ _ Q []) as E. rewrite !app_nil_r in E. by rewrite E.
Qed.

Lemma unquote_quote s : utf8 (codes s) -> unquote (quote_json s) = s.
Proof.
  intros Hs. unfold unquote, quote_json. simpl. rewrite removelast_last.
  pose proof (quoted_back _ _ (quoted_all _ Hs (codes_bytes s)) []) as E.
  rewrite !app_nil_r in E. by rewrite E, of_codes_codes.
Qed.

(** ** Lemmas: objects *)

Lemma collect_app st l1 l2 st1 : collect st l1 = Some st1 -> collect st (l1 ++ l2) = collect st1 l2.
Proof.
  revert st. induction l1 as [|c l1 IH]; intros st; simpl; [by intros [= ->]|].
  destruct (collect_step st c); [apply IH | done].
Qed.

Lemma collect_scan st l st' : collect st l = Some st' -> scan (col_scan st) l = Some (col_scan st').
Proof.
  revert st. induction l as [|c l IH]; intros [m k v acc]; cbn [collect scan]; [by intros [= <-]|].
  unfold collect_step. cbn [col_scan]. destruct (scan_step m c) as [m'|]; [|done].
  intros E%IH. rewrite <- E. f_equal.
  destruct (sc_stack m) as [|[] [|]], (sc_stack m') as [|[] [|]]; done.
Qed.

Lemma collect_key m l m' k v acc : sc_stack m = [ObjectKey] -> steady [ObjectKey] m l m' ->
  collect (mkCollector m k v acc) l = Some (mkCollector m' (k ++ l) v acc).
Proof.
  intros Hm H. revert k Hm. induction H as [m|m c m1 t m2 E1 E2 _ IH]; intros k Hm.
  - by rewrite app_nil_r.
  - cbn [collect collect_step]. rewrite E1, Hm, E2, IH by done. by rewrite <- app_assoc.
Qed.

(** Text the scanner reads without leaving the object or array it is in: inner
    ones may open and close. *)
Inductive within (s : list ctx) : scanner -> list Z -> scanner -> Prop :=
| within_nil m : within s m [] m
| within_cons m c m1 t m2 : scan_step m c = Some m1 -> s `suffix_of` sc_stack m1 -> within s m1 t m2 ->
    within s m (c :: t) m2.

Lemma within_app s m1 l1 m2 l2 m3 : within s m1 l1 m2 -> within s m2 l2 m3 -> within s m1 (l1 ++ l2) m3.
Proof. induction 1; [done|]. intros. simpl. econstructor; eauto. Qed.

Lemma within_one s m c m' : scan_step m c = Some m' -> s `suffix_of` sc_stack m' -> within s m [c] m'.
Proof. intros. econstructor; [done..|constructor]. Qed.

Lemma within_outer s s' m l m' : s `suffix_of` s' -> within s' m l m' -> within s m l m'.
Proof. intros Hs. induction 1; [constructor|]. econstructor; [done | by etrans | done]. Qed.

Lemma steady_within s m l m' : steady s m l m' -> within s m l m'.
Proof. induction 1; [constructor|]. econstructor; [done | by subst s | done]. Qed.

Lemma collect_value m l m' k v acc : [ObjectValue] `suffix_of` sc_stack m -> within [ObjectValue] m l m' ->
  collect (mkCollector m k v acc) l = Some (mkCollector m' k (v ++ l) acc).
Proof.
  intros Hm H. revert v Hm. induction H as [m|m c m1 t m2 E1 E2 _ IH]; intros v Hm.
  - by rewrite app_nil_r.
  - cbn [collect collect_step]. rewrite E1.
    replace (match sc_stack m, sc_stack m1 with
             | [ObjectKey], [ObjectKey] => mkCollector m1 (k ++ [c]) v acc
             | [ObjectKey], [ObjectValue] => mkCollector m1 k [] acc
             | [ObjectValue], [ObjectKey] | [ObjectValue], [] => mkCollector m1 [] [] (acc ++ [(k, v)])
             | [], _ | [ObjectKey], [] => mkCollector m1 [] [] acc
             | _, _ => mkCollector m1 k (v ++ [c]) acc
             end) with (mkCollector m1 k (v ++ [c]) acc).
    2:{ destruct Hm as [p ->], E2 as [q ->].
        destruct p as [|[] [|? ?]], q as [|[] [|? ?]]; done. }
    rewrite IH by done. by rewrite <- app_assoc.
Qed.

(** A value the scanner reads inside an object, over the stack [t] around it. *)
Record token (t : list ctx) (v : list Z) (m : scanner) : Prop := {
  token_within : within (ObjectValue :: t) (mkScanner BeginValue (ObjectValue :: t)) v m;
  token_stack : sc_stack m = ObjectValue :: t;
  token_comma : scan_step m 44 = Some (mkScanner BeginString (ObjectKey :: t));
  token_brace : scan_step m 125 = pop (ObjectValue :: t);
}.

(** A value with at most [n] objects inside each other. *)
Definition value (n : nat) (v : list Z) : Prop := forall t,
  Z.of_nat (length t + n) < maxNestingDepth -> exists m, token t v m.

Lemma value_weaken n k v : (n <= k)%nat -> value n v -> value k v.
Proof. intros Hn Hv t Ht. apply Hv. lia. Qed.

Lemma steady_quote s st x : utf8 (codes x) -> scan_step (mkScanner st s) 34 = Some (mkScanner InString s) ->
  steady s (mkScanner st s) (quote_json x) (mkScanner EndValue s).
Proof.
  intros Hx E. unfold quote_json. eapply steady_app; [by apply steady_one|].
  eapply steady_app; [apply (quoted_scans _ _ (quoted_all _ Hx (codes_bytes x)))|].
  by apply steady_one.
Qed.

Lemma value_quote x : utf8 (codes x) -> value 0 (quote_json x).
Proof.
  intros Hx t _. exists (mkScanner EndValue (ObjectValue :: t)). split; [by apply steady_within, steady_quote | done..].
Qed.

(** A key and its value, up to the byte that closes them. *)
Lemma collect_member st name v m c m' acc : utf8 (codes name) -> token [] v m ->
  scan_step (mkScanner st [ObjectKey]) 34 = Some (mkScanner InString [ObjectKey]) ->
  scan_step m c = Some m' -> sc_stack m' = [ObjectKey] \/ sc_stack m' = [] ->
  collect (mkCollector (mkScanner st [ObjectKey]) [] [] acc) (quote_json name ++ [58] ++ v ++ [c]) =
    Some (mkCollector m' [] [] (acc ++ [(quote_json name, v)])).
Proof.
  intros Hn Hv Hst Hc Hm.
  erewrite collect_app by (apply collect_key; [done | by apply steady_quote]).
  erewrite (collect_app _ [58]) by reflexivity.
  erewrite collect_app by (apply collect_value; [done | apply (token_within _ _ _ Hv)]).
  cbn [app collect collect_step]. rewrite Hc, (token_stack _ _ _ Hv).
  by destruct Hm as [-> | ->].
Qed.

(** Members of an object to be encoded. *)
Definition encodable (n : nat) (kvs : list (string * list Z)) : Prop :=
  Forall (fun kv => utf8 (codes kv.1) /\ value n kv.2) kvs.
Definition quoted_keys (kvs : list (string * list Z)) : list (list Z * list Z) :=
  (fun kv => (quote_json kv.1, kv.2)) <$> kvs.

Lemma collect_members n st kvs acc : encodable n kvs -> Z.of_nat n < maxNestingDepth -> kvs <> [] ->
  scan_step (mkScanner st [ObjectKey]) 34 = Some (mkScanner InString [ObjectKey]) ->
  collect (mkCollector (mkScanner st [ObjectKey]) [] [] acc) (join_members (quoted_keys kvs) ++ [125]) =
    Some (mkCollector (mkScanner EndTop []) [] [] (acc ++ quoted_keys kvs)).
Proof.
  intros H Hn. revert st acc. induction H as [|[k v] kvs (Hk & Hv) _ IH]; intros st acc Hne Hst; [done|].
  destruct (Hv [] Hn) as [m Hm]. clear Hv. rename Hm into Hv.
  destruct kvs as [|kv kvs].
  - cbn [quoted_keys fmap list_fmap join_members]. rewrite <- !app_assoc.
    apply (collect_member st k v m); [done.. | apply (token_brace _ _ _ Hv) | by right].
  - change (join_members (quoted_keys ((k, v) :: kv :: kvs)) ++ [125])
      with ((quote_json k ++ [58] ++ v ++ [44] ++ join_members (quoted_keys (kv :: kvs))) ++ [125]).
    replace ((quote_json k ++ [58] ++ v ++ [44] ++ join_members (quoted_keys (kv :: kvs))) ++ [125])
      with ((quote_json k ++ [58] ++ v ++ [44]) ++ join_members (quoted_keys (kv :: kvs)) ++ [125])
      by by rewrite <- !app_assoc.
    erewrite collect_app by (apply (collect_member st k v m); [done.. | apply (token_comma _ _ _ Hv) | by left]).
    rewrite IH by done. by rewrite <- app_assoc.
Qed.

Lemma collect_object n kvs : encodable n kvs -> Z.of_nat n < maxNestingDepth -> kvs <> [] ->
  collect collect_start (encode_object (quoted_keys kvs)) =
    Some (mkCollector (mkScanner EndTop []) [] [] (quoted_keys kvs)).
Proof.
  intros H Hn Hne. unfold encode_object.
  erewrite (collect_app _ [123]) by reflexivity. by eapply collect_members.
Qed.

(** Text without blanks at its ends. *)
Definition trimmed (l : list Z) : Prop :=
  (exists c t, l = c :: t /\ is_space c = false) /\ (exists t c, l = t ++ [c] /\ is_space c = false).

Lemma trim_json_id l : trimmed l -> trim_json l = l.
Proof.
  intros [(c & t & E1 & H1) (u & d & E2 & H2)]. unfold trim_json.
  replace (drop_spaces l) with l by (rewrite E1; simpl; by rewrite H1).
  rewrite E2, reverse_snoc. simpl. by rewrite H2, reverse_cons, reverse_involutive.
Qed.

Lemma quote_json_trimmed s : trimmed (quote_json s).
Proof. split; [by eexists _, _ | by exists (34 :: quote_body 0 (codes s)), 34]. Qed.

Lemma encode_object_trimmed kvs : trimmed (encode_object kvs).
Proof. split; [by eexists _, _ | by exists (123 :: join_members kvs), 125]. Qed.

Lemma members_encode_object n kvs : encodable n kvs -> Z.of_nat n < maxNestingDepth -> kvs <> [] -> Forall (fun kv => trimmed kv.2) kvs ->
  members (encode_object (quoted_keys kvs)) = quoted_keys kvs.
Proof.
  intros H Hn Hne Ht. unfold members. rewrite (collect_object n) by done. cbn [col_members].
  unfold quoted_keys. rewrite <- list_fmap_compose. apply list_fmap_ext. intros i kv Hi. simpl.
  rewrite Forall_lookup in Ht. rewrite !trim_json_id; eauto using quote_json_trimmed.
Qed.

Lemma encode_object_valid n kvs data : codes data = encode_object (quoted_keys kvs) ->
  encodable n kvs -> Z.of_nat n < maxNestingDepth -> kvs <> [] -> json_Valid data = true.
Proof.
  intros E H Hn Hne. unfold json_Valid. rewrite E.
  pose proof (collect_scan _ _ _ (collect_object _ _ H Hn Hne)) as S. cbn [col_scan collect_start] in S.
  by rewrite S.
Qed.

(** Objects inside objects. *)
Lemma within_member s st name v m c m' : utf8 (codes name) -> token s v m ->
  scan_step (mkScanner st (ObjectKey :: s)) 34 = Some (mkScanner InString (ObjectKey :: s)) ->
  scan_step m c = Some m' -> s `suffix_of` sc_stack m' ->
  within s (mkScanner st (ObjectKey :: s)) (quote_json name ++ [58] ++ v ++ [c]) m'.
Proof.
  intros Hn Hv Hst Hc Hm.
  eapply within_app; [apply (within_outer _ (ObjectKey :: s)); [by exists [ObjectKey]|]; by apply steady_within, steady_quote|].
  eapply within_app; [eapply within_one; [reflexivity | by exists [ObjectValue]]|].
  eapply within_app; [|by eapply within_one].
  apply (within_outer _ (ObjectValue :: s)); [by exists [ObjectValue] | apply (token_within _ _ _ Hv)].
Qed.

Lemma within_members n s st kvs m' : encodable n kvs -> Z.of_nat (length s + n) < maxNestingDepth -> kvs <> [] ->
  scan_step (mkScanner st (ObjectKey :: s)) 34 = Some (mkScanner InString (ObjectKey :: s)) ->
  pop (ObjectValue :: s) = Some m' -> s `suffix_of` sc_stack m' ->
  within s (mkScanner st (ObjectKey :: s)) (join_members (quoted_keys kvs) ++ [125]) m'.
Proof.
  intros H Hn Hne Hst Hp Hm. revert st Hne Hst. induction H as [|[k v] kvs (Hk & Hv) _ IH]; intros st Hne Hst; [done|].
  destruct (Hv s Hn) as [mv Ht]. destruct kvs as [|kv kvs].
  - cbn [quoted_keys fmap list_fmap join_members]. rewrite <- !app_assoc.
    apply (within_member s st k v mv); [done..|by rewrite (token_brace _ _ _ Ht) | done].
  - change (join_members (quoted_keys ((k, v) :: kv :: kvs)) ++ [125])
      with ((quote_json k ++ [58] ++ v ++ [44] ++ join_members (quoted_keys (kv :: kvs))) ++ [125]).
    replace ((quote_json k ++ [58] ++ v ++ [44] ++ join_members (quoted_keys (kv :: kvs))) ++ [125])
      with ((quote_json k ++ [58] ++ v ++ [44]) ++ join_members (quoted_keys (kv :: kvs)) ++ [125])
      by by rewrite <- !app_assoc.
    apply (within_app _ _ _ (mkScanner BeginString (ObjectKey :: s))); [|by apply IH].
    apply (within_member s st k v mv); [done..|apply (token_comma _ _ _ Ht) | by exists [ObjectKey]].
Qed.

Lemma value_object n kvs : encodable n kvs -> kvs <> [] -> value (S n) (encode_object (quoted_keys kvs)).
Proof.
  intros H Hne t Ht. exists (mkScanner EndValue (ObjectValue :: t)). split; [|done..]. unfold encode_object.
  eapply within_app.
  - eapply (within_one _ _ _ (mkScanner BeginStringOrEmpty (ObjectKey :: ObjectValue :: t))); [|by exists [ObjectKey]].
    unfold scan_step, begin_value, push. cbn [sc_step sc_stack length].
    change (is_space 123) with false. change (123 =? 123) with true. cbv iota.
    rewrite (proj2 (Z.ltb_lt (Z.of_nat (S (length t))) maxNestingDepth)) by lia. reflexivity.
  - eapply within_members; [exact H | cbn [length]; lia | done | reflexivity | reflexivity | done].
Qed.

(** Integers. *)
Lemma pretty_digit x : (x < 10)%N -> code (pretty_N_char x) = 48 + Z.of_N x.
Proof.
  intros Hx. assert (x ∈ (N.of_nat <$> List.seq 0 10)) as Hin.
  { apply list_elem_of_fmap. exists (N.to_nat x). split; [lia|]. apply list_elem_of_In, in_seq. lia. }
  clear Hx. revert x Hin. apply Forall_forall. cbn [List.seq fmap list_fmap].
  repeat constructor.
Qed.

Definition numeral (l : list Z) : Prop :=
  exists d ds, l = d :: ds /\ 49 <= d <= 57 /\ Forall (fun c => 48 <= c <= 57) ds.

Lemma pretty_N_go_codes x s : (0 < x)%N ->
  exists l, numeral l /\ codes (pretty_N_go x s) = l ++ codes s.
Proof.
  revert s. induction (N.lt_wf_0 x) as [x _ IH]. intros s Hx. rewrite pretty_N_go_step by done.
  pose proof (N.mod_lt x 10 ltac:(lia)) as Hm. pose proof (N.div_mod x 10 ltac:(lia)) as Hd.
  pose proof (N.div_lt x 10 Hx ltac:(lia)) as Hq.
  generalize dependent (x mod 10)%N. generalize dependent (x / 10)%N. intros q Hq r Hr Hd.
  destruct (decide (q = 0)%N) as [E|E].
  - rewrite E, pretty_N_go_0. exists [code (pretty_N_char r)]. split; [|done].
    rewrite pretty_digit by done. eexists _, []. split; [done|]. split; [lia | done].
  - destruct (IH q) with (s := String (pretty_N_char r) s)
      as (l & (d & ds & -> & Hd1 & Hds) & ->); [lia | lia |].
    exists ((d :: ds) ++ [code (pretty_N_char r)]). split; [|by rewrite <- app_assoc].
    exists d, (ds ++ [code (pretty_N_char r)]). split; [done|]. split; [done|].
    apply Forall_app. split; [done|]. constructor; [|done]. rewrite pretty_digit by done. lia.
Qed.

Lemma steady_digits s l : Forall (fun c => 48 <= c <= 57) l ->
  steady s (mkScanner Num1 s) l (mkScanner Num1 s).
Proof.
  induction 1 as [|c l Hc _ IH]; [constructor|]. apply (steady_cons s _ c (mkScanner Num1 s)); [|done|exact IH]. unfold scan_step, is_digit. simpl.
  by rewrite (proj2 (Z.leb_le 48 c)), (proj2 (Z.leb_le c 57)) by lia.
Qed.

Lemma steady_numeral s st l : numeral l ->
  (forall c, 49 <= c <= 57 -> scan_step (mkScanner st s) c = Some (mkScanner Num1 s)) ->
  steady s (mkScanner st s) l (mkScanner Num1 s).
Proof.
  intros (d & ds & -> & Hd & Hds) Hst. apply (steady_app _ _ [d] (mkScanner Num1 s)).
  - apply steady_one. by apply Hst.
  - by apply steady_digits.
Qed.

Lemma digit_cases (P : Z -> Prop) : Forall P [49; 50; 51; 52; 53; 54; 55; 56; 57] -> forall c, 49 <= c <= 57 -> P c.
Proof.
  intros H c Hc. rewrite Forall_forall in H. apply H.
  assert (c = 49 \/ c = 50 \/ c = 51 \/ c = 52 \/ c = 53 \/ c = 54 \/ c = 55 \/ c = 56 \/ c = 57)
    as E by lia.
  clear -E. rewrite !elem_of_cons. tauto.
Qed.

Lemma numeral_trimmed l : numeral l -> trimmed l.
Proof.
  intros (d & ds & -> & Hd & Hds).
  assert (forall c, 48 <= c <= 57 -> is_space c = false) as S by (unfold is_space; intros; lia).
  split; [exists d, ds; split; [done | apply S; lia]|].
  destruct ds as [|c ds _] using rev_ind; [exists [], d | exists (d :: ds), c];
    (split; [done|]); apply S; [lia|]. apply Forall_app in Hds as [_ Hc]. by apply Forall_inv in Hc.
Qed.

Lemma value_int (z : Z) : value 0 (codes (pretty z)) /\ trimmed (codes (pretty z)).
Proof.
  assert (forall p, exists l, numeral l /\ codes (pretty (N.pos p)) = l) as D.
  { intros p. destruct (pretty_N_go_codes (N.pos p) "") as (l & Hl & E); [lia|].
    exists l. split; [done|]. rewrite app_nil_r in E. exact E. }
  destruct z as [|p|p].
  - split; [|split; [by exists 48, [] | by exists [], 48]].
    intros t _. eexists. split; [by eapply within_one | reflexivity..].
  - destruct (D p) as (l & Hl & E). change (codes (pretty (Z.pos p))) with (codes (pretty (N.pos p))).
    rewrite E. split; [|by apply numeral_trimmed].
    intros t _. exists (mkScanner Num1 (ObjectValue :: t)). split; [|reflexivity..].
    apply steady_within, steady_numeral; [done|]. apply digit_cases. repeat constructor.
  - destruct (D p) as (l & Hl & E).
    change (codes (pretty (Z.neg p))) with (45 :: codes (pretty (N.pos p))). rewrite E. split.
    + intros t _. exists (mkScanner Num1 (ObjectValue :: t)). split; [|reflexivity..].
      apply steady_within. eapply steady_cons; [reflexivity | reflexivity |]. apply steady_numeral; [done|]. apply digit_cases. repeat constructor.
    + destruct (numeral_trimmed l Hl) as [_ (t & c & -> & Hc)].
      split; [by eexists _, _ | by exists (45 :: t), c].
Qed.

(** Timestamps. *)
Definition plain (l : list Z) : Prop := Forall (fun b => 32 <= b /\ b <> 34 /\ b <> 92) l.

Lemma plain_digit z : 32 <= 48 + z mod 10 /\ 48 + z mod 10 <> 34 /\ 48 + z mod 10 <> 92.
Proof. pose proof (Z.mod_pos_bound z 10). lia. Qed.

Lemma plain_pad2 n : plain (pad2 n).
Proof. apply Forall_cons. split; [apply plain_digit|]. apply Forall_cons. split; [apply plain_digit | constructor]. Qed.

Lemma plain_fraction k n : plain (fraction k n).
Proof.
  revert n. induction k as [|k IH]; intros n; cbn [fraction]; [constructor|].
  destruct (n =? 0); [constructor|]. apply Forall_cons. split; [apply plain_digit | apply IH].
Qed.

Lemma value_plain l : plain l ->
  value 0 ([34] ++ l ++ [34]) /\ trimmed ([34] ++ l ++ [34]).
Proof.
  intros Hl. split.
  - intros t _. exists (mkScanner EndValue (ObjectValue :: t)). split; [|done..]. apply steady_within.
    eapply steady_app; [by apply steady_one|]. eapply steady_app; [by apply in_string_plain | by apply steady_one].
  - split; [by eexists _, _ | by exists (34 :: l), 34].
Qed.

Lemma plain_time t : plain (format_time t).
Proof.
  unfold format_time. destruct (Date t) as [[y m] d]. unfold plain, pad4.
  repeat (apply Forall_app; split); try apply plain_pad2; try (by repeat constructor).
  case_match; [constructor|]. apply Forall_cons. split; [done | apply plain_fraction].
Qed.

Lemma value_time t l : MarshalTime t = Some l -> value 0 l /\ trimmed l.
Proof.
  unfold MarshalTime. destruct (Date t) as [[y m] d]. case_match; [done|]. intros E.
  assert (l = [34] ++ format_time t ++ [34]) as -> by congruence.
  by apply value_plain, plain_time.
Qed.

(** ** Lemmas: encoded text is made of bytes *)

Lemma escape_ascii_bytes b : 0 <= b < 128 -> Forall is_byte (escape_ascii b).
Proof.
  intros Hb. pose proof (hex_digit_byte (b / 16)) as H1. pose proof (hex_digit_byte (b mod 16)) as H2.
  pose proof (Z.mod_pos_bound b 16). pose proof (Z.div_mod b 16).
  unfold escape_ascii. repeat case_match;
    repeat (apply Forall_cons; split; [first [apply H1; lia | apply H2; lia | unfold is_byte; lia]|]); constructor.
Qed.

Lemma quote_head_bytes l : Forall is_byte l -> Forall is_byte (quote_head l).1.
Proof.
  intros Hl. unfold quote_head. destruct l as [|b l]; [constructor|].
  destruct (Z.ltb_spec b 128).
  { apply escape_ascii_bytes. apply Forall_inv in Hl. unfold is_byte in Hl. lia. }
  destruct (rune_len (b :: l)); [repeat (apply Forall_cons; split; [unfold is_byte; lia|]); constructor|].
  destruct (_ || _) eqn:E; [|by apply Forall_take].
  assert (exists x t, b :: l = 226 :: 128 :: x :: t /\ (x = 168 \/ x = 169)) as (x & t & -> & Hx).
  { apply orb_true_iff in E as [E|E]; apply starts_with_split in E as [t ->]; eexists _, t; eauto. }
  simpl. repeat (apply Forall_cons; split; [|]); try (unfold is_byte; lia); [|constructor].
  apply hex_digit_byte. lia.
Qed.

Lemma quote_body_bytes l k : Forall is_byte l -> Forall is_byte (quote_body k l).
Proof.
  revert k. induction l as [|b l IH]; intros k Hl; [constructor|]. pose proof (quote_head_bytes _ Hl) as Hq.
  destruct k as [|k]; cbn [quote_body].
  - destruct (quote_head (b :: l)) as [out n]. apply Forall_app. split; [done|]. apply IH. by inversion Hl.
  - apply IH. by inversion Hl.
Qed.

Lemma quote_json_bytes s : Forall is_byte (quote_json s).
Proof.
  unfold quote_json. apply Forall_cons. split; [unfold is_byte; lia|]. apply Forall_app.
  split; [apply quote_body_bytes, codes_bytes|]. apply Forall_cons. split; [unfold is_byte; lia | constructor].
Qed.

Lemma encode_object_bytes kvs : Forall (fun kv => Forall is_byte kv.2) kvs ->
  Forall is_byte (encode_object (quoted_keys kvs)).
Proof.
  intros H. unfold encode_object. apply Forall_cons. split; [unfold is_byte; lia|]. apply Forall_app.
  split; [|apply Forall_cons; split; [unfold is_byte; lia | constructor]].
  induction H as [|[k v] kvs Hv _ IH]; [constructor|]. simpl in *.
  assert (Forall is_byte (quote_json k ++ [58] ++ v)) as P.
  { apply Forall_app. split; [apply quote_json_bytes|]. apply Forall_cons. split; [unfold is_byte; lia | done]. }
  destruct kvs as [|kv kvs]; [exact P|].
  change (Forall is_byte (quote_json k ++ [58] ++ v ++ [44] ++ join_members (quoted_keys (kv :: kvs)))).
  rewrite !Forall_app in *. repeat split; try apply P; [|exact IH].
  apply Forall_cons. split; [unfold is_byte; lia | constructor].
Qed.

Lemma digit_byte z : is_byte (48 + z mod 10).
Proof. pose proof (Z.mod_pos_bound z 10). unfold is_byte. lia. Qed.

Lemma pad2_bytes n : Forall is_byte (pad2 n).
Proof. apply Forall_cons. split; [apply digit_byte|]. apply Forall_cons. split; [apply digit_byte | constructor]. Qed.

Lemma MarshalTime_bytes t l : MarshalTime t = Some l -> Forall is_byte l.
Proof.
  unfold MarshalTime. destruct (Date t) as [[y m] d] eqn:E. case_match; [done|]. intros F.
  assert (l = [34] ++ format_time t ++ [34]) as -> by congruence.
  unfold format_time. rewrite E. unfold pad4.
  assert (forall k n, Forall is_byte (fraction k n)) as G.
  { intros k. induction k as [|k IH]; intros n; cbn [fraction]; [constructor|].
    destruct (n =? 0); [constructor|]. apply Forall_cons. split; [apply digit_byte | apply IH]. }
  rewrite !Forall_app. repeat split; try apply pad2_bytes;
    try (apply Forall_cons; split; [unfold is_byte; lia | constructor]).
  case_match; [constructor|]. apply Forall_cons. split; [unfold is_byte; lia | apply G].
Qed.

(** ** Lemmas: what an encoder writes is read back *)

(** Literal keys. *)
Ltac utf8_literal := apply utf8_ascii; simpl; repeat constructor; unfold code; simpl; lia.

(** A member with at most [n] objects inside each other in its value. *)
Record member (n : nat) (kv : string * list Z) : Prop := {
  member_key : utf8 (codes kv.1);
  member_value : value n kv.2;
  member_trimmed : trimmed kv.2;
  member_bytes : Forall is_byte kv.2;
}.

Definition object_of (kvs : list (string * list Z)) : list Z := encode_object (quoted_keys kvs).

Lemma member_quote n k s : utf8 (codes k) -> utf8 (codes s) -> member n (k, quote_json s).
Proof.
  intros Hk Hs. split; [done | apply (value_weaken 0), value_quote; [lia | done] | apply quote_json_trimmed | apply quote_json_bytes].
Qed.

Lemma member_int n k (z : Z) : utf8 (codes k) -> member n (k, codes (pretty z)).
Proof.
  intros Hk. destruct (value_int z) as [Hv Ht].
  split; [done | apply (value_weaken 0); [lia | done] | done | apply codes_bytes].
Qed.

Lemma members_encodable n kvs : Forall (member n) kvs ->
  encodable n kvs /\ Forall (fun kv => trimmed kv.2) kvs /\ Forall (fun kv => Forall is_byte kv.2) kvs.
Proof. intros H. split_and!; eapply Forall_impl; try exact H; intros kv []; done. Qed.

Lemma member_object n k kvs : utf8 (codes k) -> Forall (member n) kvs -> kvs <> [] -> member (S n) (k, object_of kvs).
Proof.
  intros Hk (He & _ & Hb)%members_encodable Hne.
  split; [done | by apply value_object | apply encode_object_trimmed | by apply encode_object_bytes].
Qed.

(** An encoded object is valid, and decoding it goes through its members. *)
Lemma object_valid n kvs : Forall (member n) kvs -> Z.of_nat n < maxNestingDepth -> kvs <> [] ->
  json_Valid (of_codes (object_of kvs)) = true.
Proof.
  intros (He & _ & Hb)%members_encodable Hn Hne. eapply encode_object_valid; [|exact He | done | done].
  by apply codes_of_codes, encode_object_bytes.
Qed.

Lemma members_object n kvs : Forall (member n) kvs -> Z.of_nat n < maxNestingDepth -> kvs <> [] ->
  members (object_of kvs) = quoted_keys kvs.
Proof. intros (He & Ht & _)%members_encodable Hn Hne. by apply (members_encode_object n). Qed.

Lemma Unmarshal_object `{UnicodeTables} `{JsonErrors} {S} (fs : fields S) n kvs (s : S) :
  Forall (member n) kvs -> Z.of_nat n < maxNestingDepth -> kvs <> [] ->
  Unmarshal fs (of_codes (object_of kvs)) s = store_members fs (quoted_keys kvs) s.
Proof.
  intros Hm Hn Hne. unfold Unmarshal. rewrite (object_valid n) by done.
  rewrite codes_of_codes by (apply members_encodable in Hm as (_ & _ & ?); by apply encode_object_bytes).
  rewrite trim_json_id by apply encode_object_trimmed.
  change (store_struct fs (object_of kvs) s) with (store_members fs (members (object_of kvs)) s).
  by rewrite (members_object n).
Qed.
