(* ===== verification/JsonAny.v ===== *)
(** * [encoding/json]: decoding into [any]

    What [json.Unmarshal] builds when its target is an empty interface: a tree
    of the value, built by one descent over a text [Json.json_Valid] has
    checked. A number is kept as its literal, which determines the [float64] it
    is read as; one no [float64] holds is a type error, as in the library. *)

From S2P Require Import Prelude GoLib Json JsonText.

(** An object is a [map[string]any]: no key twice. *)
Inductive any : Type :=
| ANull
| ABool (b : bool)
| ANumber (literal : list Z)
| AString (s : string)
| AArray (items : list any)
| AObject (members : list (string * any)).

(** [m[key] = value]. *)
Fixpoint set_member (key : string) (value : any) (ms : list (string * any)) : list (string * any) :=
  match ms with
  | [] => [(key, value)]
  | (k, v) :: ms => if k =s? key then (k, value) :: ms else (k, v) :: set_member key value ms
  end.

(** ** Numbers

    A literal is its sign, its digits with the places after the point, and an
    exponent, which the library stops reading after 10000. *)
Record decimal := mkDecimal { mantissa : Z; places : Z; power : Z }.

Fixpoint read_exponent (l : list Z) (e : Z) : Z :=
  match l with
  | [] => e
  | c :: l => read_exponent l (if e <? 10000 then e * 10 + (c - 48) else e)
  end.

Definition exponent_of (l : list Z) : Z :=
  match l with
  | 45 :: l => - read_exponent l 0
  | 43 :: l => read_exponent l 0
  | _ => read_exponent l 0
  end.

Fixpoint read_decimal (l : list Z) (fraction : bool) (d : decimal) : decimal :=
  match l with
  | [] => d
  | c :: l =>
      if c =? 46 then read_decimal l true d
      else if is_exp c then mkDecimal (mantissa d) (places d) (exponent_of l)
      else if Json.is_digit c then
        read_decimal l fraction (mkDecimal (mantissa d * 10 + (c - 48)) (places d + if fraction then 1 else 0) (power d))
      else read_decimal l fraction d
  end.

(** No [float64] is nearest: half a place above the largest, or more. *)
Definition too_large : Z := (2 ^ 54 - 1) * 2 ^ 970.
Definition ParseFloat_range (literal : list Z) : bool :=
  let d := read_decimal literal false (mkDecimal 0 0 0) in
  let e := power d - places d in
  if mantissa d =? 0 then true
  else if 0 <=? e then mantissa d * 10 ^ e <? too_large
  else mantissa d <? too_large * 10 ^ (- e).

(** ** The descent *)

(** A string literal after its quote: the text inside, and what follows. *)
Fixpoint string_span (escaped : bool) (l : list Z) : list Z * list Z :=
  match l with
  | [] => ([], [])
  | c :: t =>
      if escaped then let '(q, r) := string_span false t in (c :: q, r)
      else if c =? 34 then ([], t)
      else let '(q, r) := string_span (c =? 92) t in (c :: q, r)
  end.

Definition in_literal (c : Z) : bool :=
  Json.is_digit c || is_upper c || is_lower c || (c =? 45) || (c =? 43) || (c =? 46).

Fixpoint literal_span (l : list Z) : list Z * list Z :=
  match l with
  | c :: t => if in_literal c then let '(w, r) := literal_span t in (c :: w, r) else ([], l)
  | [] => ([], [])
  end.

Definition unquote_span (inner : list Z) : string := of_codes (unquote_body 0 inner).

(** *** The bytes bound the calls *)

Lemma drop_spaces_length l : (length (drop_spaces l) <= length l)%nat.
Proof. induction l as [|c t IH]; [done|]. cbn [drop_spaces]. case_match; cbn [length]; lia. Qed.

Lemma drop_spaces_cons l c t : drop_spaces l = c :: t -> (S (length t) <= length l)%nat.
Proof. intros E. pose proof (drop_spaces_length l) as Hl. rewrite E in Hl. exact Hl. Qed.

Lemma string_span_length e l q r : string_span e l = (q, r) -> (length r <= length l)%nat.
Proof.
  revert e q r. induction l as [|c t IH]; intros e q r E; cbn [string_span] in E; [by simplify_eq|].
  destruct e; [|destruct (c =? 34)]; try (destruct (string_span _ t) as [q' r'] eqn:E'; apply IH in E');
    simplify_eq; cbn [length]; lia.
Qed.

Lemma literal_span_length l w r : literal_span l = (w, r) -> (length r <= length l)%nat.
Proof.
  revert w r. induction l as [|c t IH]; intros w r E; cbn [literal_span] in E; [by simplify_eq|].
  destruct (in_literal c); [|by simplify_eq]. destruct (literal_span t) as [w' r'].
  specialize (IH _ _ eq_refl). simplify_eq. cbn [length]. lia.
Qed.

Section Descent.
Context `{JsonErrors}.

(** What is left of the text, and the first error saved. *)
Definition Parsed (A : Type) : Type := option (A * option error * list Z).

(** [literalInterface] of a word that is no string. *)
Definition literal_any (word : list Z) : any * option error :=
  match kind_of word with
  | KNull => (ANull, None)
  | KBool => (ABool (match word with 116 :: _ => true | _ => false end), None)
  | _ => if ParseFloat_range word then (ANumber word, None) else (ANull, Some (ErrNew (type_error word)))
  end.

(** [valueInterface], [arrayInterface] from an element on and [objectInterface]
    from a key on. Every call reads a byte, so the bytes bound the calls. *)
Fixpoint valueInterface (fuel : nat) (l : list Z) : Parsed any :=
  match fuel with
  | O => None
  | S fuel =>
      match drop_spaces l with
      | 123 :: t =>
          match drop_spaces t with
          | 125 :: t => Some (AObject [], None, t)
          | t => objectInterface fuel [] None t
          end
      | 91 :: t =>
          match drop_spaces t with
          | 93 :: t => Some (AArray [], None, t)
          | t => arrayInterface fuel [] None t
          end
      | 34 :: t => let '(q, t) := string_span false t in Some (AString (unquote_span q), None, t)
      | [] => None
      | t =>
          let '(word, t) := literal_span t in
          match word with [] => None | _ => let '(v, e) := literal_any word in Some (v, e, t) end
      end
  end
with arrayInterface (fuel : nat) (items : list any) (saved : option error) (l : list Z) : Parsed any :=
  match fuel with
  | O => None
  | S fuel =>
      match valueInterface fuel l with
      | Some (v, e, t) =>
          let saved := first_error saved e in
          match drop_spaces t with
          | 44 :: t => arrayInterface fuel (v :: items) saved t
          | 93 :: t => Some (AArray (reverse (v :: items)), saved, t)
          | _ => None
          end
      | None => None
      end
  end
with objectInterface (fuel : nat) (ms : list (string * any)) (saved : option error) (l : list Z) : Parsed any :=
  match fuel with
  | O => None
  | S fuel =>
      match drop_spaces l with
      | 34 :: t =>
          let '(q, t) := string_span false t in
          match drop_spaces t with
          | 58 :: t =>
              match valueInterface fuel t with
              | Some (v, e, t) =>
                  let ms := set_member (unquote_span q) v ms in
                  let saved := first_error saved e in
                  match drop_spaces t with
                  | 44 :: t => objectInterface fuel ms saved t
                  | 125 :: t => Some (AObject ms, saved, t)
                  | _ => None
                  end
              | None => None
              end
          | _ => None
          end
      | _ => None
      end
  end.

(** A call with a head of its own, whatever it is. *)
Ltac spans :=
  repeat match goal with
  | E : drop_spaces _ = _ :: _ |- _ => apply drop_spaces_cons in E
  | E : string_span _ _ = _ |- _ => apply string_span_length in E
  | E : literal_span _ = _ |- _ => apply literal_span_length in E
  end; cbn [length] in *.

Ltac cases := repeat (case_match; simplify_eq; try done).

(** No call hands back more than it was given. *)
Lemma interface_length n :
  (forall l v e r, valueInterface n l = Some (v, e, r) -> (length r <= length l)%nat) /\
  (forall items saved l v e r, arrayInterface n items saved l = Some (v, e, r) -> (length r <= length l)%nat) /\
  (forall ms saved l v e r, objectInterface n ms saved l = Some (v, e, r) -> (length r <= length l)%nat).
Proof.
  induction n as [|n (IHv & IHa & IHo)]; [by split_and!|].
  split_and!.
  - intros l v e r E. cbn [valueInterface] in E. cases;
      repeat match goal with
      | E : objectInterface n _ _ _ = _ |- _ => apply IHo in E
      | E : arrayInterface n _ _ _ = _ |- _ => apply IHa in E
      end; spans; lia.
  - intros items saved l v e r E. cbn [arrayInterface] in E. cases;
      repeat match goal with
      | E : valueInterface n _ = _ |- _ => apply IHv in E
      | E : arrayInterface n _ _ _ = _ |- _ => apply IHa in E
      end; spans; lia.
  - intros ms saved l v e r E. cbn [objectInterface] in E. cases;
      repeat match goal with
      | E : valueInterface n _ = _ |- _ => apply IHv in E
      | E : objectInterface n _ _ _ = _ |- _ => apply IHo in E
      end; spans; lia.
Qed.

(** Twice the bytes and one more are enough for a value, and then the answer
    does not depend on how many there are. *)
Lemma interface_enough k :
  (forall l n m, length l = k -> (2 * k + 1 <= n)%nat -> (2 * k + 1 <= m)%nat -> valueInterface n l = valueInterface m l) /\
  (forall items saved l n m, length l = k -> (2 * k + 2 <= n)%nat -> (2 * k + 2 <= m)%nat ->
     arrayInterface n items saved l = arrayInterface m items saved l) /\
  (forall ms saved l n m, length l = k -> (2 * k + 1 <= n)%nat -> (2 * k + 1 <= m)%nat ->
     objectInterface n ms saved l = objectInterface m ms saved l).
Proof.
  induction k as [k IH] using lt_wf_ind.
  assert (forall l n m, length l = k -> (2 * k + 1 <= n)%nat -> (2 * k + 1 <= m)%nat -> valueInterface n l = valueInterface m l) as Hv.
  { intros l [|n] [|m] El Hn Hm; try lia. cbn [valueInterface]. cases.
    all: match goal with
      | |- arrayInterface _ _ _ ?t = _ => apply (IH (length t)) | |- objectInterface _ _ _ ?t = _ => apply (IH (length t)) end;
      spans; lia. }
  split_and!; [exact Hv | |].
  - intros items saved l [|n] [|m] El Hn Hm; try lia. cbn [arrayInterface]. rewrite (Hv l n m) by lia.
    destruct (valueInterface m l) as [[[v e] t]|] eqn:E; [|done]. apply interface_length in E. cases.
    match goal with |- arrayInterface _ _ _ ?t = _ => apply (IH (length t)) end; spans; lia.
  - intros ms saved l [|n] [|m] El Hn Hm; try lia. cbn [objectInterface]. destruct (drop_spaces l) as [|c t] eqn:E; [done|].
    spans. destruct (string_span false t) as [q r] eqn:Eq. spans.
    destruct (drop_spaces r) as [|c' t'] eqn:E'; [by cases|]. spans.
    rewrite (proj1 (IH (length t') ltac:(lia)) t' n m) by lia.
    destruct (valueInterface m t') as [[[v e] u]|] eqn:Eu; [|by cases]. apply interface_length in Eu. cases.
    match goal with |- objectInterface _ _ _ ?t = _ => apply (IH (length t)) end; spans; lia.
Qed.

(** [json.Unmarshal(data, &value)] with [var value any]. *)
Definition Unmarshal_any (data : string) : res any :=
  if json_Valid data then
    match valueInterface (2 * String.length data + 2) (codes data) with
    | Some (v, None, _) => Ok v
    | Some (_, Some err, _) => Err err
    | None => Err (ErrNew (syntax_error data))
    end
  else Err (ErrNew (syntax_error data)).
End Descent.

(** ** Looking into a value *)

Definition member (key : string) (v : any) : option any :=
  match v with AObject ms => snd <$> List.find (fun m => m.1 =s? key) ms | _ => None end.
Definition members_of (v : any) : list (string * any) := match v with AObject ms => ms | _ => [] end.
Definition string_of (v : any) : option string := match v with AString s => Some s | _ => None end.
