(* ===== verification/Netip.v ===== *)
(** * IP addresses: [net/netip] and the address parts of [net]

    The standard library the client resolver and the configuration rest on:
    addresses, prefixes and the parsers of both. An address is its 32 or 128
    bits; texts are lists of byte codes while they are parsed. *)

From S2P Require Import Prelude GoLib.

(** [netip.Addr]: the zero value, four bytes, or sixteen bytes and a zone. *)
Inductive Addr : Type :=
| NoAddr
| V4 (bits : Z)
| V6 (bits : Z) (zone : string).

#[export] Instance Addr_eq_dec : EqDecision Addr.
Proof. solve_decision. Defined.

Definition IsValid (a : Addr) : bool := match a with NoAddr => false | _ => true end.
Definition Is4 (a : Addr) : bool := match a with V4 _ => true | _ => false end.
Definition Is6 (a : Addr) : bool := match a with V6 _ _ => true | _ => false end.

(** [::ffff:a.b.c.d]. *)
Definition mapped (bits : Z) : bool := Z.shiftr bits 32 =? 65535.

Definition Unmap (a : Addr) : Addr :=
  match a with V6 bits _ => if mapped bits then V4 (bits mod 2 ^ 32) else a | _ => a end.
Definition WithZone (a : Addr) (zone : string) : Addr :=
  match a with V6 bits _ => V6 bits zone | _ => a end.

(** *** Parsing *)

Definition is_digit (c : Z) : bool := (48 <=? c) && (c <=? 57).

(** [parseIPv4Fields]: [prev] is the byte before, [pos] the fields complete. *)
Fixpoint fields4 (l : list Z) (prev : Z) (pos : nat) (val digLen acc : Z) : option Z :=
  match l with
  | [] => if (pos <? 3)%nat then None else Some (acc * 256 + val)
  | c :: t =>
      if is_digit c then
        if (digLen =? 1) && (val =? 0) then None
        else
          let val := val * 10 + (c - 48) in
          if 255 <? val then None else fields4 t c pos val (digLen + 1) acc
      else if c =? 46 then
        if (prev =? 46) || bool_decide (t = []) then None
        else if (pos =? 3)%nat then None
        else fields4 t c (S pos) 0 0 (acc * 256 + val)
      else None
  end.

Definition parse4 (l : list Z) : option Z := fields4 l 46 0 0 0 0.

(** The digits of one group of an IPv6 address: how many, their value and what
    follows; a fifth digit is an error. *)
Fixpoint hex_run (n : nat) (acc : Z) (l : list Z) : option (nat * Z * list Z) :=
  match l with
  | [] => Some (n, acc, [])
  | c :: t =>
      match from_hex c with
      | Some d => if (3 <? n)%nat then None else hex_run (S n) (acc * 16 + d) t
      | None => Some (n, acc, l)
      end
  end.

(** The groups read so far as 16-bit numbers, where the ellipsis stands among
    them, and the text that is left. *)
Fixpoint groups6 (fuel : nat) (s : list Z) (groups : list Z) (ellipsis : option nat)
    : option (list Z * option nat * list Z) :=
  match fuel with
  | O => Some (groups, ellipsis, s)
  | S fuel =>
      '(off, acc, rest) ← hex_run 0 0 s;
      if (off =? 0)%nat then None
      else
        match rest with
        | 46 :: _ =>
            if (bool_decide (ellipsis = None) && negb (length groups =? 6)%nat) || (6 <? length groups)%nat then None
            else v ← parse4 s; Some (groups ++ [v / 65536; v mod 65536], ellipsis, [])
        | _ =>
            let groups := groups ++ [acc] in
            match rest with
            | [] => Some (groups, ellipsis, [])
            | 58 :: [] => None
            | 58 :: 58 :: s =>
                if bool_decide (ellipsis = None) then
                  match s with
                  | [] => Some (groups, Some (length groups), [])
                  | _ => groups6 fuel s groups (Some (length groups))
                  end
                else None
            | 58 :: s => groups6 fuel s groups ellipsis
            | _ => None
            end
        end
  end.

Definition value_of (base : Z) (l : list Z) : Z := foldl (fun a d => a * base + d) 0 l.

Definition parse6_groups (s : list Z) (groups : list Z) (ellipsis : option nat) : option Z :=
  '(groups, ellipsis, rest) ← groups6 8 s groups ellipsis;
  match rest, ellipsis with
  | _ :: _, _ => None
  | [], None => if (length groups <? 8)%nat then None else Some (value_of 65536 groups)
  | [], Some at_ =>
      if (length groups <? 8)%nat
      then Some (value_of 65536 (take at_ groups ++ replicate (8 - length groups) 0 ++ drop at_ groups))
      else None
  end.

Fixpoint cut (c : Z) (l : list Z) : option (list Z * list Z) :=
  match l with
  | [] => None
  | x :: t => if x =? c then Some ([], t) else '(a, b) ← cut c t; Some (x :: a, b)
  end.

(** Around the last occurrence of a byte. *)
Definition cut_last (c : Z) (l : list Z) : option (list Z * list Z) :=
  '(a, b) ← cut c (reverse l); Some (reverse b, reverse a).

Definition parse6 (l : list Z) : option Addr :=
  let '(s, zone) := match cut 37 l with Some (s, zone) => (s, Some zone) | None => (l, None) end in
  if bool_decide (zone = Some []) then None
  else
    let zone := of_codes (default [] zone) in
    match s with
    | 58 :: 58 :: [] => Some (V6 0 zone)
    | 58 :: 58 :: s => bits ← parse6_groups s [] (Some 0%nat); Some (V6 bits zone)
    | _ => bits ← parse6_groups s [] None; Some (V6 bits zone)
    end.

(** [netip.ParseAddr]: the first of [.], [:] and [%] decides. *)
Definition parse_addr (l : list Z) : option Addr :=
  match List.find (fun c => (c =? 46) || (c =? 58) || (c =? 37)) l with
  | Some 46 => bits ← parse4 l; Some (V4 bits)
  | Some 58 => parse6 l
  | _ => None
  end.
Definition ParseAddr (s : string) : option Addr := parse_addr (codes s).

(** [strconv.ParseUint(s, 10, bits)] *)
Definition parse_uint (bits : Z) (l : list Z) : option Z :=
  if bool_decide (l = []) || negb (forallb is_digit l) then None
  else
    let v := value_of 10 ((fun c => c - 48) <$> l) in
    if v <? 2 ^ bits then Some v else None.

(** The address of [netip.ParseAddrPort]. *)
Definition ParseAddrPort (s : string) : option Addr :=
  '(ip, port) ← cut_last 58 (codes s);
  if bool_decide (ip = []) || bool_decide (port = []) then None
  else
    '(ip, v6) ← match ip with
      | 91 :: t =>
          match reverse t with
          | 93 :: u => Some (reverse u, true)
          | _ => None
          end
      | _ => Some (ip, false)
      end;
    _ ← parse_uint 16 port;
    a ← parse_addr ip;
    if (v6 && Is4 a) || (negb v6 && Is6 a) then None else Some a.

(** The host of [net.SplitHostPort]. *)
Definition SplitHost (s : string) : option string :=
  let l := codes s in
  '(before, _) ← cut_last 58 l;
  match l with
  | 91 :: t =>
      '(host, after) ← cut 93 t;
      match after with
      | 58 :: port =>
          if bool_decide (58 ∈ port) || bool_decide (91 ∈ t) || bool_decide (93 ∈ after) then None
          else Some (of_codes host)
      | _ => None
      end
  | _ =>
      if bool_decide (58 ∈ before) || bool_decide (91 ∈ l) || bool_decide (93 ∈ l) then None
      else Some (of_codes before)
  end.

(** *** Prefixes *)

(** [netip.Prefix]; a negative length is the invalid prefix. *)
Record Prefix := mkPrefix { Prefix_Addr : Addr; Prefix_Bits : Z }.

#[export] Instance Prefix_eq_dec : EqDecision Prefix.
Proof. solve_decision. Defined.

Definition BitLen (a : Addr) : Z := match a with NoAddr => 0 | V4 _ => 32 | V6 _ _ => 128 end.

Definition PrefixFrom (a : Addr) (bits : Z) : Prefix :=
  if IsValid a && (0 <=? bits) && (bits <=? BitLen a) then mkPrefix (WithZone a "") bits
  else mkPrefix (WithZone a "") (-1).

Definition keep (width bits v : Z) : Z := Z.shiftl (Z.shiftr v (width - bits)) (width - bits).

Definition Masked (p : Prefix) : Prefix :=
  if Prefix_Bits p <? 0 then mkPrefix NoAddr 0
  else
    mkPrefix
      match Prefix_Addr p with
      | NoAddr => NoAddr
      | V4 v => V4 (keep 32 (Prefix_Bits p) v)
      | V6 v zone => V6 (keep 128 (Prefix_Bits p) v) zone
      end (Prefix_Bits p).

Definition Contains (p : Prefix) (a : Addr) : bool :=
  if Prefix_Bits p <? 0 then false
  else
    match Prefix_Addr p, a with
    | V4 v, V4 w => Z.shiftr v (32 - Prefix_Bits p) =? Z.shiftr w (32 - Prefix_Bits p)
    | V6 v _, V6 w zone => (zone =s? "") && (Z.shiftr v (128 - Prefix_Bits p) =? Z.shiftr w (128 - Prefix_Bits p))
    | _, _ => false
    end.

(** [netip.ParsePrefix]: no zone, no leading zero in the length. *)
Definition ParsePrefix (s : string) : option Prefix :=
  '(ip, bits) ← cut_last 47 (codes s);
  a ← parse_addr ip;
  if match a with V6 _ zone => negb (zone =s? "") | _ => false end then None
  else if (1 <? length bits)%nat && match bits with c :: _ => negb ((49 <=? c) && (c <=? 57)) | [] => false end then None
  else
    n ← parse_uint 63 bits;
    if BitLen a <? n then None else Some (mkPrefix a n).

(** *** Text *)

Definition octet (v i : Z) : string := pretty (Z.shiftr v (8 * i) mod 256).
Definition text4 (v : Z) : string :=
  octet v 3 +:+ "." +:+ octet v 2 +:+ "." +:+ octet v 1 +:+ "." +:+ octet v 0.

Definition groups_of (v : Z) : list Z := (fun i => Z.shiftr v (16 * i) mod 65536) <$> [7; 6; 5; 4; 3; 2; 1; 0].

(** Lower-case hexadecimal without leading zeros. *)
Definition hex_text (g : Z) : list Z :=
  let ds := [g / 4096; (g / 256) mod 16; (g / 16) mod 16; g mod 16] in
  hex_digit <$> (if g <? 16 then drop 3 ds else if g <? 256 then drop 2 ds else if g <? 4096 then drop 1 ds else ds).

Fixpoint zeros (l : list Z) : nat := match l with 0 :: t => S (zeros t) | _ => 0%nat end.

(** The first longest run of at least two zero groups: start and length. *)
Definition zero_run (gs : list Z) : option (nat * nat) :=
  foldl (fun best i =>
    let n := zeros (drop i gs) in
    if (2 <=? n)%nat && (match best with Some (_, m) => m | None => 0%nat end <? n)%nat then Some (i, n) else best)
    None (seq 0 8).

Fixpoint join (sep : list Z) (l : list (list Z)) : list Z :=
  match l with [] => [] | [x] => x | x :: t => x ++ sep ++ join sep t end.

Definition text6 (v : Z) : string :=
  let gs := groups_of v in
  of_codes (match zero_run gs with
  | Some (i, n) => join [58] (hex_text <$> take i gs) ++ [58; 58] ++ join [58] (hex_text <$> drop (i + n) gs)
  | None => join [58] (hex_text <$> gs)
  end).

Definition Addr_String (a : Addr) : string :=
  match a with
  | NoAddr => "invalid IP"
  | V4 v => text4 v
  | V6 v zone =>
      let zone := if zone =s? "" then "" else "%" +:+ zone in
      if mapped v then "::ffff:" +:+ text4 (v mod 2 ^ 32) +:+ zone else text6 v +:+ zone
  end.

Definition Prefix_String (p : Prefix) : string :=
  if Prefix_Bits p <? 0 then "invalid Prefix" else Addr_String (Prefix_Addr p) +:+ "/" +:+ pretty (Prefix_Bits p).
