(* ===== verification/Wire.v ===== *)
(** * [net/http] and [encoding/json] as the HTTP layer uses them

    Headers, requests, response writers, body readers with their size limit,
    the stream decoder and the request multiplexer of the standard library.
    What one request draws from its surroundings (random bytes, clock
    readings) travels with it. *)

From S2P Require Import Prelude GoLib Json JsonText Netip.

(** ** Headers *)

(** Keyed by canonical name, as [http.Header] is. *)
Notation Header := (gmap string (list string)).

Definition token_byte (c : Z) : bool :=
  Json.is_digit c || is_upper c || is_lower c ||
  bool_decide (c ∈ [33; 35; 36; 37; 38; 39; 42; 43; 45; 46; 94; 95; 96; 124; 126]).

Fixpoint canonical_codes (upper : bool) (l : list Z) : list Z :=
  match l with
  | [] => []
  | c :: t => (if upper then upper_ascii c else lower_ascii c) :: canonical_codes (c =? 45) t
  end.

(** [http.CanonicalHeaderKey]. *)
Definition CanonicalHeaderKey (s : string) : string :=
  if forallb token_byte (codes s) then of_codes (canonical_codes true (codes s)) else s.

Definition Values (h : Header) (key : string) : list string := default [] (h !! CanonicalHeaderKey key).
Definition Get (h : Header) (key : string) : string := default "" (head (Values h key)).
Definition Set_ (h : Header) (key value : string) : Header := <[CanonicalHeaderKey key := [value]]> h.

(** ** Requests *)

(** What a body yields before it ends, and how: [None] is the end of file. *)
Record Body := mkBody { body_bytes : string; body_end : option error }.

(** [*http.MaxBytesError]: no other error has its type. *)
Definition MaxBytesError : error := ErrSentinel "http.MaxBytesError" "http: request body too large".

(** [http.MaxBytesReader]. *)
Definition MaxBytesReader (b : Body) (limit : Z) : Body :=
  if limit <? len (body_bytes b)
  then mkBody (String.substring 0 (Z.to_nat limit) (body_bytes b)) (Some MaxBytesError)
  else b.

(** [io.ReadAll]: what was read, and the error. *)
Definition ReadAll (b : Body) : string * option error := (body_bytes b, body_end b).

(** One request's share of its surroundings: the random bytes and the
    nanosecond clock behind its correlation id, and the two clock readings of
    the rate limiters. *)
Record Draws := mkDraws { random : res (list Z); unix_nano : Z; gate_time : Time; credential_time : Time }.

(** [url.PathUnescape]: [None] is its error. *)
Fixpoint unescape_codes (l : list Z) : option (list Z) :=
  match l with
  | [] => Some []
  | 37 :: t =>
      match t with
      | a :: b :: t => x ← from_hex a; y ← from_hex b; cons (x * 16 + y) <$> unescape_codes t
      | _ => None
      end
  | c :: t => cons c <$> unescape_codes t
  end.

(** [http.pathUnescape]: what does not unescape stays as it is. *)
Definition pathUnescape (s : string) : string := default s (of_codes <$> unescape_codes (codes s)).

(** The path is kept as the segments of [r.URL.EscapedPath()]; [correlation] and
    [address] are the values of the context. *)
Record Request := mkRequest {
  Method : string;
  escaped : list string;
  RawQuery : string;
  Headers : Header;
  RemoteAddr : string;
  RequestBody : option Body;
  correlation : string;
  address : option Addr;
  path_values : list (string * string);
  draws : Draws
}.

(** The segments the multiplexer matches. *)
Definition segments (r : Request) : list string := pathUnescape <$> escaped r.

(** [r.URL.Path]. *)
Definition Path (r : Request) : string := foldr (fun s acc => "/" +:+ s +:+ acc) "" (segments r).

Definition with_correlation (r : Request) (id : string) : Request :=
  mkRequest (Method r) (escaped r) (RawQuery r) (Headers r) (RemoteAddr r) (RequestBody r) id (address r)
    (path_values r) (draws r).
Definition with_address (r : Request) (a : Addr) : Request :=
  mkRequest (Method r) (escaped r) (RawQuery r) (Headers r) (RemoteAddr r) (RequestBody r) (correlation r) (Some a)
    (path_values r) (draws r).
Definition with_body (r : Request) (b : option Body) : Request :=
  mkRequest (Method r) (escaped r) (RawQuery r) (Headers r) (RemoteAddr r) b (correlation r) (address r)
    (path_values r) (draws r).
Definition with_values (r : Request) (v : list (string * string)) : Request :=
  mkRequest (Method r) (escaped r) (RawQuery r) (Headers r) (RemoteAddr r) (RequestBody r) (correlation r) (address r)
    v (draws r).

Definition PathValue (r : Request) (name : string) : string :=
  default "" (snd <$> List.find (fun v => v.1 =s? name) (path_values r)).

(** ** Response writers *)

(** [P] is what the program encodes as JSON; other bodies are text. *)
Inductive Chunk (P : Type) : Type := Json (p : P) | Text (s : string).
Arguments Json {P} p.
Arguments Text {P} s.

(** The header map a handler edits, the status line and the headers that went
    out with it, the body so far, and the first status a call of [WriteHeader]
    named, which is all a wrapper around the writer gets to see. *)
Record Writer (P : Type) := rawWriter {
  header : Header;
  sent : option (Z * Header);
  written : list (Chunk P);
  told : option Z
}.
Arguments rawWriter {P}.
Arguments header {P}.
Arguments sent {P}.
Arguments written {P}.
Arguments told {P}.

(** A writer whose [WriteHeader] was not called. *)
Definition mkWriter {P} (h : Header) (s : option (Z * Header)) (b : list (Chunk P)) : Writer P := rawWriter h s b None.

Section Writers.
Context {P : Type}.

Definition set_header (w : Writer P) (key value : string) : Writer P :=
  rawWriter (Set_ (header w) key value) (sent w) (written w) (told w).

(** The first status wins. *)
Definition WriteHeader (w : Writer P) (status : Z) : Writer P :=
  rawWriter (header w) (Some (default (status, header w) (sent w))) (written w) (Some (default status (told w))).

(** A body written before any status sends 200. *)
Definition Write (w : Writer P) (c : Chunk P) : Writer P :=
  rawWriter (header w) (Some (default (200, header w) (sent w))) (written w ++ [c]) (told w).

(** [http.Error]. *)
Definition http_Error (w : Writer P) (text : string) (status : Z) : Writer P :=
  let w := rawWriter (delete "Content-Length" (header w)) (sent w) (written w) (told w) in
  let w := set_header w "Content-Type" "text/plain; charset=utf-8" in
  let w := set_header w "X-Content-Type-Options" "nosniff" in
  Write (WriteHeader w status) (Text (text +:+ of_codes [10])).

(** What the client receives: a handler that never wrote answers 200. *)
Definition response (w : Writer P) : Z * Header := default (200, header w) (sent w).
End Writers.

#[global] Arguments set_header : simpl never.
#[global] Arguments CanonicalHeaderKey : simpl never.
#[global] Arguments Write : simpl never.
#[global] Arguments WriteHeader : simpl never.

Section WriterLemmas.
Context {P : Type}.
Implicit Types (w : Writer P).

Lemma sent_set_header w key value : sent (set_header w key value) = sent w.
Proof. done. Qed.

Lemma sent_WriteHeader w status : sent w = None -> sent (WriteHeader w status) = Some (status, header w).
Proof. unfold WriteHeader. by intros ->. Qed.

Lemma sent_Write w c x : sent w = Some x -> sent (Write w c) = Some x.
Proof. unfold Write, WriteHeader. intros E. destruct (sent w) eqn:E'; simpl; congruence. Qed.

Lemma sent_Write_first w c : sent w = None -> sent (Write w c) = Some (200, header w).
Proof. unfold Write, WriteHeader. by intros ->. Qed.

Lemma sent_http_Error w text status : sent w = None -> exists hs, sent (http_Error w text status) = Some (status, hs).
Proof. intros Hw. unfold http_Error. eexists. eapply sent_Write, sent_WriteHeader. exact Hw. Qed.
End WriterLemmas.

(** ** Handlers *)

(** A handler reads and writes [S]; a panic carries its text. *)
Section Handlers.
Context {P S : Type}.

Record Served := mkServed { served_writer : Writer P; served_state : S; served_panic : option string }.
Definition Handler : Type := Request -> Writer P -> S -> Served.

Definition done_with (w : Writer P) (s : S) : Served := mkServed w s None.

(** A pattern of [http.ServeMux]: a method, or any, and segments, of which
    [None] is any one segment, with its name; a subtree pattern matches
    whatever follows. *)
Record Pattern := mkPattern { pattern_method : option string; pattern_segments : list (string + string); subtree : bool }.

Fixpoint match_segments (ps : list (string + string)) (subtree : bool) (ss : list string)
    : option (list (string * string)) :=
  match ps, ss with
  | [], [] => if subtree then None else Some []
  | [], _ => if subtree then Some [] else None
  | inl literal :: ps, s :: ss => if literal =s? s then match_segments ps subtree ss else None
  | inr name :: ps, s :: ss =>
      if s =s? "" then None else vs ← match_segments ps subtree ss; Some ((name, s) :: vs)
  | _, [] => None
  end.

(** GET also matches HEAD. *)
Definition match_method (p : Pattern) (method : string) : bool :=
  match pattern_method p with
  | None => true
  | Some m => (m =s? method) || ((m =s? "GET") && (method =s? "HEAD"))
  end.

Definition Mux : Type := list (Pattern * Handler).

(** [cleanPath] leaves the path alone. *)
Definition clean (ss : list string) : bool :=
  match ss with
  | [] => false
  | _ => forallb (fun s => negb ((s =s? "") || (s =s? ".") || (s =s? ".."))) (removelast ss) &&
         negb ((List.last ss "" =s? ".") || (List.last ss "" =s? ".."))
  end.

(** No pattern of the program overlaps another, so the first match is the only
    one. It is the escaped path that has to be clean and is redirected otherwise:
    a [..] that a client escaped is a segment like any other. A path known under
    other methods only is answered 405, any other 404. *)
Definition ServeHTTP (m : Mux) : Handler := fun r w s =>
  let matches (pm : Pattern * Handler) := match_segments (pattern_segments pm.1) (subtree pm.1) (segments r) in
  if negb (clean (escaped r)) then done_with (Write (WriteHeader w 301) (Text "Moved Permanently")) s
  else
    match List.find (fun pm => match_method pm.1 (Method r) && bool_decide (is_Some (matches pm))) m with
    | Some pm => pm.2 (with_values r (default [] (matches pm))) w s
    | None =>
        if existsb (fun pm => bool_decide (is_Some (matches pm))) m
        then done_with (http_Error w "Method Not Allowed" 405) s
        else done_with (http_Error w "404 page not found" 404) s
    end.
End Handlers.
Arguments Served : clear implicits.
Arguments Handler : clear implicits.
Arguments Mux : clear implicits.

(** ** [json.Decoder.Decode] *)

(** The first value of a stream: its text, a syntax error, or the end of what
    was read with the scanner in the given state. *)
Inductive first_value : Type := Value (text : list Z) | Malformed | Unfinished (m : scanner) (seen : list Z).

Fixpoint read_value (m : scanner) (seen l : list Z) : first_value :=
  match l with
  | [] => Unfinished m seen
  | c :: t =>
      match scan_step m c with
      | None => if scan_eof m then Value seen else Malformed
      | Some m' =>
          match sc_step m' with
          | EndTop => Value (seen ++ [c])
          | _ => read_value m' (seen ++ [c]) t
          end
      end
  end.

Section Decode.
Context `{UnicodeTables} `{JsonErrors} {S : Type}.

(** [strconv.ParseInt(text, 10, 64)] of a JSON number. *)
Definition parse_int (l : list Z) : option Z :=
  let '(sign, ds) := match l with 45 :: ds => (-1, ds) | _ => (1, l) end in
  v ← parse_uint 64 ds;
  if (MinInt64 <=? sign * v) && (sign * v <=? MaxInt64) then Some (sign * v) else None.

Definition store_int (set : Z -> S -> S) : store S := fun value s =>
  match kind_of value with
  | KNumber =>
      match parse_int value with
      | Some v => (set v s, None)
      | None => (s, Some (ErrNew (type_error value)))
      end
  | KNull => (s, None)
  | _ => (s, Some (ErrNew (type_error value)))
  end.

Definition Decode (fs : fields S) (b : Body) (s : S) : S * option error :=
  match read_value scan_start [] (codes (body_bytes b)) with
  | Value text => store_struct fs (trim_json text) s
  | Malformed => (s, Some (ErrNew (syntax_error (body_bytes b))))
  | Unfinished m seen =>
      match body_end b with
      | Some err => (s, Some err)
      | None =>
          if scan_eof m then store_struct fs (trim_json seen) s
          else (s, Some (ErrNew (if forallb Json.is_space seen then "EOF" else "unexpected EOF")))
      end
  end.
End Decode.
