(* ===== verification/Openapi.v ===== *)
(** * The generated contract: [internal/transport/http/openapi/server.gen.go]

    The models, the parameters, the response objects of each operation and how
    they are written, the parameter binding, the strict handlers and the
    routes. The binding of one parameter is the work of a library and a
    parameter here. A body that fails to reach the client is not represented:
    writing never fails. *)

From S2P Require Import Prelude GoLib Json JsonText Netip Wire.

Module Openapi.

(** ** Models *)

Definition Down : string := "down".
Definition Up : string := "up".
Definition Ok_ : string := "ok".
Definition Unavailable : string := "unavailable".

(** The enumerations of the contract. *)
Definition HealthResponseChecks_Valid (e : string) : bool := (e =s? Down) || (e =s? Up).
Definition HealthResponseStatus_Valid (e : string) : bool := (e =s? Ok_) || (e =s? Unavailable).
Definition OrderStatus_Valid (e : string) : bool :=
  (e =s? "cancelled") || (e =s? "expired") || (e =s? "paid") || (e =s? "pending").
Definition OutboxInspectionStatus_Valid (e : string) : bool :=
  (e =s? "failed") || (e =s? "pending") || (e =s? "published") || (e =s? "publishing").
Definition WebhookEventStatus_Valid (e : string) : bool :=
  (e =s? "failed") || (e =s? "pending") || (e =s? "processed") || (e =s? "processing") || (e =s? "skipped").

Record Checkout := mkCheckout { CheckoutUrl : string; ExpiresAt : Time }.
Record CreateOrderRequest := mkCreateOrderRequest { ProductId : string; Quantity : Z }.
Record Error := mkError { Error_Code : string; Error_CorrelationId : string; Error_Message : string }.
Record HealthResponse := mkHealthResponse {
  Health_Checks : gmap string string; Health_Service : string; Health_Status : string; Health_Version : string }.
Record Order := mkOrder { Order_Amount : Z; Order_Currency : string; Order_Id : string; Order_Status : string }.
Record OutboxInspection := mkOutboxInspection {
  OI_Attempts : Z; OI_Id : string; OI_LastError : option string; OI_NextAttemptAt : Time;
  OI_PublishedAt : option Time; OI_Status : string }.
Record WebhookEventInspection := mkWebhookEventInspection {
  EI_Attempts : Z; EI_EventType : string; EI_Id : string; EI_LastError : option string;
  EI_LastReplayedAt : option Time; EI_Outbox : option OutboxInspection; EI_ProcessedAt : option Time;
  EI_Provider : string; EI_ProviderEventId : string; EI_ReceivedAt : Time; EI_ReplayCount : Z;
  EI_Status : string; EI_UpdatedAt : Time }.

Record CreateOrderParams := mkCreateOrderParams { CreateOrder_IdempotencyKey : string }.
Record CreateCheckoutParams := mkCreateCheckoutParams { CreateCheckout_IdempotencyKey : string }.
Record ListWebhookEventsParams := mkListWebhookEventsParams { List_Status : option string; List_Limit : option Z }.
Record ReceiveStripeWebhookParams := mkReceiveStripeWebhookParams { StripeSignature : option string }.

(** What a response encodes. *)
Inductive Payload : Type :=
| PHealth (b : HealthResponse)
| POrder (b : Order)
| PError (b : Error)
| PCheckout (b : Checkout)
| PEvents (b : list WebhookEventInspection)
| PEvent (b : WebhookEventInspection).

Definition year_error : error :=
  ErrNew "json: error calling MarshalJSON for type time.Time: Time.MarshalJSON: year outside of range [0,9999]".

Definition times_of_event (e : WebhookEventInspection) : list Time :=
  option_list (EI_LastReplayedAt e) ++
  match EI_Outbox e with Some o => OI_NextAttemptAt o :: option_list (OI_PublishedAt o) | None => [] end ++
  option_list (EI_ProcessedAt e) ++ [EI_ReceivedAt e; EI_UpdatedAt e].

Definition times_of (p : Payload) : list Time :=
  match p with
  | PCheckout c => [ExpiresAt c]
  | PEvents es => es ≫= times_of_event
  | PEvent e => times_of_event e
  | _ => []
  end.

(** [json.NewEncoder(&buf).Encode(body)] fails only on an instant. *)
Definition Encode (p : Payload) : option error :=
  if forallb (fun t => bool_decide (is_Some (MarshalTime t))) (times_of p) then None else Some year_error.

Definition ResponseWriter : Type := Writer Payload.

Definition visit_json (status : Z) (p : Payload) (retryAfter : option Z) (corr : string) (w : ResponseWriter)
    : ResponseWriter * option error :=
  match Encode p with
  | Some err => (w, Some err)
  | None =>
      let w := set_header w "Content-Type" "application/json" in
      let w := match retryAfter with Some n => set_header w "Retry-After" (pretty n) | None => w end in
      let w := set_header w "X-Correlation-ID" corr in
      (Write (WriteHeader w status) (Json p), None)
  end.

Definition visit_empty (status : Z) (corr : string) (w : ResponseWriter) : ResponseWriter * option error :=
  (WriteHeader (set_header w "X-Correlation-ID" corr) status, None).

(** ** Response objects *)

Inductive GetHealthResponseObject : Type :=
| GetHealth200JSONResponse (Body : HealthResponse) (XCorrelationID : string)
| GetHealth429JSONResponse (Body : Error) (RetryAfter : Z) (XCorrelationID : string)
| GetHealth503JSONResponse (Body : HealthResponse) (XCorrelationID : string).

Definition VisitGetHealthResponse (r : GetHealthResponseObject) (w : ResponseWriter) : ResponseWriter * option error :=
  match r with
  | GetHealth200JSONResponse b c => visit_json 200 (PHealth b) None c w
  | GetHealth429JSONResponse b n c => visit_json 429 (PError b) (Some n) c w
  | GetHealth503JSONResponse b c => visit_json 503 (PHealth b) None c w
  end.

Inductive CreateOrderResponseObject : Type :=
| CreateOrder201JSONResponse (Body : Order) (XCorrelationID : string)
| CreateOrder400JSONResponse (Body : Error) (XCorrelationID : string)
| CreateOrder401JSONResponse (Body : Error) (XCorrelationID : string)
| CreateOrder404JSONResponse (Body : Error) (XCorrelationID : string)
| CreateOrder409JSONResponse (Body : Error) (XCorrelationID : string)
| CreateOrder413JSONResponse (Body : Error) (XCorrelationID : string)
| CreateOrder429JSONResponse (Body : Error) (RetryAfter : Z) (XCorrelationID : string)
| CreateOrder500JSONResponse (Body : Error) (XCorrelationID : string).

Definition VisitCreateOrderResponse (r : CreateOrderResponseObject) (w : ResponseWriter) : ResponseWriter * option error :=
  match r with
  | CreateOrder201JSONResponse b c => visit_json 201 (POrder b) None c w
  | CreateOrder400JSONResponse b c => visit_json 400 (PError b) None c w
  | CreateOrder401JSONResponse b c => visit_json 401 (PError b) None c w
  | CreateOrder404JSONResponse b c => visit_json 404 (PError b) None c w
  | CreateOrder409JSONResponse b c => visit_json 409 (PError b) None c w
  | CreateOrder413JSONResponse b c => visit_json 413 (PError b) None c w
  | CreateOrder429JSONResponse b n c => visit_json 429 (PError b) (Some n) c w
  | CreateOrder500JSONResponse b c => visit_json 500 (PError b) None c w
  end.

Inductive GetOrderResponseObject : Type :=
| GetOrder200JSONResponse (Body : Order) (XCorrelationID : string)
| GetOrder401JSONResponse (Body : Error) (XCorrelationID : string)
| GetOrder404JSONResponse (Body : Error) (XCorrelationID : string)
| GetOrder429JSONResponse (Body : Error) (RetryAfter : Z) (XCorrelationID : string)
| GetOrder500JSONResponse (Body : Error) (XCorrelationID : string).

Definition VisitGetOrderResponse (r : GetOrderResponseObject) (w : ResponseWriter) : ResponseWriter * option error :=
  match r with
  | GetOrder200JSONResponse b c => visit_json 200 (POrder b) None c w
  | GetOrder401JSONResponse b c => visit_json 401 (PError b) None c w
  | GetOrder404JSONResponse b c => visit_json 404 (PError b) None c w
  | GetOrder429JSONResponse b n c => visit_json 429 (PError b) (Some n) c w
  | GetOrder500JSONResponse b c => visit_json 500 (PError b) None c w
  end.

Inductive CreateCheckoutResponseObject : Type :=
| CreateCheckout201JSONResponse (Body : Checkout) (XCorrelationID : string)
| CreateCheckout400JSONResponse (Body : Error) (XCorrelationID : string)
| CreateCheckout401JSONResponse (Body : Error) (XCorrelationID : string)
| CreateCheckout404JSONResponse (Body : Error) (XCorrelationID : string)
| CreateCheckout409JSONResponse (Body : Error) (XCorrelationID : string)
| CreateCheckout429JSONResponse (Body : Error) (RetryAfter : Z) (XCorrelationID : string)
| CreateCheckout500JSONResponse (Body : Error) (XCorrelationID : string)
| CreateCheckout502JSONResponse (Body : Error) (XCorrelationID : string).

Definition VisitCreateCheckoutResponse (r : CreateCheckoutResponseObject) (w : ResponseWriter) : ResponseWriter * option error :=
  match r with
  | CreateCheckout201JSONResponse b c => visit_json 201 (PCheckout b) None c w
  | CreateCheckout400JSONResponse b c => visit_json 400 (PError b) None c w
  | CreateCheckout401JSONResponse b c => visit_json 401 (PError b) None c w
  | CreateCheckout404JSONResponse b c => visit_json 404 (PError b) None c w
  | CreateCheckout409JSONResponse b c => visit_json 409 (PError b) None c w
  | CreateCheckout429JSONResponse b n c => visit_json 429 (PError b) (Some n) c w
  | CreateCheckout500JSONResponse b c => visit_json 500 (PError b) None c w
  | CreateCheckout502JSONResponse b c => visit_json 502 (PError b) None c w
  end.

Inductive ListWebhookEventsResponseObject : Type :=
| ListWebhookEvents200JSONResponse (Body : (list WebhookEventInspection)) (XCorrelationID : string)
| ListWebhookEvents400JSONResponse (Body : Error) (XCorrelationID : string)
| ListWebhookEvents401JSONResponse (Body : Error) (XCorrelationID : string)
| ListWebhookEvents429JSONResponse (Body : Error) (RetryAfter : Z) (XCorrelationID : string)
| ListWebhookEvents500JSONResponse (Body : Error) (XCorrelationID : string).

Definition VisitListWebhookEventsResponse (r : ListWebhookEventsResponseObject) (w : ResponseWriter) : ResponseWriter * option error :=
  match r with
  | ListWebhookEvents200JSONResponse b c => visit_json 200 (PEvents b) None c w
  | ListWebhookEvents400JSONResponse b c => visit_json 400 (PError b) None c w
  | ListWebhookEvents401JSONResponse b c => visit_json 401 (PError b) None c w
  | ListWebhookEvents429JSONResponse b n c => visit_json 429 (PError b) (Some n) c w
  | ListWebhookEvents500JSONResponse b c => visit_json 500 (PError b) None c w
  end.

Inductive ReprocessWebhookEventResponseObject : Type :=
| ReprocessWebhookEvent202JSONResponse (Body : WebhookEventInspection) (XCorrelationID : string)
| ReprocessWebhookEvent401JSONResponse (Body : Error) (XCorrelationID : string)
| ReprocessWebhookEvent404JSONResponse (Body : Error) (XCorrelationID : string)
| ReprocessWebhookEvent409JSONResponse (Body : Error) (XCorrelationID : string)
| ReprocessWebhookEvent429JSONResponse (Body : Error) (RetryAfter : Z) (XCorrelationID : string)
| ReprocessWebhookEvent500JSONResponse (Body : Error) (XCorrelationID : string).

Definition VisitReprocessWebhookEventResponse (r : ReprocessWebhookEventResponseObject) (w : ResponseWriter) : ResponseWriter * option error :=
  match r with
  | ReprocessWebhookEvent202JSONResponse b c => visit_json 202 (PEvent b) None c w
  | ReprocessWebhookEvent401JSONResponse b c => visit_json 401 (PError b) None c w
  | ReprocessWebhookEvent404JSONResponse b c => visit_json 404 (PError b) None c w
  | ReprocessWebhookEvent409JSONResponse b c => visit_json 409 (PError b) None c w
  | ReprocessWebhookEvent429JSONResponse b n c => visit_json 429 (PError b) (Some n) c w
  | ReprocessWebhookEvent500JSONResponse b c => visit_json 500 (PError b) None c w
  end.

Inductive ReceiveStripeWebhookResponseObject : Type :=
| ReceiveStripeWebhook200Response (XCorrelationID : string)
| ReceiveStripeWebhook202Response (XCorrelationID : string)
| ReceiveStripeWebhook400JSONResponse (Body : Error) (XCorrelationID : string)
| ReceiveStripeWebhook429JSONResponse (Body : Error) (RetryAfter : Z) (XCorrelationID : string)
| ReceiveStripeWebhook500JSONResponse (Body : Error) (XCorrelationID : string).

Definition VisitReceiveStripeWebhookResponse (r : ReceiveStripeWebhookResponseObject) (w : ResponseWriter) : ResponseWriter * option error :=
  match r with
  | ReceiveStripeWebhook200Response c => visit_empty 200 c w
  | ReceiveStripeWebhook202Response c => visit_empty 202 c w
  | ReceiveStripeWebhook400JSONResponse b c => visit_json 400 (PError b) None c w
  | ReceiveStripeWebhook429JSONResponse b n c => visit_json 429 (PError b) (Some n) c w
  | ReceiveStripeWebhook500JSONResponse b c => visit_json 500 (PError b) None c w
  end.

(** [any]: a value a handler answered with. *)
Inductive AnyResponse : Type :=
| RGetHealth (r : GetHealthResponseObject)
| RCreateOrder (r : CreateOrderResponseObject)
| RGetOrder (r : GetOrderResponseObject)
| RCreateCheckout (r : CreateCheckoutResponseObject)
| RListWebhookEvents (r : ListWebhookEventsResponseObject)
| RReprocessWebhookEvent (r : ReprocessWebhookEventResponseObject)
| RReceiveStripeWebhook (r : ReceiveStripeWebhookResponseObject).

(** ** Request objects *)

Record CreateOrderRequestObject := mkCreateOrderRequestObject {
  CreateOrder_Params : CreateOrderParams; CreateOrder_Body : option CreateOrderRequest }.
Record GetOrderRequestObject := mkGetOrderRequestObject { GetOrder_OrderId : string }.
Record CreateCheckoutRequestObject := mkCreateCheckoutRequestObject {
  CreateCheckout_OrderId : string; CreateCheckout_Params : CreateCheckoutParams }.
Record ListWebhookEventsRequestObject := mkListWebhookEventsRequestObject { List_Params : ListWebhookEventsParams }.
Record ReprocessWebhookEventRequestObject := mkReprocessWebhookEventRequestObject { Reprocess_WebhookEventId : string }.
Record ReceiveStripeWebhookRequestObject := mkReceiveStripeWebhookRequestObject {
  Receive_Params : ReceiveStripeWebhookParams; Receive_Body : option Body }.

(** ** Parameter errors *)

Definition RequiredParamError (name : string) : error :=
  ErrNew ("Query argument " +:+ name +:+ " is required, but not found").
(** The error it wraps has the same text and is nothing a caller looks for. *)
Definition RequiredHeaderError (name : string) : error :=
  ErrNew ("Header parameter " +:+ name +:+ " is required, but not found").
Definition InvalidParamFormatError (name : string) (err : error) : error :=
  ErrWrap ("Invalid format for parameter " +:+ name +:+ ": ") err "".
Definition TooManyValuesForParamError (name : string) (count : Z) : error :=
  ErrNew ("Expected one value for " +:+ name +:+ ", got " +:+ pretty count).

(** The binding library. A query parameter that is required and absent is told
    apart from one that does not parse. *)
Inductive BindError : Type := RequiredParameter | BadParameter (err : error).

Class Runtime : Type := {
  BindStyledParameter : string -> string -> res string;
  BindQueryString : string -> string -> option string + BindError;
  BindQueryInt : string -> string -> option Z + BindError;
}.

Section Server.
Context {S : Type}.

Definition Served' : Type := Served Payload S.
Definition Handler' : Type := Handler Payload S.
Definition ErrorHandler : Type := Request -> ResponseWriter -> S -> error -> Served'.

(** ** [ServerInterface] and its wrapper *)

Record ServerInterface := mkServerInterface {
  SI_GetHealth : Handler';
  SI_CreateOrder : CreateOrderParams -> Handler';
  SI_GetOrder : string -> Handler';
  SI_CreateCheckout : string -> CreateCheckoutParams -> Handler';
  SI_ListWebhookEvents : ListWebhookEventsParams -> Handler';
  SI_ReprocessWebhookEvent : string -> Handler';
  SI_ReceiveStripeWebhook : ReceiveStripeWebhookParams -> Handler'
}.

Record ServerInterfaceWrapper := mkServerInterfaceWrapper {
  Wrapped : ServerInterface;
  HandlerMiddlewares : list (Handler' -> Handler');
  ErrorHandlerFunc : ErrorHandler
}.

Definition through (siw : ServerInterfaceWrapper) (h : Handler') : Handler' :=
  fold_left (fun h middleware => middleware h) (HandlerMiddlewares siw) h.

Section Binding.
Context `{Runtime} (siw : ServerInterfaceWrapper) (r : Request) (w : ResponseWriter) (s : S).

(** A header parameter: [None] when it is absent. *)
Definition bind_header (name : string) (k : option string -> Served') : Served' :=
  match Headers r !! CanonicalHeaderKey name with
  | Some valueList =>
      match valueList with
      | [value] =>
          match BindStyledParameter name value with
          | Err err => ErrorHandlerFunc siw r w s (InvalidParamFormatError name err)
          | Ok value => k (Some value)
          end
      | _ => ErrorHandlerFunc siw r w s (TooManyValuesForParamError name (Z.of_nat (length valueList)))
      end
  | None => k None
  end.

Definition bind_required_header (name : string) (k : string -> Served') : Served' :=
  bind_header name (fun value =>
    match value with
    | Some value => k value
    | None => ErrorHandlerFunc siw r w s (RequiredHeaderError name)
    end).

Definition bind_path (name : string) (k : string -> Served') : Served' :=
  match BindStyledParameter name (PathValue r name) with
  | Err err => ErrorHandlerFunc siw r w s (InvalidParamFormatError name err)
  | Ok value => k value
  end.

Definition bind_query {A} (name : string) (bound : option A + BindError) (k : option A -> Served') : Served' :=
  match bound with
  | inl value => k value
  | inr RequiredParameter => ErrorHandlerFunc siw r w s (RequiredParamError name)
  | inr (BadParameter err) => ErrorHandlerFunc siw r w s (InvalidParamFormatError name err)
  end.
End Binding.

Context `{Runtime}.

Definition Wrapper_GetHealth (siw : ServerInterfaceWrapper) : Handler' := fun r w s =>
  through siw (SI_GetHealth (Wrapped siw)) r w s.

Definition Wrapper_CreateOrder (siw : ServerInterfaceWrapper) : Handler' := fun r w s =>
  bind_required_header siw r w s "Idempotency-Key" (fun key =>
    through siw (SI_CreateOrder (Wrapped siw) (mkCreateOrderParams key)) r w s).

Definition Wrapper_GetOrder (siw : ServerInterfaceWrapper) : Handler' := fun r w s =>
  bind_path siw r w s "orderId" (fun orderId => through siw (SI_GetOrder (Wrapped siw) orderId) r w s).

Definition Wrapper_CreateCheckout (siw : ServerInterfaceWrapper) : Handler' := fun r w s =>
  bind_path siw r w s "orderId" (fun orderId =>
    bind_required_header siw r w s "Idempotency-Key" (fun key =>
      through siw (SI_CreateCheckout (Wrapped siw) orderId (mkCreateCheckoutParams key)) r w s)).

Definition Wrapper_ListWebhookEvents (siw : ServerInterfaceWrapper) : Handler' := fun r w s =>
  bind_query siw r w s "status" (BindQueryString "status" (RawQuery r)) (fun status =>
    bind_query siw r w s "limit" (BindQueryInt "limit" (RawQuery r)) (fun limit =>
      through siw (SI_ListWebhookEvents (Wrapped siw) (mkListWebhookEventsParams status limit)) r w s)).

Definition Wrapper_ReprocessWebhookEvent (siw : ServerInterfaceWrapper) : Handler' := fun r w s =>
  bind_path siw r w s "webhookEventId" (fun id => through siw (SI_ReprocessWebhookEvent (Wrapped siw) id) r w s).

Definition Wrapper_ReceiveStripeWebhook (siw : ServerInterfaceWrapper) : Handler' := fun r w s =>
  bind_header siw r w s "Stripe-Signature" (fun signature =>
    through siw (SI_ReceiveStripeWebhook (Wrapped siw) (mkReceiveStripeWebhookParams signature)) r w s).

(** ** Routes *)

Definition literals (ss : list string) : list (string + string) := inl <$> ss.

Definition HandlerWithOptions (si : ServerInterface) (middlewares : list (Handler' -> Handler')) (errors : ErrorHandler)
    : Mux Payload S :=
  let wrapper := mkServerInterfaceWrapper si middlewares errors in
  [(mkPattern (Some "GET") (literals ["health"]) false, Wrapper_GetHealth wrapper);
   (mkPattern (Some "POST") (literals ["v1"; "orders"]) false, Wrapper_CreateOrder wrapper);
   (mkPattern (Some "GET") (literals ["v1"; "orders"] ++ [inr "orderId"]) false, Wrapper_GetOrder wrapper);
   (mkPattern (Some "POST") (literals ["v1"; "orders"] ++ inr "orderId" :: literals ["checkout"]) false,
      Wrapper_CreateCheckout wrapper);
   (mkPattern (Some "GET") (literals ["v1"; "webhook-events"]) false, Wrapper_ListWebhookEvents wrapper);
   (mkPattern (Some "POST") (literals ["v1"; "webhook-events"] ++ inr "webhookEventId" :: literals ["reprocess"]) false,
      Wrapper_ReprocessWebhookEvent wrapper);
   (mkPattern (Some "POST") (literals ["v1"; "webhooks"; "stripe"]) false, Wrapper_ReceiveStripeWebhook wrapper)].

(** ** The strict server *)

(** A call of the implementation; it may panic. *)
Inductive Call (A : Type) : Type :=
| Returned (answer : res A) (s : S)
| Panicked (text : string) (s : S).
Arguments Returned {A}.
Arguments Panicked {A}.

Record StrictServerInterface := mkStrictServerInterface {
  SSI_GetHealth : Request -> S -> Call GetHealthResponseObject;
  SSI_CreateOrder : Request -> CreateOrderRequestObject -> S -> Call CreateOrderResponseObject;
  SSI_GetOrder : Request -> GetOrderRequestObject -> S -> Call GetOrderResponseObject;
  SSI_CreateCheckout : Request -> CreateCheckoutRequestObject -> S -> Call CreateCheckoutResponseObject;
  SSI_ListWebhookEvents : Request -> ListWebhookEventsRequestObject -> S -> Call ListWebhookEventsResponseObject;
  SSI_ReprocessWebhookEvent : Request -> ReprocessWebhookEventRequestObject -> S -> Call ReprocessWebhookEventResponseObject;
  SSI_ReceiveStripeWebhook : Request -> ReceiveStripeWebhookRequestObject -> S -> Call ReceiveStripeWebhookResponseObject
}.

(** The request object is part of the handler, which no middleware changes. *)
Definition StrictHandlerFunc : Type := Request -> S -> Call AnyResponse.
Definition StrictMiddlewareFunc : Type := StrictHandlerFunc -> string -> StrictHandlerFunc.

Record strictHandler := mkStrictHandler {
  ssi : StrictServerInterface;
  middlewares : list StrictMiddlewareFunc;
  RequestErrorHandlerFunc : ErrorHandler;
  ResponseErrorHandlerFunc : ErrorHandler
}.

Definition answer_as {A} (f : A -> AnyResponse) (c : Call A) : Call AnyResponse :=
  match c with
  | Returned (Ok a) s => Returned (Ok (f a)) s
  | Returned (Err err) s => Returned (Err err) s
  | Panicked text s => Panicked text s
  end.

(** The tail every operation shares: the middlewares, the call, and the answer
    written by the operation's [Visit] method; [as_own] is the type assertion. *)
Definition strict_answer {A} (sh : strictHandler) (operationID : string) (handler : StrictHandlerFunc)
    (as_own : AnyResponse -> option A) (visit : A -> ResponseWriter -> ResponseWriter * option error) : Handler' :=
  fun r w s =>
  let handler := fold_left (fun h middleware => middleware h operationID) (middlewares sh) handler in
  match handler r s with
  | Panicked text s => mkServed w s (Some text)
  | Returned (Err err) s => ResponseErrorHandlerFunc sh r w s err
  | Returned (Ok response) s =>
      match as_own response with
      | Some own =>
          match visit own w with
          | (w, None) => done_with w s
          | (w, Some err) => ResponseErrorHandlerFunc sh r w s err
          end
      | None => ResponseErrorHandlerFunc sh r w s (ErrNew "unexpected response type")
      end
  end.

Definition Strict_GetHealth (sh : strictHandler) : Handler' :=
  strict_answer sh "GetHealth" (fun r s => answer_as RGetHealth (SSI_GetHealth (ssi sh) r s))
    (fun a => match a with RGetHealth x => Some x | _ => None end) VisitGetHealthResponse.

Context `{UnicodeTables} `{JsonErrors}.

Definition set_productId (v : string) (b : CreateOrderRequest) := mkCreateOrderRequest v (Quantity b).
Definition set_quantity (v : Z) (b : CreateOrderRequest) := mkCreateOrderRequest (ProductId b) v.

Definition Strict_CreateOrder (sh : strictHandler) (params : CreateOrderParams) : Handler' := fun r w s =>
  match Decode [("productId", store_string set_productId); ("quantity", store_int set_quantity)]
          (default (mkBody "" None) (RequestBody r)) (mkCreateOrderRequest "" 0) with
  | (_, Some err) => RequestErrorHandlerFunc sh r w s (wrapf "can't decode JSON body" err)
  | (body, None) =>
      strict_answer sh "CreateOrder"
        (fun r s => answer_as RCreateOrder (SSI_CreateOrder (ssi sh) r (mkCreateOrderRequestObject params (Some body)) s))
        (fun a => match a with RCreateOrder x => Some x | _ => None end) VisitCreateOrderResponse r w s
  end.

Definition Strict_GetOrder (sh : strictHandler) (orderId : string) : Handler' :=
  strict_answer sh "GetOrder"
    (fun r s => answer_as RGetOrder (SSI_GetOrder (ssi sh) r (mkGetOrderRequestObject orderId) s))
    (fun a => match a with RGetOrder x => Some x | _ => None end) VisitGetOrderResponse.

Definition Strict_CreateCheckout (sh : strictHandler) (orderId : string) (params : CreateCheckoutParams) : Handler' :=
  strict_answer sh "CreateCheckout"
    (fun r s => answer_as RCreateCheckout (SSI_CreateCheckout (ssi sh) r (mkCreateCheckoutRequestObject orderId params) s))
    (fun a => match a with RCreateCheckout x => Some x | _ => None end) VisitCreateCheckoutResponse.

Definition Strict_ListWebhookEvents (sh : strictHandler) (params : ListWebhookEventsParams) : Handler' :=
  strict_answer sh "ListWebhookEvents"
    (fun r s => answer_as RListWebhookEvents (SSI_ListWebhookEvents (ssi sh) r (mkListWebhookEventsRequestObject params) s))
    (fun a => match a with RListWebhookEvents x => Some x | _ => None end) VisitListWebhookEventsResponse.

Definition Strict_ReprocessWebhookEvent (sh : strictHandler) (webhookEventId : string) : Handler' :=
  strict_answer sh "ReprocessWebhookEvent"
    (fun r s => answer_as RReprocessWebhookEvent
       (SSI_ReprocessWebhookEvent (ssi sh) r (mkReprocessWebhookEventRequestObject webhookEventId) s))
    (fun a => match a with RReprocessWebhookEvent x => Some x | _ => None end) VisitReprocessWebhookEventResponse.

Definition Strict_ReceiveStripeWebhook (sh : strictHandler) (params : ReceiveStripeWebhookParams) : Handler' := fun r w s =>
  strict_answer sh "ReceiveStripeWebhook"
    (fun r' s => answer_as RReceiveStripeWebhook
       (SSI_ReceiveStripeWebhook (ssi sh) r' (mkReceiveStripeWebhookRequestObject params (RequestBody r)) s))
    (fun a => match a with RReceiveStripeWebhook x => Some x | _ => None end) VisitReceiveStripeWebhookResponse r w s.

Definition NewStrictHandlerWithOptions (i : StrictServerInterface) (ms : list StrictMiddlewareFunc)
    (requestErrors responseErrors : ErrorHandler) : ServerInterface :=
  let sh := mkStrictHandler i ms requestErrors responseErrors in
  mkServerInterface (Strict_GetHealth sh) (Strict_CreateOrder sh) (Strict_GetOrder sh) (Strict_CreateCheckout sh)
    (Strict_ListWebhookEvents sh) (Strict_ReprocessWebhookEvent sh) (Strict_ReceiveStripeWebhook sh).
End Server.
Arguments Served' : clear implicits.
Arguments Handler' : clear implicits.
Arguments ErrorHandler : clear implicits.
Arguments Call : clear implicits.
Arguments ServerInterface : clear implicits.
Arguments StrictServerInterface : clear implicits.
Arguments StrictHandlerFunc : clear implicits.
Arguments StrictMiddlewareFunc : clear implicits.
End Openapi.
