(* ===== verification/Store.v ===== *)
(** * The PostgreSQL store: tables, statements and transactions

    The rows of the five tables ([queries/models.go]) and the constraints the
    migrations declare on them, the statements as functions on the database,
    and the two ways Go runs them: on the pool, or inside a transaction with a
    deferred rollback.

    Every round trip consumes one entry of a fault schedule, so a theorem about
    every schedule covers refused statements, expired deadlines and the commit
    whose acknowledgement is lost. Transactions are serialised: the row locks
    their first statements take are what makes PostgreSQL run them that way. *)

From S2P Require Import Prelude GoLib.

(** ** Rows *)

Record OrderRow := mkOrderRow {
  OrderRow_ID : string;
  OrderRow_Status : string;
  OrderRow_Amount : Z;
  OrderRow_Currency : string;
  OrderRow_ProductID : string;
  OrderRow_Quantity : Z;
  OrderRow_IdempotencyKey : string;
  OrderRow_CreatedAt : Time;
  OrderRow_UpdatedAt : Time;
}.

Record PaymentRow := mkPaymentRow {
  PaymentRow_ID : string;
  PaymentRow_OrderID : string;
  PaymentRow_Provider : string;
  PaymentRow_Status : string;
  PaymentRow_Amount : Z;
  PaymentRow_Currency : string;
  PaymentRow_CreatedAt : Time;
  PaymentRow_UpdatedAt : Time;
}.

Record AttemptRow := mkAttemptRow {
  AttemptRow_ID : string;
  AttemptRow_PaymentID : string;
  AttemptRow_Provider : string;
  AttemptRow_Status : string;
  AttemptRow_IdempotencyKey : string;
  AttemptRow_ProviderSessionID : option string;
  AttemptRow_ProviderPaymentIntentID : option string;
  AttemptRow_CheckoutURL : option string;
  AttemptRow_ExpiresAt : option Time;
  AttemptRow_FailureCode : option string;
  AttemptRow_FailureMessage : option string;
  AttemptRow_CreatedAt : Time;
  AttemptRow_UpdatedAt : Time;
}.

Record EventRow := mkEventRow {
  EventRow_ID : string;
  EventRow_Provider : string;
  EventRow_ProviderEventID : string;
  EventRow_EventType : string;
  EventRow_RawPayload : string;
  EventRow_Payload : string;
  EventRow_Status : string;
  EventRow_Attempts : Z;
  EventRow_ReceivedAt : Time;
  EventRow_ProcessedAt : option Time;
  EventRow_LastError : option string;
  EventRow_UpdatedAt : Time;
  EventRow_ReplayCount : Z;
  EventRow_LastReplayedAt : option Time;
}.

Record OutboxRow := mkOutboxRow {
  OutboxRow_ID : string;
  OutboxRow_WebhookEventID : string;
  OutboxRow_EventType : string;
  OutboxRow_SchemaVersion : Z;
  OutboxRow_RoutingKey : string;
  OutboxRow_CorrelationID : string;
  OutboxRow_OccurredAt : Time;
  OutboxRow_Status : string;
  OutboxRow_Attempts : Z;
  OutboxRow_PublishedAt : option Time;
  OutboxRow_LastError : option string;
  OutboxRow_CreatedAt : Time;
  OutboxRow_UpdatedAt : Time;
  OutboxRow_LockedUntil : option Time;
  OutboxRow_LockedBy : option string;
  OutboxRow_NextAttemptAt : Time;
}.

(** ** The database

    Each table by primary key, and the instant [now()] returns. *)
Record DB := mkDB {
  orders : gmap string OrderRow;
  payments : gmap string PaymentRow;
  payment_attempts : gmap string AttemptRow;
  webhook_events : gmap string EventRow;
  outbox_events : gmap string OutboxRow;
  db_now : Time;
}.

Definition set_orders (d : DB) t := mkDB t (payments d) (payment_attempts d) (webhook_events d) (outbox_events d) (db_now d).
Definition set_payments (d : DB) t := mkDB (orders d) t (payment_attempts d) (webhook_events d) (outbox_events d) (db_now d).
Definition set_attempts (d : DB) t := mkDB (orders d) (payments d) t (webhook_events d) (outbox_events d) (db_now d).
Definition set_events (d : DB) t := mkDB (orders d) (payments d) (payment_attempts d) t (outbox_events d) (db_now d).
Definition set_outbox (d : DB) t := mkDB (orders d) (payments d) (payment_attempts d) (webhook_events d) t (db_now d).

Definition empty_db (now : Time) : DB := mkDB ∅ ∅ ∅ ∅ ∅ now.

(** ** Constraints of the schema: [db/migrations] *)

Definition one_of (l : list string) (s : string) : bool := existsb (String.eqb s) l.
#[global] Arguments one_of : simpl never.

Definition upper3 (c : string) : bool :=
  match codes c with
  | [a; b; d] => is_upper a && is_upper b && is_upper d
  | _ => false
  end.

Definition orders_check (r : OrderRow) : bool :=
  one_of ["pending"; "paid"; "cancelled"; "expired"] (OrderRow_Status r) &&
  (0 <? OrderRow_Amount r) && upper3 (OrderRow_Currency r) && (0 <? OrderRow_Quantity r).

Definition payments_check (r : PaymentRow) : bool :=
  one_of ["pending"; "processing"; "succeeded"; "failed"; "cancelled"; "partially_refunded"; "refunded"]
    (PaymentRow_Status r) &&
  (0 <? PaymentRow_Amount r) && upper3 (PaymentRow_Currency r).

Definition attempts_check (r : AttemptRow) : bool :=
  one_of ["created"; "pending"; "succeeded"; "failed"; "expired"; "cancelled"] (AttemptRow_Status r).

(** Integer columns are 32 bits wide; an overflow is an error. *)
Definition int4 (z : Z) : bool := (- 2 ^ 31 <=? z) && (z <=? MaxInt32).

Definition events_check (r : EventRow) : bool :=
  one_of ["pending"; "processing"; "processed"; "failed"; "skipped"] (EventRow_Status r) &&
  (0 <=? EventRow_Attempts r) && int4 (EventRow_Attempts r) &&
  (0 <=? EventRow_ReplayCount r) && int4 (EventRow_ReplayCount r).

Definition is_some {A} (o : option A) : bool := match o with Some _ => true | None => false end.

Definition outbox_check (r : OutboxRow) : bool :=
  one_of ["pending"; "publishing"; "published"; "failed"] (OutboxRow_Status r) &&
  (0 <=? OutboxRow_Attempts r) && int4 (OutboxRow_Attempts r) &&
  (0 <? OutboxRow_SchemaVersion r) && int4 (OutboxRow_SchemaVersion r) &&
  Bool.eqb (OutboxRow_Status r =s? "published") (is_some (OutboxRow_PublishedAt r)) &&
  Bool.eqb (OutboxRow_Status r =s? "publishing")
           (is_some (OutboxRow_LockedUntil r) && is_some (OutboxRow_LockedBy r)).

(** Unique indexes: the indexed value, [None] where a partial index leaves the
    row out. *)
Definition orders_idempotency_key_key (r : OrderRow) : option string := Some (OrderRow_IdempotencyKey r).
Definition payments_order_id_active_key (r : PaymentRow) : option string :=
  if one_of ["failed"; "cancelled"] (PaymentRow_Status r) then None else Some (PaymentRow_OrderID r).
Definition payment_attempts_idempotency_key_key (r : AttemptRow) : option string :=
  Some (AttemptRow_IdempotencyKey r).
Definition payment_attempts_payment_id_active_key (r : AttemptRow) : option string :=
  if one_of ["failed"; "expired"; "cancelled"] (AttemptRow_Status r) then None
  else Some (AttemptRow_PaymentID r).
Definition payment_attempts_provider_session_id_key (r : AttemptRow) : option (string * string) :=
  match AttemptRow_ProviderSessionID r with
  | Some s => Some (AttemptRow_Provider r, s)
  | None => None
  end.
Definition webhook_events_provider_event_id_key (r : EventRow) : option (string * string) :=
  Some (EventRow_Provider r, EventRow_ProviderEventID r).
Definition outbox_events_webhook_event_id_key (r : OutboxRow) : option string :=
  Some (OutboxRow_WebhookEventID r).

(** What the driver reports when a constraint refuses a row. *)
Definition check_violation (table : string) : error :=
  ErrNew ("new row for relation " +:+ table +:+ " violates check constraint").
Definition unique_violation (table : string) : error :=
  ErrNew ("duplicate key value violates unique constraint on " +:+ table).
Definition fk_violation (table : string) : error :=
  ErrNew ("insert or update on table " +:+ table +:+ " violates foreign key constraint").

(** ** Tables *)

Section Table.
Context {R : Type}.

(** Some other row than [id] has the same indexed value. *)
Definition taken {K} `{EqDecision K} (index : R -> option K) (id : string) (r : R)
    (m : gmap string R) : bool :=
  match index r with
  | None => false
  | Some k => existsb (fun '(i, s) => negb (i =s? id) && bool_decide (index s = Some k)) (map_to_list m)
  end.

(** Some row of the table has the indexed value of [r]: the arbiter of
    [ON CONFLICT DO NOTHING]. *)
Definition present {K} `{EqDecision K} (index : R -> option K) (r : R) (m : gmap string R) : bool :=
  match index r with
  | None => false
  | Some k => existsb (fun s => bool_decide (index s = Some k)) (snd <$> map_to_list m)
  end.

Definition unique_on {K} (index : R -> option K) (m : gmap string R) : Prop :=
  forall i j r s k, m !! i = Some r -> m !! j = Some s ->
    index r = Some k -> index s = Some k -> i = j.

(** [SELECT ... WHERE p]. *)
Definition rows_where (p : R -> bool) (m : gmap string R) : list R :=
  List.filter p (snd <$> map_to_list m).

(** [UPDATE ... SET f WHERE p], with the number of rows it matched. *)
Definition update_where (p : R -> bool) (f : R -> R) (m : gmap string R) : gmap string R * Z :=
  ((fun r => if p r then f r else r) <$> m, Z.of_nat (length (rows_where p m))).
End Table.

Section Constrained.
Context {R : Type} (name : string) (id : R -> string) (check : R -> bool)
  (unique_ok : gmap string R -> bool).

(** [UPDATE] under the constraints of its table. *)
Definition update_table (p : R -> bool) (f : R -> R) (m : gmap string R) : res (gmap string R * Z) :=
  let '(m', n) := update_where p f m in
  if negb (forallb (fun r => check (f r)) (rows_where p m)) then Err (check_violation name)
  else if negb (unique_ok m') then Err (unique_violation name)
  else Ok (m', n).

(** [INSERT] of one row under the constraints of its table. *)
Definition insert_table (r : R) (m : gmap string R) : res (gmap string R) :=
  let m' := <[id r := r]> m in
  if is_some (m !! id r) then Err (unique_violation name)
  else if negb (check r) then Err (check_violation name)
  else if negb (unique_ok m') then Err (unique_violation name)
  else Ok m'.
End Constrained.

Definition unique_okb {R K} `{EqDecision K} (index : R -> option K) (m : gmap string R) : bool :=
  forallb (fun '(i, r) => negb (taken index i r m)) (map_to_list m).

Definition orders_unique (m : gmap string OrderRow) : bool := unique_okb orders_idempotency_key_key m.
Definition payments_unique (m : gmap string PaymentRow) : bool := unique_okb payments_order_id_active_key m.
Definition attempts_unique (m : gmap string AttemptRow) : bool :=
  unique_okb payment_attempts_idempotency_key_key m &&
  unique_okb payment_attempts_payment_id_active_key m &&
  unique_okb payment_attempts_provider_session_id_key m.
Definition events_unique (m : gmap string EventRow) : bool := unique_okb webhook_events_provider_event_id_key m.
Definition outbox_unique (m : gmap string OutboxRow) : bool := unique_okb outbox_events_webhook_event_id_key m.

Definition update_orders := update_table "orders" orders_check orders_unique.
Definition update_payments := update_table "payments" payments_check payments_unique.
Definition update_attempts := update_table "payment_attempts" attempts_check attempts_unique.
Definition update_events := update_table "webhook_events" events_check events_unique.
Definition update_outbox := update_table "outbox_events" outbox_check outbox_unique.

(** ** Statements

    A statement that fails changes nothing. *)
Definition Stmt (A : Type) : Type := DB -> res (A * DB).

Definition ErrNoRows : error := ErrSentinel "sql.ErrNoRows" "sql: no rows in result set".

(** [QueryRow(...).Scan]: the first row, or [sql.ErrNoRows]. *)
Definition scan_one {A} (rows : list A) : res A :=
  match rows with r :: _ => Ok r | [] => Err ErrNoRows end.

Definition select_one {A} (rows : DB -> list A) : Stmt A :=
  fun d => try r := scan_one (rows d) in Ok (r, d).

(** ** Running statements *)

(** The fate of one round trip: it runs, it fails without effect, or it takes
    effect on the server while the client sees an error. The error is the
    driver's own: a fresh value, none of the sentinels the program compares
    with. *)
Inductive fault : Type :=
| Fine
| Fails (text : string)
| Lost (text : string).

Definition driver_error (text : string) : error := ErrNew text.

Record Store := mkStore {
  st_db : DB;
  st_saved : option DB;
  st_faults : list fault;
}.

Definition next_fault (s : Store) : fault * Store :=
  match st_faults s with
  | [] => (Fine, s)
  | f :: t => (f, mkStore (st_db s) (st_saved s) t)
  end.

Definition exec {A} (stmt : Stmt A) : M Store A := fun s =>
  let '(f, s) := next_fault s in
  match f with
  | Fails text => (Err (driver_error text), s)
  | Fine => match stmt (st_db s) with
            | Ok (a, d) => (Ok a, mkStore d (st_saved s) (st_faults s))
            | Err e => (Err e, s)
            end
  | Lost text => match stmt (st_db s) with
                 | Ok (_, d) => (Err (driver_error text), mkStore d (st_saved s) (st_faults s))
                 | Err _ => (Err (driver_error text), s)
                 end
  end.

(** [db.BeginTx]. *)
Definition BeginTx : M Store unit := fun s =>
  let '(f, s) := next_fault s in
  match f with
  | Fine => (Ok tt, mkStore (st_db s) (Some (st_db s)) (st_faults s))
  | Fails text | Lost text => (Err (driver_error text), s)
  end.

(** [tx.Commit]: when its acknowledgement is lost the work is durable although
    the caller sees an error. *)
Definition Commit : M Store unit := fun s =>
  let '(f, s) := next_fault s in
  match f with
  | Fine => (Ok tt, mkStore (st_db s) None (st_faults s))
  | Lost text => (Err (driver_error text), mkStore (st_db s) None (st_faults s))
  | Fails text => (Err (driver_error text), s)
  end.

(** [tx.Rollback]: nothing to do once the transaction is over. *)
Definition Rollback (s : Store) : Store :=
  match st_saved s with
  | Some d => mkStore d None (st_faults s)
  | None => s
  end.

(** The store beside the variables a Go closure captures. *)
Definition on_store {S A} (m : M Store A) : M (Store * S) A :=
  fun '(s, c) => let '(r, s) := m s in (r, (s, c)).
Definition on_captured {S A} (m : M S A) : M (Store * S) A :=
  fun '(s, c) => let '(r, c) := m c in (r, (s, c)).

(** [defer tx.Rollback()] around the rest of a function: the captured
    variables keep what the closures assigned. *)
Definition deferring_rollback {S A} (m : M (Store * S) A) : M (Store * S) A :=
  fun w => let '(r, (s, c)) := m w in (r, (Rollback s, c)).

(** The same for a method that captures nothing. *)
Definition rollback_after {A} (m : M Store A) : M Store A :=
  fun s => let '(r, s) := m s in (r, Rollback s).

(** A store between calls: no transaction is open. *)
Definition idle (s : Store) : Prop := st_saved s = None.

(** ** Lemmas on tables *)

Lemma Permutation_bool_filter {A} (p : A -> bool) (l l' : list A) :
  l ≡ₚ l' -> List.filter p l ≡ₚ List.filter p l'.
Proof.
  induction 1 as [|x l l' H IH|x y l|l1 l2 l3 H1 IH1 H2 IH2]; simpl; repeat case_match; try done.
  - by constructor.
  - by constructor.
  - by etrans.
Qed.

Lemma one_of_In l s : one_of l s = true <-> s ∈ l.
Proof.
  unfold one_of. rewrite existsb_exists. split.
  - intros (x & Hin & E%String.eqb_eq). subst. by apply list_elem_of_In.
  - intros Hin. exists s. split; [by apply list_elem_of_In | apply String.eqb_refl].
Qed.

Section TableLemmas.
Context {R : Type} (id : R -> string).

Definition keyed (m : gmap string R) : Prop := forall i r, m !! i = Some r -> id r = i.

Lemma rows_none (p : R -> bool) (m : gmap string R) :
  (forall i r, m !! i = Some r -> p r = false) -> rows_where p m = [].
Proof.
  intros H. unfold rows_where.
  assert (forall x, x ∈ snd <$> map_to_list m -> p x = false) as Hp.
  { intros x (kv & -> & Hin)%list_elem_of_fmap. destruct kv as [k r].
    apply elem_of_map_to_list in Hin. by eapply H. }
  induction (snd <$> map_to_list m) as [|x l IH]; [done|]. simpl.
  rewrite Hp by (by left). apply IH. intros. apply Hp. by right.
Qed.

Lemma rows_where_pk k (c : R -> bool) (m : gmap string R) : keyed m ->
  rows_where (fun r => (id r =? k)%string && c r) m =
    match m !! k with Some r => if c r then [r] else [] | None => [] end.
Proof.
  intros Hk. destruct (m !! k) as [r|] eqn:E.
  - assert (rows_where (fun r => (id r =? k)%string && c r) m ≡ₚ if c r then [r] else []) as HP.
    { unfold rows_where. rewrite <- (insert_delete_id m k r E) at 1.
      etrans; [apply Permutation_bool_filter, fmap_Permutation, map_to_list_insert, lookup_delete_eq|].
      simpl. rewrite (Hk _ _ E), String.eqb_refl. simpl.
      assert (rows_where (fun r0 => (id r0 =? k)%string && c r0) (delete k m) = []) as HN.
      { apply rows_none. intros i s Hs. apply lookup_delete_Some in Hs as [Hne Hs].
        rewrite (Hk _ _ Hs). destruct (String.eqb_spec i k); [congruence | done]. }
      unfold rows_where, fmap in HN. rewrite HN. by destruct (c r). }
    destruct (c r); [by apply Permutation_singleton_r in HP | by apply Permutation_nil_r in HP].
  - apply rows_none. intros i s Hs. rewrite (Hk _ _ Hs).
    destruct (String.eqb_spec i k); [congruence | done].
Qed.

Lemma update_pk k (c : R -> bool) (f : R -> R) (m : gmap string R) : keyed m ->
  update_where (fun r => (id r =? k)%string && c r) f m =
    match m !! k with
    | Some r => if c r then (<[k := f r]> m, 1) else (m, 0)
    | None => (m, 0)
    end.
Proof.
  intros Hk. unfold update_where. rewrite rows_where_pk by done.
  assert (forall i r, m !! i = Some r -> (id r =? k)%string = (i =? k)%string) as He
    by (intros i r Hi; by rewrite (Hk _ _ Hi)).
  destruct (m !! k) as [r|] eqn:E; [destruct (c r) eqn:Ec|]; f_equal;
    apply map_eq; intros i; rewrite ?lookup_insert, lookup_fmap.
  all: destruct (String.eqb_spec i k) as [->|Hne];
    [rewrite E, ?decide_True by done; simpl; rewrite ?(Hk _ _ E), ?String.eqb_refl, ?Ec; done|].
  all: rewrite ?decide_False by done; destruct (m !! i) as [s|] eqn:Ei; simpl; [|done].
  all: rewrite (He _ _ Ei); apply String.eqb_neq in Hne; by rewrite Hne.
Qed.

Lemma keyed_fmap (p : R -> bool) (f : R -> R) m :
  (forall r, id (f r) = id r) -> keyed m -> keyed (update_where p f m).1.
Proof.
  intros Hf Hm i r. unfold update_where. simpl. rewrite lookup_fmap.
  destruct (m !! i) as [s|] eqn:E; simpl; [|done]. intros [= <-].
  case_match; rewrite ?Hf; by apply Hm.
Qed.

Lemma keyed_insert k r m : id r = k -> keyed m -> keyed (<[k := r]> m).
Proof.
  intros Hk Hm i s. rewrite lookup_insert. case_decide; [|apply Hm].
  intros [= <-]. congruence.
Qed.
End TableLemmas.

(** No two selected rows share a primary key. *)
Lemma rows_where_NoDup {R} (id : R -> string) (p : R -> bool) (m : gmap string R) :
  keyed id m -> NoDup (id <$> rows_where p m).
Proof.
  intros Hk. unfold rows_where.
  assert (forall l, NoDup l.*1 -> (forall i r, (i, r) ∈ l -> id r = i) ->
    NoDup (id <$> List.filter p (l.*2))) as H.
  { induction l as [|[i r] l IH]; simpl; [constructor|]. intros [Hni Hnd]%NoDup_cons Hl.
    assert (id r = i) as Hr by (apply Hl; left).
    case_match; [|apply IH; [done|]; intros; apply Hl; by right].
    simpl. constructor; [|apply IH; [done|]; intros; apply Hl; by right].
    rewrite Hr. intros (r' & E & Hin)%list_elem_of_fmap.
    apply list_elem_of_In, List.filter_In in Hin as [Hin _].
    apply list_elem_of_In, list_elem_of_fmap in Hin as ([i' r''] & -> & Hin). simpl in *.
    rewrite (Hl i' r'') in E by (by right). subst i'. apply Hni, list_elem_of_fmap. by exists (i, r''). }
  apply H; [apply NoDup_fst_map_to_list|]. intros i r Hin%elem_of_map_to_list. by apply Hk.
Qed.

Lemma taken_false {R K} `{EqDecision K} (index : R -> option K) id r m k s i :
  taken index id r m = false -> index r = Some k -> m !! i = Some s -> index s = Some k -> i = id.
Proof.
  unfold taken. intros H Hr Hi Hs. rewrite Hr in H.
  destruct (String.eqb_spec i id) as [|Hne]; [done|exfalso].
  apply (elem_of_map_to_list m) in Hi.
  assert (existsb (fun '(i, s) => negb (i =s? id) && bool_decide (index s = Some k)) (map_to_list m) = true) as Ht;
    [|congruence].
  apply existsb_exists. exists (i, s). split; [by apply list_elem_of_In|].
  rewrite bool_decide_true by done. apply String.eqb_neq in Hne. by rewrite Hne.
Qed.

Lemma present_spec {R K} `{EqDecision K} (index : R -> option K) r m :
  present index r m = true <-> exists i s k, m !! i = Some s /\ index s = Some k /\ index r = Some k.
Proof.
  unfold present. destruct (index r) as [k|]; [|naive_solver].
  rewrite existsb_exists. split.
  - intros (s & Hs & E%bool_decide_eq_true). apply list_elem_of_In, list_elem_of_fmap in Hs as ([i s'] & -> & Hs).
    apply elem_of_map_to_list in Hs. eauto 6.
  - intros (i & s & k' & Hi & Es & [= <-]). exists s. split; [|by apply bool_decide_eq_true].
    apply list_elem_of_In, list_elem_of_fmap. exists (i, s). split; [done|]. by apply elem_of_map_to_list.
Qed.

Lemma present_false {R K} `{EqDecision K} (index : R -> option K) id r m :
  present index r m = false -> taken index id r m = false.
Proof.
  intros H. destruct (taken index id r m) eqn:E; [|done]. rewrite <- H. symmetry.
  apply present_spec. unfold taken in E. destruct (index r) as [k|] eqn:Ek; [|done].
  apply existsb_exists in E as ([i s] & Hs & E). apply andb_true_iff in E as [_ E%bool_decide_eq_true].
  apply list_elem_of_In, elem_of_map_to_list in Hs. eauto 6.
Qed.

Lemma unique_insert {R K} `{EqDecision K} (index : R -> option K) id r m :
  taken index id r m = false -> unique_on index m -> unique_on index (<[id := r]> m).
Proof.
  intros Ht Hu i j ri rj k. rewrite !lookup_insert.
  repeat case_decide; subst; intros Hi Hj Ei Ej; simplify_eq; try done.
  - symmetry. by eapply taken_false.
  - by eapply taken_false.
  - by eapply Hu.
Qed.

Lemma unique_okb_spec {R K} `{EqDecision K} (index : R -> option K) m :
  unique_okb index m = true <-> unique_on index m.
Proof.
  unfold unique_okb. rewrite forallb_forall. split.
  - intros H i j ri rj k Hi Hj Ei Ej. symmetry. eapply taken_false; [|exact Ei|exact Hj|exact Ej].
    apply negb_true_iff. by apply (H (i, ri)), list_elem_of_In, elem_of_map_to_list.
  - intros Hu [i r] Hin. apply list_elem_of_In, elem_of_map_to_list in Hin.
    apply negb_true_iff. unfold taken. destruct (index r) as [k|] eqn:E; [|done].
    apply not_true_iff_false. intros ([j s] & Hj & H)%existsb_exists.
    apply list_elem_of_In, elem_of_map_to_list in Hj. 
    apply andb_true_iff in H as [Hne Hb]. apply negb_true_iff, String.eqb_neq in Hne.
    apply bool_decide_eq_true in Hb. apply Hne. by eapply Hu.
Qed.

(** Rewriting one row so that its indexed value is unchanged or leaves the
    index keeps the index unique. *)
Lemma unique_shrink {R K} (index : R -> option K) id r r' m :
  m !! id = Some r -> (index r' = None \/ index r' = index r) ->
  unique_on index m -> unique_on index (<[id := r']> m).
Proof.
  intros Hr Hs Hu i j ri rj k. rewrite !lookup_insert.
  repeat case_decide; subst; intros Hi Hj Ei Ej; simplify_eq; try done.
  - destruct Hs as [Hs|Hs]; [congruence|]. rewrite Hs in Ei. by eapply Hu.
  - destruct Hs as [Hs|Hs]; [congruence|]. rewrite Hs in Ej. by eapply Hu.
  - by eapply Hu.
Qed.

(** ** The schema as an invariant *)

Record schema (d : DB) : Prop := {
  orders_keyed : keyed OrderRow_ID (orders d);
  payments_keyed : keyed PaymentRow_ID (payments d);
  attempts_keyed : keyed AttemptRow_ID (payment_attempts d);
  events_keyed : keyed EventRow_ID (webhook_events d);
  outbox_keyed : keyed OutboxRow_ID (outbox_events d);
  orders_ok : map_Forall (fun _ r => orders_check r = true) (orders d);
  payments_ok : map_Forall (fun _ r => payments_check r = true) (payments d);
  attempts_ok : map_Forall (fun _ r => attempts_check r = true) (payment_attempts d);
  events_ok : map_Forall (fun _ r => events_check r = true) (webhook_events d);
  outbox_ok : map_Forall (fun _ r => outbox_check r = true) (outbox_events d);
  payments_order_fkey : forall i p, payments d !! i = Some p ->
    exists o, orders d !! PaymentRow_OrderID p = Some o /\
      OrderRow_Amount o = PaymentRow_Amount p /\ OrderRow_Currency o = PaymentRow_Currency p;
  payment_attempts_payment_fkey : forall i a, payment_attempts d !! i = Some a ->
    exists p, payments d !! AttemptRow_PaymentID a = Some p /\
      PaymentRow_Provider p = AttemptRow_Provider a;
  outbox_events_webhook_event_fkey : forall i o, outbox_events d !! i = Some o ->
    is_Some (webhook_events d !! OutboxRow_WebhookEventID o);
  orders_key_unique : unique_on orders_idempotency_key_key (orders d);
  payments_active_unique : unique_on payments_order_id_active_key (payments d);
  attempts_key_unique : unique_on payment_attempts_idempotency_key_key (payment_attempts d);
  attempts_active_unique : unique_on payment_attempts_payment_id_active_key (payment_attempts d);
  attempts_session_unique : unique_on payment_attempts_provider_session_id_key (payment_attempts d);
  events_provider_unique : unique_on webhook_events_provider_event_id_key (webhook_events d);
  outbox_event_unique : unique_on outbox_events_webhook_event_id_key (outbox_events d);
}.

Lemma schema_empty now : schema (empty_db now).
Proof. split; unfold keyed, unique_on, map_Forall; simpl; intros *; by rewrite lookup_empty. Qed.

#[export] Hint Resolve schema_empty : go.

(** *** Updates under constraints *)

Section ConstrainedLemmas.
Context {R : Type} (name : string) (id : R -> string) (check : R -> bool)
  (unique_ok : gmap string R -> bool).

Lemma update_table_pk k (c : R -> bool) (f : R -> R) (m : gmap string R) :
  keyed id m -> unique_ok m = true ->
  (forall r, m !! k = Some r -> c r = true -> check (f r) = true /\ unique_ok (<[k := f r]> m) = true) ->
  update_table name check unique_ok (fun r => (id r =? k)%string && c r) f m =
    match m !! k with
    | Some r => if c r then Ok (<[k := f r]> m, 1) else Ok (m, 0)
    | None => Ok (m, 0)
    end.
Proof.
  intros Hk Hu Hc. unfold update_table.
  rewrite (rows_where_pk id), (update_pk id) by done.
  destruct (m !! k) as [r|]; [destruct (c r) eqn:E|]; simpl; rewrite ?Hu; try done.
  destruct (Hc r eq_refl E) as [-> ->]. done.
Qed.

Lemma update_table_Ok p f m m' n :
  update_table name check unique_ok p f m = Ok (m', n) ->
  m' = (fun r => if p r then f r else r) <$> m /\ unique_ok m' = true /\
  n = Z.of_nat (length (rows_where p m)) /\
  (forall r, r ∈ rows_where p m -> check (f r) = true).
Proof.
  unfold update_table, update_where. repeat case_match; try done. intros [= <- <-].
  go_bool. split_and!; try done. intros r Hr.
  rewrite forallb_forall in H. by apply H, list_elem_of_In.
Qed.

Lemma rows_where_elem p (m : gmap string R) i r :
  m !! i = Some r -> p r = true -> r ∈ rows_where p m.
Proof.
  intros Hi Hp. unfold rows_where. apply list_elem_of_In, List.filter_In. split; [|done].
  apply list_elem_of_In, list_elem_of_fmap. exists (i, r). split; [done|]. by apply elem_of_map_to_list.
Qed.

Lemma rows_where_inv p (m : gmap string R) r :
  r ∈ rows_where p m -> p r = true /\ exists i, m !! i = Some r.
Proof.
  unfold rows_where. intros H%list_elem_of_In%List.filter_In. destruct H as [Hin Hp].
  apply list_elem_of_In, list_elem_of_fmap in Hin as ([i r'] & -> & Hin).
  apply elem_of_map_to_list in Hin. eauto.
Qed.

(** What an update leaves behind, row by row. *)
Lemma update_table_rows p f m m' n :
  update_table name check unique_ok p f m = Ok (m', n) ->
  forall i r', m' !! i = Some r' ->
    exists r, m !! i = Some r /\ r' = (if p r then f r else r) /\ (p r = true -> check r' = true).
Proof.
  intros (-> & _ & _ & Hc)%update_table_Ok i r'. rewrite lookup_fmap.
  destruct (m !! i) as [r|] eqn:E; simpl; [|done]. intros [= <-]. exists r. split; [done|].
  split; [done|]. intros Hp. rewrite Hp. apply Hc. by eapply rows_where_elem.
Qed.

Lemma update_table_keyed p f m m' n :
  update_table name check unique_ok p f m = Ok (m', n) ->
  (forall r, id (f r) = id r) -> keyed id m -> keyed id m'.
Proof. intros (-> & _ & _ & _)%update_table_Ok Hf Hk. by apply (keyed_fmap id p f). Qed.

Lemma update_table_checked p f m m' n :
  update_table name check unique_ok p f m = Ok (m', n) ->
  map_Forall (fun _ r => check r = true) m -> map_Forall (fun _ r => check r = true) m'.
Proof.
  intros Hu Hc i r' Hi. destruct (update_table_rows _ _ _ _ _ Hu _ _ Hi) as (r & Hr & -> & Hp).
  destruct (p r); [auto | by eapply Hc].
Qed.

Lemma insert_table_Ok r m m' :
  insert_table name id check unique_ok r m = Ok m' ->
  m' = <[id r := r]> m /\ m !! id r = None /\ check r = true /\ unique_ok m' = true.
Proof.
  unfold insert_table. repeat case_match; try done. intros [= <-]. go_bool.
  split_and!; try done. by destruct (m !! id r).
Qed.
End ConstrainedLemmas.

Lemma attempts_unique_spec m : attempts_unique m = true <->
  unique_on payment_attempts_idempotency_key_key m /\
  unique_on payment_attempts_payment_id_active_key m /\
  unique_on payment_attempts_provider_session_id_key m.
Proof. unfold attempts_unique. rewrite !andb_true_iff, !unique_okb_spec. tauto. Qed.

(** Every lookup of an updated table comes from a lookup of the old one. *)
Ltac updated H Hi := destruct (update_table_rows _ _ _ _ _ _ _ _ H _ _ Hi) as (?r & ?Hr & -> & _).

Lemma schema_update_orders d p f m n :
  schema d -> update_orders p f (orders d) = Ok (m, n) ->
  (forall r, OrderRow_ID (f r) = OrderRow_ID r /\ OrderRow_Amount (f r) = OrderRow_Amount r /\
             OrderRow_Currency (f r) = OrderRow_Currency r) ->
  schema (set_orders d m).
Proof.
  intros [] Hu Hf. pose proof (update_table_Ok _ _ _ _ _ _ _ _ Hu) as (Hm & Hq & _ & _).
  split; simpl; try done.
  - eapply update_table_keyed; [exact Hu| |done]. apply Hf.
  - by eapply update_table_checked.
  - intros i q Hi. destruct (payments_order_fkey0 _ _ Hi) as (o & Ho & Ha & Hc).
    subst m. exists (if p o then f o else o). rewrite lookup_fmap, Ho. split; [done|].
    destruct (p o); [|done]. destruct (Hf o) as (_ & -> & ->). done.
  - by apply unique_okb_spec.
Qed.

Lemma schema_update_payments d p f m n :
  schema d -> update_payments p f (payments d) = Ok (m, n) ->
  (forall r, PaymentRow_ID (f r) = PaymentRow_ID r /\ PaymentRow_OrderID (f r) = PaymentRow_OrderID r /\
             PaymentRow_Provider (f r) = PaymentRow_Provider r /\
             PaymentRow_Amount (f r) = PaymentRow_Amount r /\
             PaymentRow_Currency (f r) = PaymentRow_Currency r) ->
  schema (set_payments d m).
Proof.
  intros [] Hu Hf. pose proof (update_table_Ok _ _ _ _ _ _ _ _ Hu) as (Hm & Hq & _ & _).
  split; simpl; try done.
  - eapply update_table_keyed; [exact Hu| |done]. apply Hf.
  - by eapply update_table_checked.
  - intros i q Hi. updated Hu Hi. destruct (payments_order_fkey0 _ _ Hr) as (o & Ho & Ha & Hc).
    exists o. destruct (p r); [|done]. destruct (Hf r) as (_ & -> & _ & -> & ->). done.
  - intros i a Hi. destruct (payment_attempts_payment_fkey0 _ _ Hi) as (q & Hq' & Hp).
    subst m. exists (if p q then f q else q). rewrite lookup_fmap, Hq'. split; [done|].
    destruct (p q); [|done]. destruct (Hf q) as (_ & _ & -> & _). done.
  - by apply unique_okb_spec.
Qed.

Lemma schema_update_attempts d p f m n :
  schema d -> update_attempts p f (payment_attempts d) = Ok (m, n) ->
  (forall r, AttemptRow_ID (f r) = AttemptRow_ID r /\ AttemptRow_PaymentID (f r) = AttemptRow_PaymentID r /\
             AttemptRow_Provider (f r) = AttemptRow_Provider r) ->
  schema (set_attempts d m).
Proof.
  intros [] Hu Hf. pose proof (update_table_Ok _ _ _ _ _ _ _ _ Hu) as (Hm & Hq & _ & _).
  apply attempts_unique_spec in Hq as (? & ? & ?).
  split; simpl; try done.
  - eapply update_table_keyed; [exact Hu| |done]. apply Hf.
  - by eapply update_table_checked.
  - intros i q Hi. updated Hu Hi. destruct (payment_attempts_payment_fkey0 _ _ Hr) as (o & Ho & Ha).
    exists o. destruct (p r); [|done]. destruct (Hf r) as (_ & -> & ->). done.
Qed.

Lemma schema_update_events d p f m n :
  schema d -> update_events p f (webhook_events d) = Ok (m, n) ->
  (forall r, EventRow_ID (f r) = EventRow_ID r) ->
  schema (set_events d m).
Proof.
  intros [] Hu Hf. pose proof (update_table_Ok _ _ _ _ _ _ _ _ Hu) as (Hm & Hq & _ & _).
  split; simpl; try done.
  - eapply update_table_keyed; [exact Hu| |done]. apply Hf.
  - by eapply update_table_checked.
  - intros i o Hi. destruct (outbox_events_webhook_event_fkey0 _ _ Hi) as (e & He).
    subst m. by rewrite lookup_fmap, He.
  - by apply unique_okb_spec.
Qed.

Lemma schema_update_outbox d p f m n :
  schema d -> update_outbox p f (outbox_events d) = Ok (m, n) ->
  (forall r, OutboxRow_ID (f r) = OutboxRow_ID r /\
             OutboxRow_WebhookEventID (f r) = OutboxRow_WebhookEventID r) ->
  schema (set_outbox d m).
Proof.
  intros [] Hu Hf. pose proof (update_table_Ok _ _ _ _ _ _ _ _ Hu) as (Hm & Hq & _ & _).
  split; simpl; try done.
  - eapply update_table_keyed; [exact Hu| |done]. apply Hf.
  - by eapply update_table_checked.
  - intros i q Hi. updated Hu Hi. destruct (p r); [destruct (Hf r) as (_ & ->)|]; eauto.
  - by apply unique_okb_spec.
Qed.

(** *** Single-row updates that matched *)

Lemma update_one {R} name (id : R -> string) check unique_ok k (c : R -> bool) f m m' n :
  keyed id m ->
  update_table name check unique_ok (fun r => (id r =? k)%string && c r) f m = Ok (m', n) -> n = 1 ->
  exists r, m !! k = Some r /\ c r = true /\ check (f r) = true /\ m' = alter f k m.
Proof.
  intros Hk H ->. unfold update_table in H.
  rewrite (rows_where_pk id), (update_pk id) in H by done.
  destruct (m !! k) as [r|] eqn:E; [|simpl in H; by case_match].
  destruct (c r) eqn:Ec; [|simpl in H; by case_match].
  simpl in H. destruct (check (f r)) eqn:Ek; [|done]. simpl in H.
  destruct (unique_ok (<[k:=f r]> m)); [|done]. simplify_eq/=.
  exists r. split_and!; try done. apply map_eq. intros i.
  rewrite lookup_insert, lookup_alter. case_decide; subst; [by rewrite E | done].
Qed.

Lemma update_row {R} name (id : R -> string) check unique_ok k (c : R -> bool) f m m' n r :
  keyed id m ->
  update_table name check unique_ok (fun r => (id r =? k)%string && c r) f m = Ok (m', n) ->
  m !! k = Some r -> c r = true -> check (f r) = true /\ m' = alter f k m /\ n = 1.
Proof.
  intros Hk H Hr Hc. assert (n = 1) as ->.
  { apply update_table_Ok in H as (_ & _ & -> & _). by rewrite (rows_where_pk id), Hr, Hc. }
  apply (update_one _ id) in H as (r' & Hr' & _ & ? & ->); [|done..]. by simplify_eq.
Qed.

(** ** Lemmas on execution *)

Lemma exec_saved {A} (stmt : Stmt A) s r s' : exec stmt s = (r, s') -> st_saved s' = st_saved s.
Proof.
  unfold exec, next_fault. destruct s as [d v [|f fs]]; simpl.
  - destruct (stmt d) as [[a d']|]; naive_solver.
  - destruct f; simpl; try destruct (stmt d) as [[a d']|]; naive_solver.
Qed.

Lemma exec_Ok {A} (stmt : Stmt A) s a s' :
  exec stmt s = (Ok a, s') -> stmt (st_db s) = Ok (a, st_db s').
Proof.
  unfold exec, next_fault. destruct s as [d v [|f fs]]; simpl.
  - destruct (stmt d) as [[b d']|]; naive_solver.
  - destruct f; simpl; try destruct (stmt d) as [[b d']|]; naive_solver.
Qed.

(** [sql.ErrNoRows] comes from the statement, never from a fault. *)
Lemma exec_ErrNoRows {A} (stmt : Stmt A) s e s' :
  exec stmt s = (Err e, s') -> Is e ErrNoRows = true -> stmt (st_db s) = Err e /\ st_db s' = st_db s.
Proof.
  unfold exec, next_fault. destruct s as [d v [|f fs]]; simpl.
  - destruct (stmt d) as [[b d']|]; naive_solver.
  - destruct f; simpl; try destruct (stmt d) as [[b d']|] eqn:E; naive_solver.
Qed.

(** The error of a statement is its own or a fresh one of the driver. *)
Lemma exec_error {A} (stmt : Stmt A) (P : error -> Prop) s e s' :
  exec stmt s = (Err e, s') -> (forall text, P (ErrNew text)) ->
  (forall e, stmt (st_db s) = Err e -> P e) -> P e.
Proof.
  unfold exec, next_fault. intros E Hnew Hstmt. destruct s as [d v [|f fs]]; simpl in *.
  - destruct (stmt d) as [[b d']|]; naive_solver.
  - destruct f; simpl in *; try destruct (stmt d) as [[b d']|] eqn:Es; simplify_eq; eauto; apply Hnew.
Qed.

Lemma update_table_error {R} name check unique_ok (p : R -> bool) f m e :
  update_table name check unique_ok p f m = Err e -> exists text, e = ErrNew text.
Proof. unfold update_table, update_where. repeat case_match; try done; intros [= <-]; eexists; reflexivity. Qed.

Lemma Commit_error s e s' : Commit s = (Err e, s') -> exists text, e = ErrNew text.
Proof. unfold Commit, next_fault. destruct s as [d v [|f fs]]; simpl; [done|]. destruct f; intros [= <- _]; eauto. Qed.

Lemma BeginTx_error s e s' : BeginTx s = (Err e, s') -> exists text, e = ErrNew text.
Proof. unfold BeginTx, next_fault. destruct s as [d v [|f fs]]; simpl; [done|]. destruct f; intros [= <- _]; eauto. Qed.

Lemma BeginTx_db s r s' : BeginTx s = (r, s') -> st_db s' = st_db s.
Proof. unfold BeginTx, next_fault. destruct s as [d v [|f fs]]; simpl; [by intros [= _ <-]|]. by destruct f; intros [= _ <-]. Qed.

(** Outside a transaction a failed statement may still have taken effect. *)
Lemma exec_Err {A} (stmt : Stmt A) s e s' :
  exec stmt s = (Err e, s') ->
  st_db s' = st_db s \/ exists a, stmt (st_db s) = Ok (a, st_db s').
Proof.
  unfold exec, next_fault. destruct s as [d v [|f fs]]; simpl.
  - destruct (stmt d) as [[b d']|]; naive_solver.
  - destruct f; simpl; try destruct (stmt d) as [[b d']|] eqn:E; naive_solver.
Qed.

Lemma exec_reads {A} (stmt : Stmt A) s : (forall d a d', stmt d = Ok (a, d') -> d' = d) ->
  st_db (exec stmt s).2 = st_db s.
Proof.
  intros Hr. destruct (exec stmt s) as [[a|err] s'] eqn:E.
  - apply exec_Ok, Hr in E. done.
  - apply exec_Err in E as [E|[a E%Hr]]; done.
Qed.

Lemma select_one_reads {A} (rows : DB -> list A) d a d' : select_one rows d = Ok (a, d') -> d' = d.
Proof. unfold select_one, scan_one. destruct (rows d); [done | by intros [= _ <-]]. Qed.

Lemma exec_schema {A} (stmt : Stmt A) s r s' :
  (forall d a d', schema d -> stmt d = Ok (a, d') -> schema d') ->
  schema (st_db s) -> exec stmt s = (r, s') -> schema (st_db s').
Proof.
  intros Hp Hs E. destruct r as [a|e].
  - apply exec_Ok in E. by eapply Hp.
  - apply exec_Err in E as [->|[a E]]; [done|]. by eapply Hp.
Qed.

(** A store with no faults left runs every statement as it is. *)
Lemma exec_fine {A} (stmt : Stmt A) d v :
  exec stmt (mkStore d v []) =
    match stmt d with Ok (a, d') => (Ok a, mkStore d' v []) | Err e => (Err e, mkStore d v []) end.
Proof. done. Qed.

Lemma BeginTx_cases s r s' :
  BeginTx s = (r, s') -> idle s ->
  st_db s' = st_db s /\ ((r = Ok tt /\ st_saved s' = Some (st_db s)) \/ (exists e, r = Err e /\ idle s')).
Proof.
  unfold BeginTx, next_fault, idle. destruct s as [d v [|f fs]]; simpl; [|destruct f]; naive_solver.
Qed.

Lemma Commit_cases s r s' :
  Commit s = (r, s') ->
  st_db s' = st_db s /\ (st_saved s' = None \/ (st_saved s' = st_saved s /\ exists e, r = Err e)).
Proof.
  unfold Commit, next_fault. destruct s as [d v [|f fs]]; simpl; [|destruct f]; naive_solver.
Qed.

Lemma Commit_Ok s s' : Commit s = (Ok tt, s') -> st_db s' = st_db s /\ idle s'.
Proof.
  unfold Commit, next_fault, idle. destruct s as [d v [|f fs]]; simpl; [|destruct f]; naive_solver.
Qed.

(** Statements, and what is built from them, leave the open transaction open. *)
Definition tx_safe {A} (m : M Store A) : Prop := forall s r s', m s = (r, s') -> st_saved s' = st_saved s.

Lemma tx_safe_exec {A} (stmt : Stmt A) : tx_safe (exec stmt).
Proof. intros s r s'. apply exec_saved. Qed.
Lemma tx_safe_ret {A} (a : A) : tx_safe (gret a).
Proof. intros s r s' [= _ <-]. done. Qed.
Lemma tx_safe_fail {A} e : tx_safe (gfail (A:=A) e).
Proof. intros s r s' [= _ <-]. done. Qed.
Lemma tx_safe_bind {A B} (m : M Store A) (k : A -> M Store B) :
  tx_safe m -> (forall a, tx_safe (k a)) -> tx_safe (gbind m k).
Proof.
  intros Hm Hk s r s'. unfold gbind. destruct (m s) as [[a|e] s1] eqn:E; intros E2.
  - rewrite <- (Hm _ _ _ E). by eapply Hk.
  - simplify_eq. by eapply Hm.
Qed.
Lemma tx_safe_wrap {A} f (m : M Store A) : tx_safe m -> tx_safe (gwrap f m).
Proof.
  intros Hm s r s'. unfold gwrap. destruct (m s) as [r1 s1] eqn:E. intros [= _ <-]. by eapply Hm.
Qed.

#[export] Hint Resolve tx_safe_exec tx_safe_ret tx_safe_fail tx_safe_bind tx_safe_wrap : go.

Lemma Rollback_saved s d : st_saved s = Some d -> st_db (Rollback s) = d /\ idle (Rollback s).
Proof. unfold Rollback. by intros ->. Qed.

Lemma Rollback_idle s : idle s -> Rollback s = s.
Proof. unfold Rollback, idle. by intros ->. Qed.

Lemma idle_Rollback s : idle (Rollback s).
Proof. unfold Rollback, idle. destruct (st_saved s) eqn:E; done. Qed.
