(* ===== verification/Queries.v ===== *)
(** * The SQL statements: [internal/adapters/postgres/queries]

    One definition per sqlc query, under the name of its Go method, reading
    the SQL text of the [*.sql.go] files: the [WHERE] clause is the row
    predicate, the [SET] list the row update, [CASE] a conditional. A
    comparison with NULL is false. *)

From S2P Require Import Prelude GoLib Store.

(** ** What the statements use of the database

    [jsonb]: a text as the [jsonb] type stores it, [None] when the cast refuses it.
    [make_interval]: the interval of a duration sent as a [float8] number of
    seconds. [age_seconds]: an age read back from a [float8] number of
    seconds. *)
Class Postgres : Type := {
  jsonb : string -> option string;
  make_interval : Duration -> Duration;
  age_seconds : Duration -> Duration;
}.

(** [a = b] on a nullable column. *)
Definition sql_eq (a b : option string) : bool :=
  match a, b with Some x, Some y => x =? y | _, _ => false end%string.
(** [locked_until > now()] and [locked_until <= now()]. *)
Definition sql_after (t : option Time) (now : Time) : bool :=
  match t with Some t => now <? t | None => false end.
Definition sql_elapsed (t : option Time) (now : Time) : bool :=
  match t with Some t => t <=? now | None => false end.

Definition with_orders {A} (f : gmap string OrderRow -> Time -> res (gmap string OrderRow * A)) : Stmt A :=
  fun d => try (t, a) := f (orders d) (db_now d) in Ok (a, set_orders d t).
Definition with_payments {A} (f : gmap string PaymentRow -> Time -> res (gmap string PaymentRow * A)) : Stmt A :=
  fun d => try (t, a) := f (payments d) (db_now d) in Ok (a, set_payments d t).
Definition with_attempts {A} (f : gmap string AttemptRow -> Time -> res (gmap string AttemptRow * A)) : Stmt A :=
  fun d => try (t, a) := f (payment_attempts d) (db_now d) in Ok (a, set_attempts d t).
Definition with_events {A} (f : gmap string EventRow -> Time -> res (gmap string EventRow * A)) : Stmt A :=
  fun d => try (t, a) := f (webhook_events d) (db_now d) in Ok (a, set_events d t).
Definition with_outbox {A} (f : gmap string OutboxRow -> Time -> res (gmap string OutboxRow * A)) : Stmt A :=
  fun d => try (t, a) := f (outbox_events d) (db_now d) in Ok (a, set_outbox d t).

(** ** [consumer.sql.go] *)

Definition AttachAttemptReferences (sessionID paymentIntentID : option string) (id : string) : Stmt Z :=
  with_attempts (fun t now =>
    update_attempts
      (fun r => (AttemptRow_ID r =s? id) &&
         (negb (is_some (AttemptRow_ProviderSessionID r)) || sql_eq (AttemptRow_ProviderSessionID r) sessionID))
      (fun r => mkAttemptRow (AttemptRow_ID r) (AttemptRow_PaymentID r) (AttemptRow_Provider r)
         (AttemptRow_Status r) (AttemptRow_IdempotencyKey r)
         (match AttemptRow_ProviderSessionID r with Some s => Some s | None => sessionID end)
         (match AttemptRow_ProviderPaymentIntentID r with Some s => Some s | None => paymentIntentID end)
         (AttemptRow_CheckoutURL r) (AttemptRow_ExpiresAt r) (AttemptRow_FailureCode r)
         (AttemptRow_FailureMessage r) (AttemptRow_CreatedAt r) now) t).

Record LockPaymentAggregateRow := mkLockPaymentAggregateRow {
  LPA_OrderID : string;
  LPA_OrderStatus : string;
  LPA_PaymentID : string;
  LPA_PaymentStatus : string;
  LPA_Provider : string;
  LPA_Amount : Z;
  LPA_Currency : string;
  LPA_AttemptID : string;
  LPA_AttemptStatus : string;
  LPA_SessionID : option string;
}.

Definition LockPaymentAggregate (attemptID paymentID orderID : string) : Stmt LockPaymentAggregateRow :=
  select_one (fun d =>
    a ← rows_where (fun a => (AttemptRow_ID a =s? attemptID) && true) (payment_attempts d);
    p ← rows_where (fun p => (PaymentRow_ID p =s? paymentID) &&
                             ((PaymentRow_ID p =s? AttemptRow_PaymentID a) &&
                              (PaymentRow_Provider p =s? AttemptRow_Provider a))) (payments d);
    o ← rows_where (fun o => (OrderRow_ID o =s? orderID) && (OrderRow_ID o =s? PaymentRow_OrderID p)) (orders d);
    [mkLockPaymentAggregateRow (OrderRow_ID o) (OrderRow_Status o) (PaymentRow_ID p) (PaymentRow_Status p)
       (PaymentRow_Provider p) (PaymentRow_Amount p) (PaymentRow_Currency p)
       (AttemptRow_ID a) (AttemptRow_Status a) (AttemptRow_ProviderSessionID a)]).

Definition LockWebhookEvent (id : string) : Stmt EventRow :=
  select_one (fun d => rows_where (fun r => (EventRow_ID r =s? id) && true) (webhook_events d)).

Definition MarkOrderPaid (id : string) : Stmt Z :=
  with_orders (fun t now =>
    update_orders (fun r => (OrderRow_ID r =s? id) && (OrderRow_Status r =s? "pending"))
      (fun r => mkOrderRow (OrderRow_ID r) "paid" (OrderRow_Amount r) (OrderRow_Currency r)
         (OrderRow_ProductID r) (OrderRow_Quantity r) (OrderRow_IdempotencyKey r) (OrderRow_CreatedAt r) now) t).

Definition MarkWebhookEventProcessed (id : string) (note : option string) : Stmt Z :=
  with_events (fun t now =>
    update_events (fun r => (EventRow_ID r =s? id) && (EventRow_Status r <>s? "processed"))
      (fun r => mkEventRow (EventRow_ID r) (EventRow_Provider r) (EventRow_ProviderEventID r)
         (EventRow_EventType r) (EventRow_RawPayload r) (EventRow_Payload r)
         "processed" (EventRow_Attempts r + 1) (EventRow_ReceivedAt r) (Some now) note now
         (EventRow_ReplayCount r) (EventRow_LastReplayedAt r)) t).

Record RecordWebhookEventFailureRow := mkRecordWebhookEventFailureRow {
  RWEF_Attempts : Z;
  RWEF_Failed : bool;
}.

(** The [SET] list of the failure statement. *)
Definition failure_update (terminal : bool) (maxAttempts : Z) (lastError : option string) (now : Time)
    (r : EventRow) : EventRow :=
  mkEventRow (EventRow_ID r) (EventRow_Provider r) (EventRow_ProviderEventID r)
    (EventRow_EventType r) (EventRow_RawPayload r) (EventRow_Payload r)
    (if terminal || (maxAttempts <=? EventRow_Attempts r + 1) then "failed" else EventRow_Status r)
    (EventRow_Attempts r + 1) (EventRow_ReceivedAt r) (EventRow_ProcessedAt r) lastError now
    (EventRow_ReplayCount r) (EventRow_LastReplayedAt r).

Definition RecordWebhookEventFailure (terminal : bool) (maxAttempts : Z) (lastError : option string)
    (id : string) : Stmt RecordWebhookEventFailureRow :=
  with_events (fun t now =>
    let p r := (EventRow_ID r =s? id) && true in
    let f := failure_update terminal maxAttempts lastError now in
    try (t', _) := update_events p f t in
    try r := scan_one (f <$> rows_where p t) in
    Ok (t', mkRecordWebhookEventFailureRow (EventRow_Attempts r) (EventRow_Status r =s? "failed"))).

Definition payment_terminal : list string :=
  ["succeeded"; "failed"; "cancelled"; "partially_refunded"; "refunded"].
Definition attempt_terminal : list string := ["succeeded"; "failed"; "expired"; "cancelled"].

Definition payment_moved (status : string) (now : Time) (r : PaymentRow) : PaymentRow :=
  mkPaymentRow (PaymentRow_ID r) (PaymentRow_OrderID r) (PaymentRow_Provider r) status
    (PaymentRow_Amount r) (PaymentRow_Currency r) (PaymentRow_CreatedAt r) now.

Definition TransitionPayment (id status : string) : Stmt Z :=
  with_payments (fun t now =>
    update_payments
      (fun r => (PaymentRow_ID r =s? id) && negb (one_of payment_terminal (PaymentRow_Status r)))
      (payment_moved status now) t).

Definition attempt_moved (status : string) (now : Time) (r : AttemptRow) : AttemptRow :=
  mkAttemptRow (AttemptRow_ID r) (AttemptRow_PaymentID r) (AttemptRow_Provider r) status
    (AttemptRow_IdempotencyKey r) (AttemptRow_ProviderSessionID r)
    (AttemptRow_ProviderPaymentIntentID r) (AttemptRow_CheckoutURL r) (AttemptRow_ExpiresAt r)
    (AttemptRow_FailureCode r) (AttemptRow_FailureMessage r) (AttemptRow_CreatedAt r) now.

Definition TransitionPaymentAttempt (id status : string) : Stmt Z :=
  with_attempts (fun t now =>
    update_attempts
      (fun r => (AttemptRow_ID r =s? id) && negb (one_of attempt_terminal (AttemptRow_Status r)))
      (attempt_moved status now) t).

Record BacklogRow := mkBacklogRow {
  Backlog_Pending : Z;
  Backlog_Failed : Z;
  Backlog_Oldest : Duration;
}.

(** [now() - min(t)], zero when there is none. *)
Definition oldest_age (now : Time) (l : list Time) : Duration :=
  match l with [] => 0 | t :: l => now - fold_left Z.min l t end.

Definition WebhookInboxBacklog : Stmt BacklogRow := fun d =>
  let open r := one_of ["pending"; "processing"] (EventRow_Status r) in
  Ok (mkBacklogRow
        (Z.of_nat (length (rows_where open (webhook_events d))))
        (Z.of_nat (length (rows_where (fun r => EventRow_Status r =s? "failed") (webhook_events d))))
        (oldest_age (db_now d) (EventRow_ReceivedAt <$> rows_where open (webhook_events d))), d).

(** ** [webhooks.sql.go] *)

Record InsertOutboxEventParams := mkInsertOutboxEventParams {
  IOE_ID : string;
  IOE_WebhookEventID : string;
  IOE_EventType : string;
  IOE_SchemaVersion : Z;
  IOE_RoutingKey : string;
  IOE_CorrelationID : string;
  IOE_OccurredAt : Time;
  IOE_Status : string;
  IOE_CreatedAt : Time;
}.

Definition InsertOutboxEvent (arg : InsertOutboxEventParams) : Stmt unit := fun d =>
  let r := mkOutboxRow (IOE_ID arg) (IOE_WebhookEventID arg) (IOE_EventType arg) (IOE_SchemaVersion arg)
             (IOE_RoutingKey arg) (IOE_CorrelationID arg) (IOE_OccurredAt arg) (IOE_Status arg)
             0 None None (IOE_CreatedAt arg) (IOE_CreatedAt arg) None None (db_now d) in
  if negb (is_some (webhook_events d !! IOE_WebhookEventID arg)) then Err (fk_violation "outbox_events")
  else try t := insert_table "outbox_events" OutboxRow_ID outbox_check outbox_unique r (outbox_events d) in
       Ok (tt, set_outbox d t).

Record InsertWebhookEventParams := mkInsertWebhookEventParams {
  IWE_ID : string;
  IWE_Provider : string;
  IWE_ProviderEventID : string;
  IWE_EventType : string;
  IWE_RawPayload : string;
  IWE_Payload : string;
  IWE_Status : string;
  IWE_ReceivedAt : Time;
}.

Definition InsertWebhookEvent `{Postgres} (arg : InsertWebhookEventParams) : Stmt string := fun d =>
  match jsonb (IWE_Payload arg) with
  | None => Err (ErrNew "invalid input syntax for type json")
  | Some payload =>
  let r := mkEventRow (IWE_ID arg) (IWE_Provider arg) (IWE_ProviderEventID arg) (IWE_EventType arg)
             (IWE_RawPayload arg) payload (IWE_Status arg) 0 (IWE_ReceivedAt arg)
             None None (IWE_ReceivedAt arg) 0 None in
  if negb (events_check r) then Err (check_violation "webhook_events")
  else if present webhook_events_provider_event_id_key r (webhook_events d) then Err ErrNoRows
  else try t := insert_table "webhook_events" EventRow_ID events_check events_unique r (webhook_events d) in
       Ok (IWE_ID arg, set_events d t)
  end.

(** ** [outbox.sql.go] *)

Record LeaseOutboxBatchRow := mkLeaseOutboxBatchRow {
  LOB_ID : string;
  LOB_WebhookEventID : string;
  LOB_EventType : string;
  LOB_SchemaVersion : Z;
  LOB_RoutingKey : string;
  LOB_CorrelationID : string;
  LOB_OccurredAt : Time;
  LOB_Attempts : Z;
  LOB_LockedUntil : option Time;
}.

(** Which messages the claim considers: pending past their backoff, or leased
    and never settled before the deadline. *)
Definition due (now : Time) (r : OutboxRow) : bool :=
  (OutboxRow_NextAttemptAt r <=? now) &&
  ((OutboxRow_Status r =s? "pending") ||
   ((OutboxRow_Status r =s? "publishing") && sql_elapsed (OutboxRow_LockedUntil r) now)).

Definition by_next_attempt (a b : OutboxRow) : Prop :=
  OutboxRow_NextAttemptAt a <= OutboxRow_NextAttemptAt b.
#[export] Instance by_next_attempt_dec a b : Decision (by_next_attempt a b) := Z_le_dec _ _.

(** The identifiers the claim picks: the oldest due ones, at most [limit]. *)
Definition claimed (now : Time) (limit : Z) (t : gmap string OutboxRow) : list string :=
  OutboxRow_ID <$> take (Z.to_nat limit) (merge_sort by_next_attempt (rows_where (due now) t)).

Definition leased (owner : option string) (until : Time) (now : Time) (r : OutboxRow) : OutboxRow :=
  mkOutboxRow (OutboxRow_ID r) (OutboxRow_WebhookEventID r) (OutboxRow_EventType r)
    (OutboxRow_SchemaVersion r) (OutboxRow_RoutingKey r) (OutboxRow_CorrelationID r)
    (OutboxRow_OccurredAt r) "publishing" (OutboxRow_Attempts r) (OutboxRow_PublishedAt r)
    (OutboxRow_LastError r) (OutboxRow_CreatedAt r) now (Some until) owner (OutboxRow_NextAttemptAt r).

Definition LeaseOutboxBatch `{Postgres} (lease : Duration) (owner : option string) (batchSize : Z)
    : Stmt (list LeaseOutboxBatchRow) :=
  with_outbox (fun t now =>
    if batchSize <? 0 then Err (ErrNew "LIMIT must not be negative") else
    let ids := claimed now batchSize t in
    let p r := one_of ids (OutboxRow_ID r) in
    let f := leased owner (now + make_interval lease) now in
    try (t', _) := update_outbox p f t in
    Ok (t', (fun r => mkLeaseOutboxBatchRow (OutboxRow_ID r) (OutboxRow_WebhookEventID r)
               (OutboxRow_EventType r) (OutboxRow_SchemaVersion r) (OutboxRow_RoutingKey r)
               (OutboxRow_CorrelationID r) (OutboxRow_OccurredAt r) (OutboxRow_Attempts r)
               (OutboxRow_LockedUntil r)) <$> (f <$> rows_where p t))).

(** The guard of every settlement: the message, held by this owner, before the
    deadline. *)
Definition held (id : string) (owner : option string) (now : Time) (r : OutboxRow) : bool :=
  (OutboxRow_ID r =s? id) &&
  (sql_eq (OutboxRow_LockedBy r) owner && sql_after (OutboxRow_LockedUntil r) now).

(** The settled row: no lease, one more attempt. *)
Definition settled (status : string) (published : option Time) (lastError : option string)
    (next : Time) (now : Time) (r : OutboxRow) : OutboxRow :=
  mkOutboxRow (OutboxRow_ID r) (OutboxRow_WebhookEventID r) (OutboxRow_EventType r)
    (OutboxRow_SchemaVersion r) (OutboxRow_RoutingKey r) (OutboxRow_CorrelationID r)
    (OutboxRow_OccurredAt r) status (OutboxRow_Attempts r + 1) published lastError
    (OutboxRow_CreatedAt r) now None None next.

Definition MarkOutboxFailed (lastError : option string) (id : string) (owner : option string) : Stmt Z :=
  with_outbox (fun t now =>
    update_outbox (held id owner now)
      (fun r => settled "failed" (OutboxRow_PublishedAt r) lastError (OutboxRow_NextAttemptAt r) now r) t).

Definition MarkOutboxPublished (id : string) (owner : option string) : Stmt Z :=
  with_outbox (fun t now =>
    update_outbox (held id owner now)
      (fun r => settled "published" (Some now) None (OutboxRow_NextAttemptAt r) now r) t).

Definition MarkOutboxRetryable `{Postgres} (lastError : option string) (backoff : Duration) (id : string)
    (owner : option string) : Stmt Z :=
  with_outbox (fun t now =>
    update_outbox (held id owner now)
      (fun r => settled "pending" (OutboxRow_PublishedAt r) lastError (now + make_interval backoff) now r) t).

Definition OutboxBacklog : Stmt (Z * Duration) := fun d =>
  let waiting := rows_where (fun r => one_of ["pending"; "publishing"] (OutboxRow_Status r)) (outbox_events d) in
  Ok (Z.of_nat (length waiting), oldest_age (db_now d) (OutboxRow_CreatedAt <$> waiting), d).

(** ** [operations.sql.go] *)

(** The columns both inspection statements return: an inbox row and, when it
    has one, its outbox row. *)
Definition InspectionRow : Type := EventRow * option OutboxRow.

(** [LEFT JOIN outbox_events o ON o.webhook_event_id = e.id]. *)
Definition left_join (d : DB) (e : EventRow) : list InspectionRow :=
  match rows_where (fun o => OutboxRow_WebhookEventID o =s? EventRow_ID e) (outbox_events d) with
  | [] => [(e, None)]
  | os => (fun o => (e, Some o)) <$> os
  end.

Definition GetWebhookEvent (id : string) : Stmt InspectionRow :=
  select_one (fun d =>
    e ← rows_where (fun e => (EventRow_ID e =s? id) && true) (webhook_events d); left_join d e).

(** Newest first; identifiers, in byte order, break ties. *)
Definition newest_first (a b : InspectionRow) : Prop :=
  EventRow_ReceivedAt b.1 < EventRow_ReceivedAt a.1 \/
  (EventRow_ReceivedAt a.1 = EventRow_ReceivedAt b.1 /\
   String.leb (EventRow_ID b.1) (EventRow_ID a.1) = true).
#[export] Instance newest_first_dec a b : Decision (newest_first a b).
Proof. unfold newest_first. apply _. Defined.

Definition ListWebhookEvents (status : string) (limit : Z) : Stmt (list InspectionRow) := fun d =>
  if limit <? 0 then Err (ErrNew "LIMIT must not be negative") else
  let rows := e ← rows_where (fun e => (status =s? "") || (EventRow_Status e =s? status)) (webhook_events d);
              left_join d e in
  Ok (take (Z.to_nat limit) (merge_sort newest_first rows), d).

Definition LockWebhookEventForReplay (id : string) : Stmt (string * string) :=
  select_one (fun d =>
    e ← rows_where (fun e => (EventRow_ID e =s? id) && true) (webhook_events d);
    o ← rows_where (fun o => OutboxRow_WebhookEventID o =s? EventRow_ID e) (outbox_events d);
    [(EventRow_Status e, OutboxRow_Status o)]).

Definition ResetOutboxForReplay (webhookEventID : string) : Stmt Z :=
  with_outbox (fun t now =>
    update_outbox
      (fun r => (OutboxRow_WebhookEventID r =s? webhookEventID) &&
                one_of ["published"; "failed"] (OutboxRow_Status r))
      (fun r => mkOutboxRow (OutboxRow_ID r) (OutboxRow_WebhookEventID r) (OutboxRow_EventType r)
         (OutboxRow_SchemaVersion r) (OutboxRow_RoutingKey r) (OutboxRow_CorrelationID r)
         (OutboxRow_OccurredAt r) "pending" 0 None None (OutboxRow_CreatedAt r) now None None now) t).

Definition reset_event (now : Time) (r : EventRow) : EventRow :=
  let failed := EventRow_Status r =s? "failed" in
  mkEventRow (EventRow_ID r) (EventRow_Provider r) (EventRow_ProviderEventID r)
    (EventRow_EventType r) (EventRow_RawPayload r) (EventRow_Payload r)
    (if failed then "pending" else EventRow_Status r)
    (if failed then 0 else EventRow_Attempts r) (EventRow_ReceivedAt r)
    (if failed then None else EventRow_ProcessedAt r)
    (if failed then None else EventRow_LastError r) now
    (EventRow_ReplayCount r + 1) (Some now).

Definition ResetWebhookEventForReplay (id : string) : Stmt Z :=
  with_events (fun t now =>
    update_events (fun r => (EventRow_ID r =s? id) && one_of ["pending"; "failed"] (EventRow_Status r))
      (reset_event now) t).

(** ** Lemmas *)

Lemma set_orders_id d : set_orders d (orders d) = d. Proof. by destruct d. Qed.
Lemma set_payments_id d : set_payments d (payments d) = d. Proof. by destruct d. Qed.
Lemma set_attempts_id d : set_attempts d (payment_attempts d) = d. Proof. by destruct d. Qed.
Lemma set_events_id d : set_events d (webhook_events d) = d. Proof. by destruct d. Qed.
Lemma set_outbox_id d : set_outbox d (outbox_events d) = d. Proof. by destruct d. Qed.

Definition preserves {A} (s : Stmt A) : Prop :=
  forall d a d', schema d -> s d = Ok (a, d') -> schema d'.

(** A statement that reads leaves the database alone. *)
Lemma select_one_Ok {A} (rows : DB -> list A) d a d' :
  select_one rows d = Ok (a, d') -> d' = d /\ head (rows d) = Some a.
Proof. unfold select_one. destruct (rows d); simpl; [done|]. by intros [= -> ->]. Qed.

Lemma select_one_preserves {A} (rows : DB -> list A) : preserves (select_one rows).
Proof. intros d a d' Hs (-> & _)%select_one_Ok. done. Qed.

(** The shape of every single-table update. *)
Lemma with_Ok {T A} (r : res (T * A)) (set : T -> DB) (a : A) d' :
  (try (t, a) := r in Ok (a, set t)) = Ok (a, d') -> exists t, r = Ok (t, a) /\ d' = set t.
Proof. destruct r as [[t b]|]; simpl; [|done]. intros [= -> <-]. eauto. Qed.

Section Preservation.
Context `{Postgres}.

Lemma AttachAttemptReferences_schema s p id : preserves (AttachAttemptReferences s p id).
Proof. intros d a d' Hs (t & Hu & ->)%with_Ok. by eapply schema_update_attempts. Qed.

Lemma MarkOrderPaid_schema id : preserves (MarkOrderPaid id).
Proof. intros d a d' Hs (t & Hu & ->)%with_Ok. by eapply schema_update_orders. Qed.

Lemma MarkWebhookEventProcessed_schema id note : preserves (MarkWebhookEventProcessed id note).
Proof. intros d a d' Hs (t & Hu & ->)%with_Ok. by eapply schema_update_events. Qed.

Lemma RecordWebhookEventFailure_schema b n l id : preserves (RecordWebhookEventFailure b n l id).
Proof.
  intros d a d' Hs (t & Hu & ->)%with_Ok. revert Hu. cbv zeta.
  destruct (update_events _ _ _) as [[t' k]|] eqn:E; simpl; [|done].
  destruct (scan_one _) as [r|]; simpl; [|done]. intros [= -> <-].
  by eapply schema_update_events.
Qed.

Lemma TransitionPayment_schema id st : preserves (TransitionPayment id st).
Proof. intros d a d' Hs (t & Hu & ->)%with_Ok. by eapply schema_update_payments. Qed.

Lemma TransitionPaymentAttempt_schema id st : preserves (TransitionPaymentAttempt id st).
Proof. intros d a d' Hs (t & Hu & ->)%with_Ok. by eapply schema_update_attempts. Qed.

Lemma MarkOutboxFailed_schema l id o : preserves (MarkOutboxFailed l id o).
Proof. intros d a d' Hs (t & Hu & ->)%with_Ok. by eapply schema_update_outbox. Qed.

Lemma MarkOutboxPublished_schema id o : preserves (MarkOutboxPublished id o).
Proof. intros d a d' Hs (t & Hu & ->)%with_Ok. by eapply schema_update_outbox. Qed.

Lemma MarkOutboxRetryable_schema l b id o : preserves (MarkOutboxRetryable l b id o).
Proof. intros d a d' Hs (t & Hu & ->)%with_Ok. by eapply schema_update_outbox. Qed.

Lemma LeaseOutboxBatch_schema l o n : preserves (LeaseOutboxBatch l o n).
Proof.
  intros d a d' Hs (t & Hu & ->)%with_Ok. revert Hu. case_match; [done|]. cbv zeta.
  destruct (update_outbox _ _ _) as [[t' k]|] eqn:E; simpl; [|done]. intros [= -> <-].
  by eapply schema_update_outbox.
Qed.

Lemma ResetOutboxForReplay_schema id : preserves (ResetOutboxForReplay id).
Proof. intros d a d' Hs (t & Hu & ->)%with_Ok. by eapply schema_update_outbox. Qed.

Lemma ResetWebhookEventForReplay_schema id : preserves (ResetWebhookEventForReplay id).
Proof. intros d a d' Hs (t & Hu & ->)%with_Ok. by eapply schema_update_events. Qed.

Lemma InsertWebhookEvent_schema arg : preserves (InsertWebhookEvent arg).
Proof.
  intros d a d' Hs. unfold InsertWebhookEvent. destruct (jsonb _); [|done].
  repeat (case_match; [done|]). destruct (insert_table _ _ _ _ _ _) as [t|] eqn:E; simpl; [|done].
  intros [= <- <-]. apply insert_table_Ok in E as (Et & Hn & Hc & Hu).
  pose proof (outbox_events_webhook_event_fkey _ Hs) as Hfk. destruct Hs. split; simpl; try done.
  - subst t. by apply keyed_insert.
  - subst t. by apply map_Forall_insert_2.
  - intros i o Hi. destruct (Hfk _ _ Hi) as (e & He).
    subst t. rewrite lookup_insert. case_decide; eauto.
  - by apply unique_okb_spec.
Qed.

Lemma InsertOutboxEvent_schema arg : preserves (InsertOutboxEvent arg).
Proof.
  intros d a d' Hs. unfold InsertOutboxEvent.
  destruct (webhook_events d !! IOE_WebhookEventID arg) as [e|] eqn:Ee; simpl; [|done].
  destruct (insert_table _ _ _ _ _ _) as [t|] eqn:E; simpl; [|done].
  intros [= <- <-]. apply insert_table_Ok in E as (Et & Hn & Hc & Hu).
  pose proof (outbox_events_webhook_event_fkey _ Hs) as Hfk. destruct Hs. split; simpl; try done.
  - subst t. by apply keyed_insert.
  - subst t. by apply map_Forall_insert_2.
  - intros i o. subst t. rewrite lookup_insert. case_decide; [|by eauto].
    intros [= <-]. simpl. by rewrite Ee.
  - by apply unique_okb_spec.
Qed.
End Preservation.

#[export] Hint Resolve AttachAttemptReferences_schema MarkOrderPaid_schema MarkWebhookEventProcessed_schema
  RecordWebhookEventFailure_schema TransitionPayment_schema TransitionPaymentAttempt_schema
  MarkOutboxFailed_schema MarkOutboxPublished_schema MarkOutboxRetryable_schema LeaseOutboxBatch_schema
  ResetOutboxForReplay_schema ResetWebhookEventForReplay_schema InsertWebhookEvent_schema
  InsertOutboxEvent_schema select_one_preserves : go.

(** *** What the consumer's statements do to a well-formed database *)

Lemma TransitionPayment_spec d id st :
  schema d -> one_of ["pending"; "processing"; "succeeded"; "failed"; "cancelled"; "partially_refunded"; "refunded"] st = true ->
  TransitionPayment id st d =
    match payments d !! id with
    | Some r => if negb (one_of payment_terminal (PaymentRow_Status r))
                then Ok (1, set_payments d (<[id := payment_moved st (db_now d) r]> (payments d)))
                else Ok (0, d)
    | None => Ok (0, d)
    end.
Proof.
  intros Hs Hst. unfold TransitionPayment, with_payments, update_payments.
  pose proof (payments_active_unique _ Hs) as Hu.
  rewrite (update_table_pk _ PaymentRow_ID).
  - destruct (payments d !! id); [case_match|]; simpl; rewrite ?set_payments_id; done.
  - apply Hs.
  - by apply unique_okb_spec.
  - intros r Hr Hc. pose proof (payments_ok _ Hs _ _ Hr) as Hk. split.
    + unfold payments_check in *. simpl.
      apply andb_true_iff in Hk as [[_ Ha]%andb_true_iff Hcur]. by rewrite Hst, Ha, Hcur.
    + apply unique_okb_spec. eapply unique_shrink; [done| |done].
      unfold payments_order_id_active_key. simpl.
      destruct (one_of ["failed"; "cancelled"] st); [by left|right].
      destruct (one_of ["failed"; "cancelled"] (PaymentRow_Status r)) eqn:E; [exfalso|done].
      unfold one_of in *. simpl in *.
      destruct (PaymentRow_Status r =s? "succeeded"), (PaymentRow_Status r =s? "failed"),
        (PaymentRow_Status r =s? "cancelled"); done.
Qed.

Lemma TransitionPaymentAttempt_spec d id st :
  schema d -> one_of ["created"; "pending"; "succeeded"; "failed"; "expired"; "cancelled"] st = true ->
  TransitionPaymentAttempt id st d =
    match payment_attempts d !! id with
    | Some r => if negb (one_of attempt_terminal (AttemptRow_Status r))
                then Ok (1, set_attempts d (<[id := attempt_moved st (db_now d) r]> (payment_attempts d)))
                else Ok (0, d)
    | None => Ok (0, d)
    end.
Proof.
  intros Hs Hst. unfold TransitionPaymentAttempt, with_attempts, update_attempts.
  rewrite (update_table_pk _ AttemptRow_ID).
  - destruct (payment_attempts d !! id); [case_match|]; simpl; rewrite ?set_attempts_id; done.
  - apply Hs.
  - apply attempts_unique_spec. by destruct Hs.
  - intros r Hr Hc. split; [done|]. apply attempts_unique_spec.
    split_and!; (eapply unique_shrink; [done| |by destruct Hs]); try by right.
    unfold payment_attempts_payment_id_active_key. simpl.
    destruct (one_of ["failed"; "expired"; "cancelled"] st); [by left|right].
    destruct (one_of ["failed"; "expired"; "cancelled"] (AttemptRow_Status r)) eqn:E; [exfalso|done].
    unfold one_of in *. simpl in *.
    destruct (AttemptRow_Status r =s? "succeeded"), (AttemptRow_Status r =s? "failed"),
      (AttemptRow_Status r =s? "expired"), (AttemptRow_Status r =s? "cancelled"); done.
Qed.

Definition order_paid (now : Time) (r : OrderRow) : OrderRow :=
  mkOrderRow (OrderRow_ID r) "paid" (OrderRow_Amount r) (OrderRow_Currency r)
    (OrderRow_ProductID r) (OrderRow_Quantity r) (OrderRow_IdempotencyKey r) (OrderRow_CreatedAt r) now.

Lemma MarkOrderPaid_spec d id :
  schema d ->
  MarkOrderPaid id d =
    match orders d !! id with
    | Some r => if OrderRow_Status r =s? "pending"
                then Ok (1, set_orders d (<[id := order_paid (db_now d) r]> (orders d)))
                else Ok (0, d)
    | None => Ok (0, d)
    end.
Proof.
  intros Hs. unfold MarkOrderPaid, with_orders, update_orders.
  rewrite (update_table_pk _ OrderRow_ID).
  - destruct (orders d !! id); [case_match|]; simpl; rewrite ?set_orders_id; done.
  - apply Hs.
  - apply unique_okb_spec, Hs.
  - intros r Hr Hc. pose proof (orders_ok _ Hs _ _ Hr) as Hk. split.
    + unfold orders_check in *. simpl.
      apply andb_true_iff in Hk as [[[_ Ha]%andb_true_iff Hcur]%andb_true_iff Hq]. by rewrite Ha, Hcur, Hq.
    + apply unique_okb_spec. eapply unique_shrink; [done| by right |apply Hs].
Qed.

Definition event_processed (note : option string) (now : Time) (r : EventRow) : EventRow :=
  mkEventRow (EventRow_ID r) (EventRow_Provider r) (EventRow_ProviderEventID r)
    (EventRow_EventType r) (EventRow_RawPayload r) (EventRow_Payload r)
    "processed" (EventRow_Attempts r + 1) (EventRow_ReceivedAt r) (Some now) note now
    (EventRow_ReplayCount r) (EventRow_LastReplayedAt r).

Lemma events_check_bounds r : events_check r = true ->
  0 <= EventRow_Attempts r <= MaxInt32 /\ 0 <= EventRow_ReplayCount r <= MaxInt32.
Proof. unfold events_check, int4. intros. go_bool. lia. Qed.

Lemma update_event_spec d id c f :
  schema d ->
  (forall r, webhook_events d !! id = Some r -> c r = true ->
     events_check (f r) = true /\ EventRow_Provider (f r) = EventRow_Provider r /\
     EventRow_ProviderEventID (f r) = EventRow_ProviderEventID r) ->
  update_events (fun r => (EventRow_ID r =s? id) && c r) f (webhook_events d) =
    match webhook_events d !! id with
    | Some r => if c r then Ok (<[id := f r]> (webhook_events d), 1) else Ok (webhook_events d, 0)
    | None => Ok (webhook_events d, 0)
    end.
Proof.
  intros Hs Hf. apply update_table_pk; [apply Hs|apply unique_okb_spec, Hs|].
  intros r Hr Hc. destruct (Hf r Hr Hc) as (? & Ep & Ei). split; [done|].
  apply unique_okb_spec. eapply unique_shrink; [done| |apply Hs]. right.
  unfold webhook_events_provider_event_id_key. by rewrite Ep, Ei.
Qed.

Lemma MarkWebhookEventProcessed_spec d id note r :
  schema d -> webhook_events d !! id = Some r -> EventRow_Attempts r < MaxInt32 ->
  MarkWebhookEventProcessed id note d =
    if EventRow_Status r <>s? "processed"
    then Ok (1, set_events d (<[id := event_processed note (db_now d) r]> (webhook_events d)))
    else Ok (0, d).
Proof.
  intros Hs Hr Ha. unfold MarkWebhookEventProcessed, with_events.
  rewrite (update_event_spec d id (fun r => EventRow_Status r <>s? "processed")); [|done|].
  - rewrite Hr. case_match; simpl; rewrite ?set_events_id; done.
  - intros s Hrs _. simplify_eq. pose proof (events_check_bounds _ (events_ok _ Hs _ _ Hr)) as [? ?].
    split; [|done]. unfold events_check, int4, MaxInt32 in *. simpl.
    repeat (apply andb_true_iff; split); lia.
Qed.

Lemma RecordWebhookEventFailure_spec d b n l id :
  schema d ->
  RecordWebhookEventFailure b n l id d =
    match webhook_events d !! id with
    | None => Err ErrNoRows
    | Some r =>
        let r' := failure_update b n l (db_now d) r in
        if events_check r'
        then Ok (mkRecordWebhookEventFailureRow (EventRow_Attempts r') (EventRow_Status r' =s? "failed"),
                 set_events d (<[id := r']> (webhook_events d)))
        else Err (check_violation "webhook_events")
    end.
Proof.
  intros Hs. unfold RecordWebhookEventFailure, with_events. cbv zeta.
  destruct (webhook_events d !! id) as [r|] eqn:Hr.
  - destruct (events_check (failure_update b n l (db_now d) r)) eqn:Hc.
    + rewrite (update_event_spec d id (fun _ => true)); [|done|intros s Hs' _; by simplify_eq].
      rewrite Hr. simpl. rewrite (rows_where_pk EventRow_ID id (fun _ => true)), Hr by apply Hs. done.
    + unfold update_events, update_table. rewrite (update_pk EventRow_ID) by apply Hs.
      rewrite (rows_where_pk EventRow_ID id (fun _ => true)), Hr by apply Hs. simpl.
      rewrite Hc. done.
  - rewrite (update_event_spec d id (fun _ => true)); [|done|intros s Hs' _; by simplify_eq].
    rewrite Hr. simpl. by rewrite (rows_where_pk EventRow_ID id (fun _ => true)), Hr by apply Hs.
Qed.

Lemma LockWebhookEvent_spec d id :
  schema d ->
  LockWebhookEvent id d = match webhook_events d !! id with Some r => Ok (r, d) | None => Err ErrNoRows end.
Proof.
  intros Hs. unfold LockWebhookEvent, select_one.
  rewrite (rows_where_pk EventRow_ID id (fun _ => true)) by apply Hs. by destruct (webhook_events d !! id).
Qed.

(** The join returns the row of a consistent reference and nothing otherwise. *)
Lemma LockPaymentAggregate_spec d att pay ord :
  schema d ->
  LockPaymentAggregate att pay ord d =
    match payment_attempts d !! att, payments d !! pay, orders d !! ord with
    | Some a, Some p, Some o =>
        if (PaymentRow_ID p =s? AttemptRow_PaymentID a) && (PaymentRow_Provider p =s? AttemptRow_Provider a) &&
           (OrderRow_ID o =s? PaymentRow_OrderID p)
        then Ok (mkLockPaymentAggregateRow (OrderRow_ID o) (OrderRow_Status o) (PaymentRow_ID p)
                   (PaymentRow_Status p) (PaymentRow_Provider p) (PaymentRow_Amount p) (PaymentRow_Currency p)
                   (AttemptRow_ID a) (AttemptRow_Status a) (AttemptRow_ProviderSessionID a), d)
        else Err ErrNoRows
    | _, _, _ => Err ErrNoRows
    end.
Proof.
  intros Hs. unfold LockPaymentAggregate, select_one.
  rewrite (rows_where_pk AttemptRow_ID att (fun _ => true)) by apply Hs.
  destruct (payment_attempts d !! att) as [a|]; [|done]. simpl.
  rewrite (rows_where_pk PaymentRow_ID pay) by apply Hs.
  destruct (payments d !! pay) as [p|]; [|done].
  destruct ((PaymentRow_ID p =s? AttemptRow_PaymentID a) && (PaymentRow_Provider p =s? AttemptRow_Provider a)); simpl;
    [|by destruct (orders d !! ord)].
  rewrite (rows_where_pk OrderRow_ID ord) by apply Hs.
  destruct (orders d !! ord) as [o|]; [|done]. by destruct (OrderRow_ID o =s? PaymentRow_OrderID p).
Qed.
