(* ===== verification/Consumer.v ===== *)
(** * The consuming use case: [internal/application/consumer]

    The ports ([ports.go]) as interfaces, and the service ([service.go]) that
    turns one message into a disposition. [Repository] is what the service is
    proved against; [EventRepo] implements it over PostgreSQL. *)

From S2P Require Import Prelude GoLib Payments Transitions Webhooks.

(** ** [ports.go] *)

Definition ErrIncompatibleAPIVersion : error :=
  ErrSentinel "consumer.ErrIncompatibleAPIVersion" "provider event uses an incompatible API version".
Definition ErrUnreadablePayload : error :=
  ErrSentinel "consumer.ErrUnreadablePayload" "provider payload could not be interpreted".
Definition ErrMissingReference : error :=
  ErrSentinel "consumer.ErrMissingReference" "provider event carries no local reference".
Definition ErrAggregateNotFound : error :=
  ErrSentinel "consumer.ErrAggregateNotFound" "referenced payment aggregate does not exist".
Definition ErrReferenceMismatch : error :=
  ErrSentinel "consumer.ErrReferenceMismatch" "provider event references an inconsistent aggregate".
Definition ErrAmountMismatch : error :=
  ErrSentinel "consumer.ErrAmountMismatch" "provider amount does not match the local payment".
Definition ErrStateConflict : error :=
  ErrSentinel "consumer.ErrStateConflict" "provider event contradicts a settled state".
Definition ErrInvariantViolated : error :=
  ErrSentinel "consumer.ErrInvariantViolated" "approved transition matched no row".

Record SessionOutcome := mkSessionOutcome {
  SessionOutcome_OrderID : string;
  SessionOutcome_PaymentID : string;
  SessionOutcome_AttemptID : string;
  SessionOutcome_SessionID : string;
  SessionOutcome_PaymentIntentID : string;
  SessionOutcome_Amount : Z;
  SessionOutcome_Currency : string;
  SessionOutcome_Outcome : Outcome;
  SessionOutcome_OccurredAt : Time;
}.

Record Aggregate := mkAggregate {
  Aggregate_OrderID : string;
  Aggregate_OrderStatus : string;
  Aggregate_PaymentID : string;
  Aggregate_PaymentStatus : Payments.Status;
  Aggregate_Provider : string;
  Aggregate_Amount : Z;
  Aggregate_Currency : string;
  Aggregate_AttemptID : string;
  Aggregate_AttemptStatus : AttemptStatus;
  Aggregate_SessionID : string;
}.

Record InboxEntry := mkInboxEntry {
  InboxEntry_Event : Event;
  InboxEntry_Attempts : Z;
  InboxEntry_Status : Webhooks.Status;
}.

Record Reference := mkReference {
  Reference_OrderID : string;
  Reference_PaymentID : string;
  Reference_AttemptID : string;
}.

Record Effect := mkEffect {
  Effect_AttemptStatus : AttemptStatus;
  Effect_PaymentStatus : Payments.Status;
  Effect_OrderPaid : bool;
  Effect_Note : string;
}.

Record Result := mkResult { Result_Applied : bool; Result_Note : string }.

(** The zero values [var outcome], [var applied] and [var locked] start from. *)
Definition zero_outcome : SessionOutcome := mkSessionOutcome "" "" "" "" "" 0 "" "" 0.
Definition zero_effect : Effect := mkEffect "" "" false "".
Definition zero_aggregate : Aggregate := mkAggregate "" "" "" "" "" 0 "" "" "" "".

(** [Interpreter]: reads a stored inbox entry. *)
Class Interpreter : Type := {
  Interpret : Event -> res SessionOutcome;
  Interpreter_Provider : Webhooks.Provider;
}.

(** [Resolver] and [Decider] are closures: they read and assign the variables
    [S] of the function that built them. *)
Definition Resolver (S : Type) : Type := InboxEntry -> M S Reference.
Definition Decider (S : Type) : Type := InboxEntry -> Aggregate -> M S Effect.

(** [Repository], over the world [W] it keeps its rows in. *)
Class Repository (W : Type) : Type := {
  Process : forall S : Type, string -> Resolver S -> Decider S -> M (W * S) Result;
  RecordFailure : string -> error -> bool -> Z -> M W (Z * bool);
}.
Arguments Process {W _ S} _ _ _ _.

(** What the service relies on. [inbox] observes the durable status and attempt
    count of an entry and [stable] is the invariant of the world. A successful
    [Process] leaves the entry processed, no call ever lowers its attempt
    count, and [RecordFailure] counts the attempt and decides, in the same
    step, whether the entry is closed as failed. *)
Class RepositoryContract (W : Type) `{Repository W} : Type := {
  inbox : W -> string -> option (Webhooks.Status * Z);
  stable : W -> Prop;
  Process_stable : forall S id (r : Resolver S) d w c out w' c', stable w ->
    Process id r d (w, c) = (out, (w', c')) -> stable w';
  Process_closes : forall S id (r : Resolver S) d w c result w' c', stable w ->
    Process id r d (w, c) = (Ok result, (w', c')) ->
    exists n, inbox w' id = Some (StatusProcessed, n);
  Process_monotone : forall S id (r : Resolver S) d w c out w' c' st n, stable w ->
    Process id r d (w, c) = (out, (w', c')) -> inbox w id = Some (st, n) ->
    exists st' n', inbox w' id = Some (st', n') /\ n <= n';
  RecordFailure_stable : forall id cause terminal max w out w', stable w ->
    RecordFailure id cause terminal max w = (out, w') -> stable w';
  RecordFailure_counts : forall id cause terminal max w attempts failed w', stable w -> in_int32 max ->
    RecordFailure id cause terminal max w = (Ok (attempts, failed), w') ->
    match inbox w id with
    | None => attempts = 0 /\ failed = true /\ inbox w' id = None
    | Some (st, n) =>
        0 <= n /\ attempts = n + 1 /\
        (failed = true -> inbox w' id = Some (StatusFailed, attempts)) /\
        (failed = false -> st <> StatusFailed /\ inbox w' id = Some (st, attempts) /\
                           terminal = false /\ attempts < max)
    end;
}.

(** ** [service.go]: data *)

Inductive Disposition : Type := DispositionDone | DispositionRetry | DispositionDead.

#[export] Instance Disposition_eq_dec : EqDecision Disposition.
Proof. solve_decision. Defined.

Definition Disposition_String (d : Disposition) : string :=
  match d with
  | DispositionDone => "done"
  | DispositionRetry => "retry"
  | DispositionDead => "dead"
  end.

Record Handling := mkHandling {
  Handling_Disposition : Disposition;
  Handling_Attempts : Z;
  Handling_Cause : option error;
  Handling_Note : string;
  Handling_Applied : bool;
}.
Definition zero_handling : Handling := mkHandling DispositionDone 0 None "" false.

Definition Entity : Type := string.
Definition EntityOrder : Entity := "order".
Definition EntityPayment : Entity := "payment".
Definition EntityAttempt : Entity := "attempt".

Record Transition := mkTransition {
  Transition_Entity : Entity;
  Transition_From : string;
  Transition_To : string;
}.

Record Report := mkReport {
  Report_Disposition : Disposition;
  Report_Duration : Duration;
  Report_Applied : bool;
  Report_AlreadyProcessed : bool;
  Report_Transitions : list Transition;
  Report_Cause : option error;
  Report_Err : option error;
}.
Definition zero_report : Report := mkReport DispositionDone 0 false false [] None None.

(** What observers are told. An observer that is also a [HandlingObserver]
    receives the reports. *)
Inductive Notification : Type :=
| Applied (eventID : string) (effect : Effect)
| NoOp (eventID note : string)
| Retrying (eventID : string) (attempts : Z) (cause : error)
| DeadLettered (eventID : string) (attempts : Z) (cause : error)
| Handled (eventID : string) (report : Report).

Record Observer := mkObserver { Observer_Name : string; Observer_Extended : bool }.

Record Config := mkConfig { Config_MaxAttempts : Z }.
Definition DefaultMaxAttempts : Z := 10.
Definition withDefaults (c : Config) : Config :=
  if Config_MaxAttempts c <? 2 then mkConfig DefaultMaxAttempts else c.

Record TestHooks := mkTestHooks { AfterCommit : option (string -> Result -> option error) }.

Record Service := mkService {
  observers : list Observer;
  config : Config;
  testHooks : TestHooks;
}.

(** [NewService] applies its options in order. *)
Definition ServiceOption : Type := Service -> Service.
Definition WithObserver (observer : option Observer) : ServiceOption := fun s =>
  match observer with
  | Some o => mkService (observers s ++ [o]) (config s) (testHooks s)
  | None => s
  end.
Definition WithTestHooks (hooks : TestHooks) : ServiceOption := fun s =>
  mkService (observers s) (config s) hooks.
Definition NewService (c : Config) (opts : list ServiceOption) : Service :=
  fold_left (fun s option => option s) opts (mkService [] (withDefaults c) (mkTestHooks None)).

Definition eachObserver (s : Service) (n : Notification) : list (string * Notification) :=
  (fun o => (Observer_Name o, n)) <$> observers s.
Definition eachHandlingObserver (s : Service) (n : Notification) : list (string * Notification) :=
  (fun o => (Observer_Name o, n)) <$> List.filter Observer_Extended (observers s).

(** ** [service.go]: classification of failures *)

Definition terminalErrors : list error :=
  [ErrIncompatibleAPIVersion; ErrUnreadablePayload; ErrMissingReference; ErrAggregateNotFound;
   ErrReferenceMismatch; ErrAmountMismatch; ErrStateConflict; ErrInvariantViolated].

Definition isTerminal (err : error) : bool := existsb (Is err) terminalErrors.

(** [fmt.Errorf("%w: <text>", err)]. *)
Definition errorf (err : error) (text : string) : error := ErrWrap "" err (": " +:+ text).

Section Decide.
Context `{UnicodeTables}.

Definition decideEffect (outcome : SessionOutcome) (aggregate : Aggregate)
    (expectedProvider : string) : res Effect :=
  if negb (EqualFold (Aggregate_Provider aggregate) expectedProvider)
  then Err (errorf ErrReferenceMismatch
              ("event provider " +:+ expectedProvider +:+ ", local payment provider is " +:+
               Aggregate_Provider aggregate))
  else if negb (SessionOutcome_Amount outcome =? Aggregate_Amount aggregate) ||
          negb (EqualFold (SessionOutcome_Currency outcome) (Aggregate_Currency aggregate))
  then Err (errorf ErrAmountMismatch
              ("provider settled " +:+ pretty (SessionOutcome_Amount outcome) +:+ " " +:+
               SessionOutcome_Currency outcome +:+ ", local payment is " +:+
               pretty (Aggregate_Amount aggregate) +:+ " " +:+ Aggregate_Currency aggregate))
  else if (Aggregate_SessionID aggregate <>s? "") && (SessionOutcome_SessionID outcome <>s? "") &&
          (Aggregate_SessionID aggregate <>s? SessionOutcome_SessionID outcome)
  then Err (errorf ErrReferenceMismatch
              ("event carries session " +:+ SessionOutcome_SessionID outcome +:+
               ", attempt holds " +:+ Aggregate_SessionID aggregate))
  else
    let transition := Decide (SessionOutcome_Outcome outcome) (Aggregate_PaymentStatus aggregate)
                        (Aggregate_AttemptStatus aggregate) in
    match Transition_Decision transition with
    | DecisionApply =>
        Ok (mkEffect (Transition_Attempt transition) (Transition_Payment transition)
              (Transition_OrderPaid transition) (Transition_Reason transition))
    | DecisionNoOp => Ok (mkEffect "" "" false (Transition_Reason transition))
    | DecisionConflict => Err (errorf ErrStateConflict (Transition_Reason transition))
    end.
End Decide.

(** The state changes a report lists. *)
Definition transitions (aggregate : Aggregate) (effect : Effect) : list Transition :=
  (if Effect_AttemptStatus effect <>s? ""
   then [mkTransition EntityAttempt (Aggregate_AttemptStatus aggregate) (Effect_AttemptStatus effect)] else []) ++
  (if Effect_PaymentStatus effect <>s? ""
   then [mkTransition EntityPayment (Aggregate_PaymentStatus aggregate) (Effect_PaymentStatus effect)] else []) ++
  (if Effect_OrderPaid effect
   then [mkTransition EntityOrder (Aggregate_OrderStatus aggregate) "paid"] else []).

(** ** [service.go]: handling one message *)

(** The variables the two closures of [handle] capture. *)
Record Captured := mkCaptured {
  cap_outcome : SessionOutcome;
  cap_applied : Effect;
  cap_decided : bool;
  cap_locked : Aggregate;
}.
Definition captured_zero : Captured := mkCaptured zero_outcome zero_effect false zero_aggregate.

Section Service.
Context `{UnicodeTables} `{Interpreter} {W : Type} `{Repository W}.

(** The resolver [handle] passes to [Process]. *)
Definition resolve : Resolver Captured := fun entry c =>
  if Event_Provider (InboxEntry_Event entry) <>s? Interpreter_Provider
  then (Err (errorf ErrReferenceMismatch
               ("event provider " +:+ Event_Provider (InboxEntry_Event entry) +:+
                " cannot be read by " +:+ Interpreter_Provider +:+ " interpreter")), c)
  else match Interpret (InboxEntry_Event entry) with
       | Err err => (Err err, c)
       | Ok interpreted =>
           (Ok (mkReference (SessionOutcome_OrderID interpreted)
                  (SessionOutcome_PaymentID interpreted) (SessionOutcome_AttemptID interpreted)),
            mkCaptured interpreted (cap_applied c) (cap_decided c) (cap_locked c))
       end.

(** The decider [handle] passes to [Process]; a failing [decideEffect]
    returns the zero effect beside its error. *)
Definition decider : Decider Captured := fun _ aggregate c =>
  match decideEffect (cap_outcome c) aggregate Interpreter_Provider with
  | Ok effect => (Ok effect, mkCaptured (cap_outcome c) effect true aggregate)
  | Err err => (Err err, mkCaptured (cap_outcome c) zero_effect true aggregate)
  end.

(** What a [handle] call returns, emits and leaves behind. *)
Definition Answer : Type := Handling * Report * option error * list (string * Notification) * W.

Definition classify (s : Service) (eventID : string) (cause : error) (w : W) : Answer :=
  let terminal := isTerminal cause in
  let '(recorded, w) := RecordFailure eventID cause terminal (Config_MaxAttempts (config s)) w in
  match recorded with
  | Err recordErr =>
      (zero_handling, mkReport DispositionDone 0 false false [] (Some cause) None,
       Some (ErrWrap2 "record consumer failure: " recordErr " (cause: " cause ")"), [], w)
  | Ok (attempts, failed) =>
      let terminal := if attempts =? 0 then true else failed in
      let cause :=
        if terminal && negb (isTerminal cause) && (Config_MaxAttempts (config s) <=? attempts)
        then ErrWrap ("giving up after " +:+ pretty attempts +:+ " attempts: ") cause ""
        else cause in
      if terminal
      then (mkHandling DispositionDead attempts (Some cause) "" false,
            mkReport DispositionDead 0 false false [] (Some cause) None, None,
            eachObserver s (DeadLettered eventID attempts cause), w)
      else (mkHandling DispositionRetry attempts (Some cause) "" false,
            mkReport DispositionRetry 0 false false [] (Some cause) None, None,
            eachObserver s (Retrying eventID attempts cause), w)
  end.

Definition handle (s : Service) (eventID : string) (w : W) : Answer :=
  let '(processed, (w, c)) := Process eventID resolve decider (w, captured_zero) in
  match processed with
  | Err err => classify s eventID err w
  | Ok result =>
      match (match AfterCommit (testHooks s) with Some hook => hook eventID result | None => None end) with
      | Some err => (zero_handling, zero_report, Some (wrapf "after consumer commit" err), [], w)
      | None =>
          let note := if Result_Applied result then Applied eventID (cap_applied c)
                      else NoOp eventID (Result_Note result) in
          (mkHandling DispositionDone 0 None (Result_Note result) (Result_Applied result),
           mkReport DispositionDone 0 (Result_Applied result)
             (negb (Result_Applied result) && negb (cap_decided c))
             (if Result_Applied result then transitions (cap_locked c) (cap_applied c) else [])
             None None,
           None, eachObserver s note, w)
      end
  end.

(** [elapsed] is what [time.Since] measured. *)
Definition Handle (s : Service) (eventID : string) (elapsed : Duration) (w : W)
    : Handling * option error * list (string * Notification) * W :=
  let '(handling, report, err, log, w) := handle s eventID w in
  let report := mkReport (Report_Disposition report) elapsed (Report_Applied report)
                  (Report_AlreadyProcessed report) (Report_Transitions report)
                  (Report_Cause report) err in
  (handling, err, log ++ eachHandlingObserver s (Handled eventID report), w).
End Service.

(** ** Lemmas *)

Lemma withDefaults_range c : 2 <= Config_MaxAttempts (withDefaults c).
Proof. unfold withDefaults, DefaultMaxAttempts. destruct (Z.ltb_spec (Config_MaxAttempts c) 2); simpl; lia. Qed.

Lemma isTerminal_errorf e text : isTerminal (errorf e text) = isTerminal e.
Proof. reflexivity. Qed.

Section DecideLemmas.
Context `{UnicodeTables}.

(** Everything [decideEffect] checked before it consulted the matrix. *)
Record matches (o : SessionOutcome) (a : Aggregate) (provider : string) : Prop := {
  matches_provider : EqualFold (Aggregate_Provider a) provider = true;
  matches_amount : SessionOutcome_Amount o = Aggregate_Amount a;
  matches_currency : EqualFold (SessionOutcome_Currency o) (Aggregate_Currency a) = true;
  matches_session : Aggregate_SessionID a = "" \/ SessionOutcome_SessionID o = "" \/
                    Aggregate_SessionID a = SessionOutcome_SessionID o;
}.

Lemma decideEffect_cases o a provider :
  (matches o a provider /\
   decideEffect o a provider =
     let t := Decide (SessionOutcome_Outcome o) (Aggregate_PaymentStatus a) (Aggregate_AttemptStatus a) in
     match Transition_Decision t with
     | DecisionApply => Ok (mkEffect (Transition_Attempt t) (Transition_Payment t) (Transition_OrderPaid t)
                              (Transition_Reason t))
     | DecisionNoOp => Ok (mkEffect "" "" false (Transition_Reason t))
     | DecisionConflict => Err (errorf ErrStateConflict (Transition_Reason t))
     end) \/
  (~ matches o a provider /\
   exists e text, decideEffect o a provider = Err (errorf e text) /\
     (e = ErrReferenceMismatch \/ e = ErrAmountMismatch)).
Proof.
  unfold decideEffect.
  destruct (EqualFold (Aggregate_Provider a) provider) eqn:E1; simpl;
    [|right; split; [intros []; congruence | eauto]].
  destruct (Z.eqb_spec (SessionOutcome_Amount o) (Aggregate_Amount a)); simpl;
    [|right; split; [intros []; congruence | eauto]].
  destruct (EqualFold (SessionOutcome_Currency o) _) eqn:E2; simpl;
    [|right; split; [intros []; congruence | eauto]].
  destruct (String.eqb_spec (Aggregate_SessionID a) ""), (String.eqb_spec (SessionOutcome_SessionID o) ""),
    (String.eqb_spec (Aggregate_SessionID a) (SessionOutcome_SessionID o)); simpl;
    first [left; split; [by split; auto | done]
          |right; split; [intros [? ? ? [?|[?|?]]]; congruence | eauto]].
Qed.

Lemma decideEffect_Ok o a provider effect :
  decideEffect o a provider = Ok effect ->
  matches o a provider /\
  let t := Decide (SessionOutcome_Outcome o) (Aggregate_PaymentStatus a) (Aggregate_AttemptStatus a) in
  effect = mkEffect (Transition_Attempt t) (Transition_Payment t) (Transition_OrderPaid t) (Transition_Reason t) /\
  (Transition_Decision t = DecisionApply \/
   (Transition_Attempt t = "" /\ Transition_Payment t = "" /\ Transition_OrderPaid t = false)).
Proof.
  destruct (decideEffect_cases o a provider) as [[Hm ->]|(_ & e & text & -> & _)]; [|done].
  cbv zeta. split; [done|].
  destruct (Transition_Decision (Decide _ _ _)) eqn:E; simplify_eq; [by auto|].
  destruct (not_apply_no_target (SessionOutcome_Outcome o) (Aggregate_PaymentStatus a)
              (Aggregate_AttemptStatus a)) as (-> & -> & ->); [congruence|]. auto.
Qed.

Lemma decideEffect_Err o a provider err :
  decideEffect o a provider = Err err -> isTerminal err = true.
Proof.
  destruct (decideEffect_cases o a provider) as [[Hm ->]|(_ & e & text & -> & [-> | ->])]; simpl;
    [destruct (Transition_Decision _); try done | |]; by intros [= <-].
Qed.
End DecideLemmas.

Section ServiceLemmas.
Context `{UnicodeTables} `{Interpreter} {W : Type} `{RepositoryContract W}.

Definition answer_handling (a : Answer (W:=W)) : Handling := a.1.1.1.1.
Definition answer_err (a : Answer (W:=W)) : option error := a.1.1.2.
Definition answer_world (a : Answer (W:=W)) : W := a.2.

(** What a disposition says about the durable entry. *)
Definition durable (h : Handling) (max : Z) (id : string) (w w' : W) : Prop :=
  match Handling_Disposition h with
  | DispositionDone => exists n, inbox w' id = Some (StatusProcessed, n)
  | DispositionDead =>
      (inbox w' id = None /\ Handling_Attempts h = 0) \/
      (inbox w' id = Some (StatusFailed, Handling_Attempts h) /\ 0 < Handling_Attempts h)
  | DispositionRetry =>
      exists st cause, st <> StatusFailed /\ inbox w' id = Some (st, Handling_Attempts h) /\
        0 < Handling_Attempts h < max /\ Handling_Cause h = Some cause /\ isTerminal cause = false
  end.

Lemma classify_durable s id cause w w0 :
  stable w -> in_int32 (Config_MaxAttempts (config s)) ->
  let a := classify s id cause w in
  stable (answer_world a) /\
  (answer_err a = None ->
   durable (answer_handling a) (Config_MaxAttempts (config s)) id w0 (answer_world a)).
Proof.
  intros Hw Hmax. unfold classify. cbv zeta.
  destruct (RecordFailure id cause (isTerminal cause) (Config_MaxAttempts (config s)) w) as [out w'] eqn:E.
  pose proof (RecordFailure_stable _ _ _ _ _ _ _ Hw E) as Hw'.
  destruct out as [[attempts failed]|err]; [|done].
  pose proof (RecordFailure_counts _ _ _ _ _ _ _ _ Hw Hmax E) as Hc.
  destruct (inbox w id) as [[st n]|].
  - destruct Hc as (Hn & -> & Hf & Hnf).
    replace (n + 1 =? 0) with false by lia.
    destruct failed; simpl; (split; [done|]; intros _); unfold durable; simpl.
    + right. split; [by apply Hf | lia].
    + destruct (Hnf eq_refl) as (? & ? & ? & ?). eauto 10 with lia.
  - destruct Hc as (-> & -> & Hnone). simpl. split; [done|]. intros _. unfold durable. simpl. auto.
Qed.

Lemma handle_durable s id w :
  stable w -> in_int32 (Config_MaxAttempts (config s)) ->
  let a := handle s id w in
  stable (answer_world a) /\
  (answer_err a = None ->
   durable (answer_handling a) (Config_MaxAttempts (config s)) id w (answer_world a)).
Proof.
  intros Hw Hmax. unfold handle. cbv zeta.
  destruct (Process id resolve decider (w, captured_zero)) as [out [w' c']] eqn:E.
  pose proof (Process_stable _ _ _ _ _ _ _ _ _ Hw E) as Hw'.
  destruct out as [result|err]; [|by apply classify_durable].
  destruct (match AfterCommit (testHooks s) with Some _ => _ | None => _ end); [done|].
  split; [done|]. intros _. exact (Process_closes _ _ _ _ _ _ _ _ _ Hw E).
Qed.

(** Attempts never go down, and every retry answer has counted one more. *)
Lemma handle_counts s id w st n :
  stable w -> in_int32 (Config_MaxAttempts (config s)) -> inbox w id = Some (st, n) ->
  let a := handle s id w in
  answer_err a = None -> Handling_Disposition (answer_handling a) = DispositionRetry ->
  n < Handling_Attempts (answer_handling a).
Proof.
  intros Hw Hmax Hin. unfold handle. cbv zeta.
  destruct (Process id resolve decider (w, captured_zero)) as [out [w' c']] eqn:E.
  pose proof (Process_stable _ _ _ _ _ _ _ _ _ Hw E) as Hw'.
  destruct (Process_monotone _ _ _ _ _ _ _ _ _ _ _ Hw E Hin) as (st' & n' & Hin' & Hle).
  destruct out as [result|err].
  - by destruct (match AfterCommit (testHooks s) with Some _ => _ | None => _ end).
  - unfold classify. cbv zeta.
    destruct (RecordFailure id err (isTerminal err) (Config_MaxAttempts (config s)) w') as [out w2] eqn:E2.
    destruct out as [[attempts failed]|err']; [|done].
    pose proof (RecordFailure_counts _ _ _ _ _ _ _ _ Hw' Hmax E2) as Hc. rewrite Hin' in Hc.
    destruct Hc as (Hn & -> & _). replace (n' + 1 =? 0) with false by lia.
    destruct failed; simpl; [done|]. intros _ _. lia.
Qed.

(** [k] deliveries of one message, all answered with a retry. *)
Fixpoint retried (s : Service) (id : string) (k : nat) (w : W) : option W :=
  match k with
  | O => Some w
  | S k =>
      let a := handle s id w in
      match answer_err a, Handling_Disposition (answer_handling a) with
      | None, DispositionRetry => retried s id k (answer_world a)
      | _, _ => None
      end
  end.

Lemma retried_bound s id k w w' st n :
  stable w -> in_int32 (Config_MaxAttempts (config s)) -> inbox w id = Some (st, n) ->
  retried s id k w = Some w' ->
  exists st' n', inbox w' id = Some (st', n') /\ n + Z.of_nat k <= n' /\
    (k = 0%nat \/ n' < Config_MaxAttempts (config s)).
Proof.
  revert w st n. induction k as [|k IH]; intros w st n Hw Hmax Hin; simpl.
  - intros [= ->]. exists st, n. split; [done|]. split; [lia | by left].
  - destruct (answer_err (handle s id w)) eqn:Ee; [done|].
    destruct (Handling_Disposition (answer_handling (handle s id w))) eqn:Ed; try done.
    pose proof (handle_durable s id w Hw Hmax) as [Hw' Hd]. specialize (Hd Ee).
    pose proof (handle_counts s id w st n Hw Hmax Hin Ee Ed) as Hlt.
    unfold durable in Hd. rewrite Ed in Hd. destruct Hd as (st1 & cause & Hst & Hin1 & Hb & _).
    intros Hr. destruct (IH _ _ _ Hw' Hmax Hin1 Hr) as (st' & n' & Hin' & Hle & Hb').
    exists st', n'. split; [done|]. split; [lia|]. right.
    destruct Hb' as [->|?]; [|done]. simpl in Hr. simplify_eq. lia.
Qed.
End ServiceLemmas.

(** ** Properties *)

(** Money safety of one decision. An effect is approved only when the
    event's provider, amount, currency and, where both are known, session match
    the locked payment, and it is exactly what the matrix answers. It pays the
    order only for a provider success, together with a payment that moves to
    succeeded. Every refusal is terminal, so it is never retried. *)
Theorem decideEffect_safe `{UnicodeTables} (o : SessionOutcome) (a : Aggregate) (provider : string) :
  match decideEffect o a provider with
  | Ok effect =>
      matches o a provider /\
      (Effect_OrderPaid effect = true ->
         SessionOutcome_Outcome o = OutcomeSucceeded /\
         Effect_PaymentStatus effect = Payments.StatusSucceeded /\
         paymentSettled (Aggregate_PaymentStatus a) = false) /\
      (Effect_PaymentStatus effect <> "" -> paymentSettled (Aggregate_PaymentStatus a) = false) /\
      (Effect_AttemptStatus effect <> "" -> attemptSettled (Aggregate_AttemptStatus a) = false)
  | Err err => isTerminal err = true /\
      (matches o a provider ->
         Transition_Decision (Decide (SessionOutcome_Outcome o) (Aggregate_PaymentStatus a)
                                (Aggregate_AttemptStatus a)) = DecisionConflict)
  end.
Proof.
  destruct (decideEffect o a provider) as [effect|err] eqn:E.
  - apply decideEffect_Ok in E as (Hm & -> & Hd). simpl.
    set (t := Decide _ _ _) in *. split; [done|].
    destruct Hd as [Hd|(-> & -> & ->)]; [|done].
    pose proof (apply_unsettled _ _ _ Hd) as Hu. split_and!; [|done|].
    + intros Hp. destruct (order_paid_apply _ _ _ Hp) as (? & _ & ?). by split_and!.
    + intros Ha. by destruct (apply_attempt_unsettled _ _ _ Hd Ha).
  - split; [by eapply decideEffect_Err|]. intros Hm.
    destruct (decideEffect_cases o a provider) as [[_ E']|[Hn _]]; [|done].
    rewrite E' in E. cbv zeta in E. by destruct (Transition_Decision (Decide _ _ _)) in E |- *.
Qed.
