(* ===== verification/EventRepo.v ===== *)
(** * The event repository: [internal/adapters/postgres/repositories/events.go]

    [Process] applies one event in one transaction; [RecordFailure] counts a
    failed attempt in its own statement. The instance at the end discharges
    the contract the consuming service is proved against. *)

From S2P Require Import Prelude GoLib Orders Payments Transitions Webhooks Errsanitize Store Queries Consumer.

(** [errorText], shared with the outbox repository, and [nullableText]. *)
Definition errorText (err : option error) : option string :=
  match err with
  | None => None
  | Some err => Some (Sanitize (Error err))
  end.

Definition nullableText (value : string) : option string :=
  if value =s? "" then None else Some (Truncate value MaxLength).

(** [lockEntry]: the [Event] keeps its [Kind] unset. *)
Definition entry_of_row (row : EventRow) : InboxEntry :=
  mkInboxEntry
    (mkEvent (EventRow_ID row) (EventRow_Provider row) (EventRow_ProviderEventID row)
       (EventRow_EventType row) KindUnknown (EventRow_RawPayload row) (EventRow_Payload row)
       (EventRow_Status row) (UTC (EventRow_ReceivedAt row)))
    (EventRow_Attempts row) (EventRow_Status row).

Definition lockEntry (eventID : string) : M Store InboxEntry :=
  gwrap (fun err => if Is err ErrNoRows
                    then errorf ErrAggregateNotFound ("webhook event " +:+ eventID)
                    else wrapf "lock webhook event" err)
    (let! row := exec (LockWebhookEvent eventID) in gret (entry_of_row row)).

Definition aggregate_of_row (row : LockPaymentAggregateRow) : Aggregate :=
  mkAggregate (LPA_OrderID row) (LPA_OrderStatus row) (LPA_PaymentID row) (LPA_PaymentStatus row)
    (LPA_Provider row) (LPA_Amount row) (LPA_Currency row) (LPA_AttemptID row) (LPA_AttemptStatus row)
    (match LPA_SessionID row with Some s => s | None => "" end).

Definition lockAggregate {S} (entry : InboxEntry) (resolve : Resolver S) : M (Store * S) Aggregate :=
  let! reference := on_captured (resolve entry) in
  gwrap (fun err => if Is err ErrNoRows
                    then errorf ErrReferenceMismatch
                           ("attempt " +:+ Reference_AttemptID reference +:+
                            ", payment " +:+ Reference_PaymentID reference +:+
                            ", order " +:+ Reference_OrderID reference)
                    else wrapf "lock payment aggregate" err)
    (let! row := on_store (exec (LockPaymentAggregate (Reference_AttemptID reference)
                   (Reference_PaymentID reference) (Reference_OrderID reference))) in
     gret (aggregate_of_row row)).

(** One guarded write of [applyEffect]: the statement must match one row. *)
Definition move_one (stmt : Stmt Z) (what : string) (subject : string) : M Store unit :=
  let! affected := gwrap (wrapf what) (exec stmt) in
  if negb (affected =? 1)
  then gfail (errorf ErrInvariantViolated (subject +:+ " matched " +:+ pretty affected +:+ " rows"))
  else gret tt.

Definition applyEffect (aggregate : Aggregate) (effect : Effect) : M Store bool :=
  let! applied :=
    (if Effect_AttemptStatus effect <>s? ""
     then let! _ := move_one (TransitionPaymentAttempt (Aggregate_AttemptID aggregate) (Effect_AttemptStatus effect))
                      "transition payment attempt"
                      ("attempt " +:+ Aggregate_AttemptID aggregate +:+ " to " +:+ Effect_AttemptStatus effect) in
          gret true
     else gret false) in
  let! applied :=
    (if Effect_PaymentStatus effect <>s? ""
     then let! _ := move_one (TransitionPayment (Aggregate_PaymentID aggregate) (Effect_PaymentStatus effect))
                      "transition payment"
                      ("payment " +:+ Aggregate_PaymentID aggregate +:+ " to " +:+ Effect_PaymentStatus effect) in
          gret true
     else gret applied) in
  let! applied :=
    (if Effect_OrderPaid effect
     then let! _ := move_one (MarkOrderPaid (Aggregate_OrderID aggregate)) "mark order paid"
                      ("order " +:+ Aggregate_OrderID aggregate +:+ " to paid") in
          gret true
     else gret applied) in
  gret applied.

(** [Process] after [BeginTx]: everything under the deferred rollback. *)
Definition process_in_tx {S} (eventID : string) (resolve : Resolver S) (decide : Decider S)
    : M (Store * S) Result :=
  let! entry := on_store (lockEntry eventID) in
  if InboxEntry_Status entry =s? Webhooks.StatusProcessed
  then gret (mkResult false "event was already processed")
  else
    let! aggregate := lockAggregate entry resolve in
    let! effect := on_captured (decide entry aggregate) in
    on_store (
      let! applied := applyEffect aggregate effect in
      let! _ := gwrap (wrapf "mark webhook event processed")
                  (exec (MarkWebhookEventProcessed eventID (nullableText (Effect_Note effect)))) in
      let! _ := gwrap (wrapf "commit consumer transaction") Commit in
      gret (mkResult applied (Effect_Note effect))).

Definition EventRepository_Process {S} (eventID : string) (resolve : Resolver S) (decide : Decider S)
    : M (Store * S) Result :=
  let! _ := on_store (gwrap (wrapf "begin consumer transaction") BeginTx) in
  deferring_rollback (process_in_tx eventID resolve decide).

Definition EventRepository_RecordFailure (eventID : string) (cause : error) (terminal : bool)
    (maxAttempts : Z) : M Store (Z * bool) := fun s =>
  let text := match errorText (Some cause) with
              | None => Some "unspecified failure"
              | Some t => Some t
              end in
  let '(row, s) := exec (RecordWebhookEventFailure terminal (wrap32 maxAttempts) text eventID) s in
  match row with
  | Err err => if Is err ErrNoRows then (Ok (0, true), s)
               else (Err (wrapf "record webhook event failure" err), s)
  | Ok row => (Ok (RWEF_Attempts row, RWEF_Failed row), s)
  end.

Definition EventRepository_Backlog `{Postgres} : M Store (Z * Z * Duration) :=
  let! row := gwrap (wrapf "read inbox backlog") (exec WebhookInboxBacklog) in
  gret (Backlog_Pending row, Backlog_Failed row, age_seconds (Backlog_Oldest row)).

#[export] Instance EventRepository : Repository Store := {
  Process S := EventRepository_Process;
  RecordFailure := EventRepository_RecordFailure;
}.

(** ** Specification: what a committed event leaves behind

    [event_db] is the database after the approved effect, in one piece: the
    attempt, the payment and the order it moves, and the entry processed. *)
Definition event_db (id : string) (agg : Aggregate) (eff : Effect) (d : DB) : DB :=
  let now := db_now d in
  mkDB (if Effect_OrderPaid eff then alter (order_paid now) (Aggregate_OrderID agg) (orders d) else orders d)
    (if Effect_PaymentStatus eff <>s? ""
     then alter (payment_moved (Effect_PaymentStatus eff) now) (Aggregate_PaymentID agg) (payments d)
     else payments d)
    (if Effect_AttemptStatus eff <>s? ""
     then alter (attempt_moved (Effect_AttemptStatus eff) now) (Aggregate_AttemptID agg) (payment_attempts d)
     else payment_attempts d)
    (alter (event_processed (nullableText (Effect_Note eff)) now) id (webhook_events d))
    (outbox_events d) now.

(** The rows the effect moved could be moved. *)
Record movable (agg : Aggregate) (eff : Effect) (d : DB) : Prop := {
  movable_attempt : Effect_AttemptStatus eff <> "" ->
    exists a, payment_attempts d !! Aggregate_AttemptID agg = Some a /\
      one_of attempt_terminal (AttemptRow_Status a) = false;
  movable_payment : Effect_PaymentStatus eff <> "" ->
    exists p, payments d !! Aggregate_PaymentID agg = Some p /\
      one_of payment_terminal (PaymentRow_Status p) = false;
  movable_order : Effect_OrderPaid eff = true ->
    exists o, orders d !! Aggregate_OrderID agg = Some o /\ OrderRow_Status o = "pending";
}.

Definition writes (eff : Effect) : bool :=
  (Effect_AttemptStatus eff <>s? "") || (Effect_PaymentStatus eff <>s? "") || Effect_OrderPaid eff.

(** The database between [applyEffect] and the mark on the entry. *)
Definition effect_db (agg : Aggregate) (eff : Effect) (d : DB) : DB :=
  set_events (event_db "" agg eff d) (webhook_events d).

(** ** Lemmas *)

Lemma move_one_Ok stmt what subject s s' :
  move_one stmt what subject s = (Ok tt, s') -> stmt (st_db s) = Ok (1, st_db s').
Proof.
  intros H. unfold move_one in H. inv_bind H. apply exec_Ok in Hm. revert H.
  destruct (Z.eqb_spec a 1) as [->|]; simpl; [|done]. intros [= <-]. done.
Qed.

Lemma tx_safe_move_one stmt what subject : tx_safe (move_one stmt what subject).
Proof.
  unfold move_one. apply tx_safe_bind; [auto with go|]. intros a. destruct (negb (a =? 1)); auto with go.
Qed.
#[export] Hint Resolve tx_safe_move_one : go.

Lemma tx_safe_lockEntry id : tx_safe (lockEntry id).
Proof. unfold lockEntry. auto 10 with go. Qed.

Lemma tx_safe_applyEffect agg eff : tx_safe (applyEffect agg eff).
Proof.
  unfold applyEffect.
  apply tx_safe_bind; [case_match; auto with go|]. intros b1.
  apply tx_safe_bind; [case_match; auto with go|]. intros b2.
  apply tx_safe_bind; [case_match; auto with go|]. auto with go.
Qed.

(** One guarded write, seen from the table it moves a row of. *)
Lemma TransitionPaymentAttempt_one d id st d' :
  schema d -> TransitionPaymentAttempt id st d = Ok (1, d') ->
  exists a, payment_attempts d !! id = Some a /\ one_of attempt_terminal (AttemptRow_Status a) = false /\
    d' = set_attempts d (alter (attempt_moved st (db_now d)) id (payment_attempts d)).
Proof.
  intros Hs (t & Hu & ->)%with_Ok.
  apply (update_one _ AttemptRow_ID) in Hu as (a & Ha & Hc & _ & ->); [|apply Hs|done].
  apply negb_true_iff in Hc. eauto.
Qed.

Lemma TransitionPayment_one d id st d' :
  schema d -> TransitionPayment id st d = Ok (1, d') ->
  exists p, payments d !! id = Some p /\ one_of payment_terminal (PaymentRow_Status p) = false /\
    d' = set_payments d (alter (payment_moved st (db_now d)) id (payments d)).
Proof.
  intros Hs (t & Hu & ->)%with_Ok.
  apply (update_one _ PaymentRow_ID) in Hu as (a & Ha & Hc & _ & ->); [|apply Hs|done].
  apply negb_true_iff in Hc. eauto.
Qed.

Lemma MarkOrderPaid_one d id d' :
  schema d -> MarkOrderPaid id d = Ok (1, d') ->
  exists o, orders d !! id = Some o /\ OrderRow_Status o = "pending" /\
    d' = set_orders d (alter (order_paid (db_now d)) id (orders d)).
Proof.
  intros Hs (t & Hu & ->)%with_Ok.
  apply (update_one _ OrderRow_ID) in Hu as (a & Ha & Hc & _ & ->); [|apply Hs|done].
  apply String.eqb_eq in Hc. eauto.
Qed.

(** A step of [applyEffect]: skipped when there is nothing to move. *)
Lemma step_Ok (b : bool) (stmt : Stmt Z) what subject (skip : bool) s x s' :
  (if b then (let! _ := move_one stmt what subject in gret true) else gret skip) s = (Ok x, s') ->
  (b = true /\ x = true /\ stmt (st_db s) = Ok (1, st_db s')) \/ (b = false /\ x = skip /\ s' = s).
Proof.
  destruct b; intros H.
  - inv_bind H. destruct a. apply move_one_Ok in Hm. injection H as <- <-. auto.
  - injection H as <- <-. auto.
Qed.

Lemma applyEffect_Ok agg eff s b s' :
  schema (st_db s) -> applyEffect agg eff s = (Ok b, s') ->
  st_db s' = effect_db agg eff (st_db s) /\ b = writes eff /\ movable agg eff (st_db s) /\ schema (st_db s').
Proof.
  intros Hs H. unfold applyEffect in H.
  inv_bind H. inv_bind H. inv_bind H. injection H as <- <-.
  apply step_Ok in Hm as Ha. apply step_Ok in Hm0 as Hp. apply step_Ok in Hm1 as Ho. clear Hm Hm0 Hm1.
  assert (schema (st_db w)) as Hs1.
  { destruct Ha as [(_ & _ & E)|(_ & _ & ->)]; [|done]. by eapply TransitionPaymentAttempt_schema. }
  assert (schema (st_db w0)) as Hs2.
  { destruct Hp as [(_ & _ & E)|(_ & _ & ->)]; [|done]. by eapply TransitionPayment_schema. }
  assert (schema (st_db w1)) as Hs3.
  { destruct Ho as [(_ & _ & E)|(_ & _ & ->)]; [|done]. by eapply MarkOrderPaid_schema. }
  assert (st_db w1 = effect_db agg eff (st_db s) /\ movable agg eff (st_db s)) as [? ?].
  { unfold effect_db, event_db.
    destruct Ha as [(Ea & _ & E1)|(Ea & _ & ->)]; [apply TransitionPaymentAttempt_one in E1 as (ra & Hra & Hta & E1); [|done]|];
    (destruct Hp as [(Ep & _ & E2)|(Ep & _ & ->)]; [apply TransitionPayment_one in E2 as (rp & Hrp & Htp & E2); [|done]|]);
    (destruct Ho as [(Eo & _ & E3)|(Eo & _ & ->)]; [apply MarkOrderPaid_one in E3 as (ro & Hro & Hto & E3); [|done]|]);
    rewrite Ea, Ep, Eo; rewrite ?E3, ?E2, ?E1; rewrite ?E2, ?E1 in *; rewrite ?E1 in *; simpl in *;
    (split; [by destruct (st_db s) | split; intros He; go_bool; simplify_eq; eauto; congruence]). }
  split_and!; try done.
  destruct Ha as [(Ea & -> & _)|(Ea & -> & _)], Hp as [(Ep & -> & _)|(Ep & -> & _)],
    Ho as [(Eo & -> & _)|(Eo & -> & _)]; unfold writes; rewrite Ea, Ep, Eo; done.
Qed.

(** *** The body of the transaction *)

Lemma lockEntry_Ok id s entry s' :
  schema (st_db s) -> lockEntry id s = (Ok entry, s') ->
  exists row, webhook_events (st_db s) !! id = Some row /\ entry = entry_of_row row /\ st_db s' = st_db s.
Proof.
  intros Hs H. unfold lockEntry in H. apply gwrap_Ok in H. inv_bind H. apply exec_Ok in Hm.
  rewrite LockWebhookEvent_spec in Hm by done. injection H as <- <-.
  destruct (webhook_events (st_db s) !! id) as [row|] eqn:E; [|done]. injection Hm as -> <-. eauto.
Qed.

(** The locked aggregate is a consistent attempt, payment and order. *)
Record aggregate_at (d : DB) (agg : Aggregate) (a : AttemptRow) (p : PaymentRow) (o : OrderRow) : Prop := {
  at_attempt : payment_attempts d !! Aggregate_AttemptID agg = Some a;
  at_payment : payments d !! Aggregate_PaymentID agg = Some p;
  at_order : orders d !! Aggregate_OrderID agg = Some o;
  at_payment_of : AttemptRow_PaymentID a = Aggregate_PaymentID agg;
  at_order_of : PaymentRow_OrderID p = Aggregate_OrderID agg;
  at_attempt_status : AttemptRow_Status a = Aggregate_AttemptStatus agg;
  at_payment_status : PaymentRow_Status p = Aggregate_PaymentStatus agg;
  at_order_status : OrderRow_Status o = Aggregate_OrderStatus agg;
  at_provider : PaymentRow_Provider p = Aggregate_Provider agg;
  at_amount : PaymentRow_Amount p = Aggregate_Amount agg;
  at_currency : PaymentRow_Currency p = Aggregate_Currency agg;
  at_session : AttemptRow_ProviderSessionID a = Some (Aggregate_SessionID agg) \/ Aggregate_SessionID agg = "";
}.

Lemma LockPaymentAggregate_Ok d att pay ord row d' :
  schema d -> LockPaymentAggregate att pay ord d = Ok (row, d') ->
  d' = d /\ exists a p o, aggregate_at d (aggregate_of_row row) a p o /\
    Aggregate_AttemptID (aggregate_of_row row) = att /\ Aggregate_PaymentID (aggregate_of_row row) = pay /\
    Aggregate_OrderID (aggregate_of_row row) = ord.
Proof.
  intros Hs. rewrite LockPaymentAggregate_spec by done.
  destruct (payment_attempts d !! att) as [a|] eqn:Ea; [|done].
  destruct (payments d !! pay) as [p|] eqn:Ep; [|done].
  destruct (orders d !! ord) as [o|] eqn:Eo; [|done].
  case_match eqn:E; [|done]. intros [= <- <-]. split; [done|]. go_bool.
  pose proof (attempts_keyed _ Hs _ _ Ea) as Ka. pose proof (payments_keyed _ Hs _ _ Ep) as Kp.
  pose proof (orders_keyed _ Hs _ _ Eo) as Ko.
  exists a, p, o. split; [|done]. split; simpl; try congruence.
  destruct (AttemptRow_ProviderSessionID a); auto.
Qed.

Lemma on_store_inv {S A} (m : M Store A) s (c : S) r w :
  on_store m (s, c) = (r, w) -> exists s', m s = (r, s') /\ w = (s', c).
Proof. simpl. destruct (m s) as [r1 s1]. intros [= <- <-]. eauto. Qed.

Lemma on_captured_inv {S A} (m : M S A) s (c : S) r w :
  on_captured (S:=S) m (s, c) = (r, w) -> exists c', m c = (r, c') /\ w = (s, c').
Proof. simpl. destruct (m c) as [r1 c1]. intros [= <- <-]. eauto. Qed.

Lemma lockAggregate_saved {S} entry (r : Resolver S) s c out s' c' :
  lockAggregate entry r (s, c) = (out, (s', c')) -> st_saved s' = st_saved s.
Proof.
  unfold lockAggregate, gbind. simpl. destruct (r entry c) as [[ref|err] c1]; [|by intros [= _ <- _]].
  unfold gwrap, gbind. simpl. destruct (exec _ s) as [[row|err] s1] eqn:E; intros [= _ <- _];
    by eapply exec_saved.
Qed.

Lemma lockAggregate_Ok {S} entry (r : Resolver S) s c agg s' c' :
  schema (st_db s) -> lockAggregate entry r (s, c) = (Ok agg, (s', c')) ->
  st_db s' = st_db s /\ exists ref a p o, r entry c = (Ok ref, c') /\ aggregate_at (st_db s) agg a p o /\
    Aggregate_AttemptID agg = Reference_AttemptID ref /\ Aggregate_PaymentID agg = Reference_PaymentID ref /\
    Aggregate_OrderID agg = Reference_OrderID ref.
Proof.
  intros Hs. unfold lockAggregate, gbind. simpl. destruct (r entry c) as [[ref|err] c1] eqn:Er; [|done].
  unfold gwrap, gbind. simpl. destruct (exec _ s) as [[row|err] s1] eqn:E; [|done].
  simpl. intros [= <- <- <-]. apply exec_Ok in E.
  apply LockPaymentAggregate_Ok in E as (-> & a & p & o & Hat & ? & ? & ?); [|done].
  split; [done|]. by exists ref, a, p, o.
Qed.

(** The one way the transaction commits. *)
Inductive committed {S} (id : string) (r : Resolver S) (d : Decider S) (c c' : S) (db db' : DB) (result : Result)
    : Prop :=
| Committed row ref agg a p o eff c1
    (Hrow : webhook_events db !! id = Some row)
    (Hopen : EventRow_Status row <> Webhooks.StatusProcessed)
    (Hresolve : r (entry_of_row row) c = (Ok ref, c1))
    (Hat : aggregate_at db agg a p o)
    (Href : Aggregate_AttemptID agg = Reference_AttemptID ref /\ Aggregate_PaymentID agg = Reference_PaymentID ref /\
            Aggregate_OrderID agg = Reference_OrderID ref)
    (Hdecide : d (entry_of_row row) agg c1 = (Ok eff, c'))
    (Hmovable : movable agg eff db)
    (Hdb : db' = event_db id agg eff db)
    (Hresult : result = mkResult (writes eff) (Effect_Note eff)).

Definition already_processed (db : DB) (id : string) (result : Result) : Prop :=
  result = mkResult false "event was already processed" /\
  exists row, webhook_events db !! id = Some row /\ EventRow_Status row = Webhooks.StatusProcessed.

Lemma effect_db_event_db id agg eff d row :
  webhook_events d !! id = Some row ->
  set_events (effect_db agg eff d)
    (alter (event_processed (nullableText (Effect_Note eff)) (db_now d)) id (webhook_events d))
  = event_db id agg eff d.
Proof. done. Qed.

(** From the decision to the commit. *)
Lemma settle_spec id agg eff s s' out row (m := (
      let! applied := applyEffect agg eff in
      let! _ := gwrap (wrapf "mark webhook event processed")
                  (exec (MarkWebhookEventProcessed id (nullableText (Effect_Note eff)))) in
      let! _ := gwrap (wrapf "commit consumer transaction") Commit in
      gret (mkResult applied (Effect_Note eff)))) :
  schema (st_db s) -> webhook_events (st_db s) !! id = Some row ->
  EventRow_Status row <> Webhooks.StatusProcessed -> m s = (out, s') ->
  (st_saved s' = st_saved s /\ exists e, out = Err e) \/
  (st_saved s' = None /\ schema (st_db s') /\ st_db s' = event_db id agg eff (st_db s) /\
   movable agg eff (st_db s) /\
   (out = Ok (mkResult (writes eff) (Effect_Note eff)) \/ exists e, out = Err e)).
Proof.
  intros Hs Hrow Hne. subst m. unfold gbind at 1.
  destruct (applyEffect agg eff s) as [[b|e] s1] eqn:E1.
  2:{ intros [= <- <-]. left. split; [by eapply tx_safe_applyEffect | eauto]. }
  pose proof (tx_safe_applyEffect _ _ _ _ _ E1) as Hv1.
  apply applyEffect_Ok in E1 as (Hd1 & -> & Hmov & Hs1); [|done].
  unfold gbind at 1, gwrap at 1. destruct (exec _ s1) as [[n|e] s2] eqn:E2; simpl.
  2:{ intros [= <- <-]. left. split; [by apply exec_saved in E2; congruence | eauto]. }
  pose proof (exec_saved _ _ _ _ E2) as Hv2. apply exec_Ok in E2.
  assert (schema (st_db s2)) as Hs2 by (by eapply MarkWebhookEventProcessed_schema).
  apply with_Ok in E2 as (t & Hu & Hd2).
  assert (webhook_events (st_db s1) !! id = Some row) as Hrow1 by (by rewrite Hd1).
  apply (update_row _ EventRow_ID _ _ id _ _ _ _ _ row) in Hu as (_ & -> & ->);
    [|apply Hs1|done|by apply negb_true_iff, String.eqb_neq].
  unfold gbind, gwrap. destruct (Commit s2) as [[[]|e] s3] eqn:E3; simpl; intros [= <- <-].
  - apply Commit_Ok in E3 as [Hd3 Hv3]. right. split_and!; try done; rewrite ?Hd3; [done| |by left].
    rewrite Hd2, Hd1. reflexivity.
  - apply Commit_cases in E3 as [Hd3 [Hv3|[Hv3 _]]].
    + right. split_and!; try done; rewrite ?Hd3; [done| |by eauto]. by rewrite Hd2, Hd1.
    + left. split; [congruence | eauto].
Qed.

Lemma deferring_rollback_inv {S A} (m : M (Store * S) A) s c out w :
  deferring_rollback m (s, c) = (out, w) ->
  exists s' c', m (s, c) = (out, (s', c')) /\ w = (Rollback s', c').
Proof. unfold deferring_rollback. destruct (m (s, c)) as [o [s' c']]. intros [= <- <-]. eauto. Qed.

Lemma rolled_back s db : st_saved s = Some db -> idle (Rollback s) /\ st_db (Rollback s) = db.
Proof. intros H. by destruct (Rollback_saved _ _ H). Qed.

Lemma process_in_tx_spec {S} id (r : Resolver S) (d : Decider S) s c out s' c' :
  schema (st_db s) -> process_in_tx id r d (s, c) = (out, (s', c')) ->
  (st_saved s' = st_saved s /\ forall result, out = Ok result -> already_processed (st_db s) id result) \/
  (idle s' /\ schema (st_db s') /\
   exists result, committed id r d c c' (st_db s) (st_db s') result /\
     (out = Ok result \/ exists e, out = Err e)).
Proof.
  intros Hs. unfold process_in_tx, gbind at 1. simpl.
  destruct (lockEntry id s) as [[entry|e] s1] eqn:E1.
  2:{ intros [= <- <- <-]. left. split; [by eapply tx_safe_lockEntry | done]. }
  pose proof (tx_safe_lockEntry _ _ _ _ E1) as Hv1.
  apply lockEntry_Ok in E1 as (row & Hrow & -> & Hd1); [|done]. rewrite <- Hd1 in Hs, Hrow |- *.
  destruct (String.eqb_spec (InboxEntry_Status (entry_of_row row)) Webhooks.StatusProcessed) as [Hp|Hp].
  { intros [= <- <- <-]. left. split; [done|]. intros result [= <-]. split; [done|]. by exists row. }
  unfold gbind at 1. destruct (lockAggregate _ r (s1, c)) as [[agg|e] [s2 c2]] eqn:E2.
  2:{ intros [= <- <- <-]. left. apply lockAggregate_saved in E2. split; [congruence | done]. }
  pose proof (lockAggregate_saved _ _ _ _ _ _ _ E2) as Hv2.
  apply lockAggregate_Ok in E2 as (Hd2 & ref & a & p & o & Hr & Hat & Href); [|done].
  rewrite <- Hd2 in Hs, Hrow, Hat |- *.
  unfold gbind at 1. destruct (on_captured _ (s2, c2)) as [[eff|e] w] eqn:E3;
    apply on_captured_inv in E3 as (c3 & E3 & ->).
  2:{ intros [= <- <- <-]. left. split; [congruence | done]. }
  intros (s4 & E4 & [= -> ->])%on_store_inv.
  apply (settle_spec id agg eff s2 s4 out row) in E4 as [[Hv [e ->]]|(Hv & Hs4 & Hd4 & Hm & Hout)]; [| |done..].
  - left. split; [congruence | done].
  - right. split; [done|]. split; [done|]. eexists. split; [|exact Hout].
    by eapply Committed.
Qed.

Lemma Process_cases {S} id (r : Resolver S) (d : Decider S) s c out s' c' :
  schema (st_db s) -> idle s ->
  EventRepository_Process id r d (s, c) = (out, (s', c')) ->
  idle s' /\ schema (st_db s') /\
  ((st_db s' = st_db s /\ forall result, out = Ok result -> already_processed (st_db s) id result) \/
   (exists result, committed id r d c c' (st_db s) (st_db s') result /\
      (out = Ok result \/ exists e, out = Err e))).
Proof.
  intros Hs Hi. unfold EventRepository_Process, gbind at 1. simpl.
  unfold gwrap. destruct (BeginTx s) as [b s1] eqn:EB.
  destruct (BeginTx_cases _ _ _ EB Hi) as (Hd1 & [[-> Hv1]|(e & -> & Hi1)]); simpl.
  2:{ intros [= <- <- <-]. rewrite Hd1. split_and!; [done..|]. left. by split. }
  intros (s2 & c2 & Hbody & [= -> ->])%deferring_rollback_inv.
  apply process_in_tx_spec in Hbody as [[Hv Hp]|(Hi2 & Hs2 & Hc)]; [| |by rewrite Hd1].
  - rewrite Hv1 in Hv. destruct (Rollback_saved _ _ Hv) as [-> ?]. rewrite Hd1 in Hp.
    split_and!; [done..|]. by left.
  - rewrite (Rollback_idle _ Hi2), <- Hd1. split_and!; [done..|]. by right.
Qed.

(** ** The contract of the consuming service *)

Definition store_inbox (s : Store) (id : string) : option (Webhooks.Status * Z) :=
  (fun r => (EventRow_Status r, EventRow_Attempts r)) <$> webhook_events (st_db s) !! id.
Definition store_stable (s : Store) : Prop := schema (st_db s) /\ idle s.

Lemma lookup_event_db id agg eff d i :
  webhook_events (event_db id agg eff d) !! i =
    if decide (i = id)
    then event_processed (nullableText (Effect_Note eff)) (db_now d) <$> webhook_events d !! i
    else webhook_events d !! i.
Proof. unfold event_db. simpl. rewrite lookup_alter. repeat case_decide; congruence. Qed.

Lemma committed_event {S} id (r : Resolver S) d c c' db db' result :
  committed id r d c c' db db' result ->
  exists row row', webhook_events db !! id = Some row /\ webhook_events db' !! id = Some row' /\
    EventRow_Status row' = Webhooks.StatusProcessed /\ EventRow_Attempts row' = EventRow_Attempts row + 1.
Proof.
  intros []. exists row. eexists. split; [done|]. split.
  - rewrite Hdb, lookup_event_db, decide_True, Hrow by done. done.
  - done.
Qed.

(** The failure statement on the pool: it changes one entry or nothing. *)
Definition failure_db (id : string) (terminal : bool) (max : Z) (cause : error) (row : EventRow) (d : DB) : DB :=
  set_events d (<[id := failure_update terminal (wrap32 max) (errorText (Some cause)) (db_now d) row]>
                 (webhook_events d)).

Lemma RecordFailure_stmt d id terminal max cause a d' :
  schema d ->
  RecordWebhookEventFailure terminal (wrap32 max) (errorText (Some cause)) id d = Ok (a, d') ->
  exists row, webhook_events d !! id = Some row /\ d' = failure_db id terminal max cause row d /\
    RWEF_Attempts a = EventRow_Attempts row + 1 /\
    RWEF_Failed a = (EventRow_Status (failure_update terminal (wrap32 max) (errorText (Some cause)) (db_now d) row) =s? "failed").
Proof.
  intros Hs. rewrite RecordWebhookEventFailure_spec by done.
  destruct (webhook_events d !! id) as [row|]; [|done]. cbv zeta. case_match; [|done].
  intros [= <- <-]. by exists row.
Qed.

Lemma RecordFailure_cases id cause terminal max s out s' :
  store_stable s -> EventRepository_RecordFailure id cause terminal max s = (out, s') ->
  store_stable s' /\
  (st_db s' = st_db s \/
   exists row, webhook_events (st_db s) !! id = Some row /\ st_db s' = failure_db id terminal max cause row (st_db s)).
Proof.
  intros [Hs Hi]. unfold EventRepository_RecordFailure. simpl.
  destruct (exec _ s) as [out1 s1] eqn:E. intros Hout.
  assert (s' = s1) as -> by (destruct out1; [|destruct (Is e ErrNoRows)]; by simplify_eq). clear Hout.
  split; [split|].
  - eapply exec_schema; [apply RecordWebhookEventFailure_schema|done|done].
  - unfold idle. by rewrite (exec_saved _ _ _ _ E).
  - assert (st_db s1 = st_db s \/ exists a, RecordWebhookEventFailure terminal (wrap32 max)
      (errorText (Some cause)) id (st_db s) = Ok (a, st_db s1)) as [?|[a Ha]];
      [destruct out1; [right; apply exec_Ok in E; eauto | by apply exec_Err in E]|by left|].
    apply RecordFailure_stmt in Ha as (row & ? & ? & _); eauto.
Qed.

Lemma RecordFailure_Ok id cause terminal max s attempts failed s' :
  store_stable s -> EventRepository_RecordFailure id cause terminal max s = (Ok (attempts, failed), s') ->
  match webhook_events (st_db s) !! id with
  | None => attempts = 0 /\ failed = true /\ st_db s' = st_db s
  | Some row =>
      attempts = EventRow_Attempts row + 1 /\
      failed = (terminal || (wrap32 max <=? attempts) || (EventRow_Status row =s? "failed")) /\
      st_db s' = failure_db id terminal max cause row (st_db s)
  end.
Proof.
  intros [Hs Hi]. unfold EventRepository_RecordFailure. simpl.
  destruct (exec _ s) as [[a|e] s1] eqn:E.
  - intros [= <- <- <-]. apply exec_Ok, RecordFailure_stmt in E as (row & -> & -> & Ea & Ef); [|done].
    split_and!; try done. rewrite Ef, Ea. unfold failure_update. simpl.
    by destruct (terminal || (wrap32 max <=? EventRow_Attempts row + 1)).
  - destruct (Is e ErrNoRows) eqn:En; [|done]. intros [= <- <- <-].
    apply exec_ErrNoRows in E as [E Hd]; [|done].
    change (Some (Sanitize (Error cause))) with (errorText (Some cause)) in E.
    rewrite RecordWebhookEventFailure_spec in E by done.
    destruct (webhook_events (st_db s) !! id); [|done]. cbv zeta in E.
    destruct (events_check _); by simplify_eq.
Qed.

#[export] Program Instance EventRepository_contract : RepositoryContract Store := {
  inbox := store_inbox;
  stable := store_stable;
}.
Next Obligation.
  intros S id r d s c out s' c' [Hs Hi] E. by apply Process_cases in E as (? & ? & _).
Qed.
Next Obligation.
  intros S id r d s c result s' c' [Hs Hi] E. unfold store_inbox.
  apply Process_cases in E as (_ & _ & [[Hd Hp]|(res & Hc & _)]); [| |done..].
  - rewrite Hd. destruct (Hp _ eq_refl) as (_ & row & -> & Hst). simpl. rewrite Hst. eauto.
  - apply committed_event in Hc as (row & row' & _ & -> & Hst & _). simpl. rewrite Hst. eauto.
Qed.
Next Obligation.
  intros S id r d s c out s' c' st n [Hs Hi] E. unfold store_inbox.
  apply Process_cases in E as (_ & _ & [[Hd Hp]|(res & Hc & _)]); [| |done..].
  - rewrite Hd. intros ->. eauto with lia.
  - apply committed_event in Hc as (row & row' & -> & -> & Hst & Ha). simpl. intros [= <- <-].
    eexists _, _. split; [done|]. lia.
Qed.
Next Obligation.
  intros id cause terminal max s out s' Hs E. by apply RecordFailure_cases in E as [? _].
Qed.
Next Obligation.
  intros id cause terminal max s attempts failed s' Hs Hmax E. unfold store_inbox.
  apply RecordFailure_Ok in E; [|done]. destruct Hs as [Hs _].
  rewrite wrap32_id in E by done.
  destruct (webhook_events (st_db s) !! id) as [row|] eqn:Hrow; simpl.
  - destruct E as (-> & Hf & ->). pose proof (events_check_bounds _ (events_ok _ Hs _ _ Hrow)).
    unfold failure_db, failure_update. simpl. rewrite lookup_insert_eq, wrap32_id by done. simpl.
    split_and!; [lia|done| |].
    + intros ->. destruct (terminal || (max <=? EventRow_Attempts row + 1)); [done|].
      symmetry in Hf. simpl in Hf. apply String.eqb_eq in Hf. by rewrite Hf.
    + intros ->. symmetry in Hf. apply orb_false_iff in Hf as [Hf1 Hf2]. rewrite Hf1. go_bool.
      split_and!; try done; lia.
  - destruct E as (-> & -> & ->). by rewrite Hrow.
Qed.
