(* ===== verification/Samples.v ===== *)
(** * Concrete parameters and a sample database

    Instances of the parameters of the model and a small database, for the
    theorems that evaluate the definitions on concrete inputs. *)

From S2P Require Import Prelude GoLib JsonText Payments Webhooks Store Queries Consumer.

(** JSON text written with single quotes. *)
Definition text (s : string) : string := of_codes ((fun c => if c =? 39 then 34 else c) <$> codes s).

(** Messages of the JSON decoder. *)
Definition sample_errors : JsonErrors := {| syntax_error := fun _ => "invalid JSON"; type_error := fun _ => "wrong type" |}.

(** Case tables that leave every non-ASCII rune alone. *)
Definition sample_unicode : UnicodeTables := {| fold_orbit := fun r => r; upper_mapping := fun r => r; lower_mapping := fun r => r |}.

(** [jsonb] that stores the text as it is, whole-microsecond intervals. *)
Definition sample_postgres : Postgres := {|
  jsonb := fun s => Some s;
  make_interval := fun d => d / 1000 * 1000;
  age_seconds := fun d => d;
|}.

(** An interpreter that reads one known event as a success of 30000 BRL. *)
Definition sample_outcome (o : Outcome) : SessionOutcome :=
  mkSessionOutcome "ord_1" "pay_1" "pat_1" "cs_1" "pi_1" 30000 "brl" o 7.
Definition sample_interpreter : Interpreter := {|
  Interpret := fun e => if Event_Type e =s? "checkout.session.completed" then Ok (sample_outcome OutcomeSucceeded)
                        else if Event_Type e =s? "checkout.session.async_payment_failed" then Ok (sample_outcome OutcomeFailed)
                        else Err (errorf ErrUnreadablePayload "unknown type");
  Interpreter_Provider := "stripe";
|}.

Definition sample_order : OrderRow := mkOrderRow "ord_1" "pending" 30000 "BRL" "product_demo" 3 "k1" 1 1.
Definition sample_payment : PaymentRow := mkPaymentRow "pay_1" "ord_1" "stripe" "pending" 30000 "BRL" 2 2.
Definition sample_attempt : AttemptRow :=
  mkAttemptRow "pat_1" "pay_1" "stripe" "pending" "k2" (Some "cs_1") None (Some "https://x/y") (Some 90) None None 2 3.
Definition sample_event_with (payload : string) : EventRow :=
  mkEventRow "evt_1" "stripe" "evt_stripe_1" "checkout.session.completed" "{}" payload "pending" 0 4 None None 4 0 None.
Definition sample_event : EventRow := sample_event_with "{}".
Definition sample_message : OutboxRow :=
  mkOutboxRow "msg_1" "evt_1" "checkout.completed" 1 "payment.webhook.checkout.completed" "c" 4 "pending" 0 None None
    4 4 None None 4.

Definition sample_db_with (payload : string) : DB :=
  mkDB {["ord_1" := sample_order]} {["pay_1" := sample_payment]} {["pat_1" := sample_attempt]}
    {["evt_1" := sample_event_with payload]} {["msg_1" := sample_message]} 10.
Definition sample_db : DB := sample_db_with "{}".

Definition sample_store : Store := mkStore sample_db None [].

Lemma sample_unique {R K} (index : R -> option K) k r : unique_on index {[k := r]}.
Proof. intros i j ri rj x [-> _]%lookup_singleton_Some [-> _]%lookup_singleton_Some _ _. done. Qed.

Lemma sample_schema_with payload : schema (sample_db_with payload).
Proof.
  split; simpl; try apply sample_unique;
    intros i r [<- <-]%lookup_singleton_Some; try (vm_compute; reflexivity).
  - by exists sample_order.
  - by exists sample_payment.
  - by exists (sample_event_with payload).
Qed.

Lemma sample_schema : schema sample_db.
Proof. apply sample_schema_with. Qed.
