(* ===== verification/Querier.v ===== *)
(** * The interface of the statements: [queries/querier.go], [db.go] and [health.sql.go]

    [Querier] is the signature of the generated interface, [Queries] its one
    implementation: on the pool, or bound to a transaction. A [Client] is any
    program written against the interface; what every client is bound to is
    what the SQL text itself guarantees, whatever the Go code above it does. *)

From S2P Require Import Prelude GoLib Store Queries Samples.

(** ** The interface *)

Inductive Querier : Type -> Type :=
| AttachAttemptReferences (sessionID paymentIntentID : option string) (id : string) : Querier Z
| GetWebhookEvent (id : string) : Querier InspectionRow
| InsertOutboxEvent (arg : InsertOutboxEventParams) : Querier unit
| InsertWebhookEvent (arg : InsertWebhookEventParams) : Querier string
| LeaseOutboxBatch (lease : Duration) (owner : option string) (batchSize : Z) : Querier (list LeaseOutboxBatchRow)
| ListWebhookEvents (status : string) (limit : Z) : Querier (list InspectionRow)
| LockPaymentAggregate (attemptID paymentID orderID : string) : Querier LockPaymentAggregateRow
| LockWebhookEvent (id : string) : Querier EventRow
| LockWebhookEventForReplay (id : string) : Querier (string * string)
| MarkOrderPaid (id : string) : Querier Z
| MarkOutboxFailed (lastError : option string) (id : string) (owner : option string) : Querier Z
| MarkOutboxPublished (id : string) (owner : option string) : Querier Z
| MarkOutboxRetryable (lastError : option string) (backoff : Duration) (id : string) (owner : option string) : Querier Z
| MarkWebhookEventProcessed (id : string) (note : option string) : Querier Z
| OutboxBacklog : Querier (Z * Duration)
| Ping : Querier Z
| RecordWebhookEventFailure (terminal : bool) (maxAttempts : Z) (lastError : option string) (id : string)
    : Querier RecordWebhookEventFailureRow
| ResetOutboxForReplay (webhookEventID : string) : Querier Z
| ResetWebhookEventForReplay (id : string) : Querier Z
| TransitionPayment (id status : string) : Querier Z
| TransitionPaymentAttempt (id status : string) : Querier Z
| WebhookInboxBacklog : Querier BacklogRow.

(** [SELECT 1::integer]. *)
Definition ping : Stmt Z := fun d => Ok (1, d).

Section Implementation.
Context `{Postgres}.

(** [*Queries] implements the interface. *)
Definition Queries_ {A} (q : Querier A) : Stmt A :=
  match q with
  | AttachAttemptReferences s p id => Queries.AttachAttemptReferences s p id
  | GetWebhookEvent id => Queries.GetWebhookEvent id
  | InsertOutboxEvent arg => Queries.InsertOutboxEvent arg
  | InsertWebhookEvent arg => Queries.InsertWebhookEvent arg
  | LeaseOutboxBatch lease owner n => Queries.LeaseOutboxBatch lease owner n
  | ListWebhookEvents status limit => Queries.ListWebhookEvents status limit
  | LockPaymentAggregate a p o => Queries.LockPaymentAggregate a p o
  | LockWebhookEvent id => Queries.LockWebhookEvent id
  | LockWebhookEventForReplay id => Queries.LockWebhookEventForReplay id
  | MarkOrderPaid id => Queries.MarkOrderPaid id
  | MarkOutboxFailed e id owner => Queries.MarkOutboxFailed e id owner
  | MarkOutboxPublished id owner => Queries.MarkOutboxPublished id owner
  | MarkOutboxRetryable e backoff id owner => Queries.MarkOutboxRetryable e backoff id owner
  | MarkWebhookEventProcessed id note => Queries.MarkWebhookEventProcessed id note
  | OutboxBacklog => Queries.OutboxBacklog
  | Ping => ping
  | RecordWebhookEventFailure t n e id => Queries.RecordWebhookEventFailure t n e id
  | ResetOutboxForReplay id => Queries.ResetOutboxForReplay id
  | ResetWebhookEventForReplay id => Queries.ResetWebhookEventForReplay id
  | TransitionPayment id status => Queries.TransitionPayment id status
  | TransitionPaymentAttempt id status => Queries.TransitionPaymentAttempt id status
  | WebhookInboxBacklog => Queries.WebhookInboxBacklog
  end.

(** [New] and [WithTx] differ in what runs the text: the pool commits each
    statement, a transaction keeps the copy it may go back to. The store knows
    which, so both are [exec]. *)
Definition New {A} (q : Querier A) : M Store A := exec (Queries_ q).
Definition WithTx {A} (q : Querier A) : M Store A := exec (Queries_ q).
End Implementation.

(** ** Clients *)

(** What runs inside one transaction: statements, each chosen by the answers so
    far. It commits when it returns and rolls back when it fails. *)
Inductive Script (A : Type) : Type :=
| Done (r : res A)
| Query {B} (q : Querier B) (k : res B -> Script A).
Arguments Done {A} r.
Arguments Query {A B} q k.

(** Statements on the pool, transactions, and time passing. *)
Inductive Client : Type :=
| Stop
| Pool {B} (q : Querier B) (k : res B -> Client)
| Transaction {B} (body : Script B) (k : res B -> Client)
| Later (now : Time) (k : Client).

Section Running.
Context `{Postgres}.

Fixpoint run_script {A} (p : Script A) : M Store A := fun s =>
  match p with
  | Done r => (r, s)
  | Query q k => let '(r, s) := WithTx q s in run_script (k r) s
  end.

Definition transaction {A} (body : Script A) : M Store A :=
  rollback_after (let! _ := BeginTx in let! a := run_script body in let! _ := Commit in gret a).

Definition at_time (now : Time) (s : Store) : Store :=
  mkStore (mkDB (orders (st_db s)) (payments (st_db s)) (payment_attempts (st_db s)) (webhook_events (st_db s))
             (outbox_events (st_db s)) now) (st_saved s) (st_faults s).

Fixpoint run (c : Client) (s : Store) : Store :=
  match c with
  | Stop => s
  | Pool q k => let '(r, s) := New q s in run (k r) s
  | Transaction body k => let '(r, s) := transaction body s in run (k r) s
  | Later now k => run k (at_time now s)
  end.
End Running.

(** Every statement a script or a client may issue satisfies [P], whatever the
    answers. *)
Fixpoint script_issues (P : forall B, Querier B -> Prop) {A} (p : Script A) : Prop :=
  match p with
  | Done _ => True
  | Query q k => P _ q /\ forall r, script_issues P (k r)
  end.
Fixpoint issues (P : forall B, Querier B -> Prop) (c : Client) : Prop :=
  match c with
  | Stop => True
  | Pool q k => P _ q /\ forall r, issues P (k r)
  | Transaction body k => script_issues P body /\ forall r, issues P (k r)
  | Later _ k => issues P k
  end.

Lemma script_issues_any {A} (p : Script A) : script_issues (fun _ _ => True) p.
Proof. by induction p. Qed.
Lemma issues_any c : issues (fun _ _ => True) c.
Proof. induction c; cbn; auto using script_issues_any. Qed.

Section Invariants.
Context `{Postgres} (P : forall B, Querier B -> Prop) (I : DB -> Prop).
Hypothesis kept_by_statements : forall B (q : Querier B) d b d', P B q -> I d -> Queries_ q d = Ok (b, d') -> I d'.
Hypothesis kept_by_time : forall now s, I (st_db s) -> I (st_db (at_time now s)).

Lemma exec_invariant {A} (q : Querier A) s r s' : P A q -> I (st_db s) -> exec (Queries_ q) s = (r, s') -> I (st_db s').
Proof.
  intros Hq Hs E. destruct r as [a|e].
  - apply exec_Ok in E. by eapply kept_by_statements.
  - apply exec_Err in E as [-> | [a E]]; [done | by eapply kept_by_statements].
Qed.

Lemma script_invariant {A} (p : Script A) : forall s r s', script_issues P p -> I (st_db s) -> run_script p s = (r, s') ->
  I (st_db s') /\ st_saved s' = st_saved s.
Proof.
  induction p as [r | B q k IH]; intros s r' s' Hp Hs E; cbn [run_script] in E; [by simplify_eq|]. destruct Hp as [Hq Hk].
  destruct (WithTx q s) as [b s1] eqn:E1. pose proof (tx_safe_exec _ _ _ _ E1) as Hsaved.
  rewrite <- Hsaved. eapply IH; [apply Hk | | exact E]. by eapply exec_invariant.
Qed.

Lemma transaction_invariant {A} (p : Script A) s r s' : script_issues P p -> I (st_db s) -> idle s ->
  transaction p s = (r, s') -> I (st_db s') /\ idle s'.
Proof.
  intros Hp Hs Hi. unfold transaction, rollback_after, gbind. destruct (BeginTx s) as [[[]|e] s1] eqn:EB;
    destruct (BeginTx_cases _ _ _ EB Hi) as [Hd [[Hr Hv] | (e' & Hr & Hv)]]; simplify_eq.
  - destruct (run_script p s1) as [[a|e] s2] eqn:ER; destruct (script_invariant p s1 _ s2 Hp ltac:(by rewrite Hd) ER) as [Hs2 Hv2];
      rewrite Hv in Hv2.
    + destruct (Commit s2) as [[[]|e] s3] eqn:EC; destruct (Commit_cases _ _ _ EC) as [Hd3 [Hi3 | [Hi3 _]]];
        intros [= _ <-]; rewrite ?(Rollback_idle _ Hi3), ?Hd3; try done;
        rewrite Hv2 in Hi3; destruct (Rollback_saved _ _ Hi3) as [-> ?]; done.
    + intros [= _ <-]. destruct (Rollback_saved _ _ Hv2) as [-> ?]. done.
  - intros [= _ <-]. rewrite (Rollback_idle _ Hv), Hd. done.
Qed.

(** What the statements keep, a client keeps. *)
Lemma run_invariant c : forall s, issues P c -> I (st_db s) -> idle s -> I (st_db (run c s)) /\ idle (run c s).
Proof.
  induction c as [| B q k IH | B body k IH | now k IH]; intros s Hc Hs Hi; cbn [run issues] in *.
  - done.
  - destruct Hc as [Hq Hk]. destruct (New q s) as [r s1] eqn:E. apply IH; [done | by eapply exec_invariant|].
    unfold idle. by rewrite (tx_safe_exec _ _ _ _ E).
  - destruct Hc as [Hb Hk]. destruct (transaction body s) as [r s1] eqn:E.
    destruct (transaction_invariant body _ _ _ Hb Hs Hi E). by apply IH.
  - apply IH; [done | by apply kept_by_time | done].
Qed.
End Invariants.

(** ** What the text of the statements guarantees *)

(** Every row is still there, related to what it was. *)
Definition survives {R} (rel : relation R) (m m' : gmap string R) : Prop :=
  forall i r, m !! i = Some r -> exists r', m' !! i = Some r' /\ rel r r'.

#[export] Instance survives_preorder {R} (rel : relation R) `{!PreOrder rel} : PreOrder (survives rel).
Proof.
  split.
  - intros m i r Hi. by exists r.
  - intros m1 m2 m3 H1 H2 i r Hi. destruct (H1 _ _ Hi) as (r2 & E2 & R2). destruct (H2 _ _ E2) as (r3 & E3 & R3).
    exists r3. split; [done | by etransitivity].
Qed.

(** An order keeps its terms and leaves no status but [pending]. *)
Definition order_terms (o : OrderRow) :=
  (OrderRow_ID o, OrderRow_Amount o, OrderRow_Currency o, OrderRow_ProductID o, OrderRow_Quantity o,
   OrderRow_IdempotencyKey o, OrderRow_CreatedAt o).
Definition same_order (o o' : OrderRow) : Prop :=
  order_terms o' = order_terms o /\
  (OrderRow_Status o' = OrderRow_Status o \/ OrderRow_Status o = "pending" /\ OrderRow_Status o' = "paid").

(** A payment keeps its terms and a terminal status. *)
Definition payment_terms (p : PaymentRow) :=
  (PaymentRow_ID p, PaymentRow_OrderID p, PaymentRow_Provider p, PaymentRow_Amount p, PaymentRow_Currency p, PaymentRow_CreatedAt p).
Definition same_payment (p p' : PaymentRow) : Prop :=
  payment_terms p' = payment_terms p /\
  (one_of payment_terminal (PaymentRow_Status p) = true -> PaymentRow_Status p' = PaymentRow_Status p).

(** An attempt keeps its key, its address, a settled status, and the provider's
    references once it has them. *)
Definition attempt_terms (a : AttemptRow) :=
  (AttemptRow_ID a, AttemptRow_PaymentID a, AttemptRow_Provider a, AttemptRow_IdempotencyKey a, AttemptRow_CheckoutURL a,
   AttemptRow_ExpiresAt a, AttemptRow_CreatedAt a).
Definition still {A} (a b : option A) : Prop := is_Some a -> b = a.
Definition same_attempt (a a' : AttemptRow) : Prop :=
  attempt_terms a' = attempt_terms a /\
  (one_of attempt_terminal (AttemptRow_Status a) = true -> AttemptRow_Status a' = AttemptRow_Status a) /\
  still (AttemptRow_ProviderSessionID a) (AttemptRow_ProviderSessionID a') /\
  still (AttemptRow_ProviderPaymentIntentID a) (AttemptRow_ProviderPaymentIntentID a').

(** An inbox entry keeps the event it stores, a message the event it names. *)
Definition event_terms (e : EventRow) :=
  (EventRow_ID e, EventRow_Provider e, EventRow_ProviderEventID e, EventRow_EventType e, EventRow_RawPayload e,
   EventRow_Payload e, EventRow_ReceivedAt e).
Definition same_event (e e' : EventRow) : Prop :=
  event_terms e' = event_terms e /\ EventRow_ReplayCount e <= EventRow_ReplayCount e'.

Definition message_terms (o : OutboxRow) :=
  (OutboxRow_ID o, OutboxRow_WebhookEventID o, OutboxRow_EventType o, OutboxRow_SchemaVersion o, OutboxRow_RoutingKey o,
   OutboxRow_CorrelationID o, OutboxRow_OccurredAt o, OutboxRow_CreatedAt o).
Definition same_message (o o' : OutboxRow) : Prop := message_terms o' = message_terms o.

(** Orders, payments and attempts are only ever created elsewhere (by the
    repositories of [repositories/], through the ORM): the interface adds none. *)
Record keeps (d d' : DB) : Prop := {
  keeps_orders : survives same_order (orders d) (orders d');
  keeps_payments : survives same_payment (payments d) (payments d');
  keeps_attempts : survives same_attempt (payment_attempts d) (payment_attempts d');
  keeps_events : survives same_event (webhook_events d) (webhook_events d');
  keeps_messages : survives same_message (outbox_events d) (outbox_events d');
  keeps_order_ids : dom (orders d') = dom (orders d);
  keeps_payment_ids : dom (payments d') = dom (payments d);
  keeps_attempt_ids : dom (payment_attempts d') = dom (payment_attempts d)
}.

(** ** Lemmas *)

#[export] Instance same_order_preorder : PreOrder same_order.
Proof.
  split; [by split; [|left]|]. intros a b c [E1 H1] [E2 H2]. split; [congruence|].
  destruct H1 as [H1 | [H1 H1']], H2 as [H2 | [H2 H2']]; [left | right | right | ]; try (split; congruence); congruence.
Qed.
#[export] Instance same_payment_preorder : PreOrder same_payment.
Proof. split; [done|]. intros a b c [E1 H1] [E2 H2]. split; [congruence|]. intros Ht. rewrite H2; rewrite H1; done. Qed.
#[export] Instance still_preorder {A} : PreOrder (@still A).
Proof. split; [done|]. intros a b c H1 H2 Ha. rewrite (H2 ltac:(by rewrite H1)). by apply H1. Qed.
#[export] Instance same_attempt_preorder : PreOrder same_attempt.
Proof.
  split; [intros a; by split_and!|]. intros a b c (E1 & H1 & S1 & P1) (E2 & H2 & S2 & P2). split_and!; [congruence | | by etransitivity..].
  intros Ht. rewrite H2; rewrite H1; done.
Qed.
#[export] Instance same_event_preorder : PreOrder same_event.
Proof. split; [by split|]. intros a b c [E1 H1] [E2 H2]. split; [congruence | lia]. Qed.
#[export] Instance same_message_preorder : PreOrder same_message.
Proof. split; [done|]. unfold same_message. intros a b c ??. congruence. Qed.

#[export] Instance keeps_preorder : PreOrder keeps.
Proof.
  split; [intros d; split; reflexivity|]. intros a b c [] []. split; try (by etransitivity); congruence.
Qed.

Section Updates.
Context {R : Type} (rel : relation R) `{!PreOrder rel} {name : string} {id : R -> string} {check : R -> bool}
  {unique_ok : gmap string R -> bool}.

Lemma update_survives p f m m' n : update_table name check unique_ok p f m = Ok (m', n) ->
  (forall r, p r = true -> rel r (f r)) -> survives rel m m' /\ dom m' = dom m.
Proof.
  intros (-> & _)%update_table_Ok Hf. split; [|by rewrite dom_fmap_L].
  intros i r Hi. rewrite lookup_fmap, Hi. eexists. split; [done|]. destruct (p r) eqn:E; [by apply Hf | done].
Qed.

Lemma insert_survives r m m' : insert_table name id check unique_ok r m = Ok m' -> survives rel m m'.
Proof.
  intros (-> & Hn & _)%insert_table_Ok i r' Hi. exists r'. split; [|done]. rewrite lookup_insert_ne; [done|]. congruence.
Qed.
End Updates.

Definition keeping {A} (q : Stmt A) : Prop := forall d a d', schema d -> q d = Ok (a, d') -> schema d' /\ keeps d d'.

Section Keeping.
Context `{Postgres}.

(** A statement that reads keeps everything. *)
Lemma reading_keeps {A} (q : Stmt A) : (forall d a d', q d = Ok (a, d') -> d' = d) -> keeping q.
Proof. intros Hq d a d' Hs E%Hq. subst. done. Qed.

Lemma keeping_intro {A} (q : Stmt A) : preserves q -> (forall d a d', q d = Ok (a, d') -> keeps d d') -> keeping q.
Proof. intros Hp Hk d a d' Hs E. split; [by eapply Hp | by eapply Hk]. Qed.

Ltac updated := apply keeping_intro; [by auto with go|]; intros d a d' (t & Hu & ->)%with_Ok.

Lemma keeps_set_orders d t : survives same_order (orders d) t /\ dom t = dom (orders d) -> keeps d (set_orders d t).
Proof. intros []. by split. Qed.
Lemma keeps_set_payments d t : survives same_payment (payments d) t /\ dom t = dom (payments d) -> keeps d (set_payments d t).
Proof. intros []. by split. Qed.
Lemma keeps_set_attempts d t : survives same_attempt (payment_attempts d) t /\ dom t = dom (payment_attempts d) ->
  keeps d (set_attempts d t).
Proof. intros []. by split. Qed.
Lemma keeps_set_events d t : survives same_event (webhook_events d) t -> keeps d (set_events d t).
Proof. intros. by split. Qed.
Lemma keeps_set_outbox d t : survives same_message (outbox_events d) t -> keeps d (set_outbox d t).
Proof. intros. by split. Qed.

Lemma MarkOrderPaid_keeps id : keeping (Queries.MarkOrderPaid id).
Proof.
  updated. apply keeps_set_orders, (update_survives _ _ _ _ _ _ Hu). intros r Hp. go_bool. split; [done|]. by right.
Qed.

Lemma TransitionPayment_keeps id st : keeping (Queries.TransitionPayment id st).
Proof.
  updated. apply keeps_set_payments, (update_survives _ _ _ _ _ _ Hu). intros r Hp. go_bool. split; [done|]. intros Ht. congruence.
Qed.

Lemma TransitionPaymentAttempt_keeps id st : keeping (Queries.TransitionPaymentAttempt id st).
Proof.
  updated. apply keeps_set_attempts, (update_survives _ _ _ _ _ _ Hu). intros r Hp. go_bool. split_and!; try done.
  intros Ht. congruence.
Qed.

Lemma AttachAttemptReferences_keeps s p id : keeping (Queries.AttachAttemptReferences s p id).
Proof.
  updated. apply keeps_set_attempts, (update_survives _ _ _ _ _ _ Hu). intros r _. split_and!; try done; unfold still; cbn.
  - destruct (AttemptRow_ProviderSessionID r); [done | by intros []].
  - destruct (AttemptRow_ProviderPaymentIntentID r); [done | by intros []].
Qed.

Lemma MarkWebhookEventProcessed_keeps id note : keeping (Queries.MarkWebhookEventProcessed id note).
Proof. updated. apply keeps_set_events, (update_survives _ _ _ _ _ _ Hu). intros r _. split; [done|]. cbn. lia. Qed.

Lemma ResetWebhookEventForReplay_keeps id : keeping (Queries.ResetWebhookEventForReplay id).
Proof. updated. apply keeps_set_events, (update_survives _ _ _ _ _ _ Hu). intros r _. split; [done|]. cbn. lia. Qed.

Lemma RecordWebhookEventFailure_keeps b n l id : keeping (Queries.RecordWebhookEventFailure b n l id).
Proof.
  updated. revert Hu. cbv zeta. destruct (update_events _ _ _) as [[t' k]|] eqn:E; [|done]. cbn [res_bind].
  destruct (scan_one _); [|done]. intros [= -> <-].
  apply keeps_set_events, (update_survives _ _ _ _ _ _ E). intros r _. split; [done|]. cbn. lia.
Qed.

Lemma outbox_update_keeps {A} p f (g : gmap string OutboxRow -> Time -> res (gmap string OutboxRow * A)) :
  preserves (with_outbox g) ->
  (forall t now t' a, g t now = Ok (t', a) -> exists n, update_outbox (p t now) (f t now) t = Ok (t', n)) ->
  (forall t now r, same_message r (f t now r)) -> keeping (with_outbox g).
Proof.
  intros Hp Hg Hf d a d' Hs Hu. split; [by eapply Hp|]. apply with_Ok in Hu as (t & Hu & ->).
  apply Hg in Hu as [n Hu]. apply keeps_set_outbox, (update_survives _ _ _ _ _ _ Hu). intros r _. apply Hf.
Qed.

Lemma settled_keeps {p f} : preserves (with_outbox (fun t now => update_outbox (p now) (f now) t)) ->
  (forall now r, same_message r (f now r)) -> keeping (with_outbox (fun t now => update_outbox (p now) (f now) t)).
Proof.
  intros Hp Hf. apply (outbox_update_keeps (fun _ => p) (fun _ => f)); [done | | by auto]. intros t now t' n E. by exists n.
Qed.

Lemma LeaseOutboxBatch_keeps l o n : keeping (Queries.LeaseOutboxBatch l o n).
Proof.
  apply (outbox_update_keeps (fun t now r => one_of (claimed now n t) (OutboxRow_ID r)) (fun t now => leased o (now + make_interval l) now)).
  - apply LeaseOutboxBatch_schema.
  - intros t now t' a. case_match; [done|]. cbv zeta. destruct (update_outbox _ _ _) as [[t2 k]|]; [|done]. intros [= -> _]. by exists k.
  - done.
Qed.

Lemma InsertWebhookEvent_keeps arg : keeping (Queries.InsertWebhookEvent arg).
Proof.
  intros d a d' Hs Hu. split; [by eapply InsertWebhookEvent_schema|]. revert Hu. unfold Queries.InsertWebhookEvent.
  destruct (jsonb _); [|done]. repeat (case_match; [done|]). destruct (insert_table _ _ _ _ _ _) as [t|] eqn:E; [|done].
  intros [= _ <-]. by apply keeps_set_events, (insert_survives _ _ _ _ E).
Qed.

Lemma InsertOutboxEvent_keeps arg : keeping (Queries.InsertOutboxEvent arg).
Proof.
  intros d a d' Hs Hu. split; [by eapply InsertOutboxEvent_schema|]. revert Hu. unfold Queries.InsertOutboxEvent.
  case_match; [done|]. destruct (insert_table _ _ _ _ _ _) as [t|] eqn:E; [|done].
  intros [= _ <-]. by apply keeps_set_outbox, (insert_survives _ _ _ _ E).
Qed.

Lemma Queries_keeping {A} (q : Querier A) : keeping (Queries_ q).
Proof.
  destruct q; cbn [Queries_].
  - apply AttachAttemptReferences_keeps.
  - apply reading_keeps. intros d a d'. apply select_one_reads.
  - apply InsertOutboxEvent_keeps.
  - apply InsertWebhookEvent_keeps.
  - apply LeaseOutboxBatch_keeps.
  - apply reading_keeps. intros d a d'. unfold Queries.ListWebhookEvents. case_match; [done|]. by intros [= _ <-].
  - apply reading_keeps. intros d a d'. apply select_one_reads.
  - apply reading_keeps. intros d a d'. apply select_one_reads.
  - apply reading_keeps. intros d a d'. apply select_one_reads.
  - apply MarkOrderPaid_keeps.
  - apply settled_keeps; [apply MarkOutboxFailed_schema | done].
  - apply settled_keeps; [apply MarkOutboxPublished_schema | done].
  - apply settled_keeps; [apply MarkOutboxRetryable_schema | done].
  - apply MarkWebhookEventProcessed_keeps.
  - apply reading_keeps. by intros d a d' [= _ <-].
  - apply reading_keeps. by intros d a d' [= _ <-].
  - apply RecordWebhookEventFailure_keeps.
  - apply (settled_keeps (p := fun _ r => _) (f := fun now r => _)); [apply ResetOutboxForReplay_schema | done].
  - apply ResetWebhookEventForReplay_keeps.
  - apply TransitionPayment_keeps.
  - apply TransitionPaymentAttempt_keeps.
  - apply reading_keeps. by intros d a d' [= _ <-].
Qed.

(** What holds between any two moments of a client's run. *)
Definition sound (d0 d : DB) : Prop := schema d /\ keeps d0 d.

Lemma Queries_sound {A} (q : Querier A) d0 d a d' : sound d0 d -> Queries_ q d = Ok (a, d') -> sound d0 d'.
Proof. intros [Hs Hk] [Hs' Hk']%(Queries_keeping q); [|done]. split; [done | by etransitivity]. Qed.

Lemma at_time_sound d0 now s : sound d0 (st_db s) -> sound d0 (st_db (at_time now s)).
Proof. intros [[] []]. by split; split. Qed.

(** C13: whatever program is written against the statements, with any faults and
    transactions, a well-formed database stays well-formed, no row disappears,
    no order, payment or attempt appears, prices and stored events never change,
    an order moves only from pending to paid, terminal payments and settled
    attempts stay, and the provider's references are never overwritten. *)
Theorem no_client_breaks_the_books (c : Client) (s : Store) : schema (st_db s) -> idle s ->
  schema (st_db (run c s)) /\ keeps (st_db s) (st_db (run c s)) /\ idle (run c s).
Proof.
  intros Hs Hi.
  destruct (run_invariant (fun _ _ => True) (sound (st_db s))) with (c := c) (s := s) as [[Hs' Hk] Hi']; try done.
  - intros B q d b d' _. by apply Queries_sound.
  - intros now s'. apply at_time_sound.
  - apply issues_any.
Qed.
End Keeping.

(** A client that pays the order, settles its payment, and then tries to fail
    what is settled. *)
Definition sample_client : Client :=
  Transaction (Query (MarkOrderPaid "ord_1") (fun _ => Query (TransitionPayment "pay_1" "succeeded") Done)) (fun _ =>
  Later 9 (Pool (TransitionPayment "pay_1" "failed") (fun _ => Pool (MarkOrderPaid "ord_1") (fun _ => Stop)))).

Lemma no_client_breaks_the_books_witness :
  let d' := st_db (@run sample_postgres sample_client sample_store) in
  (schema sample_db /\ idle sample_store /\ schema d' /\ keeps sample_db d') /\
  (OrderRow_Status <$> orders d' !! "ord_1") = Some "paid" /\ (PaymentRow_Status <$> payments d' !! "pay_1") = Some "succeeded".
Proof.
  intros d'. split; [|split; vm_compute; reflexivity].
  destruct (@no_client_breaks_the_books sample_postgres sample_client sample_store sample_schema eq_refl) as (Hs & Hk & _).
  split; [exact sample_schema | split; [reflexivity | split; [exact Hs | exact Hk]]].
Defined.
