(* ===== verification/Processing.v ===== *)
(** * Processing one event, end to end

    The consuming service over the event repository: what one call of
    [Handle] does to the database under every fault schedule. *)

From S2P Require Import Prelude GoLib Orders Payments Transitions Webhooks Errsanitize Store Queries Consumer EventRepo Samples.

(** ** Lemmas *)

Lemma Decide_targets_valid o p a :
  (Transition_Attempt (Decide o p a) <> "" ->
   one_of ["created"; "pending"; "succeeded"; "failed"; "expired"; "cancelled"] (Transition_Attempt (Decide o p a)) = true) /\
  (Transition_Payment (Decide o p a) <> "" ->
   one_of ["pending"; "processing"; "succeeded"; "failed"; "cancelled"; "partially_refunded"; "refunded"]
     (Transition_Payment (Decide o p a)) = true).
Proof. by_rows o p a. Qed.

Lemma payment_terminal_settled p : one_of payment_terminal p = paymentSettled p.
Proof.
  unfold one_of, paymentSettled, payment_terminal. simpl.
  unfold Payments.StatusSucceeded, Payments.StatusFailed, Payments.StatusCancelled,
    StatusPartiallyRefunded, StatusRefunded.
  by rewrite !(String.eqb_sym p), orb_false_r, <- !orb_assoc.
Qed.

Lemma attempt_terminal_settled a : one_of attempt_terminal a = attemptSettled a.
Proof.
  unfold one_of, attemptSettled, attempt_terminal. simpl.
  unfold AttemptStatusSucceeded, AttemptStatusFailed, AttemptStatusExpired, AttemptStatusCancelled.
  by rewrite !(String.eqb_sym a), orb_false_r, <- !orb_assoc.
Qed.

Lemma alter_present {A} (f : A -> A) (m : gmap string A) k r :
  m !! k = Some r -> alter f k m = <[k := f r]> m.
Proof.
  intros Hk. apply map_eq. intros i. rewrite lookup_insert, lookup_alter.
  case_decide; subst; [by rewrite Hk | done].
Qed.

(** Without faults, a guarded write that matches one row. *)
Lemma move_one_fine stmt what subject d d' v :
  stmt d = Ok (1, d') -> move_one stmt what subject (mkStore d v []) = (Ok tt, mkStore d' v []).
Proof. intros H. unfold move_one, gbind, gwrap. rewrite exec_fine, H. done. Qed.

Lemma step_fine (b : bool) stmt what subject (skip : bool) d d' v :
  (b = true -> stmt d = Ok (1, d')) -> (b = false -> d' = d) ->
  (if b then (let! _ := move_one stmt what subject in gret true) else gret skip) (mkStore d v []) =
  (Ok (b || skip), mkStore d' v []).
Proof.
  intros Ht Hf. destruct b; simpl.
  - unfold gbind. by rewrite (move_one_fine stmt what subject d d' v (Ht eq_refl)).
  - by rewrite Hf.
Qed.

(** With faults: the row moves, or the error is another one. *)
Lemma step_approved (b : bool) stmt what subject (skip : bool) s d' out s' :
  (if b then (let! _ := move_one stmt what subject in gret true) else gret skip) s = (out, s') ->
  (b = true -> stmt (st_db s) = Ok (1, d')) -> (b = false -> d' = st_db s) ->
  (out = Ok (b || skip) /\ st_db s' = d') \/ (exists e, out = Err e /\ Is e ErrInvariantViolated = false).
Proof.
  destruct b; intros E Ht Hf; simpl; [|injection E as <- <-; left; by rewrite Hf].
  specialize (Ht eq_refl). unfold move_one, gbind, gwrap in E. destruct (exec stmt s) as [[n|e] s1] eqn:Ex.
  - apply exec_Ok in Ex. rewrite Ht in Ex. injection Ex as <- ->. injection E as <- <-. by left.
  - injection E as <- <-. right. eexists. split; [done|]. rewrite Is_wrapf.
    eapply (exec_error _ (fun e => Is e ErrInvariantViolated = false)); [exact Ex|done|].
    intros e1 He1. by rewrite Ht in He1.
Qed.

(** The three guarded writes of an approved effect, one at a time. *)
Section Apply.
Context `{UnicodeTables}.
Context (d : DB) (agg : Aggregate) (a : AttemptRow) (p : PaymentRow) (o : OrderRow)
  (outcome : SessionOutcome) (provider : string) (eff : Effect).
Context (Hs : schema d) (Hat : aggregate_at d agg a p o)
  (Heff : decideEffect outcome agg provider = Ok eff).

Lemma approved_attempt d0 : schema d0 -> payment_attempts d0 = payment_attempts d ->
  Effect_AttemptStatus eff <> "" ->
  TransitionPaymentAttempt (Aggregate_AttemptID agg) (Effect_AttemptStatus eff) d0 =
    Ok (1, set_attempts d0 (alter (attempt_moved (Effect_AttemptStatus eff) (db_now d0))
                              (Aggregate_AttemptID agg) (payment_attempts d))).
Proof.
  intros Hs0 E. apply decideEffect_Ok in Heff as (_ & -> & Hd). cbv zeta in *. simpl. intros Hne.
  rewrite TransitionPaymentAttempt_spec, E by (done || by apply Decide_targets_valid).
  rewrite (at_attempt _ _ _ _ _ Hat), (alter_present _ _ _ _ (at_attempt _ _ _ _ _ Hat)).
  rewrite attempt_terminal_settled, (at_attempt_status _ _ _ _ _ Hat).
  destruct Hd as [Hd|(Hd & _)]; [|congruence].
  by destruct (apply_attempt_unsettled _ _ _ Hd Hne) as [-> _].
Qed.

Lemma approved_payment d0 : schema d0 -> payments d0 = payments d -> Effect_PaymentStatus eff <> "" ->
  TransitionPayment (Aggregate_PaymentID agg) (Effect_PaymentStatus eff) d0 =
    Ok (1, set_payments d0 (alter (payment_moved (Effect_PaymentStatus eff) (db_now d0))
                              (Aggregate_PaymentID agg) (payments d))).
Proof.
  intros Hs0 E. apply decideEffect_Ok in Heff as (_ & -> & Hd). cbv zeta in *. simpl. intros Hne.
  rewrite TransitionPayment_spec, E by (done || by apply Decide_targets_valid).
  rewrite (at_payment _ _ _ _ _ Hat), (alter_present _ _ _ _ (at_payment _ _ _ _ _ Hat)).
  rewrite payment_terminal_settled, (at_payment_status _ _ _ _ _ Hat).
  destruct Hd as [Hd|(_ & Hd & _)]; [|congruence].
  by rewrite (apply_unsettled _ _ _ Hd).
Qed.

Lemma approved_order d0 : schema d0 -> orders d0 = orders d -> OrderRow_Status o = "pending" ->
  MarkOrderPaid (Aggregate_OrderID agg) d0 =
    Ok (1, set_orders d0 (alter (order_paid (db_now d0)) (Aggregate_OrderID agg) (orders d))).
Proof.
  intros Hs0 E Ho. rewrite MarkOrderPaid_spec, E by done.
  by rewrite (at_order _ _ _ _ _ Hat), Ho, (alter_present _ _ _ _ (at_order _ _ _ _ _ Hat)).
Qed.

(** The writes an effect asks for, one after the other, each matching one row. *)
Record approved_writes (d1 d2 : DB) : Prop := {
  write_attempt : (Effect_AttemptStatus eff <>s? "") = true ->
    TransitionPaymentAttempt (Aggregate_AttemptID agg) (Effect_AttemptStatus eff) d = Ok (1, d1);
  skip_attempt : (Effect_AttemptStatus eff <>s? "") = false -> d1 = d;
  write_payment : (Effect_PaymentStatus eff <>s? "") = true ->
    TransitionPayment (Aggregate_PaymentID agg) (Effect_PaymentStatus eff) d1 = Ok (1, d2);
  skip_payment : (Effect_PaymentStatus eff <>s? "") = false -> d2 = d1;
  write_order : Effect_OrderPaid eff = true -> MarkOrderPaid (Aggregate_OrderID agg) d2 = Ok (1, effect_db agg eff d);
  skip_order : Effect_OrderPaid eff = false -> effect_db agg eff d = d2;
}.

Lemma approved_writes_match :
  (Effect_OrderPaid eff = true -> OrderRow_Status o = "pending") -> exists d1 d2, approved_writes d1 d2.
Proof.
  intros Ho.
  set (d1 := if Effect_AttemptStatus eff <>s? ""
             then set_attempts d (alter (attempt_moved (Effect_AttemptStatus eff) (db_now d)) (Aggregate_AttemptID agg) (payment_attempts d))
             else d).
  set (d2 := if Effect_PaymentStatus eff <>s? ""
             then set_payments d1 (alter (payment_moved (Effect_PaymentStatus eff) (db_now d)) (Aggregate_PaymentID agg) (payments d))
             else d1).
  assert (db_now d1 = db_now d /\ payments d1 = payments d /\ orders d1 = orders d) as (N1 & P1 & O1)
    by (subst d1; by case_match).
  assert (db_now d2 = db_now d /\ orders d2 = orders d) as (N2 & O2) by (subst d2; case_match; rewrite ?N1; done).
  assert ((Effect_AttemptStatus eff <>s? "") = true ->
    TransitionPaymentAttempt (Aggregate_AttemptID agg) (Effect_AttemptStatus eff) d = Ok (1, d1)) as H1.
  { intros E. subst d1. rewrite E. apply approved_attempt; [done..|]. by apply negb_true_iff, String.eqb_neq in E. }
  assert (schema d1) as S1.
  { destruct (Effect_AttemptStatus eff <>s? "") eqn:E; [|done].
    by eapply (TransitionPaymentAttempt_schema _ _ d), H1. }
  assert ((Effect_PaymentStatus eff <>s? "") = true ->
    TransitionPayment (Aggregate_PaymentID agg) (Effect_PaymentStatus eff) d1 = Ok (1, d2)) as H2.
  { intros E. subst d2. rewrite E, <- N1. apply approved_payment; [done..|]. by apply negb_true_iff, String.eqb_neq in E. }
  assert (schema d2) as S2.
  { destruct (Effect_PaymentStatus eff <>s? "") eqn:E; [|done].
    by eapply (TransitionPayment_schema _ _ d1), H2. }
  assert (effect_db agg eff d = if Effect_OrderPaid eff
    then set_orders d2 (alter (order_paid (db_now d)) (Aggregate_OrderID agg) (orders d)) else d2) as E3.
  { subst d2 d1. unfold effect_db, event_db. destruct d.
    by destruct (Effect_AttemptStatus eff <>s? ""), (Effect_PaymentStatus eff <>s? ""), (Effect_OrderPaid eff). }
  exists d1, d2. split; [exact H1|by subst d1; intros ->|exact H2|by subst d2; intros ->| |]; rewrite E3; intros E; rewrite E;
    [|done].
  rewrite <- N2. apply approved_order; auto.
Qed.

Lemma applyEffect_fine v :
  (Effect_OrderPaid eff = true -> OrderRow_Status o = "pending") ->
  applyEffect agg eff (mkStore d v []) = (Ok (writes eff), mkStore (effect_db agg eff d) v []).
Proof.
  intros (d1 & d2 & [A1 A2 P1 P2 O1 O2])%approved_writes_match. unfold applyEffect.
  unfold gbind at 1. rewrite (step_fine _ _ _ _ _ d d1) by done.
  unfold gbind at 1. rewrite (step_fine _ _ _ _ _ d1 d2) by done.
  unfold gbind at 1. rewrite (step_fine _ _ _ _ _ d2 (effect_db agg eff d)) by done.
  unfold gret, writes. do 2 f_equal.
  by destruct (Effect_AttemptStatus eff <>s? ""), (Effect_PaymentStatus eff <>s? ""), (Effect_OrderPaid eff).
Qed.

(** With faults, it may still fail, but never because a row was missing. *)
Lemma applyEffect_approved s e s' :
  (Effect_OrderPaid eff = true -> OrderRow_Status o = "pending") -> st_db s = d ->
  applyEffect agg eff s = (Err e, s') -> Is e ErrInvariantViolated = false.
Proof.
  intros (d1 & d2 & [A1 A2 P1 P2 O1 O2])%approved_writes_match Hd. unfold applyEffect.
  rewrite <- Hd in A1, A2. unfold gbind at 1. destruct (_ s) as [out s1] eqn:E1 at 1.
  destruct (step_approved _ _ _ _ _ _ d1 _ _ E1) as [[-> <-]|(e1 & -> & He)]; [done|done| |by intros [= <- _]].
  unfold gbind at 1. destruct (_ s1) as [out s2] eqn:E2 at 1.
  destruct (step_approved _ _ _ _ _ _ d2 _ _ E2) as [[-> <-]|(e1 & -> & He)]; [done|done| |by intros [= <- _]].
  unfold gbind at 1. destruct (_ s2) as [out s3] eqn:E3 at 1.
  destruct (step_approved _ _ _ _ _ _ _ _ _ E3 O1 O2) as [[-> _]|(e1 & -> & He)]; [done|by intros [= <- _]].
Qed.
End Apply.

(** ** Inverting a committed [handle] *)

Section Handle.
Context `{UnicodeTables} `{Interpreter}.

Lemma resolve_Ok entry c ref c1 :
  resolve entry c = (Ok ref, c1) ->
  Event_Provider (InboxEntry_Event entry) = Interpreter_Provider /\
  exists outcome, Interpret (InboxEntry_Event entry) = Ok outcome /\ cap_outcome c1 = outcome /\
    ref = mkReference (SessionOutcome_OrderID outcome) (SessionOutcome_PaymentID outcome)
            (SessionOutcome_AttemptID outcome).
Proof.
  unfold resolve. destruct (String.eqb_spec (Event_Provider (InboxEntry_Event entry)) Interpreter_Provider); [|done].
  simpl. destruct (Interpret _) as [outcome|]; [|done]. intros [= <- <-]. eauto.
Qed.

Lemma decider_Ok entry agg c eff c1 :
  decider entry agg c = (Ok eff, c1) -> decideEffect (cap_outcome c) agg Interpreter_Provider = Ok eff.
Proof. unfold decider. destruct (decideEffect _ _ _); [|done]. by intros [= <- _]. Qed.

(** Everything a committed effect was decided from. *)
Inductive decided (id : string) (db db' : DB) : Prop :=
| Decided row agg a p o eff outcome
    (Drow : webhook_events db !! id = Some row)
    (Dopen : EventRow_Status row <> Webhooks.StatusProcessed)
    (Dprovider : EventRow_Provider row = Interpreter_Provider)
    (Dinterpret : Interpret (InboxEntry_Event (entry_of_row row)) = Ok outcome)
    (Dat : aggregate_at db agg a p o)
    (Dref : Aggregate_AttemptID agg = SessionOutcome_AttemptID outcome /\
            Aggregate_PaymentID agg = SessionOutcome_PaymentID outcome /\
            Aggregate_OrderID agg = SessionOutcome_OrderID outcome)
    (Deff : decideEffect outcome agg Interpreter_Provider = Ok eff)
    (Dmovable : movable agg eff db)
    (Ddb : db' = event_db id agg eff db).

Lemma committed_decided id c c' db db' result :
  committed id resolve decider c c' db db' result -> decided id db db'.
Proof.
  intros []. apply resolve_Ok in Hresolve as (Hp & outcome & Hi & Ho & ->).
  apply decider_Ok in Hdecide. rewrite Ho in Hdecide. by eapply Decided.
Qed.

(** One [handle]: the effect commits at most once, and a failure touches
    nothing but the entry's own bookkeeping. *)
Lemma handle_db s id w (a := handle s id w) :
  store_stable w ->
  store_stable (answer_world a) /\
  exists db1, schema db1 /\ (db1 = st_db w \/ decided id (st_db w) db1) /\
    (st_db (answer_world a) = db1 \/
     exists cause terminal row, webhook_events db1 !! id = Some row /\
       st_db (answer_world a) = failure_db id terminal (Config_MaxAttempts (config s)) cause row db1).
Proof.
  intros [Hs Hi]. subst a. unfold handle.
  destruct (Process id resolve decider (w, captured_zero)) as [out [w1 c1]] eqn:E.
  apply Process_cases in E as (Hi1 & Hs1 & Hdb); [|done..].
  assert (st_db w1 = st_db w \/ decided id (st_db w) (st_db w1)) as Hd.
  { destruct Hdb as [[-> _]|(result & Hc & _)]; [by left|]. right. by eapply committed_decided. }
  destruct out as [result|err].
  - destruct (match AfterCommit (testHooks s) with Some _ => _ | None => _ end);
      (split; [done|]); eauto.
  - unfold classify. cbv zeta. destruct (RecordFailure id err (isTerminal err) _ w1) as [rec w2] eqn:E2.
    apply RecordFailure_cases in E2 as [Hst2 Hf]; [|done].
    assert (forall h : Answer (W:=Store), h.2 = w2 -> store_stable (answer_world h) /\
      exists db1, schema db1 /\ (db1 = st_db w \/ decided id (st_db w) db1) /\
      (st_db (answer_world h) = db1 \/ exists cause terminal row, webhook_events db1 !! id = Some row /\
         st_db (answer_world h) = failure_db id terminal (Config_MaxAttempts (config s)) cause row db1)) as Hall.
    { intros h Hh. unfold answer_world. rewrite Hh. split; [done|]. exists (st_db w1).
      split; [done|]. split; [done|]. destruct Hf as [?|(row & ? & ?)]; eauto 6. }
    destruct rec as [[n f]|e]; apply Hall; [|done]. by case_match.
Qed.
End Handle.

(** A processed entry is answered without running the closures. *)
Lemma Process_processed {S} id row (r : Resolver S) d s c out s' c' :
  store_stable s -> webhook_events (st_db s) !! id = Some row ->
  EventRow_Status row = Webhooks.StatusProcessed ->
  EventRepository_Process id r d (s, c) = (out, (s', c')) ->
  st_db s' = st_db s /\ c' = c /\
  (out = Ok (mkResult false "event was already processed") \/ exists e, out = Err e).
Proof.
  intros [Hs Hi] Hrow Hp. unfold EventRepository_Process, gbind at 1. simpl.
  unfold gwrap. destruct (BeginTx s) as [b s1] eqn:EB.
  destruct (BeginTx_cases _ _ _ EB Hi) as (Hd1 & [[-> Hv1]|(e & -> & Hi1)]); simpl.
  2:{ intros [= <- <- <-]. eauto. }
  intros (s2 & c2 & Hbody & [= -> ->])%deferring_rollback_inv.
  revert Hbody. unfold process_in_tx, gbind at 1. simpl.
  destruct (lockEntry id s1) as [[entry|e] s3] eqn:E1.
  - pose proof (tx_safe_lockEntry _ _ _ _ E1) as Hv.
    apply lockEntry_Ok in E1 as (row' & Hrow' & -> & Hd3); [|by rewrite Hd1].
    rewrite Hd1, Hrow in Hrow'. injection Hrow' as <-. simpl. rewrite Hp. simpl. intros [= <- <- <-].
    rewrite Hv1 in Hv. destruct (Rollback_saved _ _ Hv) as [-> _]. eauto.
  - intros [= <- <- <-]. pose proof (tx_safe_lockEntry _ _ _ _ E1) as Hv. rewrite Hv1 in Hv.
    destruct (Rollback_saved _ _ Hv) as [-> _]. eauto.
Qed.

(** An order changed by one [handle], and why. *)
Lemma paid_by_success `{UnicodeTables} `{Interpreter} (s : Service) (id : string)
    (w : Store) (oid : string) :
  store_stable w ->
  orders (st_db (answer_world (handle s id w))) !! oid <> orders (st_db w) !! oid ->
  exists o row outcome p p',
    orders (st_db w) !! oid = Some o /\ OrderRow_Status o = "pending" /\
    orders (st_db (answer_world (handle s id w))) !! oid = Some (order_paid (db_now (st_db w)) o) /\
    webhook_events (st_db w) !! id = Some row /\ EventRow_Status row <> Webhooks.StatusProcessed /\
    EventRow_Provider row = Interpreter_Provider /\
    Interpret (InboxEntry_Event (entry_of_row row)) = Ok outcome /\
    SessionOutcome_Outcome outcome = OutcomeSucceeded /\ SessionOutcome_OrderID outcome = oid /\
    payments (st_db w) !! SessionOutcome_PaymentID outcome = Some p /\ PaymentRow_OrderID p = oid /\
    paymentSettled (PaymentRow_Status p) = false /\
    SessionOutcome_Amount outcome = PaymentRow_Amount p /\ PaymentRow_Amount p = OrderRow_Amount o /\
    EqualFold (SessionOutcome_Currency outcome) (PaymentRow_Currency p) = true /\
    PaymentRow_Currency p = OrderRow_Currency o /\
    payments (st_db (answer_world (handle s id w))) !! SessionOutcome_PaymentID outcome = Some p' /\
    PaymentRow_Status p' = Payments.StatusSucceeded.
Proof.
  intros Hst Hne. destruct (handle_db s id w Hst) as [_ (db1 & _ & Hdb1 & Hdb2)].
  assert (orders (st_db (answer_world (handle s id w))) = orders db1 /\
          payments (st_db (answer_world (handle s id w))) = payments db1) as [Eo Ep].
  { destruct Hdb2 as [->|(? & ? & ? & _ & ->)]; done. }
  rewrite Eo, Ep in *. clear Eo Ep Hdb2. destruct Hdb1 as [->|[]]; [done|]. subst db1.
  unfold event_db in *. simpl in *. destruct Dref as (Ra & Rp & Ro).
  destruct (Effect_OrderPaid eff) eqn:Hpaid; [|done].
  rewrite lookup_alter in Hne. case_decide as Hoid; [subst oid|done].
  apply decideEffect_Ok in Deff as (Hm & Heff & _). cbv zeta in Heff. subst eff. simpl in *.
  destruct (order_paid_apply _ _ _ Hpaid) as (Hout & Hap & Hpay).
  pose proof (apply_unsettled _ _ _ Hap) as Hu.
  destruct (movable_order _ _ _ Dmovable Hpaid) as (o' & Ho' & Hpend).
  rewrite (at_order _ _ _ _ _ Dat) in Ho'. injection Ho' as <-.
  destruct (payments_order_fkey _ (proj1 Hst) _ _ (at_payment _ _ _ _ _ Dat)) as (o' & Ho' & Ha & Hc).
  rewrite (at_order_of _ _ _ _ _ Dat), (at_order _ _ _ _ _ Dat) in Ho'. injection Ho' as <-.
  exists o, row, outcome, p, (payment_moved Payments.StatusSucceeded (db_now (st_db w)) p).
  rewrite <- Rp, Hpay. simpl. rewrite !lookup_alter_eq, (at_order _ _ _ _ _ Dat), (at_payment _ _ _ _ _ Dat).
  destruct Dat, Hm. split_and!; try done; congruence.
Qed.

(** ** Properties *)

(** C2: one event, one transaction. Under every schedule of refused statements,
    lost acknowledgements and expired deadlines, and for any resolver and
    decider, [Process] leaves no transaction open, keeps the schema, and ends
    in one of two ways: the database is exactly as before, where an answer
    without error means the entry was already processed; or the decider's
    effect and the processed mark are all there, together, over rows that could
    be moved, where an error means only that the commit's acknowledgement was
    lost. *)
Theorem Process_all_or_nothing {S} (id : string) (r : Resolver S) (d : Decider S) (s : Store) (c : S)
    (out : res Result) (s' : Store) (c' : S) :
  schema (st_db s) -> idle s -> EventRepository_Process id r d (s, c) = (out, (s', c')) ->
  idle s' /\ schema (st_db s') /\
  ((st_db s' = st_db s /\ forall result, out = Ok result -> already_processed (st_db s) id result) \/
   (exists result, committed id r d c c' (st_db s) (st_db s') result /\
      (out = Ok result \/ exists e, out = Err e))).
Proof. apply Process_cases. Qed.

Lemma Process_all_or_nothing_witness :
  let '(out, (s', _)) :=
    EventRepository_Process "evt_1" (@resolve sample_interpreter) (@decider sample_unicode sample_interpreter)
      (mkStore sample_db None [Fine; Fine; Fine; Fine; Fine; Fine; Fine; Lost "connection reset"], captured_zero) in
  (exists e, out = Err e) /\ idle s' /\ schema (st_db s').
Proof.
  pose proof (fun out s' c' => Process_all_or_nothing "evt_1" (@resolve sample_interpreter)
    (@decider sample_unicode sample_interpreter)
    (mkStore sample_db None [Fine; Fine; Fine; Fine; Fine; Fine; Fine; Lost "connection reset"])
    captured_zero out s' c' sample_schema eq_refl) as P.
  destruct (EventRepository_Process _ _ _ _) as [out [s' c']] eqn:E.
  destruct (P out s' c' eq_refl) as (Hi & Hs & _). split; [|split; assumption].
  apply (f_equal fst) in E. vm_compute in E. rewrite <- E. eexists. reflexivity.
Defined.

(** The sample event processed once, the commit's acknowledgement lost. *)
Definition sample_lost : Store :=
  mkStore sample_db None [Fine; Fine; Fine; Fine; Fine; Fine; Fine; Lost "connection reset"].
Definition sample_run (s : Store) : res Result * (Store * Captured) :=
  EventRepository_Process "evt_1" (@resolve sample_interpreter) (@decider sample_unicode sample_interpreter)
    (s, captured_zero).

Lemma run_pair {A B C} (x : A * (B * C)) : x = (x.1, (x.2.1, x.2.2)).
Proof. by destruct x as [? [? ?]]. Qed.

Lemma sample_run_stable s : store_stable s -> store_stable (sample_run s).2.1.
Proof.
  intros [Hs Hi]. pose proof (run_pair (sample_run s)) as E.
  apply Process_cases in E as (? & ? & _); done.
Qed.

(** An order is paid only by the money that pays it. If one [handle], with
    any faults, changes a row of [orders], then that order was pending and only
    its status becomes paid; the entry named by the message was open and signed
    by the interpreter's provider; it reports a success that names this order,
    a payment of this order and its attempt; the amount it reports is the
    payment's and the order's, the currency is theirs up to case; and the same
    transaction moves that payment, until then unsettled, to succeeded. *)
Theorem order_paid_only_by_matching_success `{UnicodeTables} `{Interpreter} (s : Service) (id : string)
    (w : Store) (oid : string) :
  store_stable w ->
  orders (st_db (answer_world (handle s id w))) !! oid <> orders (st_db w) !! oid ->
  exists o row outcome p p',
    orders (st_db w) !! oid = Some o /\ OrderRow_Status o = "pending" /\
    orders (st_db (answer_world (handle s id w))) !! oid = Some (order_paid (db_now (st_db w)) o) /\
    webhook_events (st_db w) !! id = Some row /\ EventRow_Status row <> Webhooks.StatusProcessed /\
    EventRow_Provider row = Interpreter_Provider /\
    Interpret (InboxEntry_Event (entry_of_row row)) = Ok outcome /\
    SessionOutcome_Outcome outcome = OutcomeSucceeded /\ SessionOutcome_OrderID outcome = oid /\
    payments (st_db w) !! SessionOutcome_PaymentID outcome = Some p /\ PaymentRow_OrderID p = oid /\
    paymentSettled (PaymentRow_Status p) = false /\
    SessionOutcome_Amount outcome = PaymentRow_Amount p /\ PaymentRow_Amount p = OrderRow_Amount o /\
    EqualFold (SessionOutcome_Currency outcome) (PaymentRow_Currency p) = true /\
    PaymentRow_Currency p = OrderRow_Currency o /\
    payments (st_db (answer_world (handle s id w))) !! SessionOutcome_PaymentID outcome = Some p' /\
    PaymentRow_Status p' = Payments.StatusSucceeded.
Proof. apply paid_by_success. Qed.

Lemma order_paid_only_by_matching_success_witness :
  exists p', payments (st_db (answer_world (@handle sample_unicode sample_interpreter _ _
    (NewService (mkConfig 10) []) "evt_1" sample_store))) !! "pay_1" = Some p' /\
    PaymentRow_Status p' = Payments.StatusSucceeded.
Proof.
  assert (store_stable sample_store) as Hs by (split; [apply sample_schema | reflexivity]).
  destruct (@order_paid_only_by_matching_success sample_unicode sample_interpreter
    (NewService (mkConfig 10) []) "evt_1" sample_store "ord_1" Hs)
    as (o & row & outcome & p & p' & _ & _ & _ & Hrow & _ & _ & Hi & _ & _ & _ & _ & _ & _ & _ & _ & _ & H1 & H2).
  - intros E. apply (f_equal (fmap OrderRow_Status)) in E. vm_compute in E. discriminate E.
  - vm_compute in Hrow. injection Hrow as <-. vm_compute in Hi. injection Hi as <-.
    exists p'. split; [exact H1 | exact H2].
Defined.

(** The matrix and the schema agree. On a locked aggregate, an effect the
    decider approved is written in full when no statement is refused: every
    guarded update matches exactly one row, provided an order to be paid is
    still pending, so the invariant error cannot arise from the attempt or the
    payment. *)
Theorem approved_effect_is_written `{UnicodeTables} (d : DB) (agg : Aggregate) (a : AttemptRow) (p : PaymentRow)
    (o : OrderRow) (outcome : SessionOutcome) (provider : string) (eff : Effect) (v : option DB) :
  schema d -> aggregate_at d agg a p o -> decideEffect outcome agg provider = Ok eff ->
  (Effect_OrderPaid eff = true -> OrderRow_Status o = "pending") ->
  applyEffect agg eff (mkStore d v []) = (Ok (writes eff), mkStore (effect_db agg eff d) v []).
Proof. intros. by eapply applyEffect_fine. Qed.

Lemma approved_effect_is_written_witness :
  let agg := mkAggregate "ord_1" "pending" "pay_1" "pending" "stripe" 30000 "BRL" "pat_1" "pending" "cs_1" in
  applyEffect agg (mkEffect "succeeded" "succeeded" true "") (mkStore sample_db None []) =
  (Ok true, mkStore (effect_db agg (mkEffect "succeeded" "succeeded" true "") sample_db) None []).
Proof.
  apply (@approved_effect_is_written sample_unicode sample_db
    (mkAggregate "ord_1" "pending" "pay_1" "pending" "stripe" 30000 "BRL" "pat_1" "pending" "cs_1")
    sample_attempt sample_payment sample_order (sample_outcome OutcomeSucceeded) "stripe").
  - apply sample_schema.
  - split; try reflexivity. left. reflexivity.
  - vm_compute. reflexivity.
  - intros _. reflexivity.
Defined.

(** The disposition and the durable entry agree. When [handle] reports no
    error, an acknowledged event is processed in the inbox; a dead-lettered one
    is failed there, with the reported attempt count, or does not exist; a
    retried one is neither failed nor out of budget, its count is the reported
    one and its cause is not terminal. This holds for every repository that
    keeps the contract. *)
Theorem disposition_agrees_with_inbox `{UnicodeTables} `{Interpreter} {W : Type} `{RepositoryContract W}
    (s : Service) (id : string) (w : W) :
  stable w -> in_int32 (Config_MaxAttempts (config s)) ->
  stable (answer_world (handle s id w)) /\
  (answer_err (handle s id w) = None ->
   durable (answer_handling (handle s id w)) (Config_MaxAttempts (config s)) id w (answer_world (handle s id w))).
Proof. apply handle_durable. Qed.

Lemma disposition_agrees_with_inbox_witness :
  let a := @handle sample_unicode sample_interpreter Store _ (NewService (mkConfig 10) []) "evt_missing" sample_store in
  Handling_Disposition (answer_handling a) = DispositionDead /\ store_inbox (answer_world a) "evt_missing" = None.
Proof.
  assert (store_stable sample_store) as Hs by (split; [apply sample_schema | reflexivity]).
  destruct (@disposition_agrees_with_inbox sample_unicode sample_interpreter Store _ EventRepository_contract
    (NewService (mkConfig 10) []) "evt_missing" sample_store Hs) as [_ H].
  { unfold in_int32, MaxInt32. simpl. lia. }
  specialize (H ltac:(vm_compute; reflexivity)). revert H.
  unfold durable.
  replace (Handling_Disposition _) with DispositionDead by (vm_compute; reflexivity).
  intros [[H _]|[H _]].
  - split; [reflexivity | exact H].
  - exfalso. vm_compute in H. discriminate H.
Defined.

(** C27: retries end. However a message's attempts fail, it is answered with a
    retry at most [MaxAttempts - 1 - n] times in a row when [n] attempts were
    already counted, because every retry answer has durably counted one. *)
Theorem retry_budget `{UnicodeTables} `{Interpreter} {W : Type} `{RepositoryContract W}
    (s : Service) (id : string) (k : nat) (w w' : W) (st : Webhooks.Status) (n : Z) :
  stable w -> in_int32 (Config_MaxAttempts (config s)) -> inbox w id = Some (st, n) -> 0 <= n ->
  retried s id k w = Some w' -> (0 < k)%nat -> n + Z.of_nat k < Config_MaxAttempts (config s).
Proof.
  intros Hw Hmax Hin Hn Hr Hk. destruct (retried_bound s id k w w' st n Hw Hmax Hin Hr)
    as (st' & n' & _ & Hle & [?|?]); lia.
Qed.

(** Two refused calls in a row leave the event on its second attempt. *)
Definition sample_refused : Store :=
  mkStore sample_db None [Fails "down"; Fine; Fails "down"; Fine].

Lemma retry_budget_witness : 0 + Z.of_nat 2 < 3.
Proof.
  assert (store_stable sample_refused) as Hs by (split; [apply sample_schema | reflexivity]).
  apply (@retry_budget sample_unicode sample_interpreter Store _ EventRepository_contract
    (NewService (mkConfig 3) []) "evt_1" 2 sample_refused
    (default sample_refused (@retried sample_unicode sample_interpreter Store _ (NewService (mkConfig 3) []) "evt_1" 2 sample_refused))
    "pending" 0 Hs).
  - unfold in_int32, MaxInt32. simpl. lia.
  - vm_compute. reflexivity.
  - lia.
  - vm_compute. reflexivity.
  - lia.
Defined.

Lemma failure_check b n l now r :
  events_check r = true -> EventRow_Attempts r < MaxInt32 -> events_check (failure_update b n l now r) = true.
Proof.
  unfold events_check, failure_update, int4. cbn -[Z.leb MaxInt32]. intros Hc Hlt. go_bool.
  repeat (apply andb_true_iff; split); try (apply Z.leb_le; unfold MaxInt32 in *; lia); try done.
  by destruct (b || (n <=? EventRow_Attempts r + 1)).
Qed.

(** C26: a lost acknowledgement counts against the event. When the transaction
    took effect but its commit was not acknowledged, [handle] records a failure
    of the processed entry: its effect stays, the attempt is counted a second
    time, and the entry is answered with a retry while the budget lasts; on the
    last attempt the processed entry itself is filed as failed and the message
    dead-lettered. *)
Theorem lost_acknowledgement_refiles_event `{UnicodeTables} `{Interpreter} (s : Service) (id : string) (w : Store)
    (e : error) (w1 : Store) (c1 : Captured) (row : EventRow) :
  store_stable w -> in_int32 (Config_MaxAttempts (config s)) ->
  EventRepository_Process id resolve decider (w, captured_zero) = (Err e, (w1, c1)) ->
  st_db w1 <> st_db w -> st_faults w1 = [] ->
  webhook_events (st_db w1) !! id = Some row -> EventRow_Attempts row < MaxInt32 ->
  EventRow_Status row = Webhooks.StatusProcessed /\
  let a := handle s id w in
  let spent := isTerminal e || (Config_MaxAttempts (config s) <=? EventRow_Attempts row + 1) in
  answer_err a = None /\
  Handling_Disposition (answer_handling a) = (if spent then DispositionDead else DispositionRetry) /\
  store_inbox (answer_world a) id =
    Some (if spent then Webhooks.StatusFailed else Webhooks.StatusProcessed, EventRow_Attempts row + 1) /\
  orders (st_db (answer_world a)) = orders (st_db w1) /\ payments (st_db (answer_world a)) = payments (st_db w1) /\
  payment_attempts (st_db (answer_world a)) = payment_attempts (st_db w1).
Proof.
  intros [Hs Hi] Hmax E Hne Hf Hrow Hlt.
  destruct (Process_cases _ _ _ _ _ _ _ _ Hs Hi E) as (Hi1 & Hs1 & [[Hd _]|(result & Hc & _)]); [done|].
  apply committed_event in Hc as (row0 & row1 & Hrow0 & Hrow1 & Hst & Hn).
  assert (row1 = row) as -> by congruence. split; [done|]. cbv zeta.
  pose proof (events_ok _ Hs1 _ _ Hrow) as Hck. pose proof (events_check_bounds _ Hck) as Hb.
  unfold handle, Process, EventRepository. rewrite E. unfold classify, RecordFailure, EventRepository_RecordFailure.
  destruct w1 as [d1 v1 f1]. simpl in *. subst f1. change (Some (Sanitize (Error e))) with (errorText (Some e)).
  rewrite exec_fine, RecordWebhookEventFailure_spec, Hrow by done. cbv zeta. rewrite failure_check by done.
  cbn -[isTerminal Z.leb Z.eqb store_inbox set_events]. rewrite wrap32_id, Hst by done.
  destruct (Z.eqb_spec (EventRow_Attempts row + 1) 0); [lia|].
  destruct (isTerminal e || (Config_MaxAttempts (config s) <=? EventRow_Attempts row + 1)) eqn:Esp;
    cbn -[isTerminal Z.leb store_inbox set_events]; (split_and!; [done|done| |done..]);
    unfold store_inbox; cbn -[Z.leb isTerminal]; rewrite lookup_insert_eq; cbn -[Z.leb isTerminal]; by rewrite Esp, ?Hst.
Qed.

Lemma lost_acknowledgement_refiles_event_witness :
  let a := @handle sample_unicode sample_interpreter Store _ (NewService (mkConfig 2) []) "evt_1" sample_lost in
  Handling_Disposition (answer_handling a) = DispositionDead /\
  store_inbox (answer_world a) "evt_1" = Some (Webhooks.StatusFailed, 2).
Proof.
  assert (store_stable sample_lost) as Hs by (split; [apply sample_schema | reflexivity]).
  assert (exists e w1 c1 row, sample_run sample_lost = (Err e, (w1, c1)) /\ isTerminal e = false /\
    EventRow_Status <$> webhook_events (st_db w1) !! "evt_1" = Some "processed" /\ st_faults w1 = [] /\
    webhook_events (st_db w1) !! "evt_1" = Some row /\ EventRow_Attempts row = 1) as
    (e & w1 & c1 & row & E & He & Hne & Hf & Hrow & Hn)
    by (do 4 eexists; split_and!; vm_compute; reflexivity).
  destruct (@lost_acknowledgement_refiles_event sample_unicode sample_interpreter (NewService (mkConfig 2) []) "evt_1"
    sample_lost e w1 c1 row Hs) as (_ & _ & Hd & Hi & _).
  - unfold in_int32, MaxInt32. simpl. lia.
  - exact E.
  - intros Heq. rewrite Heq in Hne. vm_compute in Hne. discriminate Hne.
  - exact Hf.
  - exact Hrow.
  - rewrite Hn. reflexivity.
  - rewrite He, Hn in Hd, Hi. split; [exact Hd | exact Hi].
Defined.
