(* ===== verification/Redelivery.v ===== *)
(** * An event delivered again

    Once a transaction has applied an event its entry is marked processed. What
    the statements leave of that mark, and what a later call then does. *)

From S2P Require Import Prelude GoLib Webhooks Store Queries Consumer EventRepo Samples Querier Processing.
From stdpp Require Import relations.
#[local] Open Scope Z_scope.

(** The entry is marked as processed. *)
Definition applied (id : string) (d : DB) : Prop :=
  schema d /\ exists row, webhook_events d !! id = Some row /\ EventRow_Status row = Webhooks.StatusProcessed.

(** The statement counts no failure of the entry. *)
Definition records_no_failure (id : string) {B} (q : Querier B) : Prop :=
  match q with RecordWebhookEventFailure _ _ _ id' => id' <> id | _ => True end.

Lemma applied_same id d d' : webhook_events d' = webhook_events d -> schema d' -> applied id d -> applied id d'.
Proof. unfold applied. intros -> Hs [_ ?]. by split. Qed.

Lemma applied_update {A} id p f (g : gmap string EventRow -> Time -> res (gmap string EventRow * A)) :
  preserves (with_events g) ->
  (forall t now t' a, g t now = Ok (t', a) -> exists n, update_events p (f now) t = Ok (t', n)) ->
  (forall now r, EventRow_ID r = id -> p r = true -> EventRow_Status r = Webhooks.StatusProcessed ->
    EventRow_Status (f now r) = Webhooks.StatusProcessed) ->
  forall d a d', applied id d -> with_events g d = Ok (a, d') -> applied id d'.
Proof.
  intros Hp Hg Hf d a d' [Hs (row & Hrow & Hst)] Hu. split; [by eapply Hp|].
  apply with_Ok in Hu as (t & Hu & ->). apply Hg in Hu as (n & (-> & _)%update_table_Ok).
  exists (if p row then f (db_now d) row else row). cbn [webhook_events set_events].
  rewrite lookup_fmap, Hrow. split; [done|]. destruct (p row) eqn:Ep; [|done].
  apply Hf; [by apply (events_keyed _ Hs) | done | done].
Qed.

Section Redelivery.
Context `{Postgres}.

(** No other statement takes the mark away: a replay asks for a failed entry. *)
Lemma applied_kept id {B} (q : Querier B) d b d' : records_no_failure id q -> applied id d -> Queries_ q d = Ok (b, d') ->
  applied id d'.
Proof.
  intros Hq Ha E. pose proof (Queries_keeping q d b d' (proj1 Ha) E) as [Hs' _].
  assert (webhook_events d' = webhook_events d -> applied id d') as Hsame by (intros; by eapply applied_same).
  destruct q; cbn [Queries_ records_no_failure] in *;
    try (apply Hsame; first
      [ by apply select_one_reads in E as -> | by injection E as _ <- | by apply with_Ok in E as (t & _ & ->) ]).
  - apply Hsame. revert E. unfold Queries.InsertOutboxEvent. case_match; [done|].
    destruct (insert_table _ _ _ _ _ _); [|done]. by intros [= _ <-].
  - destruct Ha as [_ (row & Hrow & Hst)]. split; [done|]. exists row. split; [|done]. revert E. unfold Queries.InsertWebhookEvent.
    destruct (jsonb _); [|done]. repeat (case_match; [done|]).
    destruct (insert_table _ _ _ _ _ _) as [t|] eqn:E; [|done]. intros [= _ <-].
    apply insert_table_Ok in E as (-> & Hn & _). cbn [webhook_events set_events].
    rewrite lookup_insert_ne; [done|]. congruence.
  - apply Hsame. revert E. unfold Queries.ListWebhookEvents. case_match; [done|]. by intros [= _ <-].
  - refine (applied_update id _ _ _ (MarkWebhookEventProcessed_schema _ _) _ _ d b d' Ha E); [intros t now t' a E1; eexists; exact E1 | done].
  - refine (applied_update id (fun r => (EventRow_ID r =s? _) && true) _ _ (RecordWebhookEventFailure_schema _ _ _ _) _ _ d b d' Ha E).
    + intros t now t' a. cbv zeta. destruct (update_events _ (failure_update _ _ _ _) _) as [[t2 k]|] eqn:E1; [|done]. cbn [res_bind].
      destruct (scan_one _); [|done]. intros [= -> _]. exists k. exact E1.
    + intros now r E1 Hp. go_bool. congruence.
  - refine (applied_update id _ _ _ (ResetWebhookEventForReplay_schema _) _ _ d b d' Ha E); [intros t now t' a E1; eexists; exact E1|].
    intros now r _ [_ Hp]%andb_prop Hst. by rewrite Hst in Hp.
Qed.

(** What may happen between two calls for an entry: anything done with the
    statements, in transactions or not and under any faults, that counts no
    failure of it; and whatever leaves the table of entries alone. *)
Definition meanwhile (id : string) (s s' : Store) : Prop :=
  (exists c, issues (fun B => @records_no_failure id B) c /\ s' = run c s) \/
  webhook_events (st_db s') = webhook_events (st_db s) /\ store_stable s'.

Lemma applied_meanwhile id s s' : meanwhile id s s' -> applied id (st_db s) -> idle s -> applied id (st_db s') /\ idle s'.
Proof.
  intros [(c & Hc & ->) | [Es [Hs Hi]]] Ha Hi0.
  - apply (run_invariant (fun B => @records_no_failure id B) (applied id)); try done.
    + intros B q d b d'. apply applied_kept.
    + intros now s1 [[] (row & ? & ?)]. split; [by split | by exists row].
  - split; [by eapply applied_same | done].
Qed.

Lemma applied_run id s s' : rtc (meanwhile id) s s' -> applied id (st_db s) -> idle s -> applied id (st_db s') /\ idle s'.
Proof. induction 1 as [|s s1 s' Hm _ IH]; [done|]. intros Ha Hi. destruct (applied_meanwhile id s s1 Hm Ha Hi). auto. Qed.

(** ** Properties *)

(** C7: an applied event is never applied again. Once a call for an entry
    changed the database, whether or not the caller saw the commit, and whatever
    happens afterwards as long as nobody counts a failure of that entry, every
    later call for it, with any resolver and decider, changes nothing, never
    runs them and answers that the event was already processed unless the
    database refuses. *)
Theorem applied_event_never_reapplied {S S'} (id : string) (r : Resolver S) (d : Decider S) (s : Store) (c : S)
    (out : res Result) (s1 : Store) (c1 : S) (r' : Resolver S') (d' : Decider S') (s2 : Store) (c2 : S')
    (out' : res Result) (s3 : Store) (c3 : S') :
  store_stable s -> EventRepository_Process id r d (s, c) = (out, (s1, c1)) -> st_db s1 <> st_db s ->
  rtc (meanwhile id) s1 s2 ->
  EventRepository_Process id r' d' (s2, c2) = (out', (s3, c3)) ->
  st_db s3 = st_db s2 /\ c3 = c2 /\
  (out' = Ok (mkResult false "event was already processed") \/ exists e, out' = Err e).
Proof.
  intros [Hs Hi] E Hne Hrun.
  apply Process_cases in E as (Hi1 & Hs1 & [[Hd _]|(res & Hc & _)]); [done| |done..].
  apply committed_event in Hc as (row & row' & _ & Hrow' & Hp & _).
  destruct (applied_run id s1 s2 Hrun) as [[Hs2 (row2 & Hrow2 & Hp2)] Hi2]; [by split; [|exists row'] | done|].
  by eapply Process_processed.
Qed.
End Redelivery.

(** ** Witness *)

(** A transaction asks for the replay of the entry and marks it once more, and a
    failure of another entry is counted, before it is delivered again. *)
Definition between : Client :=
  Transaction (Query (ResetWebhookEventForReplay "evt_1") (fun _ => Query (MarkWebhookEventProcessed "evt_1" None) Done)) (fun _ =>
  Pool (RecordWebhookEventFailure false 1 None "evt_2") (fun _ => Later 9 Stop)).

Lemma applied_event_never_reapplied_witness :
  let s2 := @run sample_postgres between (sample_run sample_lost).2.1 in
  st_db (sample_run s2).2.1 = st_db s2 /\
  (sample_run s2).1 = Ok (mkResult false "event was already processed").
Proof.
  intros s2.
  assert (store_stable sample_lost) as Hs by (split; [apply sample_schema | reflexivity]).
  assert (st_db (sample_run sample_lost).2.1 <> st_db sample_lost) as Hne.
  { intros E. apply (f_equal (fun d => EventRow_Status <$> webhook_events d !! "evt_1")) in E.
    vm_compute in E. discriminate E. }
  assert (rtc (@meanwhile sample_postgres "evt_1") (sample_run sample_lost).2.1 s2) as Hrun.
  { apply rtc_once. left. exists between. split; [|reflexivity]. cbn. split_and!; try done. }
  destruct (@applied_event_never_reapplied sample_postgres _ _ "evt_1" (@resolve sample_interpreter)
    (@decider sample_unicode sample_interpreter) sample_lost captured_zero _ _ _
    (@resolve sample_interpreter) (@decider sample_unicode sample_interpreter) s2 captured_zero _ _ _ Hs
    (run_pair (sample_run sample_lost)) Hne Hrun (run_pair (sample_run s2))) as (H & _).
  split; [exact H | vm_compute; reflexivity].
Defined.
