(* ===== verification/Outbox.v ===== *)
(** * The relay use case: [internal/application/outbox]

    Leasing due messages, publishing them and recording each outcome
    ([service.go]), the classification of publish errors ([errors.go]) and the
    retry delay ([backoff.go]). [OutboxRepo] implements the repository port. *)

From S2P Require Import Prelude GoLib Webhooks.

(** ** [errors.go] *)

Definition ErrNotConfirmed : error :=
  ErrSentinel "outbox.ErrNotConfirmed" "broker did not confirm the publication".
Definition ErrNotRouted : error :=
  ErrSentinel "outbox.ErrNotRouted" "broker could not route the message to any queue".
Definition ErrLeaseLost : error :=
  ErrSentinel "outbox.ErrLeaseLost" "lease was lost before the outcome could be recorded".

Definition Permanent (err : error) : error := ErrPermanent err.

(** [errors.As] with a [*PermanentError] target. *)
Fixpoint IsPermanent (err : error) : bool :=
  match err with
  | ErrPermanent _ => true
  | ErrWrap _ cause _ => IsPermanent cause
  | ErrWrap2 _ e1 _ e2 _ => IsPermanent e1 || IsPermanent e2
  | _ => false
  end.

(** ** [backoff.go] *)

Record Backoff := mkBackoff { Backoff_Base : Duration; Backoff_Max : Duration }.

Definition DefaultBackoffBase : Duration := 2 * Second.
Definition DefaultBackoffMax : Duration := 5 * Minute.

Definition Backoff_withDefaults (b : Backoff) : Backoff :=
  mkBackoff (if Backoff_Base b <=? 0 then DefaultBackoffBase else Backoff_Base b)
            (if Backoff_Max b <=? 0 then DefaultBackoffMax else Backoff_Max b).

(** [float64(z)] of a positive integer: 53 significant bits, ties to even. *)
Definition float64 (z : Z) : Z :=
  let k := Z.log2 z - 52 in
  if k <=? 0 then z
  else
    let q := Z.shiftr z k in
    let r := z - Z.shiftl q k in
    let half := 2 ^ (k - 1) in
    let up := (half <? r) || ((r =? half) && Z.odd q) in
    Z.shiftl (if up then q + 1 else q) k.

Definition maxExponent : Z := 20.

(** [random] stands for the source behind [rand.Int64N(n)], a value in
    [0, n). *)
Definition Delay `{FloatConversion} (b : Backoff) (attempts : Z) (random : Z) : Duration :=
  let b := Backoff_withDefaults b in
  let attempts := if attempts <? 0 then 0 else attempts in
  let exponent := Z.min attempts maxExponent in
  let delay := to_int64 (float64 (Backoff_Base b) * 2 ^ exponent) in
  let delay := if (delay <=? 0) || (Backoff_Max b <? delay) then Backoff_Max b else delay in
  let jittered := wrap64 (random mod delay + Millisecond) in
  if delay <? jittered then delay else jittered.

(** ** [service.go]: data *)

Record Lease := mkLease {
  Lease_Message : Message;
  Lease_Attempts : Z;
  Lease_Expires : Time;
}.

Record Result := mkResult {
  Result_Leased : Z;
  Result_Published : Z;
  Result_Retrying : Z;
  Result_Failed : Z;
  Result_LeasesLost : Z;
}.
Definition zero_result : Result := mkResult 0 0 0 0 0.
Definition Empty (r : Result) : bool := Result_Leased r =? 0.

Record Config := mkConfig {
  Config_BatchSize : Z;
  Config_Interval : Duration;
  Config_LeaseDuration : Duration;
  Config_Backoff : Backoff;
  Config_AlertAfterAttempts : Z;
}.

Definition SettlementReserve : Duration := 5 * Second.
Definition DefaultBatchSize : Z := 20.
Definition DefaultInterval : Duration := Second.
Definition DefaultLeaseDuration : Duration := 2 * Minute.
Definition DefaultAlertAfterAttempts : Z := 10.

Definition withDefaults (c : Config) : Config :=
  mkConfig
    (if Config_BatchSize c <=? 0 then DefaultBatchSize else Config_BatchSize c)
    (if Config_Interval c <=? 0 then DefaultInterval else Config_Interval c)
    (if Config_LeaseDuration c <=? 0 then DefaultLeaseDuration else Config_LeaseDuration c)
    (Backoff_withDefaults (Config_Backoff c))
    (if Config_AlertAfterAttempts c <=? 0 then DefaultAlertAfterAttempts else Config_AlertAfterAttempts c).

Inductive Outcome : Type := OutcomePublished | OutcomeRetrying | OutcomeFailed | OutcomeLeaseLost.

#[export] Instance Outcome_eq_dec : EqDecision Outcome.
Proof. solve_decision. Defined.

Definition Outcome_String (o : Outcome) : string :=
  match o with
  | OutcomePublished => "published"
  | OutcomeRetrying => "retrying"
  | OutcomeFailed => "failed"
  | OutcomeLeaseLost => "lease_lost"
  end.

Record Publication := mkPublication {
  Publication_Outcome : Outcome;
  Publication_Attempts : Z;
  Publication_Duration : Duration;
  Publication_Cause : option error;
}.

(** [CycleStage]; its zero value, no stage, is [None]. *)
Inductive CycleStage : Type := StageLease | StageSettlement.
Definition CycleStage_String (s : option CycleStage) : string :=
  match s with
  | Some StageLease => "lease"
  | Some StageSettlement => "settlement"
  | None => "unknown"
  end.

Record Cycle := mkCycle {
  Cycle_Result : Result;
  Cycle_Duration : Duration;
  Cycle_Err : option error;
  Cycle_Stage : option CycleStage;
}.

(** What observers are told; the last two only when they extend
    [CycleObserver]. *)
Inductive Notification : Type :=
| Stuck (messageID : string) (attempts : Z) (cause : error)
| Abandoned (messageID : string) (attempts : Z) (cause : error)
| LeaseLost (messageID : string) (cause : error)
| PublicationSettled (publication : Publication)
| CycleCompleted (cycle : Cycle).

Record Observer := mkObserver { Observer_Name : string; Observer_Extended : bool }.

Record TestHooks := mkTestHooks { BeforeSettlement : option (Message -> option error) }.

Record Service := mkService {
  observers : list Observer;
  owner : string;
  config : Config;
  testHooks : TestHooks;
}.

Definition ServiceOption : Type := Service -> Service.
Definition WithObserver (observer : option Observer) : ServiceOption := fun s =>
  match observer with
  | Some o => mkService (observers s ++ [o]) (owner s) (config s) (testHooks s)
  | None => s
  end.
Definition WithTestHooks (hooks : TestHooks) : ServiceOption := fun s =>
  mkService (observers s) (owner s) (config s) hooks.
Definition NewService (owner : string) (c : Config) (opts : list ServiceOption) : Service :=
  fold_left (fun s option => option s) opts (mkService [] owner (withDefaults c) (mkTestHooks None)).

Definition Log : Type := list (string * Notification).
Definition eachObserver (s : Service) (n : Notification) : Log :=
  (fun o => (Observer_Name o, n)) <$> observers s.
Definition eachCycleObserver (s : Service) (n : Notification) : Log :=
  (fun o => (Observer_Name o, n)) <$> List.filter Observer_Extended (observers s).

(** ** [service.go]: ports

    The repository and the broker share one world [W], so that a publication
    and its settlement are steps on the same state. *)
Class Publisher (W : Type) : Type := Publish : Message -> M W unit.

Class Repository (W : Type) : Type := {
  Lease_batch : string -> Z -> Duration -> M W (list Lease);
  Published : string -> string -> M W unit;
  Retry : string -> string -> error -> Duration -> M W unit;
  Failed : string -> string -> error -> M W unit;
}.

(** What a cycle takes from its surroundings: before lease [i], whether one of
    the contexts has ended; how long its publication took; the random source
    of its backoff. *)
Record Env := mkEnv {
  interrupted : nat -> bool;
  publish_time : nat -> Duration;
  random : nat -> Z;
}.

(** ** [service.go]: the cycle *)

Section Relay.
Context {W : Type} `{Publisher W} `{Repository W} `{FloatConversion}.

(** Answers of the steps: an outcome with its cause, or the error of the
    cycle; what was notified; the world. *)
Definition Settled : Type := res (Outcome * option error) * Log * W.

Definition leaseOutcome (s : Service) (lease : Lease) (err : error) (action : string) (w : W) : Settled :=
  if Is err ErrLeaseLost
  then (Ok (OutcomeLeaseLost, Some err), eachObserver s (LeaseLost (Message_ID (Lease_Message lease)) err), w)
  else (Err (wrapf action err), [], w).

Definition settle (s : Service) (lease : Lease) (publishErr : option error) (attempts : Z)
    (rand : Z) (w : W) : Settled :=
  let id := Message_ID (Lease_Message lease) in
  match publishErr with
  | None =>
      match (match BeforeSettlement (testHooks s) with Some hook => hook (Lease_Message lease) | None => None end) with
      | Some err => (Err (wrapf "before outbox settlement" err), [], w)
      | None =>
          let '(settled, w) := Published (owner s) id w in
          match settled with
          | Err err => leaseOutcome s lease err "mark published" w
          | Ok _ => (Ok (OutcomePublished, None), [], w)
          end
      end
  | Some publishErr =>
      if IsPermanent publishErr
      then let '(settled, w) := Failed (owner s) id publishErr w in
           match settled with
           | Err err => leaseOutcome s lease err "mark failed" w
           | Ok _ => (Ok (OutcomeFailed, Some publishErr), eachObserver s (Abandoned id attempts publishErr), w)
           end
      else let '(settled, w) := Retry (owner s) id publishErr
                                  (Delay (Config_Backoff (config s)) (Lease_Attempts lease) rand) w in
           match settled with
           | Err err => leaseOutcome s lease err "mark retryable" w
           | Ok _ =>
               (Ok (OutcomeRetrying, Some publishErr),
                (if Config_AlertAfterAttempts (config s) <=? attempts
                 then eachObserver s (Stuck id attempts publishErr) else []), w)
           end
  end.

Definition publishOne (s : Service) (lease : Lease) (elapsed : Duration) (rand : Z) (w : W)
    : res Outcome * Log * W :=
  let '(published, w) := Publish (Lease_Message lease) w in
  let publishErr := match published with Ok _ => None | Err err => Some err end in
  let attempts := Lease_Attempts lease + 1 in
  let '(settled, log, w) := settle s lease publishErr attempts rand w in
  match settled with
  | Err err => (Err err, log, w)
  | Ok (outcome, cause) =>
      (Ok outcome,
       log ++ eachCycleObserver s (PublicationSettled (mkPublication outcome attempts elapsed cause)), w)
  end.

Definition count (o : Outcome) (r : Result) : Result :=
  let '(mkResult leased published retrying failed lost) := r in
  match o with
  | OutcomePublished => mkResult leased (published + 1) retrying failed lost
  | OutcomeRetrying => mkResult leased published (retrying + 1) failed lost
  | OutcomeFailed => mkResult leased published retrying (failed + 1) lost
  | OutcomeLeaseLost => mkResult leased published retrying failed (lost + 1)
  end.

Definition CycleAnswer : Type := Result * option CycleStage * option error * Log * W.

(** The loop over the leased batch; [i] numbers the leases. *)
Fixpoint publish_batch (s : Service) (env : Env) (i : nat) (leases : list Lease) (result : Result)
    (log : Log) (w : W) : CycleAnswer :=
  match leases with
  | [] => (result, None, None, log, w)
  | lease :: rest =>
      if interrupted env i then (result, None, None, log, w)
      else
        let '(outcome, log1, w) := publishOne s lease (publish_time env i) (random env i) w in
        match outcome with
        | Err err => (result, Some StageSettlement, Some err, log ++ log1, w)
        | Ok outcome => publish_batch s env (S i) rest (count outcome result) (log ++ log1) w
        end
  end.

Definition runOnce (s : Service) (env : Env) (w : W) : CycleAnswer :=
  let '(leased, w) := Lease_batch (owner s) (Config_BatchSize (config s))
                        (Config_LeaseDuration (config s)) w in
  match leased with
  | Err err => (zero_result, Some StageLease, Some (wrapf "lease outbox batch" err), [], w)
  | Ok leases =>
      publish_batch s env 0 leases (mkResult (Z.of_nat (length leases)) 0 0 0 0) [] w
  end.

Definition RunOnce (s : Service) (env : Env) (elapsed : Duration) (w : W) : Result * option error * Log * W :=
  let '(result, stage, err, log, w) := runOnce s env w in
  (result, err, log ++ eachCycleObserver s (CycleCompleted (mkCycle result elapsed err stage)), w).

(** One turn of [Run] as its surroundings decide it: the cycle's environment
    and duration, whether the context had ended when the cycle failed, and
    whether it ended before the next turn. *)
Record Turn := mkTurn {
  turn_env : Env;
  turn_elapsed : Duration;
  turn_cancelled : bool;
  turn_done : bool;
}.

(** [Run] over the turns taken so far: what [onError] received, how many times
    the relay waited for its timer, and whether it returned. *)
Fixpoint Run (s : Service) (turns : list Turn) (w : W) : list error * nat * bool * Log * W :=
  match turns with
  | [] => ([], 0%nat, false, [], w)
  | t :: rest =>
      let '(result, err, log, w) := RunOnce s (turn_env t) (turn_elapsed t) w in
      let reported := match err with Some e => [wrapf "relay cycle" e] | None => [] end in
      if (match err with Some _ => true | None => false end) && turn_cancelled t
      then ([], 0%nat, true, log, w)
      else
        let wait := if (match err with Some _ => false | None => true end) && (0 <? Result_Published result)
                    then 0%nat else 1%nat in
        if turn_done t then (reported, wait, true, log, w)
        else let '(reported', waits, returned, log', w) := Run s rest w in
             (reported ++ reported', (wait + waits)%nat, returned, log ++ log', w)
  end.
End Relay.

(** ** Lemmas *)

Lemma float64_exact z : 0 < z < 2 ^ 53 -> float64 z = z.
Proof.
  intros Hz. unfold float64.
  replace (Z.log2 z - 52 <=? 0) with true; [done|]. symmetry. apply Z.leb_le.
  pose proof (Z.log2_lt_pow2 z 53). lia.
Qed.

Lemma Backoff_withDefaults_pos b :
  0 < Backoff_Base (Backoff_withDefaults b) /\ 0 < Backoff_Max (Backoff_withDefaults b).
Proof.
  unfold Backoff_withDefaults, DefaultBackoffBase, DefaultBackoffMax, Minute, Second, Millisecond. simpl.
  destruct (Z.leb_spec (Backoff_Base b) 0), (Z.leb_spec (Backoff_Max b) 0); lia.
Qed.

Lemma withDefaults_Backoff c : Config_Backoff (withDefaults c) = Backoff_withDefaults (Config_Backoff c).
Proof. done. Qed.

(** The delay before jitter. *)
Definition capped `{FloatConversion} (b : Backoff) (attempts : Z) : Duration :=
  let delay := to_int64 (float64 (Backoff_Base b) * 2 ^ Z.min (Z.max 0 attempts) maxExponent) in
  if (delay <=? 0) || (Backoff_Max b <? delay) then Backoff_Max b else delay.

Lemma capped_bounds `{FloatConversion} b attempts :
  0 < Backoff_Max b -> 0 < capped b attempts <= Backoff_Max b.
Proof.
  intros Hm. unfold capped. cbv zeta. destruct (_ || _) eqn:E; [lia|].
  apply orb_false_iff in E as [E1%Z.leb_gt E2%Z.ltb_ge]. lia.
Qed.

Lemma Delay_capped `{FloatConversion} b attempts rand :
  let b := Backoff_withDefaults b in
  Backoff_Max b <= MaxInt64 - Millisecond ->
  Delay b attempts rand = Z.min (capped b attempts) (rand mod capped b attempts + Millisecond).
Proof.
  cbv zeta. set (b' := Backoff_withDefaults b). intros Hmax.
  assert (Backoff_withDefaults b' = b') as Hb.
  { destruct (Backoff_withDefaults_pos b) as [H1 H2]. fold b' in H1, H2.
    unfold Backoff_withDefaults at 1. destruct (Z.leb_spec (Backoff_Base b') 0), (Z.leb_spec (Backoff_Max b') 0);
      try lia. by destruct b'. }
  unfold Delay. rewrite Hb. cbv zeta.
  replace (if attempts <? 0 then 0 else attempts) with (Z.max 0 attempts)
    by (destruct (Z.ltb_spec attempts 0); lia).
  fold (capped b' attempts).
  destruct (capped_bounds b' attempts) as [Hp Hle]; [apply Backoff_withDefaults_pos|].
  pose proof (Z.mod_pos_bound rand (capped b' attempts) Hp).
  rewrite wrap64_id by (unfold in_int64, MinInt64, MaxInt64, Millisecond in *; lia).
  destruct (Z.ltb_spec (capped b' attempts) (rand mod capped b' attempts + Millisecond)); lia.
Qed.

Section RelayLemmas.
Context {W : Type} `{Publisher W} `{Repository W} `{FloatConversion}.

(** How a settled publication relates to what the broker answered. *)
Lemma publishOne_cases s lease elapsed rand (w : W) out log w' :
  publishOne s lease elapsed rand w = (Ok out, log, w') ->
  exists published w1,
    Publish (Lease_Message lease) w = (published, w1) /\
    match out with
    | OutcomePublished => published = Ok tt
    | OutcomeFailed => exists err, published = Err err /\ IsPermanent err = true
    | OutcomeRetrying => exists err, published = Err err /\ IsPermanent err = false
    | OutcomeLeaseLost => True
    end.
Proof.
  unfold publishOne. destruct (Publish (Lease_Message lease) w) as [published w1] eqn:E.
  intros Hs. exists published, w1. split; [done|]. revert Hs.
  unfold settle, leaseOutcome. destruct published as [[]|err].
  - destruct (match BeforeSettlement (testHooks s) with Some _ => _ | None => _ end); [done|].
    destruct (Published _ _ w1) as [[[]|e] w2]; [by intros [= <- _ _]|].
    destruct (Is e ErrLeaseLost); [by intros [= <- _ _] | done].
  - destruct (IsPermanent err) eqn:Ep.
    + destruct (Failed _ _ _ w1) as [[[]|e] w2]; [intros [= <- _ _]; eauto|].
      destruct (Is e ErrLeaseLost); [by intros [= <- _ _] | done].
    + destruct (Retry _ _ _ _ w1) as [[[]|e] w2]; [intros [= <- _ _]; eauto|].
      destruct (Is e ErrLeaseLost); [by intros [= <- _ _] | done].
Qed.

Definition settled_count (r : Result) : Z :=
  Result_Published r + Result_Retrying r + Result_Failed r + Result_LeasesLost r.

Lemma count_settled o r : settled_count (count o r) = settled_count r + 1 /\
  Result_Leased (count o r) = Result_Leased r.
Proof. destruct r, o; unfold settled_count; simpl; lia. Qed.

Lemma publish_batch_counts s env i leases r log (w : W) r' stage err log' w' :
  publish_batch s env i leases r log w = (r', stage, err, log', w') ->
  Result_Leased r' = Result_Leased r /\
  settled_count r <= settled_count r' <= settled_count r + Z.of_nat (length leases) /\
  (err = None -> (forall j, interrupted env j = false) ->
   settled_count r' = settled_count r + Z.of_nat (length leases)).
Proof.
  revert i r log w. induction leases as [|lease rest IH]; intros i r log w; simpl.
  - intros [= <- <- <- <- <-]. lia.
  - destruct (interrupted env i) eqn:Ei.
    { intros [= <- <- <- <- <-]. split_and!; [done|lia..|]. intros _ Hi. by rewrite Hi in Ei. }
    destruct (publishOne _ _ _ _ w) as [[[out|e] log1] w1].
    + intros Hb. destruct (IH _ _ _ _ Hb) as (-> & Hc & Hn).
      destruct (count_settled out r) as [Hs ->]. rewrite Hs in *. split_and!; [done|lia..|].
      intros He Hi. rewrite Hn by done. lia.
    + intros [= <- <- <- <- <-]. split_and!; [done|lia..|done].
Qed.
End RelayLemmas.

(** ** Properties *)

(** Retry delays are bounded and never stop. For every configuration whose
    maximum leaves room for a millisecond, every attempt count and every random
    draw, the delay is positive, never exceeds the configured maximum, and
    never exceeds the exponential schedule of an exactly represented base. *)
Theorem Delay_bounds `{FloatConversion} (b : Backoff) (attempts rand : Z) :
  let b' := Backoff_withDefaults b in
  Backoff_Max b' <= MaxInt64 - Millisecond ->
  0 < Delay b' attempts rand <= Backoff_Max b' /\
  (Backoff_Base b' < 2 ^ 53 ->
   Delay b' attempts rand <= Backoff_Base b' * 2 ^ Z.min (Z.max 0 attempts) maxExponent).
Proof.
  cbv zeta. intros Hmax. rewrite Delay_capped by done.
  destruct (Backoff_withDefaults_pos b) as [Hb Hm]. set (b' := Backoff_withDefaults b) in *.
  destruct (capped_bounds b' attempts Hm) as [Hp Hle].
  pose proof (Z.mod_pos_bound rand (capped b' attempts) Hp).
  split; [unfold Millisecond; lia|]. intros Hbase.
  enough (capped b' attempts <= Backoff_Base b' * 2 ^ Z.min (Z.max 0 attempts) maxExponent) by lia.
  unfold capped in *. rewrite float64_exact in * by lia.
  set (e := Backoff_Base b' * 2 ^ _) in *.
  assert (0 < e) by (apply Z.mul_pos_pos; [done|]; apply Z.pow_pos_nonneg; unfold maxExponent; lia).
  unfold to_int64 in *. destruct ((MinInt64 <=? e) && (e <=? MaxInt64)) eqn:Er.
  - destruct ((e <=? 0) || (Backoff_Max b' <? e)) eqn:Ec; [|lia].
    apply orb_true_iff in Ec as [?%Z.leb_le|?%Z.ltb_lt]; lia.
  - assert (MaxInt64 < e); [|unfold Millisecond in *; lia].
    apply andb_false_iff in Er as [?%Z.leb_gt|?%Z.leb_gt]; [unfold MinInt64 in *; lia | done].
Qed.

Lemma Delay_bounds_witness :
  0 < @Delay (fun z => z) (mkBackoff DefaultBackoffBase DefaultBackoffMax) 3 123456789 <= DefaultBackoffMax.
Proof.
  apply (@Delay_bounds (fun z => z) (mkBackoff 0 0) 3 123456789).
  vm_compute. discriminate.
Defined.

(** The cycle's account is exact. Over any broker and repository, a cycle
    counts each lease it handled once, never more than it leased, and a cycle
    that met no error and no interruption accounts for every message it
    leased. *)
Theorem runOnce_accounts_for_every_lease {W : Type} `{Publisher W} `{Repository W} `{FloatConversion}
    (s : Service) (env : Env) (w : W) :
  let '(result, stage, err, log, w') := runOnce s env w in
  0 <= settled_count result <= Result_Leased result /\
  (err = None -> (forall i, interrupted env i = false) -> settled_count result = Result_Leased result).
Proof.
  unfold runOnce. destruct (Lease_batch _ _ _ w) as [[leases|e] w1]; [|done].
  destruct (publish_batch _ _ _ _ _ _ _) as [[[[r stage] err] log] w2] eqn:E.
  apply publish_batch_counts in E as (Hl & Hc & Hn). unfold settled_count in *. simpl in *.
  rewrite Hl. split; [lia|]. intros He Hi. rewrite Hn by done. lia.
Qed.

(** Each outcome means what the broker said. A publication is counted as
    published only when the broker confirmed it, as failed only when the broker
    reported a permanent error, and as retrying only for any other error, so no
    outage abandons a message. *)
Theorem publishOne_outcome_is_the_brokers {W : Type} `{Publisher W} `{Repository W} `{FloatConversion}
    (s : Service) (lease : Lease) (elapsed : Duration) (rand : Z) (w : W) :
  match publishOne s lease elapsed rand w with
  | (Ok OutcomePublished, _, _) => exists w1, Publish (Lease_Message lease) w = (Ok tt, w1)
  | (Ok OutcomeFailed, _, _) =>
      exists err w1, Publish (Lease_Message lease) w = (Err err, w1) /\ IsPermanent err = true
  | (Ok OutcomeRetrying, _, _) =>
      exists err w1, Publish (Lease_Message lease) w = (Err err, w1) /\ IsPermanent err = false
  | _ => True
  end.
Proof.
  destruct (publishOne s lease elapsed rand w) as [[[out|e] log] w'] eqn:E; [|done].
  apply publishOne_cases in E as (published & w1 & Hp & Ho).
  destruct out; [subst; eauto | destruct Ho as (err & -> & ?); eauto | destruct Ho as (err & -> & ?); eauto | done].
Qed.
