(* ===== verification/Config.v ===== *)
(** * Configuration: [internal/platform/config/config.go]

    What a process reads from its environment and the rules it must satisfy.
    Reading the local file and parsing the environment into the structure is
    the work of two libraries: [Load] takes their results. *)

From S2P Require Import Prelude GoLib Netip Outbox.

Definition PublishAttemptBudget : Duration := 5 * Second.
Definition EnvironmentDevelopment : string := "development".

Record Config := mkConfig {
  ServiceName : string;
  Environment : string;
  HTTPAddress : string;
  Port : string;
  DatabaseURL : string;
  DatabaseMaxOpenConnections : Z;
  DatabaseMaxIdleConnections : Z;
  DatabaseConnectionMaxLifetime : Duration;
  RabbitMQURL : string;
  OutboxBatchSize : Z;
  OutboxInterval : Duration;
  OutboxLeaseDuration : Duration;
  OutboxBackoffBase : Duration;
  OutboxBackoffMax : Duration;
  OutboxAlertAfterAttempts : Z;
  ConsumerConcurrency : Z;
  ConsumerPrefetch : Z;
  ConsumerMaxAttempts : Z;
  ConsumerRetryDelays : list Duration;
  IntegrationAPIKeys : list string;
  DocsEnabled : bool;
  TrustedProxyCIDRs : list string;
  TrustedProxies : list Prefix;
  RateLimitEnabled : bool;
  RateLimitClientBurst : Z;
  RateLimitClientInterval : Duration;
  RateLimitClientCapacity : Z;
  RateLimitCredentialBurst : Z;
  RateLimitCredentialInterval : Duration;
  RateLimitCredentialCapacity : Z;
  RateLimitWebhookBurst : Z;
  RateLimitWebhookInterval : Duration;
  RateLimitHealthBurst : Z;
  RateLimitHealthInterval : Duration;
  RateLimitHealthCapacity : Z;
  RateLimitIdleTTL : Duration;
  StripeSecretKey : string;
  StripeWebhookSecret : string;
  StripeSuccessURL : string;
  StripeCancelURL : string;
  LogLevel : string;
  LogFormat : string;
  StartupTimeout : Duration;
  ShutdownTimeout : Duration;
  OTelEnabled : bool;
  OTelServiceName : string;
  OTelExporterEndpoint : string;
  OTelExportInterval : Duration;
  MetricsSampleInterval : Duration;
  MetricsSampleTimeout : Duration;
  MigrationsDir : string
}.

(** The fields [Load] assigns: identity, address and proxies. *)
Definition with_derived (c : Config) (service address otel : string) (proxies : list Prefix) : Config :=
  mkConfig service (Environment c) address (Port c) (DatabaseURL c) (DatabaseMaxOpenConnections c)
    (DatabaseMaxIdleConnections c) (DatabaseConnectionMaxLifetime c) (RabbitMQURL c) (OutboxBatchSize c)
    (OutboxInterval c) (OutboxLeaseDuration c) (OutboxBackoffBase c) (OutboxBackoffMax c)
    (OutboxAlertAfterAttempts c) (ConsumerConcurrency c) (ConsumerPrefetch c) (ConsumerMaxAttempts c)
    (ConsumerRetryDelays c) (IntegrationAPIKeys c) (DocsEnabled c) (TrustedProxyCIDRs c) proxies
    (RateLimitEnabled c) (RateLimitClientBurst c) (RateLimitClientInterval c) (RateLimitClientCapacity c)
    (RateLimitCredentialBurst c) (RateLimitCredentialInterval c) (RateLimitCredentialCapacity c)
    (RateLimitWebhookBurst c) (RateLimitWebhookInterval c) (RateLimitHealthBurst c) (RateLimitHealthInterval c)
    (RateLimitHealthCapacity c) (RateLimitIdleTTL c) (StripeSecretKey c) (StripeWebhookSecret c)
    (StripeSuccessURL c) (StripeCancelURL c) (LogLevel c) (LogFormat c) (StartupTimeout c) (ShutdownTimeout c)
    (OTelEnabled c) otel (OTelExporterEndpoint c) (OTelExportInterval c) (MetricsSampleInterval c)
    (MetricsSampleTimeout c) (MigrationsDir c).

(** ** Rate limits *)

Record RateLimitPolicy := mkRateLimitPolicy {
  Enabled : bool;
  ClientBurst : Z; ClientInterval : Duration; ClientCapacity : Z;
  CredentialBurst : Z; CredentialInterval : Duration; CredentialCapacity : Z;
  WebhookBurst : Z; WebhookInterval : Duration;
  HealthBurst : Z; HealthInterval : Duration; HealthCapacity : Z;
  IdleTTL : Duration
}.

Definition Config_RateLimitPolicy (c : Config) : RateLimitPolicy :=
  mkRateLimitPolicy (RateLimitEnabled c)
    (RateLimitClientBurst c) (RateLimitClientInterval c) (RateLimitClientCapacity c)
    (RateLimitCredentialBurst c) (RateLimitCredentialInterval c) (RateLimitCredentialCapacity c)
    (RateLimitWebhookBurst c) (RateLimitWebhookInterval c)
    (RateLimitHealthBurst c) (RateLimitHealthInterval c) (RateLimitHealthCapacity c)
    (RateLimitIdleTTL c).

Record limit := mkLimit { limit_name : string; limit_burst : Z; limit_interval : Duration }.

Definition limits_of (c : Config) : list limit :=
  [mkLimit "RATE_LIMIT_CLIENT" (RateLimitClientBurst c) (RateLimitClientInterval c);
   mkLimit "RATE_LIMIT_CREDENTIAL" (RateLimitCredentialBurst c) (RateLimitCredentialInterval c);
   mkLimit "RATE_LIMIT_WEBHOOK" (RateLimitWebhookBurst c) (RateLimitWebhookInterval c);
   mkLimit "RATE_LIMIT_HEALTH" (RateLimitHealthBurst c) (RateLimitHealthInterval c)].

Fixpoint check_limits (limits : list limit) : option error :=
  match limits with
  | [] => None
  | l :: limits =>
      if limit_burst l <? 1 then Some (ErrNew (limit_name l +:+ "_BURST must be at least 1"))
      else if limit_interval l <=? 0 then Some (ErrNew (limit_name l +:+ "_INTERVAL must be positive"))
      else if Z.quot (limit_interval l) (limit_burst l) <=? 0 then
        Some (ErrNew (limit_name l +:+ "_INTERVAL is too short to refill " +:+ limit_name l +:+ "_BURST tokens"))
      else check_limits limits
  end.

Fixpoint check_capacities (capacities : list (string * Z)) : option error :=
  match capacities with
  | [] => None
  | (name, value) :: capacities =>
      if value <? 1 then Some (ErrNew (name +:+ " must be at least 1")) else check_capacities capacities
  end.

Fixpoint check_ttl (ttl : Duration) (limits : list limit) : option error :=
  match limits with
  | [] => None
  | l :: limits =>
      if ttl <? limit_interval l then
        Some (ErrNew ("RATE_LIMIT_IDLE_TTL must not be shorter than " +:+ limit_name l +:+
                      "_INTERVAL, or a bucket would be reclaimed while still refilling"))
      else check_ttl ttl limits
  end.

Definition validateRateLimits (c : Config) : option error :=
  let limits := limits_of c in
  match check_limits limits with
  | Some err => Some err
  | None =>
      match check_capacities
              [("RATE_LIMIT_CLIENT_CAPACITY", RateLimitClientCapacity c);
               ("RATE_LIMIT_CREDENTIAL_CAPACITY", RateLimitCredentialCapacity c);
               ("RATE_LIMIT_HEALTH_CAPACITY", RateLimitHealthCapacity c)] with
      | Some err => Some err
      | None =>
          if RateLimitIdleTTL c <? 0 then Some (ErrNew "RATE_LIMIT_IDLE_TTL must not be negative")
          else if RateLimitIdleTTL c >? 0 then check_ttl (RateLimitIdleTTL c) limits
          else None
      end
  end.

Definition IsDevelopment (c : Config) : bool := Environment c =s? EnvironmentDevelopment.

(** ** Proxies *)

Fixpoint ParseTrustedProxies `{GoQuote} (values : list string) : res (list Prefix) :=
  match values with
  | [] => Ok []
  | value :: values =>
      let value := TrimSpace value in
      if value =s? "" then ParseTrustedProxies values
      else
        match ParsePrefix value with
        | None => Err (ErrNew ("TRUSTED_PROXY_CIDRS entry " +:+ Quote value +:+
                               " must be a CIDR block such as 10.0.0.0/8"))
        | Some prefix => try prefixes := ParseTrustedProxies values in Ok (Masked prefix :: prefixes)
        end
  end.

(** ** [Load] *)

Definition ErrNotExist : error := ErrSentinel "os.ErrNotExist" "file does not exist".
Definition relayAndHealthConnections : Z := 2.

(** The ladder: positive and strictly ascending delays. *)
Fixpoint check_delays (previous : Duration) (delays : list Duration) : option error :=
  match delays with
  | [] => None
  | delay :: delays =>
      if delay <=? 0 then Some (ErrNew "CONSUMER_RETRY_DELAYS must contain only positive delays")
      else if delay <=? previous then Some (ErrNew "CONSUMER_RETRY_DELAYS must be strictly ascending")
      else check_delays delay delays
  end.

(** The least lease that covers publishing a batch, in [int64] arithmetic. *)
Definition minimumLease (c : Config) : Duration :=
  wrap64 (wrap64 (OutboxBatchSize c * PublishAttemptBudget) + SettlementReserve).

(** The checks between the assignments, in order. *)
Definition validate (c : Config) (requireRabbitMQ : bool) : option error :=
  let invalid text := Some (ErrNew text) in
  if requireRabbitMQ && (RabbitMQURL c =s? "") then invalid "RABBITMQ_URL is required for this process"
  else if DatabaseMaxOpenConnections c <? 1 then invalid "DATABASE_MAX_OPEN_CONNECTIONS must be positive"
  else if (DatabaseMaxIdleConnections c <? 0) || (DatabaseMaxIdleConnections c >? DatabaseMaxOpenConnections c) then
    invalid "DATABASE_MAX_IDLE_CONNECTIONS must be between zero and the maximum open connections"
  else if (StartupTimeout c <=? 0) || (ShutdownTimeout c <=? 0) then
    invalid "startup and shutdown timeouts must be positive"
  else if OutboxBatchSize c <? 1 then invalid "OUTBOX_BATCH_SIZE must be positive"
  else if OutboxInterval c <=? 0 then invalid "OUTBOX_INTERVAL must be positive"
  else if OutboxAlertAfterAttempts c <? 1 then invalid "OUTBOX_ALERT_AFTER_ATTEMPTS must be positive"
  else if (OutboxBackoffBase c <=? 0) || (OutboxBackoffMax c <=? 0) then
    invalid "outbox backoff durations must be positive"
  else if OutboxBackoffMax c <? OutboxBackoffBase c then
    invalid "OUTBOX_BACKOFF_MAX must not be smaller than OUTBOX_BACKOFF_BASE"
  else if OutboxLeaseDuration c <? minimumLease c then
    invalid ("OUTBOX_LEASE_DURATION must be at least OUTBOX_BATCH_SIZE x " +:+ Duration_String PublishAttemptBudget +:+
             " + " +:+ Duration_String SettlementReserve +:+ " settlement reserve (" +:+
             Duration_String (minimumLease c) +:+ ")")
  else if ConsumerConcurrency c <? 1 then invalid "CONSUMER_CONCURRENCY must be positive"
  else if ConsumerPrefetch c <? ConsumerConcurrency c then
    invalid "CONSUMER_PREFETCH must be at least CONSUMER_CONCURRENCY"
  else if ConsumerMaxAttempts c <? 2 then invalid "CONSUMER_MAX_ATTEMPTS must be greater than one"
  else if bool_decide (ConsumerRetryDelays c = []) then
    invalid "CONSUMER_RETRY_DELAYS must list at least one delay"
  else
    match check_delays 0 (ConsumerRetryDelays c) with
    | Some err => Some err
    | None =>
        let needed := wrap64 (ConsumerConcurrency c + relayAndHealthConnections) in
        if requireRabbitMQ && (DatabaseMaxOpenConnections c <? needed) then
          invalid ("DATABASE_MAX_OPEN_CONNECTIONS must be at least CONSUMER_CONCURRENCY plus " +:+
                   pretty relayAndHealthConnections +:+ " for the relay and health checks (" +:+ pretty needed +:+ ")")
        else if (MetricsSampleInterval c <=? 0) || (MetricsSampleTimeout c <=? 0) then
          invalid "metric sampling interval and timeout must be positive"
        else if MetricsSampleTimeout c >=? MetricsSampleInterval c then
          invalid "METRICS_SAMPLE_TIMEOUT must be shorter than METRICS_SAMPLE_INTERVAL"
        else if OTelEnabled c && (OTelExporterEndpoint c =s? "") then
          invalid "OTEL_EXPORTER_OTLP_ENDPOINT is required when telemetry is enabled"
        else validateRateLimits c
    end.

(** [dotenv] is the answer of reading the local file, [parsed] the one of
    parsing the environment. *)
Definition Load `{GoQuote} (dotenv : option error) (parsed : res Config)
    (serviceName defaultHTTPAddress : string) (requireRabbitMQ : bool) : res Config :=
  match dotenv ≫= (fun err => if Is err ErrNotExist then None else Some err) with
  | Some err => Err (wrapf "load .env" err)
  | None =>
      try cfg := res_wrap (wrapf "parse environment") parsed in
      let otel := if OTelServiceName cfg =s? "" then serviceName else OTelServiceName cfg in
      if (Port cfg <>s? "") && bool_decide (58 ∈ codes (Port cfg)) then
        Err (ErrNew "PORT must contain only a port number")
      else
        let address := if Port cfg <>s? "" then ":" +:+ Port cfg else HTTPAddress cfg in
        let address := if address =s? "" then defaultHTTPAddress else address in
        match validate cfg requireRabbitMQ with
        | Some err => Err err
        | None =>
            try trustedProxies := ParseTrustedProxies (TrustedProxyCIDRs cfg) in
            Ok (with_derived cfg serviceName address otel trustedProxies)
        end
  end.

(** ** Stripe *)

Section Stripe.
Context `{UrlParser}.

Definition validateReturnURL (name value : string) : option error :=
  let invalid := Some (ErrNew (name +:+ " must be an absolute HTTP or HTTPS URL")) in
  match url_parse value with
  | None => invalid
  | Some parsed =>
      if (URL_Host parsed =s? "") || ((URL_Scheme parsed <>s? "http") && (URL_Scheme parsed <>s? "https"))
      then invalid else None
  end.

Definition ValidateStripeCheckout (c : Config) : option error :=
  if StripeSecretKey c =s? "" then Some (ErrNew "STRIPE_SECRET_KEY is required for the API")
  else
    match validateReturnURL "STRIPE_SUCCESS_URL" (StripeSuccessURL c) with
    | Some err => Some err
    | None => validateReturnURL "STRIPE_CANCEL_URL" (StripeCancelURL c)
    end.

Definition ValidateStripeWebhook (c : Config) : option error :=
  if StripeWebhookSecret c =s? "" then Some (ErrNew "STRIPE_WEBHOOK_SECRET is required for the API") else None.

Definition ValidateStripe (c : Config) : option error :=
  match ValidateStripeCheckout c with Some err => Some err | None => ValidateStripeWebhook c end.
End Stripe.

(** ** What an accepted configuration guarantees *)

(** Integers are 64 bits wide. *)
Record typed (c : Config) : Prop := {
  typed_batch : in_int64 (OutboxBatchSize c);
  typed_lease : in_int64 (OutboxLeaseDuration c);
  typed_concurrency : in_int64 (ConsumerConcurrency c);
  typed_open : in_int64 (DatabaseMaxOpenConnections c);
  typed_delays : Forall in_int64 (ConsumerRetryDelays c)
}.

Record sound_limit (l : limit) : Prop := {
  sl_burst : 1 <= limit_burst l;
  sl_interval : 0 < limit_interval l;
  sl_token : 0 < Z.quot (limit_interval l) (limit_burst l)
}.

(** Each delay is above the one before it. *)
Fixpoint ascending (previous : Duration) (delays : list Duration) : Prop :=
  match delays with [] => True | d :: delays => previous < d /\ ascending d delays end.

Record accepted (c : Config) (requireRabbitMQ : bool) : Prop := {
  ac_relay : 1 <= OutboxBatchSize c /\ 0 < OutboxInterval c /\ 1 <= OutboxAlertAfterAttempts c;
  ac_backoff : 0 < OutboxBackoffBase c <= OutboxBackoffMax c;
  ac_lease : minimumLease c <= OutboxLeaseDuration c;
  ac_consumer : 1 <= ConsumerConcurrency c <= ConsumerPrefetch c /\ 2 <= ConsumerMaxAttempts c;
  ac_ladder : ConsumerRetryDelays c <> [] /\ ascending 0 (ConsumerRetryDelays c);
  ac_pool : requireRabbitMQ = true ->
    RabbitMQURL c <> "" /\ wrap64 (ConsumerConcurrency c + relayAndHealthConnections) <= DatabaseMaxOpenConnections c;
  ac_database : 0 <= DatabaseMaxIdleConnections c <= DatabaseMaxOpenConnections c /\ 1 <= DatabaseMaxOpenConnections c;
  ac_timeouts : 0 < StartupTimeout c /\ 0 < ShutdownTimeout c;
  ac_sampling : 0 < MetricsSampleTimeout c < MetricsSampleInterval c;
  ac_telemetry : OTelEnabled c = true -> OTelExporterEndpoint c <> "";
  ac_limits : Forall sound_limit (limits_of c);
  ac_capacities : 1 <= RateLimitClientCapacity c /\ 1 <= RateLimitCredentialCapacity c /\ 1 <= RateLimitHealthCapacity c;
  ac_ttl : 0 <= RateLimitIdleTTL c /\
    (RateLimitIdleTTL c = 0 \/ Forall (fun l => limit_interval l <= RateLimitIdleTTL c) (limits_of c))
}.

Lemma check_limits_ok limits : check_limits limits = None <-> Forall sound_limit limits.
Proof.
  induction limits as [|l limits IH]; [by split; constructor|]. cbn [check_limits]. rewrite Forall_cons, <- IH.
  repeat case_match; (split; [try done|]); intros; try split; try constructor; try lia; try done;
    destruct_and?; match goal with Hs : sound_limit _ |- _ => destruct Hs end; try done; lia.
Qed.

Lemma check_capacities_ok capacities : check_capacities capacities = None <-> Forall (fun c => 1 <= c.2) capacities.
Proof.
  induction capacities as [|[name value] capacities IH]; [by split; constructor|].
  cbn [check_capacities]. rewrite Forall_cons, <- IH. simpl. case_match; go_bool; intuition (done || lia).
Qed.

Lemma check_ttl_ok ttl limits : check_ttl ttl limits = None <-> Forall (fun l => limit_interval l <= ttl) limits.
Proof.
  induction limits as [|l limits IH]; [by split; constructor|].
  cbn [check_ttl]. rewrite Forall_cons, <- IH. case_match; go_bool; intuition (done || lia).
Qed.

Lemma check_delays_ok previous delays : 0 <= previous -> check_delays previous delays = None <-> ascending previous delays.
Proof.
  revert previous. induction delays as [|d delays IH]; intros previous Hp; [done|]. cbn [check_delays ascending].
  repeat case_match; go_bool; rewrite ?IH by lia; intuition (done || lia).
Qed.

Lemma validateRateLimits_ok c : validateRateLimits c = None <->
  Forall sound_limit (limits_of c) /\
  (1 <= RateLimitClientCapacity c /\ 1 <= RateLimitCredentialCapacity c /\ 1 <= RateLimitHealthCapacity c) /\
  0 <= RateLimitIdleTTL c /\
  (RateLimitIdleTTL c = 0 \/ Forall (fun l => limit_interval l <= RateLimitIdleTTL c) (limits_of c)).
Proof.
  unfold validateRateLimits. rewrite <- check_limits_ok. destruct (check_limits _); [by split; [|intros []]|].
  set (caps := [_; _; _]). pose proof (check_capacities_ok caps) as Hc.
  assert (Forall (fun c => 1 <= c.2) caps <->
    1 <= RateLimitClientCapacity c /\ 1 <= RateLimitCredentialCapacity c /\ 1 <= RateLimitHealthCapacity c) as Hf.
  { unfold caps. rewrite !Forall_cons, Forall_nil. simpl. tauto. }
  rewrite Hf in Hc. rewrite <- Hc. destruct (check_capacities caps); [split; [done | by intros (_ & ? & _)]|].
  rewrite <- check_ttl_ok. repeat case_match; go_bool; intuition (done || lia).
Qed.

(** [validate] accepts exactly the sound configurations. *)
Lemma validate_ok c requireRabbitMQ : validate c requireRabbitMQ = None <-> accepted c requireRabbitMQ.
Proof.
  unfold validate. cbv zeta.
  split.
  - intros Hv. repeat match type of Hv with
    | (if ?b then Some _ else _) = None => destruct b eqn:?; [discriminate Hv|]
    end.
    destruct (check_delays 0 _) eqn:Ed; [done|]. apply check_delays_ok in Ed; [|done].
    repeat match type of Hv with
    | (if ?b then Some _ else _) = None => destruct b eqn:?; [discriminate Hv|]
    end.
    apply validateRateLimits_ok in Hv as (? & ? & ?). go_bool.
    constructor; try done; try lia.
    + split; [|done]. by eapply bool_decide_eq_false.
    + intros ->. simpl in *. go_bool. done.
    + intros Ho. rewrite Ho in *. simpl in *. by go_bool.
  - intros [A1 A2 A3 A4 [A5 A5'] A6 A7 A8 A9 A10 A11 A12 A13].
    assert (validateRateLimits c = None) as Hl by (apply validateRateLimits_ok; done).
    apply check_delays_ok in A5'; [|done]. rewrite A5', Hl.
    assert (bool_decide (ConsumerRetryDelays c = []) = false) as -> by (by apply bool_decide_eq_false).
    assert (requireRabbitMQ && (RabbitMQURL c =s? "") = false) as ->.
    { destruct requireRabbitMQ; [|done]. by apply String.eqb_neq, A6. }
    assert (OTelEnabled c && (OTelExporterEndpoint c =s? "") = false) as ->.
    { destruct (OTelEnabled c); [|done]. by apply String.eqb_neq, A10. }
    repeat match goal with
    | |- (if ?b then Some _ else _) = None => destruct b eqn:?; [exfalso|]
    end; try done; destruct requireRabbitMQ; simpl in *; try destruct (A6 eq_refl); lia.
Qed.

(** *** Proxies *)

Lemma Contains_Masked p a : 0 <= Prefix_Bits p <= BitLen (Prefix_Addr p) -> Contains (Masked p) a = Contains p a.
Proof.
  intros Hb. unfold Masked, Contains. destruct (Prefix_Bits p <? 0) eqn:E; [go_bool; lia|].
  cbn [Prefix_Bits Prefix_Addr]. rewrite E.
  destruct p as [[|v|v zone] bits]; cbn [Prefix_Addr Prefix_Bits BitLen] in *; [done|..]; destruct a; try done; unfold keep.
  - by rewrite Z.shiftr_shiftl_l, Z.sub_diag by lia.
  - by rewrite Z.shiftr_shiftl_l, Z.sub_diag by lia.
Qed.

Lemma value_of_nonneg l acc : 0 <= acc -> Forall (fun d => 0 <= d) l -> 0 <= foldl (fun a d => a * 10 + d) acc l.
Proof. revert acc. induction l as [|d l IH]; intros acc Ha Hl; [done|]. apply Forall_cons in Hl as [Hd Hl]. apply IH; [lia|done]. Qed.

Lemma parse_uint_nonneg bits l n : parse_uint bits l = Some n -> 0 <= n.
Proof.
  unfold parse_uint. case_match eqn:E; [done|]. case_match; [|done]. intros [= <-].
  apply orb_false_iff in E as [_ E]. apply negb_false_iff in E. rewrite forallb_forall in E.
  apply value_of_nonneg; [done|]. apply Forall_fmap, Forall_forall. intros c Hc%list_elem_of_In%E.
  unfold is_digit in Hc. simpl. lia.
Qed.

Lemma ParsePrefix_bits s p : ParsePrefix s = Some p -> 0 <= Prefix_Bits p <= BitLen (Prefix_Addr p).
Proof.
  unfold ParsePrefix. intros Hp. destruct (cut_last _ _) as [[ip bits]|]; [|done]. simpl in Hp.
  destruct (parse_addr ip) as [a|]; [|done]. simpl in Hp.
  destruct (match a with V6 _ _ => _ | _ => _ end); [done|].
  destruct (_ && _); [done|]. destruct (parse_uint 63 bits) as [n|] eqn:En; [|done]. simpl in Hp.
  destruct (BitLen a <? n) eqn:El; [done|]. injection Hp as <-. apply parse_uint_nonneg in En. go_bool.
  cbn [Prefix_Bits Prefix_Addr]. lia.
Qed.

Section Proxies.
Context `{GoQuote}.

(** An entry of the list: blank, or a block. *)
Definition proxy_entry (value : string) : Prop := TrimSpace value = "" \/ is_Some (ParsePrefix (TrimSpace value)).

Definition within (values : list string) (a : Addr) : Prop :=
  exists value p, value ∈ values /\ ParsePrefix (TrimSpace value) = Some p /\ Contains p a = true.

Lemma ParseTrustedProxies_accepts values :
  is_ok (ParseTrustedProxies values) = true <-> Forall proxy_entry values.
Proof.
  induction values as [|value values IH]; [by split|]. cbn [ParseTrustedProxies]. rewrite Forall_cons, <- IH.
  unfold proxy_entry at 1. destruct (String.eqb_spec (TrimSpace value) "") as [E|E]; [tauto|].
  destruct (ParsePrefix (TrimSpace value)) as [p|].
  - destruct (ParseTrustedProxies values); simpl; intuition eauto.
  - split; [done|]. by intros [[?|[? ?]] _].
Qed.

Lemma ParseTrustedProxies_trusts values prefixes a : ParseTrustedProxies values = Ok prefixes ->
  existsb (fun p => Contains p a) prefixes = true <-> within values a.
Proof.
  revert prefixes. induction values as [|value values IH]; intros prefixes Hp.
  - injection Hp as <-. split; [done|]. by intros (? & ? & ?%not_elem_of_nil & _).
  - cbn [ParseTrustedProxies] in Hp.
    assert (within (value :: values) a <->
      (exists p, ParsePrefix (TrimSpace value) = Some p /\ Contains p a = true) \/ within values a) as Hw.
    { unfold within. split.
      - intros (v & p & [->|Hv]%elem_of_cons & H1 & H2); eauto 6.
      - intros [(p & H1 & H2)|(v & p & Hv & H1 & H2)]; [exists value, p | exists v, p];
          (split_and!; [apply elem_of_cons; tauto | done..]). }
    rewrite Hw. destruct (String.eqb_spec (TrimSpace value) "") as [E|E].
    + rewrite (IH _ Hp). split; [tauto|]. intros [(p & Hpp & _)|?]; [|done]. rewrite E in Hpp. discriminate.
    + destruct (ParsePrefix (TrimSpace value)) as [p|] eqn:Epp; [|done].
      destruct (ParseTrustedProxies values) as [ps|]; [|done]. injection Hp as <-. cbn [existsb].
      rewrite orb_true_iff, (IH _ eq_refl), Contains_Masked by (by eapply ParsePrefix_bits).
      split; (intros [Hl|?]; [left | by right]); [by eauto|]. destruct Hl as (q & Eq & Hq). by simplify_eq.
Qed.
End Proxies.

Lemma Load_accepted `{GoQuote} dotenv parsed name fallback rabbit cfg :
  Load dotenv parsed name fallback rabbit = Ok cfg -> accepted cfg rabbit.
Proof.
  unfold Load. destruct (dotenv ≫= _); [done|]. destruct parsed as [raw|]; [|done]. cbn [res_wrap res_bind]. cbv zeta.
  destruct (_ && _); [done|]. destruct (validate raw rabbit) eqn:Ev; [done|]. apply validate_ok in Ev.
  destruct (ParseTrustedProxies _); [|done]. intros [= <-]. by destruct Ev.
Qed.

(** ** Properties *)

Definition readable (dotenv : option error) : Prop := forall err, dotenv = Some err -> Is err ErrNotExist = true.

(** The fields only the environment decides. *)
Definition settings (c : Config) :=
  (Environment c, Port c, DatabaseURL c, DatabaseMaxOpenConnections c, DatabaseMaxIdleConnections c,
   DatabaseConnectionMaxLifetime c, RabbitMQURL c, OutboxBatchSize c, OutboxInterval c, OutboxLeaseDuration c,
   OutboxBackoffBase c, OutboxBackoffMax c, OutboxAlertAfterAttempts c, ConsumerConcurrency c, ConsumerPrefetch c,
   ConsumerMaxAttempts c, ConsumerRetryDelays c, IntegrationAPIKeys c, DocsEnabled c, TrustedProxyCIDRs c,
   RateLimitEnabled c, RateLimitClientBurst c, RateLimitClientInterval c, RateLimitClientCapacity c,
   RateLimitCredentialBurst c, RateLimitCredentialInterval c, RateLimitCredentialCapacity c,
   RateLimitWebhookBurst c, RateLimitWebhookInterval c, RateLimitHealthBurst c, RateLimitHealthInterval c,
   RateLimitHealthCapacity c, RateLimitIdleTTL c, StripeSecretKey c, StripeWebhookSecret c, StripeSuccessURL c,
   StripeCancelURL c, LogLevel c, LogFormat c, StartupTimeout c, ShutdownTimeout c, OTelEnabled c,
   OTelExporterEndpoint c, OTelExportInterval c, MetricsSampleInterval c, MetricsSampleTimeout c, MigrationsDir c).

(** How the derived values of an answer come from what was parsed. *)
Record derived (raw : Config) (name fallback : string) (cfg : Config) : Prop := {
  dv_settings : settings cfg = settings raw;
  dv_service : ServiceName cfg = name;
  dv_telemetry : OTelServiceName raw <> "" -> OTelServiceName cfg = OTelServiceName raw;
  dv_telemetry_default : OTelServiceName raw = "" -> OTelServiceName cfg = name;
  dv_port : Port raw <> "" -> HTTPAddress cfg = ":" +:+ Port raw;
  dv_address : Port raw = "" -> HTTPAddress raw <> "" -> HTTPAddress cfg = HTTPAddress raw;
  dv_address_default : Port raw = "" -> HTTPAddress raw = "" -> HTTPAddress cfg = fallback;
  dv_proxies : forall a, existsb (fun p => Contains p a) (TrustedProxies cfg) = true <-> within (TrustedProxyCIDRs raw) a
}.

(** C34: [Load] accepts exactly the sound configurations: no local file that
    cannot be read, a parsed environment that satisfies every rule the rest of
    the program relies on, a port without a host, and nothing but blocks among
    the proxies. What it returns is the parsed environment with four fields
    derived: the service's name, which is also the telemetry's unless one was
    set; the address, a set port before a set address before the default; and
    the peers whose forwarding header will be believed, exactly the addresses
    inside the listed blocks. *)
Theorem Load_accepts_exactly_sound_configurations `{GoQuote} (dotenv : option error) (parsed : res Config)
    (name fallback : string) (rabbit : bool) :
  ((exists cfg, Load dotenv parsed name fallback rabbit = Ok cfg) <->
   readable dotenv /\ exists raw, parsed = Ok raw /\ 58 ∉ codes (Port raw) /\ accepted raw rabbit /\
     Forall proxy_entry (TrustedProxyCIDRs raw)) /\
  forall cfg, Load dotenv parsed name fallback rabbit = Ok cfg ->
    accepted cfg rabbit /\ exists raw, parsed = Ok raw /\ derived raw name fallback cfg.
Proof.
  unfold Load.
  assert ((dotenv ≫= (fun err => if Is err ErrNotExist then None else Some err)) = None <-> readable dotenv) as Hd.
  { unfold readable. destruct dotenv as [err|]; simpl; [|done]. destruct (Is err ErrNotExist) eqn:E.
    - split; [|done]. by intros _ ? [= <-].
    - split; [done|]. intros Hr. by rewrite (Hr err eq_refl) in E. }
  destruct (dotenv ≫= _) as [err|].
  { split; [|done]. split; [by intros []|]. by intros [?%Hd _]. }
  destruct parsed as [raw|err]; simpl.
  2: { split; [|done]. split; [by intros []|]. by intros (_ & raw & ? & _). }
  assert (negb (Port raw =s? "") && bool_decide (58 ∈ codes (Port raw)) = false <-> 58 ∉ codes (Port raw)) as Hp.
  { destruct (String.eqb_spec (Port raw) "") as [->|]; simpl; [split; [intros _; apply not_elem_of_nil | done]|].
    apply bool_decide_eq_false. }
  destruct (_ && _).
  { split; [|done]. split; [by intros []|]. intros (_ & raw' & [= <-] & ?%Hp & _). done. }
  pose proof (validate_ok raw rabbit) as Hv. destruct (validate raw rabbit).
  { split; [|done]. split; [by intros []|]. intros (_ & raw' & [= <-] & _ & ?%Hv & _). done. }
  assert (accepted raw rabbit) as Ha by tauto.
  pose proof (ParseTrustedProxies_accepts (TrustedProxyCIDRs raw)) as Hok.
  destruct (ParseTrustedProxies (TrustedProxyCIDRs raw)) as [ps|err] eqn:Eps; simpl in *.
  - split.
    + split; [|by eauto]. intros _. split; [by apply Hd|]. exists raw. split_and!; [done | by apply Hp | done | by apply Hok].
    + intros cfg [= <-]. split; [by destruct Ha|]. exists raw. split; [done|].
      constructor; cbn [ServiceName OTelServiceName HTTPAddress TrustedProxies with_derived]; try done.
      * by intros ->%String.eqb_neq.
      * by intros ->.
      * by intros ->%String.eqb_neq.
      * intros -> E%String.eqb_neq. cbn. by rewrite E.
      * by intros -> ->.
      * intros a. by apply ParseTrustedProxies_trusts.
  - split; [|done]. split; [by intros []|]. intros (_ & raw' & [= <-] & _ & _ & Hf). by apply Hok in Hf.
Qed.

(** The lease covers a batch of any size that fits in memory. *)
Lemma lease_covers_batch c rabbit : accepted c rabbit -> OutboxBatchSize c <= 10 ^ 9 ->
  OutboxBatchSize c * PublishAttemptBudget + SettlementReserve <= OutboxLeaseDuration c.
Proof.
  intros Ha Hb. pose proof (ac_lease _ _ Ha) as Hl. destruct (ac_relay _ _ Ha) as [H1 _]. unfold minimumLease in Hl.
  assert (PublishAttemptBudget = 5000000000 /\ SettlementReserve = 5000000000) as [E1 E2] by done.
  rewrite !wrap64_id in Hl; rewrite ?wrap64_id; rewrite ?E1, ?E2 in *; unfold in_int64, MinInt64, MaxInt64; lia.
Qed.

(** ** Samples *)

(** The defaults, with the two required values, a batch and its lease. *)
Definition default_config (batch : Z) (lease : Duration) : Config := {|
  ServiceName := ""; Environment := "development"; HTTPAddress := ""; Port := "8080"; DatabaseURL := "postgres://db";
  DatabaseMaxOpenConnections := 10; DatabaseMaxIdleConnections := 5; DatabaseConnectionMaxLifetime := 30 * Minute;
  RabbitMQURL := "amqp://mq"; OutboxBatchSize := batch; OutboxInterval := Second; OutboxLeaseDuration := lease;
  OutboxBackoffBase := 2 * Second; OutboxBackoffMax := 5 * Minute; OutboxAlertAfterAttempts := 10;
  ConsumerConcurrency := 4; ConsumerPrefetch := 4; ConsumerMaxAttempts := 10;
  ConsumerRetryDelays := [5 * Second; 30 * Second; 2 * Minute; 10 * Minute];
  IntegrationAPIKeys := ["integration-key-0123456789abcdef-1"]; DocsEnabled := false;
  TrustedProxyCIDRs := ["10.0.0.7/8"; " "]; TrustedProxies := [];
  RateLimitEnabled := true;
  RateLimitClientBurst := 1200; RateLimitClientInterval := Minute; RateLimitClientCapacity := 10000;
  RateLimitCredentialBurst := 600; RateLimitCredentialInterval := Minute; RateLimitCredentialCapacity := 64;
  RateLimitWebhookBurst := 600; RateLimitWebhookInterval := Minute;
  RateLimitHealthBurst := 120; RateLimitHealthInterval := Minute; RateLimitHealthCapacity := 1000;
  RateLimitIdleTTL := 10 * Minute;
  StripeSecretKey := "sk_test"; StripeWebhookSecret := "whsec"; StripeSuccessURL := "https://shop.test/ok";
  StripeCancelURL := "https://shop.test/no"; LogLevel := "info"; LogFormat := "json";
  StartupTimeout := 30 * Second; ShutdownTimeout := 15 * Second;
  OTelEnabled := false; OTelServiceName := ""; OTelExporterEndpoint := "http://localhost:4318";
  OTelExportInterval := 10 * Second; MetricsSampleInterval := 15 * Second; MetricsSampleTimeout := 5 * Second;
  MigrationsDir := "db/migrations" |}.

#[local] Instance sample_quote : GoQuote := fun s => s.

Example defaults_load : exists cfg, Load (Some ErrNotExist) (Ok (default_config 20 (2 * Minute))) "payments-worker" ":8081" true = Ok cfg /\
  HTTPAddress cfg = ":8080" /\ TrustedProxies cfg = [mkPrefix (V4 167772160) 8].
Proof. eexists. vm_compute. repeat split. Qed.

(** The least lease is computed in 64 bits: a batch size near a multiple of
    [2 ^ 64] nanoseconds wraps it, and a lease of ten seconds passes for
    billions of publications of five seconds. *)
Example huge_batch_wraps_the_lease_check :
  validate (default_config 3689348815 (10 * Second)) true = None /\
  10 * Second < 3689348815 * PublishAttemptBudget + SettlementReserve.
Proof. vm_compute. repeat split. Qed.
