(* ===== verification/OutboxRepo.v ===== *)
(** * The outbox repository: [internal/adapters/postgres/repositories/outbox.go]

    Leasing and settling outbox messages, each its own statement on the pool.
    The world is the store beside the state [B] of the broker. *)

From S2P Require Import Prelude GoLib Webhooks Errsanitize Store Queries EventRepo Outbox Samples.

Definition messageFromRow (row : LeaseOutboxBatchRow) : Message :=
  mkMessage (LOB_ID row) (LOB_WebhookEventID row) (LOB_EventType row) (LOB_SchemaVersion row)
    (LOB_RoutingKey row) (LOB_CorrelationID row) (UTC (LOB_OccurredAt row)) MessageStatusPending 0.

Definition lease_of_row (row : LeaseOutboxBatchRow) : Lease :=
  mkLease (messageFromRow row) (LOB_Attempts row)
    (match LOB_LockedUntil row with Some t => UTC t | None => 0 end).

(** Turns "no row matched" into a lost lease. *)
Definition leaseOutcome (affected : Z) : res unit := if affected =? 0 then Err ErrLeaseLost else Ok tt.

Section Repo.
Context `{Postgres}.

Definition OutboxRepository_Lease (owner : string) (batchSize : Z) (leaseDuration : Duration)
    : M Store (list Lease) :=
  let! rows := gwrap (wrapf "lease outbox batch")
                 (exec (LeaseOutboxBatch leaseDuration (Some owner) (wrap32 batchSize))) in
  gret (lease_of_row <$> rows).

Definition OutboxRepository_Published (owner messageID : string) : M Store unit :=
  let! affected := gwrap (wrapf "mark outbox published") (exec (MarkOutboxPublished messageID (Some owner))) in
  glift (leaseOutcome affected).

Definition OutboxRepository_Retry (owner messageID : string) (cause : error) (backoff : Duration) : M Store unit :=
  let! affected := gwrap (wrapf "mark outbox retryable")
                     (exec (MarkOutboxRetryable (errorText (Some cause)) backoff messageID (Some owner))) in
  glift (leaseOutcome affected).

Definition OutboxRepository_Failed (owner messageID : string) (cause : error) : M Store unit :=
  let! affected := gwrap (wrapf "mark outbox failed")
                     (exec (MarkOutboxFailed (errorText (Some cause)) messageID (Some owner))) in
  glift (leaseOutcome affected).

Definition OutboxRepository_Backlog : M Store (Z * Duration) :=
  let! row := gwrap (wrapf "read outbox backlog") (exec OutboxBacklog) in
  gret (row.1, age_seconds row.2).

#[export] Instance OutboxRepository {B : Type} : Repository (Store * B) := {
  Lease_batch owner n d := on_store (OutboxRepository_Lease owner n d);
  Outbox.Published owner id := on_store (OutboxRepository_Published owner id);
  Outbox.Retry owner id cause backoff := on_store (OutboxRepository_Retry owner id cause backoff);
  Outbox.Failed owner id cause := on_store (OutboxRepository_Failed owner id cause);
}.

(** A broker that knows nothing of the store. *)
Definition broker_publisher {B : Type} (publish : Message -> M B unit) : Publisher (Store * B) :=
  fun m => on_captured (publish m).
End Repo.

(** ** Lemmas on the statements *)

Lemma update_outbox_rows p f m m' n :
  update_outbox p f m = Ok (m', n) ->
  forall i, m' !! i = (fun r => if p r then f r else r) <$> m !! i.
Proof. intros (-> & _)%update_table_Ok i. by rewrite lookup_fmap. Qed.

Lemma claimed_due now limit t id :
  id ∈ claimed now limit t -> exists i r, t !! i = Some r /\ OutboxRow_ID r = id /\ due now r = true.
Proof.
  unfold claimed. intros (r & -> & Hr)%list_elem_of_fmap.
  assert (r ∈ rows_where (due now) t) as Hin.
  { rewrite <- (merge_sort_Permutation by_next_attempt (rows_where (due now) t)).
    rewrite <- (take_drop (Z.to_nat limit) (merge_sort _ _)). apply elem_of_app. by left. }
  apply rows_where_inv in Hin as (Hd & i & Hi). eauto.
Qed.

Lemma claimed_length now limit t : Z.of_nat (length (claimed now limit t)) <= Z.max 0 limit.
Proof. unfold claimed. rewrite length_fmap, length_take. lia. Qed.

(** Settling: exactly the owner, before the deadline. *)
Lemma update_held d id owner f m' n :
  schema d -> update_outbox (held id owner (db_now d)) f (outbox_events d) = Ok (m', n) ->
  match outbox_events d !! id with
  | Some r => if sql_eq (OutboxRow_LockedBy r) owner && sql_after (OutboxRow_LockedUntil r) (db_now d)
              then n = 1 /\ m' = alter f id (outbox_events d)
              else n = 0 /\ m' = outbox_events d
  | None => n = 0 /\ m' = outbox_events d
  end.
Proof.
  intros Hs Hu. unfold update_outbox, update_table, held in Hu.
  rewrite (rows_where_pk OutboxRow_ID), (update_pk OutboxRow_ID) in Hu by apply Hs.
  destruct (outbox_events d !! id) as [r|] eqn:E.
  - destruct (sql_eq _ _ && sql_after _ _) eqn:Eh; simpl in Hu.
    + destruct (outbox_check (f r)); [|done]. simpl in Hu. destruct (outbox_unique _); [|done].
      injection Hu as <- <-. split; [done|]. apply map_eq. intros i.
      rewrite lookup_insert, lookup_alter. case_decide; subst; [by rewrite E | done].
    + destruct (outbox_unique _); [|done]. by injection Hu as <- <-.
  - simpl in Hu. destruct (outbox_unique _); [|done]. by injection Hu as <- <-.
Qed.

(** A row another instance holds, or whose deadline passed. *)
Definition holds (owner : string) (now : Time) (r : OutboxRow) : bool :=
  sql_eq (OutboxRow_LockedBy r) (Some owner) && sql_after (OutboxRow_LockedUntil r) now.

(** The three settlements share their shape. *)
Lemma settle_stmt (f : Time -> OutboxRow -> OutboxRow) owner id d a d' :
  schema d ->
  with_outbox (fun t now => update_outbox (held id (Some owner) now) (f now) t) d = Ok (a, d') ->
  d' = match outbox_events d !! id with
       | Some r => if holds owner (db_now d) r
                   then set_outbox d (<[id := f (db_now d) r]> (outbox_events d)) else d
       | None => d
       end /\
  a = match outbox_events d !! id with
      | Some r => if holds owner (db_now d) r then 1 else 0
      | None => 0
      end.
Proof.
  intros Hs (t & Hu & ->)%with_Ok. apply update_held in Hu; [|done]. unfold holds.
  destruct (outbox_events d !! id) as [r|] eqn:E; [destruct (sql_eq _ _ && sql_after _ _)|];
    destruct Hu as [-> ->]; rewrite ?set_outbox_id; split; try done.
  f_equal. apply map_eq. intros i. rewrite lookup_insert, lookup_alter. case_decide; subst; [by rewrite E | done].
Qed.

(** ** A settlement as the store sees it *)

Inductive Settlement : Type :=
| SPublished
| SRetry (cause : error) (backoff : Duration)
| SFailed (cause : error).

Section Settle.
Context `{Postgres}.

Definition settlement_run (k : Settlement) (owner id : string) : M Store unit :=
  match k with
  | SPublished => OutboxRepository_Published owner id
  | SRetry cause backoff => OutboxRepository_Retry owner id cause backoff
  | SFailed cause => OutboxRepository_Failed owner id cause
  end.

(** The row each settlement leaves. *)
Definition settlement_row (k : Settlement) (now : Time) (r : OutboxRow) : OutboxRow :=
  match k with
  | SPublished => settled "published" (Some now) None (OutboxRow_NextAttemptAt r) now r
  | SRetry cause backoff =>
      settled "pending" (OutboxRow_PublishedAt r) (errorText (Some cause)) (now + make_interval backoff) now r
  | SFailed cause =>
      settled "failed" (OutboxRow_PublishedAt r) (errorText (Some cause)) (OutboxRow_NextAttemptAt r) now r
  end.

Definition settlement_stmt (k : Settlement) (owner id : string) : Stmt Z :=
  with_outbox (fun t now => update_outbox (held id (Some owner) now) (settlement_row k now) t).

Lemma settlement_run_stmt k owner id :
  exists wrap, settlement_run k owner id =
    (let! affected := gwrap (wrapf wrap) (exec (settlement_stmt k owner id)) in glift (leaseOutcome affected)).
Proof. destruct k; eexists; reflexivity. Qed.

Lemma settlement_stmt_schema k owner id : preserves (settlement_stmt k owner id).
Proof.
  intros d a d' Hs (t & Hu & ->)%with_Ok. eapply schema_update_outbox; [done|exact Hu|].
  intros r. by destruct k.
Qed.

(** The database after a settlement, and its answer, under any schedule. *)
Lemma settlement_cases k owner id s out s' :
  schema (st_db s) -> settlement_run k owner id s = (out, s') ->
  schema (st_db s') /\ st_saved s' = st_saved s /\
  (st_db s' = st_db s \/
   exists r, outbox_events (st_db s) !! id = Some r /\ holds owner (db_now (st_db s)) r = true /\
     st_db s' = set_outbox (st_db s) (<[id := settlement_row k (db_now (st_db s)) r]> (outbox_events (st_db s)))) /\
  (out = Ok tt ->
   exists r, outbox_events (st_db s) !! id = Some r /\ holds owner (db_now (st_db s)) r = true /\
     st_db s' = set_outbox (st_db s) (<[id := settlement_row k (db_now (st_db s)) r]> (outbox_events (st_db s)))) /\
  (forall e, out = Err e -> Is e ErrLeaseLost = true ->
   st_db s' = st_db s /\
   forall r, outbox_events (st_db s) !! id = Some r -> holds owner (db_now (st_db s)) r = false).
Proof.
  intros Hs. destruct (settlement_run_stmt k owner id) as [wrap ->].
  unfold gbind, gwrap, glift. destruct (exec _ s) as [[a|e] s1] eqn:E; simpl.
  - intros [= <- <-]. pose proof (exec_saved _ _ _ _ E) as Hv. apply exec_Ok in E.
    pose proof (settlement_stmt_schema _ _ _ _ _ _ Hs E) as Hs1.
    apply settle_stmt in E as [Hd Ha]; [|done]. unfold leaseOutcome.
    destruct (outbox_events (st_db s) !! id) as [r|] eqn:Er; [destruct (holds _ _ r) eqn:Eh|]; subst a; simpl.
    + split_and!; try done; eauto 6.
    + split_and!; try done; [by left|]. intros e _ _. split; [done|]. congruence.
    + split_and!; try done; by left.
  - intros [= <- <-]. pose proof (exec_saved _ _ _ _ E) as Hv.
    split; [by eapply exec_schema; [apply settlement_stmt_schema| |]|]. split; [done|].
    pose proof (exec_Err _ _ _ _ E) as He.
    assert (Is e ErrLeaseLost = false) as Hl.
    { eapply (exec_error _ (fun e => Is e ErrLeaseLost = false)); [exact E|done|].
      intros e' Es. unfold settlement_stmt, with_outbox in Es.
      destruct (update_outbox _ _ _) as [[m n]|e1] eqn:Eu; [done|]. injection Es as <-.
      by apply update_table_error in Eu as [text ->]. }
    split_and!; [| done |].
    + destruct He as [->|[a Ha]]; [by left|]. apply settle_stmt in Ha as [Hd _]; [|done].
      destruct (outbox_events (st_db s) !! id) as [r|] eqn:Er; [destruct (holds _ _ r) eqn:Eh|]; eauto 6.
    + intros e' [= <-]. unfold wrapf. simpl. congruence.
Qed.
End Settle.

(** ** A cycle over the store *)

Section Cycle.
Context `{Postgres} `{FloatConversion} {B : Type} (publish : Message -> M B unit).
#[local] Existing Instance OutboxRepository.

Let relay : Publisher (Store * B) := broker_publisher publish.
#[local] Existing Instance relay.

(** How a cycle may leave a row it changed: waiting or leased again; published
    after the broker confirmed that message; failed after the broker reported a
    permanent error for it. *)
Definition justified (id : string) (r : OutboxRow) : Prop :=
  OutboxRow_Status r = "pending" \/ OutboxRow_Status r = "publishing" \/
  (OutboxRow_Status r = "published" /\ exists m b b', Message_ID m = id /\ publish m b = (Ok tt, b')) \/
  (OutboxRow_Status r = "failed" /\
   exists m b b' e, Message_ID m = id /\ publish m b = (Err e, b') /\ IsPermanent e = true).

Definition moves (d d' : DB) : Prop :=
  schema d' /\
  webhook_events d' = webhook_events d /\ orders d' = orders d /\ payments d' = payments d /\
  payment_attempts d' = payment_attempts d /\
  dom (outbox_events d') = dom (outbox_events d) /\
  (forall id r', outbox_events d' !! id = Some r' ->
     exists r, outbox_events d !! id = Some r /\ OutboxRow_WebhookEventID r' = OutboxRow_WebhookEventID r /\
       (r' = r \/ justified id r')).

Lemma moves_refl d : schema d -> moves d d.
Proof. intros Hs. split_and!; try done. intros id r' Hr. exists r'. auto. Qed.

Lemma moves_trans d1 d2 d3 : moves d1 d2 -> moves d2 d3 -> moves d1 d3.
Proof.
  intros (S2 & E2 & O2 & P2 & A2 & D2 & H12) (S3 & E3 & O3 & P3 & A3 & D3 & H23). split_and!; try congruence; try done.
  intros id r3 Hr3. destruct (H23 _ _ Hr3) as (r2 & Hr2 & K2 & J2).
  destruct (H12 _ _ Hr2) as (r1 & Hr1 & K1 & J1). exists r1. split; [done|]. split; [congruence|].
  destruct J2 as [->|J2]; auto.
Qed.

Lemma moves_settlement k owner id d :
  schema d -> (forall now r, justified id (settlement_row k now r)) ->
  forall s out s', st_db s = d -> settlement_run k owner id s = (out, s') -> moves d (st_db s').
Proof.
  intros Hs Hj s out s' <- E. apply settlement_cases in E as (Hs' & _ & Hdb & _ & _); [|done].
  destruct Hdb as [->|(r & Hr & _ & Ed)]; [by apply moves_refl|].
  split; [done|]. rewrite Ed. split_and!; try done; [simpl; by apply dom_insert_lookup_L|]. intros i r'. simpl.
  rewrite lookup_insert. case_decide; [subst|eauto 6].
  intros [= <-]. exists r. split; [done|]. split; [by destruct k | by right].
Qed.

Lemma LeaseOutboxBatch_moves lease owner n d a d' :
  schema d -> LeaseOutboxBatch lease (Some owner) n d = Ok (a, d') -> moves d d'.
Proof.
  intros Hs E. pose proof (LeaseOutboxBatch_schema _ _ _ _ _ _ Hs E) as Hs'.
  apply with_Ok in E as (t & Hu & ->). revert Hu. case_match; [done|]. cbv zeta.
  destruct (update_outbox _ _ _) as [[t' k]|] eqn:Eu; simpl; [|done]. intros [= -> <-].
  split; [done|]. split_and!; try done; simpl.
  { apply update_table_Ok in Eu as (-> & _). by rewrite dom_fmap_L. }
  intros id r'. rewrite (update_outbox_rows _ _ _ _ _ Eu). destruct (outbox_events d !! id) as [r|]; simpl; [|done].
  intros [= <-]. exists r. split; [done|]. case_match; [|by auto]. split; [done|]. right. right. by left.
Qed.

Lemma settle_moves s lease publishErr attempts rand (w : Store * B) out log (w' : Store * B) m b b' :
  schema (st_db w.1) -> Message_ID (Lease_Message lease) = Message_ID m ->
  publish m b = (match publishErr with None => Ok tt | Some e => Err e end, b') ->
  settle s lease publishErr attempts rand w = (out, log, w') -> moves (st_db w.1) (st_db w'.1).
Proof.
  intros Hs Hid Hp. unfold settle. rewrite Hid. destruct w as [st c].
  destruct publishErr as [e|].
  - destruct (IsPermanent e) eqn:Ep; simpl.
    + destruct (OutboxRepository_Failed _ _ _ _) as [o st'] eqn:E.
      apply (moves_settlement (SFailed e) _ (Message_ID m)) with (d := st_db st) in E; try done.
      * destruct o; unfold Outbox.leaseOutcome; [|case_match]; intros [= _ _ <-]; exact E.
      * intros now r. right. right. right. split; [done|]. by exists m, b, b', e.
    + destruct (OutboxRepository_Retry _ _ _ _ _) as [o st'] eqn:E.
      apply (moves_settlement (SRetry e _) _ (Message_ID m)) with (d := st_db st) in E; try done.
      * destruct o; unfold Outbox.leaseOutcome; [|case_match]; intros [= _ _ <-]; exact E.
      * intros now r. by left.
  - destruct (match BeforeSettlement (testHooks s) with Some _ => _ | None => _ end).
    { intros [= _ _ <-]. by apply moves_refl. }
    simpl. destruct (OutboxRepository_Published _ _ _) as [o st'] eqn:E.
    apply (moves_settlement SPublished _ (Message_ID m)) with (d := st_db st) in E; try done.
    + destruct o; unfold Outbox.leaseOutcome; [|case_match]; intros [= _ _ <-]; exact E.
    + intros now r. right. right. left. split; [done|]. by exists m, b, b'.
Qed.

Lemma publishOne_moves s lease elapsed rand (w w' : Store * B) out log :
  schema (st_db w.1) -> publishOne s lease elapsed rand w = (out, log, w') -> moves (st_db w.1) (st_db w'.1).
Proof.
  intros Hs. unfold publishOne. destruct (Publish (Lease_Message lease) w) as [published w1] eqn:Ep.
  destruct w as [st c]. unfold Publish, relay, broker_publisher in Ep.
  apply on_captured_inv in Ep as (c' & Ep & ->). simpl in *.
  destruct (settle _ _ _ _ _ _) as [[settled log1] w2] eqn:E.
  intros Heq. assert (w' = w2) as -> by (destruct settled as [[? ?]|]; by simplify_eq).
  eapply (settle_moves _ _ _ _ _ (st, c')) in E; [exact E|done|reflexivity|].
  rewrite Ep. by destruct published as [[]|].
Qed.

Lemma publish_batch_moves s env leases : forall i r log (w : Store * B) r' stage err log' w',
  schema (st_db w.1) -> publish_batch s env i leases r log w = (r', stage, err, log', w') ->
  moves (st_db w.1) (st_db w'.1).
Proof.
  induction leases as [|lease rest IH]; intros i r log w r' stage err log' w' Hs; simpl.
  - intros [= _ _ _ _ <-]. by apply moves_refl.
  - destruct (interrupted env i). { intros [= _ _ _ _ <-]. by apply moves_refl. }
    destruct (publishOne _ _ _ _ w) as [[[out|e] log1] w1] eqn:E;
      apply publishOne_moves in E as Hm; try done.
    + intros Hb. eapply moves_trans; [exact Hm|]. eapply IH; [|exact Hb]. apply Hm.
    + intros [= _ _ _ _ <-]. done.
Qed.

Lemma runOnce_moves s env (w : Store * B) r stage err log w' :
  schema (st_db w.1) -> runOnce s env w = (r, stage, err, log, w') -> moves (st_db w.1) (st_db w'.1).
Proof.
  intros Hs. unfold runOnce. destruct w as [st c].
  destruct (Lease_batch _ _ _ (st, c)) as [leased w1] eqn:E. apply on_store_inv in E as (st' & E & ->).
  assert (moves (st_db st) (st_db st')) as Hm.
  { revert E. unfold OutboxRepository_Lease, gbind, gwrap.
    destruct (exec _ st) as [[rows|e] st1] eqn:Ex; simpl; intros [= _ <-].
    - apply exec_Ok in Ex. by eapply LeaseOutboxBatch_moves.
    - apply exec_Err in Ex as [->|[a Ha]]; [by apply moves_refl | by eapply LeaseOutboxBatch_moves]. }
  destruct leased as [leases|e].
  - intros Hb. apply publish_batch_moves in Hb; [|apply Hm]. by eapply moves_trans.
  - intros [= _ _ _ _ <-]. done.
Qed.
End Cycle.

(** ** Leasing *)

Lemma Lease_Ok `{Postgres} owner n lease s leases s' :
  schema (st_db s) -> OutboxRepository_Lease owner n lease s = (Ok leases, s') ->
  let now := db_now (st_db s) in let ids := claimed now (wrap32 n) (outbox_events (st_db s)) in
  let f := leased (Some owner) (now + make_interval lease) now in
  schema (st_db s') /\
  (forall i, outbox_events (st_db s') !! i =
     (fun r => if one_of ids (OutboxRow_ID r) then f r else r) <$> outbox_events (st_db s) !! i) /\
  leases = (fun r => mkLease (mkMessage (OutboxRow_ID r) (OutboxRow_WebhookEventID r) (OutboxRow_EventType r)
                                (OutboxRow_SchemaVersion r) (OutboxRow_RoutingKey r) (OutboxRow_CorrelationID r)
                                (OutboxRow_OccurredAt r) MessageStatusPending 0)
                       (OutboxRow_Attempts r) (now + make_interval lease)) <$>
             rows_where (fun r => one_of ids (OutboxRow_ID r)) (outbox_events (st_db s)).
Proof.
  intros Hs Hl. cbv zeta. unfold OutboxRepository_Lease in Hl. inv_bind Hl. injection Hl as <- <-.
  apply exec_Ok in Hm. pose proof (LeaseOutboxBatch_schema _ _ _ _ _ _ Hs Hm) as Hs'.
  apply with_Ok in Hm as (t & Hu & Hd). revert Hu. case_match; [done|]. cbv zeta.
  destruct (update_outbox _ _ _) as [[t' k]|] eqn:Eu; simpl; [|done]. intros [= -> <-].
  split; [done|]. rewrite Hd. split.
  - intros i. simpl. by rewrite (update_outbox_rows _ _ _ _ _ Eu).
  - by rewrite <- !list_fmap_compose.
Qed.

(** ** Properties *)

(** C25: a lease is exclusive until its deadline. Every message [Lease] hands to
    an owner was due; afterwards the owner holds it until the database's clock
    reaches the deadline it was given. Before that instant no claim considers
    it due and no settlement by another owner applies to it; from that instant
    on the owner's own settlements do not apply either. No message is handed
    out twice, at most the asked number is, and other rows do not change. *)
Theorem lease_is_exclusive `{Postgres} (owner : string) (n : Z) (lease : Duration) (s : Store)
    (leases : list Lease) (s' : Store) :
  schema (st_db s) -> OutboxRepository_Lease owner n lease s = (Ok leases, s') ->
  NoDup ((fun l => Message_ID (Lease_Message l)) <$> leases) /\
  Z.of_nat (length leases) <= Z.max 0 (wrap32 n) /\
  (forall l, l ∈ leases ->
     exists r r', outbox_events (st_db s) !! Message_ID (Lease_Message l) = Some r /\
       due (db_now (st_db s)) r = true /\
       outbox_events (st_db s') !! Message_ID (Lease_Message l) = Some r' /\
       Lease_Attempts l = OutboxRow_Attempts r /\
       Lease_Expires l = db_now (st_db s) + make_interval lease /\
       forall t, (t < Lease_Expires l -> due t r' = false) /\
                 (forall other, other <> owner -> holds other t r' = false) /\
                 (holds owner t r' = true <-> t < Lease_Expires l)) /\
  (forall i, (forall l, l ∈ leases -> Message_ID (Lease_Message l) <> i) ->
     outbox_events (st_db s') !! i = outbox_events (st_db s) !! i).
Proof.
  intros Hs Hl. destruct (Lease_Ok _ _ _ _ _ _ Hs Hl) as (Hs' & Hrows & ->). cbv zeta in *.
  set (now := db_now (st_db s)) in *.
  set (ids := claimed now (wrap32 n) (outbox_events (st_db s))) in *. split_and!.
  - rewrite <- list_fmap_compose. apply (rows_where_NoDup OutboxRow_ID), Hs.
  - rewrite length_fmap. etransitivity; [|apply (claimed_length now)]. fold ids. apply inj_le.
    rewrite <- (length_fmap OutboxRow_ID). apply submseteq_length, NoDup_submseteq; [apply (rows_where_NoDup OutboxRow_ID), Hs|].
    by intros i (r & -> & [Hid%one_of_In _]%rows_where_inv)%list_elem_of_fmap.
  - intros l (r & -> & Hin)%list_elem_of_fmap. simpl.
    apply rows_where_inv in Hin as (Hid & i & Hi).
    pose proof (outbox_keyed _ Hs _ _ Hi) as Hk. rewrite Hk.
    exists r. eexists. split; [done|]. split.
    { apply one_of_In, claimed_due in Hid as (i' & r2 & Hi' & E & Hd).
      pose proof (outbox_keyed _ Hs _ _ Hi') as Hk'. assert (i' = i) as -> by congruence. congruence. }
    split; [by rewrite Hrows, Hi; simpl; rewrite Hid|].
    split; [done|]. split; [done|]. intros t. unfold due, holds, leased. simpl. split_and!.
    + intros Ht. replace (now + make_interval lease <=? t) with false by lia. apply andb_false_r.
    + intros other Hne. by replace (owner =s? other) with false by (symmetry; apply String.eqb_neq; congruence).
    + rewrite String.eqb_refl. simpl. lia.
  - intros i Hi. rewrite Hrows. destruct (outbox_events (st_db s) !! i) as [r|] eqn:E; simpl; [|done].
    destruct (one_of ids (OutboxRow_ID r)) eqn:Hid; [exfalso|done].
    pose proof (outbox_keyed _ Hs _ _ E) as Hk.
    refine (Hi _ (proj2 (list_elem_of_fmap _ _ _) (ex_intro _ r (conj eq_refl _))) Hk).
    by eapply rows_where_elem.
Qed.

Lemma lease_is_exclusive_witness :
  exists l s', @OutboxRepository_Lease sample_postgres "relay-1" 5 (2 * Minute) sample_store = (Ok [l], s') /\
    Message_ID (Lease_Message l) = "msg_1" /\ Lease_Expires l = 10 + 2 * Minute.
Proof.
  destruct (@OutboxRepository_Lease sample_postgres "relay-1" 5 (2 * Minute) sample_store) as [out s'] eqn:E.
  assert (exists l, out = Ok [l]) as [l ->].
  { apply (f_equal fst) in E. vm_compute in E. rewrite <- E. eexists. reflexivity. }
  destruct (@lease_is_exclusive sample_postgres "relay-1" 5 (2 * Minute) sample_store _ _ sample_schema E) as (_ & _ & H & _).
  destruct (H l) as (r & r' & Hr & _ & _ & _ & Hx & _); [by left|].
  exists l, s'. split; [reflexivity|]. split; [|exact Hx].
  unfold sample_store, sample_db in Hr. simpl in Hr. by apply lookup_singleton_Some in Hr as [<- _].
Defined.

(** An outcome is recorded by the lease holder or not at all. Under every
    fault schedule, recording a publication, a retry or a failure changes at
    most the one row, and only while this owner holds its lease; success means
    it was recorded; and a lost lease means nothing changed because the owner
    does not hold the row. *)
Theorem settlement_requires_the_lease `{Postgres} (k : Settlement) (owner id : string) (s : Store)
    (out : res unit) (s' : Store) :
  schema (st_db s) -> settlement_run k owner id s = (out, s') ->
  let settled_db r := set_outbox (st_db s)
    (<[id := settlement_row k (db_now (st_db s)) r]> (outbox_events (st_db s))) in
  schema (st_db s') /\
  (st_db s' = st_db s \/
   exists r, outbox_events (st_db s) !! id = Some r /\ holds owner (db_now (st_db s)) r = true /\
     st_db s' = settled_db r) /\
  (out = Ok tt ->
   exists r, outbox_events (st_db s) !! id = Some r /\ holds owner (db_now (st_db s)) r = true /\
     st_db s' = settled_db r) /\
  (forall e, out = Err e -> Is e ErrLeaseLost = true ->
   st_db s' = st_db s /\
   forall r, outbox_events (st_db s) !! id = Some r -> holds owner (db_now (st_db s)) r = false).
Proof. intros Hs E. cbv zeta. apply settlement_cases in E as (? & _ & ? & ? & ?); done. Qed.

(** The sample message leased to relay-1 and never settled. *)
Definition sample_leased : Store := (@OutboxRepository_Lease sample_postgres "relay-1" 5 (2 * Minute) sample_store).2.

Lemma sample_leased_schema : schema (st_db sample_leased).
Proof.
  unfold sample_leased. destruct (OutboxRepository_Lease _ _ _ _) as [out s'] eqn:E.
  assert (exists l, out = Ok l) as [l ->].
  { apply (f_equal fst) in E. vm_compute in E. rewrite <- E. eexists. reflexivity. }
  by destruct (@Lease_Ok sample_postgres "relay-1" 5 (2 * Minute) sample_store _ _ sample_schema E) as [? _].
Qed.

Lemma settlement_requires_the_lease_witness :
  st_db (@settlement_run sample_postgres SPublished "relay-2" "msg_1" sample_leased).2 = st_db sample_leased.
Proof.
  destruct (@settlement_run sample_postgres SPublished "relay-2" "msg_1" sample_leased) as [out s'] eqn:E.
  assert (out = Err ErrLeaseLost) as ->.
  { apply (f_equal fst) in E. vm_compute in E. rewrite <- E. reflexivity. }
  destruct (@settlement_requires_the_lease sample_postgres SPublished "relay-2" "msg_1" sample_leased _ _ sample_leased_schema E) as (_ & _ & _ & H).
  apply (H ErrLeaseLost); reflexivity.
Defined.

(** C24: a message is published or abandoned only on the broker's word. Through
    a whole relay cycle, under any faults, interruptions and random delays, the
    schema holds, no other table changes, no row appears, disappears or changes its event,
    and a row the cycle changed is waiting, leased, published after the broker
    confirmed that very message, or failed after the broker reported a
    permanent error for it. *)
Theorem relay_records_only_what_the_broker_said `{Postgres} `{FloatConversion} {B : Type}
    (publish : Message -> M B unit) (s : Service) (env : Env) (w : Store * B) (r : Result)
    (stage : option CycleStage) (err : option error) (log : Log) (w' : Store * B) :
  schema (st_db w.1) ->
  @runOnce _ (broker_publisher publish) OutboxRepository _ s env w = (r, stage, err, log, w') ->
  moves publish (st_db w.1) (st_db w'.1).
Proof. apply runOnce_moves. Qed.

Definition sample_env : Env := mkEnv (fun _ => false) (fun _ => 1) (fun _ => 7).
Definition sample_relay : Service := NewService "relay-1" (mkConfig 0 0 0 (mkBackoff 0 0) 0) [].
(** A broker that always confirms and counts what it took. *)
Definition confirming_broker (m : Message) : M nat unit := fun n => (Ok tt, S n).

Lemma relay_records_only_what_the_broker_said_witness :
  let '(r, _, _, _, w) := @runOnce _ (broker_publisher confirming_broker) (@OutboxRepository sample_postgres nat)
    (fun z => z) sample_relay sample_env (sample_store, 0%nat) in
  Result_Published r = 1 /\ moves confirming_broker sample_db (st_db w.1).
Proof.
  destruct (runOnce _ _ _) as [[[[r stage] err] log] w'] eqn:E.
  split.
  - apply (f_equal (fun x => x.1.1.1.1)) in E. vm_compute in E. rewrite <- E. reflexivity.
  - exact (@relay_records_only_what_the_broker_said sample_postgres (fun z => z) nat confirming_broker
      sample_relay sample_env (sample_store, 0%nat) r stage err log w' sample_schema E).
Defined.
