(* ===== verification/Receive.v ===== *)
(** * Receiving and operating the inbox: [internal/application/webhooks]

    [service.go]: the use case that verifies a provider event and stores it
    durably, over the ports [Verifier] and [Repository]. [operations.go]: the
    bounded inspection and the replay of failed work. The deadline of the
    receiving transaction is part of the fault schedule of the store. *)

From S2P Require Import Prelude GoLib Webhooks.

(** ** [service.go] *)

Definition ErrInvalidSignature : error :=
  ErrSentinel "webhooks.ErrInvalidSignature" "webhook signature could not be verified".
Definition ErrPayloadTooLarge : error :=
  ErrSentinel "webhooks.ErrPayloadTooLarge" "webhook payload exceeds the accepted size".

Record ProviderEvent := mkProviderEvent {
  ProviderEvent_ID : string;
  ProviderEvent_Type : string;
  ProviderEvent_Kind : Kind;
  ProviderEvent_OccurredAt : Time;
  ProviderEvent_Payload : string;
}.

Class Verifier : Type := {
  Verify : string -> string -> res ProviderEvent;
  Verifier_Provider : Provider;
}.

(** Both methods report whether the event was new. *)
Class Repository (W : Type) : Type := {
  StoreIgnored : Event -> M W bool;
  StorePending : Event -> Message -> M W bool;
}.

Definition Outcome : Type := string.
Definition OutcomeAccepted : Outcome := "accepted".
Definition OutcomeDuplicate : Outcome := "duplicate".
Definition OutcomeIgnored : Outcome := "ignored".

Record ReceiveInput := mkReceiveInput {
  RawBody : string;
  Signature : string;
  CorrelationID : string;
  ReadError : option error;
}.

Record Receipt := mkReceipt {
  Receipt_Provider : Provider;
  Receipt_Kind : Kind;
  Receipt_Outcome : Outcome;
  Receipt_Duration : Duration;
  Receipt_Err : option error;
}.

(** What one call draws from its surroundings: the clock and the two
    identifier generators, each consulted at most once. *)
Record Service := mkService {
  Service_observer : bool;
  Service_now : Time;
  Service_newEventID : res string;
  Service_newMessageID : res string;
}.
Definition Option : Type := Service -> Service.
Definition WithClock (now : Time) : Option := fun s =>
  mkService (Service_observer s) now (Service_newEventID s) (Service_newMessageID s).
Definition WithIDGenerators (eventID messageID : res string) : Option := fun s =>
  mkService (Service_observer s) (Service_now s) eventID messageID.
Definition WithObserver : Option := fun s =>
  mkService true (Service_now s) (Service_newEventID s) (Service_newMessageID s).

(** [NewService]: the clock and the generators of the call, unless an option
    replaces them. *)
Definition NewService (now : Time) (eventEntropy messageEntropy : res (list Z)) (opts : list Option) : Service :=
  fold_left (fun s option => option s) opts
    (mkService false now (NewEventID eventEntropy) (NewMessageID messageEntropy)).

Section Receive.
Context {W : Type} `{Verifier} `{Repository W}.

(** The outcome or the error, beside the kind the observer is told. *)
Definition Received : Type := res Outcome * Kind * W.

(** What a stored event answers: [what] names the failed call. *)
Definition stored_outcome (what : string) (fresh : Outcome) (kind : Kind) (stored : res bool * W) : Received :=
  match stored with
  | (Err err, w) => (Err (wrapf what err), kind, w)
  | (Ok false, w) => (Ok OutcomeDuplicate, kind, w)
  | (Ok true, w) => (Ok fresh, kind, w)
  end.

Definition receive (s : Service) (input : ReceiveInput) (w : W) : Received :=
  match ReadError input with
  | Some err => (Err err, KindUnknown, w)
  | None =>
  match Verify (RawBody input) (Signature input) with
  | Err err => (Err (ErrWrap2 "" ErrInvalidSignature ": " err ""), KindUnknown, w)
  | Ok providerEvent =>
  let kind := ProviderEvent_Kind providerEvent in
  match Service_newEventID s with
  | Err err => (Err err, kind, w)
  | Ok eventID =>
  let now := Service_now s in
  match NewEvent eventID Verifier_Provider (ProviderEvent_ID providerEvent) (ProviderEvent_Type providerEvent)
          (ProviderEvent_Kind providerEvent) (RawBody input) (ProviderEvent_Payload providerEvent) now with
  | Err err => (Err (wrapf "build webhook event" err), kind, w)
  | Ok event =>
  if negb (Handled event)
  then stored_outcome "store ignored webhook event" OutcomeIgnored kind (StoreIgnored event w)
  else
  match Service_newMessageID s with
  | Err err => (Err err, kind, w)
  | Ok messageID =>
  match NewMessage messageID event (CorrelationID input) (ProviderEvent_OccurredAt providerEvent) now with
  | Err err => (Err (wrapf "build outbox message" err), kind, w)
  | Ok message =>
  stored_outcome "store webhook event" OutcomeAccepted kind (StorePending event message w)
  end end end end end end.

Definition Receive (s : Service) (input : ReceiveInput) (elapsed : Duration) (w : W)
    : res Outcome * list Receipt * W :=
  let '(out, kind, w) := receive s input w in
  let receipt := mkReceipt Verifier_Provider kind
                   (match out with Ok o => o | Err _ => "" end) elapsed
                   (match out with Ok _ => None | Err err => Some err end) in
  (out, if Service_observer s then [receipt] else [], w).
End Receive.

(** ** [operations.go] *)

Definition defaultInspectionLimit : Z := 50.
Definition maxInspectionLimit : Z := 100.

Definition ErrEventNotFound : error := ErrSentinel "webhooks.ErrEventNotFound" "webhook event not found".
Definition ErrEventNotReplayable : error :=
  ErrSentinel "webhooks.ErrEventNotReplayable" "webhook event is not failed".
Definition ErrInvalidStatus : error := ErrSentinel "webhooks.ErrInvalidStatus" "invalid webhook event status".
Definition ErrInvalidLimit : error :=
  ErrSentinel "webhooks.ErrInvalidLimit" "inspection limit must be between 1 and 100".

Record OutboxInspection := mkOutboxInspection {
  OI_ID : string;
  OI_Status : MessageStatus;
  OI_Attempts : Z;
  OI_PublishedAt : option Time;
  OI_LastError : string;
  OI_NextAttemptAt : Time;
}.

Record EventInspection := mkEventInspection {
  EI_ID : string;
  EI_Provider : Provider;
  EI_ProviderEventID : string;
  EI_EventType : string;
  EI_Status : Status;
  EI_Attempts : Z;
  EI_ReceivedAt : Time;
  EI_ProcessedAt : option Time;
  EI_LastError : string;
  EI_UpdatedAt : Time;
  EI_ReplayCount : Z;
  EI_LastReplayedAt : option Time;
  EI_Outbox : option OutboxInspection;
}.

Class InspectionRepository (W : Type) : Type := {
  Inspection_List : Status -> Z -> M W (list EventInspection);
  Inspection_Reprocess : string -> M W EventInspection;
}.

Definition validInspectionStatus (status : Status) : bool :=
  existsb (String.eqb status) [StatusPending; StatusProcessing; StatusProcessed; StatusFailed; StatusSkipped].

Section Operations.
Context {W : Type} `{InspectionRepository W}.

Definition List (status : Status) (limit : Z) : M W (list EventInspection) :=
  if (status <>s? "") && negb (validInspectionStatus status) then gfail ErrInvalidStatus
  else
    let limit := if limit =? 0 then defaultInspectionLimit else limit in
    if (limit <? 1) || (maxInspectionLimit <? limit) then gfail ErrInvalidLimit
    else Inspection_List status limit.

Definition Reprocess (eventID : string) : M W EventInspection :=
  match ValidateEventID eventID with
  | Err _ => gfail ErrEventNotFound
  | Ok _ => Inspection_Reprocess eventID
  end.
End Operations.

(** ** Lemmas *)

(** Everything a call may have stored comes from a verified event. *)
Record verified `{Verifier} (s : Service) (input : ReceiveInput) (p : ProviderEvent) (e : Event) : Prop := {
  verified_read : ReadError input = None;
  verified_by : Verify (RawBody input) (Signature input) = Ok p;
  verified_id : Service_newEventID s = Ok (Event_ID e);
  verified_event : NewEvent (Event_ID e) Verifier_Provider (ProviderEvent_ID p) (ProviderEvent_Type p)
    (ProviderEvent_Kind p) (RawBody input) (ProviderEvent_Payload p) (Service_now s) = Ok e;
}.

Lemma NewEvent_fields id pr pid ty k raw pl now e :
  NewEvent id pr pid ty k raw pl now = Ok e ->
  e = mkEvent id pr pid ty k raw pl (if k =s? KindUnknown then StatusSkipped else StatusPending) (UTC now).
Proof. unfold NewEvent. case_match; [done|]. by intros [= <-]. Qed.

(** The shape of a call: refused before the store, or one store call. *)
Lemma receive_cases {W} `{Verifier} `{Repository W} s input (w : W) out kind w' :
  receive s input w = (out, kind, w') ->
  (w' = w /\ exists err, out = Err err) \/
  (exists p e, verified s input p e /\ kind = ProviderEvent_Kind p /\
     ((Handled e = false /\
       stored_outcome "store ignored webhook event" OutcomeIgnored kind (StoreIgnored e w) = (out, kind, w')) \/
      (Handled e = true /\ exists m, Service_newMessageID s = Ok (Message_ID m) /\
       NewMessage (Message_ID m) e (CorrelationID input) (ProviderEvent_OccurredAt p) (Service_now s) = Ok m /\
       stored_outcome "store webhook event" OutcomeAccepted kind (StorePending e m w) = (out, kind, w')))).
Proof.
  unfold receive. destruct (ReadError input) eqn:E0; [intros [= <- <- <-]; eauto|].
  destruct (Verify _ _) as [p|] eqn:E1; [|intros [= <- <- <-]; eauto].
  destruct (Service_newEventID s) as [id|] eqn:E2; [|intros [= <- <- <-]; eauto].
  destruct (NewEvent _ _ _ _ _ _ _ _) as [e|] eqn:E3; [|intros [= <- <- <-]; eauto].
  assert (Event_ID e = id) as <- by (by apply NewEvent_fields in E3 as ->).
  destruct (Handled e) eqn:E4; simpl.
  2:{ intros E. right. exists p, e. split; [done|].
      assert (kind = ProviderEvent_Kind p) as ->
        by (unfold stored_outcome in E; by destruct (StoreIgnored e w) as [[[]|] ?]; simplify_eq).
      split; [done|]. by left. }
  destruct (Service_newMessageID s) as [mid|] eqn:E5; [|intros [= <- <- <-]; eauto].
  destruct (NewMessage _ _ _ _ _) as [m|] eqn:E6; [|intros [= <- <- <-]; eauto].
  assert (Message_ID m = mid) as <-.
  { unfold NewMessage in E6. case_match; [done|]. by injection E6 as <-. }
  intros E. right. exists p, e. split; [done|].
  assert (kind = ProviderEvent_Kind p) as ->
    by (unfold stored_outcome in E; by destruct (StorePending e m w) as [[[]|] ?]; simplify_eq).
  split; [done|]. right. split; [done|]. by exists m.
Qed.
