(* ===== verification/WebhookRepo.v ===== *)
(** * The inbox repository: [internal/adapters/postgres/repositories]

    [webhooks.go] writes the inbox entry and its outbox message;
    [operations.go] reads both back and makes failed work eligible again. *)

From S2P Require Import Prelude GoLib Webhooks Errsanitize Store Queries Receive.

(** ** [webhooks.go] *)

Definition eventParams (event : Event) : InsertWebhookEventParams :=
  mkInsertWebhookEventParams (Event_ID event) (Event_Provider event) (Event_ProviderEventID event)
    (Event_Type event) (Event_RawPayload event) (Event_Payload event) (Event_Status event) (Event_ReceivedAt event).

Definition messageParams (message : Message) : InsertOutboxEventParams :=
  mkInsertOutboxEventParams (Message_ID message) (Message_EventID message) (Message_Kind message)
    (wrap32 (Message_SchemaVersion message)) (Message_RoutingKey message) (Message_CorrelationID message)
    (Message_OccurredAt message) (Message_Status message) (Message_CreatedAt message).

(** Which of the rows returned by [ON CONFLICT DO NOTHING]: none means the
    provider event id was already present. *)
Definition insertedEvent (returned : res string) : res bool :=
  match returned with
  | Ok _ => Ok true
  | Err err => if Is err ErrNoRows then Ok false else Err (wrapf "insert webhook event" err)
  end.

Definition returning {A B} (f : res A -> res B) (m : M Store A) : M Store B :=
  fun s => let '(r, s) := m s in (f r, s).

Section Webhooks.
Context `{Postgres}.

Definition WebhookRepository_StoreIgnored (event : Event) : M Store bool :=
  returning insertedEvent (exec (InsertWebhookEvent (eventParams event))).

Definition store_in_tx (event : Event) (message : Message) : M Store bool :=
  let! inserted := returning insertedEvent (exec (InsertWebhookEvent (eventParams event))) in
  if negb inserted then gret false
  else
    let! _ := gwrap (wrapf "insert outbox event") (exec (InsertOutboxEvent (messageParams message))) in
    let! _ := gwrap (wrapf "commit webhook transaction") Commit in
    gret true.

Definition WebhookRepository_StorePending (event : Event) (message : Message) : M Store bool :=
  let! _ := gwrap (wrapf "begin webhook transaction") BeginTx in
  rollback_after (store_in_tx event message).

#[export] Instance WebhookRepository : Repository Store := {
  StoreIgnored := WebhookRepository_StoreIgnored;
  StorePending := WebhookRepository_StorePending;
}.
End Webhooks.

(** ** [operations.go] *)

Definition operationNullableString (value : option string) : string :=
  match value with None => "" | Some v => Sanitize v end.

Definition operationNullableTime (value : option Time) : option Time :=
  match value with None => None | Some t => Some (UTC t) end.

Definition inspectionFromRow (row : InspectionRow) : EventInspection :=
  let '(e, o) := row in
  mkEventInspection (EventRow_ID e) (EventRow_Provider e) (EventRow_ProviderEventID e) (EventRow_EventType e)
    (EventRow_Status e) (EventRow_Attempts e) (UTC (EventRow_ReceivedAt e))
    (operationNullableTime (EventRow_ProcessedAt e)) (operationNullableString (EventRow_LastError e))
    (UTC (EventRow_UpdatedAt e)) (EventRow_ReplayCount e) (operationNullableTime (EventRow_LastReplayedAt e))
    (match o with
     | None => None
     | Some o => Some (mkOutboxInspection (OutboxRow_ID o) (OutboxRow_Status o) (OutboxRow_Attempts o)
                   (operationNullableTime (OutboxRow_PublishedAt o)) (operationNullableString (OutboxRow_LastError o))
                   (UTC (OutboxRow_NextAttemptAt o)))
     end).

Definition WebhookRepository_List (status : Status) (limit : Z) : M Store (list EventInspection) :=
  let! rows := gwrap (wrapf "list webhook events") (exec (ListWebhookEvents status (wrap32 limit))) in
  gret (inspectionFromRow <$> rows).

(** The lock found no event with a message: is there an event at all? *)
Definition replay_refused {A} (eventID : string) (err : error) : M Store A :=
  if Is err ErrNoRows
  then fun s =>
    let '(found, s) := exec (GetWebhookEvent eventID) s in
    match found with
    | Ok _ => (Err ErrEventNotReplayable, s)
    | Err lookupErr =>
        if Is lookupErr ErrNoRows then (Err ErrEventNotFound, s)
        else (Err (wrapf "check webhook event for replay" lookupErr), s)
    end
  else gfail (wrapf "lock webhook event for replay" err).

(** The condition under which the handler refuses what it locked. *)
Definition not_replayable (eventStatus outboxStatus : string) : bool :=
  ((eventStatus <>s? StatusPending) && (eventStatus <>s? StatusFailed)) ||
  ((eventStatus <>s? StatusFailed) && (outboxStatus <>s? MessageStatusFailed)).

Definition replay_in_tx (eventID : string) : M Store EventInspection := fun s =>
  let '(locked, s) := exec (LockWebhookEventForReplay eventID) s in
  match locked with
  | Err err => replay_refused eventID err s
  | Ok (eventStatus, outboxStatus) =>
      (if not_replayable eventStatus outboxStatus then gfail ErrEventNotReplayable
       else
         let! eventRows := gwrap (wrapf "reset webhook event for replay") (exec (ResetWebhookEventForReplay eventID)) in
         let! outboxRows := gwrap (wrapf "reset outbox event for replay") (exec (ResetOutboxForReplay eventID)) in
         if negb (eventRows =? 1) || negb (outboxRows =? 1)
         then gfail (ErrNew ("replay invariant: reset " +:+ pretty eventRows +:+ " inbox and " +:+
                             pretty outboxRows +:+ " outbox rows"))
         else
           let! row := gwrap (wrapf "read replayed webhook event") (exec (GetWebhookEvent eventID)) in
           let! _ := gwrap (wrapf "commit webhook replay transaction") Commit in
           gret (inspectionFromRow row)) s
  end.

Definition WebhookRepository_Reprocess (eventID : string) : M Store EventInspection :=
  let! _ := gwrap (wrapf "begin webhook replay transaction") BeginTx in
  rollback_after (replay_in_tx eventID).

#[export] Instance WebhookInspection : InspectionRepository Store := {
  Inspection_List := WebhookRepository_List;
  Inspection_Reprocess := WebhookRepository_Reprocess;
}.

(** ** Specification: what receiving leaves behind *)

Definition event_row (e : Event) (payload : string) : EventRow :=
  mkEventRow (Event_ID e) (Event_Provider e) (Event_ProviderEventID e) (Event_Type e) (Event_RawPayload e) payload
    (Event_Status e) 0 (Event_ReceivedAt e) None None (Event_ReceivedAt e) 0 None.

Definition message_row (m : Message) (now : Time) : OutboxRow :=
  mkOutboxRow (Message_ID m) (Message_EventID m) (Message_Kind m) (wrap32 (Message_SchemaVersion m))
    (Message_RoutingKey m) (Message_CorrelationID m) (Message_OccurredAt m) (Message_Status m) 0 None None
    (Message_CreatedAt m) (Message_CreatedAt m) None None now.

(** The provider event is in the inbox. *)
Definition known (provider : Provider) (providerEventID : string) (d : DB) : Prop :=
  exists i r, webhook_events d !! i = Some r /\
    EventRow_Provider r = provider /\ EventRow_ProviderEventID r = providerEventID.

(** The event is stored, with its message when it has one. *)
Definition stored_db (e : Event) (payload : string) (m : option Message) (d : DB) : DB :=
  let d1 := set_events d (<[Event_ID e := event_row e payload]> (webhook_events d)) in
  match m with
  | None => d1
  | Some m => set_outbox d1 (<[Message_ID m := message_row m (db_now d)]> (outbox_events d))
  end.

Inductive newly_stored `{Postgres} (e : Event) (m : option Message) (d d' : DB) : Prop :=
| NewlyStored (payload : string)
    (Hjsonb : jsonb (Event_Payload e) = Some payload)
    (Hunknown : ~ known (Event_Provider e) (Event_ProviderEventID e) d)
    (Hevent : webhook_events d !! Event_ID e = None)
    (Hmessage : forall m', m = Some m' -> outbox_events d !! Message_ID m' = None)
    (Hdb : d' = stored_db e payload m d).

(** ** Lemmas *)

Lemma rollback_after_inv {A} (m : M Store A) s out s' :
  rollback_after m s = (out, s') -> exists s1, m s = (out, s1) /\ s' = Rollback s1.
Proof. unfold rollback_after. destruct (m s) as [o s1]. intros [= <- <-]. eauto. Qed.

(** A body that leaves its transaction open changes nothing. *)
Lemma transaction {A} msg (body : M Store A) s out s' (P : res A -> Store -> Prop) :
  schema (st_db s) -> idle s ->
  (let! _ := gwrap (wrapf msg) BeginTx in rollback_after body) s = (out, s') ->
  (forall s1 s2, st_db s1 = st_db s -> st_saved s1 = Some (st_db s) -> body s1 = (out, s2) ->
     (st_saved s2 = Some (st_db s) /\ P out (Rollback s2)) \/
     (idle s2 /\ P out s2)) ->
  (forall e s1, BeginTx s = (Err e, s1) -> st_db s1 = st_db s -> idle s1 -> P (Err (wrapf msg e)) s1) ->
  idle s' /\ P out s'.
Proof.
  intros Hs Hi. unfold gbind at 1, gwrap at 1. destruct (BeginTx s) as [b s1] eqn:EB.
  destruct (BeginTx_cases _ _ _ EB Hi) as (Hd1 & [[-> Hv1]|(e & -> & Hi1)]); simpl.
  - intros (s2 & Hbody & ->)%rollback_after_inv Hb _.
    destruct (Hb _ _ Hd1 Hv1 Hbody) as [[Hv HP]|[Hi2 HP]].
    + split; [apply idle_Rollback | done].
    + by rewrite (Rollback_idle _ Hi2).
  - intros [= <- <-] _ He. split; [done | by apply He].
Qed.

Lemma known_present e payload d :
  present webhook_events_provider_event_id_key (event_row e payload) (webhook_events d) = true <->
  known (Event_Provider e) (Event_ProviderEventID e) d.
Proof.
  rewrite present_spec. unfold known, webhook_events_provider_event_id_key. split.
  - intros (i & r & k & Hi & Hk & Hk'). exists i, r. simpl in *. by simplify_eq.
  - intros (i & r & Hi & Hp & Hq). exists i, r. eexists. split; [done|]. split; [done|].
    simpl. by rewrite Hp, Hq.
Qed.

Section Storing.
Context `{Postgres}.

Lemma InsertWebhookEvent_Ok e d x d' :
  InsertWebhookEvent (eventParams e) d = Ok (x, d') -> newly_stored e None d d'.
Proof.
  unfold InsertWebhookEvent. simpl. destruct (jsonb _) as [payload|] eqn:Ej; [|done].
  destruct (events_check _); simpl; [|done].
  fold (event_row e payload). destruct (present _ _ _) eqn:Ep; [done|].
  destruct (insert_table _ _ _ _ _ _) as [t|] eqn:Ei; [|done]. intros [= <- <-].
  apply insert_table_Ok in Ei as (-> & Hn & _).
  apply NewlyStored with payload; try done.
  intros Hk%(known_present _ payload). congruence.
Qed.

Lemma InsertWebhookEvent_ErrNoRows e d err :
  InsertWebhookEvent (eventParams e) d = Err err -> Is err ErrNoRows = true ->
  known (Event_Provider e) (Event_ProviderEventID e) d.
Proof.
  unfold InsertWebhookEvent. simpl. destruct (jsonb _) as [payload|] eqn:Ej; [|by intros [= <-]].
  destruct (events_check _); simpl; [|by intros [= <-]].
  fold (event_row e payload). destruct (present _ _ _) eqn:Ep; [by apply known_present in Ep|].
  unfold insert_table. repeat case_match; try (by intros [= <-]); done.
Qed.

Lemma InsertOutboxEvent_Ok m d x d' :
  InsertOutboxEvent (messageParams m) d = Ok (x, d') ->
  outbox_events d !! Message_ID m = None /\
  d' = set_outbox d (<[Message_ID m := message_row m (db_now d)]> (outbox_events d)).
Proof.
  unfold InsertOutboxEvent. simpl. destruct (is_some _); simpl; [|done].
  fold (message_row m (db_now d)). destruct (insert_table _ _ _ _ _ _) as [t|] eqn:Ei; [|done].
  intros [= <- <-]. by apply insert_table_Ok in Ei as (-> & Hn & _).
Qed.

(** Storing an event and its message in one piece. *)
Lemma newly_stored_message e m d d1 x d2 :
  newly_stored e None d d1 -> InsertOutboxEvent (messageParams m) d1 = Ok (x, d2) ->
  newly_stored e (Some m) d d2.
Proof.
  intros [payload Hj Hu He _ ->] (Hm & ->)%InsertOutboxEvent_Ok.
  apply NewlyStored with payload; try done. by intros m' [= <-].
Qed.

Lemma newly_stored_known e m d d' : newly_stored e m d d' -> known (Event_Provider e) (Event_ProviderEventID e) d'.
Proof.
  intros [payload _ _ _ _ ->]. exists (Event_ID e), (event_row e payload).
  split; [|done]. destruct m; simpl; apply lookup_insert_eq.
Qed.

(** What one store call answers, when [fresh] is its message. *)
Definition stored (e : Event) (m : option Message) (d : DB) (out : res bool) (s' : Store) : Prop :=
  schema (st_db s') /\
  ((st_db s' = d /\
    ((out = Ok false /\ known (Event_Provider e) (Event_ProviderEventID e) d) \/ exists err, out = Err err)) \/
   (newly_stored e m d (st_db s') /\ (out = Ok true \/ exists err, out = Err err))).

Lemma insertedEvent_cases r : (exists x, r = Ok x /\ insertedEvent r = Ok true) \/
  (exists err, r = Err err /\ ((Is err ErrNoRows = true /\ insertedEvent r = Ok false) \/
                               exists err', insertedEvent r = Err err')).
Proof. destruct r as [x|err]; simpl; [eauto|]. right. exists err. split; [done|]. destruct (Is err ErrNoRows); eauto. Qed.

Lemma StoreIgnored_stored e s out s' :
  schema (st_db s) -> idle s -> WebhookRepository_StoreIgnored e s = (out, s') ->
  idle s' /\ stored e None (st_db s) out s'.
Proof.
  intros Hs Hi. unfold WebhookRepository_StoreIgnored, returning.
  destruct (exec _ s) as [r s1] eqn:E. intros [= <- <-].
  split; [unfold idle; by rewrite (exec_saved _ _ _ _ E)|].
  assert (schema (st_db s1)) as Hs1 by (eapply exec_schema; [|exact Hs|exact E]; apply InsertWebhookEvent_schema).
  split; [done|]. destruct (insertedEvent_cases r) as [(x & -> & ->)|(err & -> & [[Hn ->]|[err' ->]])].
  - apply exec_Ok, InsertWebhookEvent_Ok in E. right. auto.
  - apply exec_ErrNoRows in E as [E ->]; [|done]. left. split; [done|]. left.
    split; [done|]. by eapply InsertWebhookEvent_ErrNoRows.
  - apply exec_Err in E as [->|[x E]]; [left; eauto | right].
    apply InsertWebhookEvent_Ok in E. eauto.
Qed.

Lemma StorePending_stored e m s out s' :
  schema (st_db s) -> idle s -> WebhookRepository_StorePending e m s = (out, s') ->
  idle s' /\ stored e (Some m) (st_db s) out s'.
Proof.
  intros Hs Hi E. refine (transaction _ _ _ _ _ (stored e (Some m) (st_db s)) Hs Hi E _ _).
  2:{ intros err s1 _ Hd _. split; rewrite Hd; [done | eauto]. }
  clear E s' Hi. intros s1 s2 Hd1 Hv1. unfold store_in_tx, gbind at 1, returning.
  assert (forall s3, st_saved s3 = Some (st_db s) -> (exists err, out = Err err) ->
    st_saved s3 = Some (st_db s) /\ stored e (Some m) (st_db s) out (Rollback s3)) as Hundone.
  { intros s3 Hv He. split; [done|]. destruct (Rollback_saved _ _ Hv) as [Hr _].
    unfold stored. rewrite Hr. split; [done | eauto]. }
  destruct (exec _ s1) as [r s3] eqn:E1. pose proof (exec_saved _ _ _ _ E1) as Hv3.
  destruct (insertedEvent_cases r) as [(x & -> & ->)|(err & -> & [[Hn ->]|[err' ->]])].
  2:{ intros [= <- <-]. left. destruct (Rollback_saved s3 (st_db s)) as [Hr _]; [congruence|].
      split; [congruence|]. unfold stored. rewrite Hr. split; [done|]. left. split; [done|]. left.
      split; [done|]. rewrite <- Hd1. apply exec_ErrNoRows in E1 as [E1 _]; [|done].
      by eapply InsertWebhookEvent_ErrNoRows. }
  2:{ intros [= <- <-]. left. apply Hundone; [congruence | eauto]. }
  cbn [negb]. unfold gbind at 1, gwrap at 1. cbn beta iota.
  pose proof (exec_schema _ _ _ _ (InsertWebhookEvent_schema _) ltac:(by rewrite Hd1) E1) as Hs3.
  apply exec_Ok, InsertWebhookEvent_Ok in E1. rewrite Hd1 in E1.
  destruct (exec (InsertOutboxEvent (messageParams m)) s3) as [[[]|err] s4] eqn:E2;
    pose proof (exec_saved _ _ _ _ E2) as Hv4; simpl.
  2:{ intros [= <- <-]. left. apply Hundone; [congruence | eauto]. }
  pose proof (exec_schema _ _ _ _ (InsertOutboxEvent_schema (messageParams m)) Hs3 E2) as Hs4.
  apply exec_Ok in E2. apply (newly_stored_message _ _ _ _ _ _ E1) in E2.
  unfold gbind, gwrap. destruct (Commit s4) as [[[]|err] s5] eqn:E3; simpl; intros [= <- <-].
  - apply Commit_Ok in E3 as [Hd5 Hi5]. right. unfold stored. rewrite Hd5. split_and!; [done..|]. right. auto.
  - apply Commit_cases in E3 as [Hd5 [Hi5|[Hv5 _]]].
    + right. unfold stored. rewrite Hd5. split_and!; [done..|]. right. eauto.
    + left. apply Hundone; [congruence | eauto].
Qed.
End Storing.
