(* ===== verification/Inbox.v ===== *)
(** * The inbox: receiving and replaying over the store

    The theorems about [Receive] and [Reprocess] running on the PostgreSQL
    repository: what an answer promises about the durable rows, under every
    fault schedule, and how often a provider event can be accepted. *)

From S2P Require Import Prelude GoLib Json Webhooks Errsanitize Store Queries Receive WebhookRepo Samples.

Section Receiving.
Context `{Postgres} `{Verifier}.

(** The message stored beside a handled event carries its identity. *)
Definition message_of (e : Event) (correlationID : string) (occurredAt now : Time) (m : Message) : Prop :=
  Message_EventID m = Event_ID e /\ Message_Kind m = Event_Kind e /\
  Message_RoutingKey m = routingKeyPrefix +:+ Event_Kind e /\ Message_CorrelationID m = correlationID /\
  Message_SchemaVersion m = SchemaVersion /\ Message_Status m = MessageStatusPending /\
  Message_OccurredAt m = (if IsZero occurredAt then now else occurredAt).

Lemma NewMessage_of id e c o now m :
  NewMessage id e c o now = Ok m -> message_of e c o now m /\ Message_ID m = id.
Proof. unfold NewMessage. case_match; [done|]. intros [= <-]. by split. Qed.

(** A call stored a new event: which one, and with which message. *)
Inductive accepted (s : Service) (input : ReceiveInput) (d d' : DB) : Outcome -> Prop :=
| AcceptedIgnored p e
    (Hv : verified s input p e) (Hh : Handled e = false) (Hd : newly_stored e None d d') :
    accepted s input d d' OutcomeIgnored
| AcceptedPending p e m
    (Hv : verified s input p e) (Hh : Handled e = true)
    (Hm : message_of e (CorrelationID input) (ProviderEvent_OccurredAt p) (Service_now s) m)
    (Hd : newly_stored e (Some m) d d') :
    accepted s input d d' OutcomeAccepted.

(** The provider's identifier of the event a call delivers. *)
Definition delivers (input : ReceiveInput) : option string :=
  match ReadError input, Verify (RawBody input) (Signature input) with
  | None, Ok p => Some (ProviderEvent_ID p)
  | _, _ => None
  end.

Lemma verified_fields s input p e :
  verified s input p e ->
  Event_Provider e = Verifier_Provider /\ Event_ProviderEventID e = ProviderEvent_ID p /\
  delivers input = Some (Event_ProviderEventID e).
Proof. intros [H1 H2 _ H4]. apply NewEvent_fields in H4 as ->. unfold delivers. by rewrite H1, H2. Qed.

Lemma stored_outcome_Ok what fresh kind (r : res bool * Store) out kind' w :
  stored_outcome what fresh kind r = (out, kind', w) ->
  exists b, r = (b, w) /\
    ((b = Ok true /\ out = Ok fresh) \/ (b = Ok false /\ out = Ok OutcomeDuplicate) \/
     exists err err', b = Err err /\ out = Err err').
Proof. destruct r as [[[]|err] w1]; simpl; intros [= <- _ <-]; eexists; (split; [done|]); eauto 7. Qed.

(** What one store call promised, told to the provider. *)
Lemma stored_received e m d b w s input p out fresh :
  verified s input p e -> stored e m d b w ->
  (b = Ok true /\ out = Ok fresh) \/ (b = Ok false /\ out = Ok OutcomeDuplicate) \/
     (exists err err', b = Err err /\ out = Err err') ->
  (newly_stored e m d (st_db w) -> accepted s input d (st_db w) fresh) ->
  schema (st_db w) /\
  ((st_db w = d /\ ((exists err, out = Err err) \/
     (out = Ok OutcomeDuplicate /\ exists pid, delivers input = Some pid /\ known Verifier_Provider pid d))) \/
   exists o, accepted s input d (st_db w) o /\ (out = Ok o \/ exists err, out = Err err)).
Proof.
  intros Hv [Hs Hc] Hb Hn. split; [done|].
  pose proof (verified_fields _ _ _ _ Hv) as (Hp & _ & Hpid).
  destruct Hc as [[Hd [[-> Hk]|[err ->]]]|[Hd Ho]].
  - left. split; [done|]. right. destruct Hb as [[? _]|[[_ ->]|(? & ? & ? & _)]]; [done| |done].
    split; [done|]. eexists. split; [done|]. by rewrite <- Hp.
  - left. split; [done|]. left. destruct Hb as [[? _]|[[? _]|(? & ? & _ & ->)]]; [done|done|eauto].
  - right. exists fresh. split; [by apply Hn|].
    destruct Hb as [[_ ->]|[[-> _]|(? & ? & _ & ->)]]; [by left| |eauto].
    by destruct Ho as [?|[? ?]].
Qed.

(** One call over the store, whatever its faults. *)
Lemma Receive_cases s input elapsed w out log w' :
  schema (st_db w) -> idle w -> Receive s input elapsed w = (out, log, w') ->
  idle w' /\ schema (st_db w') /\
  ((st_db w' = st_db w /\ ((exists err, out = Err err) \/
     (out = Ok OutcomeDuplicate /\ exists pid, delivers input = Some pid /\ known Verifier_Provider pid (st_db w)))) \/
   exists o, accepted s input (st_db w) (st_db w') o /\ (out = Ok o \/ exists err, out = Err err)).
Proof.
  intros Hs Hi. unfold Receive. destruct (receive s input w) as [[out1 kind] w1] eqn:E.
  intros [= <- _ <-]. apply receive_cases in E as [[-> He]|(p & e & Hv & -> & [[Hh E]|(Hh & m & _ & Hm & E)])].
  - split_and!; [done..|]. left. auto.
  - apply stored_outcome_Ok in E as (b & E & Hb).
    apply StoreIgnored_stored in E as [Hi' Hst]; [|done..]. split; [done|].
    eapply stored_received; [done..|]. by eapply AcceptedIgnored.
  - apply stored_outcome_Ok in E as (b & E & Hb).
    apply StorePending_stored in E as [Hi' Hst]; [|done..]. split; [done|].
    apply NewMessage_of in Hm as [Hm _].
    eapply stored_received; [done..|]. intros Hn. by eapply AcceptedPending.
Qed.

(** ** A series of calls *)

Record Call := mkCall { Call_service : Service; Call_input : ReceiveInput; Call_elapsed : Duration }.

Fixpoint receive_all (calls : list Call) (w : Store) : list (res Outcome) * Store :=
  match calls with
  | [] => ([], w)
  | c :: rest =>
      let '(out, _, w) := Receive (Call_service c) (Call_input c) (Call_elapsed c) w in
      let '(outs, w) := receive_all rest w in
      (out :: outs, w)
  end.

(** How many calls delivering [pid] were answered with [Ok o] for an [o]
    among [answers]. *)
Definition answered (answers : list Outcome) (pid : string) (calls : list Call) (outs : list (res Outcome)) : nat :=
  length (List.filter (fun '(c, out) =>
    match delivers (Call_input c), out with
    | Some q, Ok o => (q =s? pid) && one_of answers o
    | _, _ => false
    end) (zip calls outs)).

(** Whoever knows an event keeps knowing it while calls arrive. *)
Lemma newly_stored_keeps e m d d' provider pid :
  newly_stored e m d d' -> known provider pid d -> known provider pid d'.
Proof.
  intros [payload _ _ He _ ->] (i & r & Hi & Hk). exists i, r. split; [|done].
  destruct m; simpl; rewrite lookup_insert_ne by congruence; done.
Qed.

Lemma accepted_newly s input d d' o :
  accepted s input d d' o ->
  exists p e m, verified s input p e /\ newly_stored e m d d' /\ (o = OutcomeAccepted \/ o = OutcomeIgnored).
Proof. intros [p e Hv _ Hd|p e m Hv _ _ Hd]; eauto 10. Qed.

Lemma Receive_keeps s input elapsed w out log w' provider pid :
  schema (st_db w) -> idle w -> Receive s input elapsed w = (out, log, w') ->
  known provider pid (st_db w) -> known provider pid (st_db w').
Proof.
  intros Hs Hi E Hk. apply Receive_cases in E as (_ & _ & [[-> _]|(o & Ha & _)]); [done| |done..].
  apply accepted_newly in Ha as (p & e & m & _ & Hd & _). by eapply newly_stored_keeps.
Qed.

(** An answer for a known event is never a fresh one. *)
Lemma Receive_known s input elapsed w out log w' pid :
  schema (st_db w) -> idle w -> Receive s input elapsed w = (out, log, w') ->
  delivers input = Some pid -> known Verifier_Provider pid (st_db w) ->
  st_db w' = st_db w /\ (out = Ok OutcomeDuplicate \/ exists err, out = Err err).
Proof.
  intros Hs Hi E Hp Hk. apply Receive_cases in E as (_ & _ & [[-> [He|[-> _]]]|(o & Ha & _)]);
    [eauto|eauto| |done..]. exfalso.
  apply accepted_newly in Ha as (p & e & m & Hv & [payload _ Hu _ _ _] & _).
  apply verified_fields in Hv as (Hpr & _ & Hd). apply Hu. rewrite Hpr. congruence.
Qed.

(** An acknowledged event is known. *)
Lemma Receive_acknowledged s input elapsed w o log w' pid :
  schema (st_db w) -> idle w -> Receive s input elapsed w = (Ok o, log, w') ->
  delivers input = Some pid -> known Verifier_Provider pid (st_db w').
Proof.
  intros Hs Hi E Hp. apply Receive_cases in E as (_ & _ & [[-> [[err ?]|(_ & q & Hq & Hk)]]|(o' & Ha & _)]);
    [done|congruence| |done..].
  apply accepted_newly in Ha as (p & e & m & Hv & Hd & _). apply newly_stored_known in Hd.
  apply verified_fields in Hv as (Hpr & _ & Hdel). rewrite Hpr in Hd. congruence.
Qed.
End Receiving.

Section Series.
Context `{Postgres} `{Verifier}.

Definition acknowledgements : list Outcome := [OutcomeAccepted; OutcomeIgnored; OutcomeDuplicate].
Definition fresh_answers : list Outcome := [OutcomeAccepted; OutcomeIgnored].

Lemma answered_cons answers pid c calls out outs :
  answered answers pid (c :: calls) (out :: outs) =
  ((match delivers (Call_input c), out with
    | Some q, Ok o => if (q =s? pid) && one_of answers o then 1 else 0
    | _, _ => 0
    end) + answered answers pid calls outs)%nat.
Proof.
  unfold answered. simpl. destruct (delivers _) as [q|], out as [o|]; try done.
  by destruct ((q =s? pid) && one_of answers o).
Qed.

(** The head of a series, with what is known before and after. *)
Lemma receive_all_cons c calls w outs w' :
  receive_all (c :: calls) w = (outs, w') ->
  exists out log w1 rest, Receive (Call_service c) (Call_input c) (Call_elapsed c) w = (out, log, w1) /\
    receive_all calls w1 = (rest, w') /\ outs = out :: rest.
Proof.
  simpl. destruct (Receive _ _ _ w) as [[out log] w1].
  destruct (receive_all calls w1) as [rest w2] eqn:E2. intros [= <- <-]. by exists out, log, w1, rest.
Qed.

Lemma receive_all_known calls w outs w' pid :
  schema (st_db w) -> idle w -> receive_all calls w = (outs, w') ->
  known Verifier_Provider pid (st_db w) ->
  schema (st_db w') /\ known Verifier_Provider pid (st_db w') /\ answered fresh_answers pid calls outs = 0%nat.
Proof.
  intros Hs Hi. revert w outs Hs Hi. induction calls as [|c calls IH]; intros w outs Hs Hi E Hk.
  - injection E as <- <-. by split.
  - apply receive_all_cons in E as (out & log & w1 & rest & E1 & E2 & ->).
    pose proof (Receive_cases _ _ _ _ _ _ _ Hs Hi E1) as (Hi1 & Hs1 & _).
    pose proof (Receive_keeps _ _ _ _ _ _ _ _ _ Hs Hi E1 Hk) as Hk1.
    destruct (IH _ _ Hs1 Hi1 E2 Hk1) as (Hs' & Hk' & Hc). split_and!; [done..|].
    rewrite answered_cons, Hc, Nat.add_0_r.
    destruct (delivers (Call_input c)) as [q|] eqn:Eq; [|done]. destruct out as [o|]; [|done].
    destruct (String.eqb_spec q pid) as [->|]; [|done].
    by destruct (Receive_known _ _ _ _ _ _ _ _ Hs Hi E1 Eq Hk) as [_ [[= ->]|[? ?]]].
Qed.

Lemma receive_all_once calls w outs w' pid :
  schema (st_db w) -> idle w -> receive_all calls w = (outs, w') ->
  schema (st_db w') /\ (answered fresh_answers pid calls outs <= 1)%nat /\
  ((0 < answered acknowledgements pid calls outs)%nat -> known Verifier_Provider pid (st_db w')).
Proof.
  intros Hs Hi. revert w outs Hs Hi. induction calls as [|c calls IH]; intros w outs Hs Hi E.
  - injection E as <- <-. split; [done|]. split; [apply Nat.le_0_l|]. unfold answered. simpl. lia.
  - apply receive_all_cons in E as (out & log & w1 & rest & E1 & E2 & ->).
    pose proof (Receive_cases _ _ _ _ _ _ _ Hs Hi E1) as (Hi1 & Hs1 & _).
    destruct (IH _ _ Hs1 Hi1 E2) as (Hs' & Hc & Ha). rewrite !answered_cons. split; [done|].
    destruct (delivers (Call_input c)) as [q|] eqn:Eq; [|simpl; auto]. destruct out as [o|]; [|simpl; auto].
    destruct (String.eqb_spec q pid) as [->|]; [simpl andb|simpl; auto].
    pose proof (Receive_acknowledged _ _ _ _ _ _ _ _ Hs Hi E1 Eq) as Hk.
    destruct (receive_all_known _ _ _ _ _ Hs1 Hi1 E2 Hk) as (_ & Hk' & Hz).
    split; [|done]. rewrite Hz. destruct (one_of fresh_answers o); lia.
Qed.
End Series.


(** A provider that signs with the body itself. *)
Definition sample_verifier : Verifier := {|
  Verify := fun body signature =>
    if body =s? signature
    then Ok (mkProviderEvent "evt_stripe_2" "checkout.session.completed" KindCheckoutCompleted 15 body)
    else Err (ErrNew "no match");
  Verifier_Provider := "stripe";
|}.
(** The commit of the first transaction is not acknowledged. *)
Definition sample_lossy : Store := mkStore sample_db None [Fine; Fine; Fine; Lost "timeout"].
Definition sample_receiver : Service :=
  NewService 20 (Ok []) (Ok []) [WithIDGenerators (Ok "evt_2") (Ok "msg_2")].
Definition sample_input : ReceiveInput := mkReceiveInput "{}" "{}" "corr" None.
Definition sample_call (event : string) : Call :=
  mkCall (NewService 20 (Ok []) (Ok []) [WithIDGenerators (Ok event) (Ok ("msg_" +:+ event))]) sample_input 0.

(** ** Properties: receiving *)

(** C16: an answer to the provider is a durable fact. Under every fault
    schedule, a call that answers "accepted" stored the verified event together
    with its one pending message and nothing else, "ignored" stored the event
    alone, "duplicate" changed nothing because the provider's event was already
    in the inbox, and an error left the database untouched or, when only the
    acknowledgement was lost, holding the event and its message together. *)
Theorem Receive_is_durable `{Postgres} `{Verifier} (s : Service) (input : ReceiveInput) (elapsed : Duration)
    (w : Store) (out : res Outcome) (log : list Receipt) (w' : Store) :
  schema (st_db w) -> idle w -> Receive s input elapsed w = (out, log, w') ->
  idle w' /\ schema (st_db w') /\
  match out with
  | Ok o =>
      (o = OutcomeDuplicate /\ st_db w' = st_db w /\
       exists pid, delivers input = Some pid /\ known Verifier_Provider pid (st_db w)) \/
      accepted s input (st_db w) (st_db w') o
  | Err _ => st_db w' = st_db w \/ exists o, accepted s input (st_db w) (st_db w') o
  end.
Proof.
  intros Hs Hi E. apply Receive_cases in E as (Hi' & Hs' & Hc); [|done..]. split_and!; [done..|].
  destruct Hc as [[Hd [[err ->]|[-> Hk]]]|(o & Ha & [->|[err ->]])]; eauto 6.
Qed.

Lemma Receive_is_durable_witness :
  exists err log w', @Receive Store sample_verifier (@WebhookRepository sample_postgres) sample_receiver sample_input 3
      sample_lossy = (Err err, log, w') /\
    schema (st_db w') /\ is_some (outbox_events (st_db w') !! "msg_2") = true.
Proof.
  assert (let r := @Receive Store sample_verifier (@WebhookRepository sample_postgres) sample_receiver sample_input 3
            sample_lossy in
          is_ok r.1.1 = false /\ is_some (outbox_events (st_db r.2) !! "msg_2") = true) as Hc
    by (vm_compute; split; reflexivity).
  destruct (@Receive Store sample_verifier (@WebhookRepository sample_postgres) sample_receiver sample_input 3
    sample_lossy) as [[[out|err] log] w'] eqn:E; [by destruct Hc|]. destruct Hc as [_ Hm].
  destruct (@Receive_is_durable sample_postgres sample_verifier sample_receiver sample_input 3 sample_lossy _ _ _
    sample_schema eq_refl E) as (_ & Hs & _).
  exists err, log, w'. split; [reflexivity|]. split; [exact Hs | exact Hm].
Defined.

(** C17: a provider event is accepted once. Over any series of calls and any
    faults, at most one call delivering a given provider event is answered
    "accepted" or "ignored"; and when any of them was acknowledged at all, the
    inbox ends with exactly one entry for that event. *)
Theorem provider_event_accepted_once `{Postgres} `{Verifier} (calls : list Call) (w : Store)
    (outs : list (res Outcome)) (w' : Store) (pid : string) :
  schema (st_db w) -> idle w -> receive_all calls w = (outs, w') ->
  (answered fresh_answers pid calls outs <= 1)%nat /\
  ((0 < answered acknowledgements pid calls outs)%nat ->
   exists i r, webhook_events (st_db w') !! i = Some r /\
     EventRow_Provider r = Verifier_Provider /\ EventRow_ProviderEventID r = pid /\
     forall j r', webhook_events (st_db w') !! j = Some r' -> EventRow_Provider r' = Verifier_Provider ->
       EventRow_ProviderEventID r' = pid -> j = i).
Proof.
  intros Hs Hi E. destruct (receive_all_once _ _ _ _ pid Hs Hi E) as (Hs' & Hc & Ha). split; [done|].
  intros (i & r & Hr & Hp & Hq)%Ha. exists i, r. split_and!; [done..|]. intros j r' Hj Hp' Hq'.
  eapply (events_provider_unique _ Hs'); [done|done|unfold webhook_events_provider_event_id_key; done|].
  unfold webhook_events_provider_event_id_key. by rewrite Hp, Hq, Hp', Hq'.
Qed.

Lemma provider_event_accepted_once_witness :
  exists outs w', @receive_all sample_postgres sample_verifier [sample_call "evt_2"; sample_call "evt_3"; sample_call "evt_4"]
      sample_lossy = (outs, w') /\
    @answered sample_verifier acknowledgements "evt_stripe_2"
      [sample_call "evt_2"; sample_call "evt_3"; sample_call "evt_4"] outs = 2%nat /\
    (@answered sample_verifier fresh_answers "evt_stripe_2"
      [sample_call "evt_2"; sample_call "evt_3"; sample_call "evt_4"] outs <= 1)%nat.
Proof.
  destruct (@receive_all sample_postgres sample_verifier [sample_call "evt_2"; sample_call "evt_3"; sample_call "evt_4"]
    sample_lossy) as [outs w'] eqn:E.
  exists outs, w'. split; [reflexivity|].
  split; [|exact (proj1 (@provider_event_accepted_once sample_postgres sample_verifier _ sample_lossy _ _ "evt_stripe_2"
                    sample_schema eq_refl E))].
  apply (f_equal fst) in E. vm_compute in E. rewrite <- E. reflexivity.
Defined.

(** Nothing unverified reaches the store. A body that could not be read or
    whose signature the provider does not vouch for is refused before any
    statement runs, and the refusal carries the signature error. *)
Theorem unverified_input_is_inert `{Postgres} `{Verifier} (s : Service) (input : ReceiveInput)
    (elapsed : Duration) (w : Store) :
  (ReadError input = None -> forall p, Verify (RawBody input) (Signature input) <> Ok p) ->
  exists err log, Receive s input elapsed w = (Err err, log, w) /\
    (ReadError input = None -> Is err ErrInvalidSignature = true).
Proof.
  intros Hv. unfold Receive, receive. destruct (ReadError input) as [err|]; [by eexists _, _|].
  destruct (Verify _ _) as [p|err]; [by destruct (Hv eq_refl p)|]. eexists _, _. by split.
Qed.

Section Accepting.
Context `{Postgres}.

Lemma insert_table_fresh {R} name (id : R -> string) check unique_ok r m :
  m !! id r = None -> check r = true -> unique_ok (<[id r := r]> m) = true ->
  insert_table name id check unique_ok r m = Ok (<[id r := r]> m).
Proof. unfold insert_table. by intros -> -> ->. Qed.

Lemma InsertWebhookEvent_fresh e payload d :
  schema d -> jsonb (Event_Payload e) = Some payload -> events_check (event_row e payload) = true ->
  ~ known (Event_Provider e) (Event_ProviderEventID e) d -> webhook_events d !! Event_ID e = None ->
  InsertWebhookEvent (eventParams e) d = Ok (Event_ID e, stored_db e payload None d).
Proof.
  intros Hs Hj Hc Hk He. unfold InsertWebhookEvent. simpl. rewrite Hj.
  fold (event_row e payload). rewrite Hc. simpl.
  assert (present webhook_events_provider_event_id_key (event_row e payload) (webhook_events d) = false) as Hp.
  { apply not_true_iff_false. by rewrite known_present. }
  rewrite Hp, insert_table_fresh; [done|done|done|]. apply unique_okb_spec, unique_insert; [|apply Hs].
  by apply present_false.
Qed.

Lemma InsertOutboxEvent_fresh m d :
  schema d -> is_Some (webhook_events d !! Message_EventID m) -> outbox_check (message_row m (db_now d)) = true ->
  outbox_events d !! Message_ID m = None ->
  (forall i o, outbox_events d !! i = Some o -> OutboxRow_WebhookEventID o <> Message_EventID m) ->
  InsertOutboxEvent (messageParams m) d =
    Ok (tt, set_outbox d (<[Message_ID m := message_row m (db_now d)]> (outbox_events d))).
Proof.
  intros Hs [e He] Hc Hm Hn. unfold InsertOutboxEvent. simpl. rewrite He. simpl.
  fold (message_row m (db_now d)). rewrite insert_table_fresh; [done|done|done|].
  apply unique_okb_spec, unique_insert; [|apply Hs]. unfold taken. simpl.
  apply not_true_iff_false. intros ([i o] & Hin & Ht)%existsb_exists.
  apply list_elem_of_In, elem_of_map_to_list in Hin. apply andb_true_iff in Ht as [_ [= Ht]%bool_decide_eq_true].
  by eapply Hn.
Qed.

Lemma StorePending_fresh e m payload d :
  schema d -> jsonb (Event_Payload e) = Some payload -> events_check (event_row e payload) = true ->
  outbox_check (message_row m (db_now d)) = true -> Message_EventID m = Event_ID e ->
  ~ known (Event_Provider e) (Event_ProviderEventID e) d ->
  webhook_events d !! Event_ID e = None -> outbox_events d !! Message_ID m = None ->
  WebhookRepository_StorePending e m (mkStore d None []) =
    (Ok true, mkStore (stored_db e payload (Some m) d) None []).
Proof.
  intros Hs Hj Hc Ho Hid Hk He Hm. unfold WebhookRepository_StorePending, gbind at 1, gwrap at 1.
  unfold BeginTx, rollback_after, store_in_tx, gbind at 1, returning. cbn [next_fault st_faults st_db st_saved res_wrap].
  pose proof (InsertWebhookEvent_fresh e payload d Hs Hj Hc Hk He) as E1.
  rewrite exec_fine, E1. cbn [insertedEvent negb]. unfold gbind at 1, gwrap at 1. rewrite exec_fine.
  rewrite InsertOutboxEvent_fresh; [done| | |done|done|].
  - by apply InsertWebhookEvent_schema in E1.
  - rewrite Hid. simpl. rewrite lookup_insert_eq. eauto.
  - simpl. intros i o Hi Heq. destruct (outbox_events_webhook_event_fkey _ Hs _ _ Hi) as [r Hr]. congruence.
Qed.
End Accepting.

(** C40: a new event is accepted. When the database answers, a verified event
    the application handles, new to the inbox, with fresh identifiers and a
    payload PostgreSQL can store, is answered "accepted" and stored. *)
Theorem Receive_accepts_new_event `{Postgres} `{Verifier} (s : Service) (input : ReceiveInput)
    (elapsed : Duration) (d : DB) (p : ProviderEvent) (e : Event) (mid payload : string) :
  schema d -> verified s input p e -> Handled e = true -> Service_newMessageID s = Ok mid ->
  TrimSpace mid <> "" -> jsonb (Event_Payload e) = Some payload ->
  ~ known Verifier_Provider (ProviderEvent_ID p) d ->
  webhook_events d !! Event_ID e = None -> outbox_events d !! mid = None ->
  exists m log, Receive s input elapsed (mkStore d None []) =
      (Ok OutcomeAccepted, log, mkStore (stored_db e payload (Some m) d) None []) /\ Message_ID m = mid.
Proof.
  intros Hs Hv Hh Hmid Hne Hj Hk He Hm. destruct (verified_fields _ _ _ _ Hv) as (Hpr & Hpid & _).
  destruct Hv as [H1 H2 H3 H4]. unfold Receive, receive. rewrite H1, H2, H3, H4, Hh, Hmid. simpl.
  destruct (NewMessage mid e (CorrelationID input) (ProviderEvent_OccurredAt p) (Service_now s)) as [m|] eqn:Em.
  2:{ exfalso. revert Em. unfold NewMessage. rewrite Hh. simpl.
      apply String.eqb_neq in Hne as ->. unfold NewEvent in H4.
      by destruct (String.eqb (TrimSpace (Event_ID e)) "") in H4 |- *. }
  apply NewMessage_of in Em as [(Hm1 & Hm2 & _ & _ & Hm5 & Hm6 & _) Hm7]. subst mid.
  assert (Event_Status e = StatusPending) as Hst.
  { apply NewEvent_fields in H4. unfold Handled in Hh. apply (f_equal Event_Kind) in H4 as Hkind.
    apply (f_equal Event_Status) in H4. simpl in *. rewrite Hkind in Hh. rewrite H4.
    by destruct (ProviderEvent_Kind p =s? KindUnknown). }
  rewrite (StorePending_fresh e m payload); try done.
  - simpl. eauto.
  - unfold events_check. simpl. by rewrite Hst.
  - unfold outbox_check. simpl. by rewrite Hm6, Hm5.
  - by rewrite Hpr, Hpid.
Qed.

(** A forged signature. *)
Lemma unverified_input_is_inert_witness :
  exists err log, @Receive Store sample_verifier (@WebhookRepository sample_postgres) sample_receiver
      (mkReceiveInput "{}" "forged" "corr" None) 3 sample_store = (Err err, log, sample_store) /\
    Is err ErrInvalidSignature = true.
Proof.
  destruct (@unverified_input_is_inert sample_postgres sample_verifier sample_receiver
    (mkReceiveInput "{}" "forged" "corr" None) 3 sample_store) as (err & log & E & Hi).
  - intros _ p. discriminate.
  - exists err, log. split; [exact E | exact (Hi eq_refl)].
Defined.

Definition sample_stored_event : Event :=
  mkEvent "evt_2" "stripe" "evt_stripe_2" "checkout.session.completed" KindCheckoutCompleted "{}" "{}" "pending" 20.

Lemma Receive_accepts_new_event_witness :
  exists m log w', @Receive Store sample_verifier (@WebhookRepository sample_postgres) sample_receiver sample_input 3
      sample_store = (Ok OutcomeAccepted, log, w') /\ Message_ID m = "msg_2".
Proof.
  destruct (@Receive_accepts_new_event sample_postgres sample_verifier sample_receiver sample_input 3 sample_db
    (mkProviderEvent "evt_stripe_2" "checkout.session.completed" KindCheckoutCompleted 15 "{}")
    sample_stored_event "msg_2" "{}" sample_schema) as (m & log & E & Hm).
  - split; reflexivity.
  - reflexivity.
  - reflexivity.
  - vm_compute. discriminate.
  - reflexivity.
  - intros (i & r & Hi & _ & Hq). unfold sample_db in Hi. simpl in Hi. apply lookup_singleton_Some in Hi as [_ <-]. discriminate.
  - vm_compute. reflexivity.
  - vm_compute. reflexivity.
  - exists m, log. eexists. split; [exact E | exact Hm].
Defined.
