(* ===== verification/Replay.v ===== *)
(** * Replaying failed work over the store

    [Reprocess] of [repositories/operations.go]: what it restarts, what it
    refuses and with which error, and that it reuses the one message of the
    event. *)

From S2P Require Import Prelude GoLib Webhooks Errsanitize Store Queries Receive WebhookRepo Samples.

(** ** Specification *)

(** The one message of an event. *)
Definition message_for (id : string) (d : DB) (o : OutboxRow) : Prop :=
  outbox_events d !! OutboxRow_ID o = Some o /\ OutboxRow_WebhookEventID o = id.

Definition message_reset (now : Time) (r : OutboxRow) : OutboxRow :=
  mkOutboxRow (OutboxRow_ID r) (OutboxRow_WebhookEventID r) (OutboxRow_EventType r)
    (OutboxRow_SchemaVersion r) (OutboxRow_RoutingKey r) (OutboxRow_CorrelationID r)
    (OutboxRow_OccurredAt r) "pending" 0 None None (OutboxRow_CreatedAt r) now None None now.

(** Both rows start over, in one piece. *)
Definition replayed_db (id mid : string) (d : DB) : DB :=
  set_outbox (set_events d (alter (reset_event (db_now d)) id (webhook_events d)))
    (alter (message_reset (db_now d)) mid (outbox_events d)).

(** A replay took place: the processing of the event failed, or its
    publication did before it was processed. *)
Inductive restarted (id : string) (d d' : DB) : Prop :=
| Restarted e o
    (He : webhook_events d !! id = Some e) (Ho : message_for id d o)
    (Hr : not_replayable (EventRow_Status e) (OutboxRow_Status o) = false)
    (Hst : OutboxRow_Status o = "published" \/ OutboxRow_Status o = "failed")
    (Hd : d' = replayed_db id (OutboxRow_ID o) d).

(** ** Lemmas *)

Lemma not_replayable_spec es os :
  not_replayable es os = false <-> es = StatusFailed \/ (es = StatusPending /\ os = MessageStatusFailed).
Proof.
  unfold not_replayable. split.
  - intros E. destruct (String.eqb_spec es StatusFailed); [auto|]. destruct (String.eqb_spec es StatusPending); [|done].
    destruct (String.eqb_spec os MessageStatusFailed); [auto | by subst].
  - by intros [->|[-> ->]].
Qed.

(** Updating what a unique index pins down updates one row. *)
Lemma update_unique {R} (p : R -> bool) (f : R -> R) (m : gmap string R) k r :
  m !! k = Some r -> p r = true ->
  (forall i s, m !! i = Some s -> p s = true -> i = k) ->
  ((fun r => if p r then f r else r) <$> m) = alter f k m.
Proof.
  intros Hr Hp Hu. apply map_eq. intros i. rewrite lookup_fmap, lookup_alter.
  case_decide; subst; [by rewrite Hr; simpl; rewrite Hp|].
  destruct (m !! i) as [s|] eqn:E; simpl; [|done].
  destruct (p s) eqn:Es; [|done]. by destruct (Hu _ _ E Es).
Qed.

Lemma message_unique id d o o' :
  schema d -> message_for id d o -> message_for id d o' -> o' = o.
Proof.
  intros Hs [Ho Hi] [Ho' Hi'].
  assert (OutboxRow_ID o' = OutboxRow_ID o) as E; [|congruence].
  eapply (outbox_event_unique _ Hs); [done|done|unfold outbox_events_webhook_event_id_key; done|].
  unfold outbox_events_webhook_event_id_key. congruence.
Qed.

Lemma messages_of d id : schema d ->
  forall o, o ∈ rows_where (fun o => OutboxRow_WebhookEventID o =s? id) (outbox_events d) <-> message_for id d o.
Proof.
  intros Hs o. split.
  - intros [E%String.eqb_eq (i & Hi)]%rows_where_inv. split; [|done]. by rewrite (outbox_keyed _ Hs _ _ Hi).
  - intros [Hi E]. eapply rows_where_elem; [done|]. by rewrite E, String.eqb_refl.
Qed.

(** The locking statement: the event and its message. *)
Lemma Lock_spec id d : schema d ->
  LockWebhookEventForReplay id d =
    match webhook_events d !! id with
    | None => Err ErrNoRows
    | Some e => match rows_where (fun o => OutboxRow_WebhookEventID o =s? id) (outbox_events d) with
                | [] => Err ErrNoRows
                | o :: _ => Ok ((EventRow_Status e, OutboxRow_Status o), d)
                end
    end.
Proof.
  intros Hs. unfold LockWebhookEventForReplay, select_one. rewrite (rows_where_pk EventRow_ID) by apply Hs.
  destruct (webhook_events d !! id) as [e|] eqn:E; simpl; [|done].
  rewrite (events_keyed _ Hs _ _ E). by destruct (rows_where _ (outbox_events d)).
Qed.

Lemma Lock_Ok id d es os d' :
  schema d -> LockWebhookEventForReplay id d = Ok ((es, os), d') ->
  d' = d /\ exists e o, webhook_events d !! id = Some e /\ message_for id d o /\
    es = EventRow_Status e /\ os = OutboxRow_Status o.
Proof.
  intros Hs. rewrite Lock_spec by done. destruct (webhook_events d !! id) as [e|] eqn:E; [|done].
  destruct (rows_where _ _) as [|o os'] eqn:Er; [done|]. intros [= <- <- <-]. split; [done|].
  exists e, o. split_and!; [done| |done..]. apply messages_of; [done|]. rewrite Er. by left.
Qed.

Lemma GetWebhookEvent_spec id d : schema d ->
  GetWebhookEvent id d =
    match webhook_events d !! id with
    | None => Err ErrNoRows
    | Some e => match left_join d e with [] => Err ErrNoRows | r :: _ => Ok (r, d) end
    end.
Proof.
  intros Hs. unfold GetWebhookEvent, select_one. rewrite (rows_where_pk EventRow_ID) by apply Hs.
  destruct (webhook_events d !! id) as [e|] eqn:E; simpl; [|done]. rewrite app_nil_r. by destruct (left_join d e).
Qed.

Lemma left_join_message id d e o : schema d ->
  webhook_events d !! id = Some e -> message_for id d o -> left_join d e = [(e, Some o)].
Proof.
  intros Hs He Ho. unfold left_join. rewrite (events_keyed _ Hs _ _ He).
  pose proof (messages_of d id Hs) as Hm.
  destruct (rows_where _ _) as [|x l] eqn:Er; [by apply Hm in Ho; apply elem_of_nil in Ho|].
  assert (forall y, y ∈ x :: l -> y = o) as Hall by (intros y Hy; apply Hm in Hy; by eapply message_unique).
  rewrite (Hall x) by (by left). destruct l as [|y l]; [done|exfalso].
  (* two rows of one table are two entries *)
  assert (NoDup (OutboxRow_ID <$> rows_where (fun o => OutboxRow_WebhookEventID o =s? id) (outbox_events d))) as Hnd
    by apply (rows_where_NoDup OutboxRow_ID), Hs.
  rewrite Er in Hnd. simpl in Hnd. apply NoDup_cons in Hnd as [Hnd _]. apply Hnd.
  rewrite (Hall x), (Hall y) by (repeat constructor). by left.
Qed.

Lemma ResetEvent_one id d d' :
  schema d -> ResetWebhookEventForReplay id d = Ok (1, d') ->
  d' = set_events d (alter (reset_event (db_now d)) id (webhook_events d)).
Proof.
  intros Hs (t & Hu & ->)%with_Ok.
  by apply (update_one _ EventRow_ID) in Hu as (e & He & Hc & _ & ->); [|apply Hs|].
Qed.

Lemma ResetOutbox_one id d d' o :
  schema d -> message_for id d o -> ResetOutboxForReplay id d = Ok (1, d') ->
  (OutboxRow_Status o = "published" \/ OutboxRow_Status o = "failed") /\
  d' = set_outbox d (alter (message_reset (db_now d)) (OutboxRow_ID o) (outbox_events d)).
Proof.
  intros Hs Hm (t & Hu & ->)%with_Ok. apply update_table_Ok in Hu as (-> & _ & Hn & _).
  set (p := fun r => _ && _) in *.
  assert (forall r i, outbox_events d !! i = Some r -> p r = true -> r = o) as Hall.
  { intros r i Hi [E%String.eqb_eq _]%andb_true_iff. eapply message_unique; [done|done|].
    split; [by rewrite (outbox_keyed _ Hs _ _ Hi) | done]. }
  destruct (rows_where p (outbox_events d)) as [|x l] eqn:Er; [done|].
  assert (x ∈ rows_where p (outbox_events d)) as [Hp (i & Hi)]%rows_where_inv by (rewrite Er; by left).
  pose proof (Hall _ _ Hi Hp) as ->. destruct Hm as [Ho _]. split.
  - apply andb_true_iff in Hp as [_ Hp]. apply one_of_In in Hp.
    apply elem_of_cons in Hp as [->|Hp%list_elem_of_singleton]; auto.
  - f_equal. apply (update_unique p _ _ _ o); [done|done|]. intros j s Hj Hps.
    rewrite <- (outbox_keyed _ Hs _ _ Hj). by rewrite (Hall _ _ Hj Hps).
Qed.

(** What the rows look like afterwards. *)
Lemma replayed_rows id d d' : schema d -> restarted id d d' ->
  exists e o, webhook_events d' !! id = Some e /\ message_for id d' o /\
    EventRow_Status e = "pending" /\ OutboxRow_Status o = "pending" /\ OutboxRow_Attempts o = 0.
Proof.
  intros Hs [e o He [Ho Hi] Hr _ ->].
  exists (reset_event (db_now d) e), (message_reset (db_now d) o). unfold replayed_db, message_for. simpl.
  rewrite !lookup_alter, !decide_True, He, Ho by done. split_and!; try done.
  apply not_replayable_spec in Hr as [->|[-> _]]; done.
Qed.

(** What an answer of the transaction says about the database it started
    from. *)
Definition replay_answer (id : string) (d : DB) (out : res EventInspection) (s' : Store) : Prop :=
  schema (st_db s') /\
  (st_db s' = d \/ restarted id d (st_db s')) /\
  (forall v, out = Ok v -> restarted id d (st_db s') /\
     exists e o, webhook_events (st_db s') !! id = Some e /\ message_for id (st_db s') o /\
       v = inspectionFromRow (e, Some o)) /\
  (forall err, out = Err err -> Is err ErrEventNotFound = true ->
     st_db s' = d /\ webhook_events d !! id = None) /\
  (forall err, out = Err err -> Is err ErrEventNotReplayable = true ->
     st_db s' = d /\ exists e, webhook_events d !! id = Some e /\
       forall o, message_for id d o -> not_replayable (EventRow_Status e) (OutboxRow_Status o) = true).

(** An error of none of the sentinels leaves only the database to tell. *)
Lemma replay_other id d err s' :
  schema (st_db s') -> st_db s' = d \/ restarted id d (st_db s') ->
  Is err ErrEventNotFound = false -> Is err ErrEventNotReplayable = false ->
  replay_answer id d (Err err) s'.
Proof. intros Hs Hd Hn Hr. split_and!; try done; intros ? [= <-]; congruence. Qed.

(** The errors statements and transactions report are none of the package's. *)
Definition foreign (err : error) : Prop := Is err ErrEventNotFound = false /\ Is err ErrEventNotReplayable = false.

Lemma exec_foreign {A} (stmt : Stmt A) s err s' :
  exec stmt s = (Err err, s') -> (forall e, stmt (st_db s) = Err e -> foreign e) -> foreign err.
Proof. intros E H. by eapply exec_error. Qed.

Lemma Commit_foreign s err s' : Commit s = (Err err, s') -> foreign err.
Proof. by intros [text ->]%Commit_error. Qed.

Lemma BeginTx_foreign s err s' : BeginTx s = (Err err, s') -> foreign err.
Proof. by intros [text ->]%BeginTx_error. Qed.

Lemma with_foreign {T A} (r : res (T * A)) (set : T -> DB) e :
  (try (t, a) := r in Ok (a, set t)) = Err e -> r = Err e.
Proof. destruct r as [[t a]|e']; simpl; [done|]. by intros [= ->]. Qed.

Lemma select_one_foreign {A} (rows : DB -> list A) d e : select_one rows d = Err e -> foreign e.
Proof. unfold select_one. destruct (rows d); simpl; [|done]. by intros [= <-]. Qed.

Lemma replay_refused_answer id s err out s' d :
  schema d -> (Is err ErrNoRows = true -> st_db s = d /\ LockWebhookEventForReplay id d = Err err) -> foreign err ->
  replay_refused id err s = (out, s') ->
  st_saved s' = st_saved s /\ forall s2, st_db s2 = d -> replay_answer id d out s2.
Proof.
  intros Hs Hl Hf. unfold replay_refused. destruct (Is err ErrNoRows) eqn:En.
  2:{ intros [= <- <-]. split; [done|]. intros s2 Hd. apply replay_other; [by rewrite Hd|auto| |]; apply Hf. }
  destruct (Hl eq_refl) as [Hd0 Hl2]. clear Hl Hf.
  destruct (exec (GetWebhookEvent id) s) as [r s1] eqn:E. pose proof (exec_saved _ _ _ _ E) as Hv.
  rewrite <- Hd0 in Hs, Hl2 |- *. rewrite Lock_spec in Hl2 by done.
  destruct r as [r|e]; [|destruct (Is e ErrNoRows) eqn:En2]; intros [= <- <-]; (split; [done|]); intros s2 Hd.
  - split_and!; try (intros; simplify_eq; done); [by rewrite Hd|by left|]. intros ? _ _. split; [done|].
    apply exec_Ok in E. rewrite GetWebhookEvent_spec in E by done.
    destruct (webhook_events _ !! id) as [e|] eqn:He; [|done]. exists e. split; [done|]. intros o Ho.
    apply messages_of in Ho; [|done]. destruct (rows_where _ _); [by apply elem_of_nil in Ho | done].
  - split_and!; try (intros; simplify_eq; done); [by rewrite Hd|by left|]. intros ? _ _. split; [done|].
    apply exec_ErrNoRows in E as [E _]; [|done]. rewrite GetWebhookEvent_spec in E by done.
    destruct (webhook_events _ !! id) as [e'|]; [|done]. unfold left_join in E. by destruct (rows_where (fun o => OutboxRow_WebhookEventID o =s? EventRow_ID e') _).
  - apply replay_other; [by rewrite Hd|by left| |]; rewrite Is_wrapf;
      apply (exec_foreign _ _ _ _ E); intros ? ?%select_one_foreign; done.
Qed.

(** One wrapped statement of the body. *)
Lemma wrapped_step {A B} msg (stmt : Stmt A) (k : A -> M Store B) s out s' :
  (let! x := gwrap (wrapf msg) (exec stmt) in k x) s = (out, s') ->
  (exists err s1, exec stmt s = (Err err, s1) /\ out = Err (wrapf msg err) /\ s' = s1) \/
  (exists a s1, exec stmt s = (Ok a, s1) /\ stmt (st_db s) = Ok (a, st_db s1) /\ st_saved s1 = st_saved s /\
     k a s1 = (out, s')).
Proof.
  unfold gbind at 1, gwrap at 1. destruct (exec stmt s) as [[a|err] s1] eqn:E; simpl; intros Hk.
  - right. exists a, s1. split_and!; [done|by apply exec_Ok in E|by apply exec_saved in E|done].
  - left. exists err, s1. by simplify_eq.
Qed.

Lemma ResetEvent_foreign id d e : ResetWebhookEventForReplay id d = Err e -> foreign e.
Proof. intros E%with_foreign. by apply update_table_error in E as [text ->]. Qed.

Lemma ResetOutbox_foreign id d e : ResetOutboxForReplay id d = Err e -> foreign e.
Proof. intros E%with_foreign. by apply update_table_error in E as [text ->]. Qed.

(** The two resets, one after the other, are the replay. *)
Lemma resets id d d1 d2 e o :
  schema d -> webhook_events d !! id = Some e -> message_for id d o ->
  not_replayable (EventRow_Status e) (OutboxRow_Status o) = false ->
  ResetWebhookEventForReplay id d = Ok (1, d1) -> ResetOutboxForReplay id d1 = Ok (1, d2) ->
  schema d2 /\ restarted id d d2.
Proof.
  intros Hs He Ho Hr E1 E2. pose proof (ResetWebhookEventForReplay_schema _ _ _ _ Hs E1) as Hs1.
  split; [by eapply ResetOutboxForReplay_schema|]. apply ResetEvent_one in E1 as ->; [|done].
  apply (ResetOutbox_one _ _ _ o) in E2 as [Hst ->]; [|done|done]. by eapply Restarted.
Qed.

Lemma replay_in_tx_answer id s s1 s2 out :
  schema (st_db s) -> st_db s1 = st_db s -> st_saved s1 = Some (st_db s) ->
  replay_in_tx id s1 = (out, s2) ->
  (st_saved s2 = Some (st_db s) /\ replay_answer id (st_db s) out (Rollback s2)) \/
  (idle s2 /\ replay_answer id (st_db s) out s2).
Proof.
  intros Hs Hd1 Hv1. unfold replay_in_tx.
  assert (forall s3 err, st_saved s3 = Some (st_db s) -> foreign err ->
    st_saved s3 = Some (st_db s) /\ replay_answer id (st_db s) (Err err) (Rollback s3)) as Hback.
  { intros s3 err Hv [Hn Hr]. split; [done|]. destruct (Rollback_saved _ _ Hv) as [Hb _].
    apply replay_other; rewrite ?Hb; auto. }
  destruct (exec (LockWebhookEventForReplay id) s1) as [[[es os]|err] s3] eqn:E1;
    pose proof (exec_saved _ _ _ _ E1) as Hv3.
  2:{ intros E. left. apply (replay_refused_answer _ _ _ _ _ (st_db s)) in E as [Hv Ha]; [|done| |].
      - split; [congruence|]. apply Ha. by destruct (Rollback_saved s2 (st_db s)) as [? _]; [congruence|].
      - intros En. apply exec_ErrNoRows in E1 as [E1 ->]; [|done]. by rewrite <- Hd1.
      - eapply exec_foreign; [done|]. intros ? ?%select_one_foreign. done. }
  apply exec_Ok in E1. rewrite Hd1 in E1. apply Lock_Ok in E1 as (Hd3 & e & o & He & Ho & -> & ->); [|done].
  destruct (not_replayable _ _) eqn:Hr.
  { intros [= <- <-]. left. split; [congruence|]. destruct (Rollback_saved s3 (st_db s)) as [Hb _]; [congruence|].
    split_and!; try (intros; simplify_eq; done); [by rewrite Hb|by left|].
    intros ? _ _. split; [done|]. exists e. split; [done|]. intros o' Ho'. by rewrite (message_unique _ _ _ _ Hs Ho Ho'). }
  intros [(err & s4 & E2 & -> & ->)|(n & s4 & E2 & E2' & Hv4 & E)]%wrapped_step.
  { left. apply Hback; [by apply exec_saved in E2; congruence|]. refine (exec_foreign _ _ _ _ E2 _). apply ResetEvent_foreign. }
  apply wrapped_step in E as [(err & s5 & E3 & -> & ->)|(n' & s5 & E3 & E3' & Hv5 & E)].
  { left. apply Hback; [by apply exec_saved in E3; congruence|]. refine (exec_foreign _ _ _ _ E3 _). apply ResetOutbox_foreign. }
  destruct (negb (n =? 1) || negb (n' =? 1)) eqn:Ec; [injection E as <- <-; left; apply Hback; [congruence|done]|].
  go_bool. subst n n'. rewrite Hd3 in E2'. destruct (resets _ _ _ _ _ _ Hs He Ho Hr E2' E3') as [Hs5 Hre].
  apply wrapped_step in E as [(err & s6 & E4 & -> & ->)|(row & s6 & E4 & E4' & Hv6 & E)].
  { left. apply Hback; [by apply exec_saved in E4; congruence|].
    refine (exec_foreign _ _ _ _ E4 _). intros ? ?%select_one_foreign. done. }
  destruct (replayed_rows _ _ _ Hs Hre) as (e' & o' & He' & Ho' & _).
  rewrite GetWebhookEvent_spec, He', (left_join_message _ _ _ _ Hs5 He' Ho') in E4' by done.
  injection E4' as <- Hd6. revert E. unfold gbind, gwrap.
  destruct (Commit s6) as [[[]|err] s7] eqn:E5; simpl; intros [= <- <-].
  - apply Commit_Ok in E5 as [Hd7 Hi7]. right. split; [done|]. unfold replay_answer. rewrite Hd7, <- Hd6.
    split_and!; try (intros; simplify_eq; done); [by right|]. intros v [= <-]. split; [done|]. by exists e', o'.
  - pose proof (Commit_foreign _ _ _ E5) as [Hn Hf]. apply Commit_cases in E5 as [Hd7 [Hi7|[Hv7 _]]].
    + right. split; [done|]. apply replay_other; rewrite ?Hd7, <- ?Hd6; auto.
    + left. apply Hback; [congruence|done].
Qed.

Lemma Reprocess_answer id s out s' :
  schema (st_db s) -> idle s -> WebhookRepository_Reprocess id s = (out, s') ->
  idle s' /\ replay_answer id (st_db s) out s'.
Proof.
  intros Hs Hi E. refine (transaction _ _ _ _ _ (replay_answer id (st_db s)) Hs Hi E _ _).
  - intros s1 s2. by apply replay_in_tx_answer.
  - intros err s1 EB Hd _. apply BeginTx_foreign in EB as [Hn Hf]. apply replay_other; rewrite ?Hd; auto.
Qed.

(** ** Properties *)

(** C36: a replay restarts failed work, once, and nothing else. Under every
    fault schedule a replay leaves the database as it was or restarts the
    event's own two rows together: the event goes back to pending with its
    failure cleared, its one message becomes due again with no attempts and no
    lease. Only an event whose processing failed, or a pending one whose
    publication failed, is restarted; success shows the restarted rows; "not
    found" and "not replayable" are answered only when they are true, without
    a change. *)
Theorem Reprocess_restarts_failed_work (id : string) (s : Store) (out : res EventInspection) (s' : Store) :
  schema (st_db s) -> idle s -> ValidateEventID id = Ok tt -> Reprocess id s = (out, s') ->
  idle s' /\ schema (st_db s') /\
  (st_db s' = st_db s \/ restarted id (st_db s) (st_db s')) /\
  match out with
  | Ok v =>
      restarted id (st_db s) (st_db s') /\
      exists e o, webhook_events (st_db s') !! id = Some e /\ message_for id (st_db s') o /\
        v = inspectionFromRow (e, Some o) /\ EventRow_Status e = StatusPending /\
        OutboxRow_Status o = MessageStatusPending /\ OutboxRow_Attempts o = 0
  | Err err =>
      (Is err ErrEventNotFound = true -> st_db s' = st_db s /\ webhook_events (st_db s) !! id = None) /\
      (Is err ErrEventNotReplayable = true -> st_db s' = st_db s /\
         exists e, webhook_events (st_db s) !! id = Some e /\
           forall o, message_for id (st_db s) o -> EventRow_Status e <> StatusFailed /\
             ~ (EventRow_Status e = StatusPending /\ OutboxRow_Status o = MessageStatusFailed))
  end.
Proof.
  intros Hs Hi Hid. unfold Reprocess. rewrite Hid. intros E.
  destruct (Reprocess_answer _ _ _ _ Hs Hi E) as (Hi' & Hs' & Hd & Hok & Hnf & Hnr). split_and!; [done..|].
  destruct out as [v|err].
  - destruct (Hok v eq_refl) as (Hre & e & o & He & Ho & ->). split; [done|].
    destruct (replayed_rows _ _ _ Hs Hre) as (e' & o' & He' & Ho' & ? & ? & ?).
    exists e, o. rewrite <- (message_unique _ _ _ _ Hs' Ho' Ho) in *. simplify_eq. done.
  - split; [by apply Hnf|]. intros Hn. destruct (Hnr err eq_refl Hn) as (? & e & He & Hno).
    split; [done|]. exists e. split; [done|]. intros o Ho. specialize (Hno o Ho).
    split; intros Hx; assert (not_replayable (EventRow_Status e) (OutboxRow_Status o) = false) as Hr
      by (apply not_replayable_spec; auto); congruence.
Qed.

(** The sample event failed after its message was published. *)
Definition sample_failed_event : EventRow :=
  mkEventRow "evt_00000000000000000000000000000001" "stripe" "evt_stripe_1" "checkout.session.completed" "{}" "{}"
    "failed" 5 4 None (Some "boom") 9 0 None.
Definition sample_published : OutboxRow :=
  mkOutboxRow "msg_1" "evt_00000000000000000000000000000001" "checkout.completed" 1 "payment.webhook.checkout.completed"
    "c" 4 "published" 1 (Some 6) None 4 6 None None 4.
Definition failed_db (o : OutboxRow) : DB :=
  mkDB ∅ ∅ ∅ {["evt_00000000000000000000000000000001" := sample_failed_event]} {["msg_1" := o]} 10.

Lemma failed_schema o :
  OutboxRow_ID o = "msg_1" -> OutboxRow_WebhookEventID o = "evt_00000000000000000000000000000001" ->
  outbox_check o = true -> schema (failed_db o).
Proof.
  intros H1 H2 H3. split; simpl; try apply sample_unique; try (intros i r; by rewrite lookup_empty);
    try (by intros i j r s k; rewrite lookup_empty);
    intros i r [<- <-]%lookup_singleton_Some; try done; try (vm_compute; reflexivity).
  rewrite H2, lookup_singleton_eq. by exists sample_failed_event.
Qed.

Lemma Reprocess_restarts_failed_work_witness :
  exists v s', Reprocess "evt_00000000000000000000000000000001" (mkStore (failed_db sample_published) None []) = (Ok v, s') /\
    EI_Status v = StatusPending /\ EI_ReplayCount v = 1 /\
    restarted "evt_00000000000000000000000000000001" (failed_db sample_published) (st_db s').
Proof.
  assert (let r := Reprocess "evt_00000000000000000000000000000001" (mkStore (failed_db sample_published) None []) in
          match r.1 with Ok v => EI_Status v = StatusPending /\ EI_ReplayCount v = 1 | Err _ => False end) as Hc
    by (vm_compute; split; reflexivity).
  destruct (Reprocess "evt_00000000000000000000000000000001" (mkStore (failed_db sample_published) None []))
    as [[v|err] s'] eqn:E; [|by destruct Hc].
  destruct (Reprocess_restarts_failed_work "evt_00000000000000000000000000000001"
    (mkStore (failed_db sample_published) None []) _ _
    (failed_schema sample_published eq_refl eq_refl eq_refl) eq_refl eq_refl E) as (_ & _ & _ & Hre & _).
  exists v, s'. split; [reflexivity|]. destruct Hc as [H1 H2]. split; [exact H1|]. split; [exact H2|exact Hre].
Defined.

(** A failed event whose message is still on its way cannot be replayed.
    When the processing of an event failed while its message is pending or
    leased again, the replay rolls back and answers an error that is neither
    "not found" nor "not replayable", although the event is failed. *)
Theorem failed_event_with_live_message_is_an_error (id : string) (s : Store) (e : EventRow) (o : OutboxRow) :
  schema (st_db s) -> idle s -> ValidateEventID id = Ok tt ->
  webhook_events (st_db s) !! id = Some e -> EventRow_Status e = StatusFailed ->
  message_for id (st_db s) o -> OutboxRow_Status o = "pending" \/ OutboxRow_Status o = "publishing" ->
  exists err s', Reprocess id s = (Err err, s') /\ st_db s' = st_db s /\
    Is err ErrEventNotFound = false /\ Is err ErrEventNotReplayable = false.
Proof.
  intros Hs Hi Hid He Hf Ho Hst. unfold Reprocess. rewrite Hid. simpl.
  destruct (WebhookRepository_Reprocess id s) as [out s'] eqn:E.
  destruct (Reprocess_answer _ _ _ _ Hs Hi E) as (_ & _ & Hd & Hok & Hnf & Hnr).
  assert (~ restarted id (st_db s) (st_db s')) as Hno.
  { intros [e' o' _ Ho' _ Hst' _]. rewrite (message_unique _ _ _ _ Hs Ho Ho') in *.
    by destruct Hst as [Hst|Hst], Hst' as [Hst'|Hst']; rewrite Hst in Hst'. }
  destruct out as [v|err]; [by destruct Hno; apply (Hok v)|]. exists err, s'. split; [done|].
  destruct Hd as [Hd|Hd]; [|done]. split; [done|]. split.
  - apply not_true_iff_false. intros Hn. destruct (Hnf err eq_refl Hn). congruence.
  - apply not_true_iff_false. intros Hn. destruct (Hnr err eq_refl Hn) as (_ & e' & He' & Hx).
    specialize (Hx o Ho). assert (e' = e) as -> by congruence. by rewrite Hf in Hx.
Qed.

(** The relay leased the message again before the failure was recorded. *)
Definition sample_releasing : OutboxRow :=
  mkOutboxRow "msg_1" "evt_00000000000000000000000000000001" "checkout.completed" 1 "payment.webhook.checkout.completed"
    "c" 4 "publishing" 1 None None 4 6 (Some 100) (Some "relay-1") 4.

Lemma failed_event_with_live_message_is_an_error_witness :
  exists err s', Reprocess "evt_00000000000000000000000000000001" (mkStore (failed_db sample_releasing) None []) =
      (Err err, s') /\ Is err ErrEventNotReplayable = false.
Proof.
  destruct (failed_event_with_live_message_is_an_error "evt_00000000000000000000000000000001"
    (mkStore (failed_db sample_releasing) None []) sample_failed_event sample_releasing) as (err & s' & E & _ & _ & Hn).
  - exact (failed_schema sample_releasing eq_refl eq_refl eq_refl).
  - reflexivity.
  - reflexivity.
  - vm_compute. reflexivity.
  - reflexivity.
  - split; vm_compute; reflexivity.
  - right. reflexivity.
  - exists err, s'. split; [exact E | exact Hn].
Defined.

Lemma take_merge_sort_elem {A} (R : relation A) `{!RelDecision R} n (l : list A) x :
  x ∈ take n (merge_sort R l) -> x ∈ l.
Proof.
  intros Hx. rewrite <- (merge_sort_Permutation R l), <- (take_drop n (merge_sort R l)). apply elem_of_app. by left.
Qed.

Lemma ListWebhookEvents_Ok status limit d rows d' :
  ListWebhookEvents status limit d = Ok (rows, d') ->
  d' = d /\ Z.of_nat (length rows) <= Z.max 0 limit /\
  forall row, row ∈ rows -> (exists i, webhook_events d !! i = Some row.1) /\
    (status <> "" -> EventRow_Status row.1 = status).
Proof.
  unfold ListWebhookEvents. destruct (limit <? 0) eqn:El; [done|]. intros [= <- <-]. split; [done|]. split.
  - rewrite length_take. lia.
  - intros row Hr%take_merge_sort_elem. apply list_elem_of_bind in Hr as (e & Hj & [Hp (i & Hi)]%rows_where_inv).
    assert (row.1 = e) as ->.
    { unfold left_join in Hj. destruct (rows_where _ _); [by apply list_elem_of_singleton in Hj as ->|].
      by apply list_elem_of_fmap in Hj as (? & -> & _). }
    split; [eauto|]. intros Hne. apply orb_true_iff in Hp as [Hp|Hp]; by apply String.eqb_eq in Hp.
Qed.

(** Inspection is bounded and exposes no raw error. A listing changes
    nothing; a status outside the vocabulary and a limit outside 1..100 are
    refused; otherwise at most the asked number (50 by default) of inbox
    entries is returned, all of the asked status, and every error text that
    crosses the boundary went through the sanitizer. *)
Theorem List_is_bounded_and_sanitized (status : Status) (limit : Z) (s : Store) (out : res (list EventInspection)) (s' : Store) :
  Receive.List status limit s = (out, s') ->
  st_db s' = st_db s /\
  (status <> "" -> validInspectionStatus status = false -> out = Err ErrInvalidStatus) /\
  (status = "" \/ validInspectionStatus status = true -> limit < 0 \/ 100 < limit -> out = Err ErrInvalidLimit) /\
  (forall vs, out = Ok vs ->
     Z.of_nat (length vs) <= (if limit =? 0 then 50 else limit) <= 100 /\
     forall v, v ∈ vs ->
       (exists i e, webhook_events (st_db s) !! i = Some e /\ EI_ID v = EventRow_ID e) /\
       (status <> "" -> EI_Status v = status) /\
       (EI_LastError v = "" \/ exists text, EI_LastError v = Sanitize text) /\
       (forall o, EI_Outbox v = Some o -> OI_LastError o = "" \/ exists text, OI_LastError o = Sanitize text)).
Proof.
  unfold Receive.List. intros E.
  destruct ((status <>s? "") && negb (validInspectionStatus status)) eqn:Ev.
  { injection E as <- <-. go_bool. split_and!; try done. intros [?|?] _; congruence. }
  assert (status = "" \/ validInspectionStatus status = true) as Hst.
  { apply andb_false_iff in Ev as [Ev|Ev]; go_bool; auto. }
  set (l := if limit =? 0 then defaultInspectionLimit else limit) in *.
  assert (l = if limit =? 0 then 50 else limit) as Hl by done.
  destruct ((l <? 1) || (maxInspectionLimit <? l)) eqn:El.
  { injection E as <- <-. split_and!; try done. intros ? Hv. destruct Hst; congruence. }
  apply orb_false_iff in El as [El1%Z.ltb_ge El2%Z.ltb_ge]. unfold maxInspectionLimit in El2.
  assert (st_db s' = st_db s /\ forall vs, out = Ok vs -> exists rows, vs = inspectionFromRow <$> rows /\
    ListWebhookEvents status (wrap32 l) (st_db s) = Ok (rows, st_db s')) as [Hd Hok].
  { revert E. simpl. unfold WebhookRepository_List, gbind, gwrap. destruct (exec _ s) as [[rows|err] s1] eqn:E1; simpl;
      intros [= <- <-].
    - apply exec_Ok in E1. pose proof E1 as [? _]%ListWebhookEvents_Ok. split; [done|]. intros vs [= <-]. eauto.
    - split; [|done]. by apply exec_Err in E1 as [?|[rows [? _]%ListWebhookEvents_Ok]]. }
  split; [done|]. split; [intros; destruct Hst; congruence|].
  split; [intros _ Hb; clearbody l; revert Hl; destruct (Z.eqb_spec limit 0); lia|].
  intros vs (rows & -> & Hq)%Hok. apply ListWebhookEvents_Ok in Hq as (_ & Hn & Hrows).
  rewrite wrap32_id in Hn by (clearbody l; clear Hl; unfold in_int32, MaxInt32; lia). rewrite length_fmap, <- Hl. split; [lia|].
  intros v ([e o] & -> & Hr)%list_elem_of_fmap. destruct (Hrows _ Hr) as [(i & Hi) Hf]. simpl in *.
  split_and!; [by exists i, e|done| |].
  - unfold operationNullableString. destruct (EventRow_LastError e); eauto.
  - intros oi Ho. destruct o as [o|]; [|done]. injection Ho as <-. simpl.
    unfold operationNullableString. destruct (OutboxRow_LastError o); eauto.
Qed.

Lemma List_is_bounded_and_sanitized_witness :
  exists v s', Receive.List StatusFailed 0 (mkStore (failed_db sample_published) None []) = (Ok [v], s') /\
    (EI_LastError v = "" \/ exists text, EI_LastError v = Sanitize text).
Proof.
  assert (let r := Receive.List StatusFailed 0 (mkStore (failed_db sample_published) None []) in
          match r.1 with Ok [v] => True | _ => False end) as Hc by (vm_compute; exact I).
  destruct (Receive.List StatusFailed 0 (mkStore (failed_db sample_published) None [])) as [[vs|err] s'] eqn:E; [|destruct Hc].
  destruct vs as [|v [|]]; [destruct Hc| |destruct Hc].
  destruct (List_is_bounded_and_sanitized _ _ _ _ _ E) as (_ & _ & _ & H).
  destruct (H [v] eq_refl) as [_ Hv]. exists v, s'. split; [reflexivity|]. apply (Hv v). by left.
Defined.
