(* ===== verification/OrderApp.v ===== *)
(** * The order use cases: [internal/application/orders] and the catalog

    [service.go]: [Create] and [Get] over the ports [Catalog] and
    [Repository]. [adapters/catalog/static.go]: the immutable catalog. *)

From S2P Require Import Prelude GoLib Orders.

(** ** [service.go] *)

Definition ErrProductNotFound : error := ErrSentinel "orders.ErrProductNotFound" "product not found".
Definition ErrIdempotencyKeyConflict : error :=
  ErrSentinel "orders.ErrIdempotencyKeyConflict" "idempotency key already used".
Definition ErrOrderNotFound : error := ErrSentinel "orders.ErrOrderNotFound" "order not found".

Class Catalog : Type := Catalog_Product : string -> res Product.

Class Repository (W : Type) : Type := {
  CreateOrGet : Order -> M W (Order * bool);
  Repository_Get : string -> M W Order;
}.

Record CreateInput := mkCreateInput {
  In_ProductID : string;
  In_Quantity : Z;
  In_IdempotencyKey : string;
}.

Definition CreateInput_Validate (i : CreateInput) : res unit :=
  try _ := ValidateProductID (In_ProductID i) in
  try _ := ValidateQuantity (In_Quantity i) in
  ValidateIdempotencyKey (In_IdempotencyKey i).

Inductive Notification : Type := Replayed | Conflicted.

(** The clock and the identifier generator of one call. *)
Record Service := mkService {
  Service_observer : bool;
  Service_now : Time;
  Service_newID : res string;
}.
Definition Option : Type := Service -> Service.
Definition WithClock (now : Time) : Option := fun s => mkService (Service_observer s) now (Service_newID s).
Definition WithIDGenerator (newID : res string) : Option := fun s =>
  mkService (Service_observer s) (Service_now s) newID.
Definition WithObserver : Option := fun s => mkService true (Service_now s) (Service_newID s).
Definition NewService (now : Time) (entropy : res (list Z)) (opts : list Option) : Service :=
  fold_left (fun s opt => opt s) opts (mkService false now (NewID entropy)).

Section Service.
Context {W : Type} `{Catalog} `{Repository W}.

Definition notify (s : Service) (n : Notification) : list Notification :=
  if Service_observer s then [n] else [].

Definition Create (s : Service) (i : CreateInput) (w : W) : res Order * list Notification * W :=
  let order :=
    try _ := CreateInput_Validate i in
    try product := res_wrap (wrapf "resolve product") (Catalog_Product (In_ProductID i)) in
    try id := Service_newID s in
    New id product (In_Quantity i) (In_IdempotencyKey i) (Service_now s) in
  match order with
  | Err err => (Err err, [], w)
  | Ok order =>
      let '(answer, w) := CreateOrGet order w in
      match answer with
      | Err err => (Err (wrapf "persist order" err), [], w)
      | Ok (persisted, created) =>
          if negb created &&
             ((Order_ProductID persisted <>s? In_ProductID i) || negb (Order_Quantity persisted =? In_Quantity i))
          then (Err ErrIdempotencyKeyConflict, notify s Conflicted, w)
          else (Ok persisted, if negb created then notify s Replayed else [], w)
      end
  end.

Definition Get (id : string) : M W Order :=
  match ValidateID id with
  | Err _ => gfail ErrOrderNotFound
  | Ok _ => gwrap (wrapf "get order") (Repository_Get id)
  end.
End Service.

(** ** [adapters/catalog/static.go] *)

Definition DemoProductID : string := "product_demo".

Definition Static : Type := gmap string Product.

(** [%q] of a product identifier appears only in an error text. *)
Definition catalog_error (p : Product) (cause : option error) : error :=
  match cause with
  | Some err => wrapf ("catalog product " +:+ Product_ID p) err
  | None => ErrNew ("catalog product " +:+ Product_ID p +:+ ": duplicated")
  end.

Fixpoint index_products (index : gmap string Product) (products : list Product) : res (gmap string Product) :=
  match products with
  | [] => Ok index
  | product :: rest =>
      match Product_Validate product with
      | Err err => Err (catalog_error product (Some err))
      | Ok _ =>
          match index !! Product_ID product with
          | Some _ => Err (catalog_error product None)
          | None => index_products (<[Product_ID product := product]> index) rest
          end
      end
  end.

Definition NewStatic (products : list Product) : res Static := index_products ∅ products.

Definition DemoProduct : Product := mkProduct DemoProductID "Produto de demonstracao" 10000 BRL.
Definition Demo : res Static := NewStatic [DemoProduct].

Definition Static_Product (s : Static) (id : string) : res Product :=
  match s !! id with Some product => Ok product | None => Err ErrProductNotFound end.

(** ** Lemmas *)

Lemma index_products_spec products index s :
  index_products index products = Ok s ->
  (forall id p, index !! id = Some p -> Product_ID p = id /\ Product_Validate p = Ok tt) ->
  forall id p, s !! id = Some p ->
    Product_ID p = id /\ Product_Validate p = Ok tt /\ (index !! id = Some p \/ p ∈ products).
Proof.
  revert index. induction products as [|q rest IH]; simpl; intros index.
  - intros [= <-] Hi id p Hp. destruct (Hi _ _ Hp). auto.
  - destruct (Product_Validate q) as [[]|] eqn:Hq; [|done]. destruct (index !! Product_ID q) eqn:Hn; [done|].
    intros E Hi id p Hp.
    assert (forall id' p', <[Product_ID q := q]> index !! id' = Some p' ->
      Product_ID p' = id' /\ Product_Validate p' = Ok tt) as Hi'.
    { intros id' p'. rewrite lookup_insert. case_decide; subst; [by intros [= <-] | by apply Hi]. }
    destruct (IH _ E Hi' _ _ Hp) as (? & ? & Hor).
    split_and!; [done..|]. destruct Hor as [Hor|]; [|right; by right].
    rewrite lookup_insert in Hor. case_decide; [right; injection Hor as <-; by left | by left].
Qed.

(** A built catalog resolves valid products under their own identifier. *)
Lemma NewStatic_spec products s id p :
  NewStatic products = Ok s -> Static_Product s id = Ok p ->
  Product_ID p = id /\ Product_Validate p = Ok tt /\ p ∈ products.
Proof.
  intros E. unfold Static_Product. destruct (s !! id) as [q|] eqn:Hq; [|done]. intros [= ->].
  assert (forall id p, (∅ : gmap string Product) !! id = Some p -> Product_ID p = id /\ Product_Validate p = Ok tt) as Hi
    by (intros id' p'; by rewrite lookup_empty).
  destruct (index_products_spec _ _ _ E Hi _ _ Hq) as (? & ? & Hor). rewrite lookup_empty in Hor. by destruct Hor.
Qed.

(** What the use case hands to its repository. *)
Definition ordered `{Catalog} (s : Service) (i : CreateInput) (o : Order) : Prop :=
  CreateInput_Validate i = Ok tt /\ exists p id,
    Catalog_Product (In_ProductID i) = Ok p /\ Service_newID s = Ok id /\
    New id p (In_Quantity i) (In_IdempotencyKey i) (Service_now s) = Ok o.

Lemma Create_cases {W} `{Catalog} `{Repository W} s i (w : W) out log w' :
  Create s i w = (out, log, w') ->
  (w' = w /\ exists err, out = Err err) \/
  exists o answer, ordered s i o /\ CreateOrGet o w = (answer, w') /\
    match answer with
    | Err err => out = Err (wrapf "persist order" err)
    | Ok (persisted, created) =>
        if negb created && ((Order_ProductID persisted <>s? In_ProductID i) ||
                            negb (Order_Quantity persisted =? In_Quantity i))
        then out = Err ErrIdempotencyKeyConflict else out = Ok persisted
    end.
Proof.
  unfold Create, ordered. destruct (CreateInput_Validate i) as [[]|]; simpl; [|intros [= <- _ <-]; eauto].
  destruct (Catalog_Product _) as [p|]; simpl; [|intros [= <- _ <-]; eauto].
  destruct (Service_newID s) as [id|]; simpl; [|intros [= <- _ <-]; eauto].
  destruct (New _ _ _ _ _) as [o|] eqn:Eo; [|intros [= <- _ <-]; eauto].
  destruct (CreateOrGet o w) as [[[persisted created]|err] w1] eqn:E; [|intros [= <- _ <-]; right; exists o, (Err err); eauto 10].
  intros E'. right. exists o, (Ok (persisted, created)). split; [eauto 6|].
  destruct (negb created && _); injection E' as <- _ <-; done.
Qed.
