(* ===== verification/Gorm.v ===== *)
(** * Rows, GORM and concurrent requests: [internal/adapters/postgres/models]

    The conversions between rows and domain values ([models/order.go],
    [models/payment.go]); what the repositories use of GORM, as an interface
    whose documented behaviour is stated in SQL terms; and the world in which
    they run it, where other sessions commit between two statements. *)

From S2P Require Import Prelude GoLib Orders Payments Transitions Store Queries.

(** ** [models/order.go] *)

Definition OrderFromDomain (order : Order) : OrderRow :=
  mkOrderRow (Order_ID order) (Order_Status order) (Order_Amount order) (Order_Currency order)
    (Order_ProductID order) (wrap32 (Order_Quantity order)) (Order_IdempotencyKey order)
    (UTC (Order_CreatedAt order)) (UTC (Order_UpdatedAt order)).

Definition Order_ToDomain (o : OrderRow) : Order :=
  mkOrder (OrderRow_ID o) (OrderRow_Status o) (OrderRow_Amount o) (OrderRow_Currency o) (OrderRow_ProductID o)
    (OrderRow_Quantity o) (OrderRow_IdempotencyKey o) (UTC (OrderRow_CreatedAt o)) (UTC (OrderRow_UpdatedAt o)).

(** ** [models/payment.go] *)

Definition PaymentFromDomain (payment : Payment) : PaymentRow :=
  mkPaymentRow (Payment_ID payment) (Payment_OrderID payment) (Payment_Provider payment) (Payment_Status payment)
    (Payment_Amount payment) (Payment_Currency payment) (UTC (Payment_CreatedAt payment)) (UTC (Payment_UpdatedAt payment)).

Definition Payment_ToDomain (p : PaymentRow) : Payment :=
  mkPayment (PaymentRow_ID p) (PaymentRow_OrderID p) (PaymentRow_Provider p) (PaymentRow_Status p)
    (PaymentRow_Amount p) (PaymentRow_Currency p) (UTC (PaymentRow_CreatedAt p)) (UTC (PaymentRow_UpdatedAt p)).

(** A pointer to a non-empty value; the empty string when there is none. *)
Definition pointer (s : string) : option string := if s <>s? "" then Some s else None.
Definition deref (p : option string) : string := match p with Some s => s | None => "" end.

Definition PaymentAttemptFromDomain (a : Attempt) : AttemptRow :=
  mkAttemptRow (Attempt_ID a) (Attempt_PaymentID a) (Attempt_Provider a) (Attempt_Status a)
    (Attempt_IdempotencyKey a) (pointer (Attempt_ProviderSessionID a)) (pointer (Attempt_ProviderPaymentIntentID a))
    (pointer (Attempt_CheckoutURL a))
    (if negb (IsZero (Attempt_ExpiresAt a)) then Some (UTC (Attempt_ExpiresAt a)) else None)
    None None (UTC (Attempt_CreatedAt a)) (UTC (Attempt_UpdatedAt a)).

Definition PaymentAttempt_ToDomain (a : AttemptRow) : Attempt :=
  mkAttempt (AttemptRow_ID a) (AttemptRow_PaymentID a) (AttemptRow_Provider a) (AttemptRow_Status a)
    (AttemptRow_IdempotencyKey a) (deref (AttemptRow_ProviderSessionID a))
    (deref (AttemptRow_ProviderPaymentIntentID a)) (deref (AttemptRow_CheckoutURL a))
    (match AttemptRow_ExpiresAt a with Some t => UTC t | None => 0 end)
    (UTC (AttemptRow_CreatedAt a)) (UTC (AttemptRow_UpdatedAt a)).

(** ** Concurrent requests

    The checkout transactions take no lock first, so other sessions commit
    between their statements. [Race] is what they commit before the next one;
    it happens to the transaction's view and to the state a rollback returns
    to. A race that conflicts with a row the transaction inserted waits for it:
    it does nothing to the view, and takes place when the row is rolled back. *)
Definition Race : Type := DB -> DB.
Definition World : Type := (Store * list Race)%type.

Definition overtaken (f : Race) (s : Store) : Store :=
  mkStore (f (st_db s)) (f <$> st_saved s) (st_faults s).

Definition run {A} (stmt : Stmt A) : M World A := fun '(s, races) =>
  match races with
  | [] => let '(r, s) := exec stmt s in (r, (s, []))
  | f :: rest => let '(r, s) := exec stmt (overtaken f s) in (r, (s, rest))
  end.

(** ** What the repositories use of GORM

    [Create_*]: [Create(&row)] under a conflict clause that does nothing, with
    [RowsAffected]. [First_*]: [First(&row)] under a condition.
    [Updates_Attempt]: [Updates] of the rows under a condition.
    [Transaction]: [db.Transaction(fn)]. *)
Definition ErrRecordNotFound : error := ErrSentinel "gorm.ErrRecordNotFound" "record not found".

Class Gorm : Type := {
  Create_Order : OrderRow -> Stmt Z;
  Create_Payment : PaymentRow -> Stmt Z;
  Create_Attempt : AttemptRow -> Stmt Z;
  First_Order : (OrderRow -> bool) -> Stmt OrderRow;
  First_Payment : (PaymentRow -> bool) -> Stmt PaymentRow;
  First_Attempt : (AttemptRow -> bool) -> Stmt AttemptRow;
  Updates_Attempt : (AttemptRow -> bool) -> (AttemptRow -> AttemptRow) -> Stmt Z;
  Transaction : forall {A}, M World A -> M World A;
}.

(** [INSERT ... ON CONFLICT DO NOTHING]: [skip] says whether a conflict leaves
    the row out, [refused] which constraint refuses it. *)
Definition insert_or_nothing {R} (table : string) (id : R -> string) (check : R -> bool)
    (unique_ok : gmap string R -> bool) (skip : bool) (refused : option error) (r : R) (m : gmap string R)
    : res (gmap string R * Z) :=
  if negb (check r) then Err (check_violation table)
  else if skip then Ok (m, 0)
  else match refused with
       | Some err => Err err
       | None => try t := insert_table table id check unique_ok r m in Ok (t, 1)
       end.

Definition sql_insert_order (r : OrderRow) : Stmt Z :=
  with_orders (fun t _ =>
    insert_or_nothing "orders" OrderRow_ID orders_check orders_unique
      (present orders_idempotency_key_key r t) None r t).

(** The composite foreign key of [payments] on [orders (id, amount, currency)]. *)
Definition payment_refused (d : DB) (r : PaymentRow) : option error :=
  match orders d !! PaymentRow_OrderID r with
  | Some o => if (OrderRow_Amount o =? PaymentRow_Amount r) && (OrderRow_Currency o =s? PaymentRow_Currency r)
              then None else Some (fk_violation "payments")
  | None => Some (fk_violation "payments")
  end.

Definition sql_insert_payment (r : PaymentRow) : Stmt Z := fun d =>
  with_payments (fun t _ =>
    insert_or_nothing "payments" PaymentRow_ID payments_check payments_unique
      (is_some (t !! PaymentRow_ID r) || present payments_order_id_active_key r t) (payment_refused d r) r t) d.

(** The composite foreign key of [payment_attempts] on [payments (id, provider)]. *)
Definition attempt_refused (d : DB) (r : AttemptRow) : option error :=
  match payments d !! AttemptRow_PaymentID r with
  | Some p => if PaymentRow_Provider p =s? AttemptRow_Provider r then None else Some (fk_violation "payment_attempts")
  | None => Some (fk_violation "payment_attempts")
  end.

Definition sql_insert_attempt (r : AttemptRow) : Stmt Z := fun d =>
  with_attempts (fun t _ =>
    insert_or_nothing "payment_attempts" AttemptRow_ID attempts_check attempts_unique
      (is_some (t !! AttemptRow_ID r) || present payment_attempts_idempotency_key_key r t ||
       present payment_attempts_payment_id_active_key r t || present payment_attempts_provider_session_id_key r t)
      (attempt_refused d r) r t) d.

(** [SELECT ... WHERE p ORDER BY id LIMIT 1]. *)
Definition id_order {R} (id : R -> string) (a b : R) : Prop := String.leb (id a) (id b) = true.
#[export] Instance id_order_dec {R} (id : R -> string) : RelDecision (id_order id).
Proof. unfold id_order. intros a b. apply _. Defined.

Definition sql_first {R} (table : DB -> gmap string R) (id : R -> string) (p : R -> bool) : Stmt R := fun d =>
  match merge_sort (id_order id) (rows_where p (table d)) with
  | r :: _ => Ok (r, d)
  | [] => Err ErrRecordNotFound
  end.

Definition sql_update_attempts (p : AttemptRow -> bool) (f : AttemptRow -> AttemptRow) : Stmt Z :=
  with_attempts (fun t _ => update_attempts p f t).

Definition sql_transaction {A} (body : M World A) : M World A :=
  let! _ := on_store BeginTx in
  deferring_rollback (let! a := body in let! _ := on_store Commit in gret a).

(** The documented behaviour. *)
Class GormDocumented `{Gorm} : Prop := {
  Create_Order_sql : forall r d, Create_Order r d = sql_insert_order r d;
  Create_Payment_sql : forall r d, Create_Payment r d = sql_insert_payment r d;
  Create_Attempt_sql : forall r d, Create_Attempt r d = sql_insert_attempt r d;
  First_Order_sql : forall p d, First_Order p d = sql_first orders OrderRow_ID p d;
  First_Payment_sql : forall p d, First_Payment p d = sql_first payments PaymentRow_ID p d;
  First_Attempt_sql : forall p d, First_Attempt p d = sql_first payment_attempts AttemptRow_ID p d;
  Updates_Attempt_sql : forall p f d, Updates_Attempt p f d = sql_update_attempts p f d;
  Transaction_sql : forall A (body : M World A) w, Transaction body w = sql_transaction body w;
}.

(** GORM over the SQL it documents. *)
Definition sql_gorm : Gorm := {|
  Create_Order := sql_insert_order;
  Create_Payment := sql_insert_payment;
  Create_Attempt := sql_insert_attempt;
  First_Order := sql_first orders OrderRow_ID;
  First_Payment := sql_first payments PaymentRow_ID;
  First_Attempt := sql_first payment_attempts AttemptRow_ID;
  Updates_Attempt := sql_update_attempts;
  Transaction := @sql_transaction;
|}.

Lemma sql_gorm_documented : @GormDocumented sql_gorm.
Proof. by split. Qed.

(** ** Lemmas *)

Lemma sql_first_Ok {R} (table : DB -> gmap string R) id p d r d' :
  sql_first table id p d = Ok (r, d') -> d' = d /\ p r = true /\ exists i, table d !! i = Some r.
Proof.
  unfold sql_first. destruct (merge_sort _ _) as [|x l] eqn:E; [done|]. intros [= -> <-]. split; [done|].
  apply rows_where_inv. rewrite <- (merge_sort_Permutation (id_order id)), E. by left.
Qed.

Lemma sql_first_Err {R} (table : DB -> gmap string R) id p d e :
  sql_first table id p d = Err e -> e = ErrRecordNotFound /\ rows_where p (table d) = [].
Proof.
  unfold sql_first. destruct (merge_sort _ _) as [|x l] eqn:E; [|done]. intros [= <-]. split; [done|].
  apply Permutation_nil_r. by rewrite <- E, merge_sort_Permutation.
Qed.

Lemma sql_first_found {R} (table : DB -> gmap string R) id p d i r :
  table d !! i = Some r -> p r = true -> exists r', sql_first table id p d = Ok (r', d) /\ p r' = true.
Proof.
  intros Hi Hp. destruct (sql_first table id p d) as [[r' d']|e] eqn:E.
  - apply sql_first_Ok in E as (-> & ? & _). eauto.
  - apply sql_first_Err in E as [_ E]. pose proof (rows_where_elem p _ _ _ Hi Hp) as Hin. rewrite E in Hin.
    by apply elem_of_nil in Hin.
Qed.

(** *** Rows and domain values *)

Lemma Order_roundtrip o : in_int32 (Order_Quantity o) -> Order_ToDomain (OrderFromDomain o) = o.
Proof. intros Hq. destruct o. unfold Order_ToDomain, OrderFromDomain. simpl in *. by rewrite wrap32_id. Qed.

Lemma Payment_roundtrip p : Payment_ToDomain (PaymentFromDomain p) = p.
Proof. by destruct p. Qed.

Lemma deref_pointer s : deref (pointer s) = s.
Proof. unfold pointer. by destruct (String.eqb_spec s "") as [->|]. Qed.

Lemma Attempt_roundtrip a : PaymentAttempt_ToDomain (PaymentAttemptFromDomain a) = a.
Proof.
  destruct a. unfold PaymentAttempt_ToDomain, PaymentAttemptFromDomain. simpl. rewrite !deref_pointer.
  unfold IsZero. destruct (Z.eqb_spec Attempt_ExpiresAt 0) as [->|]; done.
Qed.

(** *** What other sessions may do

    They keep the schema, delete nothing and leave identities and prices
    alone; the session of an attempt is fixed once it left "created", its
    status once it is settled; a paid order stays paid and a settled payment
    keeps its status. *)
Definition settled_attempt (status : string) : bool := negb (one_of ["created"; "pending"] status).

Record extends (d d' : DB) : Prop := {
  extends_orders : forall i r, orders d !! i = Some r ->
    exists r', orders d' !! i = Some r' /\ OrderRow_Amount r' = OrderRow_Amount r /\
      OrderRow_Currency r' = OrderRow_Currency r /\ OrderRow_ProductID r' = OrderRow_ProductID r /\
      OrderRow_Quantity r' = OrderRow_Quantity r /\ OrderRow_IdempotencyKey r' = OrderRow_IdempotencyKey r;
  extends_payments : forall i r, payments d !! i = Some r ->
    exists r', payments d' !! i = Some r' /\ PaymentRow_OrderID r' = PaymentRow_OrderID r /\
      PaymentRow_Provider r' = PaymentRow_Provider r /\ PaymentRow_Amount r' = PaymentRow_Amount r /\
      PaymentRow_Currency r' = PaymentRow_Currency r;
  extends_attempts : forall i r, payment_attempts d !! i = Some r ->
    exists r', payment_attempts d' !! i = Some r' /\ AttemptRow_PaymentID r' = AttemptRow_PaymentID r /\
      AttemptRow_Provider r' = AttemptRow_Provider r /\ AttemptRow_IdempotencyKey r' = AttemptRow_IdempotencyKey r /\
      (AttemptRow_Status r <> "created" -> AttemptRow_Status r' <> "created" /\
         AttemptRow_ProviderSessionID r' = AttemptRow_ProviderSessionID r /\
         AttemptRow_CheckoutURL r' = AttemptRow_CheckoutURL r /\ AttemptRow_ExpiresAt r' = AttemptRow_ExpiresAt r) /\
      (settled_attempt (AttemptRow_Status r) = true -> AttemptRow_Status r' = AttemptRow_Status r);
  extends_paid : forall i r r', orders d !! i = Some r -> orders d' !! i = Some r' ->
    OrderRow_Status r = "paid" -> OrderRow_Status r' = "paid";
  extends_settled : forall i r r', payments d !! i = Some r -> payments d' !! i = Some r' ->
    paymentSettled (PaymentRow_Status r) = true -> PaymentRow_Status r' = PaymentRow_Status r;
}.

#[export] Instance extends_preorder : PreOrder extends.
Proof.
  split.
  - intros d. split; try (intros i r Hi; exists r; naive_solver); congruence.
  - intros d1 d2 d3 [O1 P1 A1 Q1 T1] [O2 P2 A2 Q2 T2]. split; intros i r; [intros Hi|intros Hi|intros Hi|intros r3 Hi Hi3 Hr..].
    + destruct (O1 _ _ Hi) as (r2 & Hi2 & ? & ? & ? & ? & ?). destruct (O2 _ _ Hi2) as (r3 & Hi3 & ? & ? & ? & ? & ?).
      exists r3. split_and!; congruence.
    + destruct (P1 _ _ Hi) as (r2 & Hi2 & ? & ? & ? & ?). destruct (P2 _ _ Hi2) as (r3 & Hi3 & ? & ? & ? & ?).
      exists r3. split_and!; congruence.
    + destruct (A1 _ _ Hi) as (r2 & Hi2 & ? & ? & ? & S2 & T2'). destruct (A2 _ _ Hi2) as (r3 & Hi3 & ? & ? & ? & S3 & T3').
      exists r3. split_and!; try congruence.
      * intros Hn. destruct (S2 Hn) as (? & ? & ? & ?). destruct S3 as (? & ? & ? & ?); [done|]. split_and!; congruence.
      * intros Ht. rewrite <- T2', T3'; [done| |done]. by rewrite T2'.
    + destruct (O1 _ _ Hi) as (r2 & Hi2 & _). eapply Q2; eauto.
    + destruct (P1 _ _ Hi) as (r2 & Hi2 & _). pose proof (T1 _ _ _ Hi Hi2 Hr) as E. rewrite <- E.
      eapply T2; eauto. by rewrite E.
Qed.

(** Every order holds a whole number of units: what [orders.New] establishes
    and nothing changes. *)
Definition priced (r : OrderRow) : Prop :=
  1 <= OrderRow_Quantity r <= MaxQuantity /\ (OrderRow_Quantity r | OrderRow_Amount r).

(** Every event still to be processed has the message that announces it. *)
Definition queued (d : DB) : Prop := forall id e, webhook_events d !! id = Some e -> EventRow_Status e = "pending" ->
  exists i o, outbox_events d !! i = Some o /\ OutboxRow_WebhookEventID o = id.

(** A database the program keeps: the schema, exact prices, and books that
    balance: an order is pending or paid, and it is paid exactly when one of its
    payments was charged; and no event waits without its message. *)
Record sound (d : DB) : Prop := {
  sound_schema : schema d;
  sound_priced : map_Forall (fun _ r => priced r) (orders d);
  sound_status : forall i o, orders d !! i = Some o -> OrderRow_Status o = "pending" \/ OrderRow_Status o = "paid";
  sound_paid : forall i o, orders d !! i = Some o -> OrderRow_Status o = "paid" ->
    exists j p, payments d !! j = Some p /\ PaymentRow_OrderID p = i /\ charged (PaymentRow_Status p) = true;
  sound_charged : forall j p, payments d !! j = Some p -> charged (PaymentRow_Status p) = true ->
    exists o, orders d !! PaymentRow_OrderID p = Some o /\ OrderRow_Status o = "paid";
  sound_queued : queued d;
}.

Definition lawful (f : Race) : Prop := forall d, sound d -> sound (f d) /\ extends d (f d).

(** *** Statements that keep these promises *)
Definition grows {A} (stmt : Stmt A) : Prop :=
  forall d a d', sound d -> stmt d = Ok (a, d') -> sound d' /\ extends d d'.

Lemma extends_tables d d' :
  (forall i r, orders d !! i = Some r -> orders d' !! i = Some r) ->
  (forall i r, payments d !! i = Some r -> payments d' !! i = Some r) ->
  (forall i r, payment_attempts d !! i = Some r -> payment_attempts d' !! i = Some r) -> extends d d'.
Proof.
  intros Ho Hp Ha. split; [intros i r Hi; exists r; naive_solver..| |]; intros i r r' Hi Hi' Hr.
  - apply Ho in Hi. congruence.
  - apply Hp in Hi. congruence.
Qed.

Lemma grows_first {R} (table : DB -> gmap string R) id p : grows (sql_first table id p).
Proof. intros d r d' Hs (-> & _)%sql_first_Ok. split; [done | reflexivity]. Qed.

Lemma insert_or_nothing_Ok {R} table (id : R -> string) check unique_ok skip refused r m m' n :
  insert_or_nothing table id check unique_ok skip refused r m = Ok (m', n) ->
  (skip = true /\ m' = m /\ n = 0) \/
  (skip = false /\ n = 1 /\ refused = None /\ check r = true /\ m !! id r = None /\ m' = <[id r := r]> m /\
   unique_ok m' = true).
Proof.
  unfold insert_or_nothing. destruct (check r) eqn:Ec; simpl; [|done]. destruct skip; [intros [= <- <-]; auto|].
  destruct refused; [done|]. destruct (insert_table _ _ _ _ _ _) as [t|] eqn:Ei; simpl; [|done].
  intros [= <- <-]. apply insert_table_Ok in Ei as (-> & ? & _ & ?). right. auto 10.
Qed.

Lemma insert_keeps {R} (m : gmap string R) k (r : R) i s :
  m !! k = None -> m !! i = Some s -> <[k := r]> m !! i = Some s.
Proof. intros Hk Hi. rewrite lookup_insert_ne by congruence. done. Qed.

Lemma grows_insert_order r : priced r -> OrderRow_Status r = "pending" -> grows (sql_insert_order r).
Proof.
  intros Hr Hst d n d' Hs0 (t & Hu & ->)%with_Ok.
  apply insert_or_nothing_Ok in Hu as [(_ & -> & _)|(_ & _ & _ & Hc & Hn & -> & Hq)];
    [rewrite set_orders_id; by split|].
  destruct Hs0 as [Hs Hpr Hss Hsp Hsc Hqu]. pose proof (payments_order_fkey _ Hs) as Hfk.
  split; [split; simpl; [|by apply map_Forall_insert_2|..]|].
  - destruct Hs. split; simpl; try done.
    + by apply keyed_insert.
    + by apply map_Forall_insert_2.
    + intros i p Hi. destruct (Hfk _ _ Hi) as (o & Ho & ?). exists o. split; [|done]. by apply insert_keeps.
    + by apply unique_okb_spec.
  - intros i o. rewrite lookup_insert. case_decide; [|apply Hss]. intros [= <-]. by left.
  - intros i o. rewrite lookup_insert. case_decide; [|apply Hsp]. intros [= <-]. by rewrite Hst.
  - intros j p Hp Hch. destruct (Hsc _ _ Hp Hch) as (o & Ho & ?). exists o. split; [|done]. by apply insert_keeps.
  - exact Hqu.
  - apply extends_tables; simpl; auto. intros i o. by apply insert_keeps.
Qed.

Lemma grows_insert_payment r : PaymentRow_Status r = "pending" -> grows (sql_insert_payment r).
Proof.
  intros Hst d n d' Hs0 (t & Hu & ->)%with_Ok.
  apply insert_or_nothing_Ok in Hu as [(_ & -> & _)|(_ & _ & Hr & Hc & Hn & -> & Hq)];
    [rewrite set_payments_id; by split|].
  destruct Hs0 as [Hs Hpr Hss Hsp Hsc Hqu].
  pose proof (payments_order_fkey _ Hs) as Hfk. pose proof (payment_attempts_payment_fkey _ Hs) as Hfa.
  split; [split; simpl; [|done|done|..]|].
  - destruct Hs. split; simpl; try done.
    + by apply keyed_insert.
    + by apply map_Forall_insert_2.
    + intros i p. rewrite lookup_insert. case_decide; [|apply Hfk]. intros [= <-].
      unfold payment_refused in Hr. destruct (orders d !! _) as [o|]; [|done].
      destruct (_ && _) eqn:E; [|done]. go_bool. eauto.
    + intros i a Hi. destruct (Hfa _ _ Hi) as (p & Hp & ?). exists p. split; [|done]. by apply insert_keeps.
    + by apply unique_okb_spec.
  - intros i o Ho Hpd. destruct (Hsp _ _ Ho Hpd) as (j & p & Hp & ?). exists j, p. split; [|done]. by apply insert_keeps.
  - intros j p. rewrite lookup_insert. case_decide; [|apply Hsc]. intros [= <-]. by rewrite Hst.
  - exact Hqu.
  - apply extends_tables; simpl; auto. intros i o. by apply insert_keeps.
Qed.

Lemma grows_insert_attempt r : grows (sql_insert_attempt r).
Proof.
  intros d n d' Hs0 (t & Hu & ->)%with_Ok.
  apply insert_or_nothing_Ok in Hu as [(_ & -> & _)|(_ & _ & Hr & Hc & Hn & -> & Hq)];
    [rewrite set_attempts_id; by split|].
  destruct Hs0 as [Hs Hpr Hss Hsp Hsc Hqu].
  pose proof (payment_attempts_payment_fkey _ Hs) as Hfa. apply attempts_unique_spec in Hq as (? & ? & ?).
  split; [split; simpl; [|done..]|].
  - destruct Hs. split; simpl; try done.
    + by apply keyed_insert.
    + by apply map_Forall_insert_2.
    + intros i p. rewrite lookup_insert. case_decide; [|apply Hfa]. intros [= <-].
      unfold attempt_refused in Hr. destruct (payments d !! _) as [o|]; [|done].
      destruct (_ =s? _) eqn:E; [|done]. go_bool. eauto.
  - apply extends_tables; simpl; auto. intros i o. by apply insert_keeps.
Qed.

(** *** A statement among the others' *)

(** The invariant of a world: both the view and the state to return to are well
    formed, and the others behave. *)
Record well_formed (w : World) : Prop := {
  wf_sound : sound (st_db w.1);
  wf_saved : forall d, st_saved w.1 = Some d -> sound d;
  wf_races : Forall lawful w.2;
}.

(** What happened between two worlds. *)
Record later (w w' : World) : Prop := {
  later_wf : well_formed w';
  later_db : extends (st_db w.1) (st_db w'.1);
  later_saved : match st_saved w.1, st_saved w'.1 with
                | Some d, Some d' => extends d d'
                | None, None => True
                | _, _ => False
                end;
}.

Lemma later_refl w : well_formed w -> later w w.
Proof. intros Hw. split; [done|reflexivity|]. by destruct (st_saved w.1). Qed.

Lemma later_trans w1 w2 w3 : later w1 w2 -> later w2 w3 -> later w1 w3.
Proof.
  intros [? H1 S1] [? H2 S2]. split; [done|by etrans|].
  destruct (st_saved w1.1), (st_saved w2.1), (st_saved w3.1); try done. by etrans.
Qed.

Lemma run_later {A} (stmt : Stmt A) w r w' :
  grows stmt -> well_formed w -> run stmt w = (r, w') ->
  later w w' /\ forall a, r = Ok a -> exists d, sound d /\ extends (st_db w.1) d /\ stmt d = Ok (a, st_db w'.1).
Proof.
  intros Hg Hw E. destruct w as [s races].
  assert (exists s0 rest, exec stmt s0 = (r, w'.1) /\ w' = (w'.1, rest) /\ later (s, races) (s0, rest)) as
    (s0 & rest & Ex & Ew & H0).
  { unfold run in E. destruct races as [|f rest].
    - destruct (exec stmt s) as [r0 s'] eqn:Ex. injection E as <- <-. exists s, []. split_and!; [done..|].
      by apply later_refl.
    - destruct (exec stmt (overtaken f s)) as [r0 s'] eqn:Ex. injection E as <- <-.
      exists (overtaken f s), rest. split_and!; [done..|].
      destruct Hw as [Hs Hsv Hr]. apply Forall_cons in Hr as [Hf Hr]. simpl in *. destruct (Hf _ Hs). split; simpl.
      + split; simpl; [done| |done]. intros d. destruct (st_saved s) as [d0|]; simpl; [|done].
        intros [= <-]. by apply Hf, Hsv.
      + done.
      + destruct (st_saved s) as [d0|] eqn:Es; simpl; [|done]. by apply Hf, Hsv. }
  destruct H0 as [[Hs0 Hsv0 Hr0] Hd0 Hv0]. simpl in *.
  assert (sound (st_db w'.1) /\ extends (st_db s0) (st_db w'.1)) as [Hs' He'].
  { destruct r as [a|e]; [apply exec_Ok in Ex; by eapply Hg|].
    apply exec_Err in Ex as [->|[a Ea]]; [by split | by eapply Hg]. }
  split.
  - rewrite Ew. split; simpl.
    + split; simpl; [done| |done]. rewrite (exec_saved _ _ _ _ Ex). done.
    + by etrans.
    + by rewrite (exec_saved _ _ _ _ Ex).
  - intros a ->. apply exec_Ok in Ex. exists (st_db s0). done.
Qed.

(** *** A program logic for repositories among races *)

(** Facts that others cannot undo. *)
Definition stable (P : DB -> Prop) : Prop := forall d d', sound d' -> extends d d' -> P d -> P d'.

Definition triple {A} (P : DB -> Prop) (m : M World A) (Q : A -> DB -> Prop) : Prop :=
  forall w r w', well_formed w -> P (st_db w.1) -> m w = (r, w') ->
    later w w' /\ forall a, r = Ok a -> Q a (st_db w'.1).

Lemma triple_run {A} (P : DB -> Prop) (stmt : Stmt A) (Q : A -> DB -> Prop) :
  grows stmt -> stable P -> (forall d a d', sound d -> P d -> stmt d = Ok (a, d') -> Q a d') ->
  triple P (run stmt) Q.
Proof.
  intros Hg Hst Hq w r w' Hw HP E. destruct (run_later _ _ _ _ Hg Hw E) as [Hl Hok]. split; [done|].
  intros a Ha. destruct (Hok a Ha) as (d & Hs & He & Ed). eapply Hq; [done| |done]. by eapply Hst.
Qed.

Lemma triple_ret {A} (P : DB -> Prop) (a : A) (Q : A -> DB -> Prop) :
  (forall d, sound d -> P d -> Q a d) -> triple P (gret a) Q.
Proof. intros HQ w r w' Hw HP [= <- <-]. split; [by apply later_refl|]. intros b [= <-]. apply HQ; [apply Hw|done]. Qed.

Lemma triple_fail {A} (P : DB -> Prop) e (Q : A -> DB -> Prop) : triple P (gfail e) Q.
Proof. intros w r w' Hw _ [= <- <-]. split; [by apply later_refl | done]. Qed.

Lemma triple_bind {A B} (P : DB -> Prop) (m : M World A) (k : A -> M World B) (Q : A -> DB -> Prop) (R : B -> DB -> Prop) :
  triple P m Q -> (forall a, triple (Q a) (k a) R) -> triple P (gbind m k) R.
Proof.
  intros Hm Hk w r w' Hw HP. unfold gbind. destruct (m w) as [[a|e] w1] eqn:E.
  - destruct (Hm _ _ _ Hw HP E) as [Hl1 HQ]. intros E2.
    destruct (Hk a _ _ _ (later_wf _ _ Hl1) (HQ a eq_refl) E2) as [Hl2 HR]. split; [by eapply later_trans | done].
  - intros [= <- <-]. destruct (Hm _ _ _ Hw HP E) as [Hl1 _]. by split.
Qed.

Lemma triple_wrap {A} (P : DB -> Prop) f (m : M World A) (Q : A -> DB -> Prop) : triple P m Q -> triple P (gwrap f m) Q.
Proof.
  intros Hm w r w' Hw HP. unfold gwrap. destruct (m w) as [r1 w1] eqn:E. intros [= <- <-].
  destruct (Hm _ _ _ Hw HP E) as [Hl HQ]. split; [done|]. intros a Ha. by apply HQ, (res_wrap_Ok f).
Qed.

Lemma triple_weaken {A} (P P' : DB -> Prop) (m : M World A) (Q Q' : A -> DB -> Prop) :
  (forall d, sound d -> P d -> P' d) -> (forall a d, sound d -> Q' a d -> Q a d) -> triple P' m Q' -> triple P m Q.
Proof.
  intros HP HQ Hm w r w' Hw Hp E. destruct (Hm _ _ _ Hw (HP _ (wf_sound _ Hw) Hp) E) as [Hl Hq].
  split; [done|]. intros a Ha. apply HQ; [apply Hl|]. by apply Hq.
Qed.

Lemma run_ext {A} (s1 s2 : Stmt A) w : (forall d, s1 d = s2 d) -> run s1 w = run s2 w.
Proof.
  intros H. destruct w as [s [|f rest]]; unfold run, exec; destruct (next_fault _) as [[] ?]; by rewrite ?H.
Qed.

Lemma grows_ext {A} (s1 s2 : Stmt A) : (forall d, s1 d = s2 d) -> grows s2 -> grows s1.
Proof. intros H Hg d a d' Hs. rewrite H. by apply Hg. Qed.

(** A transaction keeps what its body established, or nothing of its own. *)
Lemma sql_transaction_later {A} (P : DB -> Prop) (body : M World A) (Q : A -> DB -> Prop) w r w' :
  triple P body Q -> well_formed w -> idle w.1 -> P (st_db w.1) -> sql_transaction body w = (r, w') ->
  idle w'.1 /\ later w w' /\ forall a, r = Ok a -> Q a (st_db w'.1).
Proof.
  intros Hb Hw Hi HP. destruct w as [s races]. unfold sql_transaction, gbind at 1, on_store at 1.
  destruct (BeginTx s) as [b s1] eqn:EB. simpl in Hi, HP.
  destruct (BeginTx_cases _ _ _ EB Hi) as (Hd1 & [[-> Hv1]|(e & -> & Hi1)]).
  2:{ intros [= <- <-]. split; [done|]. split; [|done]. destruct Hw as [? _ ?]. split; simpl in *.
      - split; simpl; [by rewrite Hd1| |done]. intros d. by rewrite Hi1.
      - by rewrite Hd1.
      - by rewrite Hi, Hi1. }
  assert (well_formed (s1, races)) as Hw1.
  { destruct Hw as [? _ ?]. split; simpl in *; [by rewrite Hd1| |done]. intros d. rewrite Hv1. by intros [= <-]. }
  unfold deferring_rollback, gbind. destruct (body (s1, races)) as [r2 [s2 races2]] eqn:E2.
  assert (P (st_db (s1, races).1)) as HP1 by (simpl; by rewrite Hd1).
  destruct (Hb _ _ _ Hw1 HP1 E2) as [[[Hs2 Hsv2 Hr2] He2 Hsaved] HQ]. simpl in *. rewrite Hv1 in Hsaved.
  destruct (st_saved s2) as [d2|] eqn:Ev2; [|done].
  assert (later (s, races) (Rollback s2, races2) /\ idle (Rollback s2)) as [Hback Hiback].
  { destruct (Rollback_saved s2 d2 Ev2) as [Hrd Hri]. split; [|done]. split; simpl.
    - split; simpl; [rewrite Hrd; by apply Hsv2| |done]. intros d. by rewrite Hri.
    - by rewrite Hrd.
    - by rewrite Hi, Hri. }
  destruct r2 as [a|e]; [|intros [= <- <-]; split_and!; done].
  unfold on_store. destruct (Commit s2) as [[[]|e] s3] eqn:EC; intros [= <- <-].
  - apply Commit_Ok in EC as [Hd3 Hi3]. rewrite (Rollback_idle _ Hi3). split; [done|]. split.
    + split; simpl; [split; simpl; [by rewrite Hd3| |done]; intros d; by rewrite Hi3|by rewrite Hd3, <- Hd1|by rewrite Hi, Hi3].
    + intros b [= <-]. simpl. rewrite Hd3. by apply HQ.
  - apply Commit_cases in EC as [Hd3 [Hi3|[Hv3 _]]].
    + rewrite (Rollback_idle s3) by done. split; [done|]. split; [|done].
      split; simpl; [split; simpl; [by rewrite Hd3| |done]; intros d; by rewrite Hi3|by rewrite Hd3, <- Hd1|by rewrite Hi, Hi3].
    + assert (Rollback s3 = mkStore d2 None (st_faults s3)) as -> by (unfold Rollback; by rewrite Hv3, Ev2).
      split; [done|]. split; [|done]. split; simpl; [split; simpl; [by apply Hsv2|done|done]|done|by rewrite Hi].
Qed.

(** A statement another session ran, as a race: it commits, or conflicts and
    does nothing. *)
Definition race_of {A} (stmt : Stmt A) : Race := fun d =>
  match stmt d with Ok (_, d') => d' | Err _ => d end.

Lemma race_of_lawful {A} (stmt : Stmt A) : grows stmt -> lawful (race_of stmt).
Proof.
  intros Hg d Hs. unfold race_of. destruct (stmt d) as [[a d']|e] eqn:E; [by eapply Hg | by split].
Qed.
