(* ===== verification/CheckoutApp.v ===== *)
(** * The checkout use case: [internal/application/payments/service.go]

    [CreateCheckout] over three ports: the orders, the repository that
    reserves an attempt, and the payment provider. The ports act on one world.
    The deadlines of the calls are part of the ports' failures. *)

From S2P Require Import Prelude GoLib Orders OrderApp Payments.

Definition ErrIdempotencyKeyConflict : error :=
  ErrSentinel "payments.ErrIdempotencyKeyConflict" "idempotency key already used".
Definition ErrCheckoutInProgress : error :=
  ErrSentinel "payments.ErrCheckoutInProgress" "another checkout is already active for this order".
Definition ErrOrderNotPayable : error :=
  ErrSentinel "payments.ErrOrderNotPayable" "order is not available for checkout".
Definition ErrProviderUnavailable : error :=
  ErrSentinel "payments.ErrProviderUnavailable" "payment provider unavailable".

Record ProviderRequest := mkProviderRequest {
  PR_OrderID : string;
  PR_PaymentID : string;
  PR_AttemptID : string;
  PR_ProductID : string;
  PR_UnitAmount : Z;
  PR_Quantity : Z;
  PR_Currency : Currency;
  PR_IdempotencyKey : string;
}.

Class OrderReader (W : Type) : Type := Reader_Get : string -> M W Order.

Class Repository (W : Type) : Type := {
  PrepareCheckout : Payment -> Attempt -> M W (Payment * Attempt);
  SaveSession : Attempt -> M W unit;
}.

Class Provider (W : Type) : Type := Provider_CreateCheckout : ProviderRequest -> M W Session.

Definition ProviderOperation : Type := string.
Definition ProviderOperationCreateCheckout : ProviderOperation := "create_checkout".

Record ProviderCall := mkProviderCall {
  PC_Provider : Payments.Provider;
  PC_Operation : ProviderOperation;
  PC_Duration : Duration;
  PC_Err : option error;
}.

Inductive Notification : Type :=
| ProviderCalled (call : ProviderCall)
| Replayed
| Conflicted.

Record Checkout := mkCheckout { Checkout_URL : string; Checkout_ExpiresAt : Time }.
Record CreateInput := mkCreateInput { CI_OrderID : string; CI_IdempotencyKey : string }.

(** What one call draws from its surroundings: the clock before the
    reservation, the clock after the provider's answer, the identifiers. *)
Record Service := mkService {
  Service_observer : bool;
  Service_now : Time;
  Service_later : Time;
  Service_newPaymentID : res string;
  Service_newAttemptID : res string;
}.
Definition Option : Type := Service -> Service.
Definition WithClock (now later : Time) : Option := fun s =>
  mkService (Service_observer s) now later (Service_newPaymentID s) (Service_newAttemptID s).
Definition WithIDGenerators (paymentID attemptID : res string) : Option := fun s =>
  mkService (Service_observer s) (Service_now s) (Service_later s) paymentID attemptID.
Definition WithObserver : Option := fun s =>
  mkService true (Service_now s) (Service_later s) (Service_newPaymentID s) (Service_newAttemptID s).
Definition NewService (now later : Time) (paymentEntropy attemptEntropy : res (list Z)) (opts : list Option) : Service :=
  fold_left (fun s option => option s) opts
    (mkService false now later (NewPaymentID paymentEntropy) (NewAttemptID attemptEntropy)).

Definition checkoutFromAttempt (a : Attempt) : Checkout :=
  mkCheckout (Attempt_CheckoutURL a) (Attempt_ExpiresAt a).

(** The request built for an order and its reserved attempt. *)
Definition provider_request (order : Order) (payment : Payment) (attempt : Attempt) : ProviderRequest :=
  mkProviderRequest (Order_ID order) (Payment_ID payment) (Attempt_ID attempt) (Order_ProductID order)
    (Z.quot (Order_Amount order) (Order_Quantity order)) (Order_Quantity order) (Order_Currency order)
    (Attempt_IdempotencyKey attempt).

Section Service.
Context {W : Type} `{OrderReader W} `{Repository W} `{Provider W} `{UrlParser}.

Definition notify (s : Service) (n : Notification) : list Notification :=
  if Service_observer s then [n] else [].

(** From the reserved attempt to the persisted session. *)
Definition open_session (s : Service) (order : Order) (payment : Payment) (attempt : Attempt)
    (elapsed : Duration) (w : W) : res Checkout * list Notification * W :=
  if HasSession attempt then (Ok (checkoutFromAttempt attempt), [], w) else
  let '(session, w) := Provider_CreateCheckout (provider_request order payment attempt) w in
  let log := notify s (ProviderCalled (mkProviderCall (Payment_Provider payment) ProviderOperationCreateCheckout
                         elapsed (match session with Ok _ => None | Err err => Some err end))) in
  match session with
  | Err err => (Err (ErrWrap2 "" ErrProviderUnavailable ": " err ""), log, w)
  | Ok session =>
      match AttachSession attempt session (Service_later s) with
      | Err err => (Err (ErrWrap2 "" ErrProviderUnavailable ": validate provider session: " err ""), log, w)
      | Ok attempt =>
          match SaveSession attempt w with
          | (Err err, w) => (Err (wrapf "persist provider session" err), log, w)
          | (Ok _, w) => (Ok (checkoutFromAttempt attempt), log, w)
          end
      end
  end.

Definition CreateCheckout (s : Service) (input : CreateInput) (elapsed : Duration) (w : W)
    : res Checkout * list Notification * W :=
  match ValidateID (CI_OrderID input) with
  | Err _ => (Err ErrOrderNotFound, [], w)
  | Ok _ =>
  match ValidateIdempotencyKey (CI_IdempotencyKey input) with
  | Err err => (Err err, [], w)
  | Ok _ =>
  match Reader_Get (CI_OrderID input) w with
  | (Err err, w) => (Err (wrapf "load checkout order" err), [], w)
  | (Ok order, w) =>
  if Order_Status order <>s? Orders.StatusPending then (Err ErrOrderNotPayable, [], w) else
  let reserved :=
    try paymentID := Service_newPaymentID s in
    try attemptID := Service_newAttemptID s in
    try (payment, attempt) := Payments.New paymentID attemptID order (CI_IdempotencyKey input) (Service_now s) in
    Ok (attemptID, payment, attempt) in
  match reserved with
  | Err err => (Err err, [], w)
  | Ok (attemptID, payment, attempt) =>
  match PrepareCheckout payment attempt w with
  | (Err err, w) =>
      (Err (wrapf "prepare checkout" err),
       if Is err ErrIdempotencyKeyConflict then notify s Conflicted else [], w)
  | (Ok (payment, attempt), w) =>
      let replayed := if Attempt_ID attempt <>s? attemptID then notify s Replayed else [] in
      let '(out, log, w) := open_session s order payment attempt elapsed w in
      (out, replayed ++ log, w)
  end end end end end.
End Service.
