(* ===== verification/Stripe.v ===== *)
(** * The Stripe adapter: [internal/adapters/payments/stripe]

    [checkout.go] opens hosted sessions, [webhook.go] verifies signed events,
    [session.go] reads stored events. The SDK is a parameter; the adapter
    implements the ports of the checkout, the receiving and the consuming use
    cases. *)

From S2P Require Import Prelude GoLib Json Orders Payments Webhooks Errsanitize JsonText.
From S2P Require Import Store Queries Consumer EventRepo Samples Processing Receive CheckoutApp.

(** ** The SDK *)

(** The fields of a [stripesdk.CheckoutSession] the adapter reads. *)
Record CheckoutSession := mkCheckoutSession {
  CS_ID : string;
  CS_Object : string;
  CS_URL : string;
  CS_ExpiresAt : Z;
  CS_PaymentIntent : option string;
  CS_PaymentStatus : string;
  CS_AmountTotal : Z;
  CS_Currency : string;
  CS_ClientReferenceID : string;
  CS_Metadata : gmap string string;
}.

Record LineItemParams := mkLineItemParams {
  LI_Quantity : Z;
  LI_Currency : string;
  LI_UnitAmount : Z;
  LI_ProductName : string;
}.

(** The fields of [stripesdk.CheckoutSessionCreateParams] the adapter sets. *)
Record CreateParams := mkCreateParams {
  CP_Mode : string;
  CP_SuccessURL : string;
  CP_CancelURL : string;
  CP_ClientReferenceID : string;
  CP_PaymentMethodTypes : list string;
  CP_LineItems : list LineItemParams;
  CP_Metadata : gmap string string;
  CP_IdempotencyKey : string;
}.

(** The constants and functions of the SDK. A decoding error is its text:
    nothing compares it. *)
Class StripeSDK : Type := {
  APIVersion : string;
  CheckoutSessionModePayment : string;
  PaymentMethodTypeCard : string;
  PaymentMethodTypePix : string;
  PaymentStatusPaid : string;
  PaymentStatusNoPaymentRequired : string;
  PaymentStatusUnpaid : string;
  decode_session : string -> string + CheckoutSession;
  sdk_event : Type;
  sdk_event_ID : sdk_event -> string;
  sdk_event_Type : sdk_event -> string;
  sdk_event_Created : sdk_event -> Z;
  ConstructEvent : string -> string -> string -> Duration -> res sdk_event;
  marshal_event : sdk_event -> res string;
  DefaultTolerance : Duration;
}.

(** [sessionCreator]. *)
Class SessionCreator (W : Type) : Type := Sessions_Create : CreateParams -> M W (option CheckoutSession).

(** ** [checkout.go] *)

(** The keys of the metadata attached to a session. *)
Definition metadataOrderID : string := "order_id".
Definition metadataPaymentID : string := "payment_id".
Definition metadataAttemptID : string := "payment_attempt_id".

Record Checkout := mkCheckoutAdapter { successURL : string; cancelURL : string }.

Section Checkout.
Context `{UnicodeTables} `{StripeSDK}.

Definition create_params (c : Checkout) (request : ProviderRequest) : CreateParams :=
  mkCreateParams CheckoutSessionModePayment (successURL c) (cancelURL c) (PR_OrderID request)
    [PaymentMethodTypeCard; PaymentMethodTypePix]
    [mkLineItemParams (PR_Quantity request) (ToLower (PR_Currency request)) (PR_UnitAmount request)
       (PR_ProductID request)]
    {["order_id" := PR_OrderID request; "payment_id" := PR_PaymentID request;
      "payment_attempt_id" := PR_AttemptID request]}
    (PR_IdempotencyKey request).

Definition CreateCheckout {W} `{SessionCreator W} (c : Checkout) (request : ProviderRequest) : M W Session :=
  let! session := gwrap (wrapf "create Stripe Checkout Session") (Sessions_Create (create_params c request)) in
  match session with
  | None => gfail (ErrNew "create Stripe Checkout Session: empty response")
  | Some session =>
      gret (mkSession (CS_ID session) (default "" (CS_PaymentIntent session)) (CS_URL session)
              (UTC (Unix (CS_ExpiresAt session))))
  end.
End Checkout.

(** ** [webhook.go] *)

(** A missing event name reads as [KindUnknown]. *)
Definition eventKinds : gmap string Kind :=
  {["checkout.session.completed" := KindCheckoutCompleted;
    "checkout.session.async_payment_succeeded" := KindCheckoutPaymentSucceeded;
    "checkout.session.async_payment_failed" := KindCheckoutPaymentFailed;
    "checkout.session.expired" := KindCheckoutExpired]}.
Definition eventKind (t : string) : Kind := default KindUnknown (eventKinds !! t).

Record Webhook := mkWebhook { secret : string; tolerance : Duration }.

Section Webhook.
Context `{StripeSDK}.

Definition NewWebhook (secret : string) : Webhook := mkWebhook secret DefaultTolerance.

Definition canonicalPayload (rawBody : string) (event : sdk_event) : string :=
  if json_Valid rawBody then rawBody
  else match marshal_event event with
       | Err _ => "{}"
       | Ok encoded => encoded
       end.

Definition Webhook_Verify (w : Webhook) (rawBody signature : string) : res ProviderEvent :=
  match ConstructEvent rawBody signature (secret w) (tolerance w) with
  | Err err => Err (wrapf "verify stripe signature" err)
  | Ok event =>
      Ok (mkProviderEvent (sdk_event_ID event) (sdk_event_Type event) (eventKind (sdk_event_Type event))
            (UTC (Unix (sdk_event_Created event))) (canonicalPayload rawBody event))
  end.
End Webhook.

(** ** [session.go] *)

Record eventEnvelope := mkEventEnvelope {
  Env_APIVersion : string;
  Env_Type : string;
  Env_Data_Object : string;
}.
Definition zero_envelope : eventEnvelope := mkEventEnvelope "" "" "".

Record StoredSession := mkStoredSession { supportedVersions : gset string }.

Record reference := mkReference { orderID : string; paymentID : string; attemptID : string }.

Section Session.
Context `{UnicodeTables} `{JsonErrors} `{GoQuote} `{StripeSDK}.

Definition SupportedAPIVersion : string := APIVersion.
Definition NewSession : StoredSession := mkStoredSession {[SupportedAPIVersion]}.

(** The fields and tags of [eventEnvelope]. *)
Definition envelope_fields : fields eventEnvelope :=
  [("api_version", store_string (fun v e => mkEventEnvelope v (Env_Type e) (Env_Data_Object e)));
   ("type", store_string (fun v e => mkEventEnvelope (Env_APIVersion e) v (Env_Data_Object e)));
   ("data", store_struct
      [("object", store_raw (fun v e => mkEventEnvelope (Env_APIVersion e) (Env_Type e) v))])].

(** [json.Unmarshal] into a session: the text is checked before the SDK
    decodes it. *)
Definition unmarshal_session (data : string) : res CheckoutSession :=
  if json_Valid data
  then match decode_session data with inl text => Err (ErrNew text) | inr session => Ok session end
  else Err (ErrNew (syntax_error data)).

Definition unreadable (what : string) (err : error) : error :=
  ErrWrap2 "" ErrUnreadablePayload (": " +:+ what +:+ ": ") err "".

Definition checkVersion (s : StoredSession) (version : string) : res unit :=
  if TrimSpace version =s? "" then Err (errorf ErrIncompatibleAPIVersion "event carries no api_version")
  else if negb (bool_decide (version ∈ supportedVersions s))
  then Err (errorf ErrIncompatibleAPIVersion (version +:+ " is not among the supported versions"))
  else Ok tt.

Definition metadata (session : CheckoutSession) (key : string) : string :=
  default "" (CS_Metadata session !! key).

Definition localReference (session : CheckoutSession) : res reference :=
  let found := mkReference (TrimSpace (metadata session metadataOrderID))
                 (TrimSpace (metadata session metadataPaymentID))
                 (TrimSpace (metadata session metadataAttemptID)) in
  let found := if orderID found =s? ""
               then mkReference (TrimSpace (CS_ClientReferenceID session)) (paymentID found) (attemptID found)
               else found in
  if (attemptID found =s? "") || (paymentID found =s? "") || (orderID found =s? "")
  then Err (errorf ErrMissingReference
              ("session " +:+ CS_ID session +:+ " is missing order, payment or attempt metadata"))
  else Ok found.

Definition financialOutcome (kind : Kind) (session : CheckoutSession) : res Payments.Outcome :=
  if kind =s? KindCheckoutCompleted then
    if (CS_PaymentStatus session =s? PaymentStatusPaid) ||
       (CS_PaymentStatus session =s? PaymentStatusNoPaymentRequired) then Ok OutcomeSucceeded
    else if CS_PaymentStatus session =s? PaymentStatusUnpaid then Ok OutcomePending
    else Err (errorf ErrUnreadablePayload
                ("unknown payment_status " +:+ Quote (CS_PaymentStatus session) +:+ " on a completed session"))
  else if kind =s? KindCheckoutPaymentSucceeded then Ok OutcomeSucceeded
  else if kind =s? KindCheckoutPaymentFailed then Ok OutcomeFailed
  else if kind =s? KindCheckoutExpired then Ok OutcomeExpired
  else Err (errorf ErrUnreadablePayload ("event kind " +:+ Quote kind +:+ " produces no transition")).

Definition Session_Interpret (s : StoredSession) (event : Event) : res SessionOutcome :=
  let '(envelope, err) := Unmarshal envelope_fields (Event_Payload event) zero_envelope in
  match err with
  | Some err => Err (unreadable "decode event envelope" err)
  | None =>
  match checkVersion s (Env_APIVersion envelope) with
  | Err err => Err err
  | Ok _ =>
  match unmarshal_session (Env_Data_Object envelope) with
  | Err err => Err (unreadable "decode checkout session" err)
  | Ok session =>
  if (CS_Object session <>s? "") && (CS_Object session <>s? "checkout.session")
  then Err (errorf ErrUnreadablePayload
              ("event carries a " +:+ Quote (CS_Object session) +:+ ", not a checkout session"))
  else if TrimSpace (CS_ID session) =s? ""
  then Err (errorf ErrUnreadablePayload "checkout session has no id")
  else
  let kind := Event_Kind event in
  let kind := if kind =s? KindUnknown then eventKind (Event_Type event) else kind in
  match financialOutcome kind session with
  | Err err => Err err
  | Ok outcome =>
  match localReference session with
  | Err err => Err err
  | Ok reference =>
      Ok (mkSessionOutcome (orderID reference) (paymentID reference) (attemptID reference) (CS_ID session)
            (default "" (CS_PaymentIntent session)) (CS_AmountTotal session)
            (ToUpper (CS_Currency session)) outcome (UTC (Event_ReceivedAt event)))
  end end end end end.
End Session.

(** ** The ports *)

Definition stripe_interpreter `{UnicodeTables} `{JsonErrors} `{GoQuote} `{StripeSDK} : Interpreter := {|
  Interpret := Session_Interpret NewSession;
  Interpreter_Provider := Webhooks.Stripe;
|}.

Definition stripe_verifier `{StripeSDK} (endpoint_secret : string) : Verifier := {|
  Verify := Webhook_Verify (NewWebhook endpoint_secret);
  Verifier_Provider := Webhooks.Stripe;
|}.

Definition stripe_provider `{UnicodeTables} `{StripeSDK} {W} `{SessionCreator W} (c : Checkout)
    : CheckoutApp.Provider W := CreateCheckout c.

(** ** Lemmas *)

Section Lemmas.
Context `{UnicodeTables} `{JsonErrors} `{GoQuote} `{StripeSDK}.

Lemma envelope_fresh data e : fresh (Unmarshal envelope_fields data e).2.
Proof.
  apply Unmarshal_fresh. unfold envelope_fields.
  apply Forall_cons. split; [apply store_string_fresh|]. apply Forall_cons. split; [apply store_string_fresh|].
  apply Forall_cons. split; [|constructor]. apply store_struct_fresh.
  apply Forall_cons. split; [apply store_raw_fresh | constructor].
Qed.

(** The session an event carries, once its version is accepted. *)
Inductive reads (s : StoredSession) (event : Event) (session : CheckoutSession) : Prop :=
| Reads envelope
    (Rdecode : Unmarshal envelope_fields (Event_Payload event) zero_envelope = (envelope, None))
    (Rversion : Env_APIVersion envelope ∈ supportedVersions s)
    (Rsession : unmarshal_session (Env_Data_Object envelope) = Ok session)
    (Rid : TrimSpace (CS_ID session) <> "").

Definition event_kind (event : Event) : Kind :=
  if Event_Kind event =s? KindUnknown then eventKind (Event_Type event) else Event_Kind event.

Lemma Interpret_Ok s event o : Session_Interpret s event = Ok o ->
  exists session ref, reads s event session /\
    financialOutcome (event_kind event) session = Ok (SessionOutcome_Outcome o) /\
    localReference session = Ok ref /\
    o = mkSessionOutcome (orderID ref) (paymentID ref) (attemptID ref) (CS_ID session)
          (default "" (CS_PaymentIntent session)) (CS_AmountTotal session)
          (ToUpper (CS_Currency session)) (SessionOutcome_Outcome o) (Event_ReceivedAt event).
Proof.
  unfold Session_Interpret. destruct (Unmarshal _ _ _) as [envelope [err|]] eqn:E1; [done|].
  unfold checkVersion. destruct (TrimSpace (Env_APIVersion envelope) =s? "") eqn:E2; [done|].
  case_bool_decide as E3; simpl; [|done].
  destruct (unmarshal_session (Env_Data_Object envelope)) as [session|] eqn:E4; [|done].
  destruct ((CS_Object session <>s? "") && _) eqn:E5; [done|].
  destruct (TrimSpace (CS_ID session) =s? "") eqn:E6; [done|].
  destruct (financialOutcome _ session) as [out|] eqn:E7; [|done].
  destruct (localReference session) as [ref|] eqn:E8; [|done].
  intros [= <-]. apply String.eqb_neq in E6. exists session, ref. by split; [econstructor|].
Qed.

(** What a kind says about money: success is said by the asynchronous event,
    or by a completed session that is paid. *)
Lemma financialOutcome_succeeded kind session :
  financialOutcome kind session = Ok OutcomeSucceeded ->
  kind = KindCheckoutPaymentSucceeded \/
  kind = KindCheckoutCompleted /\
    (CS_PaymentStatus session = PaymentStatusPaid \/ CS_PaymentStatus session = PaymentStatusNoPaymentRequired).
Proof.
  unfold financialOutcome. str_cases; subst; simpl; try done; auto.
Qed.

Lemma eventKind_name t k : eventKind t = k -> k <> KindUnknown ->
  (t = "checkout.session.completed" /\ k = KindCheckoutCompleted) \/
  (t = "checkout.session.async_payment_succeeded" /\ k = KindCheckoutPaymentSucceeded) \/
  (t = "checkout.session.async_payment_failed" /\ k = KindCheckoutPaymentFailed) \/
  (t = "checkout.session.expired" /\ k = KindCheckoutExpired).
Proof.
  intros <-. unfold eventKind, eventKinds, KindUnknown. rewrite !lookup_insert, lookup_singleton.
  repeat case_decide; subst; simpl; tauto.
Qed.

Lemma reference_errors session err : localReference session = Err err ->
  isTerminal err = true /\ Is err ErrInvariantViolated = false.
Proof. unfold localReference. cbv zeta. case_match; [|done]. by intros [= <-]. Qed.

Lemma outcome_errors kind session err : financialOutcome kind session = Err err ->
  isTerminal err = true /\ Is err ErrInvariantViolated = false.
Proof. unfold financialOutcome. repeat case_match; try done; by intros [= <-]. Qed.

Lemma unreadable_terminal what text : isTerminal (unreadable what (ErrNew text)) = true /\
  Is (unreadable what (ErrNew text)) ErrInvariantViolated = false.
Proof. done. Qed.

(** Every refusal of an event. *)
Lemma Interpret_errors s event err : Session_Interpret s event = Err err ->
  isTerminal err = true /\ Is err ErrInvariantViolated = false.
Proof.
  unfold Session_Interpret. pose proof (envelope_fresh (Event_Payload event) zero_envelope) as F.
  destruct (Unmarshal _ _ _) as [envelope [e|]].
  { intros [= <-]. destruct (F e eq_refl) as [text ->]. apply unreadable_terminal. }
  clear F. unfold checkVersion. destruct (TrimSpace _ =s? ""); [by intros [= <-]|].
  case_bool_decide; simpl; [|by intros [= <-]].
  unfold unmarshal_session. destruct (json_Valid _); [|intros [= <-]; apply unreadable_terminal].
  destruct (decode_session _) as [text|session]; [intros [= <-]; apply unreadable_terminal|].
  destruct (_ && _); [by intros [= <-]|]. destruct (TrimSpace (CS_ID session) =s? ""); [by intros [= <-]|].
  destruct (financialOutcome _ session) eqn:E1; [|intros [= <-]; by eapply outcome_errors].
  destruct (localReference session) eqn:E2; [done|]. intros [= <-]. by eapply reference_errors.
Qed.

(** The metadata of a session, under the keys it is read with. *)
Lemma create_params_metadata c request session : CS_Metadata session = CP_Metadata (create_params c request) ->
  metadata session metadataOrderID = PR_OrderID request /\
  metadata session metadataPaymentID = PR_PaymentID request /\
  metadata session metadataAttemptID = PR_AttemptID request.
Proof.
  unfold metadata. intros ->. cbn [create_params CP_Metadata].
  rewrite !lookup_insert, !lookup_singleton. repeat case_decide; done.
Qed.

(** Identifiers the program generates have no blanks to trim. *)
Lemma generated_trim prefix l : Forall graphic (codes prefix) -> Forall is_byte l ->
  TrimSpace (prefix +:+ hex_encode l) = prefix +:+ hex_encode l.
Proof.
  intros Hp Hl. apply TrimSpace_graphic. rewrite codes_app. apply Forall_app. split; [done|].
  rewrite codes_hex_encode by done. by apply hex_codes_graphic.
Qed.

Lemma prefix_graphic : Forall (fun p => Forall graphic (codes p)) [IDPrefix; paymentIDPrefix; attemptIDPrefix].
Proof. repeat (apply Forall_cons; split; [repeat (apply Forall_cons; split; [unfold graphic; simpl; unfold code; simpl; lia|]); constructor|]). constructor. Qed.
End Lemmas.

(** ** A sample SDK *)

Definition sample_quote : GoQuote := fun s => "'" +:+ s +:+ "'".

Definition sample_session (status : string) : CheckoutSession :=
  mkCheckoutSession "cs_1" "checkout.session" "https://x/y" 90 (Some "pi_1") status 30000 "brl" "ord_1"
    {["order_id" := "ord_1"; "payment_id" := "pay_1"; "payment_attempt_id" := "pat_1"]}.

Definition sample_sdk (session : CheckoutSession) : StripeSDK := {|
  APIVersion := "2026-01-01";
  CheckoutSessionModePayment := "payment";
  PaymentMethodTypeCard := "card";
  PaymentMethodTypePix := "pix";
  PaymentStatusPaid := "paid";
  PaymentStatusNoPaymentRequired := "no_payment_required";
  PaymentStatusUnpaid := "unpaid";
  decode_session := fun d => if d =s? text "{'id': 'cs_1'}" then inr session else inl "unknown session";
  sdk_event := string;
  sdk_event_ID := fun _ => "evt_stripe_1";
  sdk_event_Type := fun e => e;
  sdk_event_Created := fun _ => 0;
  ConstructEvent := fun raw signature secret _ =>
    if signature =s? secret then Ok "checkout.session.completed" else Err (ErrNew "bad signature");
  marshal_event := fun _ => Ok "{}";
  DefaultTolerance := 300 * Second;
|}.

Definition sample_payload (version : string) : string :=
  text ("{'api_version': '" +:+ version +:+
        "', 'type': 'checkout.session.completed', 'data': {'object': {'id': 'cs_1'}}}").
Definition sample_stored (version : string) : Event :=
  InboxEntry_Event (entry_of_row (sample_event_with (sample_payload version))).

(** ** Properties *)

(** C3: an order is paid only by money Stripe reports. With the Stripe
    interpreter, if one message, under any faults, changes the row of an order,
    then the stored payload of its event decodes to a session of the supported
    API version whose local reference names this order and whose total is the
    amount of the order, and Stripe's event either is the asynchronous success
    or completes a session whose payment status is paid or needs no payment. *)
Theorem paid_order_was_paid_at_stripe `{UnicodeTables} `{JsonErrors} `{GoQuote} `{StripeSDK}
    (s : Consumer.Service) (id : string) (w : Store) (oid : string) :
  let handled := @handle _ stripe_interpreter _ _ s id w in
  store_stable w ->
  orders (st_db (answer_world handled)) !! oid <> orders (st_db w) !! oid ->
  exists row session ref o,
    webhook_events (st_db w) !! id = Some row /\ EventRow_Provider row = "stripe" /\
    reads NewSession (InboxEntry_Event (entry_of_row row)) session /\
    localReference session = Ok ref /\ orderID ref = oid /\
    orders (st_db w) !! oid = Some o /\ CS_AmountTotal session = OrderRow_Amount o /\
    (EventRow_EventType row = "checkout.session.async_payment_succeeded" \/
     EventRow_EventType row = "checkout.session.completed" /\
     (CS_PaymentStatus session = PaymentStatusPaid \/ CS_PaymentStatus session = PaymentStatusNoPaymentRequired)).
Proof.
  intros handled Hst Hne.
  destruct (@paid_by_success _ stripe_interpreter s id w oid Hst Hne)
    as (o & row & outcome & p & p' & Ho & _ & _ & Hrow & _ & Hp & Hi & Hs & Hoid & _ & _ & _ & Ha & Hpa & _).
  destruct (Interpret_Ok _ _ _ Hi) as (session & ref & Hr & Hf & Hl & Eo).
  exists row, session, ref, o. rewrite Hs in Hf. rewrite Eo in Hoid, Ha. simpl in Hoid, Ha.
  apply financialOutcome_succeeded in Hf.
  assert (event_kind (InboxEntry_Event (entry_of_row row)) = eventKind (EventRow_EventType row)) as K by done.
  rewrite K in Hf. split_and!; try done; [congruence|].
  unfold KindCheckoutCompleted, KindCheckoutPaymentSucceeded in Hf.
  destruct Hf as [Hk|[Hk Hpaid]]; apply eventKind_name in Hk as [[E ?]|[[E ?]|[[E ?]|[E ?]]]]; try done; auto.
Qed.

Lemma paid_order_was_paid_at_stripe_witness :
  exists row session,
    webhook_events (sample_db_with (sample_payload "2026-01-01")) !! "evt_1" = Some row /\
    @reads sample_unicode sample_errors (sample_sdk (sample_session "paid"))
      (@NewSession (sample_sdk (sample_session "paid"))) (InboxEntry_Event (entry_of_row row)) session /\
    CS_AmountTotal session = 30000.
Proof.
  destruct (@paid_order_was_paid_at_stripe sample_unicode sample_errors sample_quote
    (sample_sdk (sample_session "paid")) (Consumer.NewService (Consumer.mkConfig 10) []) "evt_1"
    (mkStore (sample_db_with (sample_payload "2026-01-01")) None []) "ord_1")
    as (row & session & ref & o & Hrow & _ & Hr & _ & _ & Ho & Ha & _).
  - split; [apply sample_schema_with | reflexivity].
  - intros E. apply (f_equal (fmap OrderRow_Status)) in E. vm_compute in E. discriminate E.
  - exists row, session. split; [exact Hrow|]. split; [exact Hr|]. rewrite Ha.
    vm_compute in Ho. injection Ho as <-. reflexivity.
Defined.

(** What Stripe hands back names what was sent. For identifiers the program
    generates, every event the adapter reads whose session still has the
    metadata of the session opened for a request is interpreted, when it is
    interpreted, as the order, the payment and the attempt of that request; and
    such a session is never refused for a missing reference. *)
Theorem checkout_reference_round_trip `{UnicodeTables} `{JsonErrors} `{GoQuote} `{StripeSDK}
    (c : Checkout) (request : ProviderRequest) (session : CheckoutSession) (lo lp la : list Z) :
  Forall is_byte lo -> Forall is_byte lp -> Forall is_byte la ->
  Orders.NewID (Ok lo) = Ok (PR_OrderID request) ->
  NewPaymentID (Ok lp) = Ok (PR_PaymentID request) ->
  NewAttemptID (Ok la) = Ok (PR_AttemptID request) ->
  CS_Metadata session = CP_Metadata (create_params c request) ->
  localReference session = Ok (mkReference (PR_OrderID request) (PR_PaymentID request) (PR_AttemptID request)) /\
  forall s event o, Session_Interpret s event = Ok o ->
    (forall session', reads s event session' -> session' = session) ->
    SessionOutcome_OrderID o = PR_OrderID request /\ SessionOutcome_PaymentID o = PR_PaymentID request /\
    SessionOutcome_AttemptID o = PR_AttemptID request.
Proof.
  intros Ho Hp Ha [= Eo] [= Ep] [= Ea] Hm.
  pose proof prefix_graphic as [Go [Gp [Ga _]%Forall_cons]%Forall_cons]%Forall_cons.
  assert (localReference session = Ok (mkReference (PR_OrderID request) (PR_PaymentID request) (PR_AttemptID request))) as L.
  { unfold localReference. destruct (create_params_metadata c request session Hm) as (-> & -> & ->).
    rewrite <- Eo, <- Ep, <- Ea, !generated_trim by done. reflexivity. }
  split; [exact L|]. intros s event o (session' & ref & Hr & _ & Hl & ->)%Interpret_Ok Hu.
  rewrite (Hu _ Hr), L in Hl. by injection Hl as <-.
Qed.

Lemma checkout_reference_round_trip_witness :
  let request := mkProviderRequest ("ord_" +:+ hex_encode (repeat 7 16)) ("pay_" +:+ hex_encode (repeat 8 16))
                   ("pat_" +:+ hex_encode (repeat 255 16)) "product_demo" 10000 3 "BRL" "key" in
  let session := mkCheckoutSession "cs_1" "" "" 0 None "paid" 30000 "brl" ""
                   (CP_Metadata (@create_params sample_unicode (sample_sdk (sample_session "paid"))
                                   (mkCheckoutAdapter "https://s" "https://c") request)) in
  localReference session =
    Ok (mkReference (PR_OrderID request) (PR_PaymentID request) (PR_AttemptID request)).
Proof.
  intros request session.
  apply (@checkout_reference_round_trip sample_unicode sample_errors sample_quote
    (sample_sdk (sample_session "paid")) (mkCheckoutAdapter "https://s" "https://c") request session
    (repeat 7 16) (repeat 8 16) (repeat 255 16));
    try reflexivity; repeat (constructor; [unfold is_byte; lia|]); constructor.
Defined.

(** What Stripe's adapter cannot read is final. Every event it refuses, of
    an unsupported version, malformed, of another object, without an
    identifier, without a reference or of a kind that moves no money, is refused
    with an error the consumer classifies as terminal, so it is dead-lettered
    at once and never retried, and never as a broken invariant. *)
Theorem refused_event_is_terminal `{UnicodeTables} `{JsonErrors} `{GoQuote} `{StripeSDK}
    (s : StoredSession) (event : Event) (err : error) :
  Session_Interpret s event = Err err -> isTerminal err = true /\ Is err ErrInvariantViolated = false.
Proof. apply Interpret_errors. Qed.

Lemma refused_event_is_terminal_witness :
  exists err, @Session_Interpret sample_unicode sample_errors sample_quote (sample_sdk (sample_session "paid"))
      (@NewSession (sample_sdk (sample_session "paid"))) (sample_stored "2019-01-01") = Err err /\
    isTerminal err = true.
Proof.
  destruct (@Session_Interpret sample_unicode sample_errors sample_quote (sample_sdk (sample_session "paid"))
    (@NewSession (sample_sdk (sample_session "paid"))) (sample_stored "2019-01-01")) as [o|err] eqn:E.
  - exfalso. vm_compute in E. discriminate E.
  - exists err. split; [reflexivity|]. exact (proj1 (refused_event_is_terminal _ _ _ E)).
Defined.

