(* ===== verification/Amqp.v ===== *)
(** * The broker connection: [internal/adapters/rabbitmq]

    [connection.go], [topology.go], [retry.go] and [inspect.go] over the AMQP
    driver, which is a parameter: [Driver] lists the calls the program makes,
    [DriverDocumented] what it relies on. The locks serialize the operations,
    so each is one step. *)

From S2P Require Import Prelude GoLib.

(** ** The driver *)

(** A receive that does not wait. *)
Inductive recv (A : Type) : Type := Received (a : A) | Closed | Empty.
Arguments Received {A} a.
Arguments Closed {A}.
Arguments Empty {A}.

(** A header value; the program only builds strings and integers. *)
Inductive TableValue : Type := TString (s : string) | TInt (z : Z) | TOther (n : nat).
Definition Table : Type := list (string * TableValue).

Record Return := mkReturn { Return_ReplyCode : Z; Return_ReplyText : string; Return_RoutingKey : string }.

Record Publishing := mkPublishing {
  Publishing_ContentType : string;
  Publishing_DeliveryMode : Z;
  Publishing_MessageId : string;
  Publishing_Type : string;
  Publishing_CorrelationId : string;
  Publishing_Timestamp : Time;
  Publishing_Headers : Table;
  Publishing_Body : string;
}.
Definition Persistent : Z := 2.

(** The sockets the driver is given. A call on a [net.Conn] sets the deadline
    or fails, as its schedule says. *)
Record socket := mkSocket { sock_read : Time; sock_write : Time; sock_faults : list (option error) }.

Definition next_fault (s : socket) : option error := match sock_faults s with f :: _ => f | [] => None end.
Definition Conn_SetReadDeadline (t : Time) : M socket unit := fun s =>
  match next_fault s with
  | Some err => (Err err, mkSocket (sock_read s) (sock_write s) (tail (sock_faults s)))
  | None => (Ok tt, mkSocket t (sock_write s) (tail (sock_faults s)))
  end.
Definition Conn_SetWriteDeadline (t : Time) : M socket unit := fun s =>
  match next_fault s with
  | Some err => (Err err, mkSocket (sock_read s) (sock_write s) (tail (sock_faults s)))
  | None => (Ok tt, mkSocket (sock_read s) t (tail (sock_faults s)))
  end.

(** [deadlineConn]: a socket that remembers what was asked of it. *)
Record deadlineConn := mkDeadlineConn {
  dc_Conn : socket;
  readDeadline : Time;
  writeDeadline : Time;
  operationDeadline : Time;
}.

(** A context: its deadline, if it has one. *)
Record Ctx := mkCtx { Ctx_Deadline : option Time }.

Class Driver (B : Type) : Type := {
  amqp_conn : Type;
  amqp_chan : Type;
  confirmation : Type;
  now : B -> Time;
  ctx_Err : Ctx -> B -> option error;
  DialContext : Ctx -> M B socket;
  (** The dialer given to [DialConfig] works on variables of type [S] and
      answers a reference to the socket it opened. *)
  DialConfig : forall S : Type, string -> string -> M (B * S) nat -> M (B * S) amqp_conn;
  Conn_IsClosed : amqp_conn -> B -> bool;
  Conn_Close : amqp_conn -> M B unit;
  Conn_Channel : amqp_conn -> M B amqp_chan;
  Chan_IsClosed : amqp_chan -> B -> bool;
  Chan_Close : amqp_chan -> M B unit;
  Confirm : amqp_chan -> M B unit;
  NotifyReturn : amqp_chan -> B -> B;
  recv_return : amqp_chan -> B -> recv Return * B;
  ExchangeDeclare : amqp_chan -> string -> string -> M B unit;
  QueueDeclare : amqp_chan -> string -> Table -> M B unit;
  QueueDeclarePassive : amqp_chan -> string -> M B Z;
  QueueBind : amqp_chan -> string -> string -> string -> M B unit;
  (** Exchange, routing key, mandatory, immediate. *)
  PublishDeferred : amqp_chan -> string -> string -> bool -> bool -> Publishing -> M B confirmation;
  WaitContext : confirmation -> M B bool;
  (** The prefetch count; the queue and the consumer's tag; the tag. *)
  Qos : amqp_chan -> Z -> M B unit;
  StartConsume : amqp_chan -> string -> string -> M B unit;
  Cancel : amqp_chan -> string -> M B unit;
  (** Delivery tag, multiple. *)
  Ack : Z -> bool -> M B unit;
}.
Arguments DialConfig {B _ S} _ _ _.

(** ** [connection.go]: deadlines *)

(** The zero [Time] is no deadline. *)
Definition earlier (first second : Time) : Time :=
  if IsZero first then second
  else if IsZero second || (first <? second) then first
  else second.

Definition newDeadlineConn (conn : socket) : deadlineConn := mkDeadlineConn conn 0 0 0.

(** A call on the embedded connection. *)
Definition on_conn (m : M socket unit) : M deadlineConn unit := fun c =>
  let '(r, s) := m (dc_Conn c) in
  (r, mkDeadlineConn s (readDeadline c) (writeDeadline c) (operationDeadline c)).
Definition assign (f : deadlineConn -> deadlineConn) : M deadlineConn unit := fun c => (Ok tt, f c).

Definition applyLocked : M deadlineConn unit := fun c =>
  (let! _ := on_conn (Conn_SetReadDeadline (earlier (readDeadline c) (operationDeadline c))) in
   on_conn (Conn_SetWriteDeadline (earlier (writeDeadline c) (operationDeadline c)))) c.

Definition SetDeadline (deadline : Time) : M deadlineConn unit :=
  let! _ := assign (fun c => mkDeadlineConn (dc_Conn c) deadline deadline (operationDeadline c)) in applyLocked.

Definition SetReadDeadline (deadline : Time) : M deadlineConn unit :=
  let! _ := assign (fun c => mkDeadlineConn (dc_Conn c) deadline (writeDeadline c) (operationDeadline c)) in
  fun c => on_conn (Conn_SetReadDeadline (earlier deadline (operationDeadline c))) c.

Definition SetWriteDeadline (deadline : Time) : M deadlineConn unit :=
  let! _ := assign (fun c => mkDeadlineConn (dc_Conn c) (readDeadline c) deadline (operationDeadline c)) in
  fun c => on_conn (Conn_SetWriteDeadline (earlier deadline (operationDeadline c))) c.

Definition limit (deadline : Time) : M deadlineConn unit :=
  let! _ := assign (fun c => mkDeadlineConn (dc_Conn c) (readDeadline c) (writeDeadline c) deadline) in applyLocked.

Definition clearLimit : M deadlineConn unit :=
  let! _ := assign (fun c => mkDeadlineConn (dc_Conn c) (readDeadline c) (writeDeadline c) 0) in applyLocked.

(** ** [connection.go]: the connection *)

Definition handshakeTimeout : Duration := 10 * Second.

Section Connection.
Context {B : Type} `{Driver B}.

(** [operationMu] and [mu] are the atomicity of the operations. The transport
    is a pointer the driver shares: it is an index in the heap of [Net]. *)
Record Connection := mkConnection {
  Connection_url : string;
  Connection_name : string;
  Connection_connection : option amqp_conn;
  Connection_transport : option nat;
}.

Record Net := mkNet { net_broker : B; net_heap : list deadlineConn; net_connection : Connection }.

Definition New (url connectionName : string) : Connection := mkConnection url connectionName None None.

(** A driver call, and an assignment to the connection. *)
Definition drive {A} (m : M B A) : M Net A := fun n =>
  let '(r, b) := m (net_broker n) in (r, mkNet b (net_heap n) (net_connection n)).
Definition set_connection (conn : option amqp_conn) (transport : option nat) (n : Net) : Net :=
  mkNet (net_broker n) (net_heap n)
    (mkConnection (Connection_url (net_connection n)) (Connection_name (net_connection n)) conn transport).
Definition on_transport (i : nat) (m : M deadlineConn unit) : M Net unit := fun n =>
  match net_heap n !! i with
  | None => (Ok tt, n)
  | Some t => let '(r, t) := m t in (r, mkNet (net_broker n) (<[i := t]> (net_heap n)) (net_connection n))
  end.

(** The dialer [dial] hands to the driver: the new transport is kept in the
    heap, and in the captured variable [transport] once it is bounded. *)
Definition dialer (ctx : Ctx) : M (B * (list deadlineConn * option nat)) nat := fun '(b, (heap, transport)) =>
  match DialContext ctx b with
  | (Err err, b) => (Err err, (b, (heap, transport)))
  | (Ok dialed, b) =>
      let deadline := default (now b + handshakeTimeout) (Ctx_Deadline ctx) in
      match SetDeadline deadline (newDeadlineConn dialed) with
      | (Err err, bounded) => (Err err, (b, (heap ++ [bounded], transport)))
      | (Ok _, bounded) => (Ok (length heap), (b, (heap ++ [bounded], Some (length heap))))
      end
  end.

Definition dial (ctx : Ctx) (url connectionName : string) : M Net (amqp_conn * nat) := fun n =>
  let '(dialed, (b, (heap, transport))) :=
    DialConfig url connectionName (dialer ctx) (net_broker n, (net_heap n, None)) in
  let n := mkNet b heap (net_connection n) in
  match dialed, transport with
  | Err err, _ => (Err (wrapf "dial rabbitmq" err), n)
  | Ok conn, None =>
      let '(_, n) := drive (Conn_Close conn) n in
      (Err (ErrNew "dial rabbitmq: transport was not initialized"), n)
  | Ok conn, Some transport => (Ok (conn, transport), n)
  end.

Definition alive (n : Net) : bool :=
  match Connection_connection (net_connection n) with
  | Some conn => negb (Conn_IsClosed conn (net_broker n))
  | None => false
  end.

Definition connect (ctx : Ctx) : M Net unit := fun n =>
  if alive n then (Ok tt, n)
  else match ctx_Err ctx (net_broker n) with
  | Some err => (Err err, n)
  | None =>
      match dial ctx (Connection_url (net_connection n)) (Connection_name (net_connection n)) n with
      | (Err err, n) => (Err err, n)
      | (Ok (conn, transport), n) => (Ok tt, set_connection (Some conn) (Some transport) n)
      end
  end.

Definition Connect (ctx : Ctx) : M Net unit := connect ctx.

(** [Open]: a new connection on the same broker, dialed at once. *)
Definition Open (ctx : Ctx) (url connectionName : string) : M Net unit := fun n =>
  Connect ctx (mkNet (net_broker n) (net_heap n) (New url connectionName)).

(** The function runs under the deadline of the context, which is then taken
    off the transport it was put on. *)
Definition withDeadline {St} (ctx : Ctx) (fn : M (Net * St) unit) : M (Net * St) unit := fun '(n, st) =>
  match Ctx_Deadline ctx with
  | None => (Err (ErrNew "rabbitmq operation requires a deadline"), (n, st))
  | Some deadline =>
  match connect ctx n with
  | (Err err, n) => (Err err, (n, st))
  | (Ok _, n) =>
  match Connection_transport (net_connection n) with
  | None => (Err (ErrNew "rabbitmq transport is unavailable"), (n, st))
  | Some transport =>
  match on_transport transport (limit deadline) n with
  | (Err err, n) => (Err (wrapf "set rabbitmq operation deadline" err), (n, st))
  | (Ok _, n) =>
      let '(r, (n, st)) := fn (n, st) in
      let '(cleared, n) := on_transport transport clearLimit n in
      (match r, cleared with
       | Ok _, Err clearErr => Err (wrapf "clear rabbitmq operation deadline" clearErr)
       | _, _ => r
       end, (n, st))
  end end end end.

(** The driver's own channel call: a dead connection is forgotten. *)
Definition channel (ctx : Ctx) : M Net amqp_chan := fun n =>
  match connect ctx n with
  | (Err err, n) => (Err err, n)
  | (Ok _, n) =>
  match Connection_connection (net_connection n) with
  | None => (Err (ErrNew "nil connection"), n)
  | Some conn =>
  match drive (Conn_Channel conn) n with
  | (Ok ch, n) => (Ok ch, n)
  | (Err err, n) =>
      (Err (wrapf "open channel" err),
       if Conn_IsClosed conn (net_broker n)
       then set_connection None (Connection_transport (net_connection n)) n else n)
  end end end.

(** A local variable beside the connection. *)
Definition store_var {St} (m : M Net St) : M (Net * option St) unit := fun '(n, st) =>
  match m n with
  | (Ok v, n) => (Ok tt, (n, Some v))
  | (Err err, n) => (Err err, (n, st))
  end.

Definition Channel (ctx : Ctx) : M Net (option amqp_chan) := fun n =>
  let '(r, (n, ch)) := withDeadline ctx (store_var (channel ctx)) (n, None) in
  (match r with Ok _ => Ok ch | Err err => Err err end, n).

(** [defer func() { _ = channel.Close() }()]. *)
Definition closing {St A} (ch : amqp_chan) (m : M (Net * St) A) : M (Net * St) A := fun w =>
  let '(r, (n, st)) := m w in
  let '(_, n) := drive (Chan_Close ch) n in (r, (n, st)).

Definition beside_var {St A} (m : M Net A) : M (Net * St) A := fun '(n, st) =>
  let '(r, n) := m n in (r, (n, st)).

Definition withChannel {St} (ctx : Ctx) (use : amqp_chan -> M (Net * St) unit) : M (Net * St) unit :=
  withDeadline ctx (let! ch := beside_var (channel ctx) in closing ch (use ch)).

Definition Ping (ctx : Ctx) (n : Net) : option error :=
  match ctx_Err ctx (net_broker n) with
  | Some err => Some err
  | None => if alive n then None else Some (ErrNew "rabbitmq connection is closed")
  end.

Definition Close : M Net unit := fun n =>
  match Connection_connection (net_connection n) with
  | Some conn => if Conn_IsClosed conn (net_broker n) then (Ok tt, n) else drive (Conn_Close conn) n
  | None => (Ok tt, n)
  end.

(** ** [inspect.go] *)

Fixpoint inspect_queues (ch : amqp_chan) (queues : list string) : M (Net * gmap string Z) unit :=
  match queues with
  | [] => gret tt
  | queue :: queues =>
      let! messages := beside_var (gwrap (wrapf ("inspect queue " +:+ queue)) (drive (QueueDeclarePassive ch queue))) in
      let! _ := (fun '(n, depths) => (Ok tt, (n, <[queue := messages]> depths))) in
      inspect_queues ch queues
  end.

Definition QueueDepths (ctx : Ctx) (queues : list string) : M Net (gmap string Z) := fun n =>
  let '(r, (n, depths)) := withChannel ctx (fun ch => inspect_queues ch queues) (n, ∅) in
  (match r with Ok _ => Ok depths | Err err => Err (wrapf "inspect queue depths" err) end, n).
End Connection.
Arguments Connection B {_}.
Arguments Net B {_}.

(** ** [topology.go] *)

Definition EventsExchange : string := "payments.events".
Definition WebhooksQueue : string := "payments.webhooks".
Definition WebhookBindingKey : string := "payment.webhook.#".
Definition DeadLetterExchange : string := "payments.webhooks.dlx".
Definition DeadLetterQueue : string := "payments.webhooks.dlq".
Definition deadLetterKey : string := "payments.webhooks.dead".

Definition ExchangeTopic : string := "topic".
Definition ExchangeFanout : string := "fanout".

Section Topology.
Context {B : Type} `{Driver B}.

Definition DeclareTopology (ch : amqp_chan) : M B unit :=
  let! _ := gwrap (wrapf "declare events exchange") (ExchangeDeclare ch EventsExchange ExchangeTopic) in
  let! _ := gwrap (wrapf "declare dead letter exchange") (ExchangeDeclare ch DeadLetterExchange ExchangeTopic) in
  let! _ := gwrap (wrapf "declare dead letter queue") (QueueDeclare ch DeadLetterQueue []) in
  let! _ := gwrap (wrapf "bind dead letter queue") (QueueBind ch DeadLetterQueue "#" DeadLetterExchange) in
  let! _ := gwrap (wrapf "declare webhooks queue")
    (QueueDeclare ch WebhooksQueue
       [("x-dead-letter-exchange", TString DeadLetterExchange);
        ("x-dead-letter-routing-key", TString deadLetterKey)]) in
  gwrap (wrapf "bind webhooks queue") (QueueBind ch WebhooksQueue WebhookBindingKey EventsExchange).
End Topology.

(** ** [retry.go] *)

Definition RetryExchangePrefix : string := "payments.webhooks.retry.".

Record RetryTier := mkRetryTier { RetryTier_Delay : Duration }.

(** [strings.ReplaceAll(s, "µ", "u")]. *)
Fixpoint replace_micro (l : list Z) : list Z :=
  match l with
  | 194 :: 181 :: t => 117 :: replace_micro t
  | c :: t => c :: replace_micro t
  | [] => []
  end.

Definition Name (t : RetryTier) : string := of_codes (replace_micro (Duration_codes (RetryTier_Delay t))).
Definition Exchange (t : RetryTier) : string := RetryExchangePrefix +:+ Name t.
Definition Queue (t : RetryTier) : string := RetryExchangePrefix +:+ Name t.

(** [Duration.Milliseconds], which truncates. *)
Definition Milliseconds (d : Duration) : Z := Z.quot d Millisecond.

Section RetryTopology.
Context {B : Type} `{Driver B}.

Fixpoint DeclareRetryTopology (ch : amqp_chan) (tiers : list RetryTier) : M B unit :=
  match tiers with
  | [] => gret tt
  | tier :: tiers =>
      if RetryTier_Delay tier <=? 0
      then gfail (ErrNew ("retry tier must have a positive delay, got " +:+
                          of_codes (Duration_codes (RetryTier_Delay tier))))
      else
      let exchange := Exchange tier in
      let queue := Queue tier in
      let! _ := gwrap (wrapf ("declare retry exchange " +:+ exchange)) (ExchangeDeclare ch exchange ExchangeFanout) in
      let! _ := gwrap (wrapf ("declare retry queue " +:+ queue))
        (QueueDeclare ch queue
           [("x-queue-type", TString "quorum");
            ("x-message-ttl", TInt (Milliseconds (RetryTier_Delay tier)));
            ("x-dead-letter-exchange", TString EventsExchange);
            ("x-dead-letter-strategy", TString "at-least-once");
            ("x-overflow", TString "reject-publish")]) in
      let! _ := gwrap (wrapf ("bind retry queue " +:+ queue)) (QueueBind ch queue "" exchange) in
      DeclareRetryTopology ch tiers
  end.
End RetryTopology.

Definition TierFor (tiers : list RetryTier) (attempts : Z) : option RetryTier :=
  match tiers with
  | [] => None
  | _ :: _ =>
      let index := wrap64 (attempts - 1) in
      let index := if index <? 0 then 0 else index in
      let index := if Z.of_nat (length tiers) <=? index then Z.of_nat (length tiers) - 1 else index in
      tiers !! Z.to_nat index
  end.

(** ** What the program relies on

    [taken b exchange key p]: the broker has taken responsibility for a copy of
    [p] published there, and routed it to a queue. [acked b tag]: it has been
    told that the delivery [tag] is done with. [confirming], [drained]: a
    channel is in confirm mode; its return listener holds nothing. *)
Class Observed (B : Type) `{Driver B} : Type := {
  taken : B -> string -> string -> Publishing -> Prop;
  acked : B -> Z -> Prop;
  confirming : B -> amqp_chan -> Prop;
  drained : B -> amqp_chan -> Prop;
  pending : B -> amqp_chan -> nat;
}.

(** Worlds that contain a broker. *)
Class HasBroker (B W : Type) : Type := broker_of : W -> B.
#[export] Instance broker_itself {B} : HasBroker B B := fun b => b.
#[export] Instance broker_dialing {B S} : HasBroker B (B * S) := fst.
#[export] Instance broker_net {B} `{Driver B} : HasBroker B (Net B) := net_broker.
#[export] Instance broker_beside {B St} `{Driver B} : HasBroker B (Net B * St) := fun w => net_broker w.1.

Section Calm.
Context {B : Type} `{Observed B}.

(** Nothing is acknowledged and nothing taken is given back. *)
Record calm (b b' : B) : Prop := {
  calm_taken : forall e k p, taken b e k p -> taken b' e k p;
  calm_acked : forall t, acked b' t -> acked b t;
  calm_confirming : forall ch, confirming b ch -> confirming b' ch;
}.

#[export] Instance calm_preorder : PreOrder calm.
Proof. split; [by split | intros ? ? ? [] []; split; auto]. Qed.

Definition quiet {W A} `{HasBroker B W} (m : M W A) : Prop :=
  forall w r w', m w = (r, w') -> calm (broker_of w) (broker_of w').
End Calm.

Class DriverDocumented (B : Type) `{Observed B} : Prop := {
  DialContext_quiet ctx : quiet (DialContext ctx);
  DialConfig_quiet S url name (dialer : M (B * S) nat) : quiet dialer -> quiet (DialConfig url name dialer);
  Conn_Close_quiet conn : quiet (Conn_Close conn);
  Conn_Channel_quiet conn : quiet (Conn_Channel conn);
  Chan_Close_quiet ch : quiet (Chan_Close ch);
  Confirm_quiet ch : quiet (Confirm ch);
  NotifyReturn_calm ch b : calm b (NotifyReturn ch b);
  recv_calm ch b r b' : recv_return ch b = (r, b') -> calm b b';
  ExchangeDeclare_quiet ch name kind : quiet (ExchangeDeclare ch name kind);
  QueueDeclare_quiet ch name args : quiet (QueueDeclare ch name args);
  QueueDeclarePassive_quiet ch name : quiet (QueueDeclarePassive ch name);
  QueueBind_quiet ch name key exchange : quiet (QueueBind ch name key exchange);
  Qos_quiet ch count : quiet (Qos ch count);
  StartConsume_quiet ch queue tag : quiet (StartConsume ch queue tag);
  Cancel_quiet ch tag : quiet (Cancel ch tag);
  PublishDeferred_quiet ch e k mandatory immediate p : quiet (PublishDeferred ch e k mandatory immediate p);
  WaitContext_quiet c : quiet (WaitContext c);
  (** An acknowledgement settles its delivery and no other. *)
  Ack_only tag b r b' : Ack tag false b = (r, b') ->
    (forall e k p, taken b e k p -> taken b' e k p) /\ (forall t, acked b' t -> acked b t \/ t = tag) /\
    (forall ch, confirming b ch -> confirming b' ch);
  Confirm_on ch b b' : Confirm ch b = (Ok tt, b') -> confirming b' ch;
  NotifyReturn_drained ch b : drained (NotifyReturn ch b) ch;
  recv_drained ch b b' : recv_return ch b = (Empty, b') -> drained b' ch;
  (** A closed Go channel stays closed. *)
  recv_closed ch b b' : recv_return ch b = (Closed, b') -> recv_return ch b' = (Closed, b');
  (** The listener has room for one return. *)
  recv_pending ch b r b' : recv_return ch b = (Received r, b') -> (pending b' ch < pending b ch)%nat;
  pending_one ch b : (pending b ch <= 1)%nat;
  (** In confirm mode, a mandatory message that is confirmed was routed unless
      it was returned first. *)
  confirmed_routed ch e k p c b1 b2 b3 r b4 :
    confirming b1 ch -> drained b1 ch ->
    PublishDeferred ch e k true false p b1 = (Ok c, b2) -> WaitContext c b2 = (Ok true, b3) ->
    recv_return ch b3 = (r, b4) -> (forall x, r <> Received x) -> taken b4 e k p;
}.

(** ** Lemmas *)

Section Quiet.
Context {B : Type} `{Observed B}.

Lemma quiet_ret {W A} `{HasBroker B W} (a : A) : quiet (gret (W:=W) a).
Proof. intros w r w' [= <- <-]. reflexivity. Qed.

Lemma quiet_fail {W A} `{HasBroker B W} err : quiet (gfail (W:=W) (A:=A) err).
Proof. intros w r w' [= <- <-]. reflexivity. Qed.

Lemma quiet_bind {W A C} `{HasBroker B W} (m : M W A) (k : A -> M W C) :
  quiet m -> (forall a, quiet (k a)) -> quiet (gbind m k).
Proof.
  intros Hm Hk w r w'. unfold gbind. destruct (m w) as [[a|e] w1] eqn:E.
  - intros E2. etrans; [by eapply Hm | by eapply Hk].
  - intros [= <- <-]. by eapply Hm.
Qed.

Lemma quiet_wrap {W A} `{HasBroker B W} f (m : M W A) : quiet m -> quiet (gwrap f m).
Proof. intros Hm w r w'. unfold gwrap. destruct (m w) eqn:E. intros [= <- <-]. by eapply Hm. Qed.

Lemma quiet_lift {W A} `{HasBroker B W} (r : res A) : quiet (glift (W:=W) r).
Proof. intros w r' w' [= <- <-]. reflexivity. Qed.

Lemma quiet_drive {A} (m : M B A) : quiet m -> quiet (W:=Net B) (drive m).
Proof. intros Hm n r n'. unfold drive. destruct (m (net_broker n)) eqn:E. intros [= <- <-]. by eapply (Hm _ _ _ E). Qed.

Lemma quiet_beside {St A} (m : M (Net B) A) : quiet m -> quiet (W:=Net B * St) (beside_var m).
Proof. intros Hm [n st] r [n' st']. unfold beside_var. destruct (m n) eqn:E. intros [= <- <- <-]. by eapply (Hm _ _ _ E). Qed.

Lemma quiet_transport i m : quiet (on_transport i m).
Proof.
  intros n r n'. unfold on_transport. destruct (net_heap n !! i); [|intros [= <- <-]; reflexivity].
  destruct (m d). intros [= <- <-]. reflexivity.
Qed.
End Quiet.

Create HintDb quiet.
#[export] Hint Resolve quiet_ret quiet_fail quiet_bind quiet_wrap quiet_lift quiet_drive quiet_beside quiet_transport : quiet.
#[export] Hint Resolve DialContext_quiet DialConfig_quiet Conn_Close_quiet Conn_Channel_quiet Chan_Close_quiet
  Confirm_quiet ExchangeDeclare_quiet QueueDeclare_quiet QueueDeclarePassive_quiet QueueBind_quiet
  PublishDeferred_quiet WaitContext_quiet Qos_quiet StartConsume_quiet Cancel_quiet : quiet.

Section ConnectionQuiet.
Context {B : Type} `{DriverDocumented B}.

Lemma quiet_dialer ctx : quiet (W:=B * (list deadlineConn * option nat)) (dialer ctx).
Proof.
  intros [b [heap tr]] r [b' st']. unfold dialer. destruct (DialContext ctx b) as [[d|e] b1] eqn:E;
    apply DialContext_quiet in E; [destruct (SetDeadline _ _) as [[|] ?]|]; by intros [= <- <- <-].
Qed.

Lemma quiet_dial ctx url name : quiet (dial ctx url name).
Proof.
  intros n r n'. unfold dial.
  destruct (DialConfig url name (dialer ctx) _) as [out [b [heap tr]]] eqn:E.
  apply (DialConfig_quiet _ _ _ _ (quiet_dialer ctx)) in E. unfold broker_of, broker_dialing in E. simpl in E.
  destruct out as [conn|e]; [destruct tr|]; try by intros [= <- <-].
  destruct (drive (Conn_Close conn) _) as [r' n1] eqn:E2. apply (quiet_drive _ (Conn_Close_quiet conn)) in E2.
  intros [= <- <-]. by etrans.
Qed.

Lemma quiet_connect ctx : quiet (connect ctx).
Proof.
  intros n r n'. unfold connect. destruct (alive n); [intros [= <- <-]; reflexivity|].
  destruct (ctx_Err _ _); [intros [= <- <-]; reflexivity|].
  destruct (dial _ _ _ n) as [[[conn tr]|e] n1] eqn:E; apply quiet_dial in E; by intros [= <- <-].
Qed.

Lemma quiet_withDeadline {St} ctx (fn : M (Net B * St) unit) : quiet fn -> quiet (withDeadline ctx fn).
Proof.
  intros Hfn [n st] r [n' st']. unfold withDeadline.
  destruct (Ctx_Deadline ctx); [|intros [= <- <- <-]; reflexivity].
  destruct (connect ctx n) as [[[]|e] n1] eqn:E1; apply quiet_connect in E1; [|by intros [= <- <- <-]].
  destruct (Connection_transport _); [|by intros [= <- <- <-]].
  destruct (on_transport _ (limit _) n1) as [[[]|e] n2] eqn:E2; apply quiet_transport in E2;
    [|intros [= <- <- <-]; by etrans].
  destruct (fn (n2, st)) as [out [n3 st3]] eqn:E3. apply Hfn in E3.
  destruct (on_transport _ clearLimit n3) as [cl n4] eqn:E4. apply quiet_transport in E4.
  intros E5. apply (f_equal (fun x => x.2)) in E5. simpl in E5. injection E5 as <- <-.
  etrans; [exact E1|]. etrans; [exact E2|]. etrans; [exact E3 | exact E4].
Qed.

Lemma quiet_channel ctx : quiet (channel ctx).
Proof.
  intros n r n'. unfold channel.
  destruct (connect ctx n) as [[[]|e] n1] eqn:E1; apply quiet_connect in E1; [|by intros [= <- <-]].
  destruct (Connection_connection _) as [conn|]; [|by intros [= <- <-]].
  destruct (drive (Conn_Channel conn) n1) as [out n2] eqn:E2.
  apply (quiet_drive _ (Conn_Channel_quiet conn)) in E2.
  assert (calm (broker_of n) (broker_of n2)) by (by etrans).
  destruct out; [by intros [= <- <-]|]. destruct (Conn_IsClosed _ _); by intros [= <- <-].
Qed.

Lemma quiet_closing {St A} ch (m : M (Net B * St) A) : quiet m -> quiet (closing ch m).
Proof.
  intros Hm w r [n' st']. unfold closing. destruct (m w) as [out [n1 st1]] eqn:E1. apply Hm in E1.
  destruct (drive (Chan_Close ch) n1) as [r2 n2] eqn:E2. apply (quiet_drive _ (Chan_Close_quiet ch)) in E2.
  intros [= <- <- <-]. by etrans.
Qed.

Lemma quiet_topology ch : quiet (DeclareTopology ch).
Proof. unfold DeclareTopology. eauto 20 with quiet. Qed.

Lemma quiet_retry_topology ch tiers : quiet (DeclareRetryTopology ch tiers).
Proof.
  induction tiers as [|tier tiers IH]; [apply quiet_ret|]. cbn [DeclareRetryTopology].
  destruct (_ <=? 0); [apply quiet_fail|]. eauto 20 with quiet.
Qed.
End ConnectionQuiet.
#[export] Hint Resolve quiet_withDeadline quiet_channel quiet_closing quiet_topology quiet_retry_topology : quiet.
