(* ===== verification/Delivery.v ===== *)
(** * Publishing and consuming: [internal/adapters/rabbitmq]

    [publisher.go]: one outbox message to the broker and its confirm.
    [consumer.go]: one delivery, from its body to its acknowledgement, and the
    reconnect loop. Both act on a [Net] of [Amqp], the consumer beside the
    world of the handler it drives. *)

From S2P Require Import Prelude GoLib Json JsonText Errsanitize Webhooks Consumer Outbox Amqp.

(** ** [publisher.go] *)

Definition PublishTimeout : Duration := 5 * Second.

(** [context.WithTimeout]: never later than the parent's deadline. *)
Definition WithTimeout {B} `{Driver B} (ctx : Ctx) (timeout : Duration) (b : B) : Ctx :=
  let deadline := now b + timeout in
  mkCtx (Some match Ctx_Deadline ctx with Some parent => Z.min parent deadline | None => deadline end).

(** The encoding of a [messageBody], field by field. *)
Definition messageBody (m : Message) (occurredAt : list Z) : list (string * list Z) :=
  [("messageId", quote_json (Message_ID m));
   ("type", quote_json (Message_Kind m));
   ("schemaVersion", codes (pretty (Message_SchemaVersion m)));
   ("occurredAt", occurredAt);
   ("correlationId", quote_json (Message_CorrelationID m));
   ("webhookEventId", quote_json (Message_EventID m))].

Definition encode_message (m : Message) : res string :=
  match MarshalTime (UTC (Message_OccurredAt m)) with
  | None => Err (ErrNew ("json: error calling MarshalJSON for type time.Time: " +:+
                         "Time.MarshalJSON: year outside of range [0,9999]"))
  | Some occurredAt => Ok (of_codes (encode_object (quoted_keys (messageBody m occurredAt))))
  end.

Record PublisherHooks := mkPublisherHooks {
  Hook_Publish : option (Message -> option error);
  Hook_AfterPublishConfirmed : option (Message -> option error);
}.
Definition run_hook {A} (hook : option (A -> option error)) (a : A) : res unit :=
  match hook with
  | Some f => match f a with Some err => Err err | None => Ok tt end
  | None => Ok tt
  end.

Section Publisher.
Context {B : Type} `{Driver B}.

(** [returns] is the listener of a channel; [None] is the nil channel.
    [spinning] is set when a loop ran out of fuel. *)
Record Publisher := mkPublisher {
  Publisher_testHooks : PublisherHooks;
  Publisher_channel : option amqp_chan;
  Publisher_returns : option amqp_chan;
  Publisher_spinning : bool;
}.
Definition NewPublisher : Publisher := mkPublisher (mkPublisherHooks None None) None None false.
Definition WithTestHooks (hooks : PublisherHooks) (p : Publisher) : Publisher :=
  mkPublisher hooks (Publisher_channel p) (Publisher_returns p) (Publisher_spinning p).

Definition PubWorld : Type := Net B * Publisher.
Definition update (f : Publisher -> Publisher) : M PubWorld unit := fun '(n, p) => (Ok tt, (n, f p)).

(** [if err := m; err != nil { cleanup; return wrap(err) }]. *)
Definition or_else {W A} (m : M W A) (cleanup : M W unit) : M W A := fun w =>
  match m w with
  | (Err err, w) => let '(_, w) := cleanup w in (Err err, w)
  | answer => answer
  end.

Definition ensureChannel (ctx : Ctx) : M PubWorld amqp_chan := fun w =>
  let '(n, p) := w in
  let fresh :=
    let! ch := beside_var (channel ctx) in
    let close := beside_var (drive (Chan_Close ch)) in
    let! _ := or_else (gwrap (wrapf "enable publisher confirms") (beside_var (drive (Confirm ch)))) close in
    let! _ := or_else (beside_var (drive (DeclareTopology ch))) close in
    let! _ := beside_var (fun n => (Ok tt, mkNet (NotifyReturn ch (net_broker n)) (net_heap n) (net_connection n))) in
    let! _ := update (fun p => mkPublisher (Publisher_testHooks p) (Some ch) (Some ch) (Publisher_spinning p)) in
    gret ch in
  match Publisher_channel p with
  | Some ch => if Chan_IsClosed ch (net_broker n) then fresh w else (Ok ch, w)
  | None => fresh w
  end.

(** A receive that does not wait; nothing comes from a nil channel. *)
Definition receive_return (p : Publisher) (n : Net B) : recv Return * Net B :=
  match Publisher_returns p with
  | None => (Empty, n)
  | Some ch => let '(r, b) := recv_return ch (net_broker n) in (r, mkNet b (net_heap n) (net_connection n))
  end.

(** The loop of [drainReturns], which only leaves when nothing is there. *)
Fixpoint drainReturns (fuel : nat) (p : Publisher) (n : Net B) : option (Net B) :=
  match fuel with
  | O => None
  | S fuel =>
      match receive_return p n with
      | (Empty, n) => Some n
      | (_, n) => drainReturns fuel p n
      end
  end.

Definition drain (fuel : nat) : M PubWorld unit := fun '(n, p) =>
  match drainReturns fuel p n with
  | Some n => (Ok tt, (n, p))
  | None => (Err (ErrNew "spinning"),
             (n, mkPublisher (Publisher_testHooks p) (Publisher_channel p) (Publisher_returns p) true))
  end.

Definition takeReturn : M PubWorld (option Return) := fun '(n, p) =>
  let '(r, n) := receive_return p n in
  (Ok (match r with Received returned => Some returned | _ => None end), (n, p)).

Definition discardChannel : M PubWorld unit := fun w =>
  let '(_, w) := match Publisher_channel w.2 with
                 | Some ch => beside_var (drive (Chan_Close ch)) w
                 | None => (Ok tt, w)
                 end in
  update (fun p => mkPublisher (Publisher_testHooks p) None None (Publisher_spinning p)) w.

Definition publishing (m : Message) (body : string) : Publishing :=
  mkPublishing "application/json" Persistent (Message_ID m) (Message_Kind m) (Message_CorrelationID m)
    (UTC (Message_OccurredAt m)) [] body.

(** [fmt.Errorf("%w: %s (%d %s)", ErrNotRouted, ...)]. *)
Definition not_routed (returned : Return) : error :=
  errorf ErrNotRouted (Return_RoutingKey returned +:+ " (" +:+ pretty (Return_ReplyCode returned) +:+ " " +:+
                       Return_ReplyText returned +:+ ")").

(** The body of the function [Publish] runs under its deadline. *)
Definition publish_attempt (fuel : nat) (ctx : Ctx) (m : Message) (body : string) : M PubWorld unit :=
  let! ch := ensureChannel ctx in
  let! _ := drain fuel in
  let! c := or_else (gwrap (wrapf "publish outbox message")
              (beside_var (drive (PublishDeferred ch EventsExchange (Message_RoutingKey m) true false (publishing m body)))))
              discardChannel in
  let! acked := or_else (gwrap (fun err => ErrWrap2 "" ErrNotConfirmed ": " err "") (beside_var (drive (WaitContext c))))
                  discardChannel in
  if negb acked then gfail ErrNotConfirmed
  else
  let! returned := takeReturn in
  match returned with
  | Some returned => gfail (not_routed returned)
  | None => fun w => (run_hook (Hook_AfterPublishConfirmed (Publisher_testHooks w.2)) m, w)
  end.

Definition Publish (fuel : nat) (ctx : Ctx) (m : Message) : M PubWorld unit := fun w =>
  match Hook_Publish (Publisher_testHooks w.2) with
  | Some hook =>
      (match hook m with
       | Some err => Err err
       | None => run_hook (Hook_AfterPublishConfirmed (Publisher_testHooks w.2)) m
       end, w)
  | None =>
      match encode_message m with
      | Err err => (Err (Permanent (wrapf "encode outbox message" err)), w)
      | Ok body =>
          let attemptCtx := WithTimeout ctx PublishTimeout (net_broker w.1) in
          withDeadline attemptCtx (publish_attempt fuel attemptCtx m body) w
      end
  end.

Definition Warm (ctx : Ctx) : M PubWorld unit := fun w =>
  let warmCtx := WithTimeout ctx PublishTimeout (net_broker w.1) in
  withDeadline warmCtx (let! _ := ensureChannel warmCtx in gret tt) w.

Definition Publisher_Close : M PubWorld unit := fun w =>
  match Publisher_channel w.2 with
  | Some ch => if Chan_IsClosed ch (net_broker w.1) then (Ok tt, w) else beside_var (drive (Chan_Close ch)) w
  | None => (Ok tt, w)
  end.
End Publisher.

(** ** [consumer.go] *)

Definition republishTimeout : Duration := 5 * Second.

Record Delivery := mkDelivery {
  DeliveryTag : Z;
  Redelivered : bool;
  Delivery_MessageId : string;
  Delivery_RoutingKey : string;
  Delivery_ContentType : string;
  Delivery_Type : string;
  Delivery_CorrelationId : string;
  Delivery_Timestamp : Time;
  Delivery_Headers : Table;
  Delivery_Body : string;
}.

Class Handler (St : Type) : Type := HandleMessage : string -> M St Handling.

Record ConsumerConfig := mkConsumerConfig {
  Prefetch : Z;
  Concurrency : Z;
  RetryTiers : list RetryTier;
}.

Record Observer := mkObserver { Observer_Name : string; Observer_Extended : bool }.

(** What observers are told, [Redelivered] only when they extend
    [DeliveryObserver]. *)
Inductive Notification : Type :=
| Rejected (messageID : string) (cause : error)
| Republished (messageID destination : string) (attempts : Z)
| Failed (messageID : string) (cause : error)
| RedeliveredTo (messageID : string).

Record ConsumerHooks := mkConsumerHooks {
  Hook_Republish : option (string * Delivery -> option error);
  Hook_AfterRepublishConfirmed : option (string * Delivery -> option error);
  Hook_BeforeAck : option (Delivery -> option error);
}.

Record Consumer := mkConsumer {
  Consumer_observers : list Observer;
  Consumer_config : ConsumerConfig;
  Consumer_testHooks : ConsumerHooks;
}.

Definition NewConsumer (config : ConsumerConfig) : Consumer :=
  let concurrency := if Concurrency config <? 1 then 1 else Concurrency config in
  let prefetch := if Prefetch config <? concurrency then concurrency else Prefetch config in
  mkConsumer [] (mkConsumerConfig prefetch concurrency (RetryTiers config)) (mkConsumerHooks None None None).

Definition WithObserver (observer : option Observer) (c : Consumer) : Consumer :=
  match observer with
  | Some o => mkConsumer (Consumer_observers c ++ [o]) (Consumer_config c) (Consumer_testHooks c)
  | None => c
  end.
Definition Consumer_WithTestHooks (hooks : ConsumerHooks) (c : Consumer) : Consumer :=
  mkConsumer (Consumer_observers c) (Consumer_config c) hooks.

(** The message the consumer reads: a reference to the inbox. *)
Section Body.
Context `{UnicodeTables} `{JsonErrors}.

Definition messageBodyRef : fields string := [("webhookEventId", store_string (fun v _ => v))].

Definition webhookEventID (body : string) : res string :=
  match Unmarshal messageBodyRef body "" with
  | (_, Some err) => Err (wrapf "decode message body" err)
  | (parsed, None) =>
      if parsed =s? "" then Err (ErrNew "message carries no webhook event reference") else Ok parsed
  end.
End Body.

Section Handling.
Context `{UnicodeTables} `{JsonErrors} {B : Type} `{Driver B} {St : Type} `{Handler St}.

(** The broker, seen through the publishing connection; the handler's world;
    what observers were told. *)
Definition Log : Type := list (string * Notification).
Definition Deliveries : Type := Net B * (St * Log).

Definition notify (observers : list Observer) (note : Notification) : M Deliveries unit :=
  fun '(n, (st, log)) => (Ok tt, (n, (st, log ++ ((fun o => (Observer_Name o, note)) <$> observers)))).

Definition ack (c : Consumer) (d : Delivery) : M Deliveries unit :=
  let! _ := glift (run_hook (Hook_BeforeAck (Consumer_testHooks c)) d) in
  gwrap (wrapf "acknowledge message") (beside_var (drive (Ack (DeliveryTag d) false))).

Definition copy_of (d : Delivery) : Publishing :=
  mkPublishing (Delivery_ContentType d) Persistent (Delivery_MessageId d) (Delivery_Type d)
    (Delivery_CorrelationId d) (Delivery_Timestamp d) (Delivery_Headers d) (Delivery_Body d).

(** From the confirming channel to the routed copy. *)
Definition republish_on (c : Consumer) (exchange : string) (d : Delivery) (ch : amqp_chan) : M Deliveries unit :=
  let! _ := gwrap (wrapf "enable republish confirms") (beside_var (drive (Confirm ch))) in
  let! _ := beside_var (fun n => (Ok tt, mkNet (NotifyReturn ch (net_broker n)) (net_heap n) (net_connection n))) in
  let! confirmation := gwrap (wrapf "republish message")
    (beside_var (drive (PublishDeferred ch exchange (Delivery_RoutingKey d) true false (copy_of d)))) in
  let! acked := gwrap (wrapf "await republish confirm") (beside_var (drive (WaitContext confirmation))) in
  if negb acked then gfail (ErrNew "broker refused the republished message")
  else
  let! returned := beside_var (drive (fun b => let '(r, b) := recv_return ch b in (Ok r, b))) in
  let unrouted (r : Return) :=
    gfail (ErrNew ("republished message was not routed: " +:+ Return_RoutingKey r +:+ " (" +:+
                   pretty (Return_ReplyCode r) +:+ " " +:+ Return_ReplyText r +:+ ")")) in
  match returned with
  | Received r => unrouted r
  | Closed => unrouted (mkReturn 0 "" "")
  | Empty => glift (run_hook (Hook_AfterRepublishConfirmed (Consumer_testHooks c)) (exchange, d))
  end.

Definition republish (c : Consumer) (ctx : Ctx) (exchange : string) (d : Delivery) : M Deliveries unit := fun w =>
  match Hook_Republish (Consumer_testHooks c) with
  | Some hook =>
      (match hook (exchange, d) with
       | Some err => Err err
       | None => run_hook (Hook_AfterRepublishConfirmed (Consumer_testHooks c)) (exchange, d)
       end, w)
  | None =>
      let publishCtx := WithTimeout ctx republishTimeout (net_broker w.1) in
      withDeadline publishCtx
        (let! ch := beside_var (channel publishCtx) in closing ch (republish_on c exchange d ch)) w
  end.

Definition republishToDeadLetter (c : Consumer) (ctx : Ctx) (d : Delivery) (handling : Handling) : M Deliveries unit :=
  let! _ := gwrap (wrapf "republish to dead letter") (republish c ctx DeadLetterExchange d) in
  let! _ := notify (Consumer_observers c) (Republished (Delivery_MessageId d) DeadLetterQueue (Handling_Attempts handling)) in
  ack c d.

Definition republishForRetry (c : Consumer) (ctx : Ctx) (d : Delivery) (handling : Handling) : M Deliveries unit :=
  match TierFor (RetryTiers (Consumer_config c)) (Handling_Attempts handling) with
  | None => republishToDeadLetter c ctx d handling
  | Some tier =>
      let! _ := gwrap (wrapf "republish for retry") (republish c ctx (Exchange tier) d) in
      let! _ := notify (Consumer_observers c) (Republished (Delivery_MessageId d) (Queue tier) (Handling_Attempts handling)) in
      ack c d
  end.

Definition failed (c : Consumer) (messageID : string) (cause : error) : M Deliveries unit :=
  let! _ := notify (Consumer_observers c) (Failed messageID cause) in gfail cause.

(** [if err := m; err != nil { return c.failed(id, wrap(err)) }]. *)
Definition failing (c : Consumer) (messageID : string) (m : M Deliveries unit) : M Deliveries unit := fun w =>
  match m w with
  | (Err err, w) => failed c messageID err w
  | answer => answer
  end.

Definition on_handler {A} (m : M St A) : M Deliveries A := fun '(n, (st, log)) =>
  let '(r, st) := m st in (r, (n, (st, log))).

(** The dispositions are all of them, so the switch has no default. *)
Definition settle_delivery (c : Consumer) (ctx : Ctx) (d : Delivery) (handling : Handling) : M Deliveries unit :=
  match Handling_Disposition handling with
  | DispositionDone => ack c d
  | DispositionRetry => republishForRetry c ctx d handling
  | DispositionDead => republishToDeadLetter c ctx d handling
  end.

Definition Consumer_handle (c : Consumer) (ctx : Ctx) (d : Delivery) : M Deliveries unit :=
  let! _ := if Redelivered d
            then notify (List.filter Observer_Extended (Consumer_observers c)) (RedeliveredTo (Delivery_MessageId d))
            else gret tt in
  match webhookEventID (Delivery_Body d) with
  | Err err =>
      let! _ := notify (Consumer_observers c) (Rejected (Delivery_MessageId d) err) in
      failing c (Delivery_MessageId d)
        (gwrap (wrapf "dead-letter unreadable message")
           (republishToDeadLetter c ctx d (mkHandling DispositionDead 0 (Some err) "" false)))
  | Ok eventID => fun w =>
      match on_handler (HandleMessage eventID) w with
      | (Err err, w) => failed c (Delivery_MessageId d) err w
      | (Ok handling, w) => failing c (Delivery_MessageId d) (settle_delivery c ctx d handling) w
      end
  end.
End Handling.

(** ** [consumer.go]: sessions

    A session is the sequence of what its select statements and workers meet:
    the end of the context, a worker's error, a close notification, a delivery
    handed to a worker (or to nobody, when the context ends first), the end of
    the deliveries, and a worker handling a delivery. *)
Inductive Event : Type :=
| ContextDone
| WorkerError (err : error)
| ChannelClosed (reason : option error)
| Delivered (d : Delivery) (accepted : bool)
| DeliveriesClosed
| Worked (d : Delivery).

Section Session.
Context `{UnicodeTables} `{JsonErrors} {B : Type} `{Driver B} {St : Type} `{Handler St}.

(** [_ = m]. *)
Definition ignore {W A} (m : M W A) : M W unit := fun w => let '(_, w) := m w in (Ok tt, w).

(** [None]: the session is still running. *)
Fixpoint consume_loop (c : Consumer) (ctx : Ctx) (tag : string) (ch : amqp_chan) (events : list Event)
    (w : Deliveries (B:=B) (St:=St)) : option (res unit) * Deliveries :=
  let cancel w := let '(_, w) := beside_var (drive (Cancel ch tag)) w in (Some (Ok tt), w) in
  match events with
  | [] => (None, w)
  | ContextDone :: _ => cancel w
  | WorkerError err :: _ =>
      let '(_, w) := beside_var (drive (Chan_Close ch)) w in
      (Some (Err (wrapf "consumer worker failed" err)), w)
  | ChannelClosed (Some reason) :: _ => (Some (Err (wrapf "consumer channel closed" reason)), w)
  | ChannelClosed None :: _ => (Some (Err (ErrNew "consumer channel closed")), w)
  | DeliveriesClosed :: _ => (Some (Err (ErrNew "consumer deliveries channel closed")), w)
  | Delivered _ true :: events => consume_loop c ctx tag ch events w
  | Delivered _ false :: _ => cancel w
  | Worked d :: events =>
      let '(_, w) := Consumer_handle c ctx d w in consume_loop c ctx tag ch events w
  end.

(** What the workers finish while the session shuts down. *)
Fixpoint finish_work (c : Consumer) (ctx : Ctx) (work : list Delivery) : M (Deliveries (B:=B) (St:=St)) unit :=
  match work with
  | [] => gret tt
  | d :: work => let! _ := ignore (Consumer_handle c ctx d) in finish_work c ctx work
  end.

(** The consumer's own connection is another [Connection] on the same broker;
    a session borrows it from [own]. *)
Definition on_own {A} (own : Connection B) (m : M (Net B) A) (w : Deliveries (B:=B) (St:=St))
    : res A * Connection B * Deliveries :=
  let '(n, st) := w in
  let '(r, n1) := m (mkNet (net_broker n) (net_heap n) own) in
  (r, net_connection n1, (mkNet (net_broker n1) (net_heap n1) (net_connection n), st)).

Definition setup (c : Consumer) (ctx : Ctx) (ch : amqp_chan) (tag : string) : M (Deliveries (B:=B) (St:=St)) unit :=
  let on_broker {A} (m : M B A) := beside_var (drive m) in
  let! _ := on_broker (DeclareTopology ch) in
  let! _ := on_broker (DeclareRetryTopology ch (RetryTiers (Consumer_config c))) in
  let! _ := gwrap (wrapf "set consumer prefetch") (on_broker (Qos ch (Prefetch (Consumer_config c)))) in
  gwrap (wrapf "start consuming") (on_broker (StartConsume ch WebhooksQueue tag)).

Definition consume (c : Consumer) (ctx : Ctx) (events : list Event) (work : list Delivery)
    (own : Connection B) (w : Deliveries (B:=B) (St:=St)) : option (res unit) * Connection B * Deliveries :=
  let setupCtx := WithTimeout ctx handshakeTimeout (net_broker w.1) in
  match on_own own (Channel setupCtx) w with
  | (Err err, own, w) => (Some (Err (wrapf "open consumer channel" err)), own, w)
  | (Ok None, own, w) => (Some (Err (ErrNew "nil channel")), own, w)
  | (Ok (Some ch), own, w) =>
      let tag := Connection_name own in
      let '(ended, w) :=
        match setup c ctx ch tag w with
        | (Err err, w) => (Some (Err err), w)
        | (Ok _, w) =>
            let '(ended, w) := consume_loop c ctx tag ch events w in
            let '(_, w) := finish_work c ctx work w in (ended, w)
        end in
      let '(_, w) := ignore (beside_var (drive (Chan_Close ch))) w in (ended, own, w)
  end.

(** One turn of [Run]: whether the context has ended at its three checks, and
    the session in between. *)
Record Turn := mkTurn {
  done_before : bool;
  turn_events : list Event;
  turn_work : list Delivery;
  done_after : bool;
  done_waiting : bool;
}.

Definition minBackoff : Duration := 500 * Millisecond.
Definition maxBackoff : Duration := 30 * Second.

Definition next_backoff (backoff : Duration) (err : option error) : Duration :=
  let doubled := backoff * 2 in
  let backoff := if maxBackoff <? doubled then maxBackoff else doubled in
  match err with None => minBackoff | Some _ => backoff end.

(** The errors [onError] is told and the waits before reconnecting. *)
Fixpoint Run (c : Consumer) (ctx : Ctx) (turns : list Turn) (backoff : Duration)
    (own : Connection B) (w : Deliveries (B:=B) (St:=St)) : list error * list Duration * Deliveries :=
  match turns with
  | [] => ([], [], w)
  | t :: turns =>
      if done_before t then ([], [], w)
      else match consume c ctx (turn_events t) (turn_work t) own w with
      | (None, _, w) => ([], [], w)
      | (Some ended, own, w) =>
          if done_after t then ([], [], w)
          else
          let err := match ended with Ok _ => None | Err err => Some err end in
          let reported := match err with Some err => [err] | None => [] end in
          if done_waiting t then (reported, [backoff], w)
          else
          let '(errs, waits, w) := Run c ctx turns (next_backoff backoff err) own w in
          (reported ++ errs, backoff :: waits, w)
      end
  end.
End Session.

(** The consuming service as the handler of deliveries. *)
Definition service_handler `{UnicodeTables} `{Interpreter} {W : Type} `{Consumer.Repository W}
    (s : Consumer.Service) (elapsed : Duration) : Handler W := fun id w =>
  let '(handling, err, _, w) := Handle s id elapsed w in
  (match err with None => Ok handling | Some err => Err err end, w).

(** ** Lemmas: republishing and acknowledging *)

Section HandlingLemmas.
Context `{UnicodeTables} `{JsonErrors} {B : Type} `{DriverDocumented B} {St : Type} `{Handler St}.

(** What a step may do to a consumer's world: the broker stays calm and the
    handler's world is untouched. *)
Definition aside {A} (m : M (Deliveries (B:=B) (St:=St)) A) : Prop :=
  forall w r w', m w = (r, w') -> calm (broker_of w) (broker_of w') /\ w'.2.1 = w.2.1.

Lemma aside_beside {A} (m : M (Net B) A) : quiet m -> aside (beside_var m).
Proof.
  intros Hm [n st] r [n' st']. unfold beside_var. destruct (m n) eqn:E. intros [= <- <- <-].
  split; [by eapply (Hm _ _ _ E) | done].
Qed.

Lemma aside_bind {A C} (m : M Deliveries A) (k : A -> M Deliveries C) :
  aside m -> (forall a, aside (k a)) -> aside (gbind m k).
Proof.
  intros Hm Hk w r w'. unfold gbind. destruct (m w) as [[a|e] w1] eqn:E; apply Hm in E as [C1 E1].
  - intros [C2 E2]%Hk. split; [by etrans | congruence].
  - by intros [= <- <-].
Qed.

Lemma aside_wrap {A} f (m : M Deliveries A) : aside m -> aside (gwrap f m).
Proof. intros Hm w r w'. unfold gwrap. destruct (m w) eqn:E. intros [= <- <-]. by eapply Hm. Qed.

Lemma aside_lift {A} (r : res A) : aside (glift r).
Proof. intros w r' w' [= <- <-]. done. Qed.

Lemma aside_closing {A} ch (m : M Deliveries A) : aside m -> aside (closing ch m).
Proof.
  intros Hm w r [n' st']. unfold closing. destruct (m w) as [out [n1 st1]] eqn:E1. apply Hm in E1 as [C1 S1].
  destruct (drive (Chan_Close ch) n1) as [r2 n2] eqn:E2. apply (quiet_drive _ (Chan_Close_quiet ch)) in E2.
  intros [= <- <- <-]. split; [by etrans | done].
Qed.

Lemma NotifyReturn_quiet ch :
  quiet (fun n : Net B => (Ok tt, mkNet (NotifyReturn ch (net_broker n)) (net_heap n) (net_connection n))).
Proof. intros n r n' [= <- <-]. apply NotifyReturn_calm. Qed.

Lemma recv_quiet ch :
  quiet (fun b : B => let '(r, b) := recv_return ch b in (Ok r, b)).
Proof. intros b r b'. destruct (recv_return ch b) eqn:E. intros [= <- <-]. by eapply recv_calm. Qed.

Lemma aside_republish_on c exchange d ch : aside (republish_on c exchange d ch).
Proof.
  unfold republish_on. apply aside_bind; [apply aside_wrap, aside_beside; eauto with quiet | intros _].
  apply aside_bind; [apply aside_beside, NotifyReturn_quiet | intros _].
  apply aside_bind; [apply aside_wrap, aside_beside; eauto with quiet | intros cf].
  apply aside_bind; [apply aside_wrap, aside_beside; eauto with quiet | intros []]; [|apply aside_lift].
  apply aside_bind; [apply aside_beside, quiet_drive, recv_quiet | intros []]; apply aside_lift.
Qed.

(** A copy on a channel of its own is taken when the call succeeds. *)
Lemma republish_on_taken c exchange d ch (w w' : Deliveries (B:=B) (St:=St)) :
  republish_on c exchange d ch w = (Ok tt, w') ->
  taken (broker_of w') exchange (Delivery_RoutingKey d) (copy_of d).
Proof.
  unfold republish_on. destruct w as [n0 st0]. intros E.
  inv_bind E. destruct w as [n1 st1], a. unfold beside_var, drive in Hm.
  destruct (Confirm ch (net_broker n0)) as [r1 b1] eqn:E1. injection Hm as -> <- <-. apply Confirm_on in E1.
  inv_bind E. destruct w as [n2 st2], a. injection Hm as <- <-. simpl in *.
  inv_bind E. destruct w as [n3 st3]. rename a into cf. unfold beside_var, drive in Hm. simpl in Hm.
  destruct (PublishDeferred _ _ _ _ _ _ _) as [r3 b3] eqn:E3. injection Hm as -> <- <-.
  inv_bind E. destruct w as [n4 st4]. unfold beside_var, drive in Hm. simpl in Hm.
  destruct (WaitContext cf b3) as [r4 b4] eqn:E4. injection Hm as -> <- <-.
  destruct a; [|done]. simpl in E.
  inv_bind E. destruct w as [n5 st5]. unfold beside_var, drive in Hm. simpl in Hm.
  destruct (recv_return ch b4) as [r5 b5] eqn:E5. injection Hm as <- <- <-.
  destruct r5; [done..|]. unfold glift in E. injection E as _ <-.
  eapply confirmed_routed; [|apply NotifyReturn_drained|exact E3|exact E4|exact E5|done].
  apply NotifyReturn_calm, E1.
Qed.

(** The function given to [withDeadline] ran, or nothing happened. *)
Lemma withDeadline_cases {Var} ctx (fn : M (Net B * Var) unit) n st r n' st' :
  withDeadline ctx fn (n, st) = (r, (n', st')) ->
  (exists n1 r1 n2, calm (net_broker n) (net_broker n1) /\ fn (n1, st) = (r1, (n2, st')) /\
     calm (net_broker n2) (net_broker n') /\ (r = Ok tt -> r1 = Ok tt)) \/
  ((exists err, r = Err err) /\ st' = st /\ calm (net_broker n) (net_broker n')).
Proof.
  unfold withDeadline.
  destruct (Ctx_Deadline ctx); [|intros [= <- <- <-]; right; split_and!; by eauto].
  destruct (connect ctx n) as [[[]|e] n1] eqn:E1; apply quiet_connect in E1; [|intros [= <- <- <-]; right; split_and!; by eauto].
  destruct (Connection_transport _); [|intros [= <- <- <-]; right; split_and!; by eauto].
  destruct (on_transport _ (limit _) n1) as [[[]|e] n2] eqn:E2; apply quiet_transport in E2;
    (assert (calm (net_broker n) (net_broker n2)) by (by etrans)); [|intros [= <- <- <-]; right; split_and!; by eauto].
  destruct (fn (n2, st)) as [out [n3 st3]] eqn:E3.
  destruct (on_transport _ clearLimit n3) as [cl n4] eqn:E4. apply quiet_transport in E4.
  intros [= <- <- <-]. left. exists n2, out, n3. split_and!; [done..|]. by destruct out as [[]|], cl.
Qed.

Definition no_hooks (c : Consumer) : Prop := Consumer_testHooks c = mkConsumerHooks None None None.

Lemma republish_cases c ctx exchange d (w : Deliveries (B:=B) (St:=St)) r w' : no_hooks c -> republish c ctx exchange d w = (r, w') ->
  (calm (broker_of w) (broker_of w') /\ w'.2.1 = w.2.1) /\
  (r = Ok tt -> taken (broker_of w') exchange (Delivery_RoutingKey d) (copy_of d)).
Proof.
  intros Hc. unfold republish. rewrite Hc. simpl. destruct w as [n [st log]], w' as [n' [st' log']].
  intros [(n1 & r1 & n2 & C1 & E & C2 & Hr)|([err ->] & [= -> ->] & C)]%withDeadline_cases;
    [|by split; [split|]].
  assert (aside (let! ch := beside_var (channel (WithTimeout ctx republishTimeout (net_broker n))) in
                 closing ch (republish_on c exchange d ch))) as Ha.
  { apply aside_bind; [apply aside_beside; eauto with quiet | intros ch].
    apply aside_closing, aside_republish_on. }
  pose proof (Ha _ _ _ E) as [C3 S]. simpl in S. split.
  - split; [|done]. etrans; [exact C1|]. etrans; [exact C3 | exact C2].
  - intros ->. rewrite (Hr eq_refl) in E. inv_bind E. destruct w as [n3 st3].
    unfold closing in E. destruct (republish_on c exchange d a _) as [out [n4 st4]] eqn:E4.
    destruct (drive (Chan_Close a) n4) as [r5 n5] eqn:E5. apply (quiet_drive _ (Chan_Close_quiet a)) in E5.
    injection E as -> <- <-. apply republish_on_taken in E4.
    apply (calm_taken _ _ C2), (calm_taken _ _ E5), E4.
Qed.

(** An acknowledgement settles this delivery only. *)
Record acks (tag : Z) (b b' : B) : Prop := {
  acks_taken : forall e k p, taken b e k p -> taken b' e k p;
  acks_only : forall t, acked b' t -> acked b t \/ t = tag;
}.

Lemma calm_acks tag b b' : calm b b' -> acks tag b b'.
Proof. intros []. split; auto. Qed.

Lemma acks_trans tag b1 b2 b3 : acks tag b1 b2 -> acks tag b2 b3 -> acks tag b1 b3.
Proof. intros [T1 O1] [T2 O2]. split; [auto|]. intros t [?|?]%O2; auto. Qed.

Lemma ack_acks c d (w : Deliveries (B:=B) (St:=St)) r w' : no_hooks c -> ack c d w = (r, w') ->
  w'.2.1 = w.2.1 /\ acks (DeliveryTag d) (broker_of w) (broker_of w').
Proof.
  intros Hc. unfold ack. rewrite Hc. destruct w as [n [st log]], w' as [n' [st' log']]. simpl.
  unfold gbind, glift, gwrap, beside_var, drive. simpl.
  destruct (Ack (DeliveryTag d) false (net_broker n)) as [out b] eqn:E. intros [= <- <- <- <-].
  apply Ack_only in E as (T & O & _). by split.
Qed.

Lemma notify_aside observers note : aside (notify observers note).
Proof. intros [n [st log]] r w' [= <- <-]. done. Qed.

(** Left for redelivery; or settled, with [kept] known of the broker. *)
Definition left_or_settled (d : Delivery) (kept : B -> Prop) (b : B) (r : res unit) (b' : B) : Prop :=
  (calm b b' /\ exists err, r = Err err) \/ (acks (DeliveryTag d) b b' /\ kept b').

(** Where a copy must be before the delivery is acknowledged. *)
Definition copy_kept (c : Consumer) (d : Delivery) (handling : Handling) (b : B) : Prop :=
  let taken_by exchange := taken b exchange (Delivery_RoutingKey d) (copy_of d) in
  match Handling_Disposition handling with
  | DispositionDone => True
  | DispositionDead => taken_by DeadLetterExchange
  | DispositionRetry =>
      match TierFor (RetryTiers (Consumer_config c)) (Handling_Attempts handling) with
      | Some tier => taken_by (Exchange tier)
      | None => taken_by DeadLetterExchange
      end
  end.

Lemma republish_then_ack c ctx d exchange f note (w : Deliveries (B:=B) (St:=St)) r w' : no_hooks c ->
  (let! _ := gwrap f (republish c ctx exchange d) in
   let! _ := notify (Consumer_observers c) note in ack c d) w = (r, w') ->
  w'.2.1 = w.2.1 /\ left_or_settled d (fun b => taken b exchange (Delivery_RoutingKey d) (copy_of d))
    (broker_of w) r (broker_of w').
Proof.
  intros Hc. unfold gbind at 1, gwrap. destruct (republish c ctx exchange d w) as [out w1] eqn:E1.
  destruct (republish_cases _ _ _ _ _ _ _ Hc E1) as [[C1 S1] T1].
  destruct out as [[]|e]; simpl; [|intros [= <- <-]; split; [done | left; eauto]].
  unfold gbind. destruct (notify _ note w1) as [out w2] eqn:E2. pose proof (notify_aside _ _ _ _ _ E2) as [C2 S2].
  destruct w1 as [n1 [st1 log1]]. injection E2 as <- <-. intros [S3 E3]%ack_acks; [|done].
  split; [congruence|]. right. split; [|apply (acks_taken _ _ _ E3), (T1 eq_refl)].
  eapply acks_trans; [apply calm_acks, C1 | exact E3].
Qed.

Lemma settle_delivery_cases c ctx d handling (w : Deliveries (B:=B) (St:=St)) r w' : no_hooks c -> settle_delivery c ctx d handling w = (r, w') ->
  w'.2.1 = w.2.1 /\ left_or_settled d (copy_kept c d handling) (broker_of w) r (broker_of w').
Proof.
  intros Hc. unfold settle_delivery, copy_kept. cbv zeta. destruct (Handling_Disposition handling).
  - intros [S E]%ack_acks; [|done]. split; [done | by right].
  - unfold republishForRetry. destruct (TierFor _ _); by apply republish_then_ack.
  - by apply republish_then_ack.
Qed.

Lemma failing_cases c d id kept m (w : Deliveries (B:=B) (St:=St)) r w' :
  (forall r1 w1, m w = (r1, w1) -> w1.2.1 = w.2.1 /\ left_or_settled d kept (broker_of w) r1 (broker_of w1)) ->
  (forall b b', calm b b' -> kept b -> kept b') ->
  failing c id m w = (r, w') -> w'.2.1 = w.2.1 /\ left_or_settled d kept (broker_of w) r (broker_of w').
Proof.
  intros Hm Hk. unfold failing. destruct (m w) as [[[]|e] w1] eqn:E; destruct (Hm _ _ eq_refl) as [S L].
  - by intros [= <- <-].
  - unfold failed, gbind. destruct w1 as [n1 [st1 log1]]. simpl. intros [= <- <-]. split; [done|].
    destruct L as [[C _]|L]; [left; eauto | by right].
Qed.

Lemma copy_kept_calm c d handling b b' : calm b b' -> copy_kept c d handling b -> copy_kept c d handling b'.
Proof.
  intros [T _ _]. unfold copy_kept. cbv zeta. destruct (Handling_Disposition handling); auto.
  destruct (TierFor _ _); auto.
Qed.

(** One delivery: unreadable and dead-lettered, or handled once and settled by
    its disposition, or left unacknowledged. *)
Lemma Consumer_handle_cases c ctx d (w : Deliveries (B:=B) (St:=St)) r w' : no_hooks c -> Consumer_handle c ctx d w = (r, w') ->
  match webhookEventID (Delivery_Body d) with
  | Err _ => w'.2.1 = w.2.1 /\
      left_or_settled d (fun b => taken b DeadLetterExchange (Delivery_RoutingKey d) (copy_of d))
    (broker_of w) r (broker_of w')
  | Ok id =>
      match HandleMessage id w.2.1 with
      | (Err _, st) => w'.2.1 = st /\ calm (broker_of w) (broker_of w') /\ exists err, r = Err err
      | (Ok handling, st) => w'.2.1 = st /\ left_or_settled d (copy_kept c d handling) (broker_of w) r (broker_of w')
      end
  end.
Proof.
  intros Hc. unfold Consumer_handle, gbind at 1.
  assert (exists log, (if Redelivered d
    then notify (List.filter Observer_Extended (Consumer_observers c)) (RedeliveredTo (Delivery_MessageId d))
    else gret tt) w = (Ok tt, (w.1, (w.2.1, log)))) as [log ->].
  { destruct w as [n [st log]]. destruct (Redelivered d); eauto. }
  destruct w as [n [st log0]]. simpl. destruct (webhookEventID (Delivery_Body d)) as [id|err].
  - unfold on_handler. destruct (HandleMessage id st) as [[handling|e] st1] eqn:E.
    + intros E2. refine (failing_cases c d _ (copy_kept c d handling) _ _ r w' _ _ E2).
      * intros r1 w1. by apply settle_delivery_cases.
      * intros b b'. apply copy_kept_calm.
    + unfold failed, gbind. simpl. intros [= <- <-]. split_and!; by eauto.
  - unfold gbind at 1. simpl. intros E.
    refine (failing_cases c d _ (fun b => taken b DeadLetterExchange (Delivery_RoutingKey d) (copy_of d))
      _ _ r w' _ _ E); [|by intros b b' [T _ _] ?; apply T].
    intros r1 w1. unfold gwrap. destruct (republishToDeadLetter _ _ _ _ _) as [out w2] eqn:E2. intros [= <- <-].
    apply republish_then_ack in E2 as [S L]; [|done]. split; [done|].
    destruct L as [[C [e ->]]|[A K]]; [left; simpl; eauto | by right].
Qed.
End HandlingLemmas.

(** ** Lemmas: the message on the wire *)

Lemma messageBody_members m l : MarshalTime (Message_OccurredAt m) = Some l ->
  Forall (fun s => utf8 (codes s)) [Message_ID m; Message_Kind m; Message_CorrelationID m; Message_EventID m] ->
  Forall (member 0) (messageBody m l).
Proof.
  intros Ht Hu. destruct (value_time _ _ Ht) as [T1 T2]. pose proof (MarshalTime_bytes _ _ Ht) as T3.
  apply Forall_cons in Hu as [U1 [U2 [U3 [U4 _]%Forall_cons]%Forall_cons]%Forall_cons]. unfold messageBody.
  repeat (apply Forall_cons; split;
    [first [by apply member_quote; [utf8_literal|] | by apply member_int; utf8_literal | by split; [utf8_literal|..]]|]).
  constructor.
Qed.

(** The consumer finds the reference the publisher wrote. *)
Lemma encoded_reference `{UnicodeTables} `{JsonErrors} m body : encode_message m = Ok body ->
  Forall (fun s => utf8 (codes s)) [Message_ID m; Message_Kind m; Message_CorrelationID m; Message_EventID m] ->
  Message_EventID m <> "" -> webhookEventID body = Ok (Message_EventID m).
Proof.
  unfold encode_message, UTC. destruct (MarshalTime _) as [l|] eqn:Ht; [|done]. intros E Hu Hne.
  pose proof (messageBody_members m l Ht Hu) as Hm.
  assert (utf8 (codes (Message_EventID m))) as U by (by do 3 apply Forall_inv_tail in Hu; apply Forall_inv in Hu).
  injection E as <-. unfold webhookEventID. rewrite (Unmarshal_object _ 0 _ _ Hm) by done.
  unfold messageBody, quoted_keys. cbn [fmap list_fmap fst snd].
  cbn [store_members].
  repeat match goal with |- context [field_of messageBodyRef (unquote (quote_json ?k))] =>
    rewrite (unquote_quote k) by utf8_literal end.
  change (field_of messageBodyRef "webhookEventId") with (Some (store_string (S:=string) (fun v _ => v))).
  assert (forall k, k ∈ ["messageId"; "type"; "schemaVersion"; "occurredAt"; "correlationId"] ->
    field_of messageBodyRef k = None) as F.
  { apply Forall_forall. repeat (apply Forall_cons; split; [vm_compute; reflexivity|]). constructor. }
  rewrite !F by (rewrite !elem_of_cons; auto 10). cbn [first_error].
  unfold store_string. change (kind_of (quote_json (Message_EventID m))) with KString. cbv iota.
  rewrite unquote_quote by done. cbn [first_error].
  by rewrite (proj2 (String.eqb_neq _ _) Hne).
Qed.

(** ** Lemmas: the publisher *)

Section PublisherLemmas.
Context {B : Type} `{DriverDocumented B}.

(** The channel the publisher keeps confirms, and its listener is the one the
    publisher reads. *)
Definition ready (w : PubWorld (B:=B)) : Prop :=
  match Publisher_channel w.2 with
  | Some ch => confirming (net_broker w.1) ch /\ Publisher_returns w.2 = Some ch
  | None => True
  end.

(** A step that keeps the publisher ready, its hooks, and its hope to end. *)
Record keeps (w w' : PubWorld (B:=B)) : Prop := {
  keeps_calm : calm (net_broker w.1) (net_broker w'.1);
  keeps_ready : ready w -> ready w';
  keeps_hooks : Publisher_testHooks w'.2 = Publisher_testHooks w.2;
  keeps_spinning : Publisher_spinning w'.2 = false -> Publisher_spinning w.2 = false;
}.

#[export] Instance keeps_preorder : PreOrder keeps.
Proof.
  split; [by split|]. intros ? ? ? [C1 R1 H1' S1] [C2 R2 H2' S2].
  split; [by etrans | auto | congruence | auto].
Qed.

Lemma keeps_net n n' p : calm (net_broker n) (net_broker n') -> keeps (n, p) (n', p).
Proof.
  intros C. split; [done| |done..]. unfold ready. simpl. destruct (Publisher_channel p); [|done].
  intros [? ?]. split; [by apply C | done].
Qed.

Definition keeping {A} (m : M (PubWorld (B:=B)) A) : Prop := forall w r w', m w = (r, w') -> keeps w w'.

Lemma keeping_beside {A} (m : M (Net B) A) : quiet m -> keeping (beside_var m).
Proof.
  intros Hm [n p] r [n' p']. unfold beside_var. destruct (m n) eqn:E. intros [= <- <- <-].
  apply keeps_net. by eapply (Hm _ _ _ E).
Qed.

Lemma keeping_bind {A C} (m : M PubWorld A) (k : A -> M PubWorld C) :
  keeping m -> (forall a, keeping (k a)) -> keeping (gbind m k).
Proof.
  intros Hm Hk w r w'. unfold gbind. destruct (m w) as [[a|e] w1] eqn:E; apply Hm in E.
  - intros E2%Hk. by etrans.
  - by intros [= <- <-].
Qed.

Lemma keeping_wrap {A} f (m : M PubWorld A) : keeping m -> keeping (gwrap f m).
Proof. intros Hm w r w'. unfold gwrap. destruct (m w) eqn:E. intros [= <- <-]. by eapply Hm. Qed.

Lemma keeping_or_else {A} (m : M PubWorld A) cleanup : keeping m -> keeping cleanup -> keeping (or_else m cleanup).
Proof.
  intros Hm Hc w r w'. unfold or_else. destruct (m w) as [[a|e] w1] eqn:E; apply Hm in E; [by intros [= <- <-]|].
  destruct (cleanup w1) as [r2 w2] eqn:E2. apply Hc in E2. intros [= <- <-]. by etrans.
Qed.

Lemma keeping_fail {A} err : keeping (gfail (A:=A) err).
Proof. intros w r w' [= <- <-]. reflexivity. Qed.

Lemma keeping_discard : keeping discardChannel.
Proof.
  intros w r w'. unfold discardChannel.
  destruct (match Publisher_channel w.2 with Some ch => _ | None => _ end) as [r1 w1] eqn:E.
  assert (keeps w w1) as K.
  { destruct (Publisher_channel w.2); [|by injection E as _ <-].
    eapply keeping_beside, E. eauto with quiet. }
  destruct w1 as [n1 p1]. intros [= <- <-]. etrans; [exact K|]. by split.
Qed.

Lemma keeping_take : keeping takeReturn.
Proof.
  intros [n p] r [n' p']. unfold takeReturn, receive_return.
  destruct (Publisher_returns p) as [ch|]; [|intros [= _ <- <-]; reflexivity].
  destruct (recv_return ch (net_broker n)) as [x b] eqn:E. intros [= _ <- <-].
  apply keeps_net. by eapply recv_calm.
Qed.

Lemma ensureChannel_keeps ctx w r w' : ready w -> ensureChannel ctx w = (r, w') ->
  keeps w w' /\ forall ch, r = Ok ch -> confirming (net_broker w'.1) ch /\ Publisher_returns w'.2 = Some ch.
Proof.
  intros Hr. unfold ensureChannel. destruct w as [n p].
  match goal with |- context [if Chan_IsClosed _ _ then ?m (n, p) else _] => set (fresh := m) end.
  assert (forall r w', fresh (n, p) = (r, w') -> keeps (n, p) w' /\
    forall ch, r = Ok ch -> confirming (net_broker w'.1) ch /\ Publisher_returns w'.2 = Some ch) as F.
  { clear r w'. intros r w'. subst fresh. unfold gbind at 1.
    destruct (beside_var (channel ctx) (n, p)) as [[ch|e] w1] eqn:E1;
      apply (keeping_beside _ (quiet_channel ctx)) in E1; [|intros [= <- <-]; by split].
    assert (forall ch, keeping (beside_var (St:=Publisher) (drive (Chan_Close ch)))) as Hcl
      by (intros; apply keeping_beside; eauto with quiet).
    unfold gbind at 1.
    match goal with |- context [or_else ?m ?cl ?w] => destruct (or_else m cl w) as [[[]|e] w2] eqn:E2 end.
    2:{ apply keeping_or_else in E2; [|apply keeping_wrap, keeping_beside; eauto with quiet|apply Hcl].
        intros [= <- <-]. split; [by etrans | done]. }
    assert (keeps w1 w2 /\ confirming (net_broker w2.1) ch) as [K2 C2].
    { unfold or_else, gwrap, beside_var, drive in E2. destruct w1 as [n1 p1].
      destruct (Confirm ch (net_broker n1)) as [[[]|e] b] eqn:E.
      - injection E2 as <-. split; [apply keeps_net; by eapply Confirm_quiet | by eapply Confirm_on].
      - simpl in E2. by destruct (Chan_Close ch b). }
    clear E2. unfold gbind at 1.
    match goal with |- context [or_else ?m ?cl ?w] => destruct (or_else m cl w) as [[[]|e] w3] eqn:E3 end;
      (apply keeping_or_else in E3; [|apply keeping_beside; eauto with quiet|apply Hcl]).
    2:{ intros [= <- <-]. split; [etrans; [exact E1 | by etrans] | done]. }
    destruct w3 as [n3 p3]. simpl. intros [= <- <-].
    pose proof (NotifyReturn_calm ch (net_broker n3)) as C4.
    assert (confirming (NotifyReturn ch (net_broker n3)) ch) as C5 by (apply C4, E3, C2).
    split; [|by intros ? [= <-]].
    assert (keeps (n, p) (n3, p3)) as K by (etrans; [exact E1 | by etrans]).
    etrans; [exact K|]. by split. }
  destruct (Publisher_channel p) as [ch|] eqn:Ep; [|by apply F].
  destruct (Chan_IsClosed ch (net_broker n)); [by apply F|].
  intros [= <- <-]. split; [reflexivity|]. intros ? [= <-]. unfold ready in Hr. simpl in Hr. by rewrite Ep in Hr.
Qed.

Lemma drainReturns_drained fuel p n n' : drainReturns fuel p n = Some n' ->
  calm (net_broker n) (net_broker n') /\ forall ch, Publisher_returns p = Some ch -> drained (net_broker n') ch.
Proof.
  revert n. induction fuel as [|fuel IH]; intros n; [done|]. cbn [drainReturns].
  unfold receive_return. destruct (Publisher_returns p) as [ch|] eqn:Ep.
  - destruct (recv_return ch (net_broker n)) as [x b] eqn:E. pose proof (recv_calm _ _ _ _ E) as C.
    destruct x; [intros [C2 D2]%IH; split; [by etrans | done]..|].
    intros [= <-]. split; [done|]. intros ? [= <-]. by eapply recv_drained.
  - intros [= <-]. by split.
Qed.

Lemma drain_keeps fuel w r w' : drain fuel w = (r, w') -> keeps w w' /\
  (r = Ok tt -> w'.2 = w.2 /\ forall ch, Publisher_returns w.2 = Some ch -> drained (net_broker w'.1) ch) /\
  (r <> Ok tt -> Publisher_spinning w'.2 = true).
Proof.
  destruct w as [n p]. unfold drain. destruct (drainReturns fuel p n) as [n1|] eqn:E; intros [= <- <-].
  - apply drainReturns_drained in E as [C D]. split; [by apply keeps_net|]. by split.
  - split; [|by split]. by split.
Qed.

(** One attempt: success is a confirmed copy that was not returned. *)
Lemma publish_attempt_keeps fuel ctx m body w r w' : ready w -> Publisher_testHooks w.2 = mkPublisherHooks None None ->
  publish_attempt fuel ctx m body w = (r, w') ->
  keeps w w' /\ (r = Ok tt -> taken (net_broker w'.1) EventsExchange (Message_RoutingKey m) (publishing m body)).
Proof.
  intros Hr Hh. unfold publish_attempt, gbind at 1. destruct (ensureChannel ctx w) as [[ch|e] w1] eqn:E1;
    apply ensureChannel_keeps in E1 as [K1 C1]; [|done|intros [= <- <-]; by split|done].
  destruct (C1 ch eq_refl) as [Hch Hret]. clear C1.
  unfold gbind at 1. destruct (drain fuel w1) as [[[]|e] w2] eqn:E2; apply drain_keeps in E2 as (K2 & D2 & _);
    [|intros [= <- <-]; split; [by etrans | done]].
  destruct (D2 eq_refl) as [P2 Dr]. specialize (Dr _ Hret). clear D2.
  assert (keeps w w2) as K by (by etrans). clear K1.
  unfold gbind at 1.
  match goal with |- context [or_else ?m ?cl ?w] => destruct (or_else m cl w) as [[c|e] w3] eqn:E3 end.
  2:{ apply keeping_or_else in E3; [|apply keeping_wrap, keeping_beside; eauto with quiet|apply keeping_discard].
      intros [= <- <-]. split; [by etrans | done]. }
  unfold or_else, gwrap, beside_var, drive in E3. destruct w2 as [n2 p2]. simpl in E3.
  destruct (PublishDeferred ch _ _ _ _ _ (net_broker n2)) as [[c'|e] b3] eqn:E3';
    [injection E3 as <- <-|simpl in E3; by destruct (discardChannel _)].
  pose proof (PublishDeferred_quiet _ _ _ _ _ _ _ _ _ E3') as C3. change (calm (net_broker n2) b3) in C3.
  unfold gbind at 1.
  match goal with |- context [or_else ?m ?cl ?w] => destruct (or_else m cl w) as [[ok|e] w4] eqn:E4 end.
  2:{ apply keeping_or_else in E4; [|apply keeping_wrap, keeping_beside; eauto with quiet|apply keeping_discard].
      intros [= <- <-]. split; [|done]. etrans; [exact K|]. etrans; [|exact E4]. by apply keeps_net. }
  unfold or_else, gwrap, beside_var, drive in E4. simpl in E4.
  destruct (WaitContext c' b3) as [[ok'|e] b4] eqn:E4';
    [injection E4 as <- <-|simpl in E4; by destruct (discardChannel _)].
  pose proof (WaitContext_quiet _ _ _ _ E4') as C4. change (calm b3 b4) in C4.
  assert (forall heap, keeps w (mkNet b4 heap (net_connection n2), p2)) as K4.
  { intros heap. etrans; [exact K|]. apply keeps_net. simpl. by etrans. }
  destruct ok'; simpl; [|intros [= <- <-]; by split].
  unfold gbind, takeReturn, receive_return. simpl in P2. rewrite P2, Hret. simpl.
  destruct (recv_return ch b4) as [x b5] eqn:E5. pose proof (recv_calm _ _ _ _ E5) as C5.
  assert (keeps w (mkNet b5 (net_heap n2) (net_connection n2), w1.2)) as K5.
  { rewrite <- P2. etrans; [apply (K4 (net_heap n2))|]. by apply keeps_net. }
  assert (Publisher_testHooks w1.2 = mkPublisherHooks None None) as Hh1 by (rewrite <- P2, <- Hh; apply K).
  assert (Publisher_testHooks p2 = Publisher_testHooks w1.2) as Hp by (by rewrite P2).
  destruct x; simpl; rewrite ?Hh1; simpl; intros [= <- <-]; (split; [done|]); [done|intros _..];
    (eapply confirmed_routed; [|exact Dr|exact E3'|exact E4'|exact E5|done]; by apply K2).
Qed.
End PublisherLemmas.

(** ** Lemmas: the end of a session *)

(** What ends a session without an error: the end of its context. *)
Definition done_event (e : Event) : bool :=
  match e with ContextDone | Delivered _ false => true | _ => false end.

Section SessionLemmas.
Context `{UnicodeTables} `{JsonErrors} {B : Type} `{Driver B} {St : Type} `{Handler St}.

Lemma consume_loop_Ok c ctx tag ch events (w : Deliveries (B:=B) (St:=St)) u w' :
  consume_loop c ctx tag ch events w = (Some (Ok u), w') -> existsb done_event events = true.
Proof.
  revert w. induction events as [|e events IH]; intros w; [done|]. simpl.
  destruct e as [|err|[reason|]|d []| |d]; simpl; try done; eauto.
  - by destruct (beside_var _ w).
  - by destruct (Consumer_handle c ctx d w) as [r w1]; intros ?%IH.
Qed.

Lemma consume_Ok c ctx events work own (w : Deliveries (B:=B) (St:=St)) u own' w' :
  consume c ctx events work own w = (Some (Ok u), own', w') -> existsb done_event events = true.
Proof.
  unfold consume. destruct (on_own own _ w) as [[[[ch|]|e] own1] w1]; try done.
  destruct (setup c ctx ch _ w1) as [[[]|e] w2].
  - destruct (consume_loop c ctx _ ch events w2) as [ended w3] eqn:E.
    destruct (finish_work c ctx work w3) as [r4 w4].
    match goal with |- context [ignore ?m w4] => destruct (ignore m w4) end. intros [= -> _ _].
    by eapply consume_loop_Ok.
  - match goal with |- context [ignore ?m w2] => by destruct (ignore m w2) end.
Qed.
End SessionLemmas.

(** The ladder of reconnect waits. *)
Fixpoint backoffs (k : nat) (backoff : Duration) : list Duration :=
  match k with
  | O => []
  | S k => backoff :: backoffs k (Z.min (backoff * 2) maxBackoff)
  end.
