(* ===== verification/Messaging.v ===== *)
(** * Messages between the relay and the consumer

    Theorems about [Delivery] and [Amqp], over every broker that keeps what
    [DriverDocumented] says, and a sample broker that shows it can be kept. *)

From S2P Require Import Prelude GoLib Json JsonText Errsanitize Webhooks Store EventRepo Samples.
From S2P Require Import Outbox Consumer Amqp Delivery.

(** ** A sample broker

    It confirms and routes everything, and remembers it. *)
Record Broker := mkBroker { br_taken : list (string * string * Publishing); br_acked : list Z; br_now : Time }.

Definition sample_driver : Driver Broker := {|
  amqp_conn := unit;
  amqp_chan := unit;
  confirmation := string * string * Publishing;
  now := br_now;
  ctx_Err := fun _ _ => None;
  DialContext := fun _ b => (Ok (mkSocket 0 0 []), b);
  DialConfig := fun S _ _ dialer w => let '(r, w) := dialer w in (match r with Ok _ => Ok tt | Err err => Err err end, w);
  Conn_IsClosed := fun _ _ => false;
  Conn_Close := fun _ => gret tt;
  Conn_Channel := fun _ => gret tt;
  Chan_IsClosed := fun _ _ => false;
  Chan_Close := fun _ => gret tt;
  Confirm := fun _ => gret tt;
  NotifyReturn := fun _ b => b;
  recv_return := fun _ b => (Empty, b);
  ExchangeDeclare := fun _ _ _ => gret tt;
  QueueDeclare := fun _ _ _ => gret tt;
  QueueDeclarePassive := fun _ _ => gret 0;
  QueueBind := fun _ _ _ _ => gret tt;
  PublishDeferred := fun _ e k _ _ p => gret (e, k, p);
  WaitContext := fun c b => (Ok true, mkBroker (c :: br_taken b) (br_acked b) (br_now b));
  Qos := fun _ _ => gret tt;
  StartConsume := fun _ _ _ => gret tt;
  Cancel := fun _ _ => gret tt;
  Ack := fun tag _ b => (Ok tt, mkBroker (br_taken b) (tag :: br_acked b) (br_now b));
|}.

Definition sample_observed : @Observed Broker sample_driver := {|
  taken := fun b e k p => (e, k, p) ∈ br_taken b;
  acked := fun b t => t ∈ br_acked b;
  confirming := fun _ _ => True;
  drained := fun _ _ => True;
  pending := fun _ _ => 0%nat;
|}.

Lemma sample_documented : @DriverDocumented Broker sample_driver sample_observed.
Proof.
  assert (forall W A `{HasBroker Broker W} (a : A), @quiet Broker sample_driver sample_observed W A _ (gret a)) as R
    by (intros; apply quiet_ret).
  split; intros; try apply R; try (by intros ? ? ? [= <- <-]); try done; try reflexivity;
    try (by injection H as <- <-).
  - intros [b s] r [b' s']. simpl. destruct (dialer (b, s)) as [r1 [b1 s1]] eqn:E. intros [= <- <- <-].
    match goal with Hd : quiet dialer |- _ => by apply Hd in E end.
  - intros b r b' [= <- <-]. split; simpl; try done. intros. by apply elem_of_cons; right.
  - match goal with E : Ack _ _ _ = _ |- _ => injection E as <- <- end.
    split_and!; simpl; try done. intros t [->|?]%elem_of_cons; auto.
  - simpl. lia.
  - match goal with E : PublishDeferred _ _ _ _ _ _ _ = _ |- _ => injection E as <- <- end.
    match goal with E : WaitContext _ _ = _ |- _ => injection E as <- end.
    match goal with E : recv_return _ _ = _ |- _ => injection E as <- <- end.
    simpl. apply elem_of_cons. by left.
Qed.

(** ** Properties *)

(** C4: no message is lost. Whatever the broker, the connections and the
    database do with one delivery, it is acknowledged only when its event is
    accounted for, and no other delivery is touched: an unreadable message has
    a confirmed, routed copy in the dead-letter exchange and moved nothing;
    otherwise the service handled the event once, and either the event is
    processed in the inbox, or it is failed there or unknown and a copy is in
    the dead-letter exchange, or it is still open with its attempt counted and
    a copy is in the retry tier of that count. *)
Theorem delivery_is_never_lost `{UnicodeTables} `{JsonErrors} `{Interpreter} {B W : Type} `{DriverDocumented B}
    `{RepositoryContract W} (s : Consumer.Service) (elapsed : Duration) (c : Delivery.Consumer) (ctx : Ctx) (d : Delivery)
    (n n' : Net B) (st st' : W) (log log' : Log) (r : res unit) :
  no_hooks c -> stable st -> in_int32 (Config_MaxAttempts (config s)) ->
  @Consumer_handle _ _ B _ W (service_handler s elapsed) c ctx d (n, (st, log)) = (r, (n', (st', log'))) ->
  (forall t, acked (net_broker n') t -> acked (net_broker n) t \/ t = DeliveryTag d) /\
  (acked (net_broker n') (DeliveryTag d) -> ~ acked (net_broker n) (DeliveryTag d) ->
   let copied exchange := taken (net_broker n') exchange (Delivery_RoutingKey d) (copy_of d) in
   match webhookEventID (Delivery_Body d) with
   | Err _ => st' = st /\ copied DeadLetterExchange
   | Ok id =>
       st' = answer_world (handle s id st) /\
       ((exists k, inbox st' id = Some (Webhooks.StatusProcessed, k)) \/
        (copied DeadLetterExchange /\
           (inbox st' id = None \/ exists k, inbox st' id = Some (Webhooks.StatusFailed, k))) \/
        exists status k, status <> Webhooks.StatusFailed /\ inbox st' id = Some (status, k) /\
          0 < k < Config_MaxAttempts (config s) /\
          copied match TierFor (RetryTiers (Consumer_config c)) k with
                 | Some tier => Exchange tier | None => DeadLetterExchange end)
   end).
Proof.
  intros Hc Hst Hmax E. apply Consumer_handle_cases in E; [|done]. simpl in E.
  assert (forall kept : B -> Prop, left_or_settled d kept (net_broker n) r (net_broker n') ->
    (forall t, acked (net_broker n') t -> acked (net_broker n) t \/ t = DeliveryTag d) /\
    (acked (net_broker n') (DeliveryTag d) -> ~ acked (net_broker n) (DeliveryTag d) -> kept (net_broker n'))) as L.
  { intros kept [[C _]|[A K]]; (split; [intros t Ht|intros Ha Hn]); [left; by apply C|by destruct Hn; apply C|
      by apply (acks_only _ _ _ A)|done]. }
  destruct (webhookEventID (Delivery_Body d)) as [id|err].
  - unfold HandleMessage, service_handler, Handle in E.
    pose proof (handle_durable s id st Hst Hmax) as [_ Hd]. cbv zeta in Hd.
    destruct (handle s id st) as [[[[h rep] err] lg] w1] eqn:Eh. unfold answer_err, answer_handling, answer_world in *.
    cbn [fst snd] in *. destruct err as [err|].
    { destruct E as (_ & C & _). split; [intros t Ht; left; by apply C | intros Ha Hn; by destruct Hn; apply C]. }
    destruct E as [-> E]. apply L in E as [L1 L2]. split; [exact L1|]. intros Ha Hn. split; [done|].
    specialize (L2 Ha Hn). specialize (Hd eq_refl). unfold durable in Hd. unfold copy_kept in L2. cbv zeta in L2.
    destruct (Handling_Disposition h).
    + by left.
    + right. right. destruct Hd as (status & cause & Hs & Hin & Hk & _). exists status, (Handling_Attempts h).
      split_and!; [done..|lia|lia|]. by destruct (TierFor _ _).
    + right. left. split; [exact L2|]. destruct Hd as [[Hd _]|[Hd _]]; eauto.
  - destruct E as [-> E]. apply L in E as [L1 L2]. split; [exact L1|].
    intros Ha Hn. split; [done | by apply L2].
Qed.

Definition sample_net : Net Broker :=
  @mkNet Broker sample_driver (mkBroker [] [] 1) [] (@New Broker sample_driver "amqp://x" "republish").

Lemma delivery_is_never_lost_witness :
  exists n' st' log',
    @Consumer_handle sample_unicode sample_errors Broker sample_driver Store
      (@service_handler sample_unicode sample_interpreter Store _ (Consumer.NewService (Consumer.mkConfig 10) []) 0)
      (NewConsumer (mkConsumerConfig 0 0 [])) (mkCtx None)
      (mkDelivery 7 true "msg_1" "payment.webhook.checkout.completed" "" "" "" 0 [] (text "{'webhookEventId': 'evt_1'}"))
      (sample_net, (sample_store, [])) = (Ok tt, (n', (st', log'))) /\
    exists k, store_inbox st' "evt_1" = Some (Webhooks.StatusProcessed, k).
Proof.
  assert (store_stable sample_store) as Hs by (split; [apply sample_schema | reflexivity]).
  destruct (@Consumer_handle sample_unicode sample_errors Broker sample_driver Store
      (@service_handler sample_unicode sample_interpreter Store _ (Consumer.NewService (Consumer.mkConfig 10) []) 0)
      (NewConsumer (mkConsumerConfig 0 0 [])) (mkCtx None)
      (mkDelivery 7 true "msg_1" "payment.webhook.checkout.completed" "" "" "" 0 [] (text "{'webhookEventId': 'evt_1'}"))
      (sample_net, (sample_store, []))) as [r [n' [st' log']]] eqn:E.
  pose proof (@delivery_is_never_lost sample_unicode sample_errors sample_interpreter Broker Store sample_driver
    sample_observed sample_documented _ EventRepository_contract (Consumer.NewService (Consumer.mkConfig 10) []) 0
    (NewConsumer (mkConsumerConfig 0 0 [])) _ _ _ _ sample_store _ _ _ _ eq_refl Hs ltac:(unfold in_int32, MaxInt32; simpl; lia) E) as [_ P].
  assert (r = Ok tt) as -> by (apply (f_equal fst) in E; vm_compute in E; congruence).
  exists n', st', log'. split; [reflexivity|].
  assert (br_acked (net_broker n') = [7] /\ br_taken (net_broker n') = []) as [A T].
  { split; (etransitivity; [|vm_compute; reflexivity]).
    - exact (eq_sym (f_equal (fun x => br_acked (net_broker x.2.1)) E)).
    - exact (eq_sym (f_equal (fun x => br_taken (net_broker x.2.1)) E)). }
  destruct P as [_ [P|[[P _]|(status & k & _ & _ & _ & P)]]].
  - unfold acked, sample_observed. rewrite A. apply elem_of_cons. left. reflexivity.
  - intros H. unfold acked, sample_observed in H. simpl in H. by apply not_elem_of_nil in H.
  - exact P.
  - exfalso. unfold taken, sample_observed in P. rewrite T in P. by apply not_elem_of_nil in P.
  - exfalso. unfold taken, sample_observed in P. rewrite T in P. by apply not_elem_of_nil in P.
Defined.

(** C23: published means the broker has it, and the consumer will find its
    event. When [Publish] succeeds, the message was encoded, the broker took
    responsibility for a copy routed from the events exchange under the
    message's key, and what the consumer decodes from that copy is the
    identifier of the event. In every outcome the publisher stays ready for the
    next message and acknowledges nothing. *)
Theorem published_is_routed_and_readable `{UnicodeTables} `{JsonErrors} {B : Type} `{DriverDocumented B}
    (fuel : nat) (ctx : Ctx) (m : Message) (w w' : PubWorld (B:=B)) (r : res unit) :
  ready w -> Publisher_testHooks w.2 = mkPublisherHooks None None ->
  Publish fuel ctx m w = (r, w') ->
  ready w' /\ calm (net_broker w.1) (net_broker w'.1) /\
  (r = Ok tt -> exists body, encode_message m = Ok body /\
     taken (net_broker w'.1) EventsExchange (Message_RoutingKey m) (publishing m body) /\
     (Forall (fun s => utf8 (codes s)) [Message_ID m; Message_Kind m; Message_CorrelationID m; Message_EventID m] ->
      Message_EventID m <> "" -> webhookEventID body = Ok (Message_EventID m))).
Proof.
  intros Hr Hh. unfold Publish. rewrite Hh. simpl.
  destruct (encode_message m) as [body|e] eqn:Em; [|intros [= <- <-]; by split].
  destruct w as [n p], w' as [n' p'].
  intros [(n1 & r1 & n2 & C1 & E & C2 & Hok)|([err ->] & [= ->] & C)]%withDeadline_cases.
  - apply publish_attempt_keeps in E as [K T]; [| |done].
    2:{ by apply (keeps_ready _ _ (keeps_net n n1 p C1)). }
    split; [|split].
    + by apply (keeps_ready _ _ (keeps_net n2 n' p' C2)), (keeps_ready _ _ K), (keeps_ready _ _ (keeps_net n n1 p C1)).
    + etrans; [exact C1|]. etrans; [apply (keeps_calm _ _ K) | exact C2].
    + intros Hr1. exists body. split; [done|]. split; [by apply C2, T, Hok|]. intros. by apply encoded_reference.
  - split; [by apply (keeps_ready _ _ (keeps_net n n' p C)) | by split].
Qed.

Lemma published_is_routed_and_readable_witness :
  exists w', @Publish Broker sample_driver 2 (mkCtx None)
      (mkMessage "msg_1" "evt_1" "checkout.completed" 1 "payment.webhook.checkout.completed" "c" 0 "pending" 0)
      (sample_net, @NewPublisher Broker sample_driver) = (Ok tt, w') /\
    exists body, @webhookEventID sample_unicode sample_errors body = Ok "evt_1".
Proof.
  set (m := mkMessage "msg_1" "evt_1" "checkout.completed" 1 "payment.webhook.checkout.completed" "c" 0 "pending" 0).
  destruct (@Publish Broker sample_driver 2 (mkCtx None) m (sample_net, @NewPublisher Broker sample_driver))
    as [r w'] eqn:E.
  pose proof (@published_is_routed_and_readable sample_unicode sample_errors Broker sample_driver sample_observed
    sample_documented 2 (mkCtx None) m (sample_net, @NewPublisher Broker sample_driver) _ _ I eq_refl E) as (_ & _ & P).
  assert (r = Ok tt) as -> by (apply (f_equal fst) in E; vm_compute in E; congruence).
  exists w'. split; [reflexivity|]. destruct (P eq_refl) as (body & _ & _ & P2). exists body.
  apply P2; [|discriminate].
  repeat (apply Forall_cons; split; [apply utf8_ascii; simpl; repeat constructor; unfold code; simpl; lia|]).
  constructor.
Defined.

(** When the drain ends. The loop that clears stale returns before a
    publication makes at most two receives while its listener is open, and
    leaves it empty; once the driver has closed the listener it never ends,
    whatever the number of turns, because a receive from a closed channel is
    always ready. *)
Theorem drain_ends_unless_closed {B : Type} `{DriverDocumented B} (p : Publisher (B:=B)) (ch : amqp_chan) (n : Net B) :
  Publisher_returns p = Some ch ->
  ((forall b b', recv_return ch b <> (Closed, b')) ->
     exists n', drainReturns 2 p n = Some n' /\ drained (net_broker n') ch) /\
  ((exists b', recv_return ch (net_broker n) = (Closed, b')) -> forall fuel, drainReturns fuel p n = None).
Proof.
  intros Hp. split.
  - intros Hopen.
    assert (exists n', drainReturns 2 p n = Some n') as [n' E].
    { simpl. unfold receive_return. rewrite Hp.
      destruct (recv_return ch (net_broker n)) as [[x| |] b] eqn:E1; [|by destruct (Hopen _ _ E1)|eauto].
      simpl. destruct (recv_return ch b) as [[y| |] b2] eqn:E2; [|by destruct (Hopen _ _ E2)|eauto].
      apply recv_pending in E1, E2. pose proof (pending_one ch (net_broker n)). lia. }
    exists n'. split; [done|]. apply drainReturns_drained in E as [_ D]. by apply D.
  - intros [b' E] fuel. revert n b' E. induction fuel as [|fuel IH]; intros n b' E; [done|].
    cbn [drainReturns]. unfold receive_return. rewrite Hp, E. apply recv_closed in E. eauto.
Qed.

Lemma drain_ends_unless_closed_witness :
  exists n', @drainReturns Broker sample_driver 2 (@mkPublisher Broker sample_driver (mkPublisherHooks None None) (Some tt) (Some tt) false)
    sample_net = Some n'.
Proof.
  destruct (@drain_ends_unless_closed Broker sample_driver sample_observed sample_documented
    (@mkPublisher Broker sample_driver (mkPublisherHooks None None) (Some tt) (Some tt) false) tt sample_net eq_refl) as [H _].
  destruct H as (n' & H & _); [intros b b'; discriminate | by exists n'].
Defined.

(** Reconnecting. A context that has ended stays ended, so every session
    [Run] waits after has ended with an error: each wait doubles the one before
    until half a minute, and no session, however long it consumed, ever brings
    the wait back to half a second. *)
Theorem reconnect_waits_never_reset `{UnicodeTables} `{JsonErrors} {B : Type} `{Driver B} {St : Type} `{Handler St}
    (c : Delivery.Consumer) (ctx : Ctx) (turns : list Turn) (own : Connection B) (w : Deliveries (B:=B) (St:=St)) :
  Forall (fun t => existsb done_event (turn_events t) = true -> done_after t = true) turns ->
  exists k, (Run c ctx turns minBackoff own w).1.2 = backoffs k minBackoff.
Proof.
  intros Hd. generalize minBackoff as backoff. revert own w.
  induction Hd as [|t turns Ht _ IH]; intros own w backoff; [by exists 0%nat|]. simpl.
  destruct (done_before t); [by exists 0%nat|].
  destruct (consume c ctx (turn_events t) (turn_work t) own w) as [[[ended|] own1] w1] eqn:E; [|by exists 0%nat].
  destruct (done_after t) eqn:Ea; [by exists 0%nat|].
  destruct ended as [u|err]; [apply consume_Ok, Ht in E; congruence|].
  destruct (done_waiting t); [by exists 1%nat|].
  assert (next_backoff backoff (Some err) = Z.min (backoff * 2) maxBackoff) as Eb
    by (unfold next_backoff; destruct (Z.ltb_spec maxBackoff (backoff * 2)); lia).
  rewrite Eb. destruct (IH own1 w1 (Z.min (backoff * 2) maxBackoff)) as [k Hk].
  destruct (Run c ctx turns _ own1 w1) as [[errs waits] w2]. simpl in Hk. exists (S k). simpl. by rewrite Hk.
Qed.

Lemma reconnect_waits_never_reset_witness :
  exists k, (@Run sample_unicode sample_errors Broker sample_driver unit (fun _ => gfail (ErrNew "unused"))
     (NewConsumer (mkConsumerConfig 0 0 [])) (mkCtx None)
     (repeat (mkTurn false [DeliveriesClosed] [] false false) 8) minBackoff
     (@New Broker sample_driver "amqp://x" "worker") (sample_net, (tt, []))).1.2 = backoffs k minBackoff /\
  last (backoffs 8 minBackoff) = Some maxBackoff.
Proof.
  destruct (@reconnect_waits_never_reset sample_unicode sample_errors Broker sample_driver unit (fun _ => gfail (ErrNew "unused"))
     (NewConsumer (mkConsumerConfig 0 0 [])) (mkCtx None)
     (repeat (mkTurn false [DeliveriesClosed] [] false false) 8)
     (@New Broker sample_driver "amqp://x" "worker") (sample_net, (tt, []))) as [k Hk].
  - repeat (apply Forall_cons; split; [simpl; discriminate|]). constructor.
  - exists k. split; [exact Hk | vm_compute; reflexivity].
Defined.

(** ** Deadlines *)

(** The calls the driver makes on the transport it was given, among them those
    of its heartbeat. *)
Inductive DriverCall : Type :=
| CallSetDeadline (t : Time)
| CallSetReadDeadline (t : Time)
| CallSetWriteDeadline (t : Time).

Definition driver_call (c : deadlineConn) (call : DriverCall) : deadlineConn :=
  (match call with
   | CallSetDeadline t => SetDeadline t c
   | CallSetReadDeadline t => SetReadDeadline t c
   | CallSetWriteDeadline t => SetWriteDeadline t c
   end).2.

(** A deadline is set, and not later than [d]. *)
Definition within (d t : Time) : Prop := t <> 0 /\ t <= d.
Definition capped (d : Time) (c : deadlineConn) : Prop :=
  operationDeadline c = d /\ within d (sock_read (dc_Conn c)) /\ within d (sock_write (dc_Conn c)).

Lemma earlier_within d t : d <> 0 -> within d (earlier t d).
Proof.
  unfold within, earlier, IsZero. intros Hd. destruct (Z.eqb_spec t 0), (Z.eqb_spec d 0), (Z.ltb_spec t d); simpl; lia.
Qed.

(** A socket call sets the deadline it is given, or nothing. *)
Lemma socket_calls t s :
  (sock_read (Conn_SetReadDeadline t s).2 = t \/ sock_read (Conn_SetReadDeadline t s).2 = sock_read s) /\
  sock_write (Conn_SetReadDeadline t s).2 = sock_write s /\
  (sock_write (Conn_SetWriteDeadline t s).2 = t \/ sock_write (Conn_SetWriteDeadline t s).2 = sock_write s) /\
  sock_read (Conn_SetWriteDeadline t s).2 = sock_read s.
Proof. unfold Conn_SetReadDeadline, Conn_SetWriteDeadline. destruct (next_fault s); simpl; auto. Qed.

Lemma read_capped d t c : d <> 0 -> capped d c ->
  capped d (on_conn (Conn_SetReadDeadline (earlier t d)) c).2.
Proof.
  intros Hd (Ho & Hr & Hw). unfold on_conn. destruct (socket_calls (earlier t d) (dc_Conn c)) as (S1 & S2 & _ & _).
  destruct (Conn_SetReadDeadline _ _) as [r s]. simpl in *. split; [done|]. simpl. rewrite S2. split; [|done].
  destruct S1 as [-> | ->]; [by apply earlier_within | done].
Qed.

Lemma write_capped d t c : d <> 0 -> capped d c ->
  capped d (on_conn (Conn_SetWriteDeadline (earlier t d)) c).2.
Proof.
  intros Hd (Ho & Hr & Hw). unfold on_conn. destruct (socket_calls (earlier t d) (dc_Conn c)) as (_ & _ & S1 & S2).
  destruct (Conn_SetWriteDeadline _ _) as [r s]. simpl in *. split; [done|]. simpl. rewrite S2. split; [done|].
  destruct S1 as [-> | ->]; [by apply earlier_within | done].
Qed.

Lemma assigned_capped d c r w : capped d c -> capped d (mkDeadlineConn (dc_Conn c) r w (operationDeadline c)).
Proof. done. Qed.

Lemma applyLocked_capped d c : d <> 0 -> capped d c -> capped d (applyLocked c).2.
Proof.
  intros Hd Hc. unfold applyLocked, gbind. rewrite (proj1 Hc).
  pose proof (read_capped d (readDeadline c) c Hd Hc) as C.
  destruct (on_conn (Conn_SetReadDeadline _) c) as [[u|e] c1]; [|exact C]. by apply write_capped.
Qed.

Lemma driver_call_capped d c call : d <> 0 -> capped d c -> capped d (driver_call c call).
Proof.
  intros Hd Hc. destruct call as [t|t|t]; unfold driver_call, SetDeadline, SetReadDeadline, SetWriteDeadline, gbind, assign;
    cbv beta iota; cbn [operationDeadline]; rewrite ?(proj1 Hc).
  - apply applyLocked_capped; [done | split; [done | apply Hc]].
  - apply read_capped; [done | split; [done | apply Hc]].
  - apply write_capped; [done | split; [done | apply Hc]].
Qed.

(** A successful [applyLocked] gives the socket the earlier of both deadlines. *)
Lemma applyLocked_Ok c c' : applyLocked c = (Ok tt, c') ->
  operationDeadline c' = operationDeadline c /\
  sock_read (dc_Conn c') = earlier (readDeadline c) (operationDeadline c) /\
  sock_write (dc_Conn c') = earlier (writeDeadline c) (operationDeadline c).
Proof.
  unfold applyLocked, gbind, on_conn, Conn_SetReadDeadline, Conn_SetWriteDeadline.
  destruct (next_fault (dc_Conn c)); [done|]. simpl.
  destruct (next_fault _); [done|]. intros [= <-]. done.
Qed.

(** An operation's deadline holds to its end. Once [limit] has put a
    deadline on the transport, no series of deadlines the driver asks for in
    the meantime, its heartbeat's included, and no failure of the socket leaves
    a read or a write without a deadline or with a later one; and a successful
    [clearLimit] restores exactly what the driver last asked for. *)
Theorem operation_deadline_holds (d : Time) (calls : list DriverCall) (c c1 : deadlineConn) :
  d <> 0 -> limit d c = (Ok tt, c1) ->
  let c2 := fold_left driver_call calls c1 in
  capped d c2 /\
  forall c3, clearLimit c2 = (Ok tt, c3) ->
    sock_read (dc_Conn c3) = readDeadline c2 /\ sock_write (dc_Conn c3) = writeDeadline c2.
Proof.
  intros Hd E c2. split.
  - assert (capped d c1) as C.
    { unfold limit, gbind, assign in E. apply applyLocked_Ok in E as (Ho & Hr & Hw).
      unfold capped. rewrite Ho, Hr, Hw. split; [done|]. split; by apply earlier_within. }
    subst c2. clear E. revert c1 C. induction calls as [|call calls IH]; intros c1 C; [done|].
    simpl. by apply IH, driver_call_capped.
  - intros c3 E3. unfold clearLimit, gbind, assign in E3. apply applyLocked_Ok in E3 as (_ & -> & ->).
    unfold earlier, IsZero. simpl. split; case_match; lia.
Qed.

Lemma operation_deadline_holds_witness :
  let c1 := (limit 50 (newDeadlineConn (mkSocket 0 0 []))).2 in
  sock_read (dc_Conn (fold_left driver_call [CallSetReadDeadline 900; CallSetDeadline 0] c1)) = 50.
Proof.
  intros c1.
  destruct (operation_deadline_holds 50 [CallSetReadDeadline 900; CallSetDeadline 0]
    (newDeadlineConn (mkSocket 0 0 [])) c1 ltac:(lia) eq_refl) as [(_ & [H1 H2] & _) _].
  vm_compute. reflexivity.
Defined.
