(* ===== verification/Durations.v ===== *)
(** * The text of a duration

    [time.Duration.String] and the names [Amqp] derives from it identify a
    positive duration: the names of two retry tiers differ when their delays
    do. *)

From S2P Require Import Prelude GoLib Amqp.

Definition digit (c : Z) : Prop := 48 <= c <= 57.

(** The rest of a number does not begin with a digit. *)
Definition stops (l : list Z) : Prop := match l with c :: _ => ~ digit c | [] => True end.

Lemma split_digits l l' r r' : Forall digit l -> Forall digit l' -> stops r -> stops r' -> l ++ r = l' ++ r' ->
  l = l' /\ r = r'.
Proof.
  intros Hl. revert l'. induction Hl as [|c l Hc Hl IH]; intros [|c' l'] Hl' Hr Hr' E; simpl in E.
  - done.
  - subst. apply Forall_cons in Hl' as [? _]. done.
  - subst. done.
  - injection E as <- E. apply Forall_cons in Hl' as [_ Hl']. destruct (IH l' Hl' Hr Hr' E) as [<- <-]. done.
Qed.

(** *** Numbers *)

Lemma pretty_N_go_digits n s : Forall digit (codes s) -> Forall digit (codes (pretty_N_go n s)).
Proof.
  revert s. induction (N.lt_wf_0 n) as [n _ IH]. intros s Hs.
  assert (n = 0 \/ 0 < n)%N as [->|Hn] by lia; [done|]. rewrite pretty_N_go_step by done.
  apply IH; [by apply N.div_lt|]. unfold codes. simpl. apply Forall_cons. split; [|done].
  unfold pretty_N_char, digit, code. repeat case_match; by vm_compute.
Qed.

Lemma pretty_digits n : 0 <= n -> Forall digit (codes (pretty n)).
Proof.
  intros Hn. destruct n as [|n|n]; [| |lia].
  - by repeat constructor.
  - change (Forall digit (codes (pretty_N_go (N.pos n) ""))). apply pretty_N_go_digits. constructor.
Qed.

(** *** Fractions *)

(** The value of a list of digits. *)
Definition value (acc : Z) (ds : list Z) : Z := foldl (fun a c => a * 10 + (c - 48)) acc ds.

Lemma value_app acc ds ds' : value acc (ds ++ ds') = value (value acc ds) ds'.
Proof. apply foldl_app. Qed.

Definition places (prec : nat) : Z := 10 ^ Z.of_nat prec.

Lemma places_S prec : places (S prec) = 10 * places prec.
Proof. unfold places. rewrite Nat2Z.inj_succ, Z.pow_succ_r; lia. Qed.

Lemma value_acc ds acc : value acc ds = acc * places (length ds) + value 0 ds.
Proof.
  revert acc. induction ds as [|c ds IH]; intros acc; [unfold places; simpl; lia|].
  change (value acc (c :: ds)) with (value (acc * 10 + (c - 48)) ds).
  change (value 0 (c :: ds)) with (value (c - 48) ds). cbn [length]. rewrite IH, (IH (c - 48)), places_S. lia.
Qed.

Lemma places_pos prec : 0 < places prec.
Proof. unfold places. lia. Qed.

Lemma fmt_frac_spec prec print v : exists ds,
  Forall digit ds /\ (length ds <= prec)%nat /\ (print = true -> length ds = prec) /\
  value 0 ds * places (prec - length ds) = v mod places prec /\
  forall suffix, fmt_frac prec print v suffix =
    (if print || negb (v mod places prec =? 0) then 46 :: ds ++ suffix else suffix, v / places prec).
Proof.
  revert print v. induction prec as [|prec IH]; intros print v.
  - exists []. unfold places. simpl. rewrite Z.mod_1_r, Z.div_1_r, orb_false_r. by split_and!; try constructor.
  - cbn [fmt_frac]. cbv zeta. set (c := v mod 10). assert (0 <= c < 10) as Hc by (apply Z.mod_pos_bound; lia).
    pose proof (places_pos prec) as Hp.
    assert (v mod places (S prec) = c + 10 * ((v / 10) mod places prec)) as Em
      by (rewrite places_S; apply Z.rem_mul_r; lia).
    assert (v / 10 / places prec = v / places (S prec)) as Ed by (rewrite places_S; apply Z.div_div; lia).
    destruct (IH (print || negb (c =? 0)) (v / 10)) as (ds & Hds & Hle & Hpr & Hv & Hf). destruct (print || negb (c =? 0)) eqn:E; cbn [orb].
    + exists (ds ++ [48 + c]). rewrite length_app, (Hpr eq_refl), Em in *. cbn [length].
      split_and!; [| lia | lia | |].
      * apply Forall_app. split; [done|]. repeat constructor; unfold digit; lia.
      * rewrite value_app. change (value (value 0 ds) [48 + c]) with (value 0 ds * 10 + (48 + c - 48)).
        replace (prec + 1 - (prec + 1))%nat with 0%nat by lia. replace (S prec - (prec + 1))%nat with 0%nat by lia.
        rewrite (Nat.sub_diag prec) in Hv. change (places 0) with 1 in *. lia.
      * intros suffix. rewrite Hf, Ed. cbn [orb]. assert (print || negb (c + 10 * ((v / 10) mod places prec) =? 0) = true) as ->.
        { destruct print; [done|]. simpl in *. go_bool. apply negb_true_iff, Z.eqb_neq.
          pose proof (Z.mod_pos_bound (v / 10) (places prec) Hp). lia. }
        by rewrite <- app_assoc.
    + exists ds. apply orb_false_iff in E as [-> E]. go_bool. rewrite Em, E in *.
      split_and!; [done | lia | done | |].
      * replace (S prec - length ds)%nat with (S (prec - length ds)) by lia. rewrite places_S. lia.
      * intros suffix. rewrite Hf, Ed. cbn [orb]. f_equal. destruct (Z.eqb_spec ((v / 10) mod places prec) 0) as [E0|E0].
        -- by rewrite E0.
        -- destruct (Z.eqb_spec (0 + 10 * ((v / 10) mod places prec)) 0); [lia | done].
Qed.

(** A fraction of at most [prec] digits is read back. *)
Lemma fmt_frac_inj prec v v' suffix : stops suffix -> 0 <= v -> 0 <= v' -> suffix <> [] -> hd 0 suffix <> 46 ->
  (fmt_frac prec false v suffix).1 = (fmt_frac prec false v' suffix).1 -> v mod places prec = v' mod places prec.
Proof.
  intros Hs Hv Hv' Hn Hh. destruct (fmt_frac_spec prec false v) as (ds & Hds & _ & _ & <- & ->).
  destruct (fmt_frac_spec prec false v') as (ds' & Hds' & _ & _ & <- & ->). cbn [orb fst].
  destruct (Z.eqb_spec (value 0 ds * places (prec - length ds)) 0) as [E|E];
    destruct (Z.eqb_spec (value 0 ds' * places (prec - length ds')) 0) as [E'|E']; cbn [negb]; intros Eq.
  - congruence.
  - by rewrite Eq in Hh.
  - by rewrite <- Eq in Hh.
  - injection Eq as Eq. by apply split_digits in Eq as [-> _].
Qed.

(** *** Names *)

Lemma codes_inj s t : codes s = codes t -> s = t.
Proof. intros E. by rewrite <- (of_codes_codes s), <- (of_codes_codes t), E. Qed.

Lemma pretty_stops_inj n n' r r' : 0 <= n -> 0 <= n' -> stops r -> stops r' ->
  codes (pretty n) ++ r = codes (pretty n') ++ r' -> n = n' /\ r = r'.
Proof.
  intros Hn Hn' Hr Hr' E. apply split_digits in E as [E ->]; [|by apply pretty_digits..|done|done].
  split; [|done]. by apply codes_inj, pretty_Z_inj in E.
Qed.

Lemma replace_micro_other c t : c <> 194 -> replace_micro (c :: t) = c :: replace_micro t.
Proof. intros Hc. cbn [replace_micro]. repeat (case_match; try done). Qed.

Lemma replace_micro_digits l t : Forall (fun c => c <> 194) l -> replace_micro (l ++ t) = l ++ replace_micro t.
Proof.
  induction 1 as [|c l Hc Hl IH]; [done|]. cbn [app]. by rewrite replace_micro_other, IH.
Qed.

Lemma digits_plain l : Forall digit l -> Forall (fun c => c <> 194) l.
Proof. intros Hl. eapply Forall_impl; [exact Hl|]. unfold digit. intros. lia. Qed.

(** What a fraction appends to the digits before it. *)
Lemma frac_parts prec u : exists pre, Forall (fun c => c <> 194) pre /\
  (forall suffix, stops suffix -> stops (pre ++ suffix)) /\
  forall suffix, fmt_frac prec false u suffix = (pre ++ suffix, u / places prec).
Proof.
  destruct (fmt_frac_spec prec false u) as (ds & Hds & _ & _ & _ & Hf). cbn [orb] in Hf.
  destruct (negb _); [exists (46 :: ds) | exists []].
  - split_and!; [|by intros; unfold stops, digit; simpl; lia | done].
    constructor; [done | by apply digits_plain].
  - by split_and!.
Qed.

Definition micro (d : Duration) : list Z := replace_micro (Duration_codes d).

(** Below a second: a number, a fraction and a unit of two letters. *)
Lemma micro_unit prec unit d : 0 < d ->
  Duration_codes d = codes (pretty (d / places prec)) ++ (fmt_frac prec false d unit).1 ->
  micro d = codes (pretty (d / places prec)) ++ (fmt_frac prec false d (replace_micro unit)).1.
Proof.
  intros Hd E. unfold micro. rewrite E. destruct (frac_parts prec d) as (pre & Hp & _ & Hf). rewrite !Hf. cbn [fst].
  pose proof (places_pos prec). rewrite !replace_micro_digits; [done | done|].
  by apply digits_plain, pretty_digits, Z.div_pos; lia.
Qed.

Definition unit_of (prec : nat) : Z := match prec with 0%nat => 110 | 3%nat => 117 | _ => 109 end.

Lemma micro_small d : 0 < d < Second -> exists prec, prec ∈ [0; 3; 6]%nat /\
  micro d = codes (pretty (d / places prec)) ++ (fmt_frac prec false d [unit_of prec; 115]).1.
Proof.
  intros Hd. assert (Second = 1000000000 /\ Microsecond = 1000 /\ Millisecond = 1000000) as (E1 & E2 & E3) by done.
  assert (0 < d) as Hpos by lia. pose proof (fun prec unit => micro_unit prec unit d Hpos) as Hu.
  assert (forall prec u, fmt_frac prec false d u = ((fmt_frac prec false d u).1, d / places prec)) as Hw.
  { intros prec u. destruct (frac_parts prec d) as (pre & _ & _ & ->). done. }
  unfold Duration_codes in Hu. rewrite Z.abs_eq in Hu by lia.
  destruct (Z.ltb_spec d Second); [|lia]. destruct (Z.eqb_spec d 0); [lia|]. destruct (Z.ltb_spec d 0); [lia|].
  destruct (Z.ltb_spec d Microsecond) as [?|?]; [|destruct (Z.ltb_spec d Millisecond)].
  - exists 0%nat. split; [rewrite !elem_of_cons; auto|]. apply (Hu 0%nat [110; 115]). rewrite codes_app. unfold places. simpl.
    by rewrite Z.div_1_r.
  - exists 3%nat. split; [rewrite !elem_of_cons; auto|]. apply (Hu 3%nat [194; 181; 115]). by rewrite (Hw 3%nat).
  - exists 6%nat. split; [rewrite !elem_of_cons; auto|]. apply (Hu 6%nat [109; 115]). by rewrite (Hw 6%nat).
Qed.

(** *** Clocks *)

(** What follows the seconds. *)
Definition after_seconds (f : list Z) : Prop := hd 0 f = 46 \/ hd 0 f = 115.

Lemma after_seconds_stops f : after_seconds f -> stops f.
Proof. destruct f as [|c f]; [done|]. unfold after_seconds, stops, digit. simpl. lia. Qed.

Lemma fmt_clock_cases u f : 0 <= u ->
  let sec := codes (pretty (u mod 60)) ++ f in
  u < 60 /\ fmt_clock u f = sec \/
  60 <= u < 3600 /\ fmt_clock u f = codes (pretty (u / 60)) ++ 109 :: sec \/
  3600 <= u /\ fmt_clock u f = codes (pretty (u / 3600)) ++ 104 :: (codes (pretty (u / 60 mod 60)) ++ 109 :: sec).
Proof.
  intros Hu sec. unfold fmt_clock. fold sec. rewrite Z.div_div by done. change (60 * 60) with 3600.
  destruct (Z.ltb_spec 0 (u / 60)) as [H|H]; [|left; split; [|done]].
  - assert (60 <= u) by (apply Z.nlt_ge; intros ?; rewrite Z.div_small in H; lia).
    destruct (Z.ltb_spec 0 (u / 3600)) as [H'|H']; right; [right | left].
    + split; [|done]. apply Z.nlt_ge. intros ?. rewrite Z.div_small in H'; lia.
    + assert (u < 3600) by (apply Z.nle_gt; intros ?; assert (1 <= u / 3600) by (apply Z.div_le_lower_bound; lia); lia).
      split; [done|]. rewrite (Z.mod_small (u / 60)) by (split; [lia | apply Z.div_lt_upper_bound; lia]).
      done.
  - apply Z.nle_gt. intros ?. assert (1 <= u / 60) by (apply Z.div_le_lower_bound; lia). lia.
Qed.

Lemma fmt_clock_inj u u' f f' : 0 <= u -> 0 <= u' -> after_seconds f -> after_seconds f' ->
  fmt_clock u f = fmt_clock u' f' -> u = u' /\ f = f'.
Proof.
  intros Hu Hu' Hf Hf'. pose proof (after_seconds_stops f Hf) as Hs. pose proof (after_seconds_stops f' Hf') as Hs'.
  assert (forall n n' c c' t t', 0 <= n -> 0 <= n' -> c ∈ [104; 109] -> c' ∈ [104; 109] ->
    codes (pretty n) ++ c :: t = codes (pretty n') ++ c' :: t' -> n = n' /\ c = c' /\ t = t') as Hsplit.
  { intros n n' c c' t t' Hn Hn' Hc Hc' E. rewrite !elem_of_cons, elem_of_nil in Hc, Hc'.
    apply pretty_stops_inj in E as [-> [= -> ->]]; try done; unfold stops, digit; lia. }
  assert (forall n n' c t, 0 <= n -> 0 <= n' -> c ∈ [104; 109] ->
    forall g, after_seconds g -> codes (pretty n) ++ g = codes (pretty n') ++ c :: t -> False) as Hdiff.
  { intros n n' c t Hn Hn' Hc g Hg E. rewrite !elem_of_cons, elem_of_nil in Hc.
    apply pretty_stops_inj in E as [_ ->]; try done;
      [unfold after_seconds in Hg; simpl in Hg; lia | by apply after_seconds_stops | unfold stops, digit; lia]. }
  assert (forall x, 0 <= x -> 0 <= x / 60 /\ 0 <= x / 3600 /\ 0 <= x mod 60 /\ 0 <= x / 60 mod 60) as Hnn.
  { intros x Hx. split_and!; try apply Z.div_pos; try apply Z.mod_pos_bound; lia. }
  destruct (Hnn u Hu) as (N1 & N2 & N3 & N4). destruct (Hnn u' Hu') as (M1 & M2 & M3 & M4).
  assert (104 ∈ [104; 109] /\ 109 ∈ [104; 109]) as [I1 I2] by (rewrite !elem_of_cons; auto).
  assert (forall x, u / 60 = u' / 60 -> u mod 60 = u' mod 60 -> x = tt -> u = u') as Hdm.
  { intros _ Ea Eb _. rewrite (Z.div_mod u 60), (Z.div_mod u' 60) by done. lia. }
  destruct (fmt_clock_cases u f Hu) as [[Hr ->]|[[Hr ->]|[Hr ->]]];
    destruct (fmt_clock_cases u' f' Hu') as [[Hr' ->]|[[Hr' ->]|[Hr' ->]]]; intros E;
    try (exfalso; by eapply Hdiff in E); try (exfalso; symmetry in E; by eapply Hdiff in E).
  - apply pretty_stops_inj in E as [E ->]; try done. split; [|done]. by rewrite !Z.mod_small in E by lia.
  - apply Hsplit in E as (E1 & _ & E); try done. apply pretty_stops_inj in E as [E2 ->]; try done.
    split; [by apply (Hdm tt) | done].
  - apply Hsplit in E as (_ & E & _); done.
  - apply Hsplit in E as (_ & E & _); done.
  - apply Hsplit in E as (E1 & _ & E); try done. apply Hsplit in E as (E2 & _ & E); try done.
    apply pretty_stops_inj in E as [E3 ->]; try done. split; [|done]. apply (Hdm tt); [|done|done].
    rewrite (Z.div_mod (u / 60) 60), (Z.div_mod (u' / 60) 60) by done. rewrite !Z.div_div by done.
    change (60 * 60) with 3600. lia.
Qed.

(** *** Names identify *)

Lemma pretty_N_go_nonempty n s : s <> "" -> pretty_N_go n s <> "".
Proof.
  revert s. induction (N.lt_wf_0 n) as [n _ IH]. intros s Hs.
  assert (n = 0 \/ 0 < n)%N as [->|Hn] by lia; [done|]. rewrite pretty_N_go_step by done.
  apply IH; [by apply N.div_lt | done].
Qed.

Lemma pretty_nonempty n : 0 <= n -> codes (pretty n) <> [].
Proof.
  intros Hn E. assert (pretty n = "") as E' by (by apply codes_inj). destruct n as [|n|n]; [done| |lia].
  change (pretty_N_go (N.pos n) "" = "") in E'. rewrite pretty_N_go_step in E' by done.
  by apply pretty_N_go_nonempty in E'.
Qed.

Definition fraction (pre : list Z) : Prop := pre = [] \/ exists ds, Forall digit ds /\ pre = 46 :: ds.

Lemma frac_form prec u : exists pre, fraction pre /\ forall suffix, fmt_frac prec false u suffix = (pre ++ suffix, u / places prec).
Proof.
  destruct (fmt_frac_spec prec false u) as (ds & Hds & _ & _ & _ & Hf). cbn [orb] in Hf.
  destruct (negb _); [exists (46 :: ds) | exists []]; (split; [|done]); [right; by exists ds | by left].
Qed.

Lemma frac_split pre pre' c c' t t' : fraction pre -> fraction pre' -> ~ digit c -> ~ digit c' -> c <> 46 -> c' <> 46 ->
  pre ++ c :: t = pre' ++ c' :: t' -> c :: t = c' :: t'.
Proof.
  intros [->|(ds & Hds & ->)] [->|(ds' & Hds' & ->)] Hc Hc' Hn Hn' E; simpl in E; try congruence.
  injection E as E. by apply split_digits in E as [_ E].
Qed.

Lemma fraction_stops pre c t : fraction pre -> ~ digit c -> stops (pre ++ c :: t).
Proof. intros [->|(ds & _ & ->)] Hc; [done|]. unfold stops, digit. simpl. lia. Qed.

Lemma micro_large d : Second <= d -> micro d = fmt_clock (d / places 9) (fmt_frac 9 false d [115]).1.
Proof.
  intros Hd. assert (Second = 1000000000) as E by done. rewrite E in Hd. unfold micro, Duration_codes.
  rewrite Z.abs_eq by lia. rewrite E. destruct (Z.ltb_spec d 1000000000); [lia|]. destruct (Z.ltb_spec d 0); [lia|].
  assert (forall u, fmt_frac 9 false d u = ((fmt_frac 9 false d u).1, d / places 9)) as ->
    by (intros u; by destruct (frac_form 9 d) as (pre & _ & ->)).
  cbn [fst]. rewrite <- (app_nil_r (fmt_clock _ _)) at 1. rewrite replace_micro_digits; [apply app_nil_r|].
  assert (0 <= d / places 9) as Hn by (apply Z.div_pos; [lia | apply places_pos]).
  assert (forall n, 0 <= n -> Forall (fun c => c <> 194) (codes (pretty n))) as Hc
    by (intros; by apply digits_plain, pretty_digits).
  assert (Forall (fun c => c <> 194) (fmt_frac 9 false d [115]).1) as Hf.
  { destruct (frac_parts 9 d) as (pre & Hpre & _ & ->). apply Forall_app. split; [done|]. by repeat constructor. }
  destruct (fmt_clock_cases (d / places 9) (fmt_frac 9 false d [115]).1 Hn) as [[Hr ->]|[[Hr ->]|[Hr ->]]];
    repeat first [apply Forall_app; split | apply Forall_cons; split | exact Hf | done | apply Hc];
    try apply Z.div_pos; try apply Z.mod_pos_bound; lia.
Qed.

Lemma small_large d d' : 0 < d < Second -> Second <= d' -> micro d <> micro d'.
Proof.
  intros Hd Hd' E. destruct (micro_small d Hd) as (prec & Hprec & Em). rewrite Em, (micro_large d' Hd') in E.
  destruct (frac_form prec d) as (pre & Hpre & Hf). destruct (frac_form 9 d') as (pre' & Hpre' & Hf').
  rewrite Hf, Hf' in E. cbn [fst] in E.
  assert (unit_of prec ∈ [110; 117; 109]) as Hu.
  { rewrite !elem_of_cons, elem_of_nil in Hprec. destruct Hprec as [->|[->|[->|[]]]]; rewrite !elem_of_cons; auto. }
  rewrite !elem_of_cons, elem_of_nil in Hu.
  assert (0 <= d / places prec) as Hn by (apply Z.div_pos; [lia | apply places_pos]).
  assert (0 <= d' / places 9) as Hn' by (apply Z.div_pos; [assert (Second = 1000000000) by done; lia | apply places_pos]).
  assert (~ digit (unit_of prec)) as Hnd by (unfold digit; lia).
  pose proof (fraction_stops _ _ [115] Hpre Hnd) as Hs.
  assert (forall n c t, 0 <= n -> c ∈ [104; 109] -> stops (c :: t) ->
    codes (pretty (d / places prec)) ++ pre ++ [unit_of prec; 115] = codes (pretty n) ++ c :: t ->
    t = [115]) as Hhead.
  { intros n c t Hnn Hc Hst Ei. apply pretty_stops_inj in Ei as [_ Ei]; try done.
    rewrite !elem_of_cons, elem_of_nil in Hc.
    destruct Hpre as [->|(ds & _ & ->)]; simpl in Ei; injection Ei as Ei1 Ei2; [done | lia]. }
  set (v := d' / places 9) in *.
  assert (forall t, codes (pretty (v mod 60)) ++ t <> [115]) as Hsec.
  { intros t Et. pose proof (pretty_nonempty (v mod 60) ltac:(apply Z.mod_pos_bound; lia)) as Hne.
    pose proof (pretty_digits (v mod 60) ltac:(apply Z.mod_pos_bound; lia)) as Hdg.
    destruct (codes (pretty (v mod 60))) as [|c l]; [done|]. injection Et as -> _. apply Forall_cons in Hdg as [Hdg _].
    unfold digit in Hdg. lia. }
  assert (0 <= v / 60 /\ 0 <= v / 3600 /\ 0 <= v mod 60 /\ 0 <= v / 60 mod 60) as (N1 & N2 & N3 & N4).
  { split_and!; try apply Z.div_pos; try apply Z.mod_pos_bound; lia. }
  destruct (fmt_clock_cases v (pre' ++ [115]) Hn') as [[_ Ec]|[[_ Ec]|[_ Ec]]]; rewrite Ec in E.
  - apply pretty_stops_inj in E as [_ E]; [| done | done | exact Hs |].
    + apply frac_split in E; [discriminate | done | done | done | unfold digit; lia | lia | lia].
    + apply fraction_stops; [done|]. unfold digit. lia.
  - apply Hhead in E; [by apply Hsec in E | done | rewrite !elem_of_cons; auto | unfold stops, digit; lia].
  - apply Hhead in E; [|done | rewrite !elem_of_cons; auto | unfold stops, digit; lia].
    pose proof (pretty_nonempty _ N4) as Hne. pose proof (pretty_digits _ N4) as Hdg.
    destruct (codes (pretty (v / 60 mod 60))) as [|c l]; [done|]. injection E as -> _. apply Forall_cons in Hdg as [Hdg _].
    unfold digit in Hdg. lia.
Qed.

Lemma div_mod_inj p d d' : d / places p = d' / places p -> d mod places p = d' mod places p -> d = d'.
Proof. intros E1 E2. pose proof (places_pos p). rewrite (Z.div_mod d (places p)), (Z.div_mod d' (places p)), E1, E2 by lia. done. Qed.

Lemma micro_inj d d' : 0 < d -> 0 < d' -> micro d = micro d' -> d = d'.
Proof.
  intros Hd Hd' E. assert (Second = 1000000000) as Es by done.
  destruct (Z.lt_ge_cases d Second) as [H|H]; destruct (Z.lt_ge_cases d' Second) as [H'|H'].
  - destruct (micro_small d ltac:(lia)) as (p & Hp & Em). destruct (micro_small d' ltac:(lia)) as (p' & Hp' & Em').
    rewrite Em, Em' in E. rewrite !elem_of_cons, elem_of_nil in Hp, Hp'.
    assert (~ digit (unit_of p) /\ unit_of p <> 46) as [Hu Hn]
      by (destruct Hp as [->|[->|[->|[]]]]; unfold digit; simpl; lia).
    assert (~ digit (unit_of p') /\ unit_of p' <> 46) as [Hu' Hn']
      by (destruct Hp' as [->|[->|[->|[]]]]; unfold digit; simpl; lia).
    destruct (frac_form p d) as (pre & Hpre & Hf). destruct (frac_form p' d') as (pre' & Hpre' & Hf').
    assert (0 <= d / places p /\ 0 <= d' / places p') as [N N'] by (split; apply Z.div_pos; try apply places_pos; lia).
    rewrite Hf, Hf' in E. cbn [fst] in E.
    apply pretty_stops_inj in E as [Eq E]; [| done | done | by apply fraction_stops | by apply fraction_stops].
    pose proof (frac_split _ _ _ _ _ _ Hpre Hpre' Hu Hu' Hn Hn' E) as [= Eu].
    assert (p = p') as <-.
    { destruct Hp as [->|[->|[->|[]]]]; destruct Hp' as [->|[->|[->|[]]]]; simpl in Eu; congruence. }
    apply (div_mod_inj p); [done|]. apply (fmt_frac_inj p d d' [unit_of p; 115]); [done | lia | lia | done | done |].
    by rewrite Hf, Hf'.
  - destruct (small_large d d'); [lia | done | done].
  - destruct (small_large d' d); [lia | done | done].
  - rewrite !micro_large in E by lia.
    assert (0 <= d / places 9 /\ 0 <= d' / places 9) as [N N'] by (split; apply Z.div_pos; try apply places_pos; lia).
    destruct (frac_form 9 d) as (pre & Hpre & Hf). destruct (frac_form 9 d') as (pre' & Hpre' & Hf').
    assert (forall q, fraction q -> after_seconds (q ++ [115])) as Ha.
    { intros q [->|(ds & _ & ->)]; [by right | by left]. }
    apply fmt_clock_inj in E as [E1 E2]; [| done | done | rewrite Hf; by apply Ha | rewrite Hf'; by apply Ha].
    apply (div_mod_inj 9); [done|]. apply (fmt_frac_inj 9 d d' [115]); [unfold stops, digit; lia | lia | lia | done | done | done].
Qed.

Lemma micro_bytes d : 0 < d -> Forall is_byte (micro d).
Proof.
  intros Hd. assert (forall l, Forall digit l -> Forall is_byte l) as Hdg.
  { intros l Hl. eapply Forall_impl; [exact Hl|]. unfold digit, is_byte. intros. lia. }
  assert (forall n, 0 <= n -> Forall is_byte (codes (pretty n))) as Hn by (intros; by apply Hdg, pretty_digits).
  assert (forall p s, Forall is_byte s -> Forall is_byte (fmt_frac p false d s).1) as Hf.
  { intros p s Hs. destruct (frac_form p d) as (pre & Hpre & ->). apply Forall_app. split; [|done].
    destruct Hpre as [->|(ds & Hds & ->)]; [done|]. constructor; [by vm_compute | by apply Hdg]. }
  assert (forall p, 0 <= d / places p) as Hp by (intros p; apply Z.div_pos; [lia | apply places_pos]).
  destruct (Z.lt_ge_cases d Second) as [H|H].
  - destruct (micro_small d ltac:(lia)) as (p & Hin & ->). apply Forall_app. split; [by apply Hn|]. apply Hf.
    rewrite !elem_of_cons, elem_of_nil in Hin. destruct Hin as [->|[->|[->|[]]]]; repeat constructor; by vm_compute.
  - rewrite micro_large by done. assert (Forall is_byte (fmt_frac 9 false d [115]).1) as Hs
      by (apply Hf; repeat constructor; by vm_compute).
    pose proof (Hp 9%nat) as H9.
    destruct (fmt_clock_cases (d / places 9) (fmt_frac 9 false d [115]).1 H9) as [[_ ->]|[[_ ->]|[_ ->]]];
      repeat match goal with
      | |- Forall _ (_ ++ _) => apply Forall_app; split
      | |- Forall _ (_ :: _) => constructor
      | |- Forall _ (codes _) => apply Hn
      | |- Forall _ (fmt_frac _ _ _ _).1 => exact Hs
      | |- is_byte _ => unfold is_byte; lia
      end; try apply Z.div_pos; try apply Z.mod_pos_bound; lia.
Qed.

(** A retry tier has a name, an exchange and a queue of its own. *)
Lemma Name_inj t t' : 0 < RetryTier_Delay t -> 0 < RetryTier_Delay t' -> Name t = Name t' -> t = t'.
Proof.
  intros Ht Ht' E. assert (micro (RetryTier_Delay t) = micro (RetryTier_Delay t')) as Em.
  { rewrite <- (codes_of_codes (micro (RetryTier_Delay t))), <- (codes_of_codes (micro (RetryTier_Delay t')))
      by (by apply micro_bytes). exact (f_equal codes E). }
  apply micro_inj in Em; [|done..]. destruct t, t'. simpl in Em. by subst.
Qed.

Lemma append_inj p s t : p +:+ s = p +:+ t -> s = t.
Proof. induction p as [|c p IH]; simpl; [done|]. by intros [= ?%IH]. Qed.

Lemma Queue_inj t t' : 0 < RetryTier_Delay t -> 0 < RetryTier_Delay t' -> Queue t = Queue t' -> t = t'.
Proof. intros Ht Ht' E%append_inj. by apply Name_inj. Qed.
