(* ===== verification/Ratelimit.v ===== *)
(** * The rate limiter: [internal/platform/ratelimit]

    [bucket.go]: the policy, one token bucket and its decisions. [limiter.go]:
    a bounded, least recently used table of buckets. A [Limiter] method runs
    under the limiter's mutex, so it is one step on the state; the clock
    reading [Allow] takes before it locks is an argument. The [container/list]
    list is its elements from front to back, each with its identity, which is
    what the map of the limiter stores. *)

From S2P Require Import Prelude GoLib Float.
From Stdlib Require Import QArith Lqa.
#[local] Open Scope Z_scope.

(** ** [bucket.go] *)

Record Policy := mkPolicy { Policy_Burst : Z; Policy_Interval : Duration }.

Definition msg (s : string) : error := ErrSentinel s s.

Definition Policy_Validate (p : Policy) (name : string) : option error :=
  if Policy_Burst p <? 1 then Some (msg (name +:+ " burst must be at least 1"))
  else if Policy_Interval p <=? 0 then Some (msg (name +:+ " interval must be positive"))
  else if Z.quot (Policy_Interval p) (Policy_Burst p) <=? 0 then
    Some (msg (name +:+ " interval is too short to refill " +:+ pretty (Policy_Burst p) +:+ " tokens"))
  else None.

Definition tokenInterval (p : Policy) : Duration := Z.quot (Policy_Interval p) (Policy_Burst p).

Record Decision := mkDecision { Allowed : bool; RetryAfter : Duration }.

Record bucket := mkBucket { tokens : Q; updatedAt : Time }.

(** [d.Seconds()]. *)
Definition Seconds (d : Duration) : Q :=
  fadd (float_of_int (Z.quot d Second)) (fdiv (float_of_int (Z.rem d Second)) (float_of_int Second)).

Definition Truncate (d m : Duration) : Duration := if m <=? 0 then d else d - Z.rem d m.

Definition roundUpToSecond (wait : Duration) : Duration :=
  if wait <=? Second then Second
  else
    let rounded := Truncate wait Second in
    if rounded <? wait then wrap64 (rounded + Second) else rounded.

Section Take.
Context `{FloatConversion}.

Definition refill (b : bucket) (policy : Policy) (now : Time) : Q :=
  let burst := float_of_int (Policy_Burst policy) in
  let elapsed := Sub now (updatedAt b) in
  if elapsed >? 0 then
    fmin burst (fadd (tokens b) (fdiv (Seconds elapsed) (Seconds (tokenInterval policy))))
  else tokens b.

Definition take (b : bucket) (policy : Policy) (now : Time) : Decision * bucket :=
  let credit := refill b policy now in
  if Qle_bool 1 credit then (mkDecision true 0, mkBucket (fsub credit 1) now)
  else
    let missing := fsub 1 credit in
    let wait := to_int64 (truncate (fmul missing (float_of_int (tokenInterval policy)))) in
    (mkDecision false (roundUpToSecond wait), mkBucket credit now).
End Take.

(** ** [limiter.go] *)

(** An element of the list: its identity and the entry it carries. *)
Record Element := mkElement { element_id : nat; entry_key : string; entry_bucket : bucket }.

Record Limiter := mkLimiter {
  policy : Policy;
  capacity : Z;
  ttl : Duration;
  order : list Element;
  buckets : gmap string nat;
  (** The identities below are taken. *)
  fresh_id : nat
}.

Record Options := mkOptions { Options_Capacity : Z; Options_TTL : Duration }.

Definition New (p : Policy) (opts : Options) (name : string) : res Limiter :=
  match Policy_Validate p name with
  | Some e => Err e
  | None =>
      if Options_Capacity opts <? 1 then Err (msg (name +:+ " capacity must be at least 1"))
      else if Options_TTL opts <? 0 then Err (msg (name +:+ " TTL must not be negative"))
      else Ok (mkLimiter p (Options_Capacity opts) (Options_TTL opts) [] ∅ 0)
  end.

Definition set_order (l : Limiter) (o : list Element) (m : gmap string nat) (n : nat) : Limiter :=
  mkLimiter (policy l) (capacity l) (ttl l) o m n.

(** [order.Remove(element)] and [delete(buckets, key)] for the element at the
    back. *)
Definition remove_back (l : Limiter) (oldest : Element) : Limiter :=
  set_order l (removelast (order l)) (delete (entry_key oldest) (buckets l)) (fresh_id l).

(** The loops end after as many rounds as the list has elements: each removes
    one. *)
Fixpoint expire_loop (fuel : nat) (l : Limiter) (now : Time) : Limiter :=
  match fuel, last (order l) with
  | S fuel, Some oldest =>
      if Sub now (updatedAt (entry_bucket oldest)) <? ttl l then l
      else expire_loop fuel (remove_back l oldest) now
  | _, _ => l
  end.

Definition expire (l : Limiter) (now : Time) : Limiter :=
  if ttl l <=? 0 then l else expire_loop (length (order l)) l now.

Fixpoint evict_loop (fuel : nat) (l : Limiter) : Limiter :=
  match fuel, last (order l) with
  | S fuel, Some oldest =>
      if capacity l <=? Z.of_nat (length (order l)) then evict_loop fuel (remove_back l oldest) else l
  | _, _ => l
  end.

Definition evictIfFull (l : Limiter) : Limiter := evict_loop (length (order l)) l.

Definition has_id (id : nat) (e : Element) : bool := Nat.eqb (element_id e) id.

Definition PushFront (l : Limiter) (key : string) (b : bucket) : nat * Limiter :=
  let id := fresh_id l in
  (id, set_order l (mkElement id key b :: order l) (<[key := id]> (buckets l)) (S id)).

Definition MoveToFront (l : Limiter) (id : nat) : Limiter :=
  match List.find (has_id id) (order l) with
  | Some e => set_order l (e :: List.filter (fun x => negb (has_id id x)) (order l)) (buckets l) (fresh_id l)
  | None => l
  end.

(** [element.Value.bucket.take(l.policy, now)], in place. *)
Definition take_at `{FloatConversion} (l : Limiter) (id : nat) (now : Time) : option (Decision * Limiter) :=
  match List.find (has_id id) (order l) with
  | Some e =>
      let '(d, b) := take (entry_bucket e) (policy l) now in
      Some (d, set_order l
        ((fun x => if has_id id x then mkElement id (entry_key x) b else x) <$> order l) (buckets l) (fresh_id l))
  | None => None
  end.

Definition Allow `{FloatConversion} (l : Limiter) (now : Time) (key : string) : option (Decision * Limiter) :=
  let l := expire l now in
  let '(element, l) :=
    match buckets l !! key with
    | None =>
        let l := evictIfFull l in
        PushFront l key (mkBucket (float_of_int (Policy_Burst (policy l))) now)
    | Some element => (element, MoveToFront l element)
    end in
  take_at l element now.

Definition Len (l : Limiter) : nat := length (order l).

(** A sequence of calls, each with the clock reading it took. *)
Fixpoint calls `{FloatConversion} (l : Limiter) (trace : list (Time * string)) : option (list Decision * Limiter) :=
  match trace with
  | [] => Some ([], l)
  | (now, key) :: rest =>
      '(d, l) ← Allow l now key; '(ds, l) ← calls l rest; Some (d :: ds, l)
  end.

(** ** The bucket *)

(** A policy [Policy.Validate] accepts, with a burst and a refill time per
    token (in nanoseconds: about 104 days) that a [float64] represents
    exactly. *)
Record sound_policy (p : Policy) : Prop := {
  sound_burst : 1 <= Policy_Burst p <= 2 ^ 53;
  sound_interval : 0 < tokenInterval p <= 2 ^ 53
}.

Definition bucket_ok (p : Policy) (b : bucket) : Prop :=
  (0 <= tokens b)%Q /\ (tokens b <= inject_Z (Policy_Burst p))%Q.

Lemma Policy_Validate_ok p name :
  Policy_Validate p name = None <-> 1 <= Policy_Burst p /\ 0 < Policy_Interval p /\ 0 < tokenInterval p.
Proof.
  unfold Policy_Validate. fold (tokenInterval p).
  destruct (Z.ltb_spec (Policy_Burst p) 1); [split; [done | lia]|].
  destruct (Z.leb_spec (Policy_Interval p) 0); [split; [done | lia]|].
  destruct (Z.leb_spec (tokenInterval p) 0); split; (done || lia).
Qed.

Lemma burst_exact p : sound_policy p -> (float_of_int (Policy_Burst p) == inject_Z (Policy_Burst p))%Q.
Proof. intros Hp. apply round_int. pose proof (sound_burst p Hp). lia. Qed.

Lemma Seconds_nonneg d : 0 <= d -> (0 <= Seconds d)%Q.
Proof.
  intros Hd. assert (0 <= Z.rem d Second) by (apply Z.rem_nonneg; [done | lia]).
  assert (0 <= Z.quot d Second) by (apply Z.quot_pos; [lia | done]).
  apply round_nonneg. apply (Qplus_le_compat 0 _ 0); [by apply float_of_int_nonneg|].
  apply round_nonneg. apply Qle_shift_div_l; [by vm_compute|]. rewrite Qmult_0_l. by apply float_of_int_nonneg.
Qed.

Lemma div_nonneg x y : (0 <= x -> 0 <= y -> 0 <= x / y)%Q.
Proof. intros Hx Hy. apply Qmult_le_0_compat; [done|]. by apply Qinv_le_0_compat. Qed.

Section BucketLemmas.
Context `{FloatConversion}.

Lemma refill_ok b p now : sound_policy p -> bucket_ok p b ->
  (0 <= refill b p now)%Q /\ (refill b p now <= inject_Z (Policy_Burst p))%Q.
Proof.
  intros Hp [H1 H2]. unfold refill. destruct (_ >? 0) eqn:E; [|done].
  rewrite Z.gtb_lt in E. split.
  - apply fmin_nonneg; [apply float_of_int_nonneg; pose proof (sound_burst p Hp); lia|].
    apply round_nonneg. apply (Qplus_le_compat 0 _ 0); [done|]. apply round_nonneg.
    apply div_nonneg; apply Seconds_nonneg; [lia|]. pose proof (sound_interval p Hp). lia.
  - rewrite <- (burst_exact p Hp). apply fmin_le_l.
Qed.

Lemma take_ok b p now : sound_policy p -> bucket_ok p b -> bucket_ok p (take b p now).2.
Proof.
  intros Hp Hb. pose proof (refill_ok b p now Hp Hb) as [H1 H2]. unfold take.
  destruct (Qle_bool 1 _) eqn:E; [|done]. apply Qle_bool_iff in E. split; simpl.
  - apply round_nonneg. lra.
  - rewrite <- (round_int (Policy_Burst p)) by (pose proof (sound_burst p Hp); lia).
    apply round_mono; lra.
Qed.

Lemma full_ok p now : sound_policy p -> bucket_ok p (mkBucket (float_of_int (Policy_Burst p)) now).
Proof.
  intros Hp. split; simpl; rewrite (burst_exact p Hp); [|lra].
  change 0%Q with (inject_Z 0). rewrite <- Zle_Qle. pose proof (sound_burst p Hp). lia.
Qed.
End BucketLemmas.

Lemma truncate_range q z : (0 <= q)%Q -> (q <= inject_Z z)%Q -> 0 <= truncate q <= z.
Proof.
  destruct q as [n d]. unfold truncate, Qle. simpl. rewrite !Z.mul_1_r. intros H1 H2. split.
  - apply Z.quot_pos; lia.
  - rewrite Z.quot_div_nonneg by lia. apply Z.div_le_upper_bound; lia.
Qed.

Lemma roundUpToSecond_spec wait : wait <= 2 ^ 53 ->
  (exists n, 1 <= n /\ roundUpToSecond wait = n * Second) /\
  wait <= roundUpToSecond wait <= Z.max Second (wait + Second - 1).
Proof.
  intros Hw. unfold roundUpToSecond. change Second with 1000000000 in *.
  destruct (Z.leb_spec wait 1000000000) as [|Hlt]; [split; [exists 1|]; lia|].
  unfold Truncate. change (1000000000 <=? 0) with false. cbv iota.
  rewrite Z.rem_mod_nonneg by lia.
  pose proof (Z.div_mod wait 1000000000 ltac:(lia)) as D.
  pose proof (Z.mod_pos_bound wait 1000000000 ltac:(lia)) as B.
  destruct (Z.ltb_spec (wait - wait mod 1000000000) wait).
  - rewrite wrap64_id by (unfold in_int64, MinInt64, MaxInt64; lia).
    split; [exists (wait / 1000000000 + 1)|]; lia.
  - split; [exists (wait / 1000000000)|]; lia.
Qed.

Lemma refused_wait `{FloatConversion} b p now : sound_policy p -> bucket_ok p b ->
  Allowed (take b p now).1 = false ->
  (exists n, 1 <= n /\ RetryAfter (take b p now).1 = n * Second) /\
  RetryAfter (take b p now).1 <= Z.max Second (tokenInterval p + Second - 1).
Proof.
  intros Hp Hb. destruct (refill_ok b p now Hp Hb) as [R1 R2]. unfold take.
  destruct (Qle_bool 1 _) eqn:E; [done|]. intros _. simpl.
  apply not_true_iff_false in E. rewrite Qle_bool_iff in E.
  pose proof (sound_interval p Hp) as Hi.
  assert (float_of_int (tokenInterval p) == inject_Z (tokenInterval p))%Q as Ei by (apply round_int; lia).
  assert (0 <= inject_Z (tokenInterval p))%Q as Pi by (rewrite <- (Zle_Qle 0); lia).
  set (q := fmul _ _). assert (0 <= truncate q <= tokenInterval p) as Hq.
  { assert (0 <= fsub 1 (refill b p now) /\ fsub 1 (refill b p now) <= 1)%Q as [M1 M2].
    { split; [apply round_nonneg; lra|]. apply Qle_trans with (round (inject_Z 1)); [|by vm_compute].
      apply round_mono; [|change (inject_Z 1) with 1%Q]; lra. }
    assert (0 <= fsub 1 (refill b p now) * float_of_int (tokenInterval p))%Q as M3
      by (apply Qmult_le_0_compat; [done | by rewrite Ei]).
    apply truncate_range; [by apply round_nonneg|].
    rewrite <- (round_int (tokenInterval p)) by lia. apply round_mono; [done|]. rewrite Ei.
    rewrite <- (Qmult_1_l (inject_Z (tokenInterval p))) at 2. by apply Qmult_le_compat_r. }
  unfold to_int64. replace ((MinInt64 <=? truncate q) && (truncate q <=? MaxInt64)) with true
    by (symmetry; rewrite andb_true_iff, !Z.leb_le; unfold MinInt64, MaxInt64; lia).
  destruct (roundUpToSecond_spec (truncate q)) as [He [_ Hm]]; [lia|]. split; [done|]. lia.
Qed.

(** ** The table of buckets *)

(** What the list says of the map: the identity and the key of each element. *)
Definition index (o : list Element) : list (nat * string) := (fun e => (element_id e, entry_key e)) <$> o.

Record table_wf (ix : list (nat * string)) (m : gmap string nat) (fresh : nat) : Prop := {
  table_ids : NoDup ix.*1;
  table_map : forall key id, m !! key = Some id <-> (id, key) ∈ ix;
  table_fresh : Forall (fun id => (id < fresh)%nat) ix.*1
}.

#[export] Instance table_wf_proper : Proper (Permutation ==> eq ==> eq ==> iff) table_wf.
Proof.
  assert (forall ix ix' m n, ix ≡ₚ ix' -> table_wf ix m n -> table_wf ix' m n) as Hd.
  { intros ix ix' m n Hp [H1 H2 H3]. constructor.
    - by rewrite <- Hp.
    - intros key id. by rewrite H2, Hp.
    - by rewrite <- Hp. }
  intros ix ix' Hp m _ <- n _ <-. split; by apply Hd.
Qed.

Lemma table_keys ix m fresh : table_wf ix m fresh -> NoDup ix.*2.
Proof.
  intros [H1 H2 _]. apply NoDup_fmap_2_strong; [|by eapply NoDup_fmap_1].
  intros [i k] [j k'] Hi Hj. simpl. intros <-. apply H2 in Hi, Hj. congruence.
Qed.

Lemma table_absent ix m fresh key : table_wf ix m fresh -> m !! key = None <-> key ∉ ix.*2.
Proof.
  intros [_ H2 _]. rewrite eq_None_not_Some. split; intros Hn Hk; apply Hn.
  - apply list_elem_of_fmap in Hk as ([i k] & -> & Hk). exists i. by apply H2.
  - destruct Hk as [i Hk]. apply H2 in Hk. apply list_elem_of_fmap. by exists (i, key).
Qed.

Lemma table_empty n : table_wf [] ∅ n.
Proof. constructor; [constructor | | constructor]. intros. rewrite lookup_empty, elem_of_nil. split; done. Qed.

Lemma table_push ix m fresh key : table_wf ix m fresh -> m !! key = None ->
  table_wf ((fresh, key) :: ix) (<[key := fresh]> m) (S fresh).
Proof.
  intros Hw Hn. destruct Hw as [H1 H2 H3]. rewrite Forall_forall in H3.
  assert (fresh ∉ ix.*1) as Hf by (intros Hf; apply H3 in Hf; lia). constructor.
  - by constructor.
  - intros k id. rewrite elem_of_cons. destruct (decide (k = key)) as [->|Hne].
    + rewrite lookup_insert_eq. split; [intros [= ->]; by left|]. intros [[= ->]|Hk]; [done|].
      apply H2 in Hk. congruence.
    + rewrite lookup_insert_ne, H2 by done. split; [by right|]. intros [[= _ ->]|Hk]; done.
  - constructor; [simpl; lia|]. apply Forall_forall. intros id Hid. apply H3 in Hid. lia.
Qed.

Lemma table_pop ix m fresh id key : table_wf ((id, key) :: ix) m fresh -> table_wf ix (delete key m) fresh.
Proof.
  intros [H1 H2 H3]. apply NoDup_cons in H1 as [H0 H1]. apply Forall_cons in H3 as [_ H3].
  constructor; [done | | done]. intros k i. destruct (decide (k = key)) as [->|Hne].
  - rewrite lookup_delete_eq. split; [done|]. intros Hi.
    assert (m !! key = Some i /\ m !! key = Some id) as [E1 E2]
      by (rewrite !H2, !elem_of_cons; split; auto).
    destruct H0. apply list_elem_of_fmap. exists (i, key). split; [simpl; congruence | done].
  - rewrite lookup_delete_ne, H2, elem_of_cons by done. split; [|by right].
    intros [[= _ ->]|Hi]; done.
Qed.

(** ** The limiter *)

(** Well-formed: list and map describe the same buckets, one per key, at most
    [capacity] of them, and no bucket is in debt or holds more than a burst. *)
Record limiter_wf (l : Limiter) : Prop := {
  wf_policy : sound_policy (policy l);
  wf_capacity : 1 <= capacity l;
  wf_bound : Z.of_nat (Len l) <= capacity l;
  wf_table : table_wf (index (order l)) (buckets l) (fresh_id l);
  wf_buckets : Forall (bucket_ok (policy l) ∘ entry_bucket) (order l)
}.

(** The same configuration, and no element that was not there. *)
Definition shrunk (l l' : Limiter) : Prop :=
  policy l' = policy l /\ capacity l' = capacity l /\ ttl l' = ttl l /\ order l' `prefix_of` order l.

#[export] Instance shrunk_pre : PreOrder shrunk.
Proof.
  split.
  - done.
  - intros l1 l2 l3 (? & ? & ? & ?) (? & ? & ? & ?). split_and!; try congruence. by etransitivity.
Qed.

Lemma removelast_snoc {A} (l : list A) x : removelast (l ++ [x]) = l.
Proof. rewrite removelast_app by done. by rewrite app_nil_r. Qed.

Lemma remove_back_spec l oldest : limiter_wf l -> last (order l) = Some oldest ->
  limiter_wf (remove_back l oldest) /\ shrunk l (remove_back l oldest) /\
  Len l = S (Len (remove_back l oldest)).
Proof.
  intros [H1 H2 H3 H4 H5] (o & Eo)%last_Some. unfold remove_back, shrunk, Len in *. simpl. rewrite Eo in *.
  rewrite removelast_snoc, length_app in *. simpl in *. split; [|split; [|lia]].
  - constructor; simpl; [done | done | unfold Len; simpl; lia | | by apply Forall_app in H5 as [? _]].
    eapply (table_pop _ _ _ (element_id oldest)). eapply table_wf_proper; [|done|done|exact H4].
    unfold index. rewrite fmap_app. apply Permutation_cons_append.
  - split_and!; try done. by eexists.
Qed.

Lemma expire_loop_spec now fuel l : limiter_wf l ->
  limiter_wf (expire_loop fuel l now) /\ shrunk l (expire_loop fuel l now).
Proof.
  revert l. induction fuel as [|fuel IH]; intros l Hl; simpl; [done|].
  destruct (last (order l)) as [oldest|] eqn:E; [|done].
  destruct (_ <? ttl l); [done|]. destruct (remove_back_spec _ _ Hl E) as (Hw & Hs & _).
  destruct (IH _ Hw) as [? ?]. split; [done|]. by etransitivity.
Qed.

Lemma expire_spec l now : limiter_wf l -> limiter_wf (expire l now) /\ shrunk l (expire l now).
Proof. intros Hl. unfold expire. destruct (_ <=? 0); [done|]. by apply expire_loop_spec. Qed.

Lemma evict_loop_spec fuel l : limiter_wf l -> (Len l <= fuel)%nat ->
  limiter_wf (evict_loop fuel l) /\ shrunk l (evict_loop fuel l) /\
  Z.of_nat (Len (evict_loop fuel l)) < capacity l /\
  (Z.of_nat (Len l) < capacity l -> evict_loop fuel l = l).
Proof.
  revert l. induction fuel as [|fuel IH]; intros l Hl Hf; simpl.
  { pose proof (wf_capacity l Hl). split_and!; (done || lia). }
  destruct (last (order l)) as [oldest|] eqn:E.
  2:{ apply last_None in E. unfold Len. rewrite E. pose proof (wf_capacity l Hl). split_and!; (done || simpl; lia). }
  fold (Len l). destruct (Z.leb_spec (capacity l) (Z.of_nat (Len l))) as [Hc|Hc]; [|split_and!; done || lia].
  destruct (remove_back_spec _ _ Hl E) as (Hw & Hs & Hn).
  destruct (IH _ Hw) as (I1 & I2 & I3 & I4); [lia|]. split_and!; [done | by etransitivity | | lia].
  destruct Hs as (_ & Ec & _). by rewrite Ec in I3.
Qed.

Lemma find_index o id key : NoDup (index o).*1 -> (id, key) ∈ index o -> exists e o',
  List.find (has_id id) o = Some e /\ element_id e = id /\ entry_key e = key /\
  o ≡ₚ e :: o' /\ List.filter (fun x => negb (has_id id x)) o = o' /\ Forall (fun x => element_id x <> id) o'.
Proof.
  unfold index. rewrite <- list_fmap_compose. induction o as [|x o IH]; simpl; intros Hn Hin.
  { by apply not_elem_of_nil in Hin. }
  apply NoDup_cons in Hn as [Hx Hn].
  destruct (has_id id x) eqn:E; unfold has_id in E.
  - apply Nat.eqb_eq in E. exists x, o. simpl.
    assert (Forall (fun y => element_id y <> id) o) as Hf.
    { apply Forall_forall. intros y Hy Ey. apply Hx. apply list_elem_of_fmap. exists y. simpl. by rewrite Ey. }
    split_and!; try done.
    + apply elem_of_cons in Hin as [[= _ ->]|Hin]; [done|].
      destruct Hx. apply list_elem_of_fmap in Hin as (y & [= -> ->] & Hy). apply list_elem_of_fmap. by exists y.
    + clear -Hf. induction Hf as [|y l Hy _ IH]; simpl; [done|]. unfold has_id at 1.
      destruct (Nat.eqb_spec (element_id y) id); [done|]. simpl. by rewrite IH.
  - apply Nat.eqb_neq in E. apply elem_of_cons in Hin as [[= -> ->]|Hin]; [done|].
    destruct (IH Hn Hin) as (e & o' & F1 & F2 & F3 & F4 & F5 & F6). exists e, (x :: o'). simpl.
    split_and!; try done.
    + rewrite F4. apply Permutation_swap.
    + by rewrite F5.
    + by constructor.
Qed.

Definition full (p : Policy) (now : Time) : bucket := mkBucket (float_of_int (Policy_Burst p)) now.

Definition same_settings (l l' : Limiter) : Prop :=
  policy l' = policy l /\ capacity l' = capacity l /\ ttl l' = ttl l.

(** The bucket is not due for expiry. *)
Definition active (l : Limiter) (now : Time) (e : Element) : Prop :=
  ttl l <= 0 \/ Sub now (updatedAt (entry_bucket e)) < ttl l.

Lemma expire_loop_keeps now e fuel l : e ∈ order l -> Sub now (updatedAt (entry_bucket e)) < ttl l ->
  e ∈ order (expire_loop fuel l now).
Proof.
  revert l. induction fuel as [|fuel IH]; intros l He Ha; simpl; [done|].
  destruct (last (order l)) as [oldest|] eqn:E; [|done].
  destruct (Z.ltb_spec (Sub now (updatedAt (entry_bucket oldest))) (ttl l)); [done|].
  apply IH; [|done]. apply last_Some in E as (o & Eo). unfold remove_back. simpl. rewrite Eo in *.
  rewrite removelast_snoc. apply elem_of_app in He as [? | ->%list_elem_of_singleton]; [done | lia].
Qed.

(** Expiry drops idle buckets only. *)
Lemma expire_keeps l now e : e ∈ order l -> active l now e -> e ∈ order (expire l now).
Proof.
  intros He Ha. unfold expire. destruct (Z.leb_spec (ttl l) 0); [done|]. destruct Ha; [lia|]. by apply expire_loop_keeps.
Qed.

(** One call: the buckets [old] that survive expiry and eviction, the bucket
    [b] the call spends from, and the rest, which it leaves alone. *)
Record allowed_from `{FloatConversion} (l : Limiter) (now : Time) (key : string) (d : Decision) (l' : Limiter)
    (b : bucket) (old rest : list Element) : Prop := {
  af_decision : d = (take b (policy l) now).1;
  af_order : exists id, order l' = mkElement id key (take b (policy l) now).2 :: rest;
  af_others : Forall (fun e => entry_key e <> key) rest;
  af_settings : same_settings l l';
  af_old : old `prefix_of` order l;
  af_bucket : (exists e, old ≡ₚ e :: rest /\ entry_key e = key /\ entry_bucket e = b) \/
              (b = full (policy l) now /\ old = rest);
  af_kept : Z.of_nat (Len l) < capacity l \/ key ∈ (index (order (expire l now))).*2 -> old = order (expire l now)
}.

Section LimiterLemmas.
Context `{FloatConversion}.

Lemma take_at_front l e rest now : order l = e :: rest ->
  Forall (fun x => element_id x <> element_id e) rest ->
  take_at l (element_id e) now =
  Some ((take (entry_bucket e) (policy l) now).1,
        set_order l (mkElement (element_id e) (entry_key e) (take (entry_bucket e) (policy l) now).2 :: rest)
          (buckets l) (fresh_id l)).
Proof.
  intros Eo Hr. unfold take_at. rewrite Eo. simpl. unfold has_id at 1. rewrite Nat.eqb_refl.
  destruct (take _ _ _) as [d b]. simpl. unfold has_id at 1. rewrite Nat.eqb_refl.
  do 4 f_equal. clear Eo. induction Hr as [|x r Hx _ IH]; simpl; [done|].
  unfold has_id at 1. destruct (Nat.eqb_spec (element_id x) (element_id e)); [done|]. by rewrite IH.
Qed.

Lemma index_keys o key : Forall (fun e => entry_key e <> key) o <-> key ∉ (index o).*2.
Proof.
  unfold index. rewrite <- list_fmap_compose, Forall_forall. split.
  - intros Hf (e & -> & He)%list_elem_of_fmap. by apply (Hf e).
  - intros Hn e He Ek. apply Hn. apply list_elem_of_fmap. by exists e.
Qed.

(** Spending from the element at the front keeps the limiter well-formed. *)
Lemma spend_front l e rest now m fresh : sound_policy (policy l) -> 1 <= capacity l ->
  Z.of_nat (S (length rest)) <= capacity l -> table_wf (index (e :: rest)) m fresh ->
  Forall (bucket_ok (policy l) ∘ entry_bucket) (e :: rest) ->
  limiter_wf (set_order l (mkElement (element_id e) (entry_key e) (take (entry_bucket e) (policy l) now).2 :: rest) m fresh).
Proof.
  intros Hp Hc Hlen Ht [He Hr]%Forall_cons. constructor; simpl; [done..|].
  constructor; [|done]. simpl. by apply take_ok.
Qed.

Lemma Allow_found l now key id : limiter_wf l -> buckets l !! key = Some id ->
  exists e rest d l', take_at (MoveToFront l id) id now = Some (d, l') /\ limiter_wf l' /\
    same_settings l l' /\ order l ≡ₚ e :: rest /\ entry_key e = key /\ Forall (fun x => entry_key x <> key) rest /\
    d = (take (entry_bucket e) (policy l) now).1 /\
    order l' = mkElement id key (take (entry_bucket e) (policy l) now).2 :: rest.
Proof.
  intros [H1 H2 H3 H4 H5] Hk. apply (table_map _ _ _ H4) in Hk.
  destruct (find_index _ _ _ (table_ids _ _ _ H4) Hk) as (e & rest & F1 & F2 & F3 & F4 & F5 & F6).
  exists e, rest. unfold MoveToFront. rewrite F1, F5.
  set (l1 := set_order l (e :: rest) (buckets l) (fresh_id l)).
  rewrite <- F2, (take_at_front l1 e rest now eq_refl) by (by rewrite F2).
  do 2 eexists. split; [reflexivity|].
  assert (table_wf (index (e :: rest)) (buckets l) (fresh_id l)) as Ht.
  { eapply table_wf_proper; [|done|done|exact H4]. unfold index. by rewrite F4. }
  split_and!; try done.
  - apply spend_front; simpl; try done; [|by rewrite <- F4].
    unfold Len in H3. by rewrite F4 in H3.
  - apply index_keys. apply table_keys in Ht. simpl in Ht. rewrite F3 in Ht. by apply NoDup_cons in Ht as [? _].
  - simpl. by rewrite F3.
Qed.

Lemma Allow_absent l now key : limiter_wf l -> buckets l !! key = None -> Z.of_nat (Len l) < capacity l ->
  exists d l', (let '(id, l1) := PushFront l key (full (policy l) now) in take_at l1 id now) = Some (d, l') /\
    limiter_wf l' /\ same_settings l l' /\ Forall (fun x => entry_key x <> key) (order l) /\
    d = (take (full (policy l) now) (policy l) now).1 /\
    order l' = mkElement (fresh_id l) key (take (full (policy l) now) (policy l) now).2 :: order l.
Proof.
  intros [H1 H2 H3 H4 H5] Hk Hlen. cbn [PushFront].
  set (e := mkElement (fresh_id l) key (full (policy l) now)).
  set (l1 := set_order l (e :: order l) (<[key := fresh_id l]> (buckets l)) (S (fresh_id l))).
  change (take_at _ _ _) with (take_at l1 (element_id e) now).
  pose proof (table_push _ _ _ _ H4 Hk) as Ht.
  rewrite (take_at_front l1 e (order l) now eq_refl).
  2:{ pose proof (table_ids _ _ _ Ht) as Hn. simpl in Hn. apply NoDup_cons in Hn as [Hn _].
      apply Forall_forall. intros x Hx Ex. apply Hn. unfold index. rewrite <- list_fmap_compose.
      apply list_elem_of_fmap. by exists x. }
  do 2 eexists. split; [reflexivity|]. split_and!; try done.
  - apply spend_front; simpl; try done; [unfold Len in Hlen; lia|].
    constructor; [|done]. by apply full_ok.
  - apply index_keys. by eapply table_absent.
Qed.

Lemma Allow_spec l now key : limiter_wf l -> exists d l' b old rest,
  Allow l now key = Some (d, l') /\ limiter_wf l' /\ allowed_from l now key d l' b old rest.
Proof.
  intros Hl. destruct (expire_spec l now Hl) as [Hw (E1 & E2 & E3 & E4)]. unfold Allow.
  set (l0 := expire l now) in *. destruct (buckets l0 !! key) as [id|] eqn:Ek.
  - destruct (Allow_found l0 now key id Hw Ek) as (e & rest & d & l' & A1 & A2 & (S1 & S2 & S3) & A4 & A5 & A6 & A7 & A8).
    exists d, l', (entry_bucket e), (order l0), rest. rewrite E1 in *. split_and!; [done | done|].
    constructor; try done; [by eexists | by split_and!; congruence | left; by exists e].
  - destruct (evict_loop_spec (length (order l0)) l0 Hw) as (V1 & (W1 & W2 & W3 & W4) & V3 & V4); [done|].
    fold (evictIfFull l0) in *. set (l1 := evictIfFull l0) in *.
    assert (buckets l1 !! key = None) as Ek1.
    { apply (table_absent _ _ _ _ (wf_table _ V1)). apply (table_absent _ _ _ _ (wf_table _ Hw)) in Ek.
      destruct W4 as [k Ek']. rewrite Ek' in Ek. unfold index in Ek. rewrite fmap_app, fmap_app in Ek.
      intros Hin. apply Ek. apply elem_of_app. by left. }
    destruct (Allow_absent l1 now key V1 Ek1) as (d & l' & A1 & A2 & (S1 & S2 & S3) & A4 & A5 & A6); [lia|].
    exists d, l', (full (policy l1) now), (order l1), (order l1). rewrite W1, E1 in *.
    split_and!; [done | done|]. constructor; try done.
    + by eexists.
    + split_and!; congruence.
    + by etransitivity.
    + by right.
    + intros [Hc|Hin]; [|exfalso].
      * fold l0. rewrite V4; [done|]. rewrite E2. apply prefix_length in E4. unfold Len in *. lia.
      * by apply (table_absent _ _ _ _ (wf_table _ Hw)) in Ek.
Qed.
End LimiterLemmas.

(** ** The specification: a bucket of its own per key, for ever *)

Definition private_allow `{FloatConversion} (p : Policy) (m : gmap string bucket) (now : Time) (key : string) :
    Decision * gmap string bucket :=
  let '(d, b) := take (default (full p now) (m !! key)) p now in (d, <[key := b]> m).

Fixpoint private_calls `{FloatConversion} (p : Policy) (m : gmap string bucket) (trace : list (Time * string)) :
    list Decision :=
  match trace with
  | [] => []
  | (now, key) :: rest => let '(d, m) := private_allow p m now key in d :: private_calls p m rest
  end.

(** The limiter holds the buckets of the specification, and all of those that
    the calls to come will use. *)
Record follows (l : Limiter) (m : gmap string bucket) (keys : list string) : Prop := {
  fo_held : forall e, e ∈ order l -> m !! entry_key e = Some (entry_bucket e);
  fo_needed : forall k, k ∈ keys -> is_Some (m !! k) -> exists e, e ∈ order l /\ entry_key e = k
}.

Lemma follows_size l m keys key : limiter_wf l -> follows l m keys -> key ∈ keys ->
  (Len l < size ({[key]} ∪ dom m))%nat \/ exists e, e ∈ order l /\ entry_key e = key.
Proof.
  intros Hl [Hh Hn] Hk. destruct (decide (key ∈ (index (order l)).*2)) as [Hi|Hi].
  { right. unfold index in Hi. rewrite <- list_fmap_compose in Hi. apply list_elem_of_fmap in Hi as (e & -> & ?). by exists e. }
  left. unfold lt. pose proof (table_keys _ _ _ (wf_table l Hl)) as Hnd.
  assert (size (list_to_set (C := gset string) (key :: (index (order l)).*2)) = S (Len l)) as <-.
  { rewrite size_list_to_set by (by constructor). unfold index, Len. simpl. by rewrite !length_fmap. }
  apply subseteq_size. simpl. apply union_mono_l. intros k Hin%elem_of_list_to_set.
  unfold index in Hin. rewrite <- list_fmap_compose in Hin. apply list_elem_of_fmap in Hin as (e & -> & He).
  apply elem_of_dom. exists (entry_bucket e). by apply Hh.
Qed.

(** One call on limiter and specification alike, when the limiter drops no
    bucket that is still to be used. *)
Lemma private_step `{FloatConversion} l m now key keys : limiter_wf l -> follows l m (key :: keys) ->
  (forall e, e ∈ order l -> entry_key e ∈ key :: keys -> active l now e) ->
  Z.of_nat (size ({[key]} ∪ dom m)) <= capacity l ->
  exists l', Allow l now key = Some ((private_allow (policy l) m now key).1, l') /\ limiter_wf l' /\
    same_settings l l' /\ follows l' (private_allow (policy l) m now key).2 keys.
Proof.
  intros Hl Hf Ha Hc. pose proof Hf as [Hh Hn]. destruct (Allow_spec l now key Hl) as (d & l' & b & old & rest & HA & Hw & Haf).
  destruct Haf as [Ed [id Eo] Hrest Hs Hpre Hb Hk].
  assert (forall k, k ∈ key :: keys -> is_Some (m !! k) -> exists e, e ∈ old /\ entry_key e = k) as Hkept.
  { assert (old = order (expire l now)) as ->.
    { apply Hk. destruct (follows_size l m _ key Hl Hf) as [?|(e & He & Ek)]; [by left | left; lia | right].
      unfold index. rewrite <- list_fmap_compose. apply list_elem_of_fmap. exists e. split; [done|].
      apply expire_keeps; [done|]. apply Ha; [done|]. rewrite Ek. by left. }
    intros k Hin (e & He & <-)%(Hn k Hin). exists e. split; [|done]. apply expire_keeps; [done | by apply Ha]. }
  assert (forall e, e ∈ old -> m !! entry_key e = Some (entry_bucket e)) as Hold
    by (intros e He; apply Hh; by eapply elem_of_prefix).
  assert (default (full (policy l) now) (m !! key) = b) as Eb.
  { destruct Hb as [(e & Ho & Ek & <-)|[-> Eold]].
    - rewrite <- Ek, Hold; [done|]. rewrite Ho. by left.
    - replace (m !! key) with (@None bucket); [done|]. symmetry. apply eq_None_not_Some.
      intros (e & He & Ek)%Hkept; [|by left]. rewrite Eold in He. rewrite Forall_forall in Hrest. by apply (Hrest e). }
  assert (forall e, e ∈ rest -> e ∈ old) as Hsub
    by (intros e He; destruct Hb as [(e0 & -> & _)|[_ ->]]; [by right | done]).
  exists l'. unfold private_allow. rewrite Eb. destruct (take b (policy l) now) as [d0 b'] eqn:Et. simpl in *. subst d.
  split_and!; [done..|]. rewrite Forall_forall in Hrest. constructor; rewrite Eo.
  - intros e [-> | He]%elem_of_cons; [by rewrite lookup_insert_eq|].
    rewrite lookup_insert_ne by (intros E; by apply (Hrest e)). by apply Hold, Hsub.
  - intros k Hin Hm. destruct (decide (k = key)) as [->|Hne]; [eexists; split; [by left | done]|].
    rewrite lookup_insert_ne in Hm by done. destruct (Hkept k) as (e & He & Ek); [by right | done |].
    exists e. split; [|done]. right. destruct Hb as [(e0 & Ho & Ek0 & _)|[_ <-]]; [|done].
    rewrite Ho in He. apply elem_of_cons in He as [->|He]; [congruence | done].
Qed.

(** A key last used at [u] is not left alone too long: each call up to its next
    one, that one included, comes less than the idle time after [u]. A key that
    has no next call may be left alone. *)
Fixpoint back_in_time (idle : Duration) (u : Time) (key : string) (trace : list (Time * string)) : bool :=
  match trace with
  | [] => true
  | (now, k) :: rest =>
      ((now - u <? idle) || bool_decide (key ∉ k :: rest.*2)) && ((k =s? key) || back_in_time idle u key rest)
  end.

(** Nobody idles out between two of its calls. *)
Fixpoint never_idle (idle : Duration) (trace : list (Time * string)) : bool :=
  match trace with
  | [] => true
  | (now, key) :: rest => back_in_time idle now key rest && never_idle idle rest
  end.

(** The same of the buckets so far. *)
Definition still_active (idle : Duration) (m : gmap string bucket) (trace : list (Time * string)) : Prop :=
  forall k b, m !! k = Some b -> back_in_time idle (updatedAt b) k trace = true.

Lemma still_active_now idle m now key trace k b : still_active idle m ((now, key) :: trace) -> m !! k = Some b ->
  k ∈ key :: trace.*2 -> now - updatedAt b < idle.
Proof.
  intros Hs Hk Hin. specialize (Hs k b Hk). simpl in Hs. apply andb_prop in Hs as [[?%Z.ltb_lt|Hn%bool_decide_eq_true]%orb_prop _]; done.
Qed.

Lemma still_active_next idle m now key b trace : never_idle idle ((now, key) :: trace) = true ->
  still_active idle m ((now, key) :: trace) -> updatedAt b = now -> still_active idle (<[key := b]> m) trace.
Proof.
  intros [Hn _]%andb_prop Hs <- k b' Hk. destruct (decide (k = key)) as [->|Hne].
  - rewrite lookup_insert_eq in Hk. by injection Hk as <-.
  - rewrite lookup_insert_ne in Hk by done. specialize (Hs k b' Hk). simpl in Hs.
    apply andb_prop in Hs as [_ [E%String.eqb_eq|?]%orb_prop]; congruence.
Qed.

Lemma same_instant_never_idle idle now keys : 0 < idle -> never_idle idle ((fun k => (now, k)) <$> keys) = true.
Proof.
  intros Hi. assert (now - now <? idle = true) as E by (apply Z.ltb_lt; lia).
  induction keys as [|key keys IH]; [done|]. rewrite fmap_cons. cbn [never_idle]. rewrite IH, andb_true_r. clear IH.
  induction keys as [|k keys IH]; [done|]. rewrite fmap_cons. cbn [back_in_time]. by rewrite E, IH, orb_true_r.
Qed.

Lemma updatedAt_take `{FloatConversion} b p now : updatedAt (take b p now).2 = now.
Proof. unfold take. by destruct (Qle_bool _ _). Qed.

Lemma private_allow_spec `{FloatConversion} p m now key :
  (private_allow p m now key).2 = <[key := (take (default (full p now) (m !! key)) p now).2]> m.
Proof. unfold private_allow. by destruct (take _ _ _). Qed.

Lemma calls_private `{FloatConversion} trace : forall l m, limiter_wf l -> follows l m trace.*2 ->
  Z.of_nat (size (list_to_set trace.*2 ∪ dom m)) <= capacity l ->
  ttl l <= 0 \/ never_idle (ttl l) trace = true /\ still_active (ttl l) m trace ->
  exists l', calls l trace = Some (private_calls (policy l) m trace, l') /\ limiter_wf l'.
Proof.
  induction trace as [|[now key] trace IH]; intros l m Hl Hr Hc Hw; simpl; [by exists l|].
  destruct (private_step l m now key trace.*2 Hl Hr) as (l1 & -> & Hl1 & (S1 & S2 & S3) & Hr1).
  - intros e He Hin. destruct (Z.le_gt_cases (ttl l) 0); [by left|]. right. destruct Hw as [|[_ Hw]]; [lia|].
    assert (now - updatedAt (entry_bucket e) < ttl l).
    { eapply still_active_now; [exact Hw | by apply Hr | done]. }
    unfold Sub, MinInt64, MaxInt64. lia.
  - etransitivity; [|exact Hc]. apply inj_le. apply subseteq_size. simpl. set_solver.
  - simpl. pose proof (private_allow_spec (policy l) m now key) as Em.
    destruct (private_allow (policy l) m now key) as [d m1] eqn:E. simpl in *.
    destruct (IH l1 m1 Hl1 Hr1) as (l' & -> & Hl').
    + rewrite S2, Em, dom_insert_L. etransitivity; [|exact Hc]. apply inj_le. apply subseteq_size. simpl. set_solver.
    + rewrite S3, Em. destruct Hw as [Hw|[Hn Hs]]; [by left | right]. split; [by apply andb_prop in Hn as [_ ?]|].
      eapply still_active_next; [exact Hn | exact Hs | by rewrite updatedAt_take].
    + exists l'. by rewrite S1.
Qed.

Lemma New_wf p opts name l : New p opts name = Ok l -> Policy_Burst p <= 2 ^ 53 -> tokenInterval p <= 2 ^ 53 ->
  limiter_wf l /\ (forall keys, follows l ∅ keys) /\ policy l = p /\ capacity l = Options_Capacity opts /\ ttl l = Options_TTL opts.
Proof.
  unfold New. intros HN Hb Hi. destruct (Policy_Validate p name) eqn:Ev; [done|].
  apply Policy_Validate_ok in Ev as (V1 & _ & V3).
  destruct (Z.ltb_spec (Options_Capacity opts) 1); [done|]. destruct (_ <? 0); [done|].
  injection HN as <-. split_and!; try done.
  - constructor; simpl; [by constructor | done | unfold Len; simpl; lia | apply table_empty | constructor].
  - intros keys. constructor; [intros e He; by apply not_elem_of_nil in He|]. intros k _ [x Hx]. by rewrite lookup_empty in Hx.
Qed.

(** At one instant a bucket pays for as many calls as it holds tokens. *)
Lemma private_instant `{FloatConversion} p now key keys : sound_policy p -> forall m j,
  0 <= j -> updatedAt (default (full p now) (m !! key)) = now ->
  (tokens (default (full p now) (m !! key)) == inject_Z j)%Q -> j <= Policy_Burst p ->
  let ds := private_calls p m ((fun k => (now, k)) <$> keys) in
  Z.of_nat (length (List.filter (fun kd => (kd.1 =s? key) && Allowed kd.2) (combine keys ds))) =
  Z.min (Z.of_nat (count_occ String.string_dec keys key)) j.
Proof.
  intros Hp. induction keys as [|k keys IH]; intros m j Hj Hu Ht Hb; [simpl; lia|]. cbn -[Z.of_nat Z.min].
  unfold private_allow. destruct (String.string_dec k key) as [->|Hne].
  - set (b := default _ _) in *. assert (refill b p now = tokens b) as Er.
    { unfold refill, Sub. rewrite Hu, Z.sub_diag.
      by change (Z.max MinInt64 (Z.min MaxInt64 0) >? 0) with false. }
    unfold take. rewrite Er. cbn -[Z.of_nat Z.min]. destruct (Qle_bool 1 (tokens b)) eqn:E; cbn -[Z.of_nat Z.min].
    + apply Qle_bool_iff in E. rewrite Ht in E. change 1%Q with (inject_Z 1) in E. rewrite <- Zle_Qle in E.
      rewrite String.eqb_refl. cbn -[Z.of_nat Z.min]. rewrite !Nat2Z.inj_succ, (IH _ (j - 1)); [lia | lia | | |lia];
        rewrite lookup_insert_eq; simpl; [done|].
      unfold fsub. rewrite <- (round_int (j - 1)) by (pose proof (sound_burst p Hp); lia).
      apply round_eq; rewrite Ht; unfold Z.sub; rewrite ?inject_Z_plus; change 1%Q with (inject_Z 1);
        change 0%Q with (inject_Z 0); rewrite ?inject_Z_opp; [|reflexivity].
      unfold Qminus. rewrite <- inject_Z_opp, <- inject_Z_plus, <- Zle_Qle. lia.
    + apply not_true_iff_false in E. rewrite Qle_bool_iff, Ht in E. change 1%Q with (inject_Z 1) in E.
      rewrite <- Zle_Qle in E. rewrite String.eqb_refl. cbn -[Z.of_nat Z.min].
      rewrite (IH _ j); rewrite ?lookup_insert_eq; simpl; try done; lia.
  - destruct (take _ _ _) as [d b'] eqn:Et. cbn -[Z.of_nat Z.min].
    replace (k =s? key) with false by (symmetry; by apply String.eqb_neq). cbn -[Z.of_nat Z.min].
    apply IH; rewrite ?lookup_insert_ne; done.
Qed.

Lemma table_size ix m fresh : table_wf ix m fresh -> size m = length ix.
Proof.
  intros Hw. rewrite <- size_dom.
  assert (dom m = list_to_set (C := gset string) ix.*2) as ->.
  { apply set_eq. intros k. rewrite elem_of_dom, elem_of_list_to_set, list_elem_of_fmap. split.
    - intros [i Hi%(table_map _ _ _ Hw)]. by exists (i, k).
    - intros ([i k'] & -> & Hi). exists i. by apply (table_map _ _ _ Hw). }
  rewrite size_list_to_set by (by eapply table_keys). by rewrite length_fmap.
Qed.

(** What every refusal of a limiter tells its caller. *)
Definition honest (p : Policy) (d : Decision) : Prop :=
  Allowed d = false ->
  (exists n, 1 <= n /\ RetryAfter d = n * Second) /\ RetryAfter d <= Z.max Second (tokenInterval p + Second - 1).

Lemma calls_spec `{FloatConversion} trace : forall l, limiter_wf l -> exists ds l',
  calls l trace = Some (ds, l') /\ limiter_wf l' /\ same_settings l l' /\ length ds = length trace /\
  Forall (honest (policy l)) ds.
Proof.
  induction trace as [|[now key] trace IH]; intros l Hl; simpl; [by exists [], l|].
  destruct (Allow_spec l now key Hl) as (d & l1 & b & old & rest & -> & Hw & Haf).
  destruct (IH l1 Hw) as (ds & l' & E & Hw' & (T1 & T2 & T3) & Hlen & Hds). simpl. rewrite E. simpl.
  destruct Haf as [-> _ _ (S1 & S2 & S3) Hold Hb _]. rewrite S1 in Hds.
  eexists _, l'. split_and!; [done | done | split_and!; congruence | simpl; by rewrite Hlen|].
  constructor; [|done]. intros Hd. apply refused_wait; [apply Hl | | done].
  destruct Hb as [(e & Ho & _ & <-)|[-> _]]; [|apply full_ok, Hl].
  pose proof (wf_buckets l Hl) as Hf. rewrite Forall_forall in Hf. apply (Hf e).
  eapply elem_of_prefix; [|exact Hold]. rewrite Ho. by left.
Qed.

(** ** Properties *)

(** C29: [New] and any sequence of [Allow] calls, at whatever clock readings,
    return and leave the limiter well-formed: the list and the map hold the
    same buckets, one per key, never more than the capacity, and every bucket
    holds between zero tokens and one burst. *)
Theorem limiter_memory_is_bounded `{FloatConversion} p opts name l trace :
  New p opts name = Ok l -> Policy_Burst p <= 2 ^ 53 -> tokenInterval p <= 2 ^ 53 ->
  exists ds l', calls l trace = Some (ds, l') /\ length ds = length trace /\ limiter_wf l' /\
    Z.of_nat (Len l') <= Options_Capacity opts /\ size (buckets l') = Len l'.
Proof.
  intros HN Hb Hi. destruct (New_wf _ _ _ _ HN Hb Hi) as (Hl & _ & _ & Hc & _).
  destruct (calls_spec trace l Hl) as (ds & l' & E & Hw & (_ & S2 & _) & Hlen & _).
  exists ds, l'. split_and!; [done..| |].
  - rewrite <- Hc, <- S2. apply Hw.
  - rewrite (table_size _ _ _ (wf_table _ Hw)). unfold index. by rewrite length_fmap.
Qed.

(** A refusal tells the caller to wait a whole number of seconds, at least
    one and no more than the time one token takes to accrue, rounded up. *)
Theorem refusal_names_whole_seconds `{FloatConversion} p opts name l trace d :
  New p opts name = Ok l -> Policy_Burst p <= 2 ^ 53 -> tokenInterval p <= 2 ^ 53 ->
  d ∈ default [] (fst <$> calls l trace) -> Allowed d = false ->
  (exists n, 1 <= n /\ RetryAfter d = n * Second) /\ RetryAfter d <= Z.max Second (tokenInterval p + Second - 1).
Proof.
  intros HN Hb Hi. destruct (New_wf _ _ _ _ HN Hb Hi) as (Hl & _ & <- & _).
  destruct (calls_spec trace l Hl) as (ds & l' & -> & _ & _ & _ & Hds). simpl.
  intros Hd. rewrite Forall_forall in Hds. by apply Hds.
Qed.

(** C28: As long as the distinct keys fit the capacity and nobody idles out
    between two of its calls, the bounded table decides exactly as one private
    bucket per key, kept for ever, would: callers do not affect each other.
    The trace may last as long as it will; what counts is the time since a
    key's last call, and a key that does not come back may expire. *)
Theorem limiter_refines_private_buckets `{FloatConversion} p opts name l trace :
  New p opts name = Ok l -> Policy_Burst p <= 2 ^ 53 -> tokenInterval p <= 2 ^ 53 ->
  Z.of_nat (size (list_to_set (C := gset string) trace.*2)) <= Options_Capacity opts ->
  Options_TTL opts = 0 \/ never_idle (Options_TTL opts) trace = true ->
  fst <$> calls l trace = Some (private_calls p ∅ trace).
Proof.
  intros HN Hb Hi Hc Ht. destruct (New_wf _ _ _ _ HN Hb Hi) as (Hl & Hr & Ep & Ec & Et).
  destruct (calls_private trace l ∅ Hl (Hr _)) as (l' & -> & _); [| |by rewrite Ep].
  - rewrite dom_empty_L, union_empty_r_L. by rewrite Ec.
  - rewrite Et. destruct Ht as [->|Ht]; [by left | right]. split; [done|]. intros k b Hk. by rewrite lookup_empty in Hk.
Qed.

(** Of the calls that arrive at one instant, in any interleaving of keys
    that fit the capacity, each key gets exactly its burst through, or all its
    calls when they are fewer. *)
Theorem one_instant_allows_exactly_the_burst `{FloatConversion} p opts name l now keys key :
  New p opts name = Ok l -> Policy_Burst p <= 2 ^ 53 -> tokenInterval p <= 2 ^ 53 ->
  Z.of_nat (size (list_to_set (C := gset string) keys)) <= Options_Capacity opts ->
  exists ds l', calls l ((fun k => (now, k)) <$> keys) = Some (ds, l') /\
    Z.of_nat (length (List.filter (fun kd => (kd.1 =s? key) && Allowed kd.2) (combine keys ds))) =
    Z.min (Z.of_nat (count_occ String.string_dec keys key)) (Policy_Burst p).
Proof.
  intros HN Hb Hi Hc. destruct (New_wf _ _ _ _ HN Hb Hi) as (Hl & Hr & Ep & Ec & Et).
  assert (sound_policy p) as Hp by (rewrite <- Ep; apply Hl).
  assert (((fun k => (now, k)) <$> keys).*2 = keys) as E2
    by (rewrite <- list_fmap_compose; apply list_fmap_id).
  destruct (calls_private ((fun k => (now, k)) <$> keys) l ∅ Hl (Hr _)) as (l' & -> & _).
  - rewrite E2, dom_empty_L, union_empty_r_L. by rewrite Ec.
  - destruct (Z.le_gt_cases (ttl l) 0); [by left|]. right. split; [by apply same_instant_never_idle|].
    intros k b Hk. by rewrite lookup_empty in Hk.
  - eexists _, l'. split; [reflexivity|]. rewrite Ep. pose proof (sound_burst p Hp).
    apply (private_instant p now key keys Hp ∅); rewrite ?lookup_empty; simpl; try done; [lia|].
    by apply burst_exact.
Qed.

(** ** Witnesses *)

#[local] Instance sample_float : FloatConversion := fun z => z.

Definition sample_policy : Policy := mkPolicy 3 (3 * Second).
Definition sample_options : Options := mkOptions 2 (10 * Minute).
Definition sample_limiter : Limiter := mkLimiter sample_policy 2 (10 * Minute) [] ∅ 0.

(** Two callers taking turns, then a third whose arrival evicts one. *)
Definition sample_turns : list (Time * string) :=
  [(0, "a"); (0, "b"); (0, "a"); (0, "a"); (0, "a"); (Second, "a")].
Definition sample_trace : list (Time * string) := sample_turns ++ [(2 * Second, "c")].

Lemma limiter_memory_is_bounded_witness : exists ds l',
  calls sample_limiter sample_trace = Some (ds, l') /\ length ds = 7%nat /\ limiter_wf l' /\
  Z.of_nat (Len l') <= 2 /\ size (buckets l') = Len l'.
Proof.
  apply (limiter_memory_is_bounded sample_policy sample_options "TEST"); [reflexivity | by vm_compute..].
Defined.

Lemma refusal_names_whole_seconds_witness :
  (exists n, 1 <= n /\ Second = n * Second) /\ Second <= Z.max Second (tokenInterval sample_policy + Second - 1).
Proof.
  apply (refusal_names_whole_seconds sample_policy sample_options "TEST" sample_limiter sample_trace
    (mkDecision false Second)); [reflexivity | by vm_compute | by vm_compute | | reflexivity].
  apply (list_elem_of_lookup_2 _ 4). vm_compute. reflexivity.
Defined.

(** Longer than the idle time of ten minutes: "a" is back in time again and
    again, also after a call that was refused; "b" is not back and its bucket
    expires on the way. *)
Definition sample_visits : list (Time * string) :=
  sample_turns ++ [(6 * Minute, "a"); (12 * Minute, "a"); (18 * Minute, "a")].

Example absent_caller_expires :
  (fun r => entry_key <$> order r.2) <$> calls sample_limiter sample_turns = Some ["a"; "b"] /\
  (fun r => entry_key <$> order r.2) <$> calls sample_limiter sample_visits = Some ["a"].
Proof. by vm_compute. Qed.

Lemma limiter_refines_private_buckets_witness :
  fst <$> calls sample_limiter sample_visits = Some (private_calls sample_policy ∅ sample_visits).
Proof.
  apply (limiter_refines_private_buckets sample_policy sample_options "TEST");
    [reflexivity | by vm_compute | by vm_compute | by vm_compute | right; by vm_compute].
Defined.

Lemma one_instant_allows_exactly_the_burst_witness : exists ds l',
  calls sample_limiter ((fun k => (0, k)) <$> ["a"; "b"; "a"; "a"; "a"]) = Some (ds, l') /\
  Z.of_nat (length (List.filter (fun kd => (kd.1 =s? "a") && Allowed kd.2) (combine ["a"; "b"; "a"; "a"; "a"] ds))) = 3.
Proof.
  apply (one_instant_allows_exactly_the_burst sample_policy sample_options "TEST" sample_limiter 0);
    [reflexivity | by vm_compute..].
Defined.

(** The clock is read before the lock is taken, so a call can be served after
    one whose reading is later. It moves the bucket's time back, and the next
    call is credited for the same seconds again: the three tokens of three
    seconds are spent twice. *)
Example late_clock_reading_credits_twice :
  map Allowed <$> (fst <$> calls sample_limiter ((fun t => (t, "a")) <$>
    [0; 0; 0; 3 * Second; 3 * Second; 3 * Second; 0; 3 * Second; 3 * Second; 3 * Second])) =
  Some [true; true; true; true; true; true; false; true; true; true].
Proof. vm_compute. reflexivity. Qed.

(** 0.3 / 0.1 is less than 3 in [float64]: after a whole refill interval of
    300 ms an empty bucket of three pays for two calls. *)
Example interval_short_of_a_burst :
  map Allowed <$> (fst <$> calls (mkLimiter (mkPolicy 3 (300 * Millisecond)) 2 0 [] ∅ 0) ((fun t => (t, "a")) <$>
    [0; 0; 0; 300 * Millisecond; 300 * Millisecond; 300 * Millisecond])) =
  Some [true; true; true; true; true; false].
Proof. vm_compute. reflexivity. Qed.
