(* ===== verification/Metrics.v ===== *)
(** * Metrics: [internal/platform/metrics]

    The catalogue of instruments, the closed vocabularies of their labels, and
    what the observers, collectors and samplers record. A provider that exports
    the measurements is a parameter: here a measurement is a [call] of an
    instrument. *)

From S2P Require Import Prelude GoLib Float.
From Stdlib Require Import QArith_base.
#[local] Open Scope Z_scope.
From S2P Require Ratelimit.
From S2P Require Amqp.
From S2P Require Outbox.
From S2P Require Consumer.
From S2P Require Delivery.
From S2P Require Receive.
From S2P Require CheckoutApp.
From S2P Require OrderApp.
#[local] Existing Instance Outbox.Outcome_eq_dec.
#[local] Existing Instance Consumer.Disposition_eq_dec.

(** ** [labels.go] *)

Definition LabelProvider : string := "provider".
Definition LabelEventKind : string := "event.kind".
Definition LabelOutcome : string := "outcome".
Definition LabelReason : string := "reason".
Definition LabelOperation : string := "operation".
Definition LabelEntity : string := "entity".
Definition LabelFrom : string := "from".
Definition LabelTo : string := "to".
Definition LabelStage : string := "stage".
Definition LabelDisposition : string := "disposition".
Definition LabelDestination : string := "destination".
Definition LabelQueue : string := "queue".
Definition LabelState : string := "state".
Definition LabelSampler : string := "sampler".
Definition LabelLimiter : string := "limiter".
Definition LabelRouteClass : string := "route.class".

Definition Other : string := "other".

(** Samplers ([collectors.go]), limiters and route classes. *)
Definition SamplerBacklog : string := "backlog".
Definition SamplerBroker : string := "broker".
Definition LimiterClient : string := "client".
Definition LimiterCredential : string := "credential".
Definition LimiterWebhook : string := "webhook".
Definition LimiterHealth : string := "health".
Definition RouteClassHealth : string := "health".
Definition RouteClassDocs : string := "docs".
Definition RouteClassBusiness : string := "business".
Definition RouteClassOperations : string := "operations".
Definition RouteClassWebhook : string := "webhook".

Definition statuses : list string :=
  ["pending"; "processing"; "succeeded"; "failed"; "cancelled"; "expired"; "partially_refunded"; "refunded"; "created"; "paid"].

(** A set of words; listed once each. *)
Definition set (values : list string) : list string := remove_dups values.

Definition allowed : gmap string (list string) := list_to_map [
  (LabelProvider, set ["stripe"]);
  (LabelEventKind, set ["checkout.completed"; "checkout.payment_succeeded"; "checkout.payment_failed"; "checkout.expired"]);
  (LabelOutcome, set ["accepted"; "duplicate"; "ignored"; "success"; "error"; "published"; "retrying"; "failed"; "lease_lost"; "empty"]);
  (LabelReason, set ["invalid_signature"; "storage"; "internal"; "not_confirmed"; "not_routed"; "permanent"; "transient"; "lease_lost";
     "already_processed"; "stale_event"; "incompatible_api_version"; "unreadable_payload"; "missing_reference";
     "aggregate_not_found"; "reference_mismatch"; "amount_mismatch"; "state_conflict"; "invariant_violated"; "unclassified"]);
  (LabelOperation, set ["create_order"; "create_checkout"]);
  (LabelEntity, set ["order"; "payment"; "attempt"]);
  (LabelFrom, set statuses);
  (LabelTo, set statuses);
  (LabelStage, set ["lease"; "settlement"]);
  (LabelDisposition, set ["done"; "retry"; "dead"; "unrecorded"]);
  (LabelDestination, set ["retry"; "dead_letter"]);
  (LabelState, set ["in_use"; "idle"]);
  (LabelSampler, set [SamplerBacklog; SamplerBroker]);
  (LabelLimiter, set [LimiterClient; LimiterCredential; LimiterWebhook; LimiterHealth]);
  (LabelRouteClass, set [RouteClassHealth; RouteClassDocs; RouteClassBusiness; RouteClassOperations; RouteClassWebhook])
].

Definition Normalize (key value : string) : string :=
  match allowed !! key with
  | None => Other
  | Some values => if bool_decide (value ∈ values) then value else Other
  end.

Definition attribute : Type := (string * string)%type.
Definition Attr (key value : string) : attribute := (key, Normalize key value).

(** [sort.Strings]. *)
Definition sorted (l : list string) : list string := merge_sort String.le l.
Definition AllowedValues (key : string) : list string := sorted (default [] (allowed !! key)).
Definition LabelKeys : list string := sorted (LabelQueue :: (map_to_list allowed).*1).

(** ** [catalogue.go] *)

Inductive Kind : Type := KindCounter | KindHistogram | KindGauge | KindObservableCounter.

Record Instrument := mkInstrument {
  Instrument_Name : string; Description : string; Unit_ : string; Instrument_Kind : Kind; Labels : list string }.

(** Instrument names. *)
Definition WebhookReceived : string := "payment.webhook.received".
Definition WebhookInvalidSignature : string := "payment.webhook.invalid_signature".
Definition WebhookDuplicate : string := "payment.webhook.duplicate".
Definition WebhookReceiveDuration : string := "payment.webhook.receive.duration".
Definition WebhookReceiveFailures : string := "payment.webhook.receive.failures".
Definition ProviderRequestDuration : string := "payment.provider.request.duration".
Definition ProviderRequestFailures : string := "payment.provider.request.failures".
Definition IdempotencyReplays : string := "payment.idempotency.replays".
Definition IdempotencyConflicts : string := "payment.idempotency.conflicts".
Definition StateTransitions : string := "payment.state.transitions".
Definition OutboxPublishDuration : string := "outbox.publish.duration".
Definition OutboxPublishFailures : string := "outbox.publish.failures".
Definition OutboxRelayCycleTime : string := "outbox.relay.cycle.duration".
Definition OutboxRelayCycleFailure : string := "outbox.relay.cycle.failures".
Definition OutboxRelayStuck : string := "outbox.relay.stuck".
Definition OutboxRelayAbandoned : string := "outbox.relay.abandoned".
Definition OutboxRelayLeaseLost : string := "outbox.relay.lease_lost".
Definition ConsumerHandleDuration : string := "payment.consumer.handle.duration".
Definition ConsumerNoOps : string := "payment.consumer.no_ops".
Definition ConsumerFailures : string := "payment.consumer.failures".
Definition ConsumerRetries : string := "payment.consumer.retries".
Definition ConsumerDeadLetters : string := "payment.consumer.dead_letters".
Definition BrokerRedeliveries : string := "rabbitmq.consumer.redeliveries".
Definition BrokerRepublished : string := "rabbitmq.consumer.republished".
Definition BrokerRejected : string := "rabbitmq.consumer.rejected".
Definition BrokerUnacknowledged : string := "rabbitmq.consumer.unacknowledged".
Definition OutboxPending : string := "outbox.pending".
Definition OutboxOldestAge : string := "outbox.oldest.age".
Definition InboxPending : string := "webhook.inbox.pending".
Definition InboxFailed : string := "webhook.inbox.failed".
Definition InboxOldestAge : string := "webhook.inbox.oldest.age".
Definition QueueDepth : string := "rabbitmq.queue.depth".
Definition PoolConnections : string := "database.pool.connections".
Definition PoolMaxOpen : string := "database.pool.max_open".
Definition PoolWaits : string := "database.pool.waits".
Definition SamplerAge : string := "metrics.sampler.age".
Definition SamplerFailures : string := "metrics.sampler.failures".
Definition HTTPRateLimited : string := "http.server.rate_limited".

Definition catalogue : list Instrument := [
  mkInstrument WebhookReceived "Provider events received, by outcome."
    "{event}" KindCounter [LabelProvider; LabelEventKind; LabelOutcome];
  mkInstrument WebhookInvalidSignature "Webhook requests rejected because the signature could not be verified."
    "{request}" KindCounter [LabelProvider];
  mkInstrument WebhookDuplicate "Provider events received again after being stored."
    "{event}" KindCounter [LabelProvider; LabelEventKind];
  mkInstrument WebhookReceiveDuration "Time to verify and durably store one provider event."
    "s" KindHistogram [LabelProvider; LabelOutcome];
  mkInstrument WebhookReceiveFailures "Webhook requests that ended without a stored event."
    "{request}" KindCounter [LabelProvider; LabelReason];
  mkInstrument ProviderRequestDuration "Time spent in one payment provider request."
    "s" KindHistogram [LabelProvider; LabelOperation; LabelOutcome];
  mkInstrument ProviderRequestFailures "Payment provider requests that failed, by normalized outcome."
    "{request}" KindCounter [LabelProvider; LabelOperation; LabelOutcome];
  mkInstrument IdempotencyReplays "Requests answered from an earlier result because the idempotency key was seen before."
    "{request}" KindCounter [LabelOperation];
  mkInstrument IdempotencyConflicts "Requests refused because the idempotency key was reused with a different payload."
    "{request}" KindCounter [LabelOperation];
  mkInstrument StateTransitions "State transitions the consumer committed, by entity and normalized states."
    "{transition}" KindCounter [LabelEntity; LabelFrom; LabelTo];
  mkInstrument OutboxPublishDuration "Time the broker took to confirm or refuse one outbox message."
    "s" KindHistogram [LabelOutcome];
  mkInstrument OutboxPublishFailures "Outbox publications that did not end confirmed, by normalized reason."
    "{message}" KindCounter [LabelReason];
  mkInstrument OutboxRelayCycleTime "Duration of one relay cycle: lease, publish and settle a batch."
    "s" KindHistogram [LabelOutcome];
  mkInstrument OutboxRelayCycleFailure "Relay cycles that failed, by stage."
    "{cycle}" KindCounter [LabelStage];
  mkInstrument OutboxRelayStuck "Outbox messages reported as stuck after the configured attempt threshold."
    "{message}" KindCounter [];
  mkInstrument OutboxRelayAbandoned "Outbox messages abandoned after a permanent failure."
    "{message}" KindCounter [];
  mkInstrument OutboxRelayLeaseLost "Outbox outcomes that could not be recorded because the lease had expired."
    "{message}" KindCounter [];
  mkInstrument ConsumerHandleDuration "Time to apply one delivered event, including recording a failure."
    "s" KindHistogram [LabelDisposition];
  mkInstrument ConsumerNoOps "Delivered events that changed nothing, by reason."
    "{event}" KindCounter [LabelReason];
  mkInstrument ConsumerFailures "Delivered events whose handling failed, by normalized reason."
    "{event}" KindCounter [LabelReason];
  mkInstrument ConsumerRetries "Delivered events scheduled for another attempt."
    "{event}" KindCounter [];
  mkInstrument ConsumerDeadLetters "Delivered events sent to the dead-letter queue, by normalized reason."
    "{event}" KindCounter [LabelReason];
  mkInstrument BrokerRedeliveries "Deliveries the broker flagged as redelivered."
    "{message}" KindCounter [];
  mkInstrument BrokerRepublished "Messages republished to a retry tier or the dead letter, with the copy confirmed."
    "{message}" KindCounter [LabelDestination; LabelQueue];
  mkInstrument BrokerRejected "Messages whose body could not be read and were dead-lettered directly."
    "{message}" KindCounter [];
  mkInstrument BrokerUnacknowledged "Messages left unacknowledged for the broker to redeliver."
    "{message}" KindCounter [];
  mkInstrument OutboxPending "Outbox messages not yet published: pending, plus leased ones whose outcome is not recorded."
    "{message}" KindGauge [];
  mkInstrument OutboxOldestAge "Age of the oldest unpublished outbox message."
    "s" KindGauge [];
  mkInstrument InboxPending "Inbox events not yet applied: pending, plus ones being processed."
    "{event}" KindGauge [];
  mkInstrument InboxFailed "Inbox events marked failed and waiting for an operator."
    "{event}" KindGauge [];
  mkInstrument InboxOldestAge "Age of the oldest inbox event not yet applied."
    "s" KindGauge [];
  mkInstrument QueueDepth "Messages ready in each known queue, as last sampled from the broker."
    "{message}" KindGauge [LabelQueue];
  mkInstrument PoolConnections "PostgreSQL pool connections, by state."
    "{connection}" KindGauge [LabelState];
  mkInstrument PoolMaxOpen "Configured ceiling of open PostgreSQL connections."
    "{connection}" KindGauge [];
  mkInstrument PoolWaits "Times a caller waited for a PostgreSQL connection."
    "{wait}" KindObservableCounter [];
  mkInstrument SamplerAge "Seconds since a background sampler last collected successfully."
    "s" KindGauge [LabelSampler];
  mkInstrument SamplerFailures "Background sample attempts that failed or timed out."
    "{sample}" KindObservableCounter [LabelSampler];
  mkInstrument HTTPRateLimited "Requests refused with 429 by a rate limiter, by limiter and route class."
    "{request}" KindCounter [LabelLimiter; LabelRouteClass]
].

Definition Catalogue : list Instrument := catalogue.
Definition lookup_instrument (name : string) : option Instrument :=
  List.find (fun i => Instrument_Name i =s? name) catalogue.

(** ** [metrics.go] *)

Record Metrics := mkMetrics { counters : gset string; histograms : gset string; gauges : gset string }.

(** The provider creates an instrument or refuses with an error. *)
Definition Provider : Type := string -> option error.

Definition create (refuses : Provider) (i : Instrument) (m : Metrics) : res Metrics :=
  let name := Instrument_Name i in
  match Instrument_Kind i with
  | KindCounter =>
      match refuses name with
      | Some err => Err (wrapf ("create counter " +:+ name) err)
      | None => Ok (mkMetrics ({[name]} ∪ counters m) (histograms m) (gauges m))
      end
  | KindHistogram =>
      match refuses name with
      | Some err => Err (wrapf ("create histogram " +:+ name) err)
      | None => Ok (mkMetrics (counters m) ({[name]} ∪ histograms m) (gauges m))
      end
  | KindGauge =>
      match refuses name with
      | Some err => Err (wrapf ("create gauge " +:+ name) err)
      | None => Ok (mkMetrics (counters m) (histograms m) ({[name]} ∪ gauges m))
      end
  | KindObservableCounter => Ok m
  end.

Fixpoint create_all (refuses : Provider) (instruments : list Instrument) (m : Metrics) : res Metrics :=
  match instruments with
  | [] => Ok m
  | i :: instruments => try m := create refuses i m in create_all refuses instruments m
  end.

Definition NewWithProvider (refuses : Provider) : res Metrics := create_all refuses catalogue (mkMetrics ∅ ∅ ∅).

(** The no-op provider refuses nothing. *)
Definition NewNoop : res Metrics := NewWithProvider (fun _ => None).

(** A measurement: a counter moved, a histogram or a gauge given a value, a
    callback reporting a value when the exporter asks. *)
Inductive call : Type :=
| add (name : string) (delta : Z) (attrs : list attribute)
| record (name : string) (value : Q) (attrs : list attribute)
| set_ (name : string) (value : Q) (attrs : list attribute)
| observed (name : string) (value : Q) (attrs : list attribute).

(** An instrument that was not created drops the measurement. *)
Definition kept (m : Metrics) (c : call) : bool :=
  match c with
  | add name _ _ => bool_decide (name ∈ counters m)
  | record name _ _ => bool_decide (name ∈ histograms m)
  | set_ name _ _ => bool_decide (name ∈ gauges m)
  | observed _ _ _ => true
  end.

Definition emit (m : Metrics) (calls : list call) : list call := List.filter (kept m) calls.

(** ** [observers.go] *)

Definition Observed : Type := list call.

Definition receiveFailureReason (err : error) : string :=
  if Is err Receive.ErrInvalidSignature then "invalid_signature"
  else if Is err Receive.ErrPayloadTooLarge then "storage"
  else "internal".

Definition Received (receipt : Receive.Receipt) : Observed :=
  let provider := Attr LabelProvider (Receive.Receipt_Provider receipt) in
  let kind := Attr LabelEventKind (Receive.Receipt_Kind receipt) in
  let seconds := Ratelimit.Seconds (Receive.Receipt_Duration receipt) in
  match Receive.Receipt_Err receipt with
  | Some err =>
      let reason := receiveFailureReason err in
      [add WebhookReceiveFailures 1 [provider; Attr LabelReason reason]] ++
      (if reason =s? "invalid_signature" then [add WebhookInvalidSignature 1 [provider]] else []) ++
      [record WebhookReceiveDuration seconds [provider; Attr LabelOutcome "error"]]
  | None =>
      let outcome := Attr LabelOutcome (Receive.Receipt_Outcome receipt) in
      [add WebhookReceived 1 [provider; kind; outcome]; record WebhookReceiveDuration seconds [provider; outcome]] ++
      (if Receive.Receipt_Outcome receipt =s? Receive.OutcomeDuplicate then [add WebhookDuplicate 1 [provider; kind]] else [])
  end.

Definition ProviderCalled (c : CheckoutApp.ProviderCall) : Observed :=
  let provider := Attr LabelProvider (CheckoutApp.PC_Provider c) in
  let operation := Attr LabelOperation (CheckoutApp.PC_Operation c) in
  let outcome := match CheckoutApp.PC_Err c with Some _ => "error" | None => "success" end in
  let normalized := Attr LabelOutcome outcome in
  record ProviderRequestDuration (Ratelimit.Seconds (CheckoutApp.PC_Duration c)) [provider; operation; normalized] ::
  match CheckoutApp.PC_Err c with
  | Some _ => [add ProviderRequestFailures 1 [provider; operation; normalized]]
  | None => []
  end.

Definition CheckoutObserver (n : CheckoutApp.Notification) : Observed :=
  match n with
  | CheckoutApp.ProviderCalled c => ProviderCalled c
  | CheckoutApp.Replayed => [add IdempotencyReplays 1 [Attr LabelOperation CheckoutApp.ProviderOperationCreateCheckout]]
  | CheckoutApp.Conflicted => [add IdempotencyConflicts 1 [Attr LabelOperation CheckoutApp.ProviderOperationCreateCheckout]]
  end.

Definition OrderObserver (n : OrderApp.Notification) : Observed :=
  match n with
  | OrderApp.Replayed => [add IdempotencyReplays 1 [Attr LabelOperation "create_order"]]
  | OrderApp.Conflicted => [add IdempotencyConflicts 1 [Attr LabelOperation "create_order"]]
  end.

(** [errors.Is] and [errors.As] find nothing in a missing error. *)
Definition publishFailureReason (outcome : Outbox.Outcome) (cause : option error) : string :=
  let caused f := match cause with Some err => f err | None => false end in
  if decide (outcome = Outbox.OutcomeLeaseLost) then "lease_lost"
  else if caused (fun err => Is err Outbox.ErrNotRouted) then "not_routed"
  else if caused (fun err => Is err Outbox.ErrNotConfirmed) then "not_confirmed"
  else if caused Outbox.IsPermanent then "permanent"
  else "transient".

Definition PublicationSettled (p : Outbox.Publication) : Observed :=
  let outcome := Outbox.Publication_Outcome p in
  record OutboxPublishDuration (Ratelimit.Seconds (Outbox.Publication_Duration p))
    [Attr LabelOutcome (Outbox.Outcome_String outcome)] ::
  if decide (outcome = Outbox.OutcomePublished) then []
  else [add OutboxPublishFailures 1 [Attr LabelReason (publishFailureReason outcome (Outbox.Publication_Cause p))]].

Definition cycleOutcome (c : Outbox.Cycle) : string :=
  match Outbox.Cycle_Err c with
  | Some _ => "failed"
  | None => if Outbox.Empty (Outbox.Cycle_Result c) then "empty" else "published"
  end.

Definition CycleCompleted (c : Outbox.Cycle) : Observed :=
  record OutboxRelayCycleTime (Ratelimit.Seconds (Outbox.Cycle_Duration c)) [Attr LabelOutcome (cycleOutcome c)] ::
  match Outbox.Cycle_Err c with
  | Some _ => [add OutboxRelayCycleFailure 1 [Attr LabelStage (Outbox.CycleStage_String (Outbox.Cycle_Stage c))]]
  | None => []
  end.

Definition RelayObserver (n : Outbox.Notification) : Observed :=
  match n with
  | Outbox.Stuck _ _ _ => [add OutboxRelayStuck 1 []]
  | Outbox.Abandoned _ _ _ => [add OutboxRelayAbandoned 1 []]
  | Outbox.LeaseLost _ _ => [add OutboxRelayLeaseLost 1 []]
  | Outbox.PublicationSettled p => PublicationSettled p
  | Outbox.CycleCompleted c => CycleCompleted c
  end.

Definition consumerFailureReason (cause : option error) : string :=
  match cause with
  | None => "unclassified"
  | Some err =>
      if Is err Consumer.ErrIncompatibleAPIVersion then "incompatible_api_version"
      else if Is err Consumer.ErrUnreadablePayload then "unreadable_payload"
      else if Is err Consumer.ErrMissingReference then "missing_reference"
      else if Is err Consumer.ErrAggregateNotFound then "aggregate_not_found"
      else if Is err Consumer.ErrReferenceMismatch then "reference_mismatch"
      else if Is err Consumer.ErrAmountMismatch then "amount_mismatch"
      else if Is err Consumer.ErrStateConflict then "state_conflict"
      else if Is err Consumer.ErrInvariantViolated then "invariant_violated"
      else "unclassified"
  end.

Definition transition_call (t : Consumer.Transition) : call :=
  add StateTransitions 1 [Attr LabelEntity (Consumer.Transition_Entity t);
    Attr LabelFrom (Consumer.Transition_From t); Attr LabelTo (Consumer.Transition_To t)].

Definition Handled (report : Consumer.Report) : Observed :=
  let disposition := match Consumer.Report_Err report with
                     | None => Consumer.Disposition_String (Consumer.Report_Disposition report)
                     | Some _ => "unrecorded"
                     end in
  record ConsumerHandleDuration (Ratelimit.Seconds (Consumer.Report_Duration report)) [Attr LabelDisposition disposition] ::
  match Consumer.Report_Err report with
  | Some _ => [add ConsumerFailures 1 [Attr LabelReason "storage"]]
  | None =>
      if decide (Consumer.Report_Disposition report <> Consumer.DispositionDone)
      then [add ConsumerFailures 1 [Attr LabelReason (consumerFailureReason (Consumer.Report_Cause report))]]
      else if negb (Consumer.Report_Applied report)
      then [add ConsumerNoOps 1 [Attr LabelReason
              (if Consumer.Report_AlreadyProcessed report then "already_processed" else "stale_event")]]
      else transition_call <$> Consumer.Report_Transitions report
  end.

Definition ConsumerObserver (n : Consumer.Notification) : Observed :=
  match n with
  | Consumer.Applied _ _ | Consumer.NoOp _ _ => []
  | Consumer.Retrying _ _ _ => [add ConsumerRetries 1 []]
  | Consumer.DeadLettered _ _ cause => [add ConsumerDeadLetters 1 [Attr LabelReason (consumerFailureReason (Some cause))]]
  | Consumer.Handled _ report => Handled report
  end.

(** The observer of the limiters exists without metrics too. *)
Definition RateLimitObserver (metrics : option Metrics) (limiter routeClass : string) : Observed :=
  match metrics with
  | None => []
  | Some _ => [add HTTPRateLimited 1 [Attr LabelLimiter limiter; Attr LabelRouteClass routeClass]]
  end.

(** ** [broker.go] *)

Definition destinationKind (queue : string) : string :=
  if queue =s? Amqp.DeadLetterQueue then "dead_letter" else "retry".

Definition queueAttr (queues : list string) (queue : string) : attribute :=
  (LabelQueue, if bool_decide (queue ∈ queues) then queue else Other).

Definition BrokerObserver (queues : list string) (n : Delivery.Notification) : Observed :=
  match n with
  | Delivery.Rejected _ _ => [add BrokerRejected 1 []]
  | Delivery.Republished _ destination _ =>
      [add BrokerRepublished 1 [Attr LabelDestination (destinationKind destination); queueAttr queues destination]]
  | Delivery.Failed _ _ => [add BrokerUnacknowledged 1 []]
  | Delivery.RedeliveredTo _ => [add BrokerRedeliveries 1 []]
  end.

(** ** [collectors.go] *)

Record Measurement := mkMeasurement { M_Instrument : string; M_Value : Q; M_Queue : string }.
Definition Sample : Type := list Measurement.
Definition Collector : Type := res Sample.

(** The answers of the two readings. *)
Definition NewBacklogCollector (outbox : res (Z * Duration)) (inbox : res (Z * Z * Duration)) : Collector :=
  try (pending, oldest) := res_wrap (wrapf "sample outbox backlog") outbox in
  try (inboxPending, inboxFailed, inboxOldest) := res_wrap (wrapf "sample inbox backlog") inbox in
  Ok [mkMeasurement OutboxPending (float_of_int pending) "";
      mkMeasurement OutboxOldestAge (Ratelimit.Seconds oldest) "";
      mkMeasurement InboxPending (float_of_int inboxPending) "";
      mkMeasurement InboxFailed (float_of_int inboxFailed) "";
      mkMeasurement InboxOldestAge (Ratelimit.Seconds inboxOldest) ""].

Definition NewQueueDepthCollector (read : list string -> res (gmap string Z)) (queues : list string) : Collector :=
  try depths := res_wrap (wrapf "sample queue depths") (read queues) in
  Ok (omap (fun queue => (fun depth => mkMeasurement QueueDepth (float_of_int depth) queue) <$> depths !! queue) queues).

(** What the pool reports. *)
Record DBStats := mkDBStats { InUse : Z; Idle : Z; MaxOpenConnections : Z; WaitCount : Z }.

(** The callback: it reads the pool when the exporter asks. *)
Definition pool_callback (stats : DBStats) : Observed :=
  [observed PoolConnections (inject_Z (InUse stats)) [(LabelState, "in_use")];
   observed PoolConnections (inject_Z (Idle stats)) [(LabelState, "idle")];
   observed PoolMaxOpen (inject_Z (MaxOpenConnections stats)) [];
   observed PoolWaits (inject_Z (WaitCount stats)) []].

(** The callback registered, nothing without a pool. The provider may refuse
    an observable instrument or the callback. *)
Definition RegisterPoolMetrics (refuses : Provider) (refuses_callback : option error) (db : bool)
    : res (option (DBStats -> Observed)) :=
  if negb db then Ok None else
  match refuses PoolConnections with
  | Some err => Err (wrapf "register pool gauge" err)
  | None =>
  match refuses PoolMaxOpen with
  | Some err => Err (wrapf "register pool ceiling gauge" err)
  | None =>
  match refuses PoolWaits with
  | Some err => Err (wrapf "register pool wait counter" err)
  | None =>
  match refuses_callback with
  | Some err => Err (wrapf "register pool callback" err)
  | None => Ok (Some pool_callback)
  end end end end.

(** ** [samplers.go] *)

Definition DefaultSampleInterval : Duration := 15 * Second.
Definition DefaultSampleTimeout : Duration := 5 * Second.

Record SamplerConfig := mkSamplerConfig { Sampler_Interval : Duration; Sampler_Timeout : Duration }.

Definition SamplerConfig_withDefaults (c : SamplerConfig) : SamplerConfig :=
  let interval := if Sampler_Interval c <=? 0 then DefaultSampleInterval else Sampler_Interval c in
  mkSamplerConfig interval
    (if (Sampler_Timeout c <=? 0) || (Sampler_Timeout c >? interval) then DefaultSampleTimeout else Sampler_Timeout c).

Record Sampler := mkSampler {
  Sampler_Name : string; Sampler_config : SamplerConfig;
  failures : Z; lastOK : Time; started : Time }.

Definition NewSampler (name : string) (config : SamplerConfig) (now : Time) : Sampler :=
  mkSampler name (SamplerConfig_withDefaults config) 0 0 now.

Definition publish (m : Measurement) : call :=
  set_ (M_Instrument m) (M_Value m) (if M_Queue m =s? "" then [] else [(LabelQueue, M_Queue m)]).

(** One round. [ended] is the process's own context at its end, [now] the
    clock after the values were published; the log line of a failed round is
    left out. *)
Definition sample (s : Sampler) (collected : Collector) (ended : bool) (now : Time) : Sampler * Observed :=
  match collected with
  | Err _ =>
      if ended then (s, [])
      else (mkSampler (Sampler_Name s) (Sampler_config s) (wrap64 (failures s + 1)) (lastOK s) (started s), [])
  | Ok values =>
      (mkSampler (Sampler_Name s) (Sampler_config s) (failures s) now (started s), publish <$> values)
  end.

(** The rounds of a run: the first at once, one per tick. *)
Record Round := mkRound { Round_collected : Collector; Round_ended : bool; Round_now : Time }.

Fixpoint Run (s : Sampler) (rounds : list Round) : Sampler * Observed :=
  match rounds with
  | [] => (s, [])
  | r :: rounds =>
      let '(s, calls) := sample s (Round_collected r) (Round_ended r) (Round_now r) in
      let '(s, more) := Run s rounds in (s, calls ++ more)
  end.

Definition ageSeconds (s : Sampler) (now : Time) : Q :=
  let last := if IsZero (lastOK s) then started s else lastOK s in
  Ratelimit.Seconds (Sub now last).

(** The callback: the age and the failures at the time of an export. *)
Definition sampler_callback (s : Sampler) (now : Time) : Observed :=
  [observed SamplerAge (ageSeconds s now) [Attr LabelSampler (Sampler_Name s)];
   observed SamplerFailures (inject_Z (failures s)) [Attr LabelSampler (Sampler_Name s)]].

(** The callback registered, and the operation logged when the provider
    refuses one of its steps. *)
Definition registerObservers (refuses : Provider) (refuses_callback : option error)
    : option (Sampler -> Time -> Observed) * option string :=
  match refuses SamplerAge with
  | Some _ => (None, Some "register sampler age gauge")
  | None =>
  match refuses SamplerFailures with
  | Some _ => (None, Some "register sampler failure counter")
  | None =>
  match refuses_callback with
  | Some _ => (None, Some "register sampler callback")
  | None => (Some sampler_callback, None)
  end end end.

(** ** Specification: the catalogue bounds what is exported

    What the process tells its observers, its samplers and the callbacks of
    the exporter. *)
Inductive event : Type :=
| WebhookEvent (receipt : Receive.Receipt)
| CheckoutEvent (n : CheckoutApp.Notification)
| OrderEvent (n : OrderApp.Notification)
| RelayEvent (n : Outbox.Notification)
| ConsumerEvent (n : Consumer.Notification)
| BrokerEvent (n : Delivery.Notification)
| Refused (limiter routeClass : string)
| BacklogSampled (s : Sampler) (outbox : res (Z * Duration)) (inbox : res (Z * Z * Duration)) (ended : bool) (now : Time)
| DepthsSampled (s : Sampler) (read : list string -> res (gmap string Z)) (ended : bool) (now : Time)
| PoolRead (stats : DBStats)
| SamplerRead (s : Sampler) (now : Time).

(** [queues] is the declared topology. *)
Definition observe (metrics : Metrics) (queues : list string) (e : event) : Observed :=
  match e with
  | WebhookEvent receipt => Received receipt
  | CheckoutEvent n => CheckoutObserver n
  | OrderEvent n => OrderObserver n
  | RelayEvent n => RelayObserver n
  | ConsumerEvent n => ConsumerObserver n
  | BrokerEvent n => BrokerObserver queues n
  | Refused limiter routeClass => RateLimitObserver (Some metrics) limiter routeClass
  | BacklogSampled s outbox inbox ended now => (sample s (NewBacklogCollector outbox inbox) ended now).2
  | DepthsSampled s read ended now => (sample s (NewQueueDepthCollector read queues) ended now).2
  | PoolRead stats => pool_callback stats
  | SamplerRead s now => sampler_callback s now
  end.

Definition call_name (c : call) : string :=
  match c with add name _ _ | record name _ _ | set_ name _ _ | observed name _ _ => name end.
Definition call_attrs (c : call) : list attribute :=
  match c with add _ _ attrs | record _ _ attrs | set_ _ _ attrs | observed _ _ attrs => attrs end.
Definition fits (c : call) (k : Kind) : bool :=
  match c, k with
  | add _ _ _, KindCounter | record _ _ _, KindHistogram | set_ _ _ _, KindGauge => true
  | observed _ _ _, (KindGauge | KindObservableCounter) => true
  | _, _ => false
  end.

(** The values a key may carry, and the label sets of an instrument. *)
Definition values_of (queues : list string) (key : string) : list string :=
  Other :: (if key =s? LabelQueue then queues else AllowedValues key).
Fixpoint label_sets (queues : list string) (keys : list string) : list (list attribute) :=
  match keys with
  | [] => [[]]
  | key :: keys => value ← values_of queues key; rest ← label_sets queues keys; [(key, value) :: rest]
  end.
Definition series_in (queues : list string) (instruments : list Instrument) : list (string * list attribute) :=
  i ← instruments; (fun attrs => (Instrument_Name i, attrs)) <$> label_sets queues (Labels i).
Definition series : list string -> list (string * list attribute) := fun queues => series_in queues catalogue.

Definition admitted (queues : list string) (c : call) : Prop :=
  exists i, lookup_instrument (call_name c) = Some i /\ fits c (Instrument_Kind i) = true /\
    call_attrs c ∈ label_sets queues (Labels i).

(** ** Lemmas *)

Lemma AllowedValues_spec key value : value ∈ AllowedValues key <-> exists values, allowed !! key = Some values /\ value ∈ values.
Proof.
  unfold AllowedValues, sorted. rewrite merge_sort_Permutation. destruct (allowed !! key) as [values|]; simpl.
  - split; [by exists values | by intros (? & [= <-] & ?)].
  - split; [by intros ?%not_elem_of_nil | by intros (? & ? & _)].
Qed.

Lemma Normalize_value queues key value : key <> LabelQueue -> Normalize key value ∈ values_of queues key.
Proof.
  intros Hk. unfold values_of, Normalize. destruct (key =s? LabelQueue) eqn:E; [by apply String.eqb_eq in E|].
  destruct (allowed !! key) as [values|] eqn:E'; [|left]. case_bool_decide; [right | left].
  apply AllowedValues_spec. by exists values.
Qed.

Lemma label_sets_cons queues key keys value attrs : value ∈ values_of queues key -> attrs ∈ label_sets queues keys ->
  (key, value) :: attrs ∈ label_sets queues (key :: keys).
Proof. intros Hv Ha. cbn [label_sets]. apply list_elem_of_bind. exists value. split; [|done]. apply list_elem_of_bind. exists attrs. split; [by left | done]. Qed.

Lemma label_sets_nil queues : [] ∈ label_sets queues [].
Proof. by left. Qed.

Lemma length_bind_const {A B} (f : A -> list B) (n : nat) (l : list A) :
  (forall x, length (f x) = n) -> length (l ≫= f) = (length l * n)%nat.
Proof. intros Hf. induction l as [|x l IH]; [done|]. rewrite bind_cons, length_app, Hf, IH. done. Qed.

Lemma length_label_sets queues keys :
  length (label_sets queues keys) = foldr (fun key n => (length (values_of queues key) * n)%nat) 1%nat keys.
Proof.
  induction keys as [|key keys IH]; [done|]. cbn [label_sets foldr]. rewrite <- IH. apply length_bind_const. intros value.
  rewrite (length_bind_const _ 1%nat); [apply Nat.mul_1_r | done].
Qed.

Lemma length_values queues key :
  length (values_of queues key) = S (if key =s? LabelQueue then length queues else length (AllowedValues key)).
Proof. unfold values_of. by destruct (key =s? LabelQueue). Qed.

(** The number of series an instrument can have. *)
Definition series_of (queues : nat) (i : Instrument) : nat :=
  foldr (fun key n => (S (if key =s? LabelQueue then queues else length (AllowedValues key)) * n)%nat) 1%nat (Labels i).

Lemma length_series_in queues instruments :
  length (series_in queues instruments) = sum_list (series_of (length queues) <$> instruments).
Proof.
  induction instruments as [|i instruments IH]; [done|]. unfold series_in in *. rewrite bind_cons, length_app, IH, length_fmap.
  rewrite length_label_sets, fmap_cons. cbn [sum_list]. f_equal. unfold series_of. induction (Labels i) as [|key keys IHk]; [done|].
  cbn [foldr]. by rewrite length_values, IHk.
Qed.

Lemma total_series queues : length (series queues) = (4 * length queues + 973)%nat.
Proof.
  unfold series. rewrite length_series_in. generalize (length queues) as n. intros n.
  assert (sum_list (series_of n <$> catalogue) =
    (sum_list (series_of 0 <$> List.filter (fun i => negb (bool_decide (LabelQueue ∈ Labels i))) catalogue) +
     sum_list (series_of n <$> List.filter (fun i => bool_decide (LabelQueue ∈ Labels i)) catalogue)))%nat as ->.
  { induction catalogue as [|i instruments IH]; [done|]. rewrite fmap_cons. cbn [sum_list List.filter]. rewrite IH.
    case_bool_decide as Hi; cbn [negb]; rewrite fmap_cons; cbn [sum_list]; [lia|].
    assert (series_of n i = series_of 0 i) as ->; [|lia]. unfold series_of. revert Hi. generalize (Labels i) as keys.
    induction keys as [|key keys IHk]; intros Hi; [done|]. rewrite not_elem_of_cons in Hi. destruct Hi as [Hk Hi].
    cbn [foldr]. rewrite IHk by done. destruct (key =s? LabelQueue) eqn:E; [apply String.eqb_eq in E; congruence | done]. }
  assert (forall a b d : nat, a = 969%nat -> b = (4 * d + 4)%nat -> (a + b = 4 * d + 973)%nat) as Hs by lia.
  apply Hs; [vm_compute; reflexivity |].
  assert (List.filter (fun i => bool_decide (LabelQueue ∈ Labels i)) catalogue =
    [mkInstrument BrokerRepublished "Messages republished to a retry tier or the dead letter, with the copy confirmed."
       "{message}" KindCounter [LabelDestination; LabelQueue];
     mkInstrument QueueDepth "Messages ready in each known queue, as last sampled from the broker."
       "{message}" KindGauge [LabelQueue]]) as -> by (vm_compute; reflexivity).
  rewrite !fmap_cons, fmap_nil. unfold series_of. cbn [sum_list Labels foldr].
  assert (length (AllowedValues LabelDestination) = 2%nat) as -> by (vm_compute; reflexivity).
  change (LabelDestination =s? LabelQueue) with false. change (LabelQueue =s? LabelQueue) with true. cbv iota. unfold id. lia.
Qed.

(** An instrument's own labels, each with a value of its vocabulary. *)
Ltac named :=
  eexists; split; [reflexivity | split; [reflexivity |]];
  cbn [Labels call_attrs];
  repeat first [apply label_sets_nil | apply label_sets_cons];
  first [apply Normalize_value; discriminate | idtac].

Ltac all_named :=
  repeat match goal with
  | |- Forall _ [] => constructor
  | |- Forall _ (_ :: _) => constructor
  | |- Forall _ (_ ++ _) => apply Forall_app_2
  | |- Forall _ (if ?b then _ else _) => destruct b
  | |- Forall _ (match ?b with _ => _ end) => destruct b
  end; try named.

Section Observers.
Variables (m : Metrics) (queues : list string).

Lemma queueAttr_value queue : snd (queueAttr queues queue) ∈ values_of queues LabelQueue.
Proof. unfold queueAttr, values_of. cbn [snd]. case_bool_decide; [by right | by left]. Qed.

Lemma Received_admitted receipt : Forall (admitted queues) (Received receipt).
Proof. unfold Received. cbv zeta. destruct (Receive.Receipt_Err receipt); all_named. Qed.

Lemma CheckoutObserver_admitted n : Forall (admitted queues) (CheckoutObserver n).
Proof. destruct n; unfold CheckoutObserver, ProviderCalled; cbv zeta; all_named. Qed.

Lemma OrderObserver_admitted n : Forall (admitted queues) (OrderObserver n).
Proof. destruct n; unfold OrderObserver; all_named. Qed.

Lemma RelayObserver_admitted n : Forall (admitted queues) (RelayObserver n).
Proof. destruct n; unfold RelayObserver, PublicationSettled, CycleCompleted; cbv zeta; all_named. Qed.

Lemma ConsumerObserver_admitted n : Forall (admitted queues) (ConsumerObserver n).
Proof.
  destruct n; unfold ConsumerObserver, Handled; cbv zeta; all_named.
  apply Forall_fmap, Forall_true. intros t. unfold compose, transition_call. named.
Qed.

Lemma BrokerObserver_admitted n : Forall (admitted queues) (BrokerObserver queues n).
Proof.
  destruct n; unfold BrokerObserver; all_named. apply queueAttr_value.
Qed.

Lemma sample_admitted s collected ended now :
  (forall values, collected = Ok values -> Forall (fun v => admitted queues (publish v)) values) ->
  Forall (admitted queues) (sample s collected ended now).2.
Proof.
  intros Hc. unfold sample. destruct collected as [values|err]; [|destruct ended; constructor].
  apply Forall_fmap. by apply Hc.
Qed.

Lemma backlog_admitted outbox inbox values :
  NewBacklogCollector outbox inbox = Ok values -> Forall (fun v => admitted queues (publish v)) values.
Proof.
  unfold NewBacklogCollector. destruct outbox as [[]|]; [|done]. destruct inbox as [[[] ]|]; [|done].
  cbn [res_wrap res_bind]. intros [= <-]. unfold publish. all_named.
Qed.

Lemma depths_admitted read values : "" ∉ queues ->
  NewQueueDepthCollector read queues = Ok values -> Forall (fun v => admitted queues (publish v)) values.
Proof.
  intros Hq. unfold NewQueueDepthCollector. destruct (read queues) as [depths|]; [|done]. cbn [res_wrap res_bind].
  intros [= <-]. apply Forall_forall. intros v (queue & Hin & Hv)%list_elem_of_omap.
  destruct (depths !! queue); [|done]. injection Hv as <-. unfold publish. cbn [M_Queue M_Instrument M_Value].
  destruct (queue =s? "") eqn:E; [apply String.eqb_eq in E; congruence|]. named. by right.
Qed.

Lemma observe_admitted e : "" ∉ queues -> Forall (admitted queues) (observe m queues e).
Proof.
  intros Hq. destruct e; unfold observe, RateLimitObserver, pool_callback, sampler_callback.
  - apply Received_admitted.
  - apply CheckoutObserver_admitted.
  - apply OrderObserver_admitted.
  - apply RelayObserver_admitted.
  - apply ConsumerObserver_admitted.
  - apply BrokerObserver_admitted.
  - all_named.
  - apply sample_admitted, backlog_admitted.
  - apply sample_admitted. intros values. by apply depths_admitted.
  - assert (forall word, Normalize LabelState word = word -> word ∈ values_of queues LabelState) as Hs.
    { intros word <-. by apply Normalize_value. }
    all_named; apply Hs; vm_compute; reflexivity.
  - all_named.
Qed.
End Observers.

(** Every catalogued instrument but the observable counters is created. *)
Definition created (i : Instrument) (m : Metrics) : Prop :=
  match Instrument_Kind i with
  | KindCounter => Instrument_Name i ∈ counters m
  | KindHistogram => Instrument_Name i ∈ histograms m
  | KindGauge => Instrument_Name i ∈ gauges m
  | KindObservableCounter => True
  end.

Lemma create_creates refuses i m m' : create refuses i m = Ok m' ->
  created i m' /\ forall j, created j m -> created j m'.
Proof.
  unfold create, created. destruct (Instrument_Kind i), (refuses (Instrument_Name i)); try discriminate; intros [= <-];
    cbn [counters histograms gauges]; (split; [set_solver|]); intros j; destruct (Instrument_Kind j); set_solver.
Qed.

Lemma create_all_creates refuses instruments m m' : create_all refuses instruments m = Ok m' ->
  (forall j, created j m -> created j m') /\ Forall (fun i => created i m') instruments.
Proof.
  revert m. induction instruments as [|i instruments IH]; intros m; cbn [create_all].
  - intros [= <-]. by split; [|constructor].
  - destruct (create refuses i m) as [m1|] eqn:E; [|discriminate]. cbn [res_bind]. intros [H1 H2]%IH.
    apply create_creates in E as [H3 H4]. split; [auto|]. constructor; [by apply H1 | done].
Qed.

Lemma NewNoop_builds : exists m, NewWithProvider (fun _ => None) = Ok m.
Proof.
  unfold NewWithProvider. generalize (mkMetrics ∅ ∅ ∅). induction catalogue as [|i instruments IH]; intros m; [by exists m|].
  cbn [create_all]. unfold create. destruct (Instrument_Kind i); apply IH.
Qed.

Lemma admitted_kept refuses m queues c : NewWithProvider refuses = Ok m -> admitted queues c -> kept m c = true.
Proof.
  intros [_ Hm]%create_all_creates (i & Hi & Hf & _). unfold lookup_instrument in Hi.
  apply List.find_some in Hi as [Hin Hn%String.eqb_eq]. apply list_elem_of_In in Hin.
  pose proof (proj1 (Forall_forall _ _) Hm i Hin) as Hc. unfold created in Hc. rewrite Hn in Hc.
  unfold kept. destruct c, (Instrument_Kind i); try discriminate Hf; try done; by apply bool_decide_eq_true_2.
Qed.

Lemma emit_all m log : Forall (fun c => kept m c = true) log -> emit m log = log.
Proof. unfold emit. induction 1 as [|c log Hc _ IH]; [done|]. cbn [List.filter]. by rewrite Hc, IH. Qed.

Definition series_name (c : call) : string * list attribute := (call_name c, call_attrs c).

Lemma admitted_series queues c : admitted queues c -> series_name c ∈ series queues.
Proof.
  intros (i & Hi & _ & Ha). unfold lookup_instrument in Hi. apply List.find_some in Hi as [Hin Hn%String.eqb_eq].
  unfold series, series_in. apply list_elem_of_bind. exists i. split; [|by apply list_elem_of_In].
  unfold series_name. rewrite <- Hn. by apply list_elem_of_fmap_2.
Qed.

(** An outage publishes nothing; it shows in the failures and in the age. *)
Lemma Run_outage s rounds : 0 <= failures s -> failures s + Z.of_nat (length rounds) <= MaxInt64 ->
  Forall (fun r => Round_ended r = false /\ exists err, Round_collected r = Err err) rounds ->
  (Run s rounds).2 = [] /\ failures (Run s rounds).1 = failures s + Z.of_nat (length rounds) /\
  lastOK (Run s rounds).1 = lastOK s /\ started (Run s rounds).1 = started s.
Proof.
  intros Hf Hm Hr. revert s Hf Hm. induction Hr as [|r rounds [He [err Hc]] _ IH]; intros s Hf Hm.
  { split_and!; [done | simpl; lia | done..]. }
  cbn [length] in *. cbn [Run]. unfold sample. rewrite Hc, He.
  rewrite wrap64_id by (unfold in_int64, MinInt64 in *; lia).
  destruct (IH (mkSampler (Sampler_Name s) (Sampler_config s) (failures s + 1) (lastOK s) (started s))) as (H1 & H2 & H3 & H4);
    [cbn [failures]; lia | cbn [failures]; lia |]. cbn [failures lastOK started] in *.
  destruct (Run _ rounds) as [s' more]. cbn [fst snd] in *. split_and!; [by rewrite H1 | lia | done..].
Qed.

(** What the code classifies is a word of its vocabulary. *)
Definition word (key value : string) : bool := Normalize key value =s? value.

Lemma classified_words :
  (forall err, word LabelReason (receiveFailureReason err) = true) /\
  (forall outcome cause, word LabelReason (publishFailureReason outcome cause) = true) /\
  (forall cause, word LabelReason (consumerFailureReason cause) = true) /\
  (forall outcome, word LabelOutcome (Outbox.Outcome_String outcome) = true) /\
  (forall cycle, word LabelOutcome (cycleOutcome cycle) = true) /\
  (forall stage, word LabelStage (Outbox.CycleStage_String (Some stage)) = true) /\
  (forall disposition, word LabelDisposition (Consumer.Disposition_String disposition) = true) /\
  (forall queue, word LabelDestination (destinationKind queue) = true).
Proof.
  split_and!; [intros err | intros outcome cause | intros cause | intros outcome | intros cycle | intros stage
              | intros disposition | intros queue];
    [unfold receiveFailureReason | unfold publishFailureReason | unfold consumerFailureReason | destruct outcome
    | unfold cycleOutcome | destruct stage | destruct disposition | unfold destinationKind];
    repeat case_match; vm_compute; reflexivity.
Qed.

Lemma log_admitted m queues events : "" ∉ queues -> Forall (admitted queues) (concat (observe m queues <$> events)).
Proof. intros Hq. apply Forall_concat, Forall_fmap, Forall_true. intros e. by apply observe_admitted. Qed.

Lemma series_count queues log : Forall (admitted queues) log ->
  (length (remove_dups (series_name <$> log)) <= 4 * length queues + 973)%nat.
Proof.
  intros Ha. rewrite <- total_series. apply submseteq_length, NoDup_submseteq; [apply NoDup_remove_dups|].
  intros x (c & -> & Hc)%elem_of_remove_dups%list_elem_of_fmap. apply admitted_series.
  exact (proj1 (Forall_forall _ _) Ha c Hc).
Qed.

(** Three instruments the collectors register as observable are created as
    synchronous gauges of the same name too. *)
Example observable_gauges_are_created_twice :
  Forall (fun name => Instrument_Kind <$> lookup_instrument name = Some KindGauge) [PoolConnections; PoolMaxOpen; SamplerAge].
Proof. repeat constructor. Qed.

(** A body over the limit is counted under the storage, a storage failure is not. *)
Example oversized_body_is_counted_as_storage :
  receiveFailureReason (ErrWrap2 "" Receive.ErrPayloadTooLarge ": " (ErrNew "http: request body too large") "") = "storage" /\
  receiveFailureReason (wrapf "store webhook event" (ErrNew "connection refused")) = "internal".
Proof. by split. Qed.

(** ** Properties *)

(** The label space is closed. Whatever the use cases, the broker's
    deliveries, the limiters and the samplers tell the observers, every
    measurement belongs to a catalogued instrument of its kind and carries
    exactly that instrument's labels, each with a word of the label's own
    vocabulary, the declared queues, or "other"; none is dropped; and all
    measurements together make at most 973 time series and 4 more for each
    declared queue, however many events, orders and callers there are. *)
Theorem label_space_is_closed (refuses : Provider) (m : Metrics) (queues : list string) (events : list event) :
  NewWithProvider refuses = Ok m -> "" ∉ queues ->
  let log := concat (observe m queues <$> events) in
  emit m log = log /\
  Forall (admitted queues) log /\
  (length (remove_dups (series_name <$> log)) <= 4 * length queues + 973)%nat.
Proof.
  intros Hm Hq log. pose proof (log_admitted m queues events Hq) as Ha.
  split_and!; [| exact Ha | by apply series_count].
  apply emit_all. eapply Forall_impl; [exact Ha|]. intros c. by apply (admitted_kept refuses).
Qed.

Lemma label_space_is_closed_witness : exists m,
  NewWithProvider (fun _ => None) = Ok m /\
  let log := concat (observe m ["payments.webhooks"]
    <$> [BrokerEvent (Delivery.Republished "m" "payments.elsewhere" 3); Refused "client" "/v1/orders/o_1"]) in
  emit m log = log /\ (length (remove_dups (series_name <$> log)) <= 977)%nat.
Proof.
  destruct NewNoop_builds as [m E]. exists m. split; [exact E|].
  destruct (label_space_is_closed (fun _ => None) m ["payments.webhooks"]
    [BrokerEvent (Delivery.Republished "m" "payments.elsewhere" 3); Refused "client" "/v1/orders/o_1"] E) as (H1 & _ & H2).
  - rewrite list_elem_of_singleton. discriminate.
  - split; [exact H1 | exact H2].
Defined.
