(* ===== verification/Worker.v ===== *)
(** * The worker process: [internal/runtime/worker], [platform/retry], [platform/logging]

    How a loaded configuration becomes the relay, the consumer, its retry
    ladder and the log lines of their observers; the startup retries; the end
    of the group of components. *)

From S2P Require Import Prelude GoLib Errsanitize Netip Config Amqp Durations.
From S2P Require Outbox.
From S2P Require Consumer.
From S2P Require Delivery.
From S2P Require Metrics.

(** ** [retry.go]

    One turn: what the function answered, and the error of the context when it
    ended during the wait that follows a failure. *)
Record Turn := mkTurn { turn_result : option error; turn_ended : option error }.

Definition next_delay (maximumDelay delay : Duration) : Duration :=
  let delay := wrap64 (delay * 2) in if delay >? maximumDelay then maximumDelay else delay.

(** The answer of [Do], [None] while it still runs, and the waits it began. *)
Fixpoint Do (delay maximumDelay : Duration) (turns : list Turn) : option (option error) * list Duration :=
  match turns with
  | [] => (None, [])
  | t :: turns =>
      match turn_result t with
      | None => (Some None, [])
      | Some lastErr =>
          match turn_ended t with
          | Some cause => (Some (Some (ErrWrap2 "retry deadline reached: last error: " lastErr "; context: " cause "")), [delay])
          | None => let '(answer, waits) := Do (next_delay maximumDelay delay) maximumDelay turns in (answer, delay :: waits)
          end
      end
  end.

(** ** [error.go] *)

Definition SanitizedText (err : option error) : string :=
  match err with None => "" | Some err => Sanitize (Error err) end.

(** The line written to standard error. *)
Definition WriteSanitizedError (err : option error) : string := SanitizedText err +:+ of_codes [10].

Definition field : Type := (string * string)%type.

(** [zap.Skip] adds nothing. *)
Definition SanitizedError (err : option error) : list field :=
  match err with None => [] | Some _ => [("error", SanitizedText err)] end.

(** ** [observers.go] *)

Inductive level : Type := Info | Warn | ErrorLevel.
Record line := mkLine { line_level : level; line_message : string; line_fields : list field }.

Definition relayObserver (n : Outbox.Notification) : list line :=
  match n with
  | Outbox.Stuck messageID attempts cause =>
      [mkLine Warn "outbox message is not going through"
         ([("component", "outbox_relay"); ("message_id", messageID); ("attempts", pretty attempts)] ++ SanitizedError (Some cause))]
  | Outbox.Abandoned messageID attempts cause =>
      [mkLine ErrorLevel "outbox message abandoned after a permanent failure"
         ([("component", "outbox_relay"); ("message_id", messageID); ("attempts", pretty attempts)] ++ SanitizedError (Some cause))]
  | Outbox.LeaseLost messageID cause =>
      [mkLine Warn "outbox lease expired before the outcome could be recorded"
         ([("component", "outbox_relay"); ("message_id", messageID)] ++ SanitizedError (Some cause))]
  | _ => []
  end.

Definition bool_text (b : bool) : string := if b then "true" else "false".

Definition consumerObserver (n : Consumer.Notification) : list line :=
  match n with
  | Consumer.Applied eventID effect =>
      [mkLine Info "webhook event applied"
         [("component", "consumer"); ("webhook_event_id", eventID); ("attempt_status", Consumer.Effect_AttemptStatus effect);
          ("payment_status", Consumer.Effect_PaymentStatus effect); ("order_paid", bool_text (Consumer.Effect_OrderPaid effect))]]
  | Consumer.NoOp eventID note =>
      [mkLine Info "webhook event produced no change"
         [("component", "consumer"); ("webhook_event_id", eventID); ("reason", note)]]
  | Consumer.Retrying eventID attempts cause =>
      [mkLine Warn "webhook event will be retried"
         ([("component", "consumer"); ("webhook_event_id", eventID); ("attempts", pretty attempts)] ++ SanitizedError (Some cause))]
  | Consumer.DeadLettered eventID attempts cause =>
      [mkLine ErrorLevel "webhook event sent to the dead-letter queue"
         ([("component", "consumer"); ("webhook_event_id", eventID); ("attempts", pretty attempts)] ++ SanitizedError (Some cause))]
  | Consumer.Handled _ _ => []
  end.

Definition brokerObserver (n : Delivery.Notification) : list line :=
  match n with
  | Delivery.Rejected messageID cause =>
      [mkLine ErrorLevel "message could not be read and was rejected"
         ([("component", "consumer"); ("message_id", messageID)] ++ SanitizedError (Some cause))]
  | Delivery.Republished messageID destination attempts =>
      [mkLine Info "message republished"
         [("component", "consumer"); ("message_id", messageID); ("destination", destination); ("attempts", pretty attempts)]]
  | Delivery.Failed messageID cause =>
      [mkLine ErrorLevel "message left unacknowledged for redelivery"
         ([("component", "consumer"); ("message_id", messageID)] ++ SanitizedError (Some cause))]
  | Delivery.RedeliveredTo _ => []
  end.

(** ** [worker.go] *)

Definition ServiceName : string := "payments-worker".
Definition DefaultAddress : string := ":8081".

(** [random] is eight bytes of entropy, [hostname] the machine's name. *)
Definition InstanceIdentity (random : res (list Z)) (hostname : res string) (fallback : string) : res string :=
  try suffix := res_wrap (wrapf "generate instance suffix") random in
  let host := match hostname with Ok host => if host =s? "" then fallback else host | Err _ => fallback end in
  Ok (host +:+ "-" +:+ hex_encode suffix).

(** The owner of the leases: the one given, or one drawn. *)
Definition instance_of (given : string) (random : res (list Z)) (hostname : res string) (cfg : Config) : res string :=
  if given =s? "" then res_wrap (wrapf "build relay identity") (InstanceIdentity random hostname (Config.ServiceName cfg))
  else Ok given.

Definition relay_config (cfg : Config) : Outbox.Config :=
  Outbox.mkConfig (OutboxBatchSize cfg) (OutboxInterval cfg) (OutboxLeaseDuration cfg)
    (Outbox.mkBackoff (OutboxBackoffBase cfg) (OutboxBackoffMax cfg)) (OutboxAlertAfterAttempts cfg).

(** The observers: the lines above, and the metrics. *)
Definition relay_of (cfg : Config) (instanceID : string) : Outbox.Service :=
  Outbox.NewService instanceID (relay_config cfg)
    [Outbox.WithObserver (Some (Outbox.mkObserver "log" false)); Outbox.WithObserver (Some (Outbox.mkObserver "metrics" true))].

Definition retryTiers (cfg : Config) : list RetryTier := mkRetryTier <$> ConsumerRetryDelays cfg.

Definition consumer_of (cfg : Config) : Consumer.Service :=
  Consumer.NewService (Consumer.mkConfig (ConsumerMaxAttempts cfg))
    [Consumer.WithObserver (Some (Consumer.mkObserver "log" false)); Consumer.WithObserver (Some (Consumer.mkObserver "metrics" true))].

Definition knownQueues (cfg : Config) : list string := [WebhooksQueue; DeadLetterQueue] ++ (Queue <$> retryTiers cfg).

Definition messageConsumer (cfg : Config) : Delivery.Consumer :=
  Delivery.WithObserver (Some (Delivery.mkObserver "metrics" true))
    (Delivery.WithObserver (Some (Delivery.mkObserver "log" false))
       (Delivery.NewConsumer (Delivery.mkConsumerConfig (ConsumerPrefetch cfg) (ConsumerConcurrency cfg) (retryTiers cfg)))).

Definition sampler_config (cfg : Config) : Metrics.SamplerConfig :=
  Metrics.mkSamplerConfig (MetricsSampleInterval cfg) (MetricsSampleTimeout cfg).
Definition backlogSampler (cfg : Config) (now : Time) : Metrics.Sampler :=
  Metrics.NewSampler Metrics.SamplerBacklog (sampler_config cfg) now.
Definition brokerSampler (cfg : Config) (now : Time) : Metrics.Sampler :=
  Metrics.NewSampler Metrics.SamplerBroker (sampler_config cfg) now.

(** [group.Wait]: the components in the order they returned, each with its
    error; the first error is the answer and ends the context of the others. *)
Fixpoint Wait (returned : list (option error)) : option error :=
  match returned with [] => None | Some err :: _ => Some err | None :: returned => Wait returned end.

(** ** Lemmas *)

(** The waits stay between the first and the longest. *)
Lemma Do_waits first delay maximum turns : 0 < first <= delay -> delay <= maximum -> 2 * maximum <= MaxInt64 ->
  Forall (fun w => first <= w <= maximum) (Do delay maximum turns).2.
Proof.
  intros Hf Hm Hx. revert delay Hf Hm. induction turns as [|t turns IH]; intros delay Hf Hm; [constructor|]. cbn [Do].
  destruct (turn_result t); [|constructor]. destruct (turn_ended t); [constructor; [lia | constructor]|].
  assert (first <= next_delay maximum delay <= maximum) as Hn.
  { unfold next_delay. rewrite wrap64_id by (unfold in_int64, MinInt64, MaxInt64 in *; lia). case_match; go_bool; lia. }
  specialize (IH (next_delay maximum delay) ltac:(lia) ltac:(lia)). destruct (Do _ _ turns) as [answer waits].
  constructor; [lia | exact IH].
Qed.

(** [Do] succeeds exactly when the function does before the context ends. *)
Lemma Do_succeeds delay maximum turns : (Do delay maximum turns).1 = Some None <->
  exists before t after, turns = before ++ t :: after /\ turn_result t = None /\
    Forall (fun t => turn_result t <> None /\ turn_ended t = None) before.
Proof.
  revert delay. induction turns as [|t turns IH]; intros delay.
  { split; [done|]. by intros ([|] & ? & ? & ? & _). }
  cbn [Do]. destruct (turn_result t) as [err|] eqn:E.
  - destruct (turn_ended t) eqn:E'.
    + split; [done|]. intros ([|t' before] & u & after & [= <- Ht] & Hu & Hb); [congruence|].
      apply Forall_cons in Hb as [[_ ?] _]. congruence.
    + specialize (IH (next_delay maximum delay)). destruct (Do _ _ turns) as [answer waits]. cbn [fst] in *. rewrite IH. split.
      * intros (before & u & after & -> & Hu & Hb). exists (t :: before), u, after. split_and!; [done..|].
        constructor; [split; congruence | done].
      * intros ([|t' before] & u & after & [= <- Ht] & Hu & Hb); [congruence|].
        apply Forall_cons in Hb as [_ Hb]. by exists before, u, after.
  - split; [|done]. intros _. exists [], t, turns. by split_and!.
Qed.

(** Error texts in the lines are sanitized: short, and storable anywhere. *)
Definition fit (l : line) : Prop := Forall (fun f => f.1 = "error" -> len f.2 <= MaxLength /\ clean f.2) (line_fields l).

Lemma Sanitize_fits text : len (Sanitize text) <= MaxLength /\ clean (Sanitize text).
Proof. unfold Sanitize. by destruct (Truncate_clean (foldl (fun t p => ReplaceAllString p Redacted t) (validText text) patterns) MaxLength). Qed.

Lemma lines_fit :
  (forall n, Forall fit (relayObserver n)) /\ (forall n, Forall fit (consumerObserver n)) /\
  (forall n, Forall fit (brokerObserver n)).
Proof.
  pose proof Sanitize_fits as Hs.
  split_and!; intros []; unfold relayObserver, consumerObserver, brokerObserver, fit, SanitizedError; cbn [app line_fields];
    repeat match goal with |- Forall _ [] => constructor | |- Forall _ (_ :: _) => constructor end; cbn [fst snd line_fields];
    repeat match goal with |- Forall _ [] => constructor | |- Forall _ (_ :: _) => constructor end; cbn [fst snd];
    first [discriminate | intros _; apply Hs].
Qed.

Lemma ascending_above previous ds i d : ascending previous ds -> ds !! i = Some d -> previous < d.
Proof.
  revert previous i. induction ds as [|x ds IH]; intros previous i Ha Hi; [done|]. destruct Ha as [Hx Ha].
  destruct i as [|i]; [by injection Hi as <-|]. pose proof (IH x i Ha Hi). lia.
Qed.

Lemma ascending_lookup previous ds i j d e : ascending previous ds -> (i <= j)%nat -> ds !! i = Some d -> ds !! j = Some e -> d <= e.
Proof.
  revert previous i j. induction ds as [|x ds IH]; intros previous i j Ha Hij Hi Hj; [done|]. destruct Ha as [Hx Ha].
  destruct i as [|i], j as [|j]; simpl in *; [simplify_eq; lia | | lia | eapply (IH x i j); eauto; lia].
  injection Hi as <-. pose proof (ascending_above x ds j e Ha Hj). lia.
Qed.

Lemma ascending_NoDup previous ds : ascending previous ds -> NoDup ds.
Proof.
  revert previous. induction ds as [|x ds IH]; intros previous Ha; [constructor|]. destruct Ha as [Hx Ha].
  constructor; [|by eapply IH]. intros [i Hi]%list_elem_of_lookup. pose proof (ascending_above x ds i x Ha Hi). lia.
Qed.

(** The rung of the ladder an attempt waits on. *)
Lemma TierFor_lookup tiers attempts : tiers <> [] -> 1 <= attempts <= MaxInt64 ->
  TierFor tiers attempts = tiers !! (Nat.min (Z.to_nat (attempts - 1)) (length tiers - 1)).
Proof.
  intros Hn Ha. unfold TierFor. destruct tiers as [|t tiers]; [done|]. cbv zeta.
  rewrite wrap64_id by (unfold in_int64, MinInt64, MaxInt64 in *; lia).
  destruct (Z.ltb_spec (attempts - 1) 0); [lia|]. f_equal.
  destruct (Z.leb_spec (Z.of_nat (length (t :: tiers))) (attempts - 1)); lia.
Qed.

Section Configured.
Variables (cfg : Config) (rabbit : bool).
Hypothesis Hcfg : accepted cfg rabbit.

Lemma tiers_positive t : t ∈ retryTiers cfg -> 0 < RetryTier_Delay t.
Proof.
  intros (d & -> & [i Hi]%list_elem_of_lookup)%list_elem_of_fmap. destruct (ac_ladder _ _ Hcfg) as [_ Ha].
  by eapply ascending_above.
Qed.

Lemma knownQueues_NoDup : NoDup (knownQueues cfg).
Proof.
  assert (forall q, q ∈ Queue <$> retryTiers cfg -> exists s, q = RetryExchangePrefix +:+ s) as Hq.
  { intros q (t & -> & _)%list_elem_of_fmap. by eexists. }
  assert (NoDup (Queue <$> retryTiers cfg)) as Hn.
  { assert (NoDup (retryTiers cfg)) as Ht.
    { apply NoDup_fmap_2; [by intros d d' [= ->]|]. eapply ascending_NoDup, (ac_ladder _ _ Hcfg). }
    pose proof tiers_positive as Hp. revert Ht Hp. generalize (retryTiers cfg) as ts. clear.
    induction ts as [|t ts IH]; intros Ht Hp; [constructor|]. apply NoDup_cons in Ht as [Hn Ht]. constructor.
    - intros (t' & E & Ht')%list_elem_of_fmap. apply Hn. apply Queue_inj in E as ->; [done| |]; apply Hp, elem_of_cons; auto.
    - apply IH; [done|]. intros t' Ht'. apply Hp, elem_of_cons. by right. }
  unfold knownQueues. cbn [app]. repeat constructor; [| |exact Hn].
  - rewrite elem_of_cons. intros [E|[s E]%Hq]; discriminate E.
  - intros [s E]%Hq. discriminate E.
Qed.

Lemma relay_config_kept instanceID : 0 < OutboxLeaseDuration cfg ->
  Outbox.config (relay_of cfg instanceID) = relay_config cfg.
Proof.
  intros Hl. destruct (ac_relay _ _ Hcfg) as (H1 & H2 & H3). destruct (ac_backoff _ _ Hcfg) as [H4 H5].
  change (Outbox.withDefaults (relay_config cfg) = relay_config cfg).
  unfold Outbox.withDefaults, relay_config, Outbox.Backoff_withDefaults.
  cbn [Outbox.Config_BatchSize Outbox.Config_Interval Outbox.Config_LeaseDuration Outbox.Config_Backoff
       Outbox.Config_AlertAfterAttempts Outbox.Backoff_Base Outbox.Backoff_Max].
  assert (forall x, 0 < x -> (x <=? 0) = false) as Hx by (intros; lia). rewrite !Hx by lia. done.
Qed.

Lemma consumers_kept :
  Consumer.config (consumer_of cfg) = Consumer.mkConfig (ConsumerMaxAttempts cfg) /\
  Delivery.Consumer_config (messageConsumer cfg) =
    Delivery.mkConsumerConfig (ConsumerPrefetch cfg) (ConsumerConcurrency cfg) (retryTiers cfg).
Proof.
  destruct (ac_consumer _ _ Hcfg) as [[H1 H2] H3]. split.
  - change (Consumer.withDefaults (Consumer.mkConfig (ConsumerMaxAttempts cfg)) = Consumer.mkConfig (ConsumerMaxAttempts cfg)).
    unfold Consumer.withDefaults. cbn [Consumer.Config_MaxAttempts]. by destruct (Z.ltb_spec (ConsumerMaxAttempts cfg) 2); [lia|].
  - unfold messageConsumer, Delivery.NewConsumer. cbn [Delivery.WithObserver Delivery.Consumer_config Delivery.Concurrency
      Delivery.Prefetch Delivery.RetryTiers]. destruct (Z.ltb_spec (ConsumerConcurrency cfg) 1); [lia|].
    destruct (Z.ltb_spec (ConsumerPrefetch cfg) (ConsumerConcurrency cfg)); [lia|done].
Qed.

Lemma samplers_kept now : Metrics.Sampler_config (backlogSampler cfg now) = sampler_config cfg /\
  Metrics.Sampler_config (brokerSampler cfg now) = sampler_config cfg.
Proof.
  destruct (ac_sampling _ _ Hcfg) as [H1 H2].
  assert (Metrics.SamplerConfig_withDefaults (sampler_config cfg) = sampler_config cfg) as E; [|by split].
  unfold Metrics.SamplerConfig_withDefaults, sampler_config. cbn [Metrics.Sampler_Interval Metrics.Sampler_Timeout].
  destruct (Z.leb_spec (MetricsSampleInterval cfg) 0); [lia|]. destruct (Z.leb_spec (MetricsSampleTimeout cfg) 0); [lia|].
  rewrite Z.gtb_ltb. by destruct (Z.ltb_spec (MetricsSampleInterval cfg) (MetricsSampleTimeout cfg)); [lia|].
Qed.

Lemma knownQueues_named : "" ∉ knownQueues cfg.
Proof.
  unfold knownQueues. rewrite elem_of_app, !elem_of_cons. intros [[E|[E|E%elem_of_nil]]|(t & E & _)%list_elem_of_fmap];
    [discriminate E | discriminate E | done | discriminate E].
Qed.

(** Later attempts wait at least as long. *)
Lemma ladder_backs_off a b : 1 <= a <= b -> b <= MaxInt64 -> exists s t,
  TierFor (retryTiers cfg) a = Some s /\ TierFor (retryTiers cfg) b = Some t /\
  0 < RetryTier_Delay s <= RetryTier_Delay t.
Proof.
  intros Hab Hb. destruct (ac_ladder _ _ Hcfg) as [Hne Ha].
  assert (retryTiers cfg <> []) as Hn by (unfold retryTiers; by destruct (ConsumerRetryDelays cfg)).
  rewrite !TierFor_lookup by (done || lia). unfold retryTiers. rewrite !list_lookup_fmap, length_fmap.
  set (n := length (ConsumerRetryDelays cfg)).
  assert (0 < n)%nat as Hpos by (unfold n; destruct (ConsumerRetryDelays cfg); simpl; [done | lia]).
  assert (forall k, is_Some (ConsumerRetryDelays cfg !! Nat.min k (n - 1))) as Hs.
  { intros k. apply lookup_lt_is_Some. fold n. lia. }
  destruct (Hs (Z.to_nat (a - 1))) as [d Hd]. destruct (Hs (Z.to_nat (b - 1))) as [e He]. rewrite Hd, He.
  exists (mkRetryTier d), (mkRetryTier e). split; [done|]. split; [done|]. cbn [RetryTier_Delay]. split.
  - eapply ascending_above; [exact Ha | exact Hd].
  - eapply (ascending_lookup 0); [exact Ha | | exact Hd | exact He]. lia.
Qed.
End Configured.

(** ** Properties *)

(** C32: The worker runs the configuration it loaded. No component replaces a
    value by a default of its own; every publication of a full batch fits into
    the window of its lease, the reserve for recording the outcomes kept;
    every attempt has a rung of the retry ladder, and later attempts never
    wait less; the queues are all different, a rung's own one included, so no
    delay blocks another; the samplers keep the configured pace, and the
    process exports at most 981 series and 4 for each rung. *)
Theorem worker_runs_the_configuration `{GoQuote} (dotenv : option error) (parsed : res Config) (name fallback : string)
    (cfg : Config) (instanceID : string) :
  Load dotenv parsed name fallback true = Ok cfg -> OutboxBatchSize cfg <= 10 ^ 9 ->
  Outbox.config (relay_of cfg instanceID) = relay_config cfg /\
  OutboxBatchSize cfg * Delivery.PublishTimeout + Outbox.SettlementReserve <= OutboxLeaseDuration cfg /\
  Consumer.config (consumer_of cfg) = Consumer.mkConfig (ConsumerMaxAttempts cfg) /\
  Delivery.Consumer_config (messageConsumer cfg) =
    Delivery.mkConsumerConfig (ConsumerPrefetch cfg) (ConsumerConcurrency cfg) (retryTiers cfg) /\
  (forall a b, 1 <= a <= b -> b <= MaxInt64 -> exists s t,
     TierFor (retryTiers cfg) a = Some s /\ TierFor (retryTiers cfg) b = Some t /\
     0 < RetryTier_Delay s <= RetryTier_Delay t) /\
  NoDup (knownQueues cfg) /\
  (forall now, Metrics.Sampler_config (backlogSampler cfg now) = sampler_config cfg /\
     Metrics.Sampler_config (brokerSampler cfg now) = sampler_config cfg) /\
  (forall m events,
     (length (remove_dups (Metrics.series_name <$> concat (Metrics.observe m (knownQueues cfg) <$> events))) <=
      4 * length (ConsumerRetryDelays cfg) + 981)%nat).
Proof.
  intros HL Hb. apply Load_accepted in HL as Ha. pose proof (lease_covers_batch _ _ Ha Hb) as Hl.
  destruct (ac_relay _ _ Ha) as [H1 _]. destruct (consumers_kept _ _ Ha) as [Hc Hd]. split_and!; [| exact Hl | done | done | | | |].
  - apply (relay_config_kept cfg true Ha). unfold PublishAttemptBudget, Outbox.SettlementReserve, Second, Millisecond in Hl. lia.
  - intros a b. by apply (ladder_backs_off cfg true).
  - by apply (knownQueues_NoDup cfg true).
  - intros now. by apply (samplers_kept cfg true).
  - intros m events.
    pose proof (Metrics.series_count _ _ (Metrics.log_admitted m _ events (knownQueues_named cfg))) as Hs.
    assert (length (knownQueues cfg) = (2 + length (ConsumerRetryDelays cfg))%nat) as E.
    { unfold knownQueues, retryTiers. by rewrite length_app, !length_fmap. }
    rewrite E in Hs. lia.
Qed.

#[local] Instance sample_quote : GoQuote := fun s => s.

Lemma worker_runs_the_configuration_witness : exists cfg,
  Load (Some ErrNotExist) (Ok (default_config 20 (2 * Minute))) "payments-worker" ":8081" true = Ok cfg /\
  Outbox.config (relay_of cfg "host-0") = relay_config cfg /\ NoDup (knownQueues cfg).
Proof.
  eexists. split; [vm_compute; reflexivity|].
  match goal with |- Outbox.config (relay_of ?c _) = _ /\ _ =>
    destruct (worker_runs_the_configuration (Some ErrNotExist) (Ok (default_config 20 (2 * Minute))) "payments-worker" ":8081"
      c "host-0") as (H1 & _ & _ & _ & _ & H2 & _); [vm_compute; reflexivity | vm_compute; discriminate |]
  end.
  split; [exact H1 | exact H2].
Defined.
