(* ===== verification/Auth.v ===== *)
(** * API keys: [internal/platform/auth]

    [apikey.go]. SHA-256's HMAC is a parameter: what the proofs need of it, that
    a configured key shares its tag with no other candidate presented, is a
    hypothesis where it is used. *)

From S2P Require Import Prelude GoLib.

Definition MinAPIKeyLength : Z := 32.

Definition ErrNoAPIKeys : error :=
  ErrSentinel "auth.ErrNoAPIKeys" "at least one integration API key is required".
Definition ErrInvalidAPIKey : error :=
  ErrSentinel "auth.ErrInvalidAPIKey"
    "integration API keys must have at least 32 characters and no surrounding whitespace".
Definition ErrDuplicateAPIKey : error :=
  ErrSentinel "auth.ErrDuplicateAPIKey" "integration API keys must be unique".

(** [hmac.New(sha256.New, secret)] over one value: 32 bytes. *)
Class Hmac : Type := {
  hmac_sha256 : list Z -> string -> list Z;
  hmac_bytes : forall secret value, length (hmac_sha256 secret value) = 32%nat /\ Forall is_byte (hmac_sha256 secret value)
}.

Record APIKeyVerifier := mkAPIKeyVerifier { secret : list Z; tags : list (list Z) }.

(** The loop over the keys: [seen] holds the ones before. *)
Fixpoint check_keys (keys : list string) (seen : gset string) : option error :=
  match keys with
  | [] => None
  | key :: keys =>
      if (len key <? MinAPIKeyLength) || negb (TrimSpace key =s? key) then Some ErrInvalidAPIKey
      else if bool_decide (key ∈ seen) then Some ErrDuplicateAPIKey
      else check_keys keys ({[key]} ∪ seen)
  end.

(** [subtle.ConstantTimeCompare]. *)
Definition ConstantTimeCompare (x y : list Z) : Z := if bool_decide (x = y) then 1 else 0.

Section Verifier.
Context `{Hmac}.

Definition tag (v : APIKeyVerifier) (value : string) : list Z := hmac_sha256 (secret v) value.

(** [random] is what [rand.Read] fills the secret with. *)
Definition NewAPIKeyVerifier (random : res (list Z)) (keys : list string) : res APIKeyVerifier :=
  match keys with
  | [] => Err ErrNoAPIKeys
  | _ =>
      match check_keys keys ∅ with
      | Some e => Err e
      | None =>
          try bytes := res_wrap (wrapf "generate API key verifier secret") random in
          Ok (mkAPIKeyVerifier bytes ((fun key => tag (mkAPIKeyVerifier bytes []) key) <$> keys))
      end
  end.

(** [None] is the nil verifier. *)
Definition Valid (v : option APIKeyVerifier) (candidate : string) : bool :=
  match v with
  | None => false
  | Some v =>
      let candidateTag := tag v candidate in
      foldl (fun valid t => Z.lor valid (ConstantTimeCompare candidateTag t)) 0 (tags v) =? 1
  end.

Definition Fingerprint (v : APIKeyVerifier) (candidate : string) : string * bool :=
  if Valid (Some v) candidate then (hex_encode (tag v candidate), true) else ("", false).

(** ** Lemmas *)

Lemma check_keys_spec keys seen :
  check_keys keys seen = None <->
  Forall (fun key => MinAPIKeyLength <= len key /\ TrimSpace key = key) keys /\
  NoDup keys /\ Forall (fun key => key ∉ seen) keys.
Proof.
  revert seen. induction keys as [|key keys IH]; intros seen; simpl.
  { split; [|done]. intros _. split_and!; constructor. }
  destruct (Z.ltb_spec (len key) MinAPIKeyLength) as [Hl|Hl]; simpl.
  { split; [done|]. intros [[[??] _]%Forall_cons _]. lia. }
  destruct (String.eqb_spec (TrimSpace key) key) as [Ht|Ht]; simpl.
  2:{ split; [done|]. by intros [[[??] _]%Forall_cons _]. }
  case_bool_decide as Hs.
  { split; [done|]. by intros (_ & _ & [? _]%Forall_cons). }
  rewrite IH, NoDup_cons, !Forall_cons. rewrite !Forall_forall. split.
  - intros (H1 & H2 & H3). split_and!; try done.
    + intros Hin. apply H3 in Hin. set_solver.
    + intros x Hx. apply H3 in Hx. set_solver.
  - intros ([_ H1] & [H2 H3] & [_ H4]). split_and!; try done.
    intros x Hx. pose proof (H4 x Hx). intros [->%elem_of_singleton|]%elem_of_union; done.
Qed.

Lemma compare_fold t l acc : (acc = 0 \/ acc = 1) ->
  foldl (fun valid u => Z.lor valid (ConstantTimeCompare t u)) acc l = 1 <-> acc = 1 \/ t ∈ l.
Proof.
  revert acc. induction l as [|u l IH]; intros acc Ha; simpl.
  { split; [by left|]. by intros [|?%not_elem_of_nil]. }
  rewrite IH, elem_of_cons; unfold ConstantTimeCompare; case_bool_decide; destruct Ha as [->| ->];
    simpl; intuition (done || congruence).
Qed.

Lemma Valid_tag v candidate : Valid (Some v) candidate = true <-> tag v candidate ∈ tags v.
Proof. unfold Valid. rewrite Z.eqb_eq, compare_fold by (by left). split; [by intros [|]|by right]. Qed.

Lemma NewAPIKeyVerifier_ok random keys v : NewAPIKeyVerifier random keys = Ok v ->
  check_keys keys ∅ = None /\ tags v = tag v <$> keys.
Proof.
  unfold NewAPIKeyVerifier. destruct keys as [|k ks]; [done|].
  destruct (check_keys _ _) eqn:E; [done|]. destruct random; [|done]. by intros [= <-].
Qed.
End Verifier.

(** Different keys have different fingerprints when their tags differ: the
    limiter's keys do not merge callers. *)
Lemma Fingerprint_injective `{Hmac} v a b :
  Valid (Some v) a = true -> Valid (Some v) b = true -> (Fingerprint v a).1 = (Fingerprint v b).1 -> tag v a = tag v b.
Proof.
  unfold Fingerprint. intros -> ->. simpl. intros E.
  pose proof (hmac_bytes (secret v) a) as [_ Ha]. pose proof (hmac_bytes (secret v) b) as [_ Hb].
  apply (f_equal hex_decode) in E. rewrite !hex_decode_encode in E by done. by injection E.
Qed.

(** ** Properties *)

(** A verifier exists only for distinct keys of at least 32 characters
    without surrounding space, and then accepts exactly the configured keys (a
    candidate whose tag is no other key's); it names a fingerprint for those and
    for nothing else, so no invented header value ever gets a rate limit
    bucket, and different keys get different fingerprints. *)
Theorem only_configured_keys_are_valid `{Hmac} random keys v candidate :
  NewAPIKeyVerifier random keys = Ok v ->
  (forall key, key ∈ keys -> tag v candidate = tag v key -> candidate = key) ->
  (keys <> [] /\ NoDup keys /\ Forall (fun key => MinAPIKeyLength <= len key /\ TrimSpace key = key) keys) /\
  (Valid (Some v) candidate = true <-> candidate ∈ keys) /\
  ((Fingerprint v candidate).2 = true <-> candidate ∈ keys) /\
  (forall key, key ∈ keys -> candidate ∈ keys -> (Fingerprint v candidate).1 = (Fingerprint v key).1 -> candidate = key).
Proof.
  intros HN Hc. destruct (NewAPIKeyVerifier_ok _ _ _ HN) as [Hk Ht].
  apply check_keys_spec in Hk as (Hf & Hd & _).
  assert (forall key, key ∈ keys -> Valid (Some v) key = true) as Hv
    by (intros key Hkey; apply Valid_tag; rewrite Ht; by apply list_elem_of_fmap_2).
  assert (Valid (Some v) candidate = true <-> candidate ∈ keys) as Hi.
  { split; [|apply Hv]. intros Hin%Valid_tag. rewrite Ht in Hin.
    apply list_elem_of_fmap in Hin as (key & Et & Hkey). by rewrite (Hc key Hkey Et). }
  split_and!; [by intros -> | done | done | done | |].
  - rewrite <- Hi. unfold Fingerprint. by destruct (Valid _ _).
  - intros key Hkey Hcand E. apply (Hc key Hkey). apply Fingerprint_injective; [by apply Hv.. | done].
Qed.

(** ** Witness *)

(** A tag that keeps the last bytes of the value. *)
#[local] Program Instance sample_hmac : Hmac := {
  hmac_sha256 := fun _ value => firstn 32 (reverse (codes value) ++ repeat 0 32)
}.
Next Obligation.
  intros. split.
  - rewrite length_firstn, length_app, repeat_length. lia.
  - apply Forall_take, Forall_app. split.
    + apply Forall_reverse, codes_bytes.
    + apply Forall_forall. intros x Hx%list_elem_of_In%repeat_spec. subst. unfold is_byte. lia.
Qed.

Definition sample_keys : list string :=
  ["integration-key-0123456789abcdef-1"; "integration-key-0123456789abcdef-2"].

Definition sample_verifier : APIKeyVerifier :=
  mkAPIKeyVerifier [7] ((fun key => firstn 32 (reverse (codes key) ++ repeat 0 32)) <$> sample_keys).

(** The sample tags differ in their first byte. *)
Lemma sample_tags_differ candidate : (forall key, key ∈ sample_keys -> candidate = key \/
    nth 0 (tag sample_verifier candidate) 0 <> nth 0 (tag sample_verifier key) 0) ->
  forall key, key ∈ sample_keys -> tag sample_verifier candidate = tag sample_verifier key -> candidate = key.
Proof. intros Hc key Hk E. destruct (Hc key Hk) as [|Hn]; [done|]. by rewrite E in Hn. Qed.

Lemma only_configured_keys_are_valid_witness :
  NewAPIKeyVerifier (Ok [7]) sample_keys = Ok sample_verifier /\
  Valid (Some sample_verifier) "integration-key-0123456789abcdef-2" = true /\
  Valid (Some sample_verifier) "guess" = false.
Proof.
  split; [reflexivity|]. split.
  - apply (only_configured_keys_are_valid (Ok [7]) sample_keys sample_verifier "integration-key-0123456789abcdef-2");
      [reflexivity | apply sample_tags_differ | right; left].
    intros key Hk. apply elem_of_cons in Hk as [->|Hk]; [right; by vm_compute|].
    apply elem_of_cons in Hk as [->|Hk]; [by left | by apply not_elem_of_nil in Hk].
  - apply not_true_iff_false. intros Hv.
    apply (only_configured_keys_are_valid (Ok [7]) sample_keys sample_verifier "guess") in Hv;
      [|reflexivity | apply sample_tags_differ].
    + apply elem_of_cons in Hv as [?|Hv]; [done|]. apply elem_of_cons in Hv as [?|Hv]; [done|].
      by apply not_elem_of_nil in Hv.
    + intros key Hk. apply elem_of_cons in Hk as [->|Hk]; [right; by vm_compute|].
      apply elem_of_cons in Hk as [->|Hk]; [right; by vm_compute | by apply not_elem_of_nil in Hk].
Defined.
