(* ===== verification/ClientIP.v ===== *)
(** * The client of a request: [internal/transport/http/clientip.go]

    Which address identifies the client, and the prefix a limiter counts it
    under. A resolver is given the request's peer address and the values of
    its X-Forwarded-For headers. *)

From S2P Require Import Prelude GoLib Netip.

Definition forwardedForHeader : string := "X-Forwarded-For".

(** [None] is the nil resolver. *)
Record ClientAddressResolver := NewClientAddressResolver { trusted : list Prefix }.

Definition trustedProxy (r : ClientAddressResolver) (address : Addr) : bool :=
  existsb (fun prefix => Contains prefix address) (trusted r).

Definition parseHop (value : string) : option Addr :=
  let value := TrimSpace value in
  if value =s? "" then None
  else
    address ← match ParseAddr value with Some a => Some a | None => ParseAddrPort value end;
    Some (WithZone (Unmap address) "").

Definition peerAddress (remoteAddr : string) : option Addr := parseHop (default remoteAddr (SplitHost remoteAddr)).

(** [strings.Split] on a comma. *)
Fixpoint split_codes (c : Z) (l : list Z) : list (list Z) :=
  match l with
  | [] => [[]]
  | x :: t =>
      if x =? c then [] :: split_codes c t
      else match split_codes c t with h :: r => (x :: h) :: r | [] => [[x]] end
  end.
Definition Split_comma (s : string) : list string := of_codes <$> split_codes 44 (codes s).

Definition forwardedHops (values : list string) : list string :=
  values ≫= fun value => TrimSpace <$> Split_comma value.

(** The loop of [Resolve] over the hops from the right. *)
Fixpoint walk (r : ClientAddressResolver) (peer : Addr) (hops : list string) : Addr :=
  match hops with
  | [] => peer
  | hop :: rest =>
      match parseHop hop with
      | None => peer
      | Some hop =>
          if negb (trustedProxy r hop) then hop
          else if bool_decide (rest = []) then hop
          else walk r peer rest
      end
  end.

Definition Resolve (r : option ClientAddressResolver) (remoteAddr : string) (forwarded : list string) : option Addr :=
  peer ← peerAddress remoteAddr;
  match r with
  | None => Some peer
  | Some r =>
      if negb (trustedProxy r peer) then Some peer
      else Some (walk r peer (reverse (forwardedHops forwarded)))
  end.

Definition ClientBucket (address : Addr) : Prefix :=
  if Is4 address then PrefixFrom address 32 else Masked (PrefixFrom address 64).

(** ** Lemmas *)

Lemma split_codes_app c a b : split_codes c (a ++ c :: b) = split_codes c a ++ split_codes c b.
Proof.
  induction a as [|x a IH]; simpl; [by rewrite Z.eqb_refl|]. rewrite IH.
  destruct (x =? c); [done|]. assert (split_codes c a <> []) as Hn.
  { destruct a as [|y a]; simpl; [done|]. destruct (y =? c); [done|]. by destruct (split_codes c a). }
  by destruct (split_codes c a).
Qed.

Lemma Split_comma_app a b : Split_comma (a +:+ "," +:+ b) = Split_comma a ++ Split_comma b.
Proof.
  unfold Split_comma. rewrite !codes_app. change (codes ",") with [44]. simpl.
  by rewrite split_codes_app, fmap_app.
Qed.

Lemma forwardedHops_app a b : forwardedHops (a ++ b) = forwardedHops a ++ forwardedHops b.
Proof. apply bind_app. Qed.

Lemma forwardedHops_value a b : forwardedHops [a +:+ "," +:+ b] = forwardedHops [a] ++ forwardedHops [b].
Proof. unfold forwardedHops. simpl. rewrite !app_nil_r. by rewrite Split_comma_app, fmap_app. Qed.

(** An address no other spelling of the same host produces. *)
Definition canonical (a : Addr) : Prop :=
  match a with NoAddr => False | V4 _ => True | V6 bits zone => mapped bits = false /\ zone = "" end.

Lemma parse_addr_valid l a : parse_addr l = Some a -> IsValid a = true.
Proof.
  unfold parse_addr. intros Ha. repeat case_match; try done;
    repeat match goal with
    | H : (_ ≫= _) = Some _ |- _ => apply bind_Some in H as (? & ? & H)
    end; simplify_eq; [done|].
  unfold parse6 in Ha. repeat case_match; try done;
    repeat match goal with
    | H : (_ ≫= _) = Some _ |- _ => apply bind_Some in H as (? & ? & H)
    end; by simplify_eq.
Qed.

Lemma ParseAddrPort_valid s a : ParseAddrPort s = Some a -> IsValid a = true.
Proof.
  unfold ParseAddrPort. intros ([ip port] & _ & Ha)%bind_Some. case_match; [done|].
  apply bind_Some in Ha as ([ip' v6] & _ & Ha). apply bind_Some in Ha as (p & _ & Ha).
  apply bind_Some in Ha as (b & Hb & Ha). case_match; [done|]. injection Ha as <-. by eapply parse_addr_valid.
Qed.

Lemma parseHop_canonical s a : parseHop s = Some a -> canonical a.
Proof.
  unfold parseHop. case_match; [done|]. intros (b & Hb & [= <-])%bind_Some.
  assert (IsValid b = true) as Hv.
  { destruct (ParseAddr _) eqn:E; [injection Hb as <-; by eapply parse_addr_valid | by eapply ParseAddrPort_valid]. }
  destruct b as [|v|v zone]; [done | exact I |]. unfold Unmap.
  destruct (mapped v) eqn:E; [exact I | by split].
Qed.

(** The hops our own proxies added. *)
Definition proxied (r : ClientAddressResolver) (hop : string) : Prop :=
  exists a, parseHop hop = Some a /\ trustedProxy r a = true.

Lemma walk_proxies r peer right rest : Forall (proxied r) right -> rest <> [] ->
  walk r peer (right ++ rest) = walk r peer rest.
Proof.
  intros Hr Hne. induction Hr as [|hop right (a & Ha & Ht) _ IH]; simpl; [done|].
  rewrite Ha, Ht. simpl. case_bool_decide as E; [|done]. by apply app_eq_nil in E as [_ ?].
Qed.

Lemma walk_canonical r peer hops : canonical peer -> canonical (walk r peer hops).
Proof.
  intros Hp. induction hops as [|hop hops IH]; simpl; [done|].
  destruct (parseHop hop) eqn:E; [|done]. apply parseHop_canonical in E. by repeat case_match.
Qed.

Lemma Resolve_canonical r remote forwarded a : Resolve r remote forwarded = Some a -> canonical a.
Proof.
  unfold Resolve. intros (peer & Hp & Ha)%bind_Some. apply parseHop_canonical in Hp.
  destruct r as [r|]; [|by injection Ha as <-]. case_match; injection Ha as <-; [done | by apply walk_canonical].
Qed.

Lemma keep_eq width bits v w : bits <= width ->
  keep width bits v = keep width bits w <-> Z.shiftr v (width - bits) = Z.shiftr w (width - bits).
Proof.
  unfold keep. intros Hb. split.
  - intros E. apply (f_equal (fun z => Z.shiftr z (width - bits))) in E.
    by rewrite !Z.shiftr_shiftl_l, !Z.sub_diag, !Z.shiftl_0_r in E by lia.
  - by intros ->.
Qed.

(** ** Properties *)

#[export] Instance proxied_dec r hop : Decision (proxied r hop).
Proof.
  refine (cast_if (decide (trustedProxy r <$> parseHop hop = Some true))); unfold proxied.
  - abstract (destruct (parseHop hop); naive_solver).
  - abstract (intros (a & E & Ht); rewrite E in *; simpl in *; congruence).
Defined.

(** The last hop that none of our own proxies wrote, and what they added to it. *)
Lemma last_foreign_hop r hops : Exists (fun hop => ~ proxied r hop) hops -> exists left hop right,
  hops = left ++ hop :: right /\ ~ proxied r hop /\ Forall (proxied r) right.
Proof.
  induction hops as [|x hops IH] using rev_ind; [by intros ?%Exists_nil|]. intros Hf.
  destruct (decide (proxied r x)) as [Hx|Hx]; [|by exists hops, x, []].
  apply Exists_app in Hf as [Hf|Hf]; [|by apply Exists_cons in Hf as [?|?%Exists_nil]].
  destruct (IH Hf) as (left & hop & right & -> & Hhop & Hr). exists left, hop, (right ++ [x]).
  rewrite <- app_assoc. split_and!; [done..|]. apply Forall_app. split; [done|]. by constructor.
Qed.

Lemma walk_foreign r peer left hop right : ~ proxied r hop -> Forall (proxied r) right ->
  walk r peer (reverse (left ++ hop :: right)) = default peer (parseHop hop).
Proof.
  intros Hh Hr. rewrite reverse_app, reverse_cons, <- app_assoc, walk_proxies; [|by apply Forall_reverse | done].
  simpl. destruct (parseHop hop) as [a|] eqn:E; [|done].
  destruct (trustedProxy r a) eqn:Et; [|done]. exfalso. apply Hh. by exists a.
Qed.

Lemma walk_ours r peer hop right : Forall (proxied r) (hop :: right) ->
  Some (walk r peer (reverse (hop :: right))) = parseHop hop.
Proof.
  intros [(a & E & Ht) Hr]%Forall_cons. rewrite reverse_cons, walk_proxies; [|by apply Forall_reverse | done].
  simpl. by rewrite E, Ht.
Qed.

(** C35: A client cannot choose the address it is known by. The peer of a
    connection is the client unless it is one of the trusted proxies, whatever
    it claims. Behind a trusted proxy the client is the last hop of the header
    that is no proxy of ours; if that is not an address, the request is the
    peer's; a chain of nothing but ours starts at its first member. So whatever
    anyone wrote to the left of that hop, in the same header value or in earlier
    ones, changes nothing. *)
Theorem forged_hops_are_ignored r remote peer :
  peerAddress remote = Some peer ->
  (trustedProxy r peer = false -> forall forwarded, Resolve (Some r) remote forwarded = Some peer) /\
  (trustedProxy r peer = true ->
     Resolve (Some r) remote [] = Some peer /\
     (forall forwarded left hop right, forwardedHops forwarded = left ++ hop :: right ->
        ~ proxied r hop -> Forall (proxied r) right ->
        Resolve (Some r) remote forwarded = Some (default peer (parseHop hop))) /\
     (forall forwarded hop right, forwardedHops forwarded = hop :: right -> Forall (proxied r) (hop :: right) ->
        Resolve (Some r) remote forwarded = parseHop hop) /\
     (forall forged text seen, Exists (fun hop => ~ proxied r hop) (forwardedHops [seen]) ->
        Resolve (Some r) remote (forged ++ [text +:+ "," +:+ seen]) = Resolve (Some r) remote [seen] /\
        Resolve (Some r) remote (forged ++ [seen]) = Resolve (Some r) remote [seen])).
Proof.
  intros Hp. unfold Resolve. rewrite Hp. cbn [mbind option_bind]. split; [by intros -> forwarded|].
  intros ->. cbn [negb]. split_and!.
  - done.
  - intros forwarded left hop right -> Hh Hr. by rewrite walk_foreign.
  - intros forwarded hop right -> Hr. by apply walk_ours.
  - intros forged text seen (left & hop & right & Es & Hh & Hr)%last_foreign_hop.
    rewrite !forwardedHops_app, forwardedHops_value, Es. split; f_equal.
    + rewrite app_assoc, (app_assoc _ left). by rewrite !walk_foreign.
    + rewrite (app_assoc _ left). by rewrite !walk_foreign.
Qed.

(** Two resolved clients share a limiter bucket exactly when they are the
    same IPv4 address or two addresses of one IPv6 /64: a host that owns a /64
    cannot spread over buckets, and no other pair of clients is merged. *)
Theorem bucket_is_one_host (r r' : option ClientAddressResolver) remote remote' forwarded forwarded' a b :
  Resolve r remote forwarded = Some a -> Resolve r' remote' forwarded' = Some b ->
  (ClientBucket a = ClientBucket b <->
   match a, b with
   | V4 x, V4 y => x = y
   | V6 x _, V6 y _ => Z.shiftr x 64 = Z.shiftr y 64
   | _, _ => False
   end).
Proof.
  intros Ha%Resolve_canonical Hb%Resolve_canonical. unfold ClientBucket.
  destruct a as [|x|x zx], b as [|y|y zy]; try done; unfold PrefixFrom, Masked; simpl.
  - split; [by intros [=] | by intros ->].
  - destruct Ha as [_ ->], Hb as [_ ->]. rewrite <- (keep_eq 128 64 x y) by lia.
    split; [by intros [=] | by intros ->].
Qed.

(** ** Witnesses *)

Definition sample_resolver : ClientAddressResolver :=
  NewClientAddressResolver (option_list (ParsePrefix "10.0.0.0/8") ++ option_list (ParsePrefix "fd00::/8")).

(** The client wrote two hops of its own before the one the proxies saw. *)
Lemma forged_hops_are_ignored_witness :
  Resolve (Some sample_resolver) "10.0.0.1:443" (["8.8.8.8"] ++ ["9.9.9.9, 10.0.0.9" +:+ "," +:+ " 203.0.113.10, 10.0.0.2"]) =
    Some (V4 3405803786) /\
  Resolve (Some sample_resolver) "198.51.100.7:443" ["203.0.113.10"] = Some (V4 3325256711).
Proof.
  split.
  - destruct (proj2 (forged_hops_are_ignored sample_resolver "10.0.0.1:443" (V4 167772161) eq_refl) eq_refl) as (_ & _ & _ & Hf).
    rewrite (proj1 (Hf ["8.8.8.8"] "9.9.9.9, 10.0.0.9" " 203.0.113.10, 10.0.0.2"
      ltac:(apply Exists_cons; left; apply (bool_decide_eq_false_1 _); vm_compute; reflexivity))).
    vm_compute. reflexivity.
  - refine (proj1 (forged_hops_are_ignored sample_resolver "198.51.100.7:443" (V4 3325256711) _) _ ["203.0.113.10"]);
      vm_compute; reflexivity.
Defined.

Lemma bucket_is_one_host_witness : ClientBucket (V6 (2 ^ 125 + 1) "") = ClientBucket (V6 (2 ^ 125 + 7) "").
Proof.
  apply (bucket_is_one_host (Some sample_resolver) None "[2000::1]:443" "[2000::7]:443" [] []); by vm_compute.
Defined.

(** A bracketed address is read only with a port: a hop [[2001:db8::1]] counts
    as unparsable, and the request is attributed to the proxy. *)
Example bracketed_hop_needs_a_port :
  parseHop "[2001:db8::1]" = None /\ parseHop "[2001:db8::1]:443" = parseHop "2001:db8::1" /\
  Resolve (Some sample_resolver) "10.0.0.1:443" ["[2001:db8::1]"] = Some (V4 167772161).
Proof. vm_compute. done. Qed.
