(* ===== verification/Health.v ===== *)
(** * Readiness: [internal/platform/health/service.go]

    A checker's answer is read off the state at the time of the check; the two
    seconds each may take end in an error of its own. *)

From S2P Require Import Prelude GoLib.

Section Health.
Context {W : Type}.

Definition Checker : Type := W -> option error.

Record Service := mkService {
  serviceName : string;
  version : string;
  checks : gmap string Checker;
  timeout : Duration
}.

Record Result := mkResult { Checks : gmap string bool; Ready : bool }.

Definition New (serviceName version : string) (checks : gmap string Checker) : Service :=
  mkService serviceName version checks (2 * Second).

(** The order in which Go visits the map does not matter. *)
Definition Check_ (s : Service) (w : W) : Result :=
  let statuses := (fun check : Checker => bool_decide (check w = None)) <$> checks s in
  mkResult statuses (bool_decide (map_Forall (fun _ up => up = true) statuses)).

Definition ServiceName (s : Service) : string := serviceName s.
Definition Version (s : Service) : string := version s.

(** Ready exactly when no required dependency fails. *)
Lemma Check_ready s w :
  Ready (Check_ s w) = true <-> map_Forall (fun _ (check : Checker) => check w = None) (checks s).
Proof.
  unfold Check_. simpl. rewrite bool_decide_eq_true. rewrite map_Forall_fmap.
  split; intros Hf name check Hc; specialize (Hf name check Hc); unfold compose in *.
  - by apply bool_decide_eq_true_1 in Hf.
  - by apply bool_decide_eq_true_2.
Qed.
End Health.
Arguments Service : clear implicits.
Arguments Checker : clear implicits.
