(* ===== verification/Http.v ===== *)
(** * The HTTP boundary: [internal/transport/http]

    The error envelope ([errors.go]), the security headers ([headers.go]), the
    correlation id, body limit, recovery and access log middlewares and the
    error handlers ([server.go]), the client address ([clientip.go]), rate
    limiting ([ratelimit.go]), authentication ([auth.go]) and the documentation
    guard ([docs.go]), composed as [server.go] composes them. [Handlers] holds
    the operations. The tracing wrapper around the routes only observes. *)

From S2P Require Import Prelude GoLib Errsanitize JsonText Netip Wire Openapi Ratelimit Auth ClientIP.
Import Openapi.

(** ** State

    What a request may change: the outside world [W] of the use cases, the
    limiters (absent when limiting is disabled), what the refusal observer was
    told, and the log. *)
Inductive LogEntry : Type :=
| RequestCompleted (method path : string) (status : Z) (correlation_id : string)
| HandlerFailed (text method path correlation_id : string)
| HandlerPanicked (text correlation_id : string).

(** [RateLimitConfig] without its clock, which travels with a request. *)
Record RateLimitConfig := mkRateLimitConfig {
  RL_Enabled : bool;
  RL_Client : Policy; RL_ClientCapacity : Z;
  RL_Credential : Policy; RL_CredentialCapacity : Z;
  RL_Webhook : Policy;
  RL_Health : Policy; RL_HealthCapacity : Z;
  RL_IdleTTL : Duration
}.

Record rateLimiters := mkRateLimiters {
  limiter_client : Limiter;
  limiter_credential : Limiter;
  limiter_webhook : Limiter;
  limiter_health : Limiter;
  fingerprinter : option (string -> string * bool);
  has_observer : bool
}.

Record Server (W : Type) := mkServer {
  world : W;
  limiters : option rateLimiters;
  rejected : list (string * string);
  log : list LogEntry
}.
Arguments mkServer {W}.
Arguments world {W}.
Arguments limiters {W}.
Arguments rejected {W}.
Arguments log {W}.

(** ** [errors.go] and [headers.go] *)

Definition codeInvalidRequest : string := "invalid_request".
Definition codeUnauthorized : string := "unauthorized".
Definition codeInvalidSignature : string := "invalid_signature".
Definition codeProductNotFound : string := "product_not_found".
Definition codeOrderNotFound : string := "order_not_found".
Definition codeIdempotencyKeyConflict : string := "idempotency_key_conflict".
Definition codeCheckoutInProgress : string := "checkout_in_progress".
Definition codeOrderNotPayable : string := "order_not_payable".
Definition codeProviderUnavailable : string := "provider_unavailable".
Definition codeWebhookEventNotFound : string := "webhook_event_not_found".
Definition codeWebhookEventNotReplayable : string := "webhook_event_not_replayable".
Definition codeRateLimited : string := "rate_limited".
Definition codeNotImplemented : string := "not_implemented".
Definition codeInternalError : string := "internal_error".

Definition newError (ctx : Request) (code message : string) : Openapi.Error :=
  mkError code (correlation ctx) message.

Definition headerContentTypeOptions : string := "X-Content-Type-Options".
Definition headerReferrerPolicy : string := "Referrer-Policy".
Definition headerCacheControl : string := "Cache-Control".
Definition headerContentSecurity : string := "Content-Security-Policy".
Definition headerFrameOptions : string := "X-Frame-Options".
Definition strictContentSecurityPolicy : string := "default-src 'none'; frame-ancestors 'none'".

Definition setStrictSecurityHeaders (w : ResponseWriter) : ResponseWriter :=
  let w := set_header w headerContentTypeOptions "nosniff" in
  let w := set_header w headerReferrerPolicy "no-referrer" in
  let w := set_header w headerCacheControl "no-store" in
  let w := set_header w headerContentSecurity strictContentSecurityPolicy in
  set_header w headerFrameOptions "DENY".

Definition writeError (w : ResponseWriter) (r : Request) (status : Z) (code message : string) : ResponseWriter :=
  let w := setStrictSecurityHeaders w in
  let w := set_header w "Content-Type" "application/json" in
  Write (WriteHeader w status) (Json (PError (newError r code message))).

#[global] Arguments setStrictSecurityHeaders : simpl never.
#[global] Arguments writeError : simpl never.

Lemma sent_strict w : sent (setStrictSecurityHeaders w) = sent w.
Proof. done. Qed.

(** An error written first is the answer. *)
Lemma sent_writeError w r status code message : sent w = None ->
  exists hs, sent (writeError w r status code message) = Some (status, hs).
Proof.
  intros Hw. unfold writeError. eexists. eapply sent_Write, sent_WriteHeader.
  by rewrite sent_set_header, sent_strict.
Qed.

(** ** Constants of [server.go] and [docs.go] *)

Definition correlationHeader : string := "X-Correlation-ID".
Definition maxBodyBytes : Z := 65536.
Definition maxCorrelationIDLength : Z := 128.
Definition webhookPath : string := "/v1/webhooks/stripe".
Definition healthPath : string := "/health".
Definition webhookMaxBodyBytes : Z := 524288.
Definition apiKeyHeader : string := "X-API-Key".
Definition docsPath : string := "/docs".
Definition docsIndexPath : string := "/docs/".
Definition openAPIPath : string := "/openapi.yaml".
Definition retryAfterHeader : string := "Retry-After".

Definition ErrUnauthorized : error := ErrSentinel "httpserver.ErrUnauthorized" "authentication required".
Definition ErrNotServed : error := ErrSentinel "httpserver.ErrNotServed" "operation not served by this process".

(** ** Correlation *)

(** [correlationIDPattern]. *)
Definition is_alnum (c : Z) : bool := Netip.is_digit c || is_upper c || is_lower c.
Definition correlationIDPattern (s : string) : bool :=
  match codes s with
  | c :: t => is_alnum c && forallb (fun c => is_alnum c || bool_decide (c ∈ [46; 95; 58; 45])) t
  | [] => false
  end.

Definition validCorrelationID (value : string) : bool :=
  negb (value =s? "") && (len value <=? maxCorrelationIDLength) &&
  correlationIDPattern value && (Sanitize value =s? value).

Definition newCorrelationID (d : Draws) : string :=
  match random d with
  | Err _ => "fallback-" +:+ pretty (unix_nano d)
  | Ok bytes => hex_encode bytes
  end.

(** ** Rate limiting ([ratelimit.go]) *)

Definition RouteClass : Type := string.
Definition RouteClassHealth : RouteClass := "health".
Definition RouteClassDocs : RouteClass := "docs".
Definition RouteClassBusiness : RouteClass := "business".
Definition RouteClassOperations : RouteClass := "operations".
Definition RouteClassWebhook : RouteClass := "webhook".

Definition limiterClient : string := "client".
Definition limiterCredential : string := "credential".
Definition limiterWebhook : string := "webhook".
Definition limiterHealth : string := "health".

Definition newRateLimiters (cfg : RateLimitConfig) (f : option (string -> string * bool)) (observer : bool)
    : res (option rateLimiters) :=
  if negb (RL_Enabled cfg) then Ok None
  else
    match f with
    | None => Err (ErrNew "rate limiting requires a credential fingerprinter")
    | Some f =>
        let options capacity := mkOptions capacity (RL_IdleTTL cfg) in
        try client := Ratelimit.New (RL_Client cfg) (options (RL_ClientCapacity cfg)) "RATE_LIMIT_CLIENT" in
        try credential := Ratelimit.New (RL_Credential cfg) (options (RL_CredentialCapacity cfg)) "RATE_LIMIT_CREDENTIAL" in
        try webhook := Ratelimit.New (RL_Webhook cfg) (options 1) "RATE_LIMIT_WEBHOOK" in
        try health := Ratelimit.New (RL_Health cfg) (options (RL_HealthCapacity cfg)) "RATE_LIMIT_HEALTH" in
        Ok (Some (mkRateLimiters client credential webhook health (Some f) observer))
    end.

Definition globalWebhookKey : string := "webhook".

Definition coarseRouteClass (path : string) : RouteClass :=
  if path =s? healthPath then RouteClassHealth
  else if path =s? webhookPath then RouteClassWebhook
  else if (path =s? docsPath) || (path =s? openAPIPath) || HasPrefix path docsIndexPath then RouteClassDocs
  else RouteClassBusiness.

Definition routeClassFor (operationID : string) : RouteClass :=
  if operationID =s? "GetHealth" then RouteClassHealth
  else if operationID =s? "ReceiveStripeWebhook" then RouteClassWebhook
  else if (operationID =s? "ListWebhookEvents") || (operationID =s? "ReprocessWebhookEvent") then RouteClassOperations
  else RouteClassBusiness.

(** An error that carries the wait, told apart by its type. *)
Definition rateLimitedError (retryAfter : Duration) : error :=
  ErrValue "httpserver.rateLimitedError" "too many requests" retryAfter.

Section Limiting.
Context `{FloatConversion}.

(** [Allow] on a limiter. The state of a limiter the server built is
    well-formed, so the call always returns; see [Ratelimit]. *)
Definition spend (l : Limiter) (now : Time) (key : string) : Decision * Limiter :=
  default (mkDecision true 0, l) (Allow l now key).

(** [observe]: what the observer is told of one decision. *)
Definition observe (l : rateLimiters) (d : Decision) (limiter : string) (class : RouteClass) : list (string * string) :=
  if negb (Allowed d) && has_observer l then [(limiter, class)] else [].

Definition allowClient (l : rateLimiters) (now : Time) (address : Addr) (class : RouteClass)
    : Decision * rateLimiters * list (string * string) :=
  let key := Prefix_String (ClientBucket address) in
  if class =s? RouteClassHealth then
    let '(d, h) := spend (limiter_health l) now key in
    (d, mkRateLimiters (limiter_client l) (limiter_credential l) (limiter_webhook l) h (fingerprinter l) (has_observer l),
     observe l d limiterHealth class)
  else
    let '(d, c) := spend (limiter_client l) now key in
    (d, mkRateLimiters c (limiter_credential l) (limiter_webhook l) (limiter_health l) (fingerprinter l) (has_observer l),
     observe l d limiterClient class).

Definition allowWebhook (l : rateLimiters) (now : Time) : Decision * rateLimiters * list (string * string) :=
  let '(d, h) := spend (limiter_webhook l) now globalWebhookKey in
  (d, mkRateLimiters (limiter_client l) (limiter_credential l) h (limiter_health l) (fingerprinter l) (has_observer l),
   observe l d limiterWebhook RouteClassWebhook).

Definition allowCredential (l : rateLimiters) (now : Time) (credential : string) (class : RouteClass)
    : Decision * rateLimiters * list (string * string) :=
  match fingerprinter l with
  | None => (mkDecision true 0, l, [])
  | Some f =>
      let '(fingerprint, ok) := f credential in
      if negb ok then (mkDecision true 0, l, [])
      else
        let '(d, c) := spend (limiter_credential l) now fingerprint in
        (d, mkRateLimiters (limiter_client l) c (limiter_webhook l) (limiter_health l) (fingerprinter l) (has_observer l),
         observe l d limiterCredential class)
  end.
End Limiting.

(** [writeRateLimited]. *)
Definition writeRateLimited (w : ResponseWriter) (r : Request) (retryAfter : Duration) : ResponseWriter :=
  let retryAfter := if retryAfter <=? 0 then Second else retryAfter in
  let w := set_header w retryAfterHeader (pretty (Z.quot retryAfter Second)) in
  writeError w r 429 codeRateLimited "too many requests".

Definition publicOperation (operationID : string) : bool :=
  (operationID =s? "GetHealth") || (operationID =s? "ReceiveStripeWebhook").

Definition bodyLimitFor (path : string) : Z := if path =s? webhookPath then webhookMaxBodyBytes else maxBodyBytes.

Section Middlewares.
Context {W : Type} `{FloatConversion}.

Definition HandlerFunc : Type := Handler' (Server W).

Definition with_log (s : Server W) (e : LogEntry) : Server W :=
  mkServer (world s) (limiters s) (rejected s) (log s ++ [e]).
Definition with_limiters (s : Server W) (l : rateLimiters) (told : list (string * string)) : Server W :=
  mkServer (world s) (Some l) (rejected s ++ told) (log s).

Definition securityHeadersMiddleware (next : HandlerFunc) : HandlerFunc := fun r w s => next r (setStrictSecurityHeaders w) s.

Definition correlationMiddleware (next : HandlerFunc) : HandlerFunc := fun r w s =>
  let correlationID := TrimSpace (Get (Headers r) correlationHeader) in
  let correlationID := if negb (validCorrelationID correlationID) then newCorrelationID (draws r) else correlationID in
  next (with_correlation r correlationID) (set_header w correlationHeader correlationID) s.

Definition clientAddressMiddleware (resolver : option ClientAddressResolver) (next : HandlerFunc) : HandlerFunc := fun r w s =>
  match Resolve resolver (RemoteAddr r) (Values (Headers r) forwardedForHeader) with
  | None => next r w s
  | Some a => next (with_address r a) w s
  end.

Definition bodyLimitMiddleware (next : HandlerFunc) : HandlerFunc := fun r w s =>
  match RequestBody r with
  | Some b => next (with_body r (Some (MaxBytesReader b (bodyLimitFor (Path r))))) w s
  | None => next r w s
  end.

(** The recovered text is sanitized; the answer is written even when part of
    another already was. *)
Definition recoveryMiddleware (next : HandlerFunc) : HandlerFunc := fun r w s =>
  let served := next r w s in
  match served_panic served with
  | None => served
  | Some text =>
      done_with (writeError (served_writer served) r 500 codeInternalError "internal error")
        (with_log (served_state served) (HandlerPanicked (Sanitize text) (correlation r)))
  end.

(** The status the wrapper saw: 200 until [WriteHeader] names one. Nothing was
    written before the wrapper is put around the writer. *)
Definition accessLogMiddleware (next : HandlerFunc) : HandlerFunc := fun r w s =>
  let served := next r w s in
  match served_panic served with
  | Some _ => served
  | None =>
      done_with (served_writer served)
        (with_log (served_state served)
          (RequestCompleted (Method r) (Path r) (default 200 (told (served_writer served))) (correlation r)))
  end.

Definition refuse_or (next : HandlerFunc) (r : Request) (w : ResponseWriter) (s : Server W)
    (outcome : Decision * rateLimiters * list (string * string)) : Served' (Server W) :=
  let '(d, l, told) := outcome in
  let s := with_limiters s l told in
  if negb (Allowed d) then done_with (writeRateLimited w r (RetryAfter d)) s else next r w s.

Definition clientRateLimitMiddleware (next : HandlerFunc) : HandlerFunc := fun r w s =>
  match limiters s with
  | None => next r w s
  | Some l =>
      let class := coarseRouteClass (Path r) in
      if class =s? RouteClassWebhook then refuse_or next r w s (allowWebhook l (gate_time (draws r)))
      else
        match address r with
        | None => next r w s
        | Some a =>
            if IsValid a then refuse_or next r w s (allowClient l (gate_time (draws r)) a class) else next r w s
        end
  end.

(** ** Strict middlewares *)

Definition operationRateLimitMiddleware : StrictMiddlewareFunc (Server W) := fun next operationID r s =>
  match limiters s with
  | None => next r s
  | Some l =>
      let class := routeClassFor operationID in
      if (class =s? RouteClassBusiness) || (class =s? RouteClassOperations) then
        let '(d, l, told) := allowCredential l (credential_time (draws r)) (Get (Headers r) apiKeyHeader) class in
        let s := with_limiters s l told in
        if negb (Allowed d) then Returned _ (Err (rateLimitedError (RetryAfter d))) s else next r s
      else next r s
  end.

(** [None] is a nil verifier. *)
Definition apiKeyAuthenticationMiddleware (verifier : option (string -> bool)) : StrictMiddlewareFunc (Server W) :=
  fun next operationID r s =>
  if publicOperation operationID then next r s
  else
    match verifier with
    | Some valid => if valid (Get (Headers r) apiKeyHeader) then next r s else Returned _ (Err ErrUnauthorized) s
    | None => Returned _ (Err ErrUnauthorized) s
    end.

(** ** Error handlers *)

Definition requestErrorHandler : ErrorHandler (Server W) := fun r w s err =>
  if Is err MaxBytesError then done_with (writeError w r 413 codeInvalidRequest "request body too large") s
  else done_with (writeError w r 400 codeInvalidRequest (Prelude.Error err)) s.

Definition responseErrorHandler : ErrorHandler (Server W) := fun r w s err =>
  match As err "httpserver.rateLimitedError" with
  | Some retryAfter => done_with (writeRateLimited w r retryAfter) s
  | None =>
      if Is err ErrUnauthorized then
        done_with (writeError w r 401 codeUnauthorized (Prelude.Error ErrUnauthorized)) s
      else if Is err ErrNotServed then
        done_with (writeError w r 501 codeNotImplemented (Prelude.Error ErrNotServed)) s
      else
        done_with (writeError w r 500 codeInternalError "internal error")
          (with_log s (HandlerFailed (Sanitize (Prelude.Error err)) (Method r) (Path r) (correlation r)))
  end.

(** ** Documentation ([docs.go]) *)

Inductive DocsMode : Type := DocsDisabled | DocsPublic | DocsProtected.

Definition DocsModeFor (enabled development : bool) : DocsMode :=
  if negb enabled then DocsDisabled else if development then DocsPublic else DocsProtected.

(** The page the UI library serves and the policy computed from it. *)
Record docsHandler := mkDocsHandler {
  ui : HandlerFunc;
  docs_verifier : option (string -> bool);
  require : bool;
  docs_policy : string;
  openapi_document : string
}.

(** [swaggerContentSecurityPolicy], given the hashes of the page's inline
    scripts; [None] when it could not be rendered. *)
Definition swaggerContentSecurityPolicy (hashes : option (list string)) : string :=
  let scriptSources := ["'self'"] ++ match hashes with None => ["'unsafe-inline'"] | Some hs => hs end in
  String.concat "; " ["default-src 'none'"; "script-src " +:+ String.concat " " scriptSources;
    "style-src 'self' 'unsafe-inline'"; "img-src 'self' data:"; "font-src 'self'"; "connect-src 'self'";
    "base-uri 'none'"; "form-action 'none'"; "frame-ancestors 'none'"].

Definition docs_ServeHTTP (h : docsHandler) : HandlerFunc := fun r w s =>
  if require h && negb (match docs_verifier h with Some valid => valid (Get (Headers r) apiKeyHeader) | None => false end)
  then done_with (writeError w r 401 codeUnauthorized (Prelude.Error ErrUnauthorized)) s
  else if negb ((Method r =s? "GET") || (Method r =s? "HEAD")) then
    done_with (writeError (set_header w "Allow" "GET, HEAD") r 405 codeInvalidRequest "method not allowed") s
  else if Path r =s? docsPath then
    let target := docsIndexPath +:+ (if RawQuery r =s? "" then "" else "?" +:+ RawQuery r) in
    done_with (Write (WriteHeader (set_header w "Location" target) 301) (Text "Moved Permanently")) s
  else if Path r =s? openAPIPath then
    done_with (Write (set_header w "Content-Type" "application/yaml") (Text (openapi_document h))) s
  else ui h r (set_header w headerContentSecurity (docs_policy h)) s.

(** [registerDocs]; [page] is the UI library's handler, [hashes] its scripts. *)
Definition registerDocs (mode : DocsMode) (verifier : option (string -> bool)) (page : HandlerFunc) (hashes : option (list string))
    (document : string) : Mux Payload (Server W) :=
  match mode with
  | DocsDisabled => []
  | _ =>
      let handler := docs_ServeHTTP (mkDocsHandler page verifier (match mode with DocsProtected => true | _ => false end)
        (swaggerContentSecurityPolicy hashes) document) in
      [(mkPattern None (literals ["docs"]) false, handler);
       (mkPattern None (literals ["docs"]) true, handler);
       (mkPattern None (literals ["openapi.yaml"]) false, handler)]
  end.

(** ** Composition ([server.go]) *)

Definition newStrictHandler `{UnicodeTables} `{JsonErrors} (apiHandler : StrictServerInterface (Server W))
    (verifier : option (string -> bool)) : ServerInterface (Server W) :=
  NewStrictHandlerWithOptions apiHandler [apiKeyAuthenticationMiddleware verifier; operationRateLimitMiddleware]
    requestErrorHandler responseErrorHandler.

(** The chain around the routes. *)
Definition newServer (trusted : list Prefix) (mux : Mux Payload (Server W)) : HandlerFunc :=
  let base := accessLogMiddleware (recoveryMiddleware (bodyLimitMiddleware (ServeHTTP mux))) in
  let limited := clientRateLimitMiddleware base in
  let resolver := Some (NewClientAddressResolver trusted) in
  correlationMiddleware (securityHeadersMiddleware (clientAddressMiddleware resolver limited)).

Record Config := mkConfig {
  Docs : DocsMode;
  TrustedProxies : list Prefix;
  RateLimit : RateLimitConfig
}.

(** The API server: its handler and the state it starts in. *)
Definition NewWithRateLimits `{Runtime} `{UnicodeTables} `{JsonErrors} (cfg : Config)
    (apiHandler : StrictServerInterface (Server W)) (verifier : option (string -> bool))
    (fingerprinter : option (string -> string * bool)) (observer : bool)
    (page : HandlerFunc) (hashes : option (list string)) (document : string) (w : W) : res (HandlerFunc * Server W) :=
  try limiters := newRateLimiters (RateLimit cfg) fingerprinter observer in
  let mux := HandlerWithOptions (newStrictHandler apiHandler verifier) [] requestErrorHandler ++
             registerDocs (Docs cfg) verifier page hashes document in
  Ok (newServer (TrustedProxies cfg) mux, mkServer w limiters [] []).

(** How [Run] ends: the listener failed or closed on its own, or the context was
    cancelled, with the answers of [Shutdown], of the forced [Close] and of
    [Serve]. *)
Inductive RunEnd : Type :=
| ServeReturned (err : option error)
| Cancelled (shutdownErr closeErr serveErr : option error).

Definition ErrServerClosed : error := ErrSentinel "http.ErrServerClosed" "http: Server closed".

Definition serveError (err : option error) : option error :=
  match err with
  | None => None
  | Some err => if Is err ErrServerClosed then None else Some (wrapf "serve http" err)
  end.

(** [errors.Join] of two. *)
Definition Join (a b : option error) : option error :=
  match a, b with
  | Some a, Some b => Some (ErrWrap2 "" a (of_codes [10]) b "")
  | Some a, None => Some a
  | None, b => b
  end.

Definition Run (e : RunEnd) : option error :=
  match e with
  | ServeReturned err => serveError err
  | Cancelled (Some shutdownErr) closeErr serveErr =>
      Join (Some (wrapf "shutdown http" shutdownErr)) (Join closeErr (serveError serveErr))
  | Cancelled None _ serveErr => serveError serveErr
  end.

(** The worker's server: the probe alone. *)
Definition NewHealthOnly `{Runtime} `{UnicodeTables} `{JsonErrors} (cfg : Config)
    (apiHandler : StrictServerInterface (Server W)) (w : W) : HandlerFunc * Server W :=
  let wrapper := mkServerInterfaceWrapper (newStrictHandler apiHandler None) [] requestErrorHandler in
  (newServer (TrustedProxies cfg) [(mkPattern (Some "GET") (literals ["health"]) false, Wrapper_GetHealth wrapper)],
   mkServer w None [] []).
End Middlewares.
