(* ===== verification/Docs.v ===== *)
(** * The page of the API browser: the rest of [docs.go] and [server.go]

    The policy of the documentation page allows the inline scripts the page
    holds, by their SHA-256 digests ([crypto/sha256], [encoding/base64] and the
    one regular expression of the program are written out). [statusWriter], the
    writer behind the access log; [New], the constructor that panics. *)

From S2P Require Import Prelude GoLib Errsanitize JsonText Netip Wire Openapi Http Flate.
Import Openapi.

(** ** [sha256.Sum256] *)

Definition word32 (z : Z) : Z := z mod 2 ^ 32.
Definition rotate (x n : Z) : Z := Z.lor (Z.shiftr x n) (word32 (Z.shiftl x (32 - n))).

Definition round_constants : list Z :=
  [1116352408; 1899447441; 3049323471; 3921009573; 961987163; 1508970993; 2453635748; 2870763221;
   3624381080; 310598401; 607225278; 1426881987; 1925078388; 2162078206; 2614888103; 3248222580;
   3835390401; 4022224774; 264347078; 604807628; 770255983; 1249150122; 1555081692; 1996064986;
   2554220882; 2821834349; 2952996808; 3210313671; 3336571891; 3584528711; 113926993; 338241895;
   666307205; 773529912; 1294757372; 1396182291; 1695183700; 1986661051; 2177026350; 2456956037;
   2730485921; 2820302411; 3259730800; 3345764771; 3516065817; 3600352804; 4094571909; 275423344;
   430227734; 506948616; 659060556; 883997877; 958139571; 1322822218; 1537002063; 1747873779;
   1955562222; 2024104815; 2227730452; 2361852424; 2428436474; 2756734187; 3204031479; 3329325298].

Definition initial_hash : list Z :=
  [1779033703; 3144134277; 1013904242; 2773480762; 1359893119; 2600822924; 528734635; 1541459225].

(** Big-endian words. *)
Fixpoint words_of (l : list Z) : list Z :=
  match l with
  | a :: b :: c :: d :: t => (a * 16777216 + b * 65536 + c * 256 + d) :: words_of t
  | _ => []
  end.
Definition word_bytes (w : Z) : list Z := [w / 16777216; w / 65536 mod 256; w / 256 mod 256; w mod 256].

(** The schedule of a block, the latest word first. *)
Definition next_word (ws : list Z) : Z :=
  let w i := nth i ws 0 in
  let s0 := Z.lxor (Z.lxor (rotate (w 14%nat) 7) (rotate (w 14%nat) 18)) (Z.shiftr (w 14%nat) 3) in
  let s1 := Z.lxor (Z.lxor (rotate (w 1%nat) 17) (rotate (w 1%nat) 19)) (Z.shiftr (w 1%nat) 10) in
  word32 (w 15%nat + s0 + w 6%nat + s1).
Fixpoint extend (n : nat) (ws : list Z) : list Z :=
  match n with O => ws | S n => extend n (next_word ws :: ws) end.
Definition schedule (block : list Z) : list Z := reverse (extend 48 (reverse block)).

Definition round_step (h : list Z) (kw : Z * Z) : list Z :=
  match h with
  | [a; b; c; d; e; f; g; hh] =>
      let s1 := Z.lxor (Z.lxor (rotate e 6) (rotate e 11)) (rotate e 25) in
      let ch := Z.lxor (Z.land e f) (Z.land (word32 (Z.lnot e)) g) in
      let t1 := hh + s1 + ch + kw.1 + kw.2 in
      let s0 := Z.lxor (Z.lxor (rotate a 2) (rotate a 13)) (rotate a 22) in
      let maj := Z.lxor (Z.lxor (Z.land a b) (Z.land a c)) (Z.land b c) in
      [word32 (t1 + s0 + maj); a; b; c; word32 (d + t1); e; f; g]
  | _ => h
  end.

Definition hash_block (h block : list Z) : list Z :=
  zip_with (fun x y => word32 (x + y)) h (foldl round_step h (zip round_constants (schedule block))).

Fixpoint hash_blocks (n : nat) (h words : list Z) : list Z :=
  match n with
  | O => h
  | S n => hash_blocks n (hash_block h (take 16%nat words)) (drop 16%nat words)
  end.

(** A bit, zeros, and the length in bits, up to whole blocks. *)
Definition padded (l : list Z) : list Z :=
  let n := Z.of_nat (length l) in
  l ++ [128] ++ replicate (Z.to_nat ((55 - n) mod 64)) 0 ++
  ((fun i => n * 8 / 2 ^ i mod 256) <$> [56; 48; 40; 32; 24; 16; 8; 0]).

Definition Sum256 (l : list Z) : list Z :=
  let words := words_of (padded l) in
  hash_blocks (length words / 16)%nat initial_hash words ≫= word_bytes.

Example sum_abc : hex_encode (Sum256 (codes "abc")) = "ba7816bf8f01cfea414140de5dae2223b00361a396177a9cb410ff61f20015ad".
Proof. vm_compute. reflexivity. Qed.

Example sum_two_blocks : hex_encode (Sum256 (codes "abcdbcdecdefdefgefghfghighijhijkijkljklmklmnlmnomnopnopq")) =
  "248d6a61d20638b8e5c026930c3e6039a33ce45964ff2167f6ecedd419db06c1".
Proof. vm_compute. reflexivity. Qed.

(** ** [base64.StdEncoding.EncodeToString] *)

Definition group_digits (v : Z) : list Z :=
  base64_digit <$> [v / 262144 mod 64; v / 4096 mod 64; v / 64 mod 64; v mod 64].

Fixpoint base64_codes (l : list Z) : list Z :=
  match l with
  | a :: b :: c :: t => group_digits (a * 65536 + b * 256 + c) ++ base64_codes t
  | [a; b] => take 3 (group_digits (a * 65536 + b * 256)) ++ [61]
  | [a] => take 2 (group_digits (a * 65536)) ++ [61; 61]
  | [] => []
  end.
Definition base64_EncodeToString (l : list Z) : string := of_codes (base64_codes l).

Lemma base64_value_digit n : 0 <= n < 64 -> base64_value (base64_digit n) = Some n /\ base64_digit n <> 61 /\
  base64_digit n <> 10 /\ base64_digit n <> 13 /\ is_byte (base64_digit n).
Proof.
  intros Hn. unfold base64_value, base64_digit, is_byte.
  repeat (match goal with |- context [if ?b then _ else _] => destruct b eqn:? end; try lia).
  all: split_and!; try (f_equal; lia); lia.
Qed.

Lemma group_value_digits a b c d : 0 <= a < 64 -> 0 <= b < 64 -> 0 <= c < 64 -> 0 <= d < 64 ->
  group_value [base64_digit a; base64_digit b; base64_digit c; base64_digit d] = Some (((a * 64 + b) * 64 + c) * 64 + d).
Proof.
  intros Ha Hb Hc Hd. unfold group_value. cbn [foldl].
  rewrite !(fun n H => proj1 (base64_value_digit n H)) by done. f_equal. lia.
Qed.

Lemma sixth_range v m : 0 <= v / m mod 64 < 64.
Proof. apply Z.mod_pos_bound. lia. Qed.

Lemma sixths v : 0 <= v < 16777216 ->
  ((v / 262144 mod 64 * 64 + v / 4096 mod 64) * 64 + v / 64 mod 64) * 64 + v mod 64 = v.
Proof. intros Hv. Z.to_euclidean_division_equations. lia. Qed.

Lemma group_round v : 0 <= v < 16777216 -> group_value (group_digits v) = Some v.
Proof.
  intros Hv. unfold group_digits. cbn [fmap list_fmap].
  rewrite group_value_digits by (apply sixth_range || (apply Z.mod_pos_bound; lia)). by rewrite sixths.
Qed.

Lemma group_digits_plain v : Forall (fun c => is_byte c /\ c <> 61 /\ c <> 10 /\ c <> 13) (group_digits v).
Proof.
  unfold group_digits. apply Forall_fmap.
  repeat (constructor; [unfold compose; cbv beta; match goal with |- context [base64_digit ?n] =>
    destruct (base64_value_digit n) as (_ & ? & ? & ? & ?); [apply sixth_range || (apply Z.mod_pos_bound; lia) | done] end|]).
  constructor.
Qed.

(** A shorter last group ends in zero bits, which [group_value] reads from the
    digit of zero. *)
Lemma last_digits v : v mod 64 = 0 -> group_digits v = take 3 (group_digits v) ++ [65].
Proof. intros E. unfold group_digits. rewrite E. reflexivity. Qed.
Lemma last_two_digits v : v mod 4096 = 0 -> group_digits v = take 2 (group_digits v) ++ [65; 65].
Proof.
  intros E. unfold group_digits. assert (v mod 64 = 0) as -> by (Z.to_euclidean_division_equations; lia).
  assert (v / 64 mod 64 = 0) as -> by (Z.to_euclidean_division_equations; lia). reflexivity.
Qed.

Lemma group_bytes_three a b c : is_byte a -> is_byte b -> is_byte c -> group_bytes 3 (a * 65536 + b * 256 + c) = [a; b; c].
Proof.
  unfold is_byte, group_bytes. intros Ha Hb Hc. cbn [take]. repeat f_equal; Z.to_euclidean_division_equations; lia.
Qed.

Lemma base64_groups_codes l : Forall is_byte l -> base64_groups (base64_codes l) = Some l.
Proof.
  remember (length l) as n eqn:En. revert l En. induction n as [n IH] using lt_wf_ind. intros [|a [|b [|c t]]] En Hl; [done|..].
  - apply Forall_inv in Hl. unfold is_byte in Hl. assert (0 <= a * 65536 < 16777216) as Hr by lia.
    pose proof (group_round _ Hr) as Hg. rewrite last_two_digits in Hg by (Z.to_euclidean_division_equations; lia).
    cbn [base64_codes]. destruct (take 2 (group_digits (a * 65536))) as [|x [|y [|]]] eqn:Et; try done.
    cbn [app base64_groups] in *. rewrite Hg. cbn. f_equal. unfold group_bytes. cbn [take].
    f_equal. Z.to_euclidean_division_equations. lia.
  - apply Forall_cons in Hl as [Ha [Hb _]%Forall_cons]. unfold is_byte in Ha, Hb. assert (0 <= a * 65536 + b * 256 < 16777216) as Hr by lia.
    pose proof (group_round _ Hr) as Hg. pose proof (group_digits_plain (a * 65536 + b * 256)) as Hp.
    rewrite last_digits in Hg, Hp by (Z.to_euclidean_division_equations; lia).
    cbn [base64_codes]. destruct (take 3 (group_digits (a * 65536 + b * 256))) as [|x [|y [|z [|]]]] eqn:Et; try done.
    cbn [app base64_groups] in *. rewrite !Forall_cons in Hp. destruct Hp as (_ & _ & (_ & Hz & _) & _).
    destruct (Z.eqb_spec z 61); [done|]. rewrite Hg. cbn. f_equal. unfold group_bytes. cbn [take].
    repeat f_equal; Z.to_euclidean_division_equations; lia.
  - rewrite !Forall_cons in Hl. destruct Hl as (Ha & Hb & Hc & Ht). cbn [base64_codes].
    assert (0 <= a * 65536 + b * 256 + c < 16777216) as Hr by (unfold is_byte in *; lia).
    pose proof (group_round _ Hr) as Hg. pose proof (group_digits_plain (a * 65536 + b * 256 + c)) as Hp.
    pose proof (group_bytes_three a b c Ha Hb Hc) as Hb3. revert Hg Hp Hb3. generalize (a * 65536 + b * 256 + c) as v.
    intros v Hg Hp Hb3. unfold group_digits in *. cbn [fmap list_fmap app base64_groups] in *. rewrite !Forall_cons in Hp.
    destruct Hp as (_ & _ & (_ & H1 & _) & (_ & H2 & _) & _). apply Z.eqb_neq in H1 as ->. apply Z.eqb_neq in H2 as ->.
    rewrite Hg, (IH (length t)); [by rewrite Hb3 | cbn in En; lia | done | done].
Qed.

Lemma base64_codes_plain l : Forall (fun c => is_byte c /\ c <> 10 /\ c <> 13) (base64_codes l).
Proof.
  assert (forall v, Forall (fun c => is_byte c /\ c <> 10 /\ c <> 13) (group_digits v)) as Hg.
  { intros v. eapply Forall_impl; [apply group_digits_plain | naive_solver]. }
  assert (Forall (fun c => is_byte c /\ c <> 10 /\ c <> 13) [61]) as He by (repeat constructor; done || lia).
  remember (length l) as n eqn:En. revert l En. induction n as [n IH] using lt_wf_ind. intros [|a [|b [|c t]]] En.
  - constructor.
  - cbn [base64_codes]. apply Forall_app. split; [by apply Forall_take |]. by repeat (apply Forall_cons; split; [by inversion He|]).
  - cbn [base64_codes]. apply Forall_app. split; [by apply Forall_take | done].
  - cbn [base64_codes]. apply Forall_app. split; [done|]. eapply IH; [|done]. cbn in En. lia.
Qed.

Lemma filter_line_ends l : Forall (fun c => is_byte c /\ c <> 10 /\ c <> 13) l ->
  List.filter (fun c => negb ((c =? 10) || (c =? 13))) l = l.
Proof.
  induction 1 as [|c l (_ & H10 & H13) _ IH]; [done|]. cbn [List.filter].
  by rewrite (proj2 (Z.eqb_neq c 10) H10), (proj2 (Z.eqb_neq c 13) H13), IH.
Qed.

(** What is encoded decodes to itself. *)
Lemma base64_round l : Forall is_byte l -> base64_DecodeString (base64_EncodeToString l) = Some l.
Proof.
  intros Hl. unfold base64_DecodeString, base64_EncodeToString. pose proof (base64_codes_plain l) as Hp.
  rewrite codes_of_codes by (eapply Forall_impl; [exact Hp | naive_solver]).
  rewrite filter_line_ends by done. by apply base64_groups_codes.
Qed.

(** ** The regular expression of an inline script

    Its two groups are the attributes, a space and what is not [>], and the
    shortest body in front of a closing tag. *)

Fixpoint strip_prefix (p l : list Z) : option (list Z) :=
  match p, l with
  | [], _ => Some l
  | x :: p, y :: l => if x =? y then strip_prefix p l else None
  | _ :: _, [] => None
  end.

(** What precedes the first [p], and what follows it. *)
Fixpoint cut_at (p l : list Z) : option (list Z * list Z) :=
  match strip_prefix p l with
  | Some rest => Some ([], rest)
  | None =>
      match l with
      | [] => None
      | c :: l => (fun '(before, rest) => (c :: before, rest)) <$> cut_at p l
      end
  end.

Definition space_code (c : Z) : bool := (c =? 9) || (c =? 10) || (c =? 12) || (c =? 13) || (c =? 32).

Definition script_open : list Z := codes "<script".
Definition script_close : list Z := codes "</script>".

(** A match that starts here: its two groups and what follows. The attributes
    end at the first [>], which none of them holds, and the body, which is as
    short as it can be, at the first closing tag. *)
Definition match_script (l : list Z) : option (list Z * list Z * list Z) :=
  l ← strip_prefix script_open l;
  '(attributes, l) ← match l with
    | [] => None
    | c :: l' => if space_code c then cut_at [62] l else if c =? 62 then Some ([], l') else None
    end;
  '(body, l) ← cut_at script_close l;
  Some (attributes, body, l).

(** [FindAllStringSubmatch(page, -1)]: from the left, without overlaps. *)
Fixpoint find_scripts (fuel : nat) (l : list Z) : list (list Z * list Z) :=
  match fuel with
  | O => []
  | S fuel =>
      match match_script l with
      | Some (attributes, body, rest) => (attributes, body) :: find_scripts fuel rest
      | None => match l with [] => [] | _ :: l => find_scripts fuel l end
      end
  end.

Definition inlineScriptPattern (page : string) : list (list Z * list Z) :=
  find_scripts (S (String.length page)) (codes page).

Definition contains (p l : list Z) : bool := bool_decide (is_Some (cut_at p l)).

Definition script_hash (body : list Z) : string := "'sha256-" +:+ base64_EncodeToString (Sum256 body) +:+ "'".

Definition hashInlineScripts (page : string) : list string :=
  inlineScriptPattern page ≫= fun m => if contains (codes "src=") m.1 then [] else [script_hash m.2].

(** ** The hashes of a page *)

Section Pages.
Context {W : Type} `{FloatConversion}.

(** [httptest.NewRequestWithContext]: nothing but the method and the path. *)
Definition index_request : Request :=
  mkRequest "GET" ["docs"; ""] "" ∅ "192.0.2.1:1234" None "" None [] (mkDraws (Ok []) 0 0 0).

(** The page the recorder holds; the UI library writes text. *)
Definition page_text (w : ResponseWriter) : string :=
  String.concat "" ((fun c => match c with Text t => t | Json _ => "" end) <$> written w).

Definition inlineScriptHashes (page : HandlerFunc (W := W)) (s : Server W) : option (list string) :=
  let w := served_writer (page index_request (mkWriter ∅ None []) s) in
  if (response w).1 =? 200 then Some (hashInlineScripts (page_text w)) else None.

(** [New]; [fingerprinter] is the verifier's own where it has one. The result is
    an error value where the code panics with that text. *)
Definition New `{Runtime} `{UnicodeTables} `{JsonErrors} (cfg : Config) (apiHandler : StrictServerInterface (Server W))
    (verifier : option (string -> bool)) (fingerprinter : option (string -> string * bool))
    (page : HandlerFunc (W := W)) (hashes : option (list string)) (document : string) (w : W)
    : string + HandlerFunc (W := W) * Server W :=
  match NewWithRateLimits cfg apiHandler verifier fingerprinter false page hashes document w with
  | Err err => inl ("httpserver: invalid rate limit configuration: " +:+ Prelude.Error err)
  | Ok server => inr server
  end.
End Pages.

(** ** The writer behind the access log *)

Record statusWriter := mkStatusWriter { status : Z; wroteHeader : bool; ResponseWriter_ : ResponseWriter }.

Definition new_statusWriter (w : ResponseWriter) : statusWriter := mkStatusWriter 200 false w.

Definition status_WriteHeader (w : statusWriter) (code : Z) : statusWriter :=
  if wroteHeader w then w else mkStatusWriter code true (WriteHeader (ResponseWriter_ w) code).

(** The embedded writer's own, which tells the wrapper nothing. *)
Definition status_Write (w : statusWriter) (c : Chunk Payload) : statusWriter :=
  mkStatusWriter (status w) (wroteHeader w) (Write (ResponseWriter_ w) c).

Definition Unwrap (w : statusWriter) : ResponseWriter := ResponseWriter_ w.

Inductive WriterCall : Type := CallWriteHeader (code : Z) | CallWrite (c : Chunk Payload).

Definition status_call (w : statusWriter) (c : WriterCall) : statusWriter :=
  match c with CallWriteHeader code => status_WriteHeader w code | CallWrite c => status_Write w c end.

(** *** Lemmas *)

Lemma strip_prefix_app p l : strip_prefix p (p ++ l) = Some l.
Proof. induction p as [|x p IH]; [done|]. cbn. by rewrite Z.eqb_refl. Qed.

Lemma strip_prefix_Some p l rest : strip_prefix p l = Some rest -> l = p ++ rest.
Proof.
  revert l. induction p as [|x p IH]; intros l E; [by simplify_eq/=|]. destruct l as [|y l]; [done|]. cbn in E.
  destruct (Z.eqb_spec x y) as [->|]; [|done]. cbn. f_equal. by apply IH.
Qed.

Lemma cut_at_Some p l before rest : cut_at p l = Some (before, rest) -> l = before ++ p ++ rest.
Proof.
  revert before. induction l as [|c l IH]; intros before E; cbn [cut_at] in E;
    destruct (strip_prefix p _) as [t|] eqn:Es; simplify_eq; try (by apply strip_prefix_Some in Es).
  destruct (cut_at p l) as [[b r]|]; [|done]. cbn in E. simplify_eq. cbn. f_equal. by apply IH.
Qed.

(** A mark whose first code is nowhere else in it cannot begin in a text that
    does not hold it and end past it. *)
Definition marked (p : list Z) : Prop := match p with x :: p => Forall (fun y => y <> x) p | [] => False end.

Lemma strip_prefix_across x p t rest : Forall (fun y => y <> x) p ->
  strip_prefix p t = None -> strip_prefix p (t ++ x :: rest) = None.
Proof.
  intros Hp. revert t. induction Hp as [|y p Hy Hp IH]; intros [|c t] E; try done; cbn in *.
  - by rewrite (proj2 (Z.eqb_neq y x) Hy).
  - destruct (y =? c); [|done]. by apply IH.
Qed.

Lemma cut_at_first p t rest : marked p -> cut_at p t = None -> cut_at p (t ++ p ++ rest) = Some (t, rest).
Proof.
  destruct p as [|x p]; [done|]. intros Hm. induction t as [|c t IH]; intros E.
  - pose proof (strip_prefix_app (x :: p) rest) as Hs. cbn [app] in Hs |- *. cbn [cut_at]. by rewrite Hs.
  - cbn [cut_at] in E. destruct (strip_prefix (x :: p) (c :: t)) eqn:Es; [done|].
    destruct (cut_at (x :: p) t) eqn:Et; [done|]. specialize (IH eq_refl).
    change ((c :: t) ++ (x :: p) ++ rest) with (c :: (t ++ (x :: p) ++ rest)). cbn [cut_at].
    rewrite IH. replace (strip_prefix (x :: p) (c :: (t ++ (x :: p) ++ rest))) with (@None (list Z)); [done|].
    symmetry. cbn in Es |- *. destruct (x =? c); [|done]. by apply strip_prefix_across.
Qed.

Lemma marked_open : marked script_open.
Proof. vm_compute. repeat (apply List.Forall_cons; [done|]). apply List.Forall_nil. Qed.
Lemma marked_close : marked script_close.
Proof. vm_compute. repeat (apply List.Forall_cons; [done|]). apply List.Forall_nil. Qed.

(** A page, as its author wrote it: text, and scripts. *)
Inductive Piece : Type := PlainText (t : list Z) | Script (attributes body : list Z).

Definition well_formed (p : Piece) : Prop :=
  match p with
  | PlainText t => cut_at script_open t = None
  | Script attributes body =>
      match attributes with [] => True | c :: _ => space_code c = true end /\
      cut_at [62] attributes = None /\ cut_at script_close body = None
  end.

Definition render_piece (p : Piece) : list Z :=
  match p with
  | PlainText t => t
  | Script attributes body => script_open ++ attributes ++ [62] ++ body ++ script_close
  end.

Definition piece_hash (p : Piece) : list string :=
  match p with
  | PlainText _ => []
  | Script attributes body => if contains (codes "src=") attributes then [] else [script_hash body]
  end.

Lemma match_script_render attributes body rest : well_formed (Script attributes body) ->
  match_script (render_piece (Script attributes body) ++ rest) = Some (attributes, body, rest).
Proof.
  intros (Ha & Hc & Hb). unfold match_script, render_piece. rewrite <- !app_assoc, strip_prefix_app. cbn [mbind option_bind].
  destruct attributes as [|c attributes].
  - cbn [app]. change (space_code 62) with false. change (62 =? 62) with true. cbn [mbind option_bind]. by rewrite (cut_at_first script_close body rest marked_close Hb).
  - pose proof (cut_at_first [62] (c :: attributes) (body ++ script_close ++ rest) (List.Forall_nil _) Hc) as E.
    cbn [app] in E |- *. rewrite Ha, E. cbn [mbind option_bind].
    by rewrite (cut_at_first script_close body rest marked_close Hb).
Qed.

(** In front of text the match is where the text ends. *)
Lemma match_script_text t : cut_at script_open t = None -> forall rest, t <> [] ->
  (rest = [] \/ exists l, rest = script_open ++ l) -> match_script (t ++ rest) = None.
Proof.
  intros E rest Ht Hr. unfold match_script. replace (strip_prefix script_open (t ++ rest)) with (@None (list Z)); [done|].
  symmetry. destruct t as [|c t]; [done|]. cbn [cut_at] in E.
  destruct (strip_prefix script_open (c :: t)) eqn:Es; [done|].
  destruct Hr as [-> | [l ->]]; [rewrite app_nil_r; exact Es|].
  pose proof marked_open as Hm. assert (script_open = 60 :: codes "script") as Eo by done. rewrite Eo in *.
  cbn [app strip_prefix] in Es |- *. destruct (60 =? c); [|done]. by apply strip_prefix_across.
Qed.

Lemma cut_at_tail p c t : cut_at p (c :: t) = None -> cut_at p t = None.
Proof. cbn [cut_at]. destruct (strip_prefix p (c :: t)); [done|]. by destruct (cut_at p t) as [[]|]. Qed.

Lemma find_scripts_text t rest : cut_at script_open t = None -> (rest = [] \/ exists l, rest = script_open ++ l) ->
  forall fuel, find_scripts (length t + fuel) (t ++ rest) = find_scripts fuel rest.
Proof.
  intros E Hr fuel. induction t as [|c t IH]; [done|]. cbn [length Nat.add find_scripts].
  rewrite (match_script_text (c :: t) E rest) by done. cbn [app]. by apply IH, (cut_at_tail _ c).
Qed.

Lemma find_scripts_enough l : forall n m, (length l < n)%nat -> (length l < m)%nat -> find_scripts n l = find_scripts m l.
Proof.
  remember (length l) as k eqn:Ek. revert l Ek. induction k as [k IH] using lt_wf_ind.
  intros l Ek [|n] [|m] Hn Hm; try lia. cbn [find_scripts]. destruct (match_script l) as [[[a b] rest]|] eqn:E.
  - f_equal. assert (length rest < k)%nat as Hl.
    { unfold match_script in E. destruct (strip_prefix script_open l) as [l1|] eqn:E1; [|done].
      apply strip_prefix_Some in E1. cbn [mbind option_bind] in E.
      assert (exists a' l2, length l2 <= length l1 /\ cut_at script_close l2 = Some (b, rest) /\ a' = a)%nat as (a' & l2 & Hl & Ec & _).
      { destruct l1 as [|c l1]; [done|]. destruct (space_code c).
        - destruct (cut_at [62] (c :: l1)) as [[a' l2]|] eqn:E2; [|done]. cbn [mbind option_bind] in E.
          destruct (cut_at script_close l2) as [[b' r']|] eqn:E3; [|done]. cbn in E. simplify_eq.
          exists a, l2. split_and!; [|done..]. apply cut_at_Some in E2. rewrite E2, !length_app. lia.
        - destruct (c =? 62); [|done]. cbn [mbind option_bind] in E.
          destruct (cut_at script_close l1) as [[b' r']|] eqn:E3; [|done]. cbn in E. simplify_eq.
          exists [], l1. split_and!; [cbn; lia | done..]. }
      apply cut_at_Some in Ec. rewrite Ek, E1, length_app. rewrite Ec, !length_app in Hl. cbn. lia. }
    apply (IH (length rest)); lia || done.
  - destruct l as [|c l]; [done|]. cbn in Ek. apply (IH (length l)); lia || done.
Qed.

(** Text is between scripts; two texts in a row would be one. *)
Fixpoint alternating (ps : list Piece) : Prop :=
  match ps with
  | PlainText _ :: (PlainText _ :: _) => False
  | _ :: ps => alternating ps
  | [] => True
  end.

Lemma find_scripts_page ps : Forall well_formed ps -> alternating ps -> forall fuel, (length (ps ≫= render_piece) < fuel)%nat ->
  find_scripts fuel (ps ≫= render_piece) = ps ≫= fun p => match p with PlainText _ => [] | Script a b => [(a, b)] end.
Proof.
  induction ps as [|p ps IH]; intros Hw Ha fuel Hf; [by destruct fuel|].
  apply Forall_cons in Hw as [Hp Hps]. rewrite !bind_cons in *. destruct p as [t | a b].
  - assert (alternating ps) as Ha' by (destruct ps as [|[]]; done).
    assert (ps ≫= render_piece = [] \/ exists l, ps ≫= render_piece = script_open ++ l) as Hr.
    { destruct ps as [|[|a b] ps]; [by left | done | right]. rewrite bind_cons. cbn [render_piece].
      eexists. by rewrite <- app_assoc. }
    cbn [render_piece] in *. rewrite length_app in Hf.
    replace fuel with (length t + (fuel - length t))%nat by lia. rewrite find_scripts_text by done. apply IH; [done..|lia].
  - destruct fuel as [|fuel]; [lia|]. cbn [find_scripts]. rewrite match_script_render by done. cbn [app]. f_equal.
    apply IH; [done | by destruct ps|]. rewrite length_app in Hf.
    assert (length (render_piece (Script a b)) <> 0)%nat by done. lia.
Qed.

Lemma page_length l : Forall is_byte l -> String.length (of_codes l) = length l.
Proof. intros Hl. pose proof (len_codes (of_codes l)) as E. rewrite codes_of_codes in E by done. unfold len in E. lia. Qed.

(** The hashes are those of the inline scripts, in order, and of nothing else. *)
Lemma hashInlineScripts_page ps : Forall well_formed ps -> alternating ps -> Forall is_byte (ps ≫= render_piece) ->
  hashInlineScripts (of_codes (ps ≫= render_piece)) = ps ≫= piece_hash.
Proof.
  intros Hw Ha Hb. unfold hashInlineScripts, inlineScriptPattern. rewrite page_length, codes_of_codes by done.
  rewrite find_scripts_page by (done || lia). clear. induction ps as [|p ps IH]; [done|].
  rewrite !bind_cons, bind_app, IH. f_equal. destruct p; [done|]. cbn. by rewrite app_nil_r.
Qed.

(** A digest is bytes, so what the policy carries decodes to it. *)
Definition is_word (w : Z) : Prop := 0 <= w < 2 ^ 32.

Lemma word_bytes_bytes w : is_word w -> Forall is_byte (word_bytes w).
Proof.
  unfold is_word, word_bytes. intros Hw.
  assert (forall v, is_byte (v mod 256)) as Hm by (intros v; apply Z.mod_pos_bound; lia).
  apply Forall_cons. split; [unfold is_byte; Z.to_euclidean_division_equations; lia|].
  repeat (apply List.Forall_cons; [apply Hm|]). apply List.Forall_nil.
Qed.

Lemma hash_block_words h block : Forall is_word (hash_block h block).
Proof.
  unfold hash_block. generalize (foldl round_step h (zip round_constants (schedule block))) as l.
  induction h as [|x h IH]; intros [|y l]; cbn; constructor; [apply Z.mod_pos_bound; lia | apply IH].
Qed.

Lemma Sum256_bytes l : Forall is_byte (Sum256 l).
Proof.
  unfold Sum256. generalize (words_of (padded l)) as words. intros words.
  assert (forall n h ws, Forall is_word h -> Forall is_word (hash_blocks n h ws)) as Hw.
  { induction n as [|n IH]; intros h ws Hh; [done|]. cbn. apply IH, hash_block_words. }
  assert (Forall is_word initial_hash) as Hi by (repeat (apply List.Forall_cons; [by vm_compute|]); apply List.Forall_nil).
  generalize (Hw (length words / 16)%nat initial_hash words Hi). clear. induction 1 as [|w ws Hword _ IH]; [constructor|].
  rewrite bind_cons. apply Forall_app. split; [by apply word_bytes_bytes | done].
Qed.

Lemma script_hash_decodes body : exists digest, script_hash body = "'sha256-" +:+ digest +:+ "'" /\
  base64_DecodeString digest = Some (Sum256 body).
Proof. eexists. split; [done|]. apply base64_round, Sum256_bytes. Qed.

(** The page as the UI library serves it, and the hashes [registerDocs] is given. *)
Lemma inlineScriptHashes_page `{FloatConversion} {W : Type} (page : HandlerFunc (W := W)) s w ps : Forall well_formed ps ->
  alternating ps -> Forall is_byte (ps ≫= render_piece) ->
  served_writer (page index_request (mkWriter ∅ None []) s) = w -> (response w).1 = 200 ->
  page_text w = of_codes (ps ≫= render_piece) ->
  inlineScriptHashes page s = Some (ps ≫= piece_hash).
Proof.
  intros Hw Ha Hb E Hr Ht. unfold inlineScriptHashes. rewrite E, Hr, Ht, hashInlineScripts_page by done. done.
Qed.

Example two_scripts : hashInlineScripts "<head><script src='a.js'></script><script>go()</script><script type=module>x</script>" =
  ["'sha256-5KYv+PUboo5h+0+YAtGRPbwv5d/QxzHslP4YGnUaxRw='"; "'sha256-LXEWQrcmsEQBYnyp+6wy9chTD7GQPMTbAiWHF5IaSIE='"].
Proof. vm_compute. done. Qed.

(** The log shows the status the client got unless a body went out before the
    first status. *)
Definition statuses_first (calls : list WriterCall) : Prop :=
  match calls with CallWrite _ :: calls => Forall (fun c => exists b, c = CallWrite b) calls | _ => True end.

Definition logged_right (s : statusWriter) : Prop :=
  is_Some (sent (Unwrap s)) /\ status s = (response (Unwrap s)).1.

Lemma write_stays (w : ResponseWriter) c : is_Some (sent w) -> is_Some (sent (Write w c)) /\ response (Write w c) = response w.
Proof. intros [x E]. unfold response, Write. cbn [sent]. rewrite E. eauto. Qed.

Lemma status_write_right s c : logged_right s -> logged_right (status_Write s c).
Proof.
  intros [Hi E]. destruct (write_stays (Unwrap s) c Hi) as [Hi' Hr]. split; [done|].
  cbn [status status_Write]. rewrite E. change (Unwrap (status_Write s c)) with (Write (Unwrap s) c). by rewrite Hr.
Qed.

Lemma status_calls_right s calls : wroteHeader s = true -> logged_right s -> logged_right (foldl status_call s calls).
Proof.
  revert s. induction calls as [|[code | c] calls IH]; intros s Hw Hs; [done|..]; cbn [foldl status_call].
  - unfold status_WriteHeader. rewrite Hw. by apply IH.
  - apply IH; [done | by apply status_write_right].
Qed.

Lemma logged_status w calls : sent w = None -> statuses_first calls ->
  let final := foldl status_call (new_statusWriter w) calls in status final = (response (Unwrap final)).1.
Proof.
  intros Hs. destruct calls as [|[code | c] calls]; intros Hf; cbn [foldl status_call].
  - unfold response. cbn. by rewrite Hs.
  - apply status_calls_right; [done|]. unfold logged_right, response. cbn. rewrite (sent_WriteHeader w code Hs). by eauto.
  - assert (logged_right (status_Write (new_statusWriter w) c)) as Hr.
    { unfold logged_right, response, Unwrap, status_Write, Write, WriteHeader. cbn. rewrite Hs. cbn. by eauto. }
    enough (logged_right (foldl status_call (status_Write (new_statusWriter w) c) calls)) as [] by done.
    revert Hr. generalize (status_Write (new_statusWriter w) c) as s. induction Hf as [|d calls [b ->] Hf IH]; intros s Hr; [done|].
    cbn [foldl status_call]. by apply IH, status_write_right.
Qed.

(** What the wrapper remembers is what the log of [Http.accessLogMiddleware]
    reads off the writer. *)
Lemma status_told w calls : told w = None ->
  let final := foldl status_call (new_statusWriter w) calls in status final = default 200 (told (Unwrap final)).
Proof.
  intros Hw. assert (forall s, status s = default 200 (told (Unwrap s)) -> (wroteHeader s = false -> told (Unwrap s) = None) ->
    let final := foldl status_call s calls in status final = default 200 (told (Unwrap final))) as Hs.
  { induction calls as [|[code | c] calls IH]; intros s E Hn; [done|..]; cbn [foldl status_call].
    - unfold status_WriteHeader. destruct (wroteHeader s) eqn:Ew; [by refine (IH s E _); rewrite Ew|].
      refine (IH (mkStatusWriter code true (WriteHeader (ResponseWriter_ s) code)) _ _); cbn; [by unfold WriteHeader; cbn; rewrite (Hn eq_refl : told (ResponseWriter_ s) = None) | done].
    - exact (IH (status_Write s c) E Hn). }
  refine (Hs (new_statusWriter w) _ _); cbn; [by rewrite Hw | done].
Qed.

(** A handler that panics once its body began: the client got 200, and the log
    says 500. *)
Example status_after_body : let final := foldl status_call (new_statusWriter (mkWriter ∅ None []))
    [CallWrite (Text "partial"); CallWriteHeader 500] in
  (response (Unwrap final)).1 = 200 /\ status final = 500.
Proof. vm_compute. done. Qed.
