(* ===== verification/Handlers.v ===== *)
(** * The operations of the API: [internal/transport/http/handlers.go]

    [APIHandler] over the use cases it is given: what each operation asks of
    them and how an answer or an error becomes a response of the contract. *)

From S2P Require Import Prelude GoLib Webhooks Orders Payments Wire Openapi Http Health.
From S2P Require OrderApp CheckoutApp Receive.

(** ** The ports

    A use case sees the request's context, and through it its clock and
    identifiers. *)
Record OrderCreator (W : Type) := mkOrderCreator {
  Creator_Create : Request -> OrderApp.CreateInput -> M W Orders.Order;
  Creator_Get : Request -> string -> M W Orders.Order
}.
Arguments Creator_Create {W}.
Arguments Creator_Get {W}.

Definition CheckoutCreator (W : Type) : Type := Request -> CheckoutApp.CreateInput -> M W CheckoutApp.Checkout.
Definition WebhookReceiver (W : Type) : Type := Request -> Receive.ReceiveInput -> M W Receive.Outcome.

Record WebhookOperations (W : Type) := mkWebhookOperations {
  Operations_List : Request -> Status -> Z -> M W (list Receive.EventInspection);
  Operations_Reprocess : Request -> string -> M W Receive.EventInspection
}.
Arguments Operations_List {W}.
Arguments Operations_Reprocess {W}.

Record APIHandler (W : Type) := mkAPIHandler {
  health : Health.Service W;
  orders : option (OrderCreator W);
  checkouts : option (CheckoutCreator W);
  webhooks : option (WebhookReceiver W);
  operations : option (WebhookOperations W)
}.
Arguments mkAPIHandler {W}.
Arguments health {W}.
Arguments orders {W}.
Arguments checkouts {W}.
Arguments webhooks {W}.
Arguments operations {W}.

Section Handlers.
Context {W : Type}.

Definition NewAPIHandler (healthService : Health.Service W) (orders : option (OrderCreator W))
    (checkouts : option (CheckoutCreator W)) (webhooks : option (WebhookReceiver W))
    (operations : list (option (WebhookOperations W))) : APIHandler W :=
  mkAPIHandler healthService orders checkouts webhooks (default None (head operations)).

Definition Answer (A : Type) : Type := Openapi.Call (Server W) A.
Definition answer {A} (a : A) (s : Server W) : Answer A := Openapi.Returned A (Ok a) s.
Definition failure {A} (err : error) (s : Server W) : Answer A := Openapi.Returned A (Err err) s.

(** A use case runs on the world of the server. *)
Definition on_world {A} (m : M W A) (s : Server W) : res A * Server W :=
  let '(a, w) := m (world s) in (a, mkServer w (limiters s) (rejected s) (log s)).

Definition GetHealth (h : APIHandler W) (ctx : Request) (s : Server W) : Answer Openapi.GetHealthResponseObject :=
  let result := Health.Check_ (health h) (world s) in
  let checks := (fun available : bool => if available then Openapi.Up else Openapi.Down) <$> Health.Checks result in
  let response status := Openapi.mkHealthResponse checks (Health.ServiceName (health h)) status (Health.Version (health h)) in
  if negb (Health.Ready result)
  then answer (Openapi.GetHealth503JSONResponse (response Openapi.Unavailable) (correlation ctx)) s
  else answer (Openapi.GetHealth200JSONResponse (response Openapi.Ok_) (correlation ctx)) s.

Definition orderResponse (order : Orders.Order) : Openapi.Order :=
  Openapi.mkOrder (Order_Amount order) (Order_Currency order) (Order_ID order) (Order_Status order).

Definition createOrderError (ctx : Request) (err : error) (s : Server W) : Answer Openapi.CreateOrderResponseObject :=
  if Is err ErrInvalidProductID || Is err ErrInvalidQuantity || Is err ErrInvalidIdempotencyKey then
    answer (Openapi.CreateOrder400JSONResponse (newError ctx codeInvalidRequest (Error err)) (correlation ctx)) s
  else if Is err OrderApp.ErrProductNotFound then
    answer (Openapi.CreateOrder404JSONResponse (newError ctx codeProductNotFound (Error OrderApp.ErrProductNotFound))
      (correlation ctx)) s
  else if Is err OrderApp.ErrIdempotencyKeyConflict then
    answer (Openapi.CreateOrder409JSONResponse
      (newError ctx codeIdempotencyKeyConflict (Error OrderApp.ErrIdempotencyKeyConflict)) (correlation ctx)) s
  else failure (wrapf "create order" err) s.

Definition CreateOrder (h : APIHandler W) (ctx : Request) (request : Openapi.CreateOrderRequestObject) (s : Server W)
    : Answer Openapi.CreateOrderResponseObject :=
  match orders h with
  | None => failure ErrNotServed s
  | Some orders =>
      match Openapi.CreateOrder_Body request with
      | None =>
          answer (Openapi.CreateOrder400JSONResponse (newError ctx codeInvalidRequest "request body is required")
            (correlation ctx)) s
      | Some body =>
          let '(order, s) := on_world (Creator_Create orders ctx
            (OrderApp.mkCreateInput (Openapi.ProductId body) (Openapi.Quantity body)
               (Openapi.CreateOrder_IdempotencyKey (Openapi.CreateOrder_Params request)))) s in
          match order with
          | Err err => createOrderError ctx err s
          | Ok order => answer (Openapi.CreateOrder201JSONResponse (orderResponse order) (correlation ctx)) s
          end
      end
  end.

Definition GetOrder (h : APIHandler W) (ctx : Request) (request : Openapi.GetOrderRequestObject) (s : Server W)
    : Answer Openapi.GetOrderResponseObject :=
  match orders h with
  | None => failure ErrNotServed s
  | Some orders =>
      let '(order, s) := on_world (Creator_Get orders ctx (Openapi.GetOrder_OrderId request)) s in
      match order with
      | Err err =>
          if Is err OrderApp.ErrOrderNotFound then
            answer (Openapi.GetOrder404JSONResponse (newError ctx codeOrderNotFound (Error OrderApp.ErrOrderNotFound))
              (correlation ctx)) s
          else failure (wrapf "get order" err) s
      | Ok order => answer (Openapi.GetOrder200JSONResponse (orderResponse order) (correlation ctx)) s
      end
  end.

Definition createCheckoutError (ctx : Request) (err : error) (s : Server W) : Answer Openapi.CreateCheckoutResponseObject :=
  let conflict code e := answer (Openapi.CreateCheckout409JSONResponse (newError ctx code (Error e)) (correlation ctx)) s in
  if Is err ErrInvalidIdempotencyKey then
    answer (Openapi.CreateCheckout400JSONResponse (newError ctx codeInvalidRequest (Error err)) (correlation ctx)) s
  else if Is err OrderApp.ErrOrderNotFound then
    answer (Openapi.CreateCheckout404JSONResponse (newError ctx codeOrderNotFound (Error OrderApp.ErrOrderNotFound))
      (correlation ctx)) s
  else if Is err CheckoutApp.ErrIdempotencyKeyConflict then
    conflict codeIdempotencyKeyConflict CheckoutApp.ErrIdempotencyKeyConflict
  else if Is err CheckoutApp.ErrCheckoutInProgress then conflict codeCheckoutInProgress CheckoutApp.ErrCheckoutInProgress
  else if Is err CheckoutApp.ErrOrderNotPayable then conflict codeOrderNotPayable CheckoutApp.ErrOrderNotPayable
  else if Is err CheckoutApp.ErrProviderUnavailable then
    answer (Openapi.CreateCheckout502JSONResponse
      (newError ctx codeProviderUnavailable (Error CheckoutApp.ErrProviderUnavailable)) (correlation ctx)) s
  else failure (wrapf "create checkout" err) s.

Definition CreateCheckout (h : APIHandler W) (ctx : Request) (request : Openapi.CreateCheckoutRequestObject)
    (s : Server W) : Answer Openapi.CreateCheckoutResponseObject :=
  match checkouts h with
  | None => failure ErrNotServed s
  | Some create =>
      let '(checkout, s) := on_world (create ctx (CheckoutApp.mkCreateInput (Openapi.CreateCheckout_OrderId request)
        (Openapi.CreateCheckout_IdempotencyKey (Openapi.CreateCheckout_Params request)))) s in
      match checkout with
      | Err err => createCheckoutError ctx err s
      | Ok checkout =>
          answer (Openapi.CreateCheckout201JSONResponse
            (Openapi.mkCheckout (CheckoutApp.Checkout_URL checkout) (CheckoutApp.Checkout_ExpiresAt checkout))
            (correlation ctx)) s
      end
  end.

Definition optionalString (value : string) : option string := if value =s? "" then None else Some value.

Definition webhookEventResponse (event : Receive.EventInspection) : Openapi.WebhookEventInspection :=
  Openapi.mkWebhookEventInspection (Receive.EI_Attempts event) (Receive.EI_EventType event) (Receive.EI_ID event)
    (optionalString (Receive.EI_LastError event)) (Receive.EI_LastReplayedAt event)
    ((fun o => Openapi.mkOutboxInspection (Receive.OI_Attempts o) (Receive.OI_ID o) (optionalString (Receive.OI_LastError o))
       (Receive.OI_NextAttemptAt o) (Receive.OI_PublishedAt o) (Receive.OI_Status o)) <$> Receive.EI_Outbox event)
    (Receive.EI_ProcessedAt event) (Receive.EI_Provider event) (Receive.EI_ProviderEventID event)
    (Receive.EI_ReceivedAt event) (Receive.EI_ReplayCount event) (Receive.EI_Status event) (Receive.EI_UpdatedAt event).

Definition ListWebhookEvents (h : APIHandler W) (ctx : Request) (request : Openapi.ListWebhookEventsRequestObject)
    (s : Server W) : Answer Openapi.ListWebhookEventsResponseObject :=
  match operations h with
  | None => failure ErrNotServed s
  | Some operations =>
      let params := Openapi.List_Params request in
      let '(events, s) := on_world (Operations_List operations ctx (default "" (Openapi.List_Status params))
        (default 0 (Openapi.List_Limit params))) s in
      match events with
      | Err err =>
          if Is err Receive.ErrInvalidStatus || Is err Receive.ErrInvalidLimit then
            answer (Openapi.ListWebhookEvents400JSONResponse (newError ctx codeInvalidRequest (Error err))
              (correlation ctx)) s
          else failure (wrapf "list webhook events" err) s
      | Ok events => answer (Openapi.ListWebhookEvents200JSONResponse (webhookEventResponse <$> events) (correlation ctx)) s
      end
  end.

Definition ReprocessWebhookEvent (h : APIHandler W) (ctx : Request) (request : Openapi.ReprocessWebhookEventRequestObject)
    (s : Server W) : Answer Openapi.ReprocessWebhookEventResponseObject :=
  match operations h with
  | None => failure ErrNotServed s
  | Some operations =>
      let '(event, s) := on_world (Operations_Reprocess operations ctx (Openapi.Reprocess_WebhookEventId request)) s in
      match event with
      | Err err =>
          if Is err Receive.ErrEventNotFound then
            answer (Openapi.ReprocessWebhookEvent404JSONResponse
              (newError ctx codeWebhookEventNotFound (Error Receive.ErrEventNotFound)) (correlation ctx)) s
          else if Is err Receive.ErrEventNotReplayable then
            answer (Openapi.ReprocessWebhookEvent409JSONResponse
              (newError ctx codeWebhookEventNotReplayable (Error Receive.ErrEventNotReplayable)) (correlation ctx)) s
          else failure (wrapf "reprocess webhook event" err) s
      | Ok event => answer (Openapi.ReprocessWebhookEvent202JSONResponse (webhookEventResponse event) (correlation ctx)) s
      end
  end.

Definition readWebhookBody (body : option Body) : string * option error :=
  match body with None => ("", None) | Some b => ReadAll b end.

(** What the handler gives the receiving use case. *)
Definition webhook_input (ctx : Request) (request : Openapi.ReceiveStripeWebhookRequestObject) : Receive.ReceiveInput :=
  let '(rawBody, readErr) := readWebhookBody (Openapi.Receive_Body request) in
  let signature := default "" (Openapi.StripeSignature (Openapi.Receive_Params request)) in
  match readErr with
  | Some readErr =>
      Receive.mkReceiveInput "" signature (correlation ctx) (Some (ErrWrap2 "" Receive.ErrPayloadTooLarge ": " readErr ""))
  | None => Receive.mkReceiveInput rawBody signature (correlation ctx) None
  end.

Definition ReceiveStripeWebhook (h : APIHandler W) (ctx : Request) (request : Openapi.ReceiveStripeWebhookRequestObject)
    (s : Server W) : Answer Openapi.ReceiveStripeWebhookResponseObject :=
  match webhooks h with
  | None => failure ErrNotServed s
  | Some receive =>
      let '(outcome, s) := on_world (receive ctx (webhook_input ctx request)) s in
      match outcome with
      | Err err =>
          if Is err Receive.ErrInvalidSignature then
            answer (Openapi.ReceiveStripeWebhook400JSONResponse
              (newError ctx codeInvalidSignature (Error Receive.ErrInvalidSignature)) (correlation ctx)) s
          else failure (wrapf "receive stripe webhook" err) s
      | Ok outcome =>
          if outcome =s? Receive.OutcomeAccepted then answer (Openapi.ReceiveStripeWebhook202Response (correlation ctx)) s
          else answer (Openapi.ReceiveStripeWebhook200Response (correlation ctx)) s
      end
  end.

(** [APIHandler] implements the contract's interface. *)
Definition strict_interface (h : APIHandler W) : Openapi.StrictServerInterface (Server W) :=
  Openapi.mkStrictServerInterface (GetHealth h) (CreateOrder h) (GetOrder h) (CreateCheckout h) (ListWebhookEvents h)
    (ReprocessWebhookEvent h) (ReceiveStripeWebhook h).
End Handlers.
