(* ===== verification/Api.v ===== *)
(** * Properties of the HTTP boundary

    What the chain of [Http], the generated server and the operations of
    [Handlers] guarantee together, over the stores and services of the other
    components. *)

From S2P Require Import Prelude GoLib Errsanitize JsonText Netip Wire Openapi Ratelimit Http Handlers.
From S2P Require Import Store Queries Samples Receive WebhookRepo Inbox.
Import Openapi.

(** ** Requests *)

(** The parts of a request the outer middlewares leave alone. *)
Definition same_target (r r' : Request) : Prop :=
  Method r' = Method r /\ escaped r' = escaped r /\ Headers r' = Headers r /\ RequestBody r' = RequestBody r.

(** A property of the target alone. *)
Definition of_target (P : Request -> Prop) : Prop := forall r r', same_target r r' -> P r -> P r'.

Lemma match_literals ls ss vs : match_segments (literals ls) false ss = Some vs -> ss = ls.
Proof.
  revert ss. induction ls as [|l ls IH]; intros [|x ss]; simpl; try done.
  destruct (String.eqb_spec l x) as [->|]; [|done]. by intros ->%IH.
Qed.

(** ** What a handler promises

    [Post] relates the world before, the world after and the status. *)

Section Answers.
Context {W : Type} `{FloatConversion}.

Definition answered (Post : W -> W -> Z -> Prop) (w0 : W) (served : Served' (Server W)) : Prop :=
  served_panic served = None /\
  exists status hs, sent (served_writer served) = Some (status, hs) /\ Post w0 (world (served_state served)) status.

Definition answers (P : Request -> Prop) (Post : W -> W -> Z -> Prop) (h : Handler' (Server W)) : Prop :=
  forall r w s, P r -> sent w = None -> answered Post (world s) (h r w s).

(** A route takes the requests its pattern matches. *)
Definition routed (p : Pattern) (r : Request) : Prop :=
  match_method p (Method r) = true /\ is_Some (match_segments (pattern_segments p) (subtree p) (segments r)).

Section Chain.
Context (P : Request -> Prop) (Post : W -> W -> Z -> Prop).
Hypothesis HP : of_target P.

Lemma answered_error w s r status code message : sent w = None -> Post (world s) (world s) status ->
  answered Post (world s) (done_with (writeError w r status code message) s).
Proof.
  intros Hw Hs. destruct (sent_writeError w r status code message Hw) as [h Hh]. split; [done|]. by exists status, h.
Qed.

Lemma answered_limited w s r retryAfter : sent w = None -> Post (world s) (world s) 429 ->
  answered Post (world s) (done_with (writeRateLimited w r retryAfter) s).
Proof.
  intros Hw Hs. unfold writeRateLimited. apply answered_error; [|exact Hs]. rewrite sent_set_header. exact Hw.
Qed.

Lemma answers_correlation next : answers P Post next -> answers P Post (correlationMiddleware next).
Proof. intros Hn r w s Hr Hw. apply Hn; [eapply HP; [|exact Hr]; done | exact Hw]. Qed.

Lemma answers_security next : answers P Post next -> answers P Post (securityHeadersMiddleware next).
Proof. intros Hn r w s Hr Hw. apply Hn; [exact Hr | exact Hw]. Qed.

Lemma answers_address resolver next : answers P Post next -> answers P Post (clientAddressMiddleware resolver next).
Proof.
  intros Hn r w s Hr Hw. unfold clientAddressMiddleware. case_match; [|by apply Hn].
  apply Hn; [eapply HP; [|exact Hr]; done | done].
Qed.

Lemma answers_limit next : (forall w0, Post w0 w0 429) -> answers P Post next ->
  answers P Post (clientRateLimitMiddleware next).
Proof.
  intros H4 Hn r w s Hr Hw. unfold clientRateLimitMiddleware. destruct (limiters s) as [l|]; [|by apply Hn].
  assert (forall o, answered Post (world s) (refuse_or next r w s o)) as Ho.
  { intros [[d l'] told]. unfold refuse_or. change (world s) with (world (with_limiters s l' told)).
    destruct (negb (Allowed d)); [by apply answered_limited | by apply Hn]. }
  repeat case_match; auto.
Qed.

Lemma answers_access next : answers P Post next -> answers P Post (accessLogMiddleware next).
Proof.
  intros Hn r w s Hr Hw. unfold accessLogMiddleware. destruct (Hn r w s Hr Hw) as [E Hs]. by rewrite E.
Qed.

Lemma answers_recovery next : answers P Post next -> answers P Post (recoveryMiddleware next).
Proof.
  intros Hn r w s Hr Hw. unfold recoveryMiddleware. destruct (Hn r w s Hr Hw) as [E Hs]. by rewrite E.
Qed.

Lemma answers_body (P' : Request -> Prop) next :
  (forall r b, RequestBody r = Some b -> P r -> P' (with_body r (Some (MaxBytesReader b (bodyLimitFor (Path r)))))) ->
  (forall r, RequestBody r = None -> P r -> P' r) ->
  answers P' Post next -> answers P Post (bodyLimitMiddleware next).
Proof.
  intros Hb H0 Hn r w s Hr Hw. unfold bodyLimitMiddleware.
  destruct (RequestBody r) eqn:E; apply Hn; [by apply Hb | exact Hw | by apply H0 | exact Hw].
Qed.

Lemma answers_mux mux : (forall w0 status, status ∈ [301; 404; 405] -> Post w0 w0 status) ->
  (forall p h, (p, h) ∈ mux -> answers (fun r => P r /\ routed p r) Post h) ->
  answers P Post (ServeHTTP mux).
Proof.
  intros H3 Hm r w s Hr Hw. unfold ServeHTTP.
  assert (forall text st, st ∈ [301; 404; 405] -> answered Post (world s) (done_with (http_Error w text st) s)) as He.
  { intros text st Hst. destruct (sent_http_Error w text st Hw) as [h Hh]. split; [done|]. exists st, h.
    split; [done|]. by apply H3. }
  destruct (negb (clean (escaped r))).
  { split; [done|]. exists 301, (header w). split; [by apply sent_Write, sent_WriteHeader|]. apply H3. by left. }
  destruct (List.find _ mux) as [[p h]|] eqn:E.
  2:{ case_match; apply He; rewrite !elem_of_cons; tauto. }
  apply find_some in E as [Hin [Hmm Hs]%andb_true_iff]. apply list_elem_of_In in Hin.
  apply bool_decide_eq_true_1 in Hs. apply (Hm _ _ Hin); [|done]. split; [eapply HP; [|exact Hr]; done|].
  by split.
Qed.

Lemma answers_server trusted mux (P' : Request -> Prop) : (forall w0, Post w0 w0 429) ->
  (forall r b, RequestBody r = Some b -> P r -> P' (with_body r (Some (MaxBytesReader b (bodyLimitFor (Path r)))))) ->
  (forall r, RequestBody r = None -> P r -> P' r) ->
  answers P' Post (ServeHTTP mux) -> answers P Post (newServer trusted mux).
Proof.
  intros H4 Hb H0 Hm. unfold newServer.
  apply answers_correlation, answers_security, answers_address, answers_limit, answers_access, answers_recovery;
    [exact H4|]. by apply (answers_body P').
Qed.
End Chain.

(** ** Requests that change nothing *)

Definition unchanged (statuses : list Z) (w0 w1 : W) (status : Z) : Prop := w1 = w0 /\ status ∈ statuses.

Definition refused (statuses : list Z) (s : Server W) (served : Served' (Server W)) : Prop :=
  answered (unchanged statuses) (world s) served.

Lemma refused_write w s r status code message statuses : sent w = None -> status ∈ statuses ->
  refused statuses s (done_with (writeError w r status code message) s).
Proof. intros Hw Hs. by apply answered_error. Qed.

Lemma refused_write_limited w s r retryAfter statuses : sent w = None -> 429 ∈ statuses ->
  refused statuses s (done_with (writeRateLimited w r retryAfter) s).
Proof. intros Hw Hs. by apply answered_limited. Qed.

Lemma refused_same statuses s s' served : world s' = world s -> refused statuses s' served -> refused statuses s served.
Proof. unfold refused. by intros ->. Qed.

Lemma As_unauthorized : As ErrUnauthorized "httpserver.rateLimitedError" = None.
Proof. done. Qed.

Lemma request_errors_inert w s r err statuses : sent w = None -> 400 ∈ statuses -> 413 ∈ statuses ->
  refused statuses s (requestErrorHandler r w s err).
Proof. intros Hw Ha Hb. unfold requestErrorHandler. case_match; by apply refused_write. Qed.

(** An operation outside of the public list answers a request without a valid
    key itself: the implementation is not called. *)
Lemma inert_operation {A} P statuses apiHandler valid op handler (as_own : AnyResponse -> option A) visit
    requestErrors : publicOperation op = false -> 401 ∈ statuses -> 429 ∈ statuses ->
  answers (fun r => P r /\ valid (Get (Headers r) apiKeyHeader) = false) (unchanged statuses)
    (strict_answer (mkStrictHandler apiHandler
       [apiKeyAuthenticationMiddleware (Some valid); operationRateLimitMiddleware] requestErrors responseErrorHandler)
       op handler as_own visit).
Proof.
  intros Hop H1 H9 r w s [_ Hv] Hw. unfold strict_answer. cbn [fold_left middlewares ResponseErrorHandlerFunc].
  assert (forall s', apiKeyAuthenticationMiddleware (Some valid) handler op r s' = Returned _ (Err ErrUnauthorized) s') as Ha
    by (intros s'; unfold apiKeyAuthenticationMiddleware; by rewrite Hop, Hv).
  assert (forall s', world s' = world s -> refused statuses s (responseErrorHandler r w s' ErrUnauthorized)) as Hu.
  { intros s' Es. apply (refused_same _ _ s'); [done|]. by apply refused_write. }
  unfold operationRateLimitMiddleware at 1. destruct (limiters s) as [l|]; [|rewrite Ha; by apply Hu].
  destruct (_ || _); [|rewrite Ha; by apply Hu].
  destruct (allowCredential l _ _ _) as [[d l'] told]. destruct (negb (Allowed d)); [|rewrite Ha; by apply Hu].
  apply (refused_same _ _ (with_limiters s l' told)); [done|]. by apply refused_write_limited.
Qed.

(** What the binding refuses never reaches the operation either. *)
Lemma inert_bind_header `{Runtime} siw r w s name k statuses : sent w = None -> 400 ∈ statuses -> 413 ∈ statuses ->
  ErrorHandlerFunc siw = requestErrorHandler ->
  (forall v, refused statuses s (k v)) -> refused statuses s (bind_header siw r w s name k).
Proof. intros Hw Ha Hb He Hk. unfold bind_header. rewrite He. repeat case_match; auto using request_errors_inert. Qed.

Lemma inert_bind_required `{Runtime} siw r w s name k statuses : sent w = None -> 400 ∈ statuses -> 413 ∈ statuses ->
  ErrorHandlerFunc siw = requestErrorHandler ->
  (forall v, refused statuses s (k v)) -> refused statuses s (bind_required_header siw r w s name k).
Proof.
  intros Hw Ha Hb He Hk. apply inert_bind_header; try done. intros [v|]; [done|]. rewrite He.
  by apply request_errors_inert.
Qed.

Lemma inert_bind_path `{Runtime} siw r w s name k statuses : sent w = None -> 400 ∈ statuses -> 413 ∈ statuses ->
  ErrorHandlerFunc siw = requestErrorHandler ->
  (forall v, refused statuses s (k v)) -> refused statuses s (bind_path siw r w s name k).
Proof. intros Hw Ha Hb He Hk. unfold bind_path. rewrite He. case_match; auto using request_errors_inert. Qed.

Lemma inert_bind_query siw r w s {A} name (bound : option A + BindError) k statuses :
  sent w = None -> 400 ∈ statuses -> 413 ∈ statuses ->
  ErrorHandlerFunc siw = requestErrorHandler ->
  (forall v, refused statuses s (k v)) -> refused statuses s (bind_query siw r w s name bound k).
Proof. intros Hw Ha Hb He Hk. unfold bind_query. rewrite He. repeat case_match; auto using request_errors_inert. Qed.

Section Routes.
Context `{Runtime} `{UnicodeTables} `{JsonErrors} (apiHandler : StrictServerInterface (Server W)) (valid : string -> bool).

Definition api_routes : Mux Payload (Server W) :=
  HandlerWithOptions (newStrictHandler apiHandler (Some valid)) [] requestErrorHandler.

(** Neither the probe nor the provider's endpoint. *)
Definition guarded (r : Request) : Prop :=
  valid (Get (Headers r) apiKeyHeader) = false /\ segments r <> ["health"] /\ segments r <> ["v1"; "webhooks"; "stripe"].

Definition refusals : list Z := [301; 400; 401; 404; 405; 413; 429].

Lemma guarded_target : of_target guarded.
Proof. intros r r' (_ & Es & Eh & _). unfold guarded, segments. by rewrite Es, Eh. Qed.

Lemma inert_strict {A} op handler (as_own : AnyResponse -> option A) visit r w s : publicOperation op = false ->
  guarded r -> sent w = None ->
  refused refusals s (strict_answer (mkStrictHandler apiHandler
       [apiKeyAuthenticationMiddleware (Some valid); operationRateLimitMiddleware] requestErrorHandler responseErrorHandler)
       op handler as_own visit r w s).
Proof.
  intros Hop (Hv & _) Hw. apply (inert_operation (fun _ => True)); [exact Hop | | | by split | exact Hw];
    unfold refusals; rewrite !elem_of_cons; tauto.
Qed.

Lemma inert_routes p h : (p, h) ∈ api_routes -> answers (fun r => guarded r /\ routed p r) (unchanged refusals) h.
Proof.
  intros Hin r w s [Hg [_ Hs]] Hw.
  assert (400 ∈ refusals /\ 413 ∈ refusals) as [R0 R3] by (unfold refusals; rewrite !elem_of_cons; tauto).
  unfold api_routes, HandlerWithOptions in Hin. rewrite !elem_of_cons, elem_of_nil in Hin.
  destruct Hg as (Hv & Hh & Hw'). assert (guarded r) as Hg by done.
  destruct Hin as [[= -> ->]|[[= -> ->]|[[= -> ->]|[[= -> ->]|[[= -> ->]|[[= -> ->]|[[= -> ->]|[]]]]]]]].
  - exfalso. apply Hh. destruct Hs as [vs Hs]. by apply (match_literals ["health"] _ vs).
  - apply inert_bind_required; [exact Hw | exact R0 | exact R3 | reflexivity |]. intros key. unfold through. cbn [fold_left HandlerMiddlewares Wrapped].
    cbn [SI_CreateOrder newStrictHandler NewStrictHandlerWithOptions]. unfold Strict_CreateOrder.
    destruct (Decode _ _ _) as [body [err|]]; [by apply request_errors_inert | by apply inert_strict].
  - apply inert_bind_path; [exact Hw | exact R0 | exact R3 | reflexivity |]. intros id. by apply inert_strict.
  - apply inert_bind_path; [exact Hw | exact R0 | exact R3 | reflexivity |]. intros id.
    apply inert_bind_required; [exact Hw | exact R0 | exact R3 | reflexivity |]. intros key. by apply inert_strict.
  - apply inert_bind_query; [exact Hw | exact R0 | exact R3 | reflexivity |]. intros st.
    apply inert_bind_query; [exact Hw | exact R0 | exact R3 | reflexivity |]. intros n. by apply inert_strict.
  - apply inert_bind_path; [exact Hw | exact R0 | exact R3 | reflexivity |]. intros id. by apply inert_strict.
  - exfalso. apply Hw'. destruct Hs as [vs Hs]. by apply (match_literals ["v1"; "webhooks"; "stripe"] _ vs).
Qed.
End Routes.

(** The documentation routes. *)
Definition docs_route (r : Request) : Prop := head (segments r) = Some "docs" \/ segments r = ["openapi.yaml"].

Lemma docs_handler_inert h r w s (valid : string -> bool) : require h = true -> docs_verifier h = Some valid ->
  valid (Get (Headers r) apiKeyHeader) = false -> sent w = None -> refused refusals s (docs_ServeHTTP h r w s).
Proof.
  intros Hr Hv Hk Hw. unfold docs_ServeHTTP. rewrite Hr, Hv, Hk. cbn [negb andb].
  apply refused_write; [exact Hw|]. unfold refusals. rewrite !elem_of_cons. tauto.
Qed.

Lemma inert_docs mode valid page hashes document p h : (p, h) ∈ registerDocs (W := W) mode (Some valid) page hashes document ->
  answers (fun r => (guarded valid r /\ (mode = DocsPublic -> ~ docs_route r)) /\ routed p r) (unchanged refusals) h.
Proof.
  intros Hin r w s [[(Hv & _) Hd] [_ [vs Hs]]] Hw. unfold registerDocs in Hin.
  assert (p ∈ [mkPattern None (literals ["docs"]) false; mkPattern None (literals ["docs"]) true;
    mkPattern None (literals ["openapi.yaml"]) false] -> docs_route r) as Hp.
  { rewrite !elem_of_cons, elem_of_nil. intros [->|[->|[->|[]]]]; cbn [pattern_segments subtree] in Hs.
    - apply match_literals in Hs. left. by rewrite Hs.
    - left. destruct (segments r) as [|x ss]; [done|]. cbn [literals fmap list_fmap match_segments] in Hs.
      by destruct (String.eqb_spec "docs" x) as [<-|].
    - apply match_literals in Hs. by right. }
  assert (forall handler, (p, h) ∈ [(mkPattern None (literals ["docs"]) false, handler);
    (mkPattern None (literals ["docs"]) true, handler); (mkPattern None (literals ["openapi.yaml"]) false, handler)] ->
    h = handler /\ docs_route r) as Hh.
  { intros handler. rewrite !elem_of_cons, elem_of_nil. intros [[= E1 E2]|[[= E1 E2]|[[= E1 E2]|[]]]];
      (split; [exact E2|]); apply Hp; rewrite E1, !elem_of_cons; tauto. }
  destruct mode; [by apply not_elem_of_nil in Hin| |]; destruct (Hh _ Hin) as [Eh Hdr]; [by destruct Hd|].
  rewrite Eh. by apply (docs_handler_inert _ _ _ _ valid).
Qed.
End Answers.

(** ** The provider's endpoint *)

Section Webhook.
Context `{FloatConversion} `{Runtime} `{Postgres} `{Verifier}.

(** The receiving use case over the database, with the clock and the
    identifiers a request's handling draws. *)
Definition webhook_receiver (service : Request -> Receive.Service) : WebhookReceiver Store := fun ctx input w =>
  let '(out, _, w) := Receive (service ctx) input 0 w in (out, w).

Definition raw_bytes (raw : option Body) : string := default "" (body_bytes <$> raw).

(** The answers on which the provider delivers the event again. *)
Definition failures : list Z := [301; 400; 401; 404; 405; 413; 429; 500; 501].

(** What a status says of the inbox, for a request that carried [raw]. *)
Definition webhook_post (service : Request -> Receive.Service) (raw : option Body) (w0 w1 : Store) (status : Z) : Prop :=
  schema (st_db w0) -> idle w0 ->
  idle w1 /\ schema (st_db w1) /\
  (status ∈ [200; 202] \/ status ∈ failures) /\
  exists ctx input,
    (status ∈ failures ->
       st_db w1 = st_db w0 \/ exists o, accepted (service ctx) input (st_db w0) (st_db w1) o) /\
    (status ∈ [200; 202] ->
       RawBody input = raw_bytes raw /\ len (raw_bytes raw) <= webhookMaxBodyBytes /\ (raw ≫= body_end) = None) /\
    (status = 202 -> accepted (service ctx) input (st_db w0) (st_db w1) OutcomeAccepted) /\
    (status = 200 -> accepted (service ctx) input (st_db w0) (st_db w1) OutcomeIgnored \/
       st_db w1 = st_db w0 /\ exists pid, delivers input = Some pid /\ known Verifier_Provider pid (st_db w0)).

Lemma webhook_refused service raw w0 status : status ∈ failures -> 
  webhook_post service raw w0 w0 status.
Proof.
  intros Hs Hsc Hi. split_and!; [done | done | by right|].
  exists (mkRequest "" [] "" ∅ "" None "" None [] (mkDraws (Ok []) 0 0 0)), (mkReceiveInput "" "" "" None).
  assert (status <> 200 /\ status <> 202) as [N0 N2].
  { revert Hs. unfold failures. rewrite !elem_of_cons, elem_of_nil. lia. }
  split_and!; [by left | | done | done]. rewrite !elem_of_cons, elem_of_nil. tauto.
Qed.

(** The input of a body within the limit is the body, byte for byte. *)
Lemma webhook_input_raw ctx params raw :
  let input := webhook_input ctx (mkReceiveStripeWebhookRequestObject params
    ((fun b => MaxBytesReader b webhookMaxBodyBytes) <$> raw)) in
  ReadError input = None -> RawBody input = raw_bytes raw /\ len (raw_bytes raw) <= webhookMaxBodyBytes /\ (raw ≫= body_end) = None.
Proof.
  unfold webhook_input. destruct raw as [b|]; simpl; [|done]. unfold readWebhookBody, ReadAll, MaxBytesReader.
  destruct (Z.ltb_spec webhookMaxBodyBytes (len (body_bytes b))); simpl; [done|]. by destruct (body_end b).
Qed.

Lemma delivers_read input pid : delivers input = Some pid -> ReadError input = None.
Proof. unfold delivers. by destruct (ReadError input). Qed.

Lemma accepted_read s input d d' o : accepted s input d d' o -> ReadError input = None.
Proof. by destruct 1 as [p e Hv|p e m Hv]; destruct Hv. Qed.

(** One call of the operation. *)
Lemma webhook_operation h service ctx params raw s w :
  webhooks h = Some (webhook_receiver service) -> sent w = None ->
  exists c s', ReceiveStripeWebhook h ctx (mkReceiveStripeWebhookRequestObject params
      ((fun b => MaxBytesReader b webhookMaxBodyBytes) <$> raw)) s = Returned _ c s' /\
    match c with
    | Ok a =>
        (VisitReceiveStripeWebhookResponse a w).2 = None /\
        exists status hs, sent (VisitReceiveStripeWebhookResponse a w).1 = Some (status, hs) /\
          webhook_post service raw (world s) (world s') status
    | Err err => forall status, status ∈ failures -> webhook_post service raw (world s) (world s') status
    end.
Proof.
  intros Hh Hw. unfold ReceiveStripeWebhook. rewrite Hh. unfold on_world, webhook_receiver.
  set (input := webhook_input _ _). pose proof (webhook_input_raw ctx params raw) as Hin. fold input in Hin.
  destruct (Receive (service ctx) input 0 (world s)) as [[out log'] w'] eqn:E.
  pose proof (fun Hs Hi => Receive_cases _ _ _ _ _ _ _ Hs Hi E) as Hc.
  assert (forall status, status ∈ failures -> (exists err, out = Err err) -> webhook_post service raw (world s) w' status) as Hfail.
  { intros status Hst [err ->] Hs Hi. destruct (Hc Hs Hi) as (Hi' & Hs' & Hor).
    assert (status <> 200 /\ status <> 202) as [N0 N2]
      by (revert Hst; unfold failures; rewrite !elem_of_cons, elem_of_nil; lia).
    split_and!; [done | done | by right|]. exists ctx, input. split_and!; [intros _ | | done | done].
    - destruct Hor as [[? _]|(o & Ha & _)]; eauto.
    - rewrite !elem_of_cons, elem_of_nil. tauto. }
  assert (forall status, 200 <= status <= 202 -> status ∈ failures -> False) as Hno.
  { intros status Hr. unfold failures. rewrite !elem_of_cons, elem_of_nil. lia. }
  destruct out as [o|err].
  - destruct (o =s? OutcomeAccepted) eqn:Eo.
    + apply String.eqb_eq in Eo. subst o. eexists (Ok _), _. split; [reflexivity|]. split; [done|].
      exists 202, (header (set_header w "X-Correlation-ID" (correlation ctx))).
      split; [by apply sent_WriteHeader|]. intros Hs Hi. destruct (Hc Hs Hi) as (Hi' & Hs' & Hor).
      split_and!; [done | done | left; rewrite !elem_of_cons; tauto|]. exists ctx, input.
      destruct Hor as [[_ [[err [=]]|[[=] _]]]|(o & Ha & [[= <-]|[err [=]]])].
      split_and!; [by intros ?%Hno | intros _; apply Hin; by eapply accepted_read | done | done].
    + eexists (Ok _), _. split; [reflexivity|]. split; [done|].
      exists 200, (header (set_header w "X-Correlation-ID" (correlation ctx))).
      split; [by apply sent_WriteHeader|]. intros Hs Hi. destruct (Hc Hs Hi) as (Hi' & Hs' & Hor).
      split_and!; [done | done | left; rewrite !elem_of_cons; tauto|]. exists ctx, input.
      destruct Hor as [[Hd [[err [=]]|[[= ->] (pid & Hp & Hk)]]]|(o' & Ha & [[= <-]|[err [=]]])].
      * split_and!; [by intros ?%Hno | intros _; apply Hin; by eapply delivers_read | done |].
        intros _. right. split; [done|]. by exists pid.
      * split_and!; [by intros ?%Hno | intros _; apply Hin; by eapply accepted_read | done |].
        intros _. left. destruct Ha; [by eapply AcceptedIgnored|done].
  - destruct (Is err ErrInvalidSignature).
    + eexists (Ok _), _. split; [reflexivity|]. split; [done|]. eexists 400, _.
      split; [by eapply sent_Write, sent_WriteHeader|]. apply Hfail; [unfold failures; rewrite !elem_of_cons; tauto | eauto].
    + eexists (Err _), _. split; [reflexivity|]. intros status Hst. apply Hfail; [exact Hst | eauto].
Qed.

Lemma failure_status status : In status failures -> status ∈ failures.
Proof. apply list_elem_of_In. Qed.

(** The error handlers answer a failure, whatever the error. *)
Lemma request_error_fails (Post : Store -> Store -> Z -> Prop) r w (s : Server Store) err : sent w = None ->
  (forall status, status ∈ failures -> Post (world s) (world s) status) ->
  answered Post (world s) (requestErrorHandler r w s err).
Proof.
  intros Hw Hp. unfold requestErrorHandler.
  case_match; (apply answered_error; [exact Hw|]; apply Hp, failure_status; simpl; tauto).
Qed.

Lemma response_error_fails (Post : Store -> Store -> Z -> Prop) w0 r w (s : Server Store) err : sent w = None ->
  (forall status, status ∈ failures -> Post w0 (world s) status) ->
  answered Post w0 (responseErrorHandler r w s err).
Proof.
  intros Hw Hp. unfold responseErrorHandler, writeRateLimited.
  assert (forall w' (s' : Server Store) st code message, sent w' = None -> world s' = world s -> st ∈ failures ->
    answered Post w0 (done_with (writeError w' r st code message) s')) as He.
  { intros w' s' st code message Hw' Es Hst. destruct (sent_writeError w' r st code message Hw') as [hs Hh].
    split; [done|]. exists st, hs. split; [exact Hh|]. simpl. rewrite Es. by apply Hp. }
  repeat case_match; (apply He; [exact Hw | reflexivity | apply failure_status; simpl; tauto]).
Qed.

Lemma webhook_answers `{UnicodeTables} `{JsonErrors} h service valid raw p hd :
  webhooks h = Some (webhook_receiver service) ->
  (p, hd) ∈ api_routes (strict_interface h) valid ->
  answers (fun r => (segments r = ["v1"; "webhooks"; "stripe"] /\
                     RequestBody r = (fun b => MaxBytesReader b webhookMaxBodyBytes) <$> raw) /\ routed p r)
    (webhook_post service raw) hd.
Proof.
  intros Hh Hin r w s [[Hseg Hraw] [_ Hs]] Hw.
  pose proof (webhook_refused service raw (world s)) as Hno.
  unfold api_routes, HandlerWithOptions in Hin. rewrite !elem_of_cons, elem_of_nil in Hin.
  destruct Hin as [[= -> ->]|[[= -> ->]|[[= -> ->]|[[= -> ->]|[[= -> ->]|[[= -> ->]|[[= -> ->]|[]]]]]]]];
    try (exfalso; rewrite Hseg in Hs; destruct Hs as [vs Hs]; vm_compute in Hs; discriminate).
  unfold Wrapper_ReceiveStripeWebhook, bind_header. cbn [ErrorHandlerFunc].
  assert (forall params, answered (webhook_post service raw) (world s)
    (Strict_ReceiveStripeWebhook (mkStrictHandler (strict_interface h)
       [apiKeyAuthenticationMiddleware (Some valid); operationRateLimitMiddleware] requestErrorHandler responseErrorHandler)
       params r w s)) as Hk.
  { intros params. unfold Strict_ReceiveStripeWebhook, strict_answer. cbn [fold_left middlewares ssi ResponseErrorHandlerFunc].
    unfold operationRateLimitMiddleware, apiKeyAuthenticationMiddleware.
    change (publicOperation "ReceiveStripeWebhook") with true. cbv iota.
    change (routeClassFor "ReceiveStripeWebhook") with RouteClassWebhook.
    change (RouteClassWebhook =s? RouteClassBusiness) with false.
    change (RouteClassWebhook =s? RouteClassOperations) with false. cbn [orb].
    destruct (webhook_operation h service r params raw s w Hh Hw) as (c & s' & E & Hc). rewrite <- Hraw in E.
    assert (forall A (x : A), match limiters s with Some _ => x | None => x end = x) as Hl by (by intros; destruct (limiters s)).
    rewrite Hl. cbn [SSI_ReceiveStripeWebhook strict_interface]. rewrite E. destruct c as [a|err]; cbn [answer_as].
    - destruct Hc as [Hv Hc]. destruct (VisitReceiveStripeWebhookResponse a w) as [w' e]. simpl in Hv, Hc. rewrite Hv.
      by split.
    - apply response_error_fails; [exact Hw | exact Hc]. }
  case_match; [|apply Hk]. repeat case_match; try apply Hk;
    (apply request_error_fails; [exact Hw | exact Hno]).
Qed.
End Webhook.

(** ** Properties *)

(** A request without a valid API key, to anything but the probe, the
    provider's endpoint and public documentation, is answered 301, 400, 401,
    404, 405, 413 or 429 and changes nothing outside the server, whatever the
    operations behind the routes would do: no use case runs. *)
Theorem unauthenticated_requests_change_nothing {W : Type} `{FloatConversion} `{Runtime} `{UnicodeTables} `{JsonErrors}
    (cfg : Config) (apiHandler : StrictServerInterface (Server W)) (valid : string -> bool) fingerprinter observer
    page hashes document (w : W) handler s0 (r : Request) (s : Server W) :
  NewWithRateLimits cfg apiHandler (Some valid) fingerprinter observer page hashes document w = Ok (handler, s0) ->
  valid (Get (Headers r) apiKeyHeader) = false ->
  segments r <> ["health"] -> segments r <> ["v1"; "webhooks"; "stripe"] ->
  (Docs cfg = DocsPublic -> ~ docs_route r) ->
  let served := handler r (mkWriter ∅ None []) s in
  world (served_state served) = world s /\ served_panic served = None /\
  (response (served_writer served)).1 ∈ [301; 400; 401; 404; 405; 413; 429].
Proof.
  intros HN Hv Hh Hw Hd. unfold NewWithRateLimits in HN. destruct (newRateLimiters _ _ _); [|done].
  injection HN as <- _. set (P := fun r => guarded valid r /\ (Docs cfg = DocsPublic -> ~ docs_route r)).
  assert (of_target P) as HP.
  { intros r1 r2 (E1 & E2 & E3 & E4) [Hg Hdocs]. split; [by apply (guarded_target valid r1)|].
    unfold docs_route, segments in *. by rewrite E2. }
  assert (answers P (unchanged refusals) (newServer (TrustedProxies cfg) (api_routes apiHandler valid ++
    registerDocs (Docs cfg) (Some valid) page hashes document))) as Hi.
  { assert (forall z, In z refusals -> z ∈ refusals) as Hr by (intros z; apply list_elem_of_In).
    apply (answers_server P _ HP _ _ P).
    - intros w0. split; [done|]. apply Hr. simpl. tauto.
    - intros r1 b _ Hp. exact Hp.
    - by intros r1 _.
    - apply answers_mux; [exact HP | |].
      + intros w0 status Hs. split; [done|]. apply Hr. revert Hs. rewrite !elem_of_cons, elem_of_nil. simpl. naive_solver.
      + intros p h [Hin|Hin]%elem_of_app.
        * intros r1 w1 s1 [[Hg _] Hm] Hw1. eapply inert_routes; [exact Hin | by split | exact Hw1].
        * eapply inert_docs. exact Hin. }
  destruct (Hi r (mkWriter ∅ None []) s) as (Ep & st & hs & Est & Es & Hst); [by split | done|].
  intros served. assert (sent (served_writer served) = Some (st, hs)) as E by exact Est.
  split_and!; [exact Es | exact Ep|]. unfold response. rewrite E. exact Hst.
Qed.

(** C5: The provider is told to stop delivering an event only when the event is
    durably in the inbox. A 202 stored the verified event of exactly the bytes
    the request carried together with its pending message, in this call; a 200
    stored it as ignored, or changed nothing because the provider's event was
    already there; a body that was cut short or is over the limit gets neither.
    On every other answer the provider delivers again. *)
Theorem provider_stops_only_for_stored_events `{FloatConversion} `{Runtime} `{UnicodeTables} `{JsonErrors}
    `{Postgres} `{Verifier} (cfg : Config) (h : APIHandler Store) (service : Request -> Receive.Service)
    (valid : string -> bool) fingerprinter observer page hashes document (w : Store) handler s0
    (r : Request) (s : Server Store) :
  NewWithRateLimits cfg (strict_interface h) (Some valid) fingerprinter observer page hashes document w = Ok (handler, s0) ->
  webhooks h = Some (webhook_receiver service) ->
  segments r = ["v1"; "webhooks"; "stripe"] -> schema (st_db (world s)) -> idle (world s) ->
  let served := handler r (mkWriter ∅ None []) s in
  let d := st_db (world s) in let d' := st_db (world (served_state served)) in
  let status := (response (served_writer served)).1 in
  schema d' /\ idle (world (served_state served)) /\
  ((exists ctx input, RawBody input = raw_bytes (RequestBody r) /\ len (raw_bytes (RequestBody r)) <= webhookMaxBodyBytes /\
      (RequestBody r ≫= body_end) = None /\
      (status = 202 /\ accepted (service ctx) input d d' OutcomeAccepted \/
       status = 200 /\ (accepted (service ctx) input d d' OutcomeIgnored \/
         d' = d /\ exists pid, delivers input = Some pid /\ known Verifier_Provider pid d))) \/
   (status ∈ failures /\ (d' = d \/ exists ctx input o, accepted (service ctx) input d d' o))).
Proof.
  intros HN Hh Hseg Hs Hi. unfold NewWithRateLimits in HN. destruct (newRateLimiters _ _ _); [|done].
  injection HN as <- _. set (raw := RequestBody r).
  set (P := fun r' => segments r' = ["v1"; "webhooks"; "stripe"] /\ RequestBody r' = raw).
  set (P' := fun r' => segments r' = ["v1"; "webhooks"; "stripe"] /\
    RequestBody r' = (fun b => MaxBytesReader b webhookMaxBodyBytes) <$> raw).
  assert (answers P (webhook_post service raw) (newServer (TrustedProxies cfg)
    (api_routes (strict_interface h) valid ++ registerDocs (Docs cfg) (Some valid) page hashes document))) as Ha.
  { apply (answers_server P _) with (P' := P').
    - intros r1 r2 (_ & E2 & _ & E4) [? ?]. unfold P, segments in *. rewrite E2, E4. by split.
    - intros w0. apply webhook_refused, failure_status. simpl. tauto.
    - intros r1 b Eb [E1 E2]. split; [done|]. cbn [RequestBody with_body]. rewrite <- E2, Eb.
      unfold bodyLimitFor, Path. by rewrite E1.
    - intros r1 E0 [E1 E2]. split; [done|]. by rewrite <- E2, E0.
    - apply answers_mux.
      + intros r1 r2 (_ & E2 & _ & E4) [? ?]. unfold P', segments in *. rewrite E2, E4. by split.
      + intros w0 status Hst. apply webhook_refused. revert Hst. unfold failures.
        rewrite !elem_of_cons, elem_of_nil. tauto.
      + intros p hd [Hin|Hin]%elem_of_app; [by eapply webhook_answers|].
        intros r1 w1 s1 [[E1 _] [_ [vs Hm]]]. exfalso. unfold registerDocs in Hin.
        destruct (Docs cfg); [by apply not_elem_of_nil in Hin| |]; rewrite !elem_of_cons, elem_of_nil in Hin;
          destruct Hin as [[= -> _]|[[= -> _]|[[= -> _]|[]]]]; rewrite E1 in Hm; vm_compute in Hm; discriminate. }
  destruct (Ha r (mkWriter ∅ None []) s) as (_ & st & hs & Est & Hp); [by split | done|].
  intros served d d' status. assert (sent (served_writer served) = Some (st, hs)) as E by exact Est.
  assert (status = st) as -> by (unfold status, response; by rewrite E). clear E.
  destruct (Hp Hs Hi) as (Hi' & Hs' & Hst & ctx & input & Hf & Hr & H202 & H200).
  split_and!; [exact Hs' | exact Hi' |]. destruct Hst as [Hst|Hst]; [left | right; split; [exact Hst|]].
  - exists ctx, input. destruct (Hr Hst) as (R1 & R2 & R3). split_and!; [done..|].
    rewrite !elem_of_cons, elem_of_nil in Hst. destruct Hst as [Est0|[Est0|[]]]; [right | left]; auto.
  - destruct (Hf Hst) as [?|[o Ho]]; [by left|]. right. by exists ctx, input, o.
Qed.

(** ** Witnesses *)

#[local] Instance sample_float : FloatConversion := fun z => z.
#[local] Instance sample_runtime : Runtime := {|
  BindStyledParameter := fun _ value => Ok value;
  BindQueryString := fun _ _ => inl None;
  BindQueryInt := fun _ _ => inl None;
|}.
#[local] Existing Instance sample_unicode.
#[local] Existing Instance sample_errors.
#[local] Existing Instance sample_postgres.
#[local] Existing Instance sample_verifier.

(** The API without limits or documentation, over the sample inbox. *)
Definition sample_config : Config :=
  mkConfig DocsDisabled [] (mkRateLimitConfig false (mkPolicy 1 1) 1 (mkPolicy 1 1) 1 (mkPolicy 1 1) (mkPolicy 1 1) 1 0).
Definition sample_api : APIHandler Store :=
  mkAPIHandler (Health.New "api" "dev" ∅) None None (Some (webhook_receiver (fun _ => sample_receiver))) None.
Definition sample_valid (key : string) : bool := key =s? "integration-key-0123456789abcdef-1".
Definition sample_page : HandlerFunc (W := Store) := fun r w s => done_with w s.
Definition sample_built : res (HandlerFunc (W := Store) * Server Store) :=
  NewWithRateLimits sample_config (strict_interface sample_api) (Some sample_valid) None false sample_page None "" sample_store.

Definition sample_request (method : string) (ss : list string) (hs : Header) (body : string) : Request :=
  mkRequest method ss "" hs "203.0.113.10:4711" (Some (mkBody body None)) "" None [] (mkDraws (Ok [1; 2]) 0 0 0).

Lemma unauthenticated_requests_change_nothing_witness : exists handler s0,
  sample_built = Ok (handler, s0) /\
  let served := handler (sample_request "POST" ["v1"; "orders"] {["Idempotency-Key" := ["k"]]} "{}") (mkWriter ∅ None []) s0 in
  world (served_state served) = world s0 /\ served_panic served = None /\
  (response (served_writer served)).1 ∈ [301; 400; 401; 404; 405; 413; 429].
Proof.
  destruct sample_built as [[handler s0]|err] eqn:E; [|discriminate E].
  exists handler, s0. split; [reflexivity|].
  apply (unauthenticated_requests_change_nothing sample_config (strict_interface sample_api) sample_valid None false
    sample_page None "" sample_store handler s0 _ _ E); [reflexivity | discriminate | discriminate | discriminate].
Defined.

Definition sample_webhook : Request :=
  sample_request "POST" ["v1"; "webhooks"; "stripe"] {["Stripe-Signature" := ["{}"]]} "{}".

Definition sample_handler : HandlerFunc (W := Store) :=
  match sample_built with Ok (handler, _) => handler | Err _ => sample_page end.
Definition sample_start : Server Store :=
  match sample_built with Ok (_, s0) => s0 | Err _ => mkServer sample_store None [] [] end.

Lemma provider_stops_only_for_stored_events_witness :
  sample_built = Ok (sample_handler, sample_start) /\
  let served := sample_handler sample_webhook (mkWriter ∅ None []) sample_start in
  (response (served_writer served)).1 = 202 /\
  exists ctx input, RawBody input = "{}" /\
    accepted ((fun _ : Request => sample_receiver) ctx) input (st_db sample_store)
      (st_db (world (served_state served))) OutcomeAccepted.
Proof.
  assert (sample_built = Ok (sample_handler, sample_start)) as E by reflexivity.
  assert ((response (served_writer (sample_handler sample_webhook (mkWriter ∅ None []) sample_start))).1 = 202) as Es
    by (vm_compute; reflexivity).
  destruct (provider_stops_only_for_stored_events sample_config sample_api (fun _ => sample_receiver) sample_valid None false
    sample_page None "" sample_store sample_handler sample_start sample_webhook sample_start E eq_refl eq_refl
    sample_schema eq_refl) as (_ & _ & [Hc|[Hf _]]).
  - destruct Hc as (ctx & input & Hr & _ & _ & [[_ Ha]|[H0 _]]); [|rewrite Es in H0; discriminate].
    split; [exact E|]. split; [exact Es|]. exists ctx, input. split; [exact Hr | exact Ha].
  - rewrite Es in Hf. exfalso. revert Hf. unfold failures. rewrite !elem_of_cons, elem_of_nil. lia.
Defined.
