(* ===== verification/Embedded.v ===== *)
(** * The contract the generated server embeds: the end of [server.gen.go]

    The text of the contract, compressed and encoded as in the source; its
    decoding; the functions that hand it out. The loader of documents is a
    parameter. What the text declares is read from it as OpenAPI lays it out,
    and compared with what the generated server does. *)

From S2P Require Import Prelude GoLib Json JsonText Netip Wire Openapi JsonAny Flate.
Import Openapi.

(** ** The text *)

Definition swaggerSpec : list string :=
  [
   "7Hxtc9s4kv9X6eJ/X9K2JD/E0b/2hceTvfFdLs7Gyd1WRblUi2hJSEiAAUCNNSl/96sGQIqU6AeN7Z29";
   "3fiVLFFAP/76AQ19TzJdlFqRcjYZf08WhIKMf3mujaEcndTqQvAbgmxmZMlvJOPkQpByciYzFNqALjHT";
   "8K0iyMLXMqkVAoIhW2rrEFBbyPXcguA3v1XSygz1fpIm/j9DIhk7U1Ga2GxBBfKOBV6/JjV3i2Q8HJ2m";
   "SSFV83+auFVJyTixzkg1T25u0uQdObM6mzky2/Re0bxSQltAIFuSQQOoHFkQBIZKctLAJmV0jUWZUzI+";
   "GdxJplSyqIo2UVI5mpNJbpisEg0W5KJcLwQVpXakstV/0Gqb0PMFLskLlCnNdL6QAqGkXEOWS1KOvJxl";
   "I38glq9mnphu+JmWNFGODJByhmAIBKPjY8jQYObIkN2Hd0RqKVkGUJAtEDK/q0INmZEIVTFRNkgMShJS";
   "6P2JakskOc2Gs+PZiPZe4uF07ygbib1TejHbG+JoepgdiWM6mSVpIpmlYFVJmigsKBm3RbDHMnigDYyO";
   "j++3gUsjyNxvsGU1zWWmo+GuuezwqI34fDgbHQ+OaHA0O305HIrDlzjIBoeDYzodZYeHg2HNY4luseZQ";
   "Ryru4qxE58jwd/+HN/o42HuJe7NP3w9HN39K+lj7b5outP76aknKPdQlBXorQIGgEKSa6usuj7R0v5PH";
   "X7vkPJBV3u8+Vm94LVtqZcm7zHut/xPV6h19q8gGoMq0cqQcv8SyzGXmgergi2VJfK/5848adPRaFtKR";
   "l9kS84rCEoJ35Y8/5/HzNMm6sJeczIZilA3waHpKR7OT7KUY0mh2iEfT4+xEvKAkTQqyFue8ltMaClQr";
   "MDWpnpm1IP5kaJaMk/93sIbdg/CpPXhljI6I0dVrID4AVYAnTRboOgsmC5cQHAw8/u15AASpZtoUmAKt";
   "Xdmm8K1C9umqQFB6icBCRCeXCKUWBJYMzEg63IezNXYr1BNlaEk58gI5BHHBTEtAJ9W8wYdW/GgRcxvn";
   "8emDFm7fpMnf9lqhZ+/i5/u+3Q1UNy2Jhzi2oOyrrryplIZh0slgGFn85IPJt53pw7vX8Mv792+vYKFt";
   "SQIDCCNcOSNLYifyAnbJOKmM3LZidrJSGrJnrsdVlXXIUE6FR3MEy0akQZC8RlY1ZqwGAyXOsSDldGdH";
   "gY72nCyoFyjWjvixw2SbpE/NF/X0C2WOCT43hI48gkZf2xZaabSosgfgjyCoCvCPOw2ZVgvKpAfaXLOd";
   "LaXQhpnaKcqnCVuwk64ncv7VfyJQeF+plH9pPbgHKuJuMVgPBoP07tjdleSa8xYRfWIMjrxtbh5vtsK9";
   "FnKufQxfUs7EkjE6BRT0rUKmHQ2CM+iCGTAvc4MFOpl5hrYElO2SuIl1xoa6m5ulIOfs7KhrfNn0zN7t";
   "GzTc3Phn/x9vk9Ncdpi1VIBAzs4sKSuXJO3+/ZbN8lzvt8l4n2Z+Iczd4l2MLbcggn+FQkheCPO3nSdI";
   "sbF8TKoySROhf1XJpy06ezb29p75Hbcetg5d1Vlcf03SpFK4RJnjNKfePZZkrAzR7m45xfXXRKy/m9Yc";
   "9wnL48C2jLDQleqBtP/CXBtw2mHOqUZBSpvaCdmwCk0CU8gwz6qcDVt1YaDBNqncyVGy7Y5pklXGcNJ4";
   "qxddXF3C0Wj4otmv10LljtlhyIstI6LKJOa9i661eFeM9zK9Co9u6kmKpFkmrcXcYvpWHV01W3d5emUd";
   "yznTBRmmeyPNjcZWkhLMA9cpnoQMVUZ5TqKJF6LXAC8rN9XXF8qWlLloiRum4hwVZUjYGqAd9Gk2qGRr";
   "ixyta9B061NF1+4sbBFi7EPCY5p45doFiV2+tO2kLbmFBTv/eOnNUOa9wrtb87XUNjnsM4BOTfAkqiBe";
   "6r1/+/ttvrOjovjTd1TmuNpN6Npb2L0+tWmHrGOjM7J2t+1Ko5cyYt6tH7aqr61nDGUkl7ttarxczmtM";
   "vVs3DwOZtk3UWJMmVcl07EBbn5E2ItoWSNty+q25JZ42OV0Z3Gfkr2VfViodFd0XDxVQ127i1mgMrrYl";
   "4Ne+j8Cru5AimGXnnzZSpIn9KsvyNsywlFVGutUV8xEZZ+MwPuc5K+UdDSVLmSGHHAOmmH0lJSB+N8bf";
   "3k7N3/bO3l7EHk0tm7CNL7O4yNze8Ozthc8Yc7KxvTYj40NnSGbjvr6KFdStcJx0vi3xFlf8noWftMzJ";
   "lDk6grO3F63kZZwM9of7Aw8UJSksZTJODv1bqW9VeAFxmZhzLfE9mZO3HN8pa+r7fyMXssJko+kwGgwe";
   "0Gh4WGm/kXf21PhvgzH49N5n+SwodpgpGXAGp5gvvIBaFfajC+U0ORq9vO1bjTAONtsvN2lyPDj8Owrn";
   "Q8ElMbtRsCI9NXKOThsZm59SCclf56riqYXU8rtk/PFTmtiqKNCskjG3OLTxbe64/VTmMd/1igwa9dWo";
   "rdC2eQj1Dc4tA8RlbZE2+cT7HSyHB9rUHJTa9qTbl7D0CTdBTHXX2R1Y1Os827YTbfAu6KQBoScqQ4e5";
   "nvsWUt1bjn0jQHYpC03t7Df61lTY/x8UqQW3iSMZ3E7mpL5dQUJsY/gclFeiLPaJuj7Y6jsk3Xb5x35l";
   "rR852Gin33wKmE3W/aTFasdWoaDC49laxR/WLQxWKxVaWRca7Um67iW2uiL1689+sXa/YrhDM7CnFXNz";
   "c7PZY73ZwqzhjhzXsandGK0rPO6QDNpVV/LTu9dJyAEf2huvM5Zmox1kEAyiDyyDmWdGxvom+sKtteUT";
   "g+ZgsKOUJXuJFH9tta4229Dxkc/ReB/bia6tDorKOpgSTMn9SqRgCKgEsGqfpDd9rk2p07pBpCvIsCj1";
   "xikfROa0fQ5l7GrylcLKLbSRv/UfCHQ+f6QaeCVSLpIDjfc+ieh9XieoyadQA1bWo7iuapnjc4j8aGeR";
   "f1X6V/U2IGOf0GvQVNp9nulKPVrycUFQ2kFY8ClkftlEgxgnfcjTQNfSOmLYaWLqM4j95Y5iN1RZErEo";
   "2AKcdeD8/JVWnzOtZrnMHo08rXXhK60Ac0MoVsCkPIkOzmDj/Bi+oD+Kqqw/pNGMQ860e11PrIjh4Y6K";
   "cFq/RjOnXj08LfDHZWCqxQqc1pD7jZ/G+DNG+w1s9+eQBLo+FIwZnz8rO3t78Y9Us+weth0ZhXm/2sJn";
   "n8mL67FOE1cDWgv/kdr6C+YLrozCtItAiLMdBp7LM27atdF5GCOJW7XqjoceCzbFUSiENgqjg+9xxOLm";
   "rsq+LimerbC/L0UlxdsYFPqPynz+uZOMR3IXtaTwmTX1rIj1HDihla1y9/fCirqPEo7BhYZcZ3zw7Pj4";
   "OQJGQ8UWLuzaMagnxG4+3YIoB1l7ZOR3rp3e0rf5YJFDZl5ZufRtTw6dm62ckoyV1snYvYnMw7t6TnGi";
   "wtTeZiLElID2I331t0DQUufL1oiJNnIuFea3d2KakZknacbs3J94YIekJrLHpq/qYRqonwp9Vaz7qkIa";
   "8iOqTeP5j2gRPNJzfwlFt/DDoFHuEnvg+Ufw+VcOPg8qG59EU4YqJ3P5G0cRKjpVWArlml0+8eH5H13F";
   "Z2rABR5F/BGANUgls5Cq16J5eqEcD0bPz5xvmCwpjpo1R33W20GQvaDK93CroglRz+PX2/WJrsBQVrHc";
   "29uvJz63jidj8lEfT67LkjgNvecPwW2rKNmITLzZTGaSACsXWoMihiUhca609YN9cGmhxFWuUdQTjEGK";
   "fhbXeuH5pIlThFIbHiIttaACvD5NHKcTVB/s2L5wz4fp7bNrux3x/bHwt4rMan0qvJ4oe5Bx9M0j3KT9";
   "S/smQmdlQTOscpeMjwfd6c17hjc/PWPZtzWQ0GP5/kNtoUBp/UkuKyH1lj6TOaOeLn0K4lPcINL/o4nI";
   "XyI/Vd0D+pF3/OsVihYoWPyzwjZ7G0JBDgPAhWtP7EbSHzr5Gy7gB07D9Nh95+xd3D743r3VcnNgKB7k";
   "714MbtzXub0mPAtn7fWYB+dOsRAOc0HruxmGSM1kTtLninDWXPuaqCb5AoRcqgUChVKQW4wgRV33SZvC";
   "b+TrxGkl5uRYVs01kIniSDJjMiogMDSX1vmHw5DWPpwvsECBlnXve57+Fl19c6zg0lTxlsqCqLwRCuwN";
   "Pu9qybbltN2sGz0LarfHvm7D7lg6+/Yl85/jikPx2q5+QNs/WEkV9fZPUVJFXigOo3tNecasw22I+BGL";
   "2tjIhVOIRs/ct2x2BHS6kFns6FVF3J59qqU/n/wx6Q+MSvbA+ttmt4+BvVKi1FI5EGSdVOiPWsIVtdSb";
   "C2qw0joqsD3vCW9Q83kpxJu/E9WBhDG/r9VMosoQlv52DizJyFnNCFOg5wb5DQbFILCJClvvXcm5QlcZ";
   "Aqunhjg7mK6cv7WITvuKxp8l7k/URJ29f/Xm/OySSS1ISATO5ccNH2G2DM6DQe3xgDFsmlQ6UYWfVgtO";
   "77E7y9Fg50mdOXJ71hnCwpd2RpfaSseRdKLQWumJZt7vIjoFqpc3W5RM1Ax9abmeuRNkLRmJHJyND6qt";
   "fwPJVLHiwn10nKiWqFMoKuHvbGrD5Z2goDELBGRLzDS/qnGbn+MbmlxVdTjiK1dOFuhH/ZgJoHCpTMTh";
   "vHDVBV3IM2oCRNQQE9lcgIFwA31Gxnh7R+v/DxQU0NYig5SR4eoaTVSoULHUyqEBqdjj0K3HJsOFdd1M";
   "E/LrKGl/0XWiGqGG+5GdK/ugtCkw93uNQXctxs/SNv22iapsc7ku3LInEwSRk4GOdTY5Vj0T2UqKqE4U";
   "IExNisr4zhb5ZCgNF6FsgRO2SmWDQhFiihTufloyWIOEwH144wcra3hvdyAmim0BBItJe4/v/GIBU3vO";
   "YBiKSSDf05DKOlNloR1uyIt4HjsOtYuNYXR9zSGTVQpoJ6pJCG3aGFTdrAt3rWb421oAdW7q1daf7PnZ";
   "/7BdTMS2mw0bafHafGvXg6nhe5zwc20UtfHGStpzxULFifJpDZurpS/xBmX9QwrhgCTDQqqFDidMzHa9";
   "3UTV/hTq9YZnNlFjmnm2z7aGuc1fR3B/Hr4Yvhz4v3Q5/PPx6PgFnp68pBdshiTwcISzGZ6MMpHh4QyP";
   "hxmKF/TiBQ7o+GQ2Oz48EYOMTmk4OBWnU3HbfP4m3HY6J5sXCB48GtvGyW6w7k1R/v3q8k2UntDtS9Jp";
   "F2LWAMJggz7mBIDF+KMWbSUEtTVAhEHEzcWVqVRoVrf9eMDdQ7KDbVbe+CSCjZrMeG3XXxAWyNHHMnQ0";
   "GIKhl+NLJG89E+VkqWseyna+5kUA8bJ8F0B6bs0/QeIWS6b+zFgvdT2h0wNareLSu9JExRIt3j322smM";
   "Vs9C+O+eq12b/x3zVbblI4+a1Ym5GTQLQqarXPhJwylFi32qWbe1O8QqLW1iPZvfTDM4InxBxW4nCByf";
   "BP4YuvqDhq4ua+Dwx1zrrk3j7/Bz01NwWEx9ChCyuxDgJmpzns5PEYUkP607/YqsJcjQhl/yaEd1azn0";
   "waxSPiRy9llqGTI0vf7hDk52DDeEngOD7rwyw/GvVSD1xY3bTlq66/Zefvv4icMcZ4l1TlGZPBknBzzu";
   "8b8DAA=="].

(** The texts of decoding errors. *)
Class DecodeErrors : Type := {
  base64_error : string -> string;
  flate_error : list Z -> string;
}.

Section Decoding.
Context `{DecodeErrors}.

Definition decode_text (encoded : string) : res string :=
  match base64_DecodeString encoded with
  | None => Err (wrapf "error base64 decoding spec" (ErrNew (base64_error encoded)))
  | Some compressed =>
      match inflate compressed with
      | None => Err (wrapf "read flate" (ErrNew (flate_error compressed)))
      | Some data => Ok (of_codes data)
      end
  end.
Definition decodeSpec : res string := decode_text (String.concat "" swaggerSpec).

(** [decodeSpecCached]: the result is computed once and handed out. *)
Definition decodeSpecCached : unit -> res string := let data := decodeSpec in fun _ => data.
Definition rawSpec : unit -> res string := decodeSpecCached.

Definition PathToRawSpec (pathToFile : string) : gmap string (unit -> res string) :=
  if 0 <? len pathToFile then {[ pathToFile := rawSpec ]} else ∅.

Definition GetSpecJSON : res string := rawSpec tt.
End Decoding.

(** [path.Clean]. *)
Fixpoint split_path (l : list Z) : list (list Z) :=
  match l with
  | [] => [[]]
  | c :: t =>
      let rest := split_path t in
      if c =? 47 then [] :: rest else match rest with x :: rest => (c :: x) :: rest | [] => [[c]] end
  end.

Definition clean_step (rooted : bool) (stack : list string) (element : string) : list string :=
  if (element =s? "") || (element =s? ".") then stack
  else if element =s? ".." then
    match stack with
    | top :: below => if top =s? ".." then ".." :: stack else below
    | [] => if rooted then [] else [".."]
    end
  else element :: stack.

Definition Clean (path : string) : string :=
  let rooted := HasPrefix path "/" in
  let stack := foldl (clean_step rooted) [] (of_codes <$> split_path (codes path)) in
  let cleaned := (if rooted then "/" else "") +:+ String.concat "/" (reverse stack) in
  if cleaned =s? "" then "." else cleaned.

(** [openapi3.Loader] with external references allowed: the function that reads
    them, and the text. *)
Class Loader (T : Type) : Type := LoadFromData : (string -> res string) -> string -> res T.

Section Handing.
Context `{DecodeErrors} {T : Type} `{Loader T}.

Definition ReadFromURIFunc (resolvePath : gmap string (unit -> res string)) (url : string) : res string :=
  let pathToFile := Clean url in
  match resolvePath !! pathToFile with
  | None => Err (ErrNew ("path not found: " +:+ pathToFile))
  | Some getSpec => getSpec tt
  end.

Definition GetSpec : res T :=
  let resolvePath := PathToRawSpec "" in
  try specData := rawSpec tt in
  LoadFromData (ReadFromURIFunc resolvePath) specData.

Definition GetSwagger : res T := GetSpec.
End Handing.

(** ** What a contract declares *)

Record DeclaredOperation := mkDeclaredOperation {
  declared_pattern : Pattern;
  declared_id : string;
  (** No requirement at all in its [security]. *)
  declared_public : bool;
  declared_statuses : list string
}.

Definition methods : list (string * string) :=
  [("connect", "CONNECT"); ("delete", "DELETE"); ("get", "GET"); ("head", "HEAD"); ("options", "OPTIONS");
   ("patch", "PATCH"); ("post", "POST"); ("put", "PUT"); ("trace", "TRACE")].

(** A segment in braces is a parameter. *)
Definition path_segment (l : list Z) : string + string :=
  match l with
  | 123 :: t => inr (of_codes (removelast t))
  | _ => inl (of_codes l)
  end.
Definition path_segments (path : string) : list (string + string) := path_segment <$> tail (split_path (codes path)).

Definition requires_nothing (security : any) : bool := match security with AArray [] => true | _ => false end.

Definition declared_operation (doc : any) (path method : string) (operation : any) : option DeclaredOperation :=
  id ← member "operationId" operation ≫= string_of;
  responses ← member "responses" operation;
  security ← match member "security" operation with Some s => Some s | None => member "security" doc end;
  Some (mkDeclaredOperation (mkPattern (Some method) (path_segments path) false) id (requires_nothing security)
          (fst <$> members_of responses)).

Definition declared_operations (doc : any) : option (list DeclaredOperation) :=
  paths ← member "paths" doc;
  mapM id (members_of paths ≫= fun '(path, item) =>
    members_of item ≫= fun '(key, operation) =>
      match List.find (fun m => m.1 =s? key) methods with
      | Some (_, method) => [declared_operation doc path method operation]
      | None => []
      end).

(** What the text declares, when it can be read. *)
Definition read_operations `{JsonErrors} (text : res string) : option (list DeclaredOperation) :=
  match text with
  | Ok text => match Unmarshal_any text with Ok doc => declared_operations doc | Err _ => None end
  | Err _ => None
  end.
Definition embedded_operations `{DecodeErrors} `{JsonErrors} : option (list DeclaredOperation) :=
  read_operations decodeSpec.

(** ** What the generated server does *)

(** The operation a response object belongs to, and its [Visit] method. *)
Definition operation_of (r : AnyResponse) : string :=
  match r with
  | RGetHealth _ => "GetHealth"
  | RCreateOrder _ => "CreateOrder"
  | RGetOrder _ => "GetOrder"
  | RCreateCheckout _ => "CreateCheckout"
  | RListWebhookEvents _ => "ListWebhookEvents"
  | RReprocessWebhookEvent _ => "ReprocessWebhookEvent"
  | RReceiveStripeWebhook _ => "ReceiveStripeWebhook"
  end.

Definition visit (r : AnyResponse) : ResponseWriter -> ResponseWriter * option error :=
  match r with
  | RGetHealth r => VisitGetHealthResponse r
  | RCreateOrder r => VisitCreateOrderResponse r
  | RGetOrder r => VisitGetOrderResponse r
  | RCreateCheckout r => VisitCreateCheckoutResponse r
  | RListWebhookEvents r => VisitListWebhookEventsResponse r
  | RReprocessWebhookEvent r => VisitReprocessWebhookEventResponse r
  | RReceiveStripeWebhook r => VisitReceiveStripeWebhookResponse r
  end.

(** The operation writes the status. *)
Definition writes (operation : string) (status : Z) : Prop :=
  exists r w w', operation_of r = operation /\ sent w = None /\ visit r w = (w', None) /\
    exists hs, sent w' = Some (status, hs).

(** ** The contract, read *)

Definition contract : list DeclaredOperation :=
  let op method segments id public statuses :=
    mkDeclaredOperation (mkPattern (Some method) segments false) id public statuses in
  [op "GET" (literals ["health"]) "GetHealth" true ["200"; "429"; "503"];
   op "POST" (literals ["v1"; "orders"]) "CreateOrder" false ["201"; "400"; "401"; "404"; "409"; "413"; "429"; "500"];
   op "GET" (literals ["v1"; "orders"] ++ [inr "orderId"]) "GetOrder" false ["200"; "401"; "404"; "429"; "500"];
   op "POST" (literals ["v1"; "orders"] ++ inr "orderId" :: literals ["checkout"]) "CreateCheckout" false
     ["201"; "400"; "401"; "404"; "409"; "429"; "500"; "502"];
   op "GET" (literals ["v1"; "webhook-events"]) "ListWebhookEvents" false ["200"; "400"; "401"; "429"; "500"];
   op "POST" (literals ["v1"; "webhook-events"] ++ inr "webhookEventId" :: literals ["reprocess"]) "ReprocessWebhookEvent"
     false ["202"; "401"; "404"; "409"; "429"; "500"];
   op "POST" (literals ["v1"; "webhooks"; "stripe"]) "ReceiveStripeWebhook" true ["200"; "202"; "400"; "429"; "500"]].

Section Reading.
Context `{DecodeErrors} `{JsonErrors}.

(** The decoding and the reading, evaluated; no text of an error is involved. *)
Lemma embedded_contract : embedded_operations = Some contract.
Proof. vm_compute. reflexivity. Qed.
End Reading.

(** With the empty path no name resolves: a document that refers to a file, or
    to itself by name, does not load. *)
Lemma GetSpec_reads_nothing_else `{DecodeErrors} url :
  ReadFromURIFunc (PathToRawSpec "") url = Err (ErrNew ("path not found: " +:+ Clean url)).
Proof. reflexivity. Qed.

Example clean_paths : Clean <$> [""; "./openapi.yaml"; "a/../../b"; "/../x//y/."; "a/b/.."] = ["."; "openapi.yaml"; "../b"; "/x/y"; "a"].
Proof. vm_compute. reflexivity. Qed.
