(* ===== verification/Conformance.v ===== *)
(** * The server and its contract

    The contract the generated server embeds ([Embedded]), compared with the
    generated code and with what the assembled server of [Http] and [Handlers]
    answers. *)

From S2P Require Import Prelude GoLib Errsanitize Json JsonText Netip Wire Openapi Ratelimit Http Handlers Api.
From S2P Require Import JsonAny Flate Embedded.
Import Openapi.

(** ** Statuses *)

Definition declares (o : DeclaredOperation) (status : Z) : Prop := pretty status ∈ declared_statuses o.

#[export] Instance declares_dec o status : base.Decision (declares o status).
Proof. unfold declares. apply _. Defined.

Lemma visit_json_status status p retryAfter corr w w' : sent w = None -> visit_json status p retryAfter corr w = (w', None) ->
  exists hs, sent w' = Some (status, hs).
Proof.
  intros Hw. unfold visit_json. destruct (Encode p); [done|]. intros [= <-].
  eexists. eapply sent_Write, sent_WriteHeader. rewrite sent_set_header. by destruct retryAfter; rewrite !sent_set_header.
Qed.

Lemma visit_empty_status status corr w w' : sent w = None -> visit_empty status corr w = (w', None) ->
  exists hs, sent w' = Some (status, hs).
Proof. intros Hw [= <-]. eexists. by apply sent_WriteHeader. Qed.

Lemma visit_json_some status p retryAfter corr : Encode p = None ->
  exists w', visit_json status p retryAfter corr (mkWriter ∅ None []) = (w', None).
Proof. intros Hp. unfold visit_json. rewrite Hp. eauto. Qed.

(** Bodies that encode. *)
Definition blank_error : Error := mkError "" "" "".
Definition blank_event : WebhookEventInspection := mkWebhookEventInspection 0 "" "" None None None None "" "" 0 0 "" 0.

(** A response object of each operation and status. *)
Definition responses : list (string * Z * AnyResponse) :=
  let e := blank_error in
  [("GetHealth", 200, RGetHealth (GetHealth200JSONResponse (mkHealthResponse ∅ "" "" "") ""));
   ("GetHealth", 429, RGetHealth (GetHealth429JSONResponse e 0 ""));
   ("GetHealth", 503, RGetHealth (GetHealth503JSONResponse (mkHealthResponse ∅ "" "" "") ""));
   ("CreateOrder", 201, RCreateOrder (CreateOrder201JSONResponse (mkOrder 0 "" "" "") ""));
   ("CreateOrder", 400, RCreateOrder (CreateOrder400JSONResponse e ""));
   ("CreateOrder", 401, RCreateOrder (CreateOrder401JSONResponse e ""));
   ("CreateOrder", 404, RCreateOrder (CreateOrder404JSONResponse e ""));
   ("CreateOrder", 409, RCreateOrder (CreateOrder409JSONResponse e ""));
   ("CreateOrder", 413, RCreateOrder (CreateOrder413JSONResponse e ""));
   ("CreateOrder", 429, RCreateOrder (CreateOrder429JSONResponse e 0 ""));
   ("CreateOrder", 500, RCreateOrder (CreateOrder500JSONResponse e ""));
   ("GetOrder", 200, RGetOrder (GetOrder200JSONResponse (mkOrder 0 "" "" "") ""));
   ("GetOrder", 401, RGetOrder (GetOrder401JSONResponse e ""));
   ("GetOrder", 404, RGetOrder (GetOrder404JSONResponse e ""));
   ("GetOrder", 429, RGetOrder (GetOrder429JSONResponse e 0 ""));
   ("GetOrder", 500, RGetOrder (GetOrder500JSONResponse e ""));
   ("CreateCheckout", 201, RCreateCheckout (CreateCheckout201JSONResponse (mkCheckout "" 0) ""));
   ("CreateCheckout", 400, RCreateCheckout (CreateCheckout400JSONResponse e ""));
   ("CreateCheckout", 401, RCreateCheckout (CreateCheckout401JSONResponse e ""));
   ("CreateCheckout", 404, RCreateCheckout (CreateCheckout404JSONResponse e ""));
   ("CreateCheckout", 409, RCreateCheckout (CreateCheckout409JSONResponse e ""));
   ("CreateCheckout", 429, RCreateCheckout (CreateCheckout429JSONResponse e 0 ""));
   ("CreateCheckout", 500, RCreateCheckout (CreateCheckout500JSONResponse e ""));
   ("CreateCheckout", 502, RCreateCheckout (CreateCheckout502JSONResponse e ""));
   ("ListWebhookEvents", 200, RListWebhookEvents (ListWebhookEvents200JSONResponse [] ""));
   ("ListWebhookEvents", 400, RListWebhookEvents (ListWebhookEvents400JSONResponse e ""));
   ("ListWebhookEvents", 401, RListWebhookEvents (ListWebhookEvents401JSONResponse e ""));
   ("ListWebhookEvents", 429, RListWebhookEvents (ListWebhookEvents429JSONResponse e 0 ""));
   ("ListWebhookEvents", 500, RListWebhookEvents (ListWebhookEvents500JSONResponse e ""));
   ("ReprocessWebhookEvent", 202, RReprocessWebhookEvent (ReprocessWebhookEvent202JSONResponse blank_event ""));
   ("ReprocessWebhookEvent", 401, RReprocessWebhookEvent (ReprocessWebhookEvent401JSONResponse e ""));
   ("ReprocessWebhookEvent", 404, RReprocessWebhookEvent (ReprocessWebhookEvent404JSONResponse e ""));
   ("ReprocessWebhookEvent", 409, RReprocessWebhookEvent (ReprocessWebhookEvent409JSONResponse e ""));
   ("ReprocessWebhookEvent", 429, RReprocessWebhookEvent (ReprocessWebhookEvent429JSONResponse e 0 ""));
   ("ReprocessWebhookEvent", 500, RReprocessWebhookEvent (ReprocessWebhookEvent500JSONResponse e ""));
   ("ReceiveStripeWebhook", 200, RReceiveStripeWebhook (ReceiveStripeWebhook200Response ""));
   ("ReceiveStripeWebhook", 202, RReceiveStripeWebhook (ReceiveStripeWebhook202Response ""));
   ("ReceiveStripeWebhook", 400, RReceiveStripeWebhook (ReceiveStripeWebhook400JSONResponse e ""));
   ("ReceiveStripeWebhook", 429, RReceiveStripeWebhook (ReceiveStripeWebhook429JSONResponse e 0 ""));
   ("ReceiveStripeWebhook", 500, RReceiveStripeWebhook (ReceiveStripeWebhook500JSONResponse e ""))].

(** The same pairs, from the contract. *)
Definition declared_pairs : list (string * string) :=
  contract ≫= fun o => (fun status => (declared_id o, status)) <$> declared_statuses o.

Lemma declared_pairs_responses : declared_pairs = (fun x => (x.1.1, pretty x.1.2)) <$> responses.
Proof. vm_compute. reflexivity. Qed.

Lemma declared_pairs_spec id status : (id, status) ∈ declared_pairs <->
  exists o, o ∈ contract /\ declared_id o = id /\ status ∈ declared_statuses o.
Proof.
  unfold declared_pairs. rewrite list_elem_of_bind. setoid_rewrite list_elem_of_fmap. split.
  - intros (o & (st & [= -> ->] & Hs) & Ho). by exists o.
  - intros (o & Ho & <- & Hs). exists o. split; [by exists status | done].
Qed.

Definition answers_with (x : string * Z * AnyResponse) : Prop :=
  operation_of x.2 = x.1.1 /\
  match visit x.2 (mkWriter ∅ None []) with
  | (w', None) => fst <$> sent w' = Some x.1.2
  | (_, Some _) => False
  end.

Lemma responses_answer : Forall answers_with responses.
Proof. unfold responses. repeat (constructor; [split; vm_compute; reflexivity|]). constructor. Qed.

Lemma writes_declared id status : writes id status <-> exists o, o ∈ contract /\ declared_id o = id /\ declares o status.
Proof.
  unfold declares. rewrite <- declared_pairs_spec, declared_pairs_responses. split.
  - intros (r & w & w' & <- & Hw & Hv & hs & Hs).
    destruct r as [[]|[]|[]|[]|[]|[]|[]]; cbn [visit VisitGetHealthResponse VisitCreateOrderResponse VisitGetOrderResponse
      VisitCreateCheckoutResponse VisitListWebhookEventsResponse VisitReprocessWebhookEventResponse
      VisitReceiveStripeWebhookResponse] in Hv;
      first [destruct (visit_json_status _ _ _ _ _ _ Hw Hv) as [? E] | destruct (visit_empty_status _ _ _ _ Hw Hv) as [? E]];
      rewrite Hs in E; injection E as -> _; vm_compute; repeat constructor.
  - intros ([[id' st] r] & [= -> E] & Hin)%list_elem_of_fmap.
    apply (inj pretty) in E as ->. pose proof responses_answer as Ha. rewrite Forall_forall in Ha.
    destruct (Ha _ Hin) as [Ho Hv]. cbn [fst snd] in *. destruct (visit r _) as [w' [|]] eqn:E; [done|].
    exists r, (mkWriter ∅ None []), w'. split_and!; try done. destruct (sent w') as [[? hs]|]; [|done]. injection Hv as ->. eauto.
Qed.

(** ** Routing *)

(** Whether some path may match both lists of segments. *)
Fixpoint overlap (ps : list (string + string)) (b : bool) (qs : list (string + string)) (c : bool) : bool :=
  match ps, qs with
  | [], [] => eqb b c
  | [], _ :: _ => b
  | _ :: _, [] => c
  | inl x :: ps, inl y :: qs => (x =s? y) && overlap ps b qs c
  | _ :: ps, _ :: qs => overlap ps b qs c
  end.

Lemma match_segments_overlap ps b qs c ss : is_Some (match_segments ps b ss) -> is_Some (match_segments qs c ss) ->
  overlap ps b qs c = true.
Proof.
  revert qs ss. induction ps as [|p ps IH]; intros [|q qs] [|s ss]; cbn [match_segments overlap];
    try (destruct p); try (destruct q); try (intros [? ?] [? ?]; destruct b, c; done).
  - destruct (String.eqb_spec s0 s); [subst|by intros []]. destruct (String.eqb_spec s1 s); [subst|by intros _ []].
    rewrite String.eqb_refl. apply IH.
  - destruct (s0 =s? s); [|by intros []]. destruct (s =s? ""); [by intros _ []|].
    intros H1 [? (? & H2 & _)%bind_Some]. by eapply IH.
  - destruct (s =s? ""); [by intros []|]. destruct (s1 =s? s); [|by intros _ []].
    intros [? (? & H1 & _)%bind_Some] H2. by eapply IH.
  - destruct (s =s? ""); [by intros []|]. intros [? (? & H1 & _)%bind_Some] [? (? & H2 & _)%bind_Some]. by eapply IH.
Qed.

Definition overlapping (p q : Pattern) : bool :=
  overlap (pattern_segments p) (subtree p) (pattern_segments q) (subtree q).

Lemma routed_overlapping p q r : routed p r -> routed q r -> overlapping p q = true.
Proof. intros [_ Hp] [_ Hq]. by eapply match_segments_overlap. Qed.

(** In a table without overlaps a request goes to the pattern that matches it. *)
Lemma ServeHTTP_routed {P S} (mux : Mux P S) p h r w s : clean (escaped r) = true -> (p, h) ∈ mux -> routed p r ->
  (forall q g, (q, g) ∈ mux -> overlapping q p = true -> g = h /\ q = p) ->
  ServeHTTP mux r w s = h (with_values r (default [] (match_segments (pattern_segments p) (subtree p) (segments r)))) w s.
Proof.
  intros Hc Hin Hr Hone. unfold ServeHTTP. rewrite Hc. cbn [negb].
  destruct (List.find _ mux) as [[q g]|] eqn:E.
  - apply find_some in E as [Hq [Hm Hs]%andb_true_iff]. apply list_elem_of_In in Hq. apply bool_decide_eq_true_1 in Hs.
    cbn [fst snd] in *. destruct (Hone q g Hq) as [-> ->]; [|done]. eapply routed_overlapping; [|exact Hr]. by split.
  - exfalso. destruct Hr as [Hm Hs]. apply list_elem_of_In in Hin. pose proof (find_none _ _ E _ Hin) as F. cbn [fst] in F.
    rewrite Hm, bool_decide_eq_true_2 in F by exact Hs. done.
Qed.

(** ** What an operation answers *)

(** The status [responseErrorHandler] gives an error. *)
Definition error_status (err : error) : Z :=
  match As err "httpserver.rateLimitedError" with
  | Some _ => 429
  | None => if Is err ErrUnauthorized then 401 else if Is err ErrNotServed then 501 else 500
  end.

#[local] Arguments error_status : simpl never.

Section Operations.
Context {W : Type} `{FloatConversion} `{UnicodeTables} `{JsonErrors} `{Runtime}.
Implicit Types (w : ResponseWriter) (s : Server W) (ok : Z -> Prop).

(** The request is answered, and the status is one of [ok]. *)
Definition settled ok (served : Served' (Server W)) : Prop :=
  served_panic served = None /\ exists status hs, sent (served_writer served) = Some (status, hs) /\ ok status.

Lemma settled_error ok w s r status code message : sent w = None -> ok status ->
  settled ok (done_with (writeError w r status code message) s).
Proof.
  intros Hw Hs. destruct (sent_writeError w r status code message Hw) as [h Hh]. split; [done|]. by exists status, h.
Qed.

Lemma settled_response_error ok w s r err : sent w = None -> ok (error_status err) ->
  settled ok (responseErrorHandler r w s err).
Proof.
  intros Hw. unfold error_status, responseErrorHandler. destruct (As err _).
  { unfold writeRateLimited. intros Hs. apply settled_error; [|exact Hs]. by rewrite sent_set_header. }
  destruct (Is err ErrUnauthorized); [by apply settled_error|]. destruct (Is err ErrNotServed); by apply settled_error.
Qed.

Lemma settled_request_error ok w s r err : sent w = None -> Is err MaxBytesError = false -> ok 400 ->
  settled ok (requestErrorHandler r w s err).
Proof. intros Hw He Hs. unfold requestErrorHandler. rewrite He. by apply settled_error. Qed.

(** What the implementation of an operation may return: a response of the
    operation, written with a status of [ok], or an error whose status is. *)
Definition returns {A} (as_own : AnyResponse -> option A) (visit : A -> ResponseWriter -> ResponseWriter * option error)
    ok (handler : StrictHandlerFunc (Server W)) (r : Request) : Prop := forall s,
  match handler r s with
  | Returned _ (Ok response) _ => exists own, as_own response = Some own /\ forall w, sent w = None ->
      match visit own w with
      | (w', None) => exists status hs, sent w' = Some (status, hs) /\ ok status
      | (w', Some err) => sent w' = None /\ ok (error_status err)
      end
  | Returned _ (Err err) _ => ok (error_status err)
  | Panicked _ _ _ => False
  end.

(** The two middlewares add the refusals of the limiter and of the key. *)
Lemma settled_strict {A} verifier op handler (as_own : AnyResponse -> option A) visit ok ssi r w s :
  sent w = None -> ok 429 -> (publicOperation op = false -> ok 401) -> returns as_own visit ok handler r ->
  settled ok (strict_answer (mkStrictHandler ssi [apiKeyAuthenticationMiddleware verifier; operationRateLimitMiddleware]
      requestErrorHandler responseErrorHandler) op handler as_own visit r w s).
Proof.
  intros Hw Hlim Hkey Hh. unfold strict_answer. cbn [fold_left middlewares ResponseErrorHandlerFunc].
  assert (returns as_own visit ok (apiKeyAuthenticationMiddleware verifier handler op) r) as Ha.
  { intros s'. unfold apiKeyAuthenticationMiddleware. destruct (publicOperation op) eqn:E; [apply Hh|].
    destruct verifier as [valid|]; [destruct (valid _); [apply Hh|]|]; by apply Hkey. }
  assert (returns as_own visit ok (operationRateLimitMiddleware (apiKeyAuthenticationMiddleware verifier handler op) op) r) as Hl.
  { intros s'. unfold operationRateLimitMiddleware. destruct (limiters s'); [|apply Ha].
    destruct (_ || _); [|apply Ha]. destruct (allowCredential _ _ _ _) as [[d l'] told].
    destruct (negb (Allowed d)); [exact Hlim | apply Ha]. }
  specialize (Hl s). destruct (operationRateLimitMiddleware _ op r s) as [[response|err] s'|]; [| |done].
  - destruct Hl as (own & -> & Hv). specialize (Hv w Hw). destruct (visit own w) as [w' [err|]].
    + destruct Hv as [Hw' Hs]. by apply settled_response_error.
    + by split.
  - by apply settled_response_error.
Qed.
End Operations.

(** ** What the operations of [Handlers] return *)

(** The errors an operation hears from its port; a port that is not there is
    the error of an operation this process does not serve. *)
Inductive port_fails {W} (h : APIHandler W) : string -> error -> Prop :=
| no_orders id : id ∈ ["CreateOrder"; "GetOrder"] -> orders h = None -> port_fails h id ErrNotServed
| no_checkouts : checkouts h = None -> port_fails h "CreateCheckout" ErrNotServed
| no_webhooks : webhooks h = None -> port_fails h "ReceiveStripeWebhook" ErrNotServed
| no_operations id : id ∈ ["ListWebhookEvents"; "ReprocessWebhookEvent"] -> operations h = None -> port_fails h id ErrNotServed
| create_fails p ctx i w err : orders h = Some p -> (Creator_Create p ctx i w).1 = Err err -> port_fails h "CreateOrder" err
| get_fails p ctx i w err : orders h = Some p -> (Creator_Get p ctx i w).1 = Err err -> port_fails h "GetOrder" err
| checkout_fails p ctx i w err : checkouts h = Some p -> (p ctx i w).1 = Err err -> port_fails h "CreateCheckout" err
| receive_fails p ctx i w err : webhooks h = Some p -> (p ctx i w).1 = Err err -> port_fails h "ReceiveStripeWebhook" err
| list_fails p ctx i n w err : operations h = Some p -> (Operations_List p ctx i n w).1 = Err err ->
    port_fails h "ListWebhookEvents" err
| reprocess_fails p ctx i w err : operations h = Some p -> (Operations_Reprocess p ctx i w).1 = Err err ->
    port_fails h "ReprocessWebhookEvent" err.

(** The port says itself that the operation is refused or not served. *)
Definition unserved {W} (h : APIHandler W) (id : string) : Prop :=
  exists err, port_fails h id err /\ (Is err ErrUnauthorized = true \/ Is err ErrNotServed = true).

Section Handled.
Context {W : Type} `{FloatConversion} `{UnicodeTables} `{JsonErrors} `{Runtime} (h : APIHandler W).
Implicit Types (s : Server W) (ok : Z -> Prop).

Lemma on_world_error {A} (m : M W A) s err s' : on_world m s = (Err err, s') -> (m (world s)).1 = Err err.
Proof. unfold on_world. destruct (m (world s)). by intros [= -> _]. Qed.

Lemma wrapped_status pre err : error_status (wrapf pre err) = error_status err.
Proof. unfold error_status. by rewrite !Is_wrapf. Qed.

(** The status of an error from a port. *)
Lemma port_error_ok id err ok : port_fails h id err -> ok 429 -> ok 500 ->
  (forall status, status ∈ [401; 501] -> unserved h id -> ok status) -> ok (error_status err).
Proof.
  intros Hp Hlim Hfail Hu. unfold error_status. destruct (As err _); [done|].
  destruct (Is err ErrUnauthorized) eqn:E1; [apply Hu; [by left | exists err; tauto]|].
  destruct (Is err ErrNotServed) eqn:E2; [apply Hu; [by right; left | exists err; tauto] | done].
Qed.

Lemma visit_json_settles ok status p retryAfter corr w : sent w = None -> ok status -> (Encode p <> None -> ok 500) ->
  match visit_json status p retryAfter corr w with
  | (w', None) => exists status hs, sent w' = Some (status, hs) /\ ok status
  | (w', Some err) => sent w' = None /\ ok (error_status err)
  end.
Proof.
  intros Hw Hs Hfail. destruct (visit_json status p retryAfter corr w) as [w' [err|]] eqn:E.
  - unfold visit_json in E. destruct (Encode p) eqn:Ep; [|done]. injection E as <- <-. split; [done|].
    unfold Encode in Ep. destruct (forallb _ _); [done|]. injection Ep as <-. by apply Hfail.
  - destruct (visit_json_status _ _ _ _ _ _ Hw E) as [hs Hh]. eauto.
Qed.

Lemma visit_empty_settles ok status corr w : sent w = None -> ok status ->
  match visit_empty status corr w with
  | (w', None) => exists status hs, sent w' = Some (status, hs) /\ ok status
  | (w', Some err) => sent w' = None /\ ok (error_status err)
  end.
Proof. intros Hw Hs. destruct (visit_empty_status status corr w _ Hw eq_refl) as [hs Hh]. unfold visit_empty. eauto. Qed.
End Handled.

(** Closes the case of a response or of an error of one operation. *)
Ltac response_case := eexists; split; [reflexivity|]; intros ? ?;
  first [apply visit_json_settles; [assumption | auto | auto] | apply visit_empty_settles; [assumption | auto]].
Ltac failure_case := try rewrite wrapped_status; eapply port_error_ok; eauto using port_fails.

Section Returned.
Context {W : Type} `{FloatConversion} `{UnicodeTables} `{JsonErrors} `{Runtime} (h : APIHandler W).
Implicit Types (s : Server W) (ok : Z -> Prop).
Let ssi : StrictServerInterface (Server W) := strict_interface h.

Lemma GetHealth_returns ok r : ok 200 -> ok 503 ->
  returns (fun a => match a with RGetHealth x => Some x | _ => None end) VisitGetHealthResponse ok
    (fun r s => answer_as RGetHealth (SSI_GetHealth ssi r s)) r.
Proof.
  intros Hup Hdown s. cbn. unfold GetHealth. destruct (negb _); cbn; eexists; (split; [reflexivity|]); intros ? ?;
    (apply visit_json_settles; [assumption | assumption | done]).
Qed.

Lemma CreateOrder_returns ok req r : (forall n, n ∈ [201; 400; 404; 409; 429; 500] -> ok n) ->
  (forall n, n ∈ [401; 501] -> unserved h "CreateOrder" -> ok n) ->
  returns (fun a => match a with RCreateOrder x => Some x | _ => None end) VisitCreateOrderResponse ok
    (fun r s => answer_as RCreateOrder (SSI_CreateOrder ssi r req s)) r.
Proof.
  intros Hok Hu s. assert (ok 201 /\ ok 400 /\ ok 404 /\ ok 409 /\ ok 429 /\ ok 500) as (?&?&?&?&?&?)
    by (split_and!; apply Hok; rewrite !elem_of_cons; tauto).
  cbn. unfold CreateOrder. destruct (orders h) as [p|] eqn:Ep; [|cbn; failure_case; apply no_orders; [by left | done]].
  destruct (CreateOrder_Body req) as [b|]; [|response_case].
  destruct (on_world _ s) as [[o|err] s'] eqn:E; [response_case|]. apply on_world_error in E.
  unfold createOrderError. destruct (_ || _ || _); [response_case|]. destruct (Is err _); [response_case|].
  destruct (Is err _); [response_case|]. cbn. failure_case.
Qed.

Lemma GetOrder_returns ok req r : (forall n, n ∈ [200; 404; 429; 500] -> ok n) ->
  (forall n, n ∈ [401; 501] -> unserved h "GetOrder" -> ok n) ->
  returns (fun a => match a with RGetOrder x => Some x | _ => None end) VisitGetOrderResponse ok
    (fun r s => answer_as RGetOrder (SSI_GetOrder ssi r req s)) r.
Proof.
  intros Hok Hu s. assert (ok 200 /\ ok 404 /\ ok 429 /\ ok 500) as (?&?&?&?)
    by (split_and!; apply Hok; rewrite !elem_of_cons; tauto).
  cbn. unfold GetOrder. destruct (orders h) as [p|] eqn:Ep; [|cbn; failure_case; apply no_orders; [by right; left | done]].
  destruct (on_world _ s) as [[o|err] s'] eqn:E; [response_case|]. apply on_world_error in E.
  destruct (Is err _); [response_case|]. cbn. failure_case.
Qed.

Lemma CreateCheckout_returns ok req r : (forall n, n ∈ [201; 400; 404; 409; 429; 500; 502] -> ok n) ->
  (forall n, n ∈ [401; 501] -> unserved h "CreateCheckout" -> ok n) ->
  returns (fun a => match a with RCreateCheckout x => Some x | _ => None end) VisitCreateCheckoutResponse ok
    (fun r s => answer_as RCreateCheckout (SSI_CreateCheckout ssi r req s)) r.
Proof.
  intros Hok Hu s. assert (ok 201 /\ ok 400 /\ ok 404 /\ ok 409 /\ ok 429 /\ ok 500 /\ ok 502) as (?&?&?&?&?&?&?)
    by (split_and!; apply Hok; rewrite !elem_of_cons; tauto).
  cbn. unfold CreateCheckout. destruct (checkouts h) as [p|] eqn:Ep; [|cbn; failure_case].
  destruct (on_world _ s) as [[o|err] s'] eqn:E; [response_case|]. apply on_world_error in E.
  unfold createCheckoutError. do 6 (destruct (Is err _); [response_case|]). cbn. failure_case.
Qed.

Lemma ListWebhookEvents_returns ok req r : (forall n, n ∈ [200; 400; 429; 500] -> ok n) ->
  (forall n, n ∈ [401; 501] -> unserved h "ListWebhookEvents" -> ok n) ->
  returns (fun a => match a with RListWebhookEvents x => Some x | _ => None end) VisitListWebhookEventsResponse ok
    (fun r s => answer_as RListWebhookEvents (SSI_ListWebhookEvents ssi r req s)) r.
Proof.
  intros Hok Hu s. assert (ok 200 /\ ok 400 /\ ok 429 /\ ok 500) as (?&?&?&?)
    by (split_and!; apply Hok; rewrite !elem_of_cons; tauto).
  cbn. unfold ListWebhookEvents. destruct (operations h) as [p|] eqn:Ep; [|cbn; failure_case; apply no_operations; [by left | done]].
  cbv zeta. destruct (on_world _ s) as [[o|err] s'] eqn:E; [response_case|]. apply on_world_error in E.
  destruct (_ || _); [response_case|]. cbn. failure_case.
Qed.

Lemma ReprocessWebhookEvent_returns ok req r : (forall n, n ∈ [202; 404; 409; 429; 500] -> ok n) ->
  (forall n, n ∈ [401; 501] -> unserved h "ReprocessWebhookEvent" -> ok n) ->
  returns (fun a => match a with RReprocessWebhookEvent x => Some x | _ => None end) VisitReprocessWebhookEventResponse ok
    (fun r s => answer_as RReprocessWebhookEvent (SSI_ReprocessWebhookEvent ssi r req s)) r.
Proof.
  intros Hok Hu s. assert (ok 202 /\ ok 404 /\ ok 409 /\ ok 429 /\ ok 500) as (?&?&?&?&?)
    by (split_and!; apply Hok; rewrite !elem_of_cons; tauto).
  cbn. unfold ReprocessWebhookEvent.
  destruct (operations h) as [p|] eqn:Ep; [|cbn; failure_case; apply no_operations; [by right; left | done]].
  destruct (on_world _ s) as [[o|err] s'] eqn:E; [response_case|]. apply on_world_error in E.
  do 2 (destruct (Is err _); [response_case|]). cbn. failure_case.
Qed.

Lemma ReceiveStripeWebhook_returns ok req r : (forall n, n ∈ [200; 202; 400; 429; 500] -> ok n) ->
  (forall n, n ∈ [401; 501] -> unserved h "ReceiveStripeWebhook" -> ok n) ->
  returns (fun a => match a with RReceiveStripeWebhook x => Some x | _ => None end) VisitReceiveStripeWebhookResponse ok
    (fun r' s => answer_as RReceiveStripeWebhook (SSI_ReceiveStripeWebhook ssi r' req s)) r.
Proof.
  intros Hok Hu s. assert (ok 200 /\ ok 202 /\ ok 400 /\ ok 429 /\ ok 500) as (?&?&?&?&?)
    by (split_and!; apply Hok; rewrite !elem_of_cons; tauto).
  cbn. unfold ReceiveStripeWebhook. destruct (webhooks h) as [p|] eqn:Ep; [|cbn; failure_case].
  destruct (on_world _ s) as [[o|err] s'] eqn:E; [destruct (o =s? _); response_case|]. apply on_world_error in E.
  destruct (Is err _); [response_case|]. cbn. failure_case.
Qed.
End Returned.

(** ** The routes *)

(** The library that binds parameters reads no body: it never reports one over
    the limit. *)
Definition reads_no_body `{Runtime} : Prop :=
  (forall name value err, BindStyledParameter name value = Err err -> Is err MaxBytesError = false) /\
  (forall name query err, BindQueryString name query = inr (BadParameter err) -> Is err MaxBytesError = false) /\
  (forall name query err, BindQueryInt name query = inr (BadParameter err) -> Is err MaxBytesError = false).

(** A declared status; or 400, when a parameter in the path does not bind; or the
    refusal of a port that says itself it does not serve the operation. *)
Definition accounted `{Runtime} {W} (h : APIHandler W) (o : DeclaredOperation) (ss : list string) (status : Z) : Prop :=
  declares o status \/
  (status = 400 /\ exists name value err vs, match_segments (pattern_segments (declared_pattern o)) false ss = Some vs /\
     (name, value) ∈ vs /\ BindStyledParameter name value = Err err) \/
  (status ∈ [401; 501] /\ unserved h (declared_id o)).

Section Binding.
Context {W : Type} `{FloatConversion} `{Runtime} (siw : ServerInterfaceWrapper (S := Server W)) (r : Request)
  (w : ResponseWriter) (s : Server W) (ok : Z -> Prop).
Hypothesis (Hbody : reads_no_body) (Hw : sent w = None) (Herr : ErrorHandlerFunc siw = requestErrorHandler).

Lemma settled_bind_header name k : ok 400 -> (forall v, settled ok (k v)) -> settled ok (bind_header siw r w s name k).
Proof.
  intros Hok Hk. unfold bind_header. rewrite Herr. destruct (Headers r !! _) as [[|v [|]]|]; auto using settled_request_error.
  destruct (BindStyledParameter name v) as [v'|err] eqn:E; [auto|].
  apply settled_request_error; [done | by apply (proj1 Hbody) in E | done].
Qed.

Lemma settled_bind_required name k : ok 400 -> (forall v, settled ok (k v)) ->
  settled ok (bind_required_header siw r w s name k).
Proof.
  intros Hok Hk. apply settled_bind_header; [done|]. intros [v|]; [done|]. rewrite Herr. by apply settled_request_error.
Qed.

Lemma settled_bind_path name k :
  (forall err, BindStyledParameter name (PathValue r name) = Err err -> ok 400) -> (forall v, settled ok (k v)) ->
  settled ok (bind_path siw r w s name k).
Proof.
  intros Hok Hk. unfold bind_path. rewrite Herr. destruct (BindStyledParameter name _) as [v|err] eqn:E; [done|].
  apply settled_request_error; [done | by apply (proj1 Hbody) in E | by eapply Hok].
Qed.

Lemma settled_bind_query {A} name (bound : option A + BindError) k :
  (forall err, bound = inr (BadParameter err) -> Is err MaxBytesError = false) -> ok 400 ->
  (forall v, settled ok (k v)) -> settled ok (bind_query siw r w s name bound k).
Proof.
  intros Hb Hok Hk. unfold bind_query. rewrite Herr. destruct bound as [v|[|err]]; [done| |]; apply settled_request_error;
    try done. exact (Hb err eq_refl).
Qed.
End Binding.

Section Routes.
Context {W : Type} `{FloatConversion} `{UnicodeTables} `{JsonErrors} `{Runtime} (h : APIHandler W)
  (verifier : option (string -> bool)).
Let mux : Mux Payload (Server W) :=
  HandlerWithOptions (newStrictHandler (strict_interface h) verifier) [] requestErrorHandler.

(** A route settles the requests of the operation declared for its pattern. *)
Definition serves (o : DeclaredOperation) (g : Handler' (Server W)) : Prop := forall r w s vs,
  match_segments (pattern_segments (declared_pattern o)) false (segments r) = Some vs -> path_values r = vs ->
  sent w = None -> settled (accounted h o (segments r)) (g r w s).

Lemma declared_accounted o ss status : bool_decide (declares o status) = true -> accounted h o ss status.
Proof. intros Hd%bool_decide_eq_true_1. by left. Qed.

Lemma declared_all o ss (l : list Z) : forallb (fun n => bool_decide (declares o n)) l = true ->
  forall n, n ∈ l -> accounted h o ss n.
Proof. rewrite forallb_forall. intros Hl n Hn%list_elem_of_In. by apply declared_accounted, Hl. Qed.

Lemma unserved_accounted o ss : forall n, n ∈ [401; 501] -> unserved h (declared_id o) -> accounted h o ss n.
Proof. intros n Hn Hu. right. by right. Qed.

Lemma unbound_accounted o ss name value vs err : match_segments (pattern_segments (declared_pattern o)) false ss = Some vs ->
  (name, value) ∈ vs -> BindStyledParameter name value = Err err -> accounted h o ss 400.
Proof. intros Hm Hin He. right; left. split; [done|]. by exists name, value, err, vs. Qed.

(** The value of the only parameter of a pattern. *)
Lemma only_parameter before name tail r vs :
  match_segments (literals before ++ inr name :: literals tail) false (segments r) = Some vs -> path_values r = vs ->
  (name, PathValue r name) ∈ vs.
Proof.
  intros Hm Hv. assert (exists value, vs = [(name, value)]) as [value ->].
  { clear Hv. revert Hm. generalize (segments r) as ss. induction before as [|b before IH]; intros [|x ss]; cbn [literals fmap list_fmap app match_segments]; try done.
    - destruct (x =s? ""); [done|]. intros (vs' & Ht & [= <-])%bind_Some. exists x. f_equal.
      assert (forall ss vs, match_segments (literals tail) false ss = Some vs -> vs = []) as G; [|by apply G in Ht].
      clear. induction tail as [|t tail IH]; intros [|y ss] vs; cbn; try done; [by intros [= <-]|].
      destruct (t =s? y); [apply IH | done].
    - destruct (b =s? x); [apply IH | done]. }
  unfold PathValue. rewrite Hv. cbn. rewrite String.eqb_refl. by left.
Qed.


Hypothesis Hbody : reads_no_body.
Let sh := mkStrictHandler (strict_interface h) [apiKeyAuthenticationMiddleware verifier; operationRateLimitMiddleware]
  requestErrorHandler (responseErrorHandler (W := W)).
Let siw := mkServerInterfaceWrapper (newStrictHandler (strict_interface h) verifier) [] (requestErrorHandler (W := W)).

Lemma strict_serves {A} o op handler (as_own : AnyResponse -> option A) visit ss (statuses : list Z) r w s :
  declared_id o = op -> sent w = None ->
  forallb (fun n => bool_decide (declares o n)) (429 :: (if publicOperation op then [] else [401]) ++ statuses) = true ->
  (forall ok, (forall n, n ∈ statuses -> ok n) -> (forall n, n ∈ [401; 501] -> unserved h op -> ok n) ->
     returns as_own visit ok handler r) ->
  settled (accounted h o ss) (strict_answer sh op handler as_own visit r w s).
Proof.
  intros Ho Hw Hd Hr. assert (forall n, n ∈ 429 :: (if publicOperation op then [] else [401]) ++ statuses -> accounted h o ss n) as Hall
    by (by apply declared_all).
  apply settled_strict; [exact Hw | apply Hall; by left | |].
  - intros Hp. apply Hall. rewrite Hp. right. apply elem_of_app. left. by left.
  - apply Hr; [intros n Hn; apply Hall; right; apply elem_of_app; by right|]. rewrite <- Ho. apply unserved_accounted.
Qed.

Lemma contract_served : Forall2 (fun o pg => declared_pattern o = pg.1 /\ serves o pg.2) contract mux.
Proof.
  repeat (constructor; [split; [reflexivity|]; intros r w s vs Hm Hv Hw |]); [..|constructor].
  - eapply (strict_serves _ _ _ _ _ _ [200; 503]); [reflexivity | exact Hw | reflexivity |].
    intros ok Hok _. apply GetHealth_returns; apply Hok; rewrite !elem_of_cons; tauto.
  - apply settled_bind_required; [exact Hbody | exact Hw | reflexivity | by apply declared_accounted |]. intros key.
    unfold through. cbn [fold_left HandlerMiddlewares Wrapped SI_CreateOrder newStrictHandler NewStrictHandlerWithOptions].
    unfold Strict_CreateOrder. destruct (Decode _ _ _) as [body [err|]].
    + unfold RequestErrorHandlerFunc, requestErrorHandler.
      destruct (Is _ MaxBytesError); apply settled_error; [exact Hw | by apply declared_accounted | exact Hw | by apply declared_accounted].
    + eapply (strict_serves _ _ _ _ _ _ [201; 400; 404; 409; 429; 500]); [reflexivity | exact Hw | reflexivity |].
      intros ok. apply CreateOrder_returns.
  - apply settled_bind_path; [exact Hbody | exact Hw | reflexivity | |].
    + intros err He. eapply unbound_accounted; [exact Hm | | exact He].
      exact (only_parameter ["v1"; "orders"] "orderId" [] r vs Hm Hv).
    + intros id. eapply (strict_serves _ _ _ _ _ _ [200; 404; 429; 500]); [reflexivity | exact Hw | reflexivity |].
      intros ok. apply GetOrder_returns.
  - apply settled_bind_path; [exact Hbody | exact Hw | reflexivity | intros; by apply declared_accounted |]. intros id.
    apply settled_bind_required; [exact Hbody | exact Hw | reflexivity | by apply declared_accounted |]. intros key.
    eapply (strict_serves _ _ _ _ _ _ [201; 400; 404; 409; 429; 500; 502]); [reflexivity | exact Hw | reflexivity |].
    intros ok. apply CreateCheckout_returns.
  - apply settled_bind_query; [exact Hw | reflexivity | intros err; apply Hbody | by apply declared_accounted |]. intros st.
    apply settled_bind_query; [exact Hw | reflexivity | intros err; apply Hbody | by apply declared_accounted |]. intros n.
    eapply (strict_serves _ _ _ _ _ _ [200; 400; 429; 500]); [reflexivity | exact Hw | reflexivity |].
    intros ok. apply ListWebhookEvents_returns.
  - apply settled_bind_path; [exact Hbody | exact Hw | reflexivity | |].
    + intros err He. eapply unbound_accounted; [exact Hm | | exact He].
      exact (only_parameter ["v1"; "webhook-events"] "webhookEventId" ["reprocess"] r vs Hm Hv).
    + intros id. eapply (strict_serves _ _ _ _ _ _ [202; 404; 409; 429; 500]); [reflexivity | exact Hw | reflexivity |].
      intros ok. apply ReprocessWebhookEvent_returns.
  - apply settled_bind_header; [exact Hbody | exact Hw | reflexivity | by apply declared_accounted |]. intros signature.
    eapply (strict_serves _ _ _ _ _ _ [200; 202; 400; 429; 500]); [reflexivity | exact Hw | reflexivity |].
    intros ok. apply ReceiveStripeWebhook_returns.
Qed.
End Routes.

(** ** Properties *)

(** C12: The embedded contract and the generated server agree. The text the
    source carries, decoded from base64 and DEFLATE and read as JSON, declares
    operations such that: the server registers exactly their methods and paths,
    in their order; the operations it asks no key for are exactly those that
    declare an empty [security]; and the statuses the response objects of an
    operation write are exactly those it declares. *)
Theorem contract_is_implemented `{DecodeErrors} `{JsonErrors} : exists operations,
  embedded_operations = Some operations /\
  (forall (S : Type) (bind : Runtime) (si : ServerInterface S) ms errors,
     fst <$> HandlerWithOptions si ms errors = declared_pattern <$> operations) /\
  (forall o, o ∈ operations -> publicOperation (declared_id o) = declared_public o) /\
  (forall id status, writes id status <-> exists o, o ∈ operations /\ declared_id o = id /\ declares o status).
Proof.
  exists contract. split_and!; [apply embedded_contract | reflexivity | | intros id status; apply writes_declared].
  apply (proj1 (Forall_forall (fun o => publicOperation (declared_id o) = declared_public o) contract)).
  repeat (constructor; [reflexivity|]). constructor.
Qed.

(** The routes of the server: those of the contract, then the documentation. *)
Lemma docs_apart {W : Type} (o : DeclaredOperation) mode verifier page hashes document q (g : Handler' (Server W)) : o ∈ contract ->
  (q, g) ∈ registerDocs mode verifier page hashes document -> overlapping q (declared_pattern o) = false.
Proof.
  intros Ho Hin. assert (q ∈ [mkPattern None (literals ["docs"]) false; mkPattern None (literals ["docs"]) true;
    mkPattern None (literals ["openapi.yaml"]) false]) as Hq.
  { unfold registerDocs in Hin. destruct mode; [by apply not_elem_of_nil in Hin| |]; cbv zeta in Hin;
      rewrite !elem_of_cons, elem_of_nil in Hin; rewrite !elem_of_cons;
      destruct Hin as [[= -> _]|[[= -> _]|[[= -> _]|[]]]]; tauto. }
  clear Hin. revert q Hq. apply (proj1 (Forall_forall _ _)). revert o Ho. apply (proj1 (Forall_forall _ _)). unfold contract.
  repeat (constructor; [repeat (constructor; [reflexivity|]); constructor|]). constructor.
Qed.

Lemma contract_apart : Forall (fun o => Forall (fun q => overlapping q (declared_pattern o) = true -> q = declared_pattern o)
  (declared_pattern <$> contract)) contract.
Proof. unfold contract. cbn [fmap list_fmap declared_pattern].
  repeat (constructor; [repeat (constructor; [first [reflexivity | discriminate]|]); constructor|]). constructor.
Qed.

#[local] Instance Pattern_eq_dec : EqDecision Pattern.
Proof. solve_decision. Defined.

Lemma contract_patterns : NoDup (declared_pattern <$> contract).
Proof. apply (bool_decide_eq_true_1 _). vm_compute. reflexivity. Qed.

Section Server.
Context {W : Type} `{FloatConversion} `{UnicodeTables} `{JsonErrors} `{Runtime} (h : APIHandler W)
  (verifier : option (string -> bool)).

Lemma settled_answered o ss (w0 : W) served :
  settled (accounted h o ss) served <-> answered (fun _ _ => accounted h o ss) w0 served.
Proof. done. Qed.

(** The route behind an operation, in the whole table. *)
Lemma route_of mode page hashes document o : reads_no_body -> o ∈ contract ->
  let mux := HandlerWithOptions (newStrictHandler (strict_interface h) verifier) [] requestErrorHandler ++
             registerDocs mode verifier page hashes document in
  exists g, (declared_pattern o, g) ∈ mux /\ serves h o g /\
    forall q g', (q, g') ∈ mux -> overlapping q (declared_pattern o) = true -> g' = g /\ q = declared_pattern o.
Proof.
  intros Hbody Ho mux. pose proof (contract_served h verifier Hbody) as Hs.
  destruct (proj1 (list_elem_of_lookup _ _) Ho) as [i Hi].
  destruct (Forall2_lookup_l _ _ _ _ _ Hs Hi) as ([p g] & Hg & Hp & Hserves). cbn [fst snd] in Hp, Hserves. subst p.
  exists g. split_and!; [apply elem_of_app; left; by eapply list_elem_of_lookup_2 | exact Hserves|].
  intros q g' [Hq|Hq]%elem_of_app Hov; [|by rewrite (docs_apart _ _ _ _ _ _ _ _ Ho Hq) in Hov].
  destruct (proj1 (list_elem_of_lookup _ _) Hq) as [j Hj].
  destruct (Forall2_lookup_r _ _ _ _ _ Hs Hj) as (o' & Ho' & Hp' & _). cbn [fst] in Hp'.
  pose proof contract_apart as Ha. rewrite Forall_forall in Ha. specialize (Ha o Ho). rewrite Forall_forall in Ha.
  assert (declared_pattern o' = declared_pattern o) as E.
  { apply Ha; [apply list_elem_of_fmap_2; by eapply list_elem_of_lookup_2 | by rewrite Hp']. }
  assert (i = j) as ->; [|rewrite Hg in Hj; by injection Hj as -> ->].
  apply (NoDup_lookup (declared_pattern <$> contract) i j (declared_pattern o) contract_patterns);
    rewrite list_lookup_fmap; [by rewrite Hi | by rewrite Ho', <- E].
Qed.
End Server.

(** C11: The server honours the contract it embeds. Whatever state it is in, a
    request for an operation the contract declares is answered, without a
    panic, with a status the contract declares for that operation. There are
    two exceptions: a parameter in the path that does not bind is answered 400
    (the operations that read an order and replay an event do not declare it),
    and a port that says itself that its operation is refused or not served
    becomes a 401 or a 501. *)
Theorem server_honours_its_contract {W : Type} `{FloatConversion} `{UnicodeTables} `{JsonErrors} `{Runtime} `{DecodeErrors}
    (cfg : Config) (h : APIHandler W) verifier fingerprinter observer page hashes document w0 handler s0 operations o r s :
  NewWithRateLimits cfg (strict_interface h) verifier fingerprinter observer page hashes document w0 = Ok (handler, s0) ->
  reads_no_body ->
  embedded_operations = Some operations -> o ∈ operations -> routed (declared_pattern o) r -> clean (escaped r) = true ->
  let served := handler r (mkWriter ∅ None []) s in
  served_panic served = None /\ accounted h o (segments r) (response (served_writer served)).1.
Proof.
  intros E Hbody Hops Ho Hr Hc served. rewrite embedded_contract in Hops. injection Hops as <-.
  unfold NewWithRateLimits in E. destruct (newRateLimiters _ _ _) as [l|]; [|done]. cbn [res_bind] in E.
  injection E as E _.
  destruct (route_of h verifier (Docs cfg) page hashes document o Hbody Ho) as (g & Hin & Hserves & Hone).
  set (ss := segments r). set (P := fun r' => (routed (declared_pattern o) r' /\ segments r' = ss) /\ clean (escaped r') = true).
  assert (of_target P) as HP.
  { intros r1 r2 (Em & Es & _) [[[Hm Hs] He] Hcl]. unfold P, routed, segments in *. by rewrite Em, Es. }
  assert (answers P (fun _ _ => accounted h o ss) handler) as Ha.
  { rewrite <- E. apply (answers_server _ _ HP _ _ P).
    - intros _. left. assert (Forall (fun o => declares o 429) contract) as Hl
        by (unfold contract; repeat (constructor; [apply (bool_decide_eq_true_1 _); reflexivity|]); constructor).
      rewrite Forall_forall in Hl. by apply Hl.
    - intros r1 b _ Hp. exact Hp.
    - done.
    - intros r1 w1 s1 [[Hr1 Hss] Hcl] Hw1. erewrite ServeHTTP_routed; [| exact Hcl | exact Hin | exact Hr1 | exact Hone].
      apply (proj1 (settled_answered h o ss (world s1) _)). rewrite <- Hss.
      destruct (proj2 Hr1) as [vs Hvs]. assert (subtree (declared_pattern o) = false) as Hsub.
      { assert (Forall (fun o => subtree (declared_pattern o) = false) contract) as Hl
          by (unfold contract; repeat (constructor; [reflexivity|]); constructor). rewrite Forall_forall in Hl. by apply Hl. }
      rewrite Hsub in Hvs. rewrite Hsub, Hvs. apply (Hserves (with_values r1 vs) w1 s1 vs); [exact Hvs | done | exact Hw1]. }
  destruct (Ha r (mkWriter ∅ None []) s) as (Hp & status & hs & Hs & Hacc); [by split | done |].
  split; [exact Hp|]. unfold served, response. rewrite Hs. exact Hacc.
Qed.

(** ** Witnesses *)

#[local] Existing Instance Api.sample_float.
#[local] Existing Instance Samples.sample_unicode.
#[local] Existing Instance Samples.sample_errors.
#[local] Instance sample_texts : DecodeErrors := {| base64_error := fun _ => "illegal base64 data"; flate_error := fun _ => "flate: corrupt input" |}.

(** A path that does not unescape does not bind. *)
#[local] Instance strict_runtime : Runtime := {|
  BindStyledParameter := fun _ value =>
    if HasPrefix value "%" then Err (ErrNew "invalid URL escape") else Ok value;
  BindQueryString := fun _ _ => inl None;
  BindQueryInt := fun _ _ => inl None;
|}.

Lemma strict_runtime_reads_no_body : reads_no_body.
Proof. split_and!; cbn; [|done|done]. intros _ value err. destruct (HasPrefix value "%"); [by intros [= <-] | done]. Qed.

(** A store without orders, and a port that finds none. *)
Definition no_orders_port : OrderCreator unit :=
  mkOrderCreator unit (fun _ _ => gfail OrderApp.ErrProductNotFound) (fun _ _ => gfail OrderApp.ErrOrderNotFound).
Definition empty_api : APIHandler unit := mkAPIHandler (Health.New "api" "dev" ∅) (Some no_orders_port) None None None.
Definition open_config : Config :=
  mkConfig DocsPublic [] (mkRateLimitConfig false (mkPolicy 1 1) 1 (mkPolicy 1 1) 1 (mkPolicy 1 1) (mkPolicy 1 1) 1 0).
Definition empty_page : HandlerFunc (W := unit) := fun r w s => done_with w s.
Definition empty_built : res (HandlerFunc (W := unit) * Server unit) :=
  NewWithRateLimits open_config (strict_interface empty_api) (Some (fun key => key =s? "k")) None false empty_page None "" tt.
Definition order_request (id : string) : Request :=
  mkRequest "GET" ["v1"; "orders"; id] "" {["X-Api-Key" := ["k"]]} "203.0.113.10:4711" None "" None [] (mkDraws (Ok [1; 2]) 0 0 0).
Definition get_order : DeclaredOperation :=
  mkDeclaredOperation (mkPattern (Some "GET") (literals ["v1"; "orders"] ++ [inr "orderId"]) false) "GetOrder" false
    ["200"; "401"; "404"; "429"; "500"].

(** An unknown order is 404, a declared status. *)
Lemma server_honours_its_contract_witness : exists handler s0, empty_built = Ok (handler, s0) /\
  let served := handler (order_request "ord_1") (mkWriter ∅ None []) s0 in
  (response (served_writer served)).1 = 404 /\ accounted empty_api get_order ["v1"; "orders"; "ord_1"] 404.
Proof.
  destruct empty_built as [[handler s0]|err] eqn:E; [|discriminate E].
  exists handler, s0. split; [reflexivity|]. cbv zeta.
  assert ((response (served_writer (handler (order_request "ord_1") (mkWriter ∅ None []) s0))).1 = 404) as Es.
  { assert (match empty_built with Ok (handler, s0) =>
      (response (served_writer (handler (order_request "ord_1") (mkWriter ∅ None []) s0))).1 = 404 | Err _ => False end) as Hv
      by (vm_compute; reflexivity). rewrite E in Hv. exact Hv. }
  split; [exact Es|]. rewrite <- Es.
  apply (server_honours_its_contract open_config empty_api (Some (fun key => key =s? "k")) None false empty_page None "" tt
    handler s0 contract get_order (order_request "ord_1") s0 E strict_runtime_reads_no_body embedded_contract).
  - do 2 right. left.
  - split; [reflexivity | eexists; reflexivity].
  - reflexivity.
Defined.

(** The exception exists: an identifier that does not unescape is answered 400,
    which the contract does not declare for reading an order. *)
Example undeclared_bad_parameter :
  (match empty_built with
   | Ok (handler, s0) => Some (response (served_writer (handler (order_request "%zz") (mkWriter ∅ None []) s0))).1
   | Err _ => None
   end = Some 400) /\ get_order ∈ contract /\ ~ declares get_order 400.
Proof. split_and!; [vm_compute; reflexivity | do 2 right; left | apply (bool_decide_eq_false_1 _); vm_compute; reflexivity]. Qed.
