(* ===== verification/Contracttest.v ===== *)
(** * Contract assertions: [internal/contracttest]

    What the test suites use to hold the server to its contract: the manifest
    of covered operations and statuses ([manifest.go]), the contractual
    examples of a Markdown document ([markdown.go]) and the validation of an
    exchange ([validator.go]), with the router and the validators of
    [kin-openapi] as parameters. *)

From S2P Require Import Prelude GoLib Json JsonText Netip Wire JsonAny Embedded Durations.
From S2P Require Samples.

(** ** [manifest.go] *)

Module Manifest.

(** What the manifest reads of a document: the operations of all its paths. *)
Record Operation := mkOperation { Operation_ID : string; Responses : list string }.
Definition Document : Type := list Operation.

Record CoverageEntry := mkCoverageEntry {
  OperationID : string;
  Status : Z;
  Layer : string;
  CoveredBy : string
}.

Definition key_of (operation status : string) : string := operation +:+ " " +:+ status.
Definition entry_key (e : CoverageEntry) : string := key_of (OperationID e) (pretty (Status e)).

Definition wanted (document : Document) : gset string :=
  list_to_set (document ≫= fun operation =>
    key_of (Operation_ID operation) <$> List.filter (fun status => status <>s? "default") (Responses operation)).

(** What is wrong with one entry, given the keys before it. *)
Definition entry_problems (entry : CoverageEntry) (got : gset string) : list string :=
  let key := entry_key entry in
  (if (OperationID entry =s? "") || (Status entry <? 100) || (599 <? Status entry) then ["invalid entry " +:+ key] else []) ++
  (if (Layer entry <>s? "handler") && (Layer entry <>s? "integration") && (Layer entry <>s? "e2e")
   then [key +:+ ": invalid layer " +:+ Layer entry] else []) ++
  (if TrimSpace (CoveredBy entry) =s? "" then [key +:+ ": CoveredBy is empty"] else []) ++
  (if bool_decide (key ∈ got) then [key +:+ ": duplicate entry"] else []).

Fixpoint walk (entries : list CoverageEntry) (got : gset string) : list string * gset string :=
  match entries with
  | [] => ([], got)
  | entry :: entries =>
      let problems := entry_problems entry got in
      let '(more, got) := walk entries ({[ entry_key entry ]} ∪ got) in
      (problems ++ more, got)
  end.

(** [range] over the keys of a map goes through them in some order. *)
Definition in_some_order (order : gset string -> list string) : Prop := forall keys, order keys ≡ₚ elements keys.

Definition missing (order : gset string -> list string) (want got : gset string) : list string :=
  (fun key => key +:+ ": missing coverage") <$> filter (fun key => key ∉ got) (order want).
Definition undeclared (order : gset string -> list string) (want got : gset string) : list string :=
  (fun key => key +:+ ": not declared in OpenAPI") <$> filter (fun key => key ∉ want) (order got).

Definition bullet : string := of_codes [10] +:+ "- ".

Definition ValidateManifest (order : gset string -> list string) (document : Document) (entries : list CoverageEntry)
    : option error :=
  let want := wanted document in
  let '(problems, got) := walk entries ∅ in
  let problems := problems ++ missing order want got ++ undeclared order want got in
  match problems with
  | [] => None
  | _ => Some (ErrNew ("invalid contract coverage manifest:" +:+ bullet +:+
                       String.concat bullet (merge_sort String.le problems)))
  end.

(** *** Lemmas *)

(** The status [default] is no pair to cover. *)
Definition declared (document : Document) (operation status : string) : Prop :=
  exists o, o ∈ document /\ Operation_ID o = operation /\ status ∈ Responses o /\ status <> "default".

Record well_formed (e : CoverageEntry) : Prop := {
  names_operation : OperationID e <> "";
  is_status : 100 <= Status e <= 599;
  known_layer : Layer e = "handler" \/ Layer e = "integration" \/ Layer e = "e2e";
  names_test : TrimSpace (CoveredBy e) <> ""
}.

Definition covered_pair (e : CoverageEntry) : string * string := (OperationID e, pretty (Status e)).

(** No blank in a status, so that the last one of a key ends the operation. *)
Definition no_blank (s : string) : Prop := 32 ∉ codes s.

Lemma split_at_last (x : Z) l1 s1 l2 s2 : x ∉ s1 -> x ∉ s2 -> l1 ++ x :: s1 = l2 ++ x :: s2 -> l1 = l2 /\ s1 = s2.
Proof.
  intros H1 H2. revert l2. induction l1 as [|a l1 IH]; intros [|b l2]; cbn [app].
  - by intros [= ->].
  - intros [= <- ->]. destruct H1. apply elem_of_app. right. by left.
  - intros [= -> <-]. destruct H2. apply elem_of_app. right. by left.
  - intros [= -> E]. destruct (IH _ E) as [-> ->]. done.
Qed.

Lemma key_of_inj o1 s1 o2 s2 : no_blank s1 -> no_blank s2 -> key_of o1 s1 = key_of o2 s2 -> o1 = o2 /\ s1 = s2.
Proof.
  intros H1 H2 E%(f_equal codes). unfold key_of in E. rewrite !codes_app in E. cbn in E.
  apply split_at_last in E as [Eo Es]; [|done..]. split; by apply codes_inj.
Qed.

Lemma elem_of_wanted document key : key ∈ wanted document <->
  exists operation status, declared document operation status /\ key = key_of operation status.
Proof.
  unfold wanted, declared. rewrite elem_of_list_to_set, list_elem_of_bind. split.
  - intros (o & (st & -> & Hst)%list_elem_of_fmap & Ho). apply list_elem_of_In, filter_In in Hst as [Hst%list_elem_of_In Hd].
    exists (Operation_ID o), st. split; [|done]. exists o. split_and!; [done..|].
    intros ->. done.
  - intros (op & st & (o & Ho & <- & Hst & Hd) & ->). exists o. split; [|done]. apply list_elem_of_fmap_2, list_elem_of_In, filter_In.
    split; [by apply list_elem_of_In|]. destruct (String.eqb_spec st "default"); done.
Qed.

Lemma walk_got entries got : (walk entries got).2 = list_to_set (entry_key <$> entries) ∪ got.
Proof.
  revert got. induction entries as [|e entries IH]; intros got; cbn [walk fmap list_fmap list_to_set]; [set_solver|].
  specialize (IH ({[entry_key e]} ∪ got)). destruct (walk entries _) as [more got']. cbn [snd] in *. rewrite IH. set_solver.
Qed.

Lemma entry_problems_nil e got : entry_problems e got = [] <-> well_formed e /\ entry_key e ∉ got.
Proof.
  unfold entry_problems. rewrite !app_nil. split.
  - intros (E1 & E2 & E3 & E4). split.
    + destruct (_ || _ || _) eqn:F1 in E1; [done|]. destruct (_ && _ && _) eqn:F2 in E2; [done|].
      destruct (_ =s? "") eqn:F3 in E3; [done|]. apply orb_false_iff in F1 as [[F1 F1']%orb_false_iff F1''].
      constructor; [by apply String.eqb_neq | lia | | by apply String.eqb_neq].
      destruct (String.eqb_spec (Layer e) "handler"); [by left|]. destruct (String.eqb_spec (Layer e) "integration"); [by right; left|].
      destruct (String.eqb_spec (Layer e) "e2e"); [by right; right | done].
    + case_bool_decide; [done|]. done.
  - intros [[Ho Hs Hl Ht] Hk]. split_and!.
    + apply String.eqb_neq in Ho as ->. cbn [orb]. destruct (Z.ltb_spec (Status e) 100); [lia|].
      destruct (Z.ltb_spec 599 (Status e)); [lia | done].
    + by destruct Hl as [->|[->| ->]].
    + by apply String.eqb_neq in Ht as ->.
    + by rewrite bool_decide_eq_false_2.
Qed.

Lemma walk_problems entries got : (walk entries got).1 = [] <->
  Forall well_formed entries /\ NoDup (entry_key <$> entries) /\ (forall key, key ∈ entry_key <$> entries -> key ∉ got).
Proof.
  revert got. induction entries as [|e entries IH]; intros got; cbn [walk fmap list_fmap].
  { split; [|done]. intros _. split_and!; [constructor | constructor | by intros ? ?%elem_of_nil]. }
  specialize (IH ({[entry_key e]} ∪ got)). destruct (walk entries _) as [more got']. cbn [fst] in *.
  rewrite app_nil, entry_problems_nil, IH, Forall_cons, NoDup_cons. setoid_rewrite elem_of_cons. split.
  - intros [[Hw Hk] (Hf & Hn & Hd)]. split_and!; [done | done | | done |].
    + intros Hin. apply (Hd _ Hin). set_solver.
    + intros key [->|Hin]; [done|]. specialize (Hd _ Hin). set_solver.
  - intros ([Hw Hf] & [Hni Hn] & Hd). split_and!; [done | apply Hd; by left | done | done |].
    intros key Hin [->%elem_of_singleton|Hg]%elem_of_union; [done|]. by apply (Hd key); [right|].
Qed.

Lemma filtered_nil order (keys other : gset string) : in_some_order order ->
  filter (fun key => key ∉ other) (order keys) = [] <-> keys ⊆ other.
Proof.
  intros Ho. split.
  - intros E key Hk. destruct (decide (key ∈ other)) as [|Hn]; [done|]. exfalso.
    apply (not_elem_of_nil key). rewrite <- E. apply list_elem_of_filter. split; [done|]. rewrite (Ho keys). by apply elem_of_elements.
  - intros Hs. apply elem_of_nil_inv. intros key [Hn Hk]%list_elem_of_filter. apply Hn, Hs, elem_of_elements. by rewrite <- (Ho keys).
Qed.

Lemma fmap_empty {A B} (f : A -> B) l : f <$> l = [] <-> l = [].
Proof. by destruct l. Qed.

Lemma ValidateManifest_None order document entries : in_some_order order ->
  ValidateManifest order document entries = None <->
  Forall well_formed entries /\ NoDup (entry_key <$> entries) /\
  forall key, key ∈ wanted document <-> key ∈ entry_key <$> entries.
Proof.
  intros Ho. unfold ValidateManifest. pose proof (walk_problems entries ∅) as Hw. pose proof (walk_got entries ∅) as Hg.
  destruct (walk entries ∅) as [problems got]. cbn [fst snd] in *. cbv zeta.
  assert (forall key, key ∈ got <-> key ∈ entry_key <$> entries) as Hgot.
  { intros key. rewrite Hg, elem_of_union, elem_of_list_to_set. set_solver. }
  transitivity (problems ++ missing order (wanted document) got ++ undeclared order (wanted document) got = []).
  { destruct (_ ++ _); split; done. }
  unfold missing, undeclared. rewrite !app_nil, !fmap_empty, !filtered_nil, Hw by done. split.
  - intros ((Hf & Hn & _) & H1 & H2). split_and!; [done..|]. intros key. rewrite <- Hgot. split; auto.
  - intros (Hf & Hn & He). split_and!; [done | done | by intros ? _ ?%elem_of_empty | |]; intros key Hk.
    + by apply Hgot, He.
    + by apply He, Hgot.
Qed.

Lemma merge_sort_perm (l1 l2 : list string) : l1 ≡ₚ l2 -> merge_sort String.le l1 = merge_sort String.le l2.
Proof.
  intros Hp. apply (Sorted_unique String.le); [apply Sorted_merge_sort, _ .. |]. by rewrite !merge_sort_Permutation.
Qed.

Lemma missing_perm order order' want got : in_some_order order -> in_some_order order' ->
  missing order want got ≡ₚ missing order' want got.
Proof. intros H1 H2. unfold missing. by rewrite (H1 want), (H2 want). Qed.

Lemma undeclared_perm order order' want got : in_some_order order -> in_some_order order' ->
  undeclared order want got ≡ₚ undeclared order' want got.
Proof. intros H1 H2. unfold undeclared. by rewrite (H1 got), (H2 got). Qed.

(** The text of the error does not depend on the order of the maps. *)
Lemma ValidateManifest_order order order' document entries : in_some_order order -> in_some_order order' ->
  ValidateManifest order document entries = ValidateManifest order' document entries.
Proof.
  intros H1 H2. unfold ValidateManifest. destruct (walk entries ∅) as [problems got]. cbv zeta.
  assert (problems ++ missing order (wanted document) got ++ undeclared order (wanted document) got ≡ₚ
          problems ++ missing order' (wanted document) got ++ undeclared order' (wanted document) got) as Hp
    by (by rewrite (missing_perm order order'), (undeclared_perm order order')).
  revert Hp. generalize (problems ++ missing order (wanted document) got ++ undeclared order (wanted document) got) as l1.
  generalize (problems ++ missing order' (wanted document) got ++ undeclared order' (wanted document) got) as l2.
  intros [|x l2] [|y l1] Hp; [done | by apply Permutation_nil_r in Hp | by symmetry in Hp; apply Permutation_nil_r in Hp |].
  by rewrite (merge_sort_perm _ _ Hp).
Qed.

Lemma status_no_blank n : 0 <= n -> no_blank (pretty n).
Proof.
  intros Hn Hin. pose proof (pretty_digits n Hn) as Hd. rewrite Forall_forall in Hd. specialize (Hd _ Hin). unfold digit in Hd. lia.
Qed.

Lemma covered_no_blank e : well_formed e -> no_blank (covered_pair e).2.
Proof. intros [_ Hs _ _]. apply status_no_blank. lia. Qed.

Lemma entry_keys (entries : list CoverageEntry) : entry_key <$> entries = (fun p => key_of p.1 p.2) <$> (covered_pair <$> entries).
Proof. by rewrite <- list_fmap_compose. Qed.

Lemma covered_key e op st : well_formed e -> no_blank st -> entry_key e = key_of op st <-> covered_pair e = (op, st).
Proof.
  intros He Hs. unfold entry_key, covered_pair. split; [|by intros [= -> ->]].
  intros [-> ->]%key_of_inj; [done | by apply (covered_no_blank e) | done].
Qed.

Lemma nodup_keys (entries : list CoverageEntry) : Forall well_formed entries -> NoDup (entry_key <$> entries) <-> NoDup (covered_pair <$> entries).
Proof.
  intros Hf. rewrite entry_keys. split; [apply NoDup_fmap_1|]. intros Hn. apply NoDup_fmap_2_strong; [|done].
  intros [o1 s1] [o2 s2] (e1 & E1 & H1)%list_elem_of_fmap (e2 & E2 & H2)%list_elem_of_fmap. rewrite Forall_forall in Hf.
  pose proof (covered_no_blank _ (Hf _ H1)) as B1. pose proof (covered_no_blank _ (Hf _ H2)) as B2.
  rewrite <- E1 in B1. rewrite <- E2 in B2. cbn [fst snd] in *. by intros [-> ->]%key_of_inj.
Qed.
End Manifest.

(** ** Properties of the manifest *)

Import Manifest.

(** The manifest check accepts exactly the complete manifests. It is silent
    just when every entry is well formed (an operation, a status from 100 to
    599, one of the three layers, the name of a test), no operation and status
    has two entries, and the pairs covered are the pairs the document declares,
    [default] aside: neither one less nor one more. What it says does not depend
    on the order in which the maps are gone through. *)
Theorem manifest_is_exact order document entries :
  in_some_order order -> (forall o status, o ∈ document -> status ∈ Responses o -> no_blank status) ->
  (ValidateManifest order document entries = None <->
   Forall well_formed entries /\ NoDup (covered_pair <$> entries) /\
   (forall operation status, declared document operation status <-> (operation, status) ∈ covered_pair <$> entries)) /\
  (forall order', in_some_order order' -> ValidateManifest order' document entries = ValidateManifest order document entries).
Proof.
  intros Ho Hb. split; [|intros order' Ho'; by apply ValidateManifest_order].
  assert (forall op st, declared document op st -> no_blank st) as Hd by (intros op st (o & Hin & _ & Hst & _); by eapply Hb).
  rewrite ValidateManifest_None by done. split; intros (Hf & Hn & He); (split; [done|]; split; [by apply nodup_keys|]);
    rewrite Forall_forall in Hf.
  - intros op st. split.
    + intros Hdec. assert (key_of op st ∈ wanted document) as Hw by (apply elem_of_wanted; eauto).
      apply He, list_elem_of_fmap in Hw as (e & E & Hin).
      symmetry in E. apply covered_key in E; [|by apply Hf | by eapply Hd]. rewrite <- E. by apply list_elem_of_fmap_2.
    + intros (e & E & Hin)%list_elem_of_fmap. pose proof (list_elem_of_fmap_2 entry_key _ _ Hin) as Hk.
      apply He, elem_of_wanted in Hk as (op' & st' & Hdec & Ek). apply covered_key in Ek; [|by apply Hf | by eapply Hd].
      rewrite Ek in E. by injection E as -> ->.
  - intros key. rewrite elem_of_wanted. split.
    + intros (op & st & Hdec & ->). apply He, list_elem_of_fmap in Hdec as (e & E & Hin).
      apply list_elem_of_fmap. exists e. split; [|done]. by injection E as -> ->.
    + intros (e & -> & Hin)%list_elem_of_fmap. exists (OperationID e), (pretty (Status e)). split; [|done].
      apply He, list_elem_of_fmap. by exists e.
Qed.

(** The document of [api/openapi.yaml]: the embedded contract before the
    generator capitalised its operation ids. *)
Definition uncapitalised (s : string) : string :=
  match codes s with c :: t => of_codes (lower_ascii c :: t) | [] => "" end.
Definition api_document : Document :=
  (fun o => mkOperation (uncapitalised (declared_id o)) (declared_statuses o ++ ["default"])) <$> contract.

(** The manifest of the handler suite. *)
Definition contractCoverageManifest : list CoverageEntry :=
  let statuses : list (string * list Z) :=
    [("getHealth", [200; 429; 503]); ("createOrder", [201; 400; 401; 404; 409; 413; 429; 500]);
     ("getOrder", [200; 401; 404; 429; 500]); ("createCheckout", [201; 400; 401; 404; 409; 429; 502; 500]);
     ("listWebhookEvents", [200; 400; 401; 429; 500]); ("reprocessWebhookEvent", [202; 401; 404; 409; 429; 500]);
     ("receiveStripeWebhook", [200; 202; 400; 429; 500])] in
  statuses ≫= fun '(operationID, operationStatuses) =>
    (fun status => mkCoverageEntry operationID status "handler"
       ("TestHandlerResponsesMatchOpenAPI/" +:+ operationID +:+ "/" +:+ pretty status)) <$> operationStatuses.

Lemma elements_in_order : in_some_order elements.
Proof. intros keys. reflexivity. Qed.

Lemma api_document_statuses o status : o ∈ api_document -> status ∈ Responses o -> no_blank status.
Proof.
  assert (Forall (fun o => Forall no_blank (Responses o)) api_document) as Hf.
  { apply (bool_decide_eq_true_1 _). vm_compute. reflexivity. }
  rewrite Forall_forall in Hf. intros Ho. specialize (Hf _ Ho). rewrite Forall_forall in Hf. apply Hf.
Qed.

Lemma manifest_is_exact_witness : declared api_document "createOrder" "413" /\
  ("createOrder", "413") ∈ covered_pair <$> contractCoverageManifest /\ ~ declared api_document "getOrder" "400".
Proof.
  assert (ValidateManifest elements api_document contractCoverageManifest = None) as E by (vm_compute; reflexivity).
  destruct (manifest_is_exact elements api_document contractCoverageManifest elements_in_order api_document_statuses) as [Hex _].
  destruct (proj1 Hex E) as (_ & _ & Hpairs).
  assert (("createOrder", "413") ∈ covered_pair <$> contractCoverageManifest) as Hin
    by (apply (bool_decide_eq_true_1 _); vm_compute; reflexivity).
  split; [exact (proj2 (Hpairs "createOrder" "413") Hin)|]. split; [exact Hin|].
  intros Hd. apply Hpairs in Hd. revert Hd. apply (bool_decide_eq_false_1 _). vm_compute. reflexivity.
Defined.

(** A status added to the contract without a test is reported. *)
Example new_status_is_reported :
  ValidateManifest elements (mkOperation "getHealth" ["418"] :: api_document) contractCoverageManifest =
    Some (ErrNew ("invalid contract coverage manifest:" +:+ of_codes [10] +:+ "- getHealth 418: missing coverage")).
Proof. vm_compute. reflexivity. Qed.

(** ** [markdown.go] *)

Module Markdown.

(** *** What it uses of [strings] and [bufio] *)

(** [strings.Fields]: the words between blanks. *)
Fixpoint fields_codes (skip : nat) (word : list Z) (l : list Z) : list (list Z) :=
  let flush := match word with [] => [] | _ => [word] end in
  match l with
  | [] => flush
  | c :: t =>
      match skip with
      | S k => fields_codes k word t
      | O => match match_len space_runes l with
             | O => fields_codes 0 (word ++ [c]) t
             | S k => flush ++ fields_codes k [] t
             end
      end
  end.
Definition Fields (s : string) : list string := of_codes <$> fields_codes 0 [] (codes s).

(** [strings.Cut] at the sign of equality. *)
Fixpoint cut_codes (l : list Z) : option (list Z * list Z) :=
  match l with
  | [] => None
  | c :: t => if c =? 61 then Some ([], t)
              else match cut_codes t with Some (a, b) => Some (c :: a, b) | None => None end
  end.
Definition Cut_equals (s : string) : option (string * string) :=
  (fun ab => (of_codes ab.1, of_codes ab.2)) <$> cut_codes (codes s).

Definition TrimPrefix (s p : string) : string := if HasPrefix s p then slice_from (String.length p) s else s.

(** A file: what reading it yields, and an error that may end it. *)
Record File := mkFile { file_bytes : string; file_error : option error }.

Definition MaxScanTokenSize : Z := 65536.
Definition ErrTooLong : error := ErrSentinel "bufio.ErrTooLong" "bufio.Scanner: token too long".

Definition drop_return (l : list Z) : list Z :=
  match reverse l with 13 :: t => reverse t | _ => l end.

(** A [bufio.Scanner] over lines: the lines before the first that does not fit
    its buffer, and its error. The last line needs no end. *)
Fixpoint scan_lines (current : list Z) (l : list Z) : list (list Z) * option error :=
  match l with
  | [] => (match current with [] => [] | _ => [drop_return current] end, None)
  | c :: t =>
      if c =? 10 then let '(lines, err) := scan_lines [] t in (drop_return current :: lines, err)
      else if MaxScanTokenSize <=? Z.of_nat (length current) + 1 then ([], Some ErrTooLong)
      else scan_lines (current ++ [c]) t
  end.

Definition scanned (f : File) : list string * option error :=
  let '(lines, err) := scan_lines [] (codes (file_bytes f)) in
  (of_codes <$> lines, match err with Some _ => err | None => file_error f end).

(** *** The loader *)

Definition contractFencePrefix : string := "```json contract ".
Definition fence : string := "```".

Record MarkdownExample := mkMarkdownExample {
  Name : string;
  Example_OperationID : string;
  Direction : string;
  Example_Status : string;
  Value : any
}.

Definition Metadata : Type := gmap string string.
Definition meta (m : Metadata) (key : string) : string := default "" (m !! key).

Section Loading.
Context `{JsonErrors} `{GoQuote}.

Fixpoint read_metadata (line : string) (fields : list string) (metadata : Metadata) : res Metadata :=
  match fields with
  | [] => Ok metadata
  | field :: fields =>
      match Cut_equals field with
      | Some (key, value) =>
          if value =s? "" then Err (ErrNew ("invalid contract fence metadata " +:+ Quote line))
          else if bool_decide (is_Some (metadata !! key))
               then Err (ErrNew ("duplicate contract fence metadata " +:+ Quote key +:+ " in " +:+ Quote line))
          else read_metadata line fields (<[key := value]> metadata)
      | None => Err (ErrNew ("invalid contract fence metadata " +:+ Quote line))
      end
  end.

Definition check_metadata (line : string) (m : Metadata) : option error :=
  if (meta m "operation" =s? "") || (meta m "direction" =s? "") || (meta m "status" =s? "") || (meta m "name" =s? "")
  then Some (ErrNew ("contract fence requires operation, direction, status and name: " +:+ Quote line))
  else if (meta m "direction" <>s? "request") && (meta m "direction" <>s? "response")
  then Some (ErrNew ("contract fence " +:+ Quote (meta m "name") +:+ " has invalid direction " +:+ Quote (meta m "direction")))
  else if (meta m "direction" =s? "request") && (meta m "status" <>s? "-")
  then Some (ErrNew ("request contract fence " +:+ Quote (meta m "name") +:+ " must use status=-"))
  else if (meta m "direction" =s? "response") && (meta m "status" =s? "-")
  then Some (ErrNew ("response contract fence " +:+ Quote (meta m "name") +:+ " requires a status"))
  else None.

(** One line outside of a fence: nothing, or the metadata of a fence it opens. *)
Definition open_fence (text : string) : res (option Metadata) :=
  let line := TrimSpace text in
  if negb (HasPrefix line contractFencePrefix) then
    if HasPrefix line "```json contract" then Err (ErrNew ("invalid contract fence marker " +:+ Quote line)) else Ok None
  else
    try metadata := read_metadata line (Fields (TrimPrefix line contractFencePrefix)) ∅ in
    match check_metadata line metadata with Some err => Err err | None => Ok (Some metadata) end.

(** A fence that has closed, and its text. *)
Definition close_fence (metadata : Metadata) (source : string) : res MarkdownExample :=
  match Unmarshal_any source with
  | Err err => Err (ErrWrap ("decode contract fence " +:+ Quote (meta metadata "name") +:+ ": ") err "")
  | Ok value =>
      Ok (mkMarkdownExample (meta metadata "name") (meta metadata "operation") (meta metadata "direction")
            (meta metadata "status") value)
  end.

(** The two loops over the scanner: the inner one runs while a fence is open. *)
Fixpoint load (lines : list string) (scan_error : option error) (open : option (Metadata * string))
    (examples : list MarkdownExample) : res (list MarkdownExample) :=
  match lines, open with
  | [], None =>
      match scan_error with Some err => Err (wrapf "scan Markdown contract" err) | None => Ok examples end
  | [], Some (metadata, _) => Err (ErrNew ("unclosed contract fence " +:+ Quote (meta metadata "name")))
  | text :: lines, None =>
      try opened := open_fence text in
      load lines scan_error ((fun metadata => (metadata, "")) <$> opened) examples
  | text :: lines, Some (metadata, source) =>
      if TrimSpace text =s? fence then
        try e := close_fence metadata source in load lines scan_error None (examples ++ [e])
      else load lines scan_error (Some (metadata, source +:+ text +:+ of_codes [10])) examples
  end.

Definition LoadMarkdownExamples (file : res File) : res (list MarkdownExample) :=
  match file with
  | Err err => Err (wrapf "open Markdown contract" err)
  | Ok file => let '(lines, err) := scanned file in load lines err None []
  end.
End Loading.

(** *** Lemmas: words and fields *)

Definition word (s : string) : Prop := s <> "" /\ Forall graphic (codes s).

Lemma graphic_no_space b l : graphic b -> match_len space_runes (b :: l) = 0%nat.
Proof.
  intros Hb. assert (Forall (fun p => exists x t, p = x :: t /\ ~ graphic x) space_runes) as Ht
    by (repeat constructor; eexists _, _; (split; [reflexivity | unfold graphic; lia])).
  unfold match_len. induction Ht as [|p table (x & t & -> & Hx) _ IH]; [done|]. cbn [List.find starts_with].
  destruct (Z.eqb_spec x b); [by subst | done].
Qed.

Lemma fields_word current w rest : Forall graphic w -> fields_codes 0 current (w ++ rest) = fields_codes 0 (current ++ w) rest.
Proof.
  intros Hw. revert current. induction Hw as [|b w Hb Hw IH]; intros current; cbn [app]; [by rewrite app_nil_r|].
  cbn [fields_codes]. rewrite graphic_no_space by done. rewrite IH. by rewrite <- app_assoc.
Qed.

Lemma fields_next w rest : w <> [] -> Forall graphic w -> fields_codes 0 [] (w ++ 32 :: rest) = w :: fields_codes 0 [] rest.
Proof. intros Hn Hw. rewrite fields_word by done. by destruct w. Qed.

Lemma fields_last w : w <> [] -> Forall graphic w -> fields_codes 0 [] w = [w].
Proof. intros Hn Hw. rewrite <- (app_nil_r w) at 1. rewrite fields_word by done. by destruct w. Qed.

Lemma Cut_equals_field key value : 61 ∉ codes key -> Cut_equals (key +:+ "=" +:+ value) = Some (key, value).
Proof.
  intros Hk. unfold Cut_equals. rewrite !codes_app. cbn [codes]. change (codes "=") with [61]. cbn [app].
  assert (cut_codes (codes key ++ 61 :: codes value) = Some (codes key, codes value)) as ->.
  { induction (codes key) as [|c l IH]; [done|]. cbn [app cut_codes]. rewrite elem_of_cons in Hk.
    destruct (Z.eqb_spec c 61); [subst; tauto|]. by rewrite IH by tauto. }
  change (Some (of_codes (codes key), of_codes (codes value)) = Some (key, value)). by rewrite !of_codes_codes.
Qed.

Lemma TrimSpace_between s t b l : codes s = b :: l -> graphic b -> word t -> TrimSpace (s +:+ t) = s +:+ t.
Proof.
  intros Es Hb [Hn Ht]. unfold TrimSpace, trim_codes. rewrite codes_app, Es. cbn [app].
  assert (exists t' c, codes t = t' ++ [c] /\ graphic c) as (t' & c & Et & Hc).
  { destruct (codes t) as [|x xs _] eqn:E using rev_ind; [by destruct Hn; apply codes_inj|].
    exists xs, x. split; [done|]. apply Forall_app in Ht as [_ Ht]. by apply Forall_inv in Ht. }
  rewrite trim_table_graphic; [| repeat constructor; eexists _, _; (split; [reflexivity | unfold graphic; lia]) | done].
  rewrite Et, app_comm_cons, app_assoc, reverse_snoc.
  rewrite trim_table_graphic; [| repeat constructor; eexists _, _; (split; [reflexivity | unfold graphic; lia]) | done].
  rewrite <- reverse_snoc, reverse_involutive, <- app_assoc, <- Et, <- (of_codes_codes (s +:+ t)), codes_app, Es. done.
Qed.

(** *** Lemmas: a document and its lines *)

(** A block of a document: a line of prose, or an example in its fence. *)
Record Marked := mkMarked { marked : MarkdownExample; body : list string }.
Definition Block : Type := string + Marked.

Definition fields_text (e : MarkdownExample) : string :=
  ("operation" +:+ "=" +:+ Example_OperationID e) +:+ " " +:+ ("direction" +:+ "=" +:+ Direction e) +:+ " " +:+
  ("status" +:+ "=" +:+ Example_Status e) +:+ " " +:+ ("name" +:+ "=" +:+ Name e).
Definition marker (e : MarkdownExample) : string := contractFencePrefix +:+ fields_text e.
Definition block_lines (b : Block) : list string :=
  match b with inl line => [line] | inr m => marker (marked m) :: body m ++ [fence] end.
Definition source_of (lines : list string) : string := foldr (fun line rest => line +:+ of_codes [10] +:+ rest) "" lines.
Definition block_examples (b : Block) : list MarkdownExample := match b with inl _ => [] | inr m => [marked m] end.

Section Blocks.
Context `{JsonErrors} `{GoQuote}.

Record writable (e : MarkdownExample) : Prop := {
  writes_words : word (Example_OperationID e) /\ word (Example_Status e) /\ word (Name e);
  writes_direction : Direction e = "request" /\ Example_Status e = "-" \/ Direction e = "response" /\ Example_Status e <> "-"
}.

Definition block_ok (b : Block) : Prop :=
  match b with
  | inl line => HasPrefix (TrimSpace line) "```json contract" = false
  | inr m => writable (marked m) /\ Forall (fun line => TrimSpace line <> fence) (body m) /\
             Unmarshal_any (source_of (body m)) = Ok (Value (marked m))
  end.

Lemma field_graphic key value : word value -> Forall graphic (codes key) ->
  codes (key +:+ "=" +:+ value) <> [] /\ Forall graphic (codes (key +:+ "=" +:+ value)).
Proof.
  intros [_ Hv] Hk. rewrite !codes_app. split; [by destruct (codes key)|]. apply Forall_app. split; [done|].
  apply Forall_app. split; [|done]. constructor; [vm_compute; split; discriminate | constructor].
Qed.

Lemma direction_word e : writable e -> word (Direction e).
Proof.
  intros [_ [[-> _]|[-> _]]]; (split; [done|]); repeat (constructor; [vm_compute; split; discriminate|]); constructor.
Qed.

Lemma keys_graphic : Forall (fun key => Forall graphic (codes key) /\ 61 ∉ codes key) ["operation"; "direction"; "status"; "name"].
Proof.
  repeat (constructor; [split; [repeat (constructor; [vm_compute; split; discriminate|]); constructor
    | apply (bool_decide_eq_false_1 _); vm_compute; reflexivity]|]). constructor.
Qed.

Lemma Fields_marker e : writable e -> Fields (fields_text e) =
  ["operation" +:+ "=" +:+ Example_OperationID e; "direction" +:+ "=" +:+ Direction e;
   "status" +:+ "=" +:+ Example_Status e; "name" +:+ "=" +:+ Name e].
Proof.
  intros He. pose proof (direction_word e He) as Hd. destruct He as [(Ho & Hs & Hn) _].
  pose proof keys_graphic as Hk. rewrite !Forall_cons in Hk. destruct Hk as ([Ka _] & [Kb _] & [Kc _] & [Kd _] & _).
  unfold Fields, fields_text. rewrite (codes_app (_ +:+ _)), (codes_app " "), (codes_app (_ +:+ _)), (codes_app " "),
    (codes_app (_ +:+ _)), (codes_app " ").
  change (codes " ") with [32]. cbn [app].
  rewrite !fields_next by (by apply field_graphic). rewrite fields_last by (by apply field_graphic).
  rewrite !fmap_cons, fmap_nil, !of_codes_codes. done.
Qed.

Lemma read_field line key value fields m : 61 ∉ codes key -> value <> "" -> m !! key = None ->
  read_metadata line ((key +:+ "=" +:+ value) :: fields) m = read_metadata line fields (<[key := value]> m).
Proof.
  intros Hk Hv Hm. cbn [read_metadata]. rewrite Cut_equals_field by done. apply String.eqb_neq in Hv as ->.
  by rewrite Hm, bool_decide_eq_false_2 by (by intros []).
Qed.

Definition metadata_of (e : MarkdownExample) : Metadata :=
  <["name" := Name e]> (<["status" := Example_Status e]> (<["direction" := Direction e]> {["operation" := Example_OperationID e]})).

Lemma meta_metadata e :
  meta (metadata_of e) "operation" = Example_OperationID e /\ meta (metadata_of e) "direction" = Direction e /\
  meta (metadata_of e) "status" = Example_Status e /\ meta (metadata_of e) "name" = Name e.
Proof. unfold meta, metadata_of. split_and!; by simplify_map_eq. Qed.

Lemma HasPrefix_longer s p q : HasPrefix s (p +:+ q) = true -> HasPrefix s p = true.
Proof.
  unfold HasPrefix. revert s. induction p as [|a p IH]; intros s; [by destruct s|].
  change (String.String a p +:+ q) with (String.String a (p +:+ q)). destruct s as [|b s]; [done|]. cbn [String.prefix].
  destruct (Ascii.ascii_dec a b); [apply IH | done].
Qed.

Lemma open_marker e : writable e -> open_fence (marker e) = Ok (Some (metadata_of e)).
Proof.
  intros He. pose proof (direction_word e He) as Hd. pose proof (Fields_marker e He) as Hf.
  destruct He as [((Ho & _) & (Hs & _) & Hn) Hdir].
  unfold open_fence. cbv zeta.
  assert (TrimSpace (marker e) = marker e) as ->.
  { unfold marker, fields_text.
    assert (forall s a b c d, s +:+ (a +:+ " " +:+ b +:+ " " +:+ c +:+ " " +:+ ("name" +:+ "=" +:+ d)) =
              (s +:+ (a +:+ " " +:+ b +:+ " " +:+ c +:+ " " +:+ "name" +:+ "=")) +:+ d) as Ea
      by (intros; apply codes_inj; rewrite !codes_app; rewrite <- !app_assoc; done).
    rewrite Ea. eapply TrimSpace_between; [rewrite codes_app; reflexivity | vm_compute; done | exact Hn]. }
  unfold marker at 1 2. rewrite HasPrefix_app. cbn [negb].
  assert (TrimPrefix (marker e) contractFencePrefix = fields_text e) as Et.
  { unfold TrimPrefix, marker. rewrite HasPrefix_app. by apply slice_from_app. }
  rewrite Et, Hf. pose proof keys_graphic as Hk. rewrite !Forall_cons in Hk.
  destruct Hk as ([_ Ka] & [_ Kb] & [_ Kc] & [_ Kd] & _).
  rewrite !read_field; [| done | apply Hn | reflexivity | done | done | reflexivity | done | apply Hd | reflexivity | done | done | reflexivity].
  cbn [read_metadata res_bind]. change (<["name":=Name e]> _) with (metadata_of e). unfold check_metadata.
  destruct (meta_metadata e) as (-> & -> & -> & ->).
  apply String.eqb_neq in Ho as ->. destruct Hd as [Hd _]. apply String.eqb_neq in Hd as ->.
  destruct Hn as [Hn _]. pose proof Hs as Hs'. apply String.eqb_neq in Hs' as ->. apply String.eqb_neq in Hn as ->.
  cbn [orb]. destruct Hdir as [[-> ->]|[-> Hm]]; [done|]. apply String.eqb_neq in Hm as ->. done.
Qed.

Lemma close_marked e source : Unmarshal_any source = Ok (Value e) -> close_fence (metadata_of e) source = Ok e.
Proof.
  intros E. unfold close_fence. rewrite E.
  destruct (meta_metadata e) as (-> & -> & -> & ->).
  by destruct e.
Qed.

Lemma append_assoc (a b c : string) : (a +:+ b) +:+ c = a +:+ b +:+ c.
Proof. apply codes_inj. by rewrite !codes_app, <- app_assoc. Qed.

(** The inner loop reads the lines of a fence. *)
Lemma load_body lines err e more acc examples : Forall (fun line => TrimSpace line <> fence) lines ->
  Unmarshal_any (acc +:+ source_of lines) = Ok (Value e) ->
  load (lines ++ fence :: more) err (Some (metadata_of e, acc)) examples = load more err None (examples ++ [e]).
Proof.
  intros Hl. revert acc. induction Hl as [|line lines Hline _ IH]; intros acc E.
  - cbn [app load]. change (TrimSpace fence =s? fence) with true. cbv iota.
    change (source_of []) with "" in E.
    assert (acc +:+ "" = acc) as Ea by (apply codes_inj; rewrite codes_app; apply app_nil_r). rewrite Ea in E.
    by rewrite (close_marked e acc E).
  - cbn [app load]. apply String.eqb_neq in Hline as ->. apply IH. rewrite <- E. cbn [source_of foldr].
    by rewrite !append_assoc.
Qed.

Lemma load_blocks blocks more err examples : Forall block_ok blocks ->
  load ((blocks ≫= block_lines) ++ more) err None examples = load more err None (examples ++ (blocks ≫= block_examples)).
Proof.
  intros Hb. revert examples. induction Hb as [|[line|m] blocks Hok _ IH]; intros examples; cbn [mbind list_bind app].
  - by rewrite app_nil_r.
  - cbn [block_lines block_examples app load]. unfold open_fence. cbv zeta.
    assert (HasPrefix (TrimSpace line) contractFencePrefix = false) as ->.
    { cbn [block_ok] in Hok. destruct (HasPrefix (TrimSpace line) contractFencePrefix) eqn:Hp; [|done].
      by rewrite <- Hok, (HasPrefix_longer _ "```json contract" " "). }
    cbn [negb]. cbn [block_ok] in Hok. rewrite Hok. cbn [res_bind fmap option_fmap option_map]. apply IH.
  - destruct Hok as (Hw & Hl & Hv). cbn [block_lines block_examples]. rewrite <- !app_comm_cons, <- !app_assoc.
    cbn [load]. rewrite open_marker by done. cbn [res_bind fmap option_fmap option_map].
    cbn [app]. rewrite (load_body (body m) err (marked m)); [|done|exact Hv]. rewrite IH. by rewrite <- app_assoc.
Qed.
End Blocks.

(** A line a scanner reads back: it fits the buffer and holds no line end. *)
Record plain_line (line : string) : Prop := {
  holds_no_end : 10 ∉ codes line;
  ends_plainly : forall t, codes line <> t ++ [13];
  fits_buffer : len line < MaxScanTokenSize
}.

Lemma drop_return_plain l : (forall t, l <> t ++ [13]) -> drop_return l = l.
Proof.
  intros Hl. unfold drop_return. destruct (reverse l) as [|c t] eqn:E; [done|].
  assert (l = reverse t ++ [c]) as El by (by rewrite <- (reverse_involutive l), E, reverse_cons).
  destruct (decide (c = 13)) as [->|Hc]; [by destruct (Hl (reverse t))|]. repeat (case_match; try done).
Qed.

Lemma scan_line current l rest : 10 ∉ l -> Z.of_nat (length current + length l) < MaxScanTokenSize ->
  scan_lines current (l ++ 10 :: rest) =
    (drop_return (current ++ l) :: (scan_lines [] rest).1, (scan_lines [] rest).2).
Proof.
  revert current. induction l as [|c l IH]; intros current Hl Hb; cbn [app scan_lines].
  - rewrite Z.eqb_refl, app_nil_r. by destruct (scan_lines [] rest).
  - rewrite elem_of_cons in Hl. destruct (Z.eqb_spec c 10); [subst; tauto|]. cbn [length] in Hb.
    destruct (Z.leb_spec MaxScanTokenSize (Z.of_nat (length current) + 1)); [lia|].
    rewrite IH; [by rewrite <- app_assoc | tauto | rewrite length_app; cbn; lia].
Qed.

Lemma scan_source lines : Forall plain_line lines -> scan_lines [] (codes (source_of lines)) = (codes <$> lines, None).
Proof.
  induction 1 as [|line lines [He Hr Hf] _ IH]; [done|]. cbn [source_of foldr]. rewrite !codes_app.
  change (codes (of_codes [10])) with [10]. cbn [app]. rewrite len_codes in Hf.
  rewrite scan_line; [|done|done]. cbn [app]. rewrite drop_return_plain by done. change (foldr _ "" lines) with (source_of lines).
  by rewrite IH.
Qed.

Lemma scanned_source lines : Forall plain_line lines -> scanned (mkFile (source_of lines) None) = (lines, None).
Proof.
  intros Hl. unfold scanned. cbn [file_bytes file_error]. rewrite scan_source by done. f_equal.
  rewrite <- list_fmap_compose. rewrite <- (list_fmap_id lines) at 2. apply list_fmap_ext. intros i line _. apply of_codes_codes.
Qed.
End Markdown.

(** ** Properties of the loader *)

Import Markdown.

(** What is written as a contractual example is read back. A document of
    prose and marked fences, in any order and number, loads as exactly the
    examples of its fences, in their order, with their names, operations,
    directions, statuses and values: whatever the prose around them is, as long
    as it does not begin a contract fence itself. *)
Theorem marked_examples_load `{JsonErrors} `{GoQuote} blocks :
  Forall block_ok blocks -> Forall plain_line (blocks ≫= block_lines) ->
  LoadMarkdownExamples (Ok (mkFile (source_of (blocks ≫= block_lines)) None)) = Ok (blocks ≫= block_examples).
Proof.
  intros Hb Hl. unfold LoadMarkdownExamples. rewrite scanned_source by done.
  rewrite <- (app_nil_r (blocks ≫= block_lines)). by rewrite load_blocks.
Qed.

#[local] Existing Instance Samples.sample_errors.
#[local] Instance plain_quote : GoQuote := fun s => s.

Definition quoted_text (s : string) : string := of_codes [34] +:+ s +:+ of_codes [34].
Definition sample_example : MarkdownExample :=
  mkMarkdownExample "create-order" "createOrder" "request" "-"
    (AObject [("productId", AString "product_demo"); ("quantity", ANumber [49])]).
Definition sample_blocks : list Block :=
  [inl "# Orders"; inl "```json"; inl "{ not json"; inl "```";
   inr (mkMarked sample_example
     ["{"; "  " +:+ quoted_text "productId" +:+ ": " +:+ quoted_text "product_demo" +:+ ",";
      "  " +:+ quoted_text "quantity" +:+ ": 1"; "}"]);
   inl "More prose."].

Lemma plain_line_dec line : 10 ∉ codes line -> last (codes line) <> Some 13 -> len line < MaxScanTokenSize -> plain_line line.
Proof. intros H1 H2 H3. constructor; [done | | done]. intros t E. apply H2. by rewrite E, last_snoc. Qed.

Lemma marked_examples_load_witness :
  Forall block_ok sample_blocks /\
  LoadMarkdownExamples (Ok (mkFile (source_of (sample_blocks ≫= block_lines)) None)) = Ok [sample_example].
Proof.
  assert (Forall block_ok sample_blocks) as Hb.
  { unfold sample_blocks. rewrite !Forall_cons, Forall_nil. do 4 (split; [vm_compute; reflexivity|]).
    split; [|split; [vm_compute; reflexivity | done]]. split; [|split].
    - constructor; [split_and!; (split; [discriminate | repeat (constructor; [vm_compute; split; discriminate|]); constructor])
      | by left].
    - repeat (constructor; [vm_compute; discriminate|]). constructor.
    - vm_compute. reflexivity. }
  split; [exact Hb|]. apply (marked_examples_load sample_blocks Hb).
  repeat (constructor; [apply plain_line_dec; [apply (bool_decide_eq_false_1 _); vm_compute; reflexivity | vm_compute; discriminate
    | vm_compute; reflexivity]|]). constructor.
Defined.

(** A fence that is not closed is an error, whatever precedes it. *)
Example unclosed_fence : LoadMarkdownExamples (Ok (mkFile (source_of [marker sample_example; "{}"]) None)) =
  Err (ErrNew "unclosed contract fence create-order").
Proof. vm_compute. reflexivity. Qed.

(** ** [validator.go] *)

Module Validator.

(** A response as a client holds it. *)
Record Response := mkResponse { StatusCode : Z; Response_Header : Header; Response_Body : Body }.

(** [kin-openapi]: loading and checking a document, its servers taken away, its
    router, and the two validators. A request is valid or not by what it
    carries, a response by the request's route, its status, headers and body. *)
Class KinOpenAPI (Doc Router Route : Type) : Type := {
  LoadFromFile : string -> res Doc;
  Validate : Doc -> option error;
  without_servers : Doc -> Doc;
  NewRouter : Doc -> res Router;
  FindRoute : Router -> Request -> res (Route * list (string * string));
  Route_OperationID : Route -> string;
  ValidateRequest : Request -> list (string * string) -> Route -> option error;
  ValidateResponse : Request -> list (string * string) -> Route -> Z -> Header -> string -> option error
}.

Inductive RequestExpectation : Type := RequestInvalid | RequestValid.
#[export] Instance RequestExpectation_eq_dec : EqDecision RequestExpectation.
Proof. solve_decision. Defined.

Section Validator.
Context {Doc Router Route : Type} `{KinOpenAPI Doc Router Route} `{GoQuote}.

Record Validator := mkValidator { Document : Doc; router : Router }.

Definition New (specPath : string) : res Validator :=
  try document := res_wrap (wrapf "load OpenAPI document") (LoadFromFile specPath) in
  match Validate document with
  | Some err => Err (wrapf "validate OpenAPI document" err)
  | None =>
      let routingDocument := without_servers document in
      try router := res_wrap (wrapf "build OpenAPI router") (NewRouter routingDocument) in
      Ok (mkValidator document router)
  end.

(** A body that has been read to its end; an error comes again. *)
Definition drained (b : Body) : Body := mkBody "" (body_end b).

(** [cloneRequest]: the clone, and the request with the body it is left with. *)
Definition cloneRequest (req : Request) : res Request * Request :=
  match RequestBody req with
  | None => (Ok req, req)
  | Some b =>
      match ReadAll b with
      | (_, Some err) => (Err (wrapf "read request body" err), with_body req (Some (drained b)))
      | (body, None) =>
          let restored := Some (mkBody body None) in
          (Ok (with_body req restored), with_body req restored)
      end
  end.

Definition status_error (operationID : string) (got want : Z) (body : string) : error :=
  ErrNew (operationID +:+ " status = " +:+ pretty got +:+ ", want " +:+ pretty want +:+ "; body=" +:+ body).

(** The response side, once the request has passed. *)
Definition validateResponse (clone : Request) (params : list (string * string)) (route : Route) (response : Response)
    (expectedOperationID : string) (expectedStatus : Z) : option error * Response :=
  match ReadAll (Response_Body response) with
  | (_, Some err) =>
      (Some (wrapf ("read " +:+ expectedOperationID +:+ " response") err),
       mkResponse (StatusCode response) (Response_Header response) (drained (Response_Body response)))
  | (body, None) =>
      let response := mkResponse (StatusCode response) (Response_Header response) (mkBody body None) in
      if negb (StatusCode response =? expectedStatus) then
        (Some (status_error expectedOperationID (StatusCode response) expectedStatus body), response)
      else
        match ValidateResponse clone params route (StatusCode response) (Response_Header response) body with
        | Some err =>
            (Some (wrapf ("validate " +:+ expectedOperationID +:+ " response " +:+ pretty (StatusCode response)) err), response)
        | None => (None, response)
        end
  end.

(** The verdict, and the request and the response as the caller holds them
    afterwards. *)
Definition ValidateExchange (v : Validator) (req : Request) (response : Response) (expectedOperationID : string)
    (expectedStatus : Z) (expectedRequest : RequestExpectation) : option error * Request * Response :=
  let '(clone, req) := cloneRequest req in
  match clone with
  | Err err => (Some err, req, response)
  | Ok clone =>
      match FindRoute (router v) clone with
      | Err err => (Some (wrapf "resolve OpenAPI route" err), req, response)
      | Ok (route, pathParams) =>
          if Route_OperationID route <>s? expectedOperationID then
            (Some (ErrNew ("operationId = " +:+ Quote (Route_OperationID route) +:+ ", want " +:+ Quote expectedOperationID)),
             req, response)
          else
            match ValidateRequest clone pathParams route, expectedRequest with
            | Some err, RequestValid => (Some (wrapf ("validate " +:+ expectedOperationID +:+ " request") err), req, response)
            | None, RequestInvalid =>
                (Some (ErrNew (expectedOperationID +:+ " request unexpectedly satisfies the OpenAPI contract")), req, response)
            | _, _ =>
                let '(verdict, response) :=
                  validateResponse clone pathParams route response expectedOperationID expectedStatus in
                (verdict, req, response)
            end
      end
  end.

(** [Exercise]: the handler serves the request into a recorder, which answers 200
    with the headers as they are when nothing was written; [render] is the bytes
    of what was. A panic of the handler goes through. *)
Definition recorded {P S} (render : list (Chunk P) -> string) (served : Served P S) : Response :=
  let w := served_writer served in
  mkResponse (response w).1 (response w).2 (mkBody (render (written w)) None).

Definition Exercise {P S} (render : list (Chunk P) -> string) (v : Validator) (handler : Handler P S) (req : Request)
    (expectedOperationID : string) (expectedStatus : Z) (expectedRequest : RequestExpectation) (s : S)
    : res Response * option string * S :=
  match cloneRequest req with
  | (Err err, _) => (Err err, None, s)
  | (Ok validationRequest, req) =>
      let served := handler req (mkWriter ∅ None []) s in
      match served_panic served with
      | Some text => (Err (ErrNew text), Some text, served_state served)
      | None =>
          let '(verdict, _, response) := ValidateExchange v validationRequest (recorded render served) expectedOperationID
                                           expectedStatus expectedRequest in
          (match verdict with Some err => Err err | None => Ok response end, None, served_state served)
      end
  end.

(** *** Lemmas *)

Definition readable (b : Body) : Prop := body_end b = None.

Lemma cloneRequest_Ok req clone req' : cloneRequest req = (Ok clone, req') ->
  clone = req /\ req' = req /\ forall b, RequestBody req = Some b -> readable b.
Proof.
  unfold cloneRequest, ReadAll. destruct req as [m ss q hs a [[b [e|]]|] c ad pv ds]; cbn; try done; intros [= <- <-];
    (split_and!; [done | done |]); intros b' [= <-]; done.
Qed.

Lemma cloneRequest_readable req : (forall b, RequestBody req = Some b -> readable b) -> cloneRequest req = (Ok req, req).
Proof.
  unfold cloneRequest, ReadAll, readable. destruct req as [m ss q hs a [[b e]|] c ad pv ds]; cbn; [|done].
  intros Hb. specialize (Hb _ eq_refl). cbn in Hb. by rewrite Hb.
Qed.

(** What makes an exchange the one expected. *)
Record conforms (v : Validator) (req : Request) (response : Response) (operation : string) (status : Z)
    (expected : RequestExpectation) : Prop := {
  request_readable : forall b, RequestBody req = Some b -> readable b;
  response_readable : readable (Response_Body response);
  status_expected : StatusCode response = status;
  both_match : exists route params, FindRoute (router v) req = Ok (route, params) /\ Route_OperationID route = operation /\
    (ValidateRequest req params route = None <-> expected = RequestValid) /\
    ValidateResponse req params route status (Response_Header response) (body_bytes (Response_Body response)) = None
}.

Lemma validateResponse_None clone params route response operation status :
  (validateResponse clone params route response operation status).1 = None <->
  readable (Response_Body response) /\ StatusCode response = status /\
  ValidateResponse clone params route status (Response_Header response) (body_bytes (Response_Body response)) = None.
Proof.
  unfold validateResponse, ReadAll, readable. destruct (body_end (Response_Body response)) as [err|] eqn:Ee; [naive_solver|].
  cbn [StatusCode Response_Header]. destruct (Z.eqb_spec (StatusCode response) status) as [->|Hn]; cbn [negb]; [|naive_solver].
  destruct (ValidateResponse _ _ _ _ _ _); naive_solver.
Qed.

Lemma validateResponse_keeps clone params route response operation status : readable (Response_Body response) ->
  (validateResponse clone params route response operation status).2 = response.
Proof.
  unfold validateResponse, ReadAll, readable. destruct response as [st hs [b e]]; cbn. intros ->.
  repeat case_match; done.
Qed.

Lemma ValidateExchange_keeps v req response operation status expected :
  (forall b, RequestBody req = Some b -> readable b) -> readable (Response_Body response) ->
  exists verdict, ValidateExchange v req response operation status expected = (verdict, req, response).
Proof.
  intros Hq Hr. unfold ValidateExchange. rewrite cloneRequest_readable by done.
  destruct (FindRoute _ _) as [[route params]|]; [|eauto]. destruct (_ <>s? _); [eauto|].
  pose proof (validateResponse_keeps req params route response operation status Hr) as Hk.
  destruct (validateResponse _ _ _ _ _ _) as [verdict response'] eqn:E. cbn in Hk. subst response'.
  destruct (ValidateRequest _ _ _), expected; eauto.
Qed.
End Validator.
End Validator.

(** ** Properties of the validator *)

Import Validator.

(** An exchange is accepted exactly when it is the one expected: both bodies
    can be read, the request resolves to the expected operation, the validator
    of the library takes the request just when a valid one is expected, the
    status is the expected one and the library takes the response under it. In
    every case the caller keeps both messages as they were, bodies included, if
    they could be read. *)
Theorem exchange_is_judged_exactly `{KinOpenAPI Doc Router Route} `{GoQuote} (v : Validator) req response operation status expected :
  ((ValidateExchange v req response operation status expected).1.1 = None <->
   conforms v req response operation status expected) /\
  ((forall b, RequestBody req = Some b -> readable b) -> readable (Response_Body response) ->
   exists verdict, ValidateExchange v req response operation status expected = (verdict, req, response)).
Proof.
  split; [|apply ValidateExchange_keeps]. unfold ValidateExchange.
  destruct (cloneRequest req) as [[clone|err] req'] eqn:Ec.
  2:{ split; [done|]. intros [Hq _ _ _]. by rewrite cloneRequest_readable in Ec. }
  apply cloneRequest_Ok in Ec as (-> & -> & Hq).
  destruct (FindRoute _ req) as [[route params]|err] eqn:Ef; [|split; [done|]; intros [_ _ _ (? & ? & ? & _)]; congruence].
  destruct (String.eqb_spec (Route_OperationID route) operation) as [Ho|Ho]; cbn [negb].
  2:{ split; [done|]. intros [_ _ _ (? & ? & E & ? & _)]. congruence. }
  pose proof (validateResponse_None req params route response operation status) as Hv.
  destruct (validateResponse _ _ _ _ _ _) as [verdict response'] eqn:Er. cbn [fst] in Hv.
  destruct (ValidateRequest req params route) as [err|] eqn:Eq, expected; cbn [fst].
  1,4: rewrite Hv; split;
    [intros (Hr & Hs & Hp); constructor; [done..|]; exists route, params; split_and!; [done | done | by rewrite Eq | done]
    |intros [_ Hr Hs (r2 & p2 & E & _ & _ & Hp)]; rewrite Ef in E; injection E as <- <-; done].
  all: split; [done|]; intros [_ _ _ (r2 & p2 & E & _ & Hi & _)]; rewrite Ef in E; injection E as <- <-;
    rewrite Eq in Hi; naive_solver.
Qed.

(** A library that knows one route. *)
#[local] Instance one_route : KinOpenAPI unit unit unit := {|
  LoadFromFile := fun _ => Ok tt; Validate := fun _ => None; without_servers := id; NewRouter := fun _ => Ok tt;
  FindRoute := fun _ r => if Path r =s? "/health" then Ok (tt, []) else Err (ErrNew "no matching operation was found");
  Route_OperationID := fun _ => "getHealth";
  ValidateRequest := fun _ _ _ => None;
  ValidateResponse := fun _ _ _ status _ _ => if status =? 200 then None else Some (ErrNew "status is not supported")
|}.

Definition probe : Request :=
  mkRequest "GET" ["health"] "" ∅ "" (Some (mkBody "" None)) "" None [] (mkDraws (Ok []) 0 0 0).
Definition healthy : Response := mkResponse 200 ∅ (mkBody "{}" None).

(** Two facts about the same exchange: it is accepted as the probe, not as the
    reading of an order. *)
Lemma exchange_is_judged_exactly_witness :
  conforms (mkValidator tt tt) probe healthy "getHealth" 200 RequestValid /\
  ~ conforms (mkValidator tt tt) probe healthy "getOrder" 200 RequestValid /\
  exists verdict, ValidateExchange (mkValidator tt tt) probe healthy "getOrder" 200 RequestValid = (verdict, probe, healthy).
Proof.
  split_and!.
  - apply exchange_is_judged_exactly. vm_compute. reflexivity.
  - intros Hc. apply exchange_is_judged_exactly in Hc. vm_compute in Hc. discriminate Hc.
  - apply exchange_is_judged_exactly; [intros b [= <-]; reflexivity | reflexivity].
Defined.
