(* ===== verification/Tracing.v ===== *)
(** * What every response carries

    The correlation id a request is given runs through its response header, its
    error body and its log lines; the security headers are on every answer. *)

From S2P Require Import Prelude GoLib Errsanitize JsonText Samples Netip Wire Openapi Ratelimit ClientIP Http Handlers Api.
Import Openapi.

(** Where a request is going, and the content policies an answer from there may
    have: the strict one among them. *)
Class Site := mkSite { site_path : list string; policies : list string; site_strict : strictContentSecurityPolicy ∈ policies }.

(** The headers a response must carry. *)
Definition required (id : string) : list (string * string) :=
  [(correlationHeader, id); (headerContentTypeOptions, "nosniff"); (headerReferrerPolicy, "no-referrer");
   (headerCacheControl, "no-store"); (headerFrameOptions, "DENY")].

Definition marked `{Site} (id : string) (h : Header) : Prop :=
  Forall (fun kv => h !! CanonicalHeaderKey kv.1 = Some [kv.2]) (required id) /\
  exists policy, policy ∈ policies /\ h !! headerContentSecurity = Some [policy].

(** Error bodies quote the id. *)
Definition quotes (id : string) (c : Chunk Payload) : Prop :=
  match c with Json (PError e) => Error_CorrelationId e = id | _ => True end.

Definition entry_id (e : LogEntry) : string :=
  match e with RequestCompleted _ _ _ id => id | HandlerFailed _ _ _ id => id | HandlerPanicked _ id => id end.

Record traced_writer `{Site} (id : string) (w : ResponseWriter) : Prop := {
  tw_header : marked id (header w);
  tw_sent : forall status h, sent w = Some (status, h) -> marked id h;
  tw_body : Forall (quotes id) (written w)
}.

Section Tracing.
Context {W : Type} `{Site}.

Record traced_served (id : string) (s : Server W) (served : Served' (Server W)) : Prop := {
  ts_writer : traced_writer id (served_writer served);
  ts_log : exists new, log (served_state served) = log s ++ new /\ Forall (fun e => entry_id e = id) new
}.

Definition traced (h : Handler' (Server W)) : Prop :=
  forall r w s, segments r = site_path -> traced_writer (correlation r) w -> traced_served (correlation r) s (h r w s).

(** *** Writing *)

(** A header a handler may set: none of the required ones, or its own value. *)
Definition benign (id key value : string) : Prop :=
  Forall (fun kv => CanonicalHeaderKey kv.1 = CanonicalHeaderKey key -> value = kv.2) (required id) /\
  (headerContentSecurity = CanonicalHeaderKey key -> value ∈ policies).

Lemma traced_set id w key value : benign id key value -> traced_writer id w -> traced_writer id (set_header w key value).
Proof.
  intros [Hb Hp] [[H1 (policy & Hin & H0)] H2 H3]. constructor; [|done..]. rewrite Forall_forall in Hb, H1.
  unfold marked, set_header, Set_. cbn [header]. split.
  - apply Forall_forall. intros kv Hkv. destruct (decide (CanonicalHeaderKey kv.1 = CanonicalHeaderKey key)) as [E|E].
    + rewrite E, lookup_insert_eq. by rewrite (Hb kv Hkv E).
    + rewrite lookup_insert_ne by congruence. by apply H1.
  - destruct (decide (headerContentSecurity = CanonicalHeaderKey key)) as [E|E].
    + rewrite E, lookup_insert_eq. exists value. auto.
    + rewrite lookup_insert_ne by congruence. by exists policy.
Qed.

Lemma traced_WriteHeader id w status : traced_writer id w -> traced_writer id (WriteHeader w status).
Proof.
  intros [H1 H2 H3]. unfold WriteHeader. constructor; cbn [header sent written]; [done | | done].
  destruct (sent w) as [[st h]|] eqn:E; intros st' h' [= <- <-]; [by apply (H2 st) | done].
Qed.

Lemma traced_Write id w c : quotes id c -> traced_writer id w -> traced_writer id (Write w c).
Proof.
  intros Hc Hw. destruct (traced_WriteHeader id w 200 Hw) as [H1 H2 H3].
  constructor; [done | done |]. unfold Write. cbn [written]. apply Forall_app. split; [done|]. by constructor.
Qed.

End Tracing.

(** Discharges [benign] for literal header names. *)
Ltac benign :=
  split; [repeat constructor; vm_compute; first [done | by intros [=]] | first [intros _; exact site_strict | by vm_compute]].

Section Tracing2.
Context {W : Type} `{Site}.

Lemma traced_strict id w : traced_writer id w -> traced_writer id (setStrictSecurityHeaders w).
Proof. intros Hw. unfold setStrictSecurityHeaders. repeat (apply traced_set; [benign|]). exact Hw. Qed.

Lemma traced_writeError r w status code message : traced_writer (correlation r) w ->
  traced_writer (correlation r) (writeError w r status code message).
Proof.
  intros Hw. unfold writeError. apply traced_Write; [done|]. apply traced_WriteHeader.
  apply traced_set; [benign|]. by apply traced_strict.
Qed.

Lemma traced_http_Error id w text status : traced_writer id w -> traced_writer id (http_Error w text status).
Proof.
  intros Hw. unfold http_Error. apply traced_Write; [done|]. apply traced_WriteHeader.
  apply traced_set; [benign|]. apply traced_set; [benign|].
  destruct Hw as [[H1 (policy & Hin & H0)] H2 H3]. constructor; [|done..]. cbn [header]. split.
  2: { exists policy. by rewrite lookup_delete_ne. }
  rewrite Forall_forall in *. intros kv Hkv. rewrite lookup_delete_ne; [by apply H1|].
  assert (Forall (fun kv => "Content-Length" <> CanonicalHeaderKey kv.1) (required id)) as Hf
    by (repeat constructor; vm_compute; done).
  rewrite Forall_forall in Hf. by apply Hf.
Qed.
End Tracing2.

Lemma traced_visit_json `{Site} id status p retryAfter w : quotes id (Json p) -> traced_writer id w ->
  traced_writer id (visit_json status p retryAfter id w).1.
Proof.
  intros Hp Hw. unfold visit_json. destruct (Encode p); [done|]. cbn [fst].
  apply traced_Write; [done|]. apply traced_WriteHeader. apply traced_set; [benign|].
  destruct retryAfter; [apply traced_set; [benign|]|]; (apply traced_set; [benign|]); exact Hw.
Qed.

Lemma traced_visit_empty `{Site} id status w : traced_writer id w -> traced_writer id (visit_empty status id w).1.
Proof. intros Hw. unfold visit_empty. cbn [fst]. apply traced_WriteHeader. apply traced_set; [benign | exact Hw]. Qed.

Create HintDb traced.
#[export] Hint Resolve traced_visit_json traced_visit_empty : traced.

#[local] Arguments Returned {S A}.
#[local] Arguments Panicked {S A}.

Section Chain.
Context {W : Type} `{Site} `{FloatConversion}.
Implicit Types (s : Server W) (next : Handler' (Server W)).

Lemma traced_same id s w : traced_writer id w -> traced_served id s (done_with w s).
Proof. intros Hw. constructor; [done|]. exists []. by rewrite app_nil_r. Qed.

Lemma traced_quiet id s s' served : log s' = log s -> traced_served id s' served -> traced_served id s served.
Proof. intros E [H1 H2]. constructor; [done|]. by rewrite E in H2. Qed.

Lemma traced_entry id s served e w : traced_served id s served -> traced_writer id w -> entry_id e = id ->
  traced_served id s (done_with w (with_log (served_state served) e)).
Proof.
  intros [H1 (new & El & Hn)] Hw He. constructor; [done|]. exists (new ++ [e]). cbn [served_state done_with with_log log].
  rewrite El, app_assoc. split; [done|]. apply Forall_app. split; [done|]. by constructor.
Qed.

Lemma traced_address resolver next : traced next -> traced (clientAddressMiddleware resolver next).
Proof.
  intros Hn r w s Hr Hw. unfold clientAddressMiddleware. case_match; [|by apply Hn].
  by apply (Hn (with_address r _)).
Qed.

Lemma traced_limited r w retryAfter : traced_writer (correlation r) w ->
  traced_writer (correlation r) (writeRateLimited w r retryAfter).
Proof. intros Hw. unfold writeRateLimited. apply traced_writeError. apply traced_set; [benign | exact Hw]. Qed.

Lemma traced_limit next : traced next -> traced (clientRateLimitMiddleware next).
Proof.
  intros Hn r w s Hr Hw. unfold clientRateLimitMiddleware. destruct (limiters s) as [l|]; [|by apply Hn].
  assert (forall o, traced_served (correlation r) s (refuse_or next r w s o)) as Ho.
  { intros [[d l'] told]. unfold refuse_or. apply (traced_quiet _ _ (with_limiters s l' told)); [done|].
    destruct (negb (Allowed d)); [by apply traced_same, traced_limited | by apply Hn]. }
  repeat case_match; auto.
Qed.

Lemma traced_access next : traced next -> traced (accessLogMiddleware next).
Proof.
  intros Hn r w s Hr Hw. unfold accessLogMiddleware. pose proof (Hn r w s Hr Hw) as Hs.
  destruct (served_panic _); [done|]. apply traced_entry; [done | apply Hs | done].
Qed.

Lemma traced_recovery next : traced next -> traced (recoveryMiddleware next).
Proof.
  intros Hn r w s Hr Hw. unfold recoveryMiddleware. pose proof (Hn r w s Hr Hw) as Hs.
  destruct (served_panic _); [|done]. apply traced_entry; [done | apply traced_writeError, Hs | done].
Qed.

Lemma traced_body next : traced next -> traced (bodyLimitMiddleware next).
Proof.
  intros Hn r w s Hr Hw. unfold bodyLimitMiddleware. case_match; [|by apply Hn]. by apply (Hn (with_body r _)).
Qed.

Lemma traced_mux (mux : Mux Payload (Server W)) :
  (forall p h, (p, h) ∈ mux -> is_Some (match_segments (pattern_segments p) (subtree p) site_path) -> traced h) ->
  traced (ServeHTTP mux).
Proof.
  intros Hm r w s Hr Hw. unfold ServeHTTP. case_match; [apply traced_same, traced_Write; [done | by apply traced_WriteHeader]|].
  destruct (List.find _ mux) as [[p h]|] eqn:E.
  - apply find_some in E as [Hin [_ Hs%bool_decide_eq_true]%andb_prop]. apply list_elem_of_In in Hin.
    simpl in Hs. rewrite Hr in Hs. by apply (Hm _ _ Hin Hs (with_values r _)).
  - case_match; by apply traced_same, traced_http_Error.
Qed.

Lemma traced_request_error r w (s : Server W) err : traced_writer (correlation r) w ->
  traced_served (correlation r) s (requestErrorHandler r w s err).
Proof. intros Hw. unfold requestErrorHandler. case_match; by apply traced_same, traced_writeError. Qed.

Lemma traced_response_error r w s err : traced_writer (correlation r) w ->
  traced_served (correlation r) s (responseErrorHandler r w s err).
Proof.
  intros Hw. unfold responseErrorHandler.
  destruct (As _ _); [apply traced_same, traced_limited; exact Hw|].
  destruct (Is _ _); [apply traced_same, traced_writeError; exact Hw|].
  destruct (Is _ _); [apply traced_same, traced_writeError; exact Hw|].
  apply (traced_entry _ s (done_with w s)); [by apply traced_same | by apply traced_writeError | done].
Qed.

(** The operations: their answers are written with the id of the context, and
    they log nothing. *)
Definition traced_call {A} (visit : A -> ResponseWriter -> ResponseWriter * option error) (r : Request) (s : Server W)
    (c : Openapi.Call (Server W) A) : Prop :=
  match c with
  | Returned (Ok a) s' =>
      log s' = log s /\ forall w, traced_writer (correlation r) w -> traced_writer (correlation r) (visit a w).1
  | Returned (Err _) s' | Panicked _ s' => log s' = log s
  end.

Lemma traced_strict_answer {A} apiHandler verifier op (call : Request -> Server W -> Openapi.Call (Server W) A)
    (inject : A -> AnyResponse) (as_own : AnyResponse -> option A) visit :
  (forall a, as_own (inject a) = Some a) -> (forall r s, traced_call visit r s (call r s)) ->
  traced (strict_answer (mkStrictHandler apiHandler [apiKeyAuthenticationMiddleware verifier; operationRateLimitMiddleware]
            requestErrorHandler responseErrorHandler) op (fun r s => answer_as inject (call r s)) as_own visit).
Proof.
  intros Hi Hc r w s _ Hw. unfold strict_answer. cbn [fold_left middlewares ResponseErrorHandlerFunc].
  set (handler := fun r s => answer_as inject (call r s)).
  assert (forall s', log s' = log s -> traced_served (correlation r) s
    match handler r s' with
    | Panicked text s => mkServed w s (Some text)
    | Returned (Err err) s => responseErrorHandler r w s err
    | Returned (Ok response) s =>
        match as_own response with
        | Some own => match visit own w with
                      | (w, None) => done_with w s
                      | (w, Some err) => responseErrorHandler r w s err
                      end
        | None => responseErrorHandler r w s (ErrNew "unexpected response type")
        end
    end) as Hh.
  { intros s' Es. specialize (Hc r s'). unfold handler. destruct (call r s') as [[a|err] s2|text s2]; cbn [answer_as traced_call] in *.
    - destruct Hc as [El Hv]. rewrite Hi. specialize (Hv w Hw). destruct (visit a w) as [w' [err|]]; simpl in Hv;
        (apply (traced_quiet _ _ s2); [congruence|]); [by apply traced_response_error | by apply traced_same].
    - apply (traced_quiet _ _ s2); [congruence | by apply traced_response_error].
    - apply (traced_quiet _ _ s2); [congruence|]. constructor; [done|]. exists []. by rewrite app_nil_r. }
  assert (forall s' err, log s' = log s -> traced_served (correlation r) s (responseErrorHandler r w s' err)) as He.
  { intros s' err Es. apply (traced_quiet _ _ s'); [done | by apply traced_response_error]. }
  unfold operationRateLimitMiddleware, apiKeyAuthenticationMiddleware.
  repeat match goal with
  | |- context [limiters s] => destruct (limiters s) as [l|]
  | |- context [allowCredential ?l ?n ?c ?k] => destruct (allowCredential l n c k) as [[d l'] told]
  | |- context [if ?b then _ else _] => destruct b
  | |- context [match verifier with _ => _ end] => destruct verifier as [valid|]
  end; first [by apply Hh | by apply He].
Qed.
End Chain.

Section Operations.
Context {W : Type} `{Site} `{FloatConversion} `{Runtime} `{UnicodeTables} `{JsonErrors} (h : APIHandler W).

Lemma on_world_log {A} (m : M W A) s a s' : on_world m s = (a, s') -> log s' = log s.
Proof. unfold on_world. destruct (m (world s)). by intros [= _ <-]. Qed.

Ltac traced_answer :=
  cbn [traced_call];
  repeat match goal with
  | |- context [on_world ?m ?s] => let E := fresh in destruct (on_world m s) as [? ?] eqn:E; apply on_world_log in E
  | |- context [match ?x with _ => _ end] => destruct x
  end; cbn [traced_call];
  first [split; [first [done | congruence] | intros ? ?; first [by apply traced_visit_json | by apply traced_visit_empty]]
        | done | congruence].

Lemma traced_GetHealth r s : traced_call VisitGetHealthResponse r s (GetHealth h r s).
Proof. unfold GetHealth, answer. traced_answer. Qed.

Lemma traced_CreateOrder q r s : traced_call VisitCreateOrderResponse r s (CreateOrder h r q s).
Proof. unfold CreateOrder, createOrderError, answer, failure. traced_answer. Qed.

Lemma traced_GetOrder q r s : traced_call VisitGetOrderResponse r s (GetOrder h r q s).
Proof. unfold GetOrder, answer, failure. traced_answer. Qed.

Lemma traced_CreateCheckout q r s : traced_call VisitCreateCheckoutResponse r s (CreateCheckout h r q s).
Proof. unfold CreateCheckout, createCheckoutError, answer, failure. cbv zeta. traced_answer. Qed.

Lemma traced_ListWebhookEvents q r s : traced_call VisitListWebhookEventsResponse r s (ListWebhookEvents h r q s).
Proof. unfold ListWebhookEvents, answer, failure. cbv zeta. traced_answer. Qed.

Lemma traced_ReprocessWebhookEvent q r s :
  traced_call VisitReprocessWebhookEventResponse r s (ReprocessWebhookEvent h r q s).
Proof. unfold ReprocessWebhookEvent, answer, failure. traced_answer. Qed.

Lemma traced_ReceiveStripeWebhook q r s :
  traced_call VisitReceiveStripeWebhookResponse r s (ReceiveStripeWebhook h r q s).
Proof. unfold ReceiveStripeWebhook, answer, failure. traced_answer. Qed.

Lemma traced_bind_header siw r w (s : Server W) name k : ErrorHandlerFunc siw = requestErrorHandler ->
  traced_writer (correlation r) w -> (forall v, traced_served (correlation r) s (k v)) ->
  traced_served (correlation r) s (bind_header siw r w s name k).
Proof.
  intros He Hw Hk. unfold bind_header. rewrite He. case_match; [|done].
  repeat case_match; first [apply Hk | by apply traced_request_error].
Qed.

Lemma traced_required siw r w (s : Server W) name k : ErrorHandlerFunc siw = requestErrorHandler ->
  traced_writer (correlation r) w -> (forall v, traced_served (correlation r) s (k v)) ->
  traced_served (correlation r) s (bind_required_header siw r w s name k).
Proof.
  intros He Hw Hk. apply traced_bind_header; [done..|]. intros [v|]; [done|]. rewrite He. by apply traced_request_error.
Qed.

Lemma traced_bind_path siw r w (s : Server W) name k : ErrorHandlerFunc siw = requestErrorHandler ->
  traced_writer (correlation r) w -> (forall v, traced_served (correlation r) s (k v)) ->
  traced_served (correlation r) s (bind_path siw r w s name k).
Proof. intros He Hw Hk. unfold bind_path. rewrite He. case_match; [done | by apply traced_request_error]. Qed.

Lemma traced_bind_query siw r w (s : Server W) {A} name (bound : option A + BindError) k :
  ErrorHandlerFunc siw = requestErrorHandler ->
  traced_writer (correlation r) w -> (forall v, traced_served (correlation r) s (k v)) ->
  traced_served (correlation r) s (bind_query siw r w s name bound k).
Proof. intros He Hw Hk. unfold bind_query. rewrite He. repeat case_match; [done | by apply traced_request_error..]. Qed.

Lemma traced_routes valid p hd : (p, hd) ∈ api_routes (strict_interface h) valid -> traced hd.
Proof.
  unfold api_routes, HandlerWithOptions. rewrite !elem_of_cons, elem_of_nil.
  intros [[= _ ->]|[[= _ ->]|[[= _ ->]|[[= _ ->]|[[= _ ->]|[[= _ ->]|[[= _ ->]|[]]]]]]]]; intros r w s Hr Hw.
  - apply (traced_strict_answer _ _ _ (fun r s => GetHealth h r s) RGetHealth); [done | | exact Hr | exact Hw].
    intros. apply traced_GetHealth.
  - apply traced_required; [done..|]. intros key. unfold through. cbn [fold_left HandlerMiddlewares Wrapped].
    cbn [SI_CreateOrder newStrictHandler NewStrictHandlerWithOptions]. unfold Strict_CreateOrder.
    destruct (Decode _ _ _) as [body [err|]]; [by apply traced_request_error|].
    apply (traced_strict_answer _ _ _ (fun r s => CreateOrder h r _ s) RCreateOrder); [done | | exact Hr | exact Hw].
    intros. apply traced_CreateOrder.
  - apply traced_bind_path; [done..|]. intros id.
    apply (traced_strict_answer _ _ _ (fun r s => GetOrder h r _ s) RGetOrder); [done | | exact Hr | exact Hw].
    intros. apply traced_GetOrder.
  - apply traced_bind_path; [done..|]. intros id. apply traced_required; [done..|]. intros key.
    unfold through. cbn [fold_left HandlerMiddlewares Wrapped SI_CreateCheckout newStrictHandler NewStrictHandlerWithOptions].
    unfold Strict_CreateCheckout.
    apply (traced_strict_answer _ _ _ (fun r s => CreateCheckout h r _ s) RCreateCheckout); [done | | exact Hr | exact Hw].
    intros. apply traced_CreateCheckout.
  - apply traced_bind_query; [done..|]. intros st. apply traced_bind_query; [done..|]. intros n.
    apply (traced_strict_answer _ _ _ (fun r s => ListWebhookEvents h r _ s) RListWebhookEvents); [done | | exact Hr | exact Hw].
    intros. apply traced_ListWebhookEvents.
  - apply traced_bind_path; [done..|]. intros id.
    apply (traced_strict_answer _ _ _ (fun r s => ReprocessWebhookEvent h r _ s) RReprocessWebhookEvent); [done | | exact Hr | exact Hw].
    intros. apply traced_ReprocessWebhookEvent.
  - apply traced_bind_header; [done..|]. intros sig.
    apply (traced_strict_answer _ _ _ (fun r' s => ReceiveStripeWebhook h r' _ s) RReceiveStripeWebhook); [done | | exact Hr | exact Hw].
    intros. apply traced_ReceiveStripeWebhook.
Qed.

Lemma match_literal name method b ss :
  is_Some (match_segments (pattern_segments (mkPattern method (literals [name]) b)) b ss) ->
  exists rest, ss = name :: rest /\ if b then rest <> [] else rest = [].
Proof.
  cbn [literals map fmap list_fmap pattern_segments match_segments]. destruct ss as [|x rest]; [by intros []|]. intros Hm. exists rest.
  cbn in Hm. destruct (String.eqb_spec name x) as [->|]; [|by destruct Hm]. split; [done|]. by destruct b, rest, Hm.
Qed.

Lemma traced_docs mode valid page hashes document p hd : traced page ->
  (forall rest, site_path = "docs" :: rest -> rest <> [] -> mode <> DocsDisabled -> swaggerContentSecurityPolicy hashes ∈ policies) ->
  (p, hd) ∈ registerDocs (W := W) mode valid page hashes document ->
  is_Some (match_segments (pattern_segments p) (subtree p) site_path) -> traced hd.
Proof.
  intros Hp Hs Hin Hm r w s Hr Hw. unfold registerDocs in Hin.
  assert (forall d, ui d = page -> (Path r <> docsPath -> Path r <> openAPIPath -> docs_policy d ∈ policies) ->
    traced_served (correlation r) s (docs_ServeHTTP d r w s)) as Hd.
  { intros d Hu Hcsp. unfold docs_ServeHTTP. rewrite Hu.
    destruct (require d && _); [by apply traced_same, traced_writeError|].
    destruct (negb _); [apply traced_same, traced_writeError; apply traced_set; [benign | done]|].
    destruct (String.eqb_spec (Path r) docsPath);
      [apply traced_same, traced_Write; [done|]; apply traced_WriteHeader, traced_set; [benign | done]|].
    destruct (String.eqb_spec (Path r) openAPIPath);
      [apply traced_same, traced_Write; [done|]; apply traced_set; [benign | done]|].
    apply Hp; [done|]. apply traced_set; [|done]. split; [repeat constructor; by vm_compute | auto]. }
  assert (site_path = ["docs"] -> Path r = docsPath) as Edocs by (intros E; unfold Path; by rewrite Hr, E).
  assert (site_path = ["openapi.yaml"] -> Path r = openAPIPath) as Eopenapi by (intros E; unfold Path; by rewrite Hr, E).
  destruct mode; [by apply not_elem_of_nil in Hin| |]; rewrite !elem_of_cons, elem_of_nil in Hin;
    destruct Hin as [[= -> ->]|[[= -> ->]|[[= -> ->]|[]]]]; (apply Hd; [done|]); intros N1 N2; cbn [docs_policy];
    apply match_literal in Hm as (rest & Es & Hrest); cbn [subtree] in Hrest; try (rewrite Hrest in Es; tauto); by apply (Hs rest).
Qed.
End Operations.

(** ** Properties *)

(** The id of a request: the one it asked for when it is a valid token, a
    generated one otherwise. *)
Definition id_of (r : Request) : string :=
  let asked := TrimSpace (Wire.Get (Headers r) correlationHeader) in
  if validCorrelationID asked then asked else newCorrelationID (draws r).

(** A letter or a digit. *)
Definition alphanumeric (c : Z) : Prop := 48 <= c <= 57 \/ 65 <= c <= 90 \/ 97 <= c <= 122.

(** One line of at most 128 letters, digits, dots, underscores, colons and
    hyphens, the first a letter or a digit, which sanitizing leaves alone. *)
Definition safe_token (s : string) : Prop :=
  len s <= 128 /\
  (exists c t, codes s = c :: t /\ alphanumeric c /\
    Forall (fun c => alphanumeric c \/ c = 46 \/ c = 95 \/ c = 58 \/ c = 45) t) /\
  Sanitize s = s.

Lemma is_alnum_spec c : is_alnum c = true <-> alphanumeric c.
Proof. unfold is_alnum, alphanumeric, Netip.is_digit, is_upper, is_lower. lia. Qed.

Lemma validCorrelationID_spec s : validCorrelationID s = true <-> safe_token s.
Proof.
  unfold validCorrelationID, safe_token, correlationIDPattern. change maxCorrelationIDLength with 128.
  rewrite !andb_true_iff, Z.leb_le, String.eqb_eq, negb_true_iff, String.eqb_neq.
  destruct (codes s) as [|c t] eqn:E.
  { split; [by intros [[[_ _] ?] _] | by intros (_ & (? & ? & ? & _) & _)]. }
  assert (s <> "") as Hs by (intros ->; discriminate).
  rewrite andb_true_iff, is_alnum_spec, forallb_forall. setoid_rewrite <- list_elem_of_In. rewrite <- Forall_forall.
  assert (Forall (fun c => is_alnum c || bool_decide (c ∈ [46; 95; 58; 45]) = true) t <->
    Forall (fun c => alphanumeric c \/ c = 46 \/ c = 95 \/ c = 58 \/ c = 45) t) as ->.
  { apply Forall_proper; [|done]. intros x. rewrite orb_true_iff, is_alnum_spec, bool_decide_eq_true. set_solver. }
  naive_solver.
Qed.

(** The policies an answer may have: the strict one, or below [/docs/] of an
    API that serves its documentation the one computed from the page. *)
Definition site_policies (mode : DocsMode) (hashes : option (list string)) (path : list string) : list string :=
  strictContentSecurityPolicy ::
  match mode, path with
  | DocsPublic, "docs" :: _ :: _ | DocsProtected, "docs" :: _ :: _ => [swaggerContentSecurityPolicy hashes]
  | _, _ => []
  end.

(** C30: Every response of the API server carries the request's correlation id
    in its header and, when it is an error, in its body, and every line logged
    for the request names that id. The id is the client's exactly when that is
    one safe token: at most 128 letters, digits, dots, underscores, colons and
    hyphens that sanitizing leaves alone; otherwise the server generates one
    and nothing of the client's is echoed. The headers that forbid sniffing,
    caching, framing and referrers are on every response, errors, refusals and
    recovered panics included, and so is a content security policy: the strict
    one, but for the pages of a served documentation, which have theirs. *)
Theorem every_response_is_traced {W : Type} `{FloatConversion} `{Runtime} `{UnicodeTables} `{JsonErrors}
    (cfg : Config) (h : APIHandler W) (valid : string -> bool) fingerprinter observer page hashes document (w : W)
    handler s0 (r : Request) (s : Server W) :
  NewWithRateLimits cfg (strict_interface h) (Some valid) fingerprinter observer page hashes document w = Ok (handler, s0) ->
  (forall site : Site, traced page) ->
  let served := handler r (mkWriter ∅ None []) s in
  let id := id_of r in
  let asked := TrimSpace (Wire.Get (Headers r) correlationHeader) in
  Forall (fun kv => (response (served_writer served)).2 !! CanonicalHeaderKey kv.1 = Some [kv.2]) (required id) /\
  (exists policy, policy ∈ site_policies (Docs cfg) hashes (segments r) /\
    (response (served_writer served)).2 !! headerContentSecurity = Some [policy]) /\
  Forall (quotes id) (written (served_writer served)) /\
  (exists new, log (served_state served) = log s ++ new /\ Forall (fun e => entry_id e = id) new) /\
  (safe_token asked /\ id = asked \/ ~ safe_token asked /\ id = newCorrelationID (draws r)).
Proof.
  intros HN Hp. unfold NewWithRateLimits in HN. destruct (newRateLimiters _ _ _); [|done]. injection HN as <- _.
  pose (mkSite (segments r) (site_policies (Docs cfg) hashes (segments r)) ltac:(by left)) as site.
  assert (traced (W := W) (clientAddressMiddleware (Some (NewClientAddressResolver (TrustedProxies cfg)))
    (clientRateLimitMiddleware (accessLogMiddleware (recoveryMiddleware (bodyLimitMiddleware (ServeHTTP
      (HandlerWithOptions (newStrictHandler (strict_interface h) (Some valid)) [] requestErrorHandler ++
       registerDocs (Docs cfg) (Some valid) page hashes document)))))))) as Ht.
  { apply traced_address, traced_limit, traced_access, traced_recovery, traced_body, traced_mux.
    intros p hd [Hin|Hin]%elem_of_app; [intros _; by eapply traced_routes|]. eapply traced_docs; [apply Hp | | exact Hin].
    intros rest E Hrest Hmode. unfold policies, site_path, site, site_policies in *. rewrite E. destruct rest; [done|].
    destruct (Docs cfg); [done | by right; left..]. }
  intros served id asked.
  assert (id = if negb (validCorrelationID asked) then newCorrelationID (draws r) else asked) as Eid
    by (unfold id, id_of; fold asked; by destruct (validCorrelationID _)).
  assert (traced_served id s served) as [[T1 T2 T3] Tl].
  { unfold served, newServer, correlationMiddleware, securityHeadersMiddleware. fold asked. rewrite <- Eid.
    apply (Ht (with_correlation r id)); [done|]. unfold setStrictSecurityHeaders.
    constructor; [|done | constructor]. split; [repeat constructor; by vm_compute|].
    exists strictContentSecurityPolicy. split; [by left | by vm_compute]. }
  assert (marked id (response (served_writer served)).2) as [Hm Hc].
  { clearbody served. unfold response. destruct (sent (served_writer served)) as [[st hs]|] eqn:E; [by apply (T2 st) | done]. }
  split_and!; [done | exact Hc | done | done|]. rewrite Eid, <- validCorrelationID_spec.
  destruct (validCorrelationID asked); [by left | by right].
Qed.

(** ** Witness *)

#[local] Instance sample_float : FloatConversion := fun z => z.
#[local] Instance sample_runtime : Runtime := {|
  BindStyledParameter := fun _ value => Ok value;
  BindQueryString := fun _ _ => inl None;
  BindQueryInt := fun _ _ => inl None;
|}.
#[local] Existing Instance sample_unicode.
#[local] Existing Instance sample_errors.

(** The API with public documentation and no limits, over nothing. *)
Definition traced_config : Config :=
  mkConfig DocsPublic [] (mkRateLimitConfig false (mkPolicy 1 1) 1 (mkPolicy 1 1) 1 (mkPolicy 1 1) (mkPolicy 1 1) 1 0).
Definition traced_api : APIHandler unit := mkAPIHandler (Health.New "api" "dev" ∅) None None None None.
Definition blank_page : Handler' (Server unit) := fun r w s => done_with w s.

Lemma blank_page_traced (site : Site) : traced blank_page.
Proof. intros r w s _ Hw. by apply traced_same. Qed.

(** An order without a key, whose correlation id is not one token. *)
Definition traced_request : Request :=
  mkRequest "POST" ["v1"; "orders"] "" {["X-Correlation-Id" := ["two words"]]} "203.0.113.10:4711" None "" None []
    (mkDraws (Ok [1; 2]) 0 0 0).

Lemma every_response_is_traced_witness : exists handler s0,
  NewWithRateLimits traced_config (strict_interface traced_api) (Some (fun _ => false)) None false blank_page None "" tt
    = Ok (handler, s0) /\
  let served := handler traced_request (mkWriter ∅ None []) s0 in
  id_of traced_request = newCorrelationID (draws traced_request) /\
  Forall (fun kv => (response (served_writer served)).2 !! CanonicalHeaderKey kv.1 = Some [kv.2])
    (required (id_of traced_request)) /\
  (response (served_writer served)).2 !! headerContentSecurity = Some [strictContentSecurityPolicy] /\
  exists new, log (served_state served) = log s0 ++ new /\ Forall (fun e => entry_id e = id_of traced_request) new.
Proof.
  destruct (NewWithRateLimits traced_config (strict_interface traced_api) (Some (fun _ => false)) None false blank_page
    None "" tt) as [[handler s0]|err] eqn:E; [|discriminate E].
  exists handler, s0. split; [reflexivity|].
  destruct (every_response_is_traced traced_config traced_api (fun _ => false) None false blank_page None "" tt
    handler s0 traced_request s0 E blank_page_traced) as (H1 & (policy & Hin & Hpol) & _ & H3 & _).
  split; [vm_compute; reflexivity|]. split; [exact H1|]. split; [|exact H3].
  apply elem_of_cons in Hin as [->|Hin]; [exact Hpol | by apply not_elem_of_nil in Hin].
Defined.
