(* ===== verification/Gate.v ===== *)
(** * The gate before the routes

    What one request spends from the limiters of [Http] before anything of it
    is parsed, and what a refusal answers. *)

From S2P Require Import Prelude GoLib JsonText Netip Wire Openapi Ratelimit ClientIP Http.
Import Openapi.

(** Every limiter of the server is well-formed. *)
Record limiters_wf (l : rateLimiters) : Prop := {
  wf_client : limiter_wf (limiter_client l);
  wf_credential : limiter_wf (limiter_credential l);
  wf_webhook : limiter_wf (limiter_webhook l);
  wf_health : limiter_wf (limiter_health l)
}.

(** The limits a deployment may set: bursts and token times a [float64]
    represents exactly. *)
Definition exact_policy (p : Policy) : Prop := Policy_Burst p <= 2 ^ 53 /\ tokenInterval p <= 2 ^ 53.
Definition exact_limits (cfg : RateLimitConfig) : Prop :=
  exact_policy (RL_Client cfg) /\ exact_policy (RL_Credential cfg) /\ exact_policy (RL_Webhook cfg) /\ exact_policy (RL_Health cfg).

Lemma newRateLimiters_wf cfg f observer l : newRateLimiters cfg f observer = Ok (Some l) -> exact_limits cfg -> limiters_wf l.
Proof.
  unfold newRateLimiters. intros HN ((? & ?) & (? & ?) & (? & ?) & (? & ?)).
  destruct (negb (RL_Enabled cfg)); [done|]. destruct f as [f|]; [|done]. cbv zeta in HN.
  destruct (Ratelimit.New (RL_Client cfg) _ _) as [c|] eqn:E1; [|done]. cbn [res_bind] in HN.
  destruct (Ratelimit.New (RL_Credential cfg) _ _) as [cr|] eqn:E2; [|done]. cbn [res_bind] in HN.
  destruct (Ratelimit.New (RL_Webhook cfg) _ _) as [wh|] eqn:E3; [|done]. cbn [res_bind] in HN.
  destruct (Ratelimit.New (RL_Health cfg) _ _) as [he|] eqn:E4; [|done]. cbn [res_bind] in HN.
  injection HN as <-. constructor; cbn [limiter_client limiter_credential limiter_webhook limiter_health];
    by eapply New_wf.
Qed.

Section Gate.
Context {W : Type} `{FloatConversion}.

(** A call on a well-formed limiter: it returns, keeps the limiter well-formed,
    and a refusal is honest. *)
Record spent (l : Limiter) (now : Time) (key : string) (d : Decision) (l' : Limiter) : Prop := {
  spent_allow : Allow l now key = Some (d, l');
  spent_wf : limiter_wf l';
  spent_policy : policy l' = policy l;
  spent_honest : honest (policy l) d
}.

Lemma spend_spent l now key : limiter_wf l -> exists d l', spend l now key = (d, l') /\ spent l now key d l'.
Proof.
  intros Hl. destruct (calls_spec [(now, key)] l Hl) as (ds & l' & E & Hw & (Hp & _) & _ & Hd). cbn [calls] in E.
  unfold spend. destruct (Allow l now key) as [[d l1]|] eqn:Ea; [|done]. injection E as <- <-.
  apply Forall_cons in Hd as [Hd _]. by exists d, l1.
Qed.

(** The bucket a request pays from, and that nothing else is touched. *)
Inductive charged (l l' : rateLimiters) (r : Request) (d : Decision) : Prop :=
| ChargedWebhook (Hclass : Path r = webhookPath)
    (Hs : spent (limiter_webhook l) (gate_time (draws r)) globalWebhookKey d (limiter_webhook l'))
    (Hc : limiter_client l' = limiter_client l) (Hr : limiter_credential l' = limiter_credential l)
    (Hh : limiter_health l' = limiter_health l)
| ChargedHealth a (Hclass : Path r = healthPath) (Ha : address r = Some a)
    (Hs : spent (limiter_health l) (gate_time (draws r)) (Prefix_String (ClientBucket a)) d (limiter_health l'))
    (Hc : limiter_client l' = limiter_client l) (Hr : limiter_credential l' = limiter_credential l)
    (Hw : limiter_webhook l' = limiter_webhook l)
| ChargedClient a (Hclass : Path r <> webhookPath /\ Path r <> healthPath) (Ha : address r = Some a)
    (Hs : spent (limiter_client l) (gate_time (draws r)) (Prefix_String (ClientBucket a)) d (limiter_client l'))
    (Hh : limiter_health l' = limiter_health l) (Hr : limiter_credential l' = limiter_credential l)
    (Hw : limiter_webhook l' = limiter_webhook l).

Lemma charged_wf l l' r d : limiters_wf l -> charged l l' r d -> limiters_wf l'.
Proof.
  intros [H1 H2 H3 H4] [Hc Hs E1 E2 E3|a Hc Ha Hs E1 E2 E3|a Hc Ha Hs E1 E2 E3];
    constructor; rewrite ?E1, ?E2, ?E3; try done; apply Hs.
Qed.

Lemma coarse_webhook path : coarseRouteClass path =s? RouteClassWebhook = (path =s? webhookPath).
Proof.
  unfold coarseRouteClass. destruct (String.eqb_spec path healthPath) as [->|]; [done|].
  destruct (String.eqb_spec path webhookPath); [done|]. by destruct (_ || _).
Qed.

Lemma coarse_health path : coarseRouteClass path =s? RouteClassHealth = (path =s? healthPath).
Proof.
  unfold coarseRouteClass. destruct (String.eqb_spec path healthPath) as [->|]; [done|].
  destruct (path =s? webhookPath); [done|]. by destruct (_ || _).
Qed.

(** What the gate did with a request. *)
Inductive gated (next : Handler' (Server W)) (r : Request) (w : ResponseWriter) (s : Server W) (l : rateLimiters)
    : Served' (Server W) -> Prop :=
| Passed l' d told (Hc : charged l l' r d) (Ha : Allowed d = true) :
    gated next r w s l (next r w (with_limiters s l' told))
| Refused l' d told n (Hc : charged l l' r d) (Ha : Allowed d = false) (Hn : 1 <= n) (Hr : RetryAfter d = n * Second) :
    gated next r w s l (done_with (writeError (set_header w retryAfterHeader (pretty n)) r 429 codeRateLimited "too many requests")
      (with_limiters s l' told)).

Lemma refuse_or_gated next r w s l l' d told p : charged l l' r d -> honest p d ->
  gated next r w s l (refuse_or next r w s (d, l', told)).
Proof.
  intros Hc Hd. unfold refuse_or. destruct (Allowed d) eqn:E; cbn [negb]; [by eapply Passed|].
  destruct (Hd E) as [(n & Hn & Er) _]. unfold writeRateLimited. rewrite Er.
  replace (n * Second <=? 0) with false by (symmetry; apply Z.leb_gt; unfold Second, Millisecond; lia).
  rewrite Z.quot_mul by done. by eapply Refused.
Qed.

Lemma gate_spec next r w s l : limiters s = Some l -> limiters_wf l ->
  (Path r = webhookPath \/ exists a, address r = Some a /\ IsValid a = true) ->
  gated next r w s l (clientRateLimitMiddleware next r w s).
Proof.
  intros El Hl Ha. unfold clientRateLimitMiddleware. rewrite El, coarse_webhook.
  destruct (String.eqb_spec (Path r) webhookPath) as [Ew|Ew].
  - unfold allowWebhook. destruct (spend_spent (limiter_webhook l) (gate_time (draws r)) globalWebhookKey) as (d & l' & -> & Hs);
      [apply Hl|]. eapply refuse_or_gated; [by apply ChargedWebhook | apply Hs].
  - destruct Ha as [|(a & Ea & Hv)]; [done|]. rewrite Ea, Hv. unfold allowClient. rewrite coarse_health.
    destruct (String.eqb_spec (Path r) healthPath) as [Eh|Eh].
    + destruct (spend_spent (limiter_health l) (gate_time (draws r)) (Prefix_String (ClientBucket a))) as (d & l' & -> & Hs);
        [apply Hl|]. eapply refuse_or_gated; [by eapply ChargedHealth | apply Hs].
    + destruct (spend_spent (limiter_client l) (gate_time (draws r)) (Prefix_String (ClientBucket a))) as (d & l' & -> & Hs);
        [apply Hl|]. eapply refuse_or_gated; [by eapply ChargedClient | apply Hs].
Qed.
End Gate.

(** The headers of an error keep what was set before, unless they replace it. *)
Lemma writeError_keeps w r status code message key v : sent w = None ->
  Forall (fun k => CanonicalHeaderKey k <> CanonicalHeaderKey key)
    [headerContentTypeOptions; headerReferrerPolicy; headerCacheControl; headerContentSecurity; headerFrameOptions; "Content-Type"] ->
  header w !! CanonicalHeaderKey key = Some v ->
  exists hs, sent (writeError w r status code message) = Some (status, hs) /\ hs !! CanonicalHeaderKey key = Some v.
Proof.
  intros Hw Hk Hv. unfold writeError, setStrictSecurityHeaders. eexists. split; [by eapply sent_Write, sent_WriteHeader|].
  repeat (apply Forall_cons in Hk as [? Hk]). unfold set_header, Set_. cbn [header].
  by rewrite !lookup_insert_ne by done.
Qed.

(** ** Properties *)

(** On well-formed limiters, as the server builds them, a request with a
    client address, or to the provider's endpoint, pays from exactly one bucket
    before it is routed: the provider's single one, the probe's or the
    client's, by address. When the bucket pays, the request goes on with
    nothing else changed; when it does not, it is answered 429 with the whole
    number of seconds to wait, at least one, in Retry-After, and no route runs.
    The limiters stay well-formed. *)
Theorem gate_charges_one_bucket {W : Type} `{FloatConversion} (next : Handler' (Server W)) r s l :
  limiters s = Some l -> limiters_wf l -> Path r = webhookPath \/ (exists a, address r = Some a /\ IsValid a = true) ->
  let served := clientRateLimitMiddleware next r (mkWriter ∅ None []) s in
  exists l' d told, charged l l' r d /\ limiters_wf l' /\
    (Allowed d = true -> served = next r (mkWriter ∅ None []) (with_limiters s l' told)) /\
    (Allowed d = false -> served_state served = with_limiters s l' told /\ served_panic served = None /\
       exists n hs, 1 <= n /\ RetryAfter d = n * Second /\ sent (served_writer served) = Some (429, hs) /\
         hs !! CanonicalHeaderKey retryAfterHeader = Some [pretty n]).
Proof.
  intros El Hl Ha. pose proof (gate_spec next r (mkWriter ∅ None []) s l El Hl Ha) as Hg. intros served. fold served in Hg.
  destruct Hg as [l' d told Hc Hd|l' d told n Hc Hd Hn Hr]; exists l', d, told;
    (split_and!; [done | by eapply charged_wf | |]); rewrite Hd; try done.
  intros _. split_and!; [done | done|].
  destruct (writeError_keeps (set_header (mkWriter ∅ None []) retryAfterHeader (pretty n)) r 429 codeRateLimited
    "too many requests" retryAfterHeader [pretty n]) as (hs & Es & Eh); [done | | |].
  - repeat constructor; by vm_compute.
  - unfold set_header, Set_. cbn [header]. by rewrite lookup_insert_eq.
  - by exists n, hs.
Qed.

(** ** Witness *)

#[local] Instance sample_float : FloatConversion := fun z => z.

Definition sample_limits : RateLimitConfig :=
  mkRateLimitConfig true (mkPolicy 1200 Minute) 10000 (mkPolicy 600 Minute) 64 (mkPolicy 600 Minute) (mkPolicy 1 Minute) 10
    (10 * Minute).

Definition sample_probe : Request :=
  mkRequest "GET" ["health"] "" ∅ "203.0.113.10:4711" None "" (Some (V4 3405803786)) [] (mkDraws (Ok []) 0 5 5).

Definition sample_next : Handler' (Server unit) := fun r w s => done_with (WriteHeader w 200) s.

Definition sample_limiters : option rateLimiters :=
  match newRateLimiters sample_limits (Some (fun _ => ("", false))) true with Ok l => l | Err _ => None end.

Lemma sample_limiters_wf l : sample_limiters = Some l -> limiters_wf l.
Proof.
  unfold sample_limiters. destruct (newRateLimiters _ _ _) as [o|] eqn:E; [|done]. intros ->.
  eapply newRateLimiters_wf; [exact E | repeat split; by vm_compute].
Qed.

Lemma gate_charges_one_bucket_witness : exists l l' d told,
  sample_limiters = Some l /\ charged l l' sample_probe d /\ limiters_wf l' /\
  (Allowed d = true -> clientRateLimitMiddleware sample_next sample_probe (mkWriter ∅ None []) (mkServer tt (Some l) [] []) =
     sample_next sample_probe (mkWriter ∅ None []) (with_limiters (mkServer tt (Some l) [] []) l' told)).
Proof.
  destruct sample_limiters as [l|] eqn:E; [|vm_compute in E; discriminate].
  destruct (gate_charges_one_bucket sample_next sample_probe (mkServer tt (Some l) [] []) l eq_refl
    (sample_limiters_wf l E) (or_intror (ex_intro _ (V4 3405803786) (conj eq_refl eq_refl))))
    as (l' & d & told & Hc & Hw & Ha & _).
  exists l, l', d, told. split; [reflexivity|]. split; [exact Hc|]. split; [exact Hw | exact Ha].
Defined.
