(* ===== verification/CheckoutRepo.v ===== *)
(** * The checkout repositories: [repositories/orders.go], [repositories/payments.go]

    Orders, payments and attempts over GORM. [PrepareCheckout] reserves an
    attempt in one transaction while other sessions race it. *)

From S2P Require Import Prelude GoLib Orders OrderApp Payments Store Queries Gorm CheckoutApp.

Section Repositories.
Context `{Gorm}.

(** ** [orders.go] *)

Definition OrderRepository_CreateOrGet (order : Order) : M World (Order * bool) :=
  let! affected := gwrap (wrapf "insert order") (run (Create_Order (OrderFromDomain order))) in
  if affected =? 1 then gret (order, true)
  else
    let! existing := gwrap (wrapf "find order idempotency replay")
      (run (First_Order (fun r => OrderRow_IdempotencyKey r =s? Order_IdempotencyKey order))) in
    gret (Order_ToDomain existing, false).

Definition OrderRepository_Get (id : string) : M World Order :=
  gwrap (fun err => if Is err ErrRecordNotFound then ErrOrderNotFound else wrapf "select order" err)
    (let! row := run (First_Order (fun r => OrderRow_ID r =s? id)) in gret (Order_ToDomain row)).

#[export] Instance OrderRepository : OrderApp.Repository World := {
  CreateOrGet := OrderRepository_CreateOrGet;
  Repository_Get := OrderRepository_Get;
}.

(** ** [payments.go] *)

Definition createOrGetActivePayment (payment : Payment) : M World Payment :=
  let! affected := gwrap (wrapf "insert payment") (run (Create_Payment (PaymentFromDomain payment))) in
  if affected =? 1 then gret payment
  else
    let! existing := gwrap (wrapf "find active payment")
      (run (First_Payment (fun r => (PaymentRow_OrderID r =s? Payment_OrderID payment) &&
                                    negb (one_of ["failed"; "cancelled"] (PaymentRow_Status r))))) in
    gret (Payment_ToDomain existing).

Definition findPayment (id : string) : M World Payment :=
  let! row := gwrap (wrapf "find payment") (run (First_Payment (fun r => PaymentRow_ID r =s? id))) in
  gret (Payment_ToDomain row).

(** No row is not an error here. *)
Definition found_attempt (row : res AttemptRow) : res (option Attempt) :=
  match row with
  | Ok row => Ok (Some (PaymentAttempt_ToDomain row))
  | Err err => if Is err ErrRecordNotFound then Ok None else Err (wrapf "find payment attempt" err)
  end.

Definition findAttemptByKey (key : string) : M World (option Attempt) := fun w =>
  let '(row, w) := run (First_Attempt (fun r => AttemptRow_IdempotencyKey r =s? key)) w in (found_attempt row, w).

(** The attempt that owns the key already, when it belongs to this order. *)
Definition existing_checkout (payment : Payment) (existingAttempt : Attempt) : M World (Payment * Attempt) :=
  let! existingPayment := findPayment (Attempt_PaymentID existingAttempt) in
  if Payment_OrderID existingPayment <>s? Payment_OrderID payment
  then gfail ErrIdempotencyKeyConflict
  else gret (existingPayment, existingAttempt).

Definition prepareCheckout (payment : Payment) (attempt : Attempt) : M World (Payment * Attempt) :=
  let! found := findAttemptByKey (Attempt_IdempotencyKey attempt) in
  match found with
  | Some existingAttempt => existing_checkout payment existingAttempt
  | None =>
      let! preparedPayment := createOrGetActivePayment payment in
      let row := PaymentAttemptFromDomain attempt in
      let row := mkAttemptRow (AttemptRow_ID row) (Payment_ID preparedPayment) (AttemptRow_Provider row)
        (AttemptRow_Status row) (AttemptRow_IdempotencyKey row) (AttemptRow_ProviderSessionID row)
        (AttemptRow_ProviderPaymentIntentID row) (AttemptRow_CheckoutURL row) (AttemptRow_ExpiresAt row)
        (AttemptRow_FailureCode row) (AttemptRow_FailureMessage row) (AttemptRow_CreatedAt row) (AttemptRow_UpdatedAt row) in
      let! affected := gwrap (wrapf "insert payment attempt") (run (Create_Attempt row)) in
      if affected =? 1 then gret (preparedPayment, PaymentAttempt_ToDomain row)
      else
        let! found := findAttemptByKey (Attempt_IdempotencyKey attempt) in
        match found with
        | Some existingAttempt => existing_checkout payment existingAttempt
        | None => gfail ErrCheckoutInProgress
        end
  end.

Definition PaymentRepository_PrepareCheckout (payment : Payment) (attempt : Attempt) : M World (Payment * Attempt) :=
  Transaction (prepareCheckout payment attempt).

Definition nullableString (value : string) : option string := if value =s? "" then None else Some value.

(** The [Updates] map on a row. *)
Definition session_saved (a : Attempt) (r : AttemptRow) : AttemptRow :=
  mkAttemptRow (AttemptRow_ID r) (AttemptRow_PaymentID r) (AttemptRow_Provider r) (Attempt_Status a)
    (AttemptRow_IdempotencyKey r) (Some (Attempt_ProviderSessionID a)) (nullableString (Attempt_ProviderPaymentIntentID a))
    (Some (Attempt_CheckoutURL a)) (Some (UTC (Attempt_ExpiresAt a))) (AttemptRow_FailureCode r)
    (AttemptRow_FailureMessage r) (AttemptRow_CreatedAt r) (UTC (Attempt_UpdatedAt a)).

Definition PaymentRepository_SaveSession (attempt : Attempt) : M World unit :=
  let! affected := gwrap (wrapf "update payment attempt session")
    (run (Updates_Attempt
      (fun r => (AttemptRow_ID r =s? Attempt_ID attempt) && (AttemptRow_Status r =s? AttemptStatusCreated))
      (session_saved attempt))) in
  if affected =? 1 then gret tt
  else
    let! existing := gwrap (wrapf "find updated payment attempt")
      (run (First_Attempt (fun r => AttemptRow_ID r =s? Attempt_ID attempt))) in
    match AttemptRow_ProviderSessionID existing with
    | Some session => if session =s? Attempt_ProviderSessionID attempt then gret tt
                      else gfail (ErrNew "payment attempt session changed concurrently")
    | None => gfail (ErrNew "payment attempt session changed concurrently")
    end.

#[export] Instance PaymentRepository : CheckoutApp.Repository World := {
  PrepareCheckout := PaymentRepository_PrepareCheckout;
  SaveSession := PaymentRepository_SaveSession;
}.
End Repositories.
