(* ===== verification/Checkout.v ===== *)
(** * Orders and checkouts over the store

    The theorems about the two idempotent use cases running on the PostgreSQL
    repositories, under every fault schedule and while other sessions commit
    between two statements. *)

From S2P Require Import Prelude GoLib Orders OrderApp Payments Store Queries Gorm CheckoutApp CheckoutRepo Samples.

Section Repositories.
Context `{Gorm} `{!GormDocumented}.

(** ** Statements *)

Lemma stable_true : stable (fun _ => True).
Proof. by intros d d'. Qed.

Lemma stable_and P Q : stable P -> stable Q -> stable (fun d => P d /\ Q d).
Proof. intros HP HQ d d' Hs He [? ?]. split; [by eapply HP | by eapply HQ]. Qed.

Lemma triple_First_Order P p :
  stable P -> triple P (run (First_Order p)) (fun r d => P d /\ p r = true /\ orders d !! OrderRow_ID r = Some r).
Proof.
  intros HP. apply triple_run; [|done|].
  - eapply grows_ext; [intros d; apply First_Order_sql | apply grows_first].
  - intros d r d' [Hs _ _ _ _ _] Hp. rewrite First_Order_sql. intros (-> & Hr & i & Hi)%sql_first_Ok.
    split_and!; [done..|]. by rewrite (orders_keyed _ Hs _ _ Hi).
Qed.

Lemma triple_First_Payment P p :
  stable P -> triple P (run (First_Payment p)) (fun r d => P d /\ p r = true /\ payments d !! PaymentRow_ID r = Some r).
Proof.
  intros HP. apply triple_run; [|done|].
  - eapply grows_ext; [intros d; apply First_Payment_sql | apply grows_first].
  - intros d r d' [Hs _ _ _ _ _] Hp. rewrite First_Payment_sql. intros (-> & Hr & i & Hi)%sql_first_Ok.
    split_and!; [done..|]. by rewrite (payments_keyed _ Hs _ _ Hi).
Qed.

Lemma grows_First_Attempt p : grows (First_Attempt p).
Proof. eapply grows_ext; [intros d; apply First_Attempt_sql | apply grows_first]. Qed.

Lemma First_Attempt_Ok p d r d' :
  schema d -> First_Attempt p d = Ok (r, d') -> d' = d /\ p r = true /\ payment_attempts d !! AttemptRow_ID r = Some r.
Proof.
  intros Hs. rewrite First_Attempt_sql. intros (-> & Hr & i & Hi)%sql_first_Ok.
  split_and!; [done..|]. by rewrite (attempts_keyed _ Hs _ _ Hi).
Qed.

Lemma triple_First_Attempt P p :
  stable P ->
  triple P (run (First_Attempt p)) (fun r d => P d /\ p r = true /\ payment_attempts d !! AttemptRow_ID r = Some r).
Proof.
  intros HP. apply triple_run; [apply grows_First_Attempt|done|].
  intros d r d' [Hs _] Hp E. by apply First_Attempt_Ok in E as (-> & ? & ?).
Qed.

(** ** [CreateOrGet] *)

(** The status an order is answered with is the one of its row. *)
Definition shown (o : Order) (d : DB) : Prop :=
  exists r, orders d !! Order_ID o = Some r /\ OrderRow_Status r = Order_Status o.

(** The order is in the database, as it was priced. *)
Definition persisted (o : Order) (d : DB) : Prop :=
  exists r, orders d !! Order_ID o = Some r /\ OrderRow_Amount r = Order_Amount o /\
    OrderRow_Currency r = Order_Currency o /\ OrderRow_ProductID r = Order_ProductID o /\
    OrderRow_Quantity r = Order_Quantity o /\ OrderRow_IdempotencyKey r = Order_IdempotencyKey o.

Lemma stable_persisted o : stable (persisted o).
Proof.
  intros d d' Hs He (r & Hr & ? & ? & ? & ? & ?). destruct (extends_orders _ _ He _ _ Hr) as (r' & Hr' & ? & ? & ? & ? & ?).
  exists r'. split_and!; congruence.
Qed.

Lemma persisted_row r d : orders d !! OrderRow_ID r = Some r -> persisted (Order_ToDomain r) d.
Proof. intros Hr. exists r. done. Qed.

Lemma well_priced_row o : well_priced o -> priced (OrderFromDomain o).
Proof.
  intros [_ [u Hu] Hq _ _]. unfold priced. simpl. rewrite wrap32_id by (unfold in_int32, MaxInt32, MaxQuantity in *; lia).
  split; [done|]. exists u. lia.
Qed.

Lemma CreateOrGet_triple P o :
  well_priced o -> Order_Status o = "pending" -> stable P ->
  triple P (OrderRepository_CreateOrGet o) (fun '(o', created) d =>
    P d /\ persisted o' d /\ Order_IdempotencyKey o' = Order_IdempotencyKey o /\ (created = true -> o' = o) /\ shown o' d).
Proof.
  intros Ho Hst HP. unfold OrderRepository_CreateOrGet.
  assert (in_int32 (Order_Quantity o)) as Hq
    by (destruct Ho; unfold in_int32, MaxInt32, MaxQuantity in *; lia).
  eapply triple_bind; [apply triple_wrap, (triple_run P _ (fun n d => P d /\ (n = 1 -> persisted o d /\ shown o d)))|].
  - eapply grows_ext; [intros d; apply Create_Order_sql | by apply grows_insert_order; [apply well_priced_row|]].
  - done.
  - intros d n d' Hs Hp. rewrite Create_Order_sql. intros E.
    destruct (grows_insert_order _ (well_priced_row _ Ho) Hst _ _ _ Hs E) as [Hs' He]. split; [by eapply HP|]. intros ->.
    apply with_Ok in E as (t & Hu & ->). apply insert_or_nothing_Ok in Hu as [(_ & _ & ?)|(_ & _ & _ & _ & _ & -> & _)]; [done|].
    split; exists (OrderFromDomain o); simpl; rewrite lookup_insert_eq, ?wrap32_id by done; done.
  - intros n. destruct (Z.eqb_spec n 1) as [->|Hn].
    + apply triple_ret. intros d _ [? Hper]. split_and!; [done|by apply Hper|done|done|by apply Hper].
    + refine (triple_weaken _ P _ _ _ (fun d _ Hx => proj1 Hx) (fun a d _ Hx => Hx) _).
      eapply triple_bind; [apply triple_wrap, (triple_First_Order P _ HP)|].
      intros r. apply triple_ret. intros d _ (HPd & Hk%String.eqb_eq & Hr).
      split_and!; [done|by apply persisted_row|done|done|by exists r].
Qed.

Lemma OrderRepository_Get_triple P id :
  stable P -> triple P (OrderRepository_Get id) (fun o d => P d /\ Order_ID o = id /\ persisted o d /\
    exists r, orders d !! id = Some r /\ o = Order_ToDomain r).
Proof.
  intros HP. unfold OrderRepository_Get. apply triple_wrap.
  eapply triple_bind; [apply (triple_First_Order P _ HP)|].
  intros r. apply triple_ret. intros d _ (HPd & Hk%String.eqb_eq & Hr).
  split_and!; [done|done|by apply persisted_row|]. subst id. eauto.
Qed.

(** ** [PrepareCheckout] *)

(** A payment of an order, as the use case sees it, is in the database. *)
Definition paying (orderID : string) (p : Payment) (d : DB) : Prop :=
  exists r, payments d !! Payment_ID p = Some r /\ PaymentRow_OrderID r = orderID /\ Payment_OrderID p = orderID /\
    PaymentRow_Provider r = Payment_Provider p /\ PaymentRow_Amount r = Payment_Amount p /\
    PaymentRow_Currency r = Payment_Currency p.

(** An attempt of that payment under this key is in the database; once it left
    "created", with the session the use case sees. *)
Definition attempting (key : string) (a : Attempt) (d : DB) : Prop :=
  Attempt_IdempotencyKey a = key /\
  exists r, payment_attempts d !! Attempt_ID a = Some r /\ AttemptRow_IdempotencyKey r = key /\
    AttemptRow_PaymentID r = Attempt_PaymentID a /\
    (Attempt_Status a <> "created" -> AttemptRow_Status r <> "created" /\
       deref (AttemptRow_ProviderSessionID r) = Attempt_ProviderSessionID a /\
       deref (AttemptRow_CheckoutURL r) = Attempt_CheckoutURL a /\
       match AttemptRow_ExpiresAt r with Some t => t | None => 0 end = Attempt_ExpiresAt a) /\
    (settled_attempt (Attempt_Status a) = true -> AttemptRow_Status r = Attempt_Status a).

Lemma stable_paying id p : stable (paying id p).
Proof.
  intros d d' _ He (r & Hr & ? & ? & ? & ? & ?). destruct (extends_payments _ _ He _ _ Hr) as (r' & Hr' & ? & ? & ? & ?).
  exists r'. split_and!; congruence.
Qed.

Lemma stable_attempting k a : stable (attempting k a).
Proof.
  intros d d' _ He (Hk & r & Hr & ? & ? & Hs & Ht). split; [done|].
  destruct (extends_attempts _ _ He _ _ Hr) as (r' & Hr' & ? & ? & ? & Hs' & Ht').
  exists r'. split_and!; try congruence.
  - intros Hc. destruct (Hs Hc) as (Hc' & ? & ? & ?). destruct (Hs' Hc') as (? & E1 & E2 & E3). by rewrite E1, E2, E3.
  - intros Hc. rewrite Ht'; [by apply Ht|]. by rewrite Ht.
Qed.

(** What a reservation promises. *)
Definition reserved (orderID key : string) (p : Payment) (a : Attempt) (d : DB) : Prop :=
  paying orderID p d /\ attempting key a d /\ Attempt_PaymentID a = Payment_ID p.

Lemma stable_reserved o k p a : stable (reserved o k p a).
Proof.
  intros d d' Hs He (Hp & Ha & ?). split_and!; [by eapply stable_paying | by eapply stable_attempting | done].
Qed.

Lemma paying_row r d : payments d !! PaymentRow_ID r = Some r -> paying (PaymentRow_OrderID r) (Payment_ToDomain r) d.
Proof. intros Hr. exists r. done. Qed.

Lemma attempting_row r d :
  payment_attempts d !! AttemptRow_ID r = Some r -> attempting (AttemptRow_IdempotencyKey r) (PaymentAttempt_ToDomain r) d.
Proof. intros Hr. split; [done|]. exists r. by split_and!. Qed.

(** What [P] implies about any attempt under the key. *)
Definition of_key (key : string) (P : DB -> Prop) (F : Attempt -> Prop) : Prop :=
  forall d r, sound d -> P d -> payment_attempts d !! AttemptRow_ID r = Some r -> AttemptRow_IdempotencyKey r = key ->
    F (PaymentAttempt_ToDomain r).

Lemma findAttemptByKey_triple P F key :
  stable P -> of_key key P F -> triple P (findAttemptByKey key) (fun found d =>
    P d /\ match found with Some a => F a /\ attempting key a d | None => True end).
Proof.
  intros HP HF w r w' Hw Hp. unfold findAttemptByKey.
  destruct (run _ w) as [row w1] eqn:E. intros [= <- <-].
  destruct (triple_First_Attempt P _ HP _ _ _ Hw Hp E) as [Hl Hq]. split; [done|].
  intros found Hf. destruct row as [row|err]; simpl in Hf.
  - injection Hf as <-. destruct (Hq row eq_refl) as (HPd & Hk%String.eqb_eq & Hr). split; [done|].
    split; [by eapply HF; [apply (later_wf _ _ Hl)|..]|]. rewrite <- Hk. by apply attempting_row.
  - destruct (Is err ErrRecordNotFound); [|done]. injection Hf as <-. split; [|done].
    by eapply HP; [apply (later_wf _ _ Hl)|apply Hl|].
Qed.

Lemma existing_checkout_triple P payment a :
  stable P ->
  triple (fun d => P d /\ attempting (Attempt_IdempotencyKey a) a d) (existing_checkout payment a)
    (fun '(p', a') d => P d /\ a' = a /\ reserved (Payment_OrderID payment) (Attempt_IdempotencyKey a) p' a d).
Proof.
  intros HP. unfold existing_checkout, findPayment.
  assert (stable (fun d => P d /\ attempting (Attempt_IdempotencyKey a) a d)) as HPa
    by (apply stable_and; [done | apply stable_attempting]).
  eapply (triple_bind _ _ _ (fun p d => (P d /\ attempting (Attempt_IdempotencyKey a) a d) /\
            Payment_ID p = Attempt_PaymentID a /\ paying (Payment_OrderID p) p d)).
  - eapply triple_bind; [apply triple_wrap, (triple_First_Payment _ _ HPa)|].
    intros r. apply triple_ret. intros d _ (Hd & Hk%String.eqb_eq & Hr). split; [done|]. split; [done|]. by apply paying_row.
  - intros p. destruct (String.eqb_spec (Payment_OrderID p) (Payment_OrderID payment)) as [Ho|]; simpl;
      [|apply triple_fail].
    apply triple_ret. intros d _ ((HPd & Ha) & Hid & Hp). rewrite Ho in Hp. done.
Qed.

Lemma createOrGetActivePayment_triple P payment :
  Payment_Status payment = "pending" -> stable P -> triple P (createOrGetActivePayment payment) (fun p d => P d /\ paying (Payment_OrderID payment) p d).
Proof.
  intros Hst HP. unfold createOrGetActivePayment.
  eapply triple_bind;
    [apply triple_wrap, (triple_run P _ (fun n d => P d /\ (n = 1 -> paying (Payment_OrderID payment) payment d)))|].
  - eapply grows_ext; [intros d; apply Create_Payment_sql | by apply grows_insert_payment].
  - done.
  - intros d n d' Hs Hp. rewrite Create_Payment_sql. intros E.
    destruct (grows_insert_payment (PaymentFromDomain payment) Hst _ _ _ Hs E) as [Hs' He]. split; [by eapply HP|]. intros ->.
    apply with_Ok in E as (t & Hu & ->). apply insert_or_nothing_Ok in Hu as [(_ & _ & ?)|(_ & _ & _ & _ & _ & -> & _)]; [done|].
    exists (PaymentFromDomain payment). simpl. by rewrite lookup_insert_eq.
  - intros n. destruct (Z.eqb_spec n 1) as [->|Hn]; [apply triple_ret; intros d _ [? ?]; auto|].
    refine (triple_weaken _ P _ _ _ (fun d _ Hx => proj1 Hx) (fun a d _ Hx => Hx) _).
    eapply triple_bind; [apply triple_wrap, (triple_First_Payment P _ HP)|].
    intros r. apply triple_ret. intros d _ (HPd & [Ho%String.eqb_eq _]%andb_true_iff & Hr). split; [done|].
    rewrite <- Ho. by apply paying_row.
Qed.

Lemma existing_checkout_reserves P (F : Attempt -> Prop) payment key found (e : error) :
  stable P ->
  triple (fun d => P d /\ match found with Some a => F a /\ attempting key a d | None => True end)
    (match found with Some a => existing_checkout payment a | None => gfail e end)
    (fun '(p', a') d => P d /\ F a' /\ reserved (Payment_OrderID payment) key p' a' d).
Proof.
  intros HP. destruct found as [a|]; [|apply triple_fail].
  intros w r w' Hw [Hp [HF Ha]] E. pose proof (proj1 Ha) as Hk. rewrite <- Hk in *.
  destruct (existing_checkout_triple P payment a HP _ _ _ Hw (conj Hp Ha) E) as [Hl Hq]. split; [done|].
  intros [p' a'] Hr. destruct (Hq _ Hr) as (? & -> & ?). done.
Qed.

Lemma prepareCheckout_triple P F payment attempt :
  Payment_Status payment = "pending" -> stable P -> of_key (Attempt_IdempotencyKey attempt) P F ->
  triple P (prepareCheckout payment attempt)
    (fun '(p, a) d => P d /\ F a /\ reserved (Payment_OrderID payment) (Attempt_IdempotencyKey attempt) p a d).
Proof.
  intros Hpp HP HF. unfold prepareCheckout.
  eapply triple_bind; [apply (findAttemptByKey_triple P F _ HP HF)|]. intros [a|].
  { apply (existing_checkout_reserves P F payment (Attempt_IdempotencyKey attempt) (Some a) ErrCheckoutInProgress HP). }
  refine (triple_weaken _ P _ _ _ (fun d _ Hx => proj1 Hx) (fun a d _ Hx => Hx) _).
  eapply triple_bind; [apply (createOrGetActivePayment_triple P _ Hpp HP)|]. intros p. cbv zeta.
  set (row := mkAttemptRow _ _ _ _ _ _ _ _ _ _ _ _ _).
  set (Q := fun d => P d /\ paying (Payment_OrderID payment) p d).
  assert (stable Q) as HQ by (apply stable_and; [done | apply stable_paying]).
  eapply triple_bind; [apply triple_wrap, (triple_run Q _ (fun n d => Q d /\
     (n = 1 -> F (PaymentAttempt_ToDomain row) /\ attempting (Attempt_IdempotencyKey attempt) (PaymentAttempt_ToDomain row) d)))|].
  - eapply grows_ext; [intros d; apply Create_Attempt_sql | apply grows_insert_attempt].
  - done.
  - intros d n d' Hs Hp. rewrite Create_Attempt_sql. intros E.
    destruct (grows_insert_attempt _ _ _ _ Hs E) as [Hs' He].
    assert (Q d') as HQ' by (by eapply HQ). split; [done|]. intros ->.
    enough (payment_attempts d' !! AttemptRow_ID row = Some row) as Hrow
      by (split; [apply (HF d' row Hs' (proj1 HQ') Hrow eq_refl) | by apply (attempting_row row)]).
    apply with_Ok in E as (t & Hu & ->). apply insert_or_nothing_Ok in Hu as [(_ & _ & ?)|(_ & _ & _ & _ & _ & -> & _)]; [done|].
    simpl. by rewrite lookup_insert_eq.
  - intros n. destruct (Z.eqb_spec n 1) as [->|Hn].
    + apply triple_ret. intros d _ [[HPd Hpay] Ha]. destruct (Ha eq_refl). by split_and!.
    + refine (triple_weaken _ P _ _ _ (fun d _ Hx => proj1 (proj1 Hx)) (fun a d _ Hx => Hx) _).
      eapply triple_bind; [apply (findAttemptByKey_triple P F _ HP HF)|]. intros found.
      apply (existing_checkout_reserves P F payment _ found ErrCheckoutInProgress HP).
Qed.

Lemma PrepareCheckout_later P F payment attempt w r w' :
  Payment_Status payment = "pending" -> stable P -> of_key (Attempt_IdempotencyKey attempt) P F -> well_formed w -> idle w.1 -> P (st_db w.1) ->
  PaymentRepository_PrepareCheckout payment attempt w = (r, w') ->
  idle w'.1 /\ later w w' /\ forall p a, r = Ok (p, a) ->
    P (st_db w'.1) /\ F a /\ reserved (Payment_OrderID payment) (Attempt_IdempotencyKey attempt) p a (st_db w'.1).
Proof.
  intros Hpp HP HF Hw Hi Hp. unfold PaymentRepository_PrepareCheckout. rewrite Transaction_sql. intros E.
  destruct (sql_transaction_later _ _ _ _ _ _ (prepareCheckout_triple P F payment attempt Hpp HP HF) Hw Hi Hp E) as (? & ? & Hq).
  split_and!; [done..|]. intros p a ->. by apply (Hq (p, a)).
Qed.

(** ** [SaveSession] *)

(** The attempt carries a session in the database. *)
Definition session_of (id session : string) (d : DB) : Prop :=
  exists r, payment_attempts d !! id = Some r /\ AttemptRow_ProviderSessionID r = Some session.

Lemma grows_update_session a :
  Attempt_Status a = "pending" ->
  grows (sql_update_attempts
    (fun r => (AttemptRow_ID r =s? Attempt_ID a) && (AttemptRow_Status r =s? AttemptStatusCreated)) (session_saved a)).
Proof.
  intros Hst d n d' [Hs Hpr Hss Hsp Hsc Hqu] (t & Hu & ->)%with_Ok. split; [split; simpl; [|done..]|].
  - by eapply schema_update_attempts.
  - apply update_table_Ok in Hu as (-> & _ & _ & _). split; simpl; [eauto 10|eauto 10| |congruence..].
    intros i r Hi. rewrite lookup_fmap, Hi. simpl. eexists. split; [done|].
    destruct (_ && _) eqn:Ec; [|done]. apply andb_true_iff in Ec as [_ Ec%String.eqb_eq].
    split_and!; try done; intros Hne; by rewrite Ec in Hne.
Qed.

Lemma SaveSession_later a w r w' :
  Attempt_Status a = "pending" -> well_formed w -> PaymentRepository_SaveSession a w = (r, w') ->
  later w w' /\ (r = Ok tt -> session_of (Attempt_ID a) (Attempt_ProviderSessionID a) (st_db w'.1)).
Proof.
  intros Hst Hw E.
  assert (triple (fun _ => True) (PaymentRepository_SaveSession a)
    (fun _ d => session_of (Attempt_ID a) (Attempt_ProviderSessionID a) d)) as Ht.
  { unfold PaymentRepository_SaveSession. eapply triple_bind; [apply triple_wrap, (triple_run _ _
      (fun n d => True /\ (n = 1 -> session_of (Attempt_ID a) (Attempt_ProviderSessionID a) d)))|].
    - eapply grows_ext; [intros d; apply Updates_Attempt_sql | by apply grows_update_session].
    - apply stable_true.
    - intros d n d' [Hs _ _ _ _ _] _. rewrite Updates_Attempt_sql. intros (t & Hu & ->)%with_Ok. split; [done|]. intros ->.
      apply (update_one _ AttemptRow_ID) in Hu as (x & Hx & _ & _ & ->); [|apply Hs|done].
      exists (session_saved a x). simpl. by rewrite lookup_alter_eq, Hx.
    - intros n. destruct (Z.eqb_spec n 1) as [->|Hn]; [apply triple_ret; intros d _ [_ ?]; auto|].
      refine (triple_weaken _ (fun _ => True) _ _ _ (fun d _ Hx => proj1 Hx) (fun a d _ Hx => Hx) _).
      eapply triple_bind; [apply triple_wrap, triple_First_Attempt, stable_true|].
      intros x. destruct (AttemptRow_ProviderSessionID x) as [sid|] eqn:Es; [|apply triple_fail].
      destruct (String.eqb_spec sid (Attempt_ProviderSessionID a)) as [->|]; [|apply triple_fail].
      apply triple_ret. intros d _ (_ & Hk%String.eqb_eq & Hx). exists x. by rewrite <- Hk. }
  destruct (Ht _ _ _ Hw I E) as [? Hq]. split; [done|]. by apply Hq.
Qed.
End Repositories.

(** ** The use cases over the store *)

Lemma later_idle w w' : later w w' -> idle w.1 -> idle w'.1.
Proof. intros [_ _ Hv] Hi. unfold idle in *. rewrite Hi in Hv. by destruct (st_saved w'.1). Qed.

(** A catalog that resolves products under their own identifier, as
    [NewStatic] does. *)
Definition honest `{Catalog} : Prop := forall id p, Catalog_Product id = Ok p -> Product_ID p = id.

Lemma Create_later `{Gorm} `{!GormDocumented} `{Catalog} s i w out log w' :
  honest -> well_formed w -> Create s i w = (out, log, w') ->
  later w w' /\ forall o, out = Ok o ->
    persisted o (st_db w'.1) /\ Order_IdempotencyKey o = In_IdempotencyKey i /\
    Order_ProductID o = In_ProductID i /\ Order_Quantity o = In_Quantity i /\ shown o (st_db w'.1).
Proof.
  intros Hh Hw E. apply Create_cases in E as [[-> [err ->]]|(o & answer & (_ & p & id & Hp & _ & Ho) & E & Ha)];
    [split; [by apply later_refl | done]|].
  pose proof (New_well_priced _ _ _ _ _ _ Ho) as Hwp. apply New_Ok in Ho as (_ & _ & _ & _ & _ & Ho).
  assert (Order_Status o = "pending") as Hst by (by rewrite Ho).
  destruct (CreateOrGet_triple (fun _ => True) o Hwp Hst stable_true _ _ _ Hw I E) as [Hl Hq].
  split; [done|]. intros o' ->.
  destruct answer as [[o'' created]|err]; [|done].
  destruct (Hq _ eq_refl) as (_ & Hper & Hk & Hc & Hsh). destruct created; simpl in Ha.
  - injection Ha as ->. pose proof (Hc eq_refl) as ->. split; [done|]. split_and!; [by rewrite Ho | rewrite Ho; simpl; by rewrite (Hh _ _ Hp) | by rewrite Ho | exact Hsh].
  - destruct (_ || _) eqn:Ec; [done|]. injection Ha as ->. go_bool. split; [done|]. split_and!; [by rewrite Hk, Ho | done | done | exact Hsh].
Qed.

(** Two persisted orders with one key are one order. *)
Lemma persisted_key d o1 o2 :
  schema d -> persisted o1 d -> persisted o2 d -> Order_IdempotencyKey o1 = Order_IdempotencyKey o2 ->
  Order_ID o1 = Order_ID o2 /\ Order_Amount o1 = Order_Amount o2 /\ Order_Currency o1 = Order_Currency o2.
Proof.
  intros Hs (r1 & H1 & A1 & C1 & _ & _ & K1) (r2 & H2 & A2 & C2 & _ & _ & K2) Hk.
  assert (Order_ID o1 = Order_ID o2) as E.
  { eapply (orders_key_unique _ Hs); [done|done|unfold orders_idempotency_key_key; done|].
    unfold orders_idempotency_key_key. congruence. }
  rewrite E in H1. split; [done|]. split; congruence.
Qed.

Section Worlds.
Context `{Gorm} `{!GormDocumented} `{UrlParser} {B : Type} (create : ProviderRequest -> M B Session).

(** The three ports on one world: the repositories on the store, the provider
    beside it. *)
Definition beside {A} (m : M World A) : M (World * B) A := fun '(w, b) => let '(r, w) := m w in (r, (w, b)).

#[export] Instance world_orders : OrderReader (World * B) := fun id => beside (Get id).
#[export] Instance world_payments : CheckoutApp.Repository (World * B) := {
  PrepareCheckout p a := beside (PaymentRepository_PrepareCheckout p a);
  SaveSession a := beside (PaymentRepository_SaveSession a);
}.
Definition world_provider : Provider (World * B) := fun request '(w, b) => let '(r, b) := create request b in (r, (w, b)).
#[local] Existing Instance world_provider.

(** What the provider is asked, and what is durable when it is. *)
Record request_reserved (req : ProviderRequest) (key : string) (d : DB) : Prop := {
  req_attempt : exists r, payment_attempts d !! PR_AttemptID req = Some r /\
    AttemptRow_PaymentID r = PR_PaymentID req /\ AttemptRow_IdempotencyKey r = key;
  req_payment : exists r, payments d !! PR_PaymentID req = Some r /\ PaymentRow_OrderID r = PR_OrderID req /\
    PaymentRow_Amount r = PR_UnitAmount req * PR_Quantity req /\ PaymentRow_Currency r = PR_Currency req;
  req_order : exists r, orders d !! PR_OrderID req = Some r /\ OrderRow_Amount r = PR_UnitAmount req * PR_Quantity req /\
    OrderRow_ProductID r = PR_ProductID req /\ OrderRow_Quantity r = PR_Quantity req;
  req_key : PR_IdempotencyKey req = key;
}.

Lemma reserved_request order p a key d :
  sound d -> persisted order d -> reserved (Order_ID order) key p a d ->
  request_reserved (provider_request order p a) key d.
Proof.
  intros [Hs Hpr _ _ _ _] (ro & Hro & Ha & Hc & Hpi & Hq & _) ((rp & Hrp & Hord & _ & _ & _ & _) & (Hk & ra & Hra & Hka & Hpa & _) & Hid).
  destruct (payments_order_fkey _ Hs _ _ Hrp) as (ro' & Hro' & Ham & Hcu).
  assert (ro' = ro) as -> by congruence.
  destruct (Hpr _ _ Hro) as [Hq1 [u Hu]].
  assert (Z.quot (Order_Amount order) (Order_Quantity order) * Order_Quantity order = Order_Amount order) as Hexact.
  { rewrite <- Ha, <- Hq, Hu, Z.quot_mul by lia. done. }
  split; simpl; rewrite ?Hexact.
  - exists ra. split; [done|]. split; congruence.
  - exists rp. split_and!; congruence.
  - exists ro. split_and!; congruence.
  - done.
Qed.

(** The answer's attempt, durable with its session. *)
Definition checkout_durable (orderID key : string) (d : DB) : Prop :=
  exists i a p, payment_attempts d !! i = Some a /\ AttemptRow_IdempotencyKey a = key /\
    AttemptRow_ProviderSessionID a <> None /\
    payments d !! AttemptRow_PaymentID a = Some p /\ PaymentRow_OrderID p = orderID.

Lemma reserved_durable orderID key p a sid d :
  reserved orderID key p a d -> session_of (Attempt_ID a) sid d -> checkout_durable orderID key d.
Proof.
  intros ((rp & Hrp & Hord & _) & (Hk & ra & Hra & Hka & Hpa & _) & Hid) (ra' & Hra' & Hsid).
  assert (ra' = ra) as -> by congruence. exists (Attempt_ID a), ra, rp. split_and!; try done; congruence.
Qed.

Lemma HasSession_of orderID key p a d :
  reserved orderID key p a d -> HasSession a = true -> session_of (Attempt_ID a) (Attempt_ProviderSessionID a) d.
Proof.
  intros (_ & (_ & ra & Hra & _ & _ & Hs & _) & _) Hh. unfold HasSession in Hh.
  apply andb_true_iff in Hh as [[[Hp%String.eqb_eq Hne]%andb_true_iff _]%andb_true_iff _]. go_bool.
  destruct Hs as (_ & Hsid & _); [by rewrite Hp|]. exists ra. split; [done|].
  destruct (AttemptRow_ProviderSessionID ra); simpl in Hsid; congruence.
Qed.

(** From the reservation on. *)
Lemma open_session_later s order p a elapsed w b out log w' b' :
  well_formed w -> reserved (Order_ID order) (Attempt_IdempotencyKey a) p a (st_db w.1) ->
  open_session s order p a elapsed (w, b) = (out, log, (w', b')) ->
  later w w' /\
  ((b' = b /\ HasSession a = true /\ out = Ok (checkoutFromAttempt a)) \/
   (HasSession a = false /\ b' = (create (provider_request order p a) b).2)) /\
  ((exists c, out = Ok c) -> checkout_durable (Order_ID order) (Attempt_IdempotencyKey a) (st_db w'.1)).
Proof.
  intros Hw Hres. unfold open_session. destruct (HasSession a) eqn:Hh.
  { intros [= <- _ <- <-]. split; [by apply later_refl|]. split; [by left|]. intros _.
    eapply reserved_durable; [done|]. by eapply HasSession_of. }
  unfold Provider_CreateCheckout, world_provider. destruct (create _ b) as [[session|err] b1] eqn:Ec.
  2:{ intros [= <- _ <- <-]. split; [by apply later_refl|]. split; [by right|]. by intros [? ?]. }
  destruct (AttachSession a session (Service_later s)) as [a'|err] eqn:Ea.
  2:{ intros [= <- _ <- <-]. split; [by apply later_refl|]. split; [by right|]. by intros [? ?]. }
  assert (Attempt_ID a' = Attempt_ID a /\ Attempt_Status a' = "pending") as [Hid Hst].
  { unfold AttachSession in Ea. case_match; [done|]. by injection Ea as <-. }
  unfold SaveSession, world_payments, beside. destruct (PaymentRepository_SaveSession a' w) as [r w1] eqn:Es.
  destruct (SaveSession_later _ _ _ _ Hst Hw Es) as [Hl Hq]. destruct r as [[]|err]; intros [= <- _ <- <-].
  - split; [done|]. split; [by right|]. intros _.
    eapply reserved_durable; [eapply stable_reserved; [apply (later_wf _ _ Hl)|apply Hl|done]|]. rewrite <- Hid. by apply Hq.
  - split; [done|]. split; [by right|]. by intros [? ?].
Qed.

(** A whole call: refused, or a reservation followed by at most one request. *)
Lemma CreateCheckout_cases P F s input elapsed (w : World) b out log (w' : World) b' :
  stable P -> of_key (CI_IdempotencyKey input) P F -> P (st_db w.1) ->
  well_formed w -> idle w.1 -> CreateCheckout s input elapsed (w, b) = (out, log, (w', b')) ->
  later w w' /\
  ((b' = b /\ exists err, out = Err err) \/
   exists order p a w1, later w w1 /\ later w1 w' /\ idle w1.1 /\ persisted order (st_db w1.1) /\
     Order_ID order = CI_OrderID input /\
     reserved (Order_ID order) (CI_IdempotencyKey input) p a (st_db w1.1) /\ F a /\
     ((b' = b /\ HasSession a = true /\ out = Ok (checkoutFromAttempt a)) \/
      (HasSession a = false /\ b' = (create (provider_request order p a) b).2)) /\
     ((exists c, out = Ok c) -> checkout_durable (CI_OrderID input) (CI_IdempotencyKey input) (st_db w'.1))).
Proof.
  intros HP HF Hp Hw Hi. unfold CreateCheckout.
  destruct (ValidateID _) as [[]|] eqn:Ev; [|intros [= <- _ <- <-]; split; [by apply later_refl|]; by eauto].
  destruct (ValidateIdempotencyKey _) as [[]|] eqn:Evk; [|intros [= <- _ <- <-]; split; [by apply later_refl|]; by eauto].
  unfold Reader_Get, world_orders, beside. unfold Get at 1. rewrite Ev.
  unfold gwrap. unfold Repository_Get, OrderRepository. destruct (OrderRepository_Get (CI_OrderID input) w) as [ro w1] eqn:Eg.
  destruct (OrderRepository_Get_triple P _ HP _ _ _ Hw Hp Eg) as [Hl1 Hq1].
  destruct ro as [order|err]; simpl; [|intros [= <- _ <- <-]; by eauto].
  destruct (Hq1 _ eq_refl) as (Hp1 & Hid & Hper & _).
  destruct (Order_Status order <>s? _); [intros [= <- _ <- <-]; by eauto|].
  destruct (Service_newPaymentID s) as [pid|]; simpl; [|intros [= <- _ <- <-]; by eauto].
  destruct (Service_newAttemptID s) as [aid|]; simpl; [|intros [= <- _ <- <-]; by eauto].
  destruct (Payments.New _ _ _ _ _) as [[p a]|] eqn:En; simpl; [|intros [= <- _ <- <-]; by eauto].
  assert (Payment_OrderID p = CI_OrderID input /\ Attempt_IdempotencyKey a = CI_IdempotencyKey input /\
    Payment_Status p = "pending") as (Hpo & Hak & Hps).
  { unfold Payments.New in En. repeat (case_match; [done|]). by injection En as <- <-. }
  destruct (PaymentRepository_PrepareCheckout p a w1) as [rp w2] eqn:Ep. rewrite <- Hak in HF |- *.
  assert (of_key (Attempt_IdempotencyKey a) (fun d => P d /\ persisted order d) F) as HF'
    by (intros d r Hs [Hd _]; by apply HF).
  destruct (PrepareCheckout_later _ F p a w1 rp w2 Hps (stable_and _ _ HP (stable_persisted order)) HF'
    (later_wf _ _ Hl1) (later_idle _ _ Hl1 Hi) (conj Hp1 Hper) Ep) as (Hi2 & Hl2 & Hq2).
  pose proof (later_trans _ _ _ Hl1 Hl2) as Hl12.
  destruct rp as [[p2 a2]|err]; [|intros [= <- _ <- <-]; by eauto].
  destruct (Hq2 _ _ eq_refl) as ([Hp2 Hper2] & HFa & Hres). rewrite Hpo, <- Hid in Hres.
  assert (Attempt_IdempotencyKey a2 = Attempt_IdempotencyKey a) as Hk2 by apply Hres.
  destruct (open_session s order p2 a2 elapsed (w2, b)) as [[out3 log3] [w3 b3]] eqn:Eo. intros [= <- _ <- <-].
  rewrite <- Hk2 in *. rewrite <- Hid.
  destruct (open_session_later _ _ _ _ _ _ _ _ _ _ _ (later_wf _ _ Hl2) Hres Eo) as (Hl3 & Hb & Hd).
  split; [by eapply later_trans|]. right. by exists order, p2, a2, w2.
Qed.
End Worlds.

(** ** Sample worlds *)

Definition demo_catalog : Catalog := fun id =>
  match Demo with Ok s => Static_Product s id | Err err => Err err end.

Lemma demo_honest : @honest demo_catalog.
Proof.
  intros id p Hp. unfold Catalog_Product, demo_catalog in Hp. destruct Demo as [s|err] eqn:Ed; [|done].
  by destruct (NewStatic_spec _ _ _ _ Ed Hp).
Qed.

Definition demo_order : OrderRow :=
  mkOrderRow "ord_00000000000000000000000000000001" "pending" 30000 "BRL" "product_demo" 3 "k1" 1 1.
Definition checkout_db : DB := mkDB {["ord_00000000000000000000000000000001" := demo_order]} ∅ ∅ ∅ ∅ 10.

Lemma checkout_sound : sound checkout_db.
Proof.
  split.
  - split; simpl; try apply sample_unique; try (intros i r; by rewrite lookup_empty);
      try (by intros i j r s k; rewrite lookup_empty);
      intros i r [<- <-]%lookup_singleton_Some; try done; try (vm_compute; reflexivity).
  - simpl. intros i r [<- <-]%lookup_singleton_Some. split; [done|]. by exists 10000.
  - simpl. intros i r [<- <-]%lookup_singleton_Some. by left.
  - simpl. by intros i r [<- <-]%lookup_singleton_Some.
  - intros i r. simpl. by rewrite lookup_empty.
  - intros i r. simpl. by rewrite lookup_empty.
Qed.

(** Another session inserts a payment for the order before the second statement
    of the reservation. *)
Definition rival : PaymentRow :=
  mkPaymentRow "pay_rival" "ord_00000000000000000000000000000001" "stripe" "pending" 30000 "BRL" 5 5.
Definition calm : Race := fun d => d.
Definition raced_world : World :=
  (mkStore checkout_db None [], [calm; calm; race_of (sql_insert_payment rival)]).

Lemma well_formed_store races : Forall lawful races -> well_formed (mkStore checkout_db None [], races).
Proof. intros Hr. split; [apply checkout_sound | done | done]. Qed.

Lemma calm_lawful : lawful calm.
Proof. intros d Hd. by split. Qed.

Lemma raced_well_formed : well_formed raced_world.
Proof.
  apply well_formed_store. apply Forall_cons. split; [apply calm_lawful|]. apply Forall_cons. split; [apply calm_lawful|].
  apply Forall_singleton, race_of_lawful, grows_insert_payment, eq_refl.
Qed.

Definition sample_urls : UrlParser := fun s =>
  if HasPrefix s "https://" then Some (mkURL "https" "pay.example" "/") else None.
(** A provider that opens a session and remembers the requests it saw. *)
Definition sample_provider (req : ProviderRequest) : M (list ProviderRequest) Session := fun seen =>
  (Ok (mkSession ("cs_" +:+ PR_AttemptID req) "" "https://pay.example/" 500), seen ++ [req]).
Definition sample_checkout : Service :=
  NewService 20 21 (Ok []) (Ok []) [WithIDGenerators (Ok "pay_1") (Ok "pat_1")].
Definition sample_again : Service :=
  NewService 30 31 (Ok []) (Ok []) [WithIDGenerators (Ok "pay_2") (Ok "pat_2")].
Definition sample_request : CreateInput := mkCreateInput "ord_00000000000000000000000000000001" "key-1".

#[local] Existing Instance sql_gorm.
#[local] Existing Instance sql_gorm_documented.
#[local] Existing Instance sample_urls.

Definition checkout_call (s : Service) (w : World * list ProviderRequest)
    : res Checkout * list Notification * (World * list ProviderRequest) :=
  @CreateCheckout _ world_orders world_payments (world_provider sample_provider) sample_urls s sample_request 3 w.

(** ** Properties *)

(** C20: one idempotency key is one order, at one price. Whatever other sessions
    commit before, between and during two calls, and whatever faults the
    database has, two successful [Create] calls with the same key answer the
    same order with the same amount and currency, and it is the product and the
    quantity both callers asked for: a key reused for a different request never
    succeeds. *)
Theorem order_key_identifies_one_order `{Gorm} `{!GormDocumented} `{Catalog}
    (s1 s2 : OrderApp.Service) (i1 i2 : OrderApp.CreateInput) (w1 w1' w2 w2' : World) (o1 o2 : Order)
    (log1 log2 : list OrderApp.Notification) :
  honest -> well_formed w1 -> Create s1 i1 w1 = (Ok o1, log1, w1') -> later w1' w2 ->
  Create s2 i2 w2 = (Ok o2, log2, w2') -> In_IdempotencyKey i1 = In_IdempotencyKey i2 ->
  Order_ID o1 = Order_ID o2 /\ Order_Amount o1 = Order_Amount o2 /\ Order_Currency o1 = Order_Currency o2 /\
  In_ProductID i1 = In_ProductID i2 /\ In_Quantity i1 = In_Quantity i2 /\
  persisted o1 (st_db w2'.1).
Proof.
  intros Hh Hw E1 Hl E2 Hk.
  destruct (Create_later _ _ _ _ _ _ Hh Hw E1) as [Hl1 Hq1]. destruct (Hq1 _ eq_refl) as (Hp1 & Hk1 & Hpr1 & Hqty1 & _).
  destruct (Create_later _ _ _ _ _ _ Hh (later_wf _ _ Hl) E2) as [Hl2 Hq2].
  destruct (Hq2 _ eq_refl) as (Hp2 & Hk2 & Hpr2 & Hqty2 & _).
  pose proof (later_trans _ _ _ Hl Hl2) as Hl12.
  apply (stable_persisted o1 _ (st_db w2'.1)) in Hp1; [|apply (later_wf _ _ Hl2)|apply Hl12].
  assert (schema (st_db w2'.1)) as Hs by apply (later_wf _ _ Hl2).
  destruct (persisted_key _ _ _ Hs Hp1 Hp2) as (Hid & Ha & Hc); [congruence|]. split_and!; try done.
  - destruct Hp1 as (r1 & Hr1 & _ & _ & P1 & _), Hp2 as (r2 & Hr2 & _ & _ & P2 & _). rewrite Hid in Hr1. congruence.
  - destruct Hp1 as (r1 & Hr1 & _ & _ & _ & Q1 & _), Hp2 as (r2 & Hr2 & _ & _ & _ & Q2 & _). rewrite Hid in Hr1. congruence.
Qed.

Definition sample_order_input : OrderApp.CreateInput := OrderApp.mkCreateInput "product_demo" 2 "key-o".
Definition sample_order_service (id : string) : OrderApp.Service :=
  OrderApp.NewService 20 (Ok []) [OrderApp.WithIDGenerator (Ok id)].

Lemma order_key_identifies_one_order_witness :
  exists o1 o2, (@Create World demo_catalog OrderRepository (sample_order_service "ord_a") sample_order_input raced_world).1.1 = Ok o1 /\
    (@Create World demo_catalog OrderRepository (sample_order_service "ord_b") sample_order_input
      (@Create World demo_catalog OrderRepository (sample_order_service "ord_a") sample_order_input raced_world).2).1.1 = Ok o2 /\
    Order_ID o1 = Order_ID o2.
Proof.
  destruct (@Create World demo_catalog OrderRepository (sample_order_service "ord_a") sample_order_input raced_world)
    as [[out1 log1] w1] eqn:E1.
  assert (exists o1, out1 = Ok o1) as [o1 ->].
  { apply (f_equal (fun x => x.1.1)) in E1. vm_compute in E1. rewrite <- E1. eexists. reflexivity. }
  destruct (@Create World demo_catalog OrderRepository (sample_order_service "ord_b") sample_order_input w1)
    as [[out2 log2] w2] eqn:E2.
  assert (exists o2, out2 = Ok o2) as [o2 ->].
  { apply (f_equal (fun x => x.2)) in E1. cbn [snd] in E1. rewrite <- E1 in E2.
    apply (f_equal (fun x => x.1.1)) in E2. vm_compute in E2. rewrite <- E2. eexists. reflexivity. }
  exists o1, o2. split; [reflexivity|]. cbn [snd]. rewrite E2. split; [reflexivity|].
  destruct (@Create_later _ _ demo_catalog _ _ _ _ _ _ demo_honest raced_well_formed E1) as [Hl _].
  exact (proj1 (order_key_identifies_one_order _ _ _ _ _ _ _ _ _ _ _ _ demo_honest raced_well_formed E1
    (later_refl _ (later_wf _ _ Hl)) E2 eq_refl)).
Defined.

(** C19: one idempotency key is one payment attempt. However two reservations
    with the same key are interleaved with other sessions and faults, when both
    succeed they return the same attempt of the same payment, and they were for
    the same order: two requests can never open two attempts under one key. *)
Theorem checkout_key_identifies_one_attempt `{Gorm} `{!GormDocumented}
    (p1 p2 : Payment) (a1 a2 : Attempt) (w1 w1' w2 w2' : World) (p1' p2' : Payment) (a1' a2' : Attempt) :
  well_formed w1 -> idle w1.1 -> Payment_Status p1 = StatusPending -> Payment_Status p2 = StatusPending ->
  PaymentRepository_PrepareCheckout p1 a1 w1 = (Ok (p1', a1'), w1') ->
  later w1' w2 -> PaymentRepository_PrepareCheckout p2 a2 w2 = (Ok (p2', a2'), w2') ->
  Attempt_IdempotencyKey a1 = Attempt_IdempotencyKey a2 ->
  Attempt_ID a1' = Attempt_ID a2' /\ Payment_ID p1' = Payment_ID p2' /\ Payment_OrderID p1 = Payment_OrderID p2.
Proof.
  intros Hw Hi Hps1 Hps2 E1 Hl E2 Hk. assert (forall a, of_key (Attempt_IdempotencyKey a) (fun _ => True) (fun _ => True)) as HF by done.
  destruct (PrepareCheckout_later _ _ _ _ _ _ _ Hps1 stable_true (HF a1) Hw Hi I E1) as (Hi1 & Hl1 & Hq1).
  destruct (Hq1 _ _ eq_refl) as (_ & _ & Hr1).
  destruct (PrepareCheckout_later _ _ _ _ _ _ _ Hps2 stable_true (HF a2) (later_wf _ _ Hl) (later_idle _ _ Hl Hi1) I E2)
    as (_ & Hl2 & Hq2).
  destruct (Hq2 _ _ eq_refl) as (_ & _ & Hr2).
  assert (sound (st_db w2'.1)) as Hs by apply (later_wf _ _ Hl2).
  eapply stable_reserved in Hr1; [|exact Hs|apply (later_trans _ _ _ Hl Hl2)].
  destruct Hr1 as ((rp1 & Hp1 & Ho1 & _) & (_ & ra1 & Ha1 & K1 & Pa1 & _) & I1).
  destruct Hr2 as ((rp2 & Hp2 & Ho2 & _) & (_ & ra2 & Ha2 & K2 & Pa2 & _) & I2).
  assert (Attempt_ID a1' = Attempt_ID a2') as Hid.
  { eapply (attempts_key_unique _ (sound_schema _ Hs)); [done|done|unfold payment_attempts_idempotency_key_key; done|].
    unfold payment_attempts_idempotency_key_key. congruence. }
  assert (Payment_ID p1' = Payment_ID p2') as Hpid by (rewrite Hid in Ha1; congruence).
  split_and!; [done|done|]. rewrite Hpid in Hp1. congruence.
Qed.

Definition new_payment (id : string) : Payment :=
  mkPayment id "ord_00000000000000000000000000000001" "stripe" "pending" 30000 "BRL" 20 20.
Definition new_attempt (id payment : string) : Attempt :=
  mkAttempt id payment "stripe" "created" "key-1" "" "" "" 0 20 20.

Lemma checkout_key_identifies_one_attempt_witness :
  exists r1 r2 w1 w2,
    PaymentRepository_PrepareCheckout (new_payment "pay_1") (new_attempt "pat_1" "pay_1") raced_world = (Ok r1, w1) /\
    PaymentRepository_PrepareCheckout (new_payment "pay_2") (new_attempt "pat_2" "pay_2") w1 = (Ok r2, w2) /\
    Attempt_ID r1.2 = Attempt_ID r2.2.
Proof.
  destruct (PaymentRepository_PrepareCheckout (new_payment "pay_1") (new_attempt "pat_1" "pay_1") raced_world)
    as [out1 w1] eqn:E1.
  assert (exists r1, out1 = Ok r1) as [r1 ->].
  { apply (f_equal fst) in E1. vm_compute in E1. rewrite <- E1. eexists. reflexivity. }
  destruct (PaymentRepository_PrepareCheckout (new_payment "pay_2") (new_attempt "pat_2" "pay_2") w1)
    as [out2 w2] eqn:E2.
  assert (exists r2, out2 = Ok r2) as [r2 ->].
  { apply (f_equal (fun x => x.2)) in E1. cbn [snd] in E1. rewrite <- E1 in E2.
    apply (f_equal fst) in E2. vm_compute in E2. rewrite <- E2. eexists. reflexivity. }
  exists r1, r2, w1, w2. split; [reflexivity|]. split; [exact E2|].
  destruct r1 as [p1' a1'], r2 as [p2' a2'].
  destruct (PrepareCheckout_later (fun _ => True) (fun _ => True) (new_payment "pay_1") _ _ _ _ eq_refl stable_true (fun _ _ _ _ _ _ => I)
    raced_well_formed eq_refl I E1) as (_ & Hl & _).
  exact (proj1 (checkout_key_identifies_one_attempt (new_payment "pay_1") (new_payment "pay_2") _ _ _ _ _ _ _ _ _ _
    raced_well_formed eq_refl eq_refl eq_refl E1
    (later_refl _ (later_wf _ _ Hl)) E2 eq_refl)).
Defined.

(** C18: the provider only ever sees durable, exactly priced requests. A call
    asks the provider at most once; when it does, the attempt, its payment and
    the order named in the request are already committed and no transaction is
    open, the idempotency key sent is the client's, and unit amount times
    quantity is to the cent the amount of the payment and of the order, in
    their currency: the webhook of that session can be matched whenever it
    arrives. *)
Theorem provider_request_is_reserved_and_priced `{Gorm} `{!GormDocumented} `{UrlParser} {B : Type}
    (create : ProviderRequest -> M B Session) (s : Service) (input : CreateInput) (elapsed : Duration)
    (w : World) (b : B) (out : res Checkout) (log : list Notification) (w' : World) (b' : B) :
  well_formed w -> idle w.1 ->
  @CreateCheckout _ world_orders world_payments (world_provider create) _ s input elapsed (w, b) = (out, log, (w', b')) ->
  b' = b \/
  exists req w1, later w w1 /\ later w1 w' /\ idle w1.1 /\ request_reserved req (CI_IdempotencyKey input) (st_db w1.1) /\
    PR_OrderID req = CI_OrderID input /\ b' = (create req b).2.
Proof.
  intros Hw Hi E. apply (CreateCheckout_cases create (fun _ => True) (fun _ => True)) in E
    as (_ & [[-> _]|(order & p & a & w1 & Hl1 & Hl2 & Hi1 & Hper & Hid & Hres & _ & Hb & _)]);
    [by left| |apply stable_true|done|done|done|done].
  destruct Hb as [[-> _]|[_ ->]]; [by left|right]. exists (provider_request order p a), w1. split_and!; try done.
  apply reserved_request; [apply (later_wf _ _ Hl1)|done|done].
Qed.

(** The rival's payment is the one the request names. *)
Lemma provider_request_is_reserved_and_priced_witness :
  exists out log (w' : World) b', checkout_call sample_checkout (raced_world, []) = (out, log, (w', b')) /\
    PR_PaymentID <$> b' = ["pay_rival"] /\
    exists req (w1 : World), request_reserved req "key-1" (st_db w1.1) /\ b' = (sample_provider req []).2.
Proof.
  destruct (checkout_call sample_checkout (raced_world, [])) as [[out log] [w' b']] eqn:E.
  exists out, log, w', b'. split; [reflexivity|].
  assert (PR_PaymentID <$> b' = ["pay_rival"]) as Hb.
  { apply (f_equal (fun x => PR_PaymentID <$> x.2.2)) in E. cbn [snd] in E. rewrite <- E. vm_compute. reflexivity. }
  split; [exact Hb|].
  destruct (provider_request_is_reserved_and_priced sample_provider sample_checkout sample_request 3 raced_world [] _ _ _ _
    raced_well_formed eq_refl E) as [->|(req & w1 & _ & _ & _ & Hreq & _ & Hb')]; [discriminate Hb|].
  exists req, w1. split; [exact Hreq | exact Hb'].
Defined.

(** A checkout answered to the client is durable. A successful call leaves
    an attempt under the client's key, with a provider session attached, on a
    payment of the order asked for. *)
Theorem checkout_answer_is_durable `{Gorm} `{!GormDocumented} `{UrlParser} {B : Type}
    (create : ProviderRequest -> M B Session) (s : Service) (input : CreateInput) (elapsed : Duration)
    (w : World) (b : B) (c : Checkout) (log : list Notification) (w' : World) (b' : B) :
  well_formed w -> idle w.1 ->
  @CreateCheckout _ world_orders world_payments (world_provider create) _ s input elapsed (w, b) = (Ok c, log, (w', b')) ->
  later w w' /\ idle w'.1 /\ checkout_durable (CI_OrderID input) (CI_IdempotencyKey input) (st_db w'.1).
Proof.
  intros Hw Hi E. apply (CreateCheckout_cases create (fun _ => True) (fun _ => True)) in E
    as (Hl & [[_ [err ?]]|(order & p & a & w1 & _ & _ & _ & _ & _ & _ & _ & _ & Hd)]);
    [done| |apply stable_true|done|done|done|done].
  split; [done|]. split; [by eapply later_idle|]. apply Hd. eauto.
Qed.

Lemma checkout_answer_is_durable_witness :
  exists c log (w' : World) b', checkout_call sample_checkout (raced_world, []) = (Ok c, log, (w', b')) /\
    checkout_durable "ord_00000000000000000000000000000001" "key-1" (st_db w'.1).
Proof.
  destruct (checkout_call sample_checkout (raced_world, [])) as [[out log] [w' b']] eqn:E.
  assert (exists c, out = Ok c) as [c ->].
  { apply (f_equal (fun x => x.1.1)) in E. vm_compute in E. rewrite <- E. eexists. reflexivity. }
  exists c, log, w', b'. split; [reflexivity|].
  exact (proj2 (proj2 (checkout_answer_is_durable sample_provider sample_checkout sample_request 3 raced_world [] _ _ _ _
    raced_well_formed eq_refl E))).
Defined.

(** C21: a replayed checkout reuses its session. Once the attempt of a key
    carries a session, a further call with that key answers the stored address
    and deadline or an error, without asking the provider, unless the attempt
    was settled in the meantime. *)
Theorem replayed_checkout_reuses_its_session `{Gorm} `{!GormDocumented} `{UrlParser} {B : Type}
    (create : ProviderRequest -> M B Session) (s : Service) (input : CreateInput) (elapsed : Duration)
    (w : World) (b : B) (out : res Checkout) (log : list Notification) (w' : World) (b' : B)
    (i : string) (r : AttemptRow) (session url : string) (expires : Time) :
  well_formed w -> idle w.1 -> payment_attempts (st_db w.1) !! i = Some r ->
  AttemptRow_IdempotencyKey r = CI_IdempotencyKey input -> AttemptRow_Status r <> "created" ->
  AttemptRow_ProviderSessionID r = Some session -> session <> "" ->
  AttemptRow_CheckoutURL r = Some url -> url <> "" -> AttemptRow_ExpiresAt r = Some expires -> expires <> 0 ->
  @CreateCheckout _ world_orders world_payments (world_provider create) _ s input elapsed (w, b) = (out, log, (w', b')) ->
  (b' = b /\ (out = Ok (mkCheckout url expires) \/ exists err, out = Err err)) \/
  exists r', payment_attempts (st_db w'.1) !! i = Some r' /\ settled_attempt (AttemptRow_Status r') = true.
Proof.
  intros Hw Hi Hr Hk Hst Hs Hs0 Hu Hu0 He He0 E.
  set (P := fun d => exists r', payment_attempts d !! i = Some r' /\ AttemptRow_IdempotencyKey r' = CI_IdempotencyKey input /\
    AttemptRow_Status r' <> "created" /\ AttemptRow_ProviderSessionID r' = Some session /\
    AttemptRow_CheckoutURL r' = Some url /\ AttemptRow_ExpiresAt r' = Some expires).
  set (F := fun a => Attempt_ID a = i /\ Attempt_Status a <> "created" /\ Attempt_ProviderSessionID a = session /\
    Attempt_CheckoutURL a = url /\ Attempt_ExpiresAt a = expires).
  assert (stable P) as HP.
  { intros d d' _ Hext (r1 & Hr1 & ? & Hc & ? & ? & ?). destruct (extends_attempts _ _ Hext _ _ Hr1) as (r2 & Hr2 & _ & _ & ? & Hx & _).
    destruct (Hx Hc) as (? & ? & ? & ?). exists r2. split_and!; congruence. }
  assert (of_key (CI_IdempotencyKey input) P F) as HF.
  { intros d x [Hsch _ _ _ _] (r1 & Hr1 & K1 & ? & S1 & U1 & X1) Hx Kx.
    assert (i = AttemptRow_ID x) as ->.
    { eapply (attempts_key_unique _ Hsch); [done|done|unfold payment_attempts_idempotency_key_key; done|].
      unfold payment_attempts_idempotency_key_key. congruence. }
    assert (x = r1) as -> by congruence. unfold F. simpl. rewrite S1, U1, X1. done. }
  apply (CreateCheckout_cases create P F) in E
    as (_ & [[-> [err ->]]|(order & p & a & w1 & _ & Hl2 & _ & _ & _ & Hres & (Hid & Hc & Hsa & Hua & Hea) & Hb & _)]);
    [by eauto| |done|done|by exists r|done|done].
  destruct Hb as [(-> & _ & ->)|[Hns ->]]; [left; unfold checkoutFromAttempt; rewrite Hua, Hea; by eauto|right].
  destruct Hres as (_ & (_ & ra & Hra & _ & _ & _ & Ht) & _). rewrite Hid in Hra.
  assert (settled_attempt (Attempt_Status a) = true) as Hset.
  { unfold HasSession in Hns. unfold settled_attempt, one_of. simpl.
    apply String.eqb_neq in Hc as ->. rewrite Hsa, Hua, Hea in Hns.
    apply String.eqb_neq in Hs0, Hu0. apply Z.eqb_neq in He0. unfold IsZero in Hns. rewrite Hs0, Hu0, He0 in Hns.
    simpl in *. rewrite !andb_true_r in Hns. unfold AttemptStatusPending in Hns. by rewrite Hns. }
  destruct (extends_attempts _ _ (later_db _ _ Hl2) _ _ Hra) as (r' & Hr' & _ & _ & _ & _ & Ht').
  exists r'. split; [done|]. rewrite Ht'; by rewrite Ht.
Qed.

(** The order's checkout already opened a session under the same key. *)
Definition opened_payment : PaymentRow :=
  mkPaymentRow "pay_1" "ord_00000000000000000000000000000001" "stripe" "pending" 30000 "BRL" 5 5.
Definition opened_attempt : AttemptRow :=
  mkAttemptRow "pat_1" "pay_1" "stripe" "pending" "key-1" (Some "cs_1") None (Some "https://pay.example/") (Some 500)
    None None 5 6.
Definition opened_world : World :=
  (mkStore (mkDB {["ord_00000000000000000000000000000001" := demo_order]} {["pay_1" := opened_payment]}
              {["pat_1" := opened_attempt]} ∅ ∅ 10) None [], []).

Lemma opened_well_formed : well_formed opened_world.
Proof.
  split; [|done|constructor]. split.
  - split; simpl; try apply sample_unique; try (intros i r; by rewrite lookup_empty);
      try (by intros i j r s k; rewrite lookup_empty);
      intros i r [<- <-]%lookup_singleton_Some; try done; try (vm_compute; reflexivity).
    + rewrite lookup_singleton_eq. by exists demo_order.
    + rewrite lookup_singleton_eq. by exists opened_payment.
  - simpl. intros i r [<- <-]%lookup_singleton_Some. split; [done|]. by exists 10000.
  - simpl. intros i r [<- <-]%lookup_singleton_Some. by left.
  - simpl. by intros i r [<- <-]%lookup_singleton_Some.
  - simpl. by intros i r [<- <-]%lookup_singleton_Some.
  - intros i r. simpl. by rewrite lookup_empty.
Qed.

Lemma replayed_checkout_reuses_its_session_witness :
  exists log (w' : World), checkout_call sample_again (opened_world, []) =
    (Ok (mkCheckout "https://pay.example/" 500), log, (w', [])).
Proof.
  assert (let r := checkout_call sample_again (opened_world, []) in
    is_ok r.1.1 = true /\ (AttemptRow_Status <$> payment_attempts (st_db r.2.1.1) !! "pat_1") = Some "pending") as Hc
    by (vm_compute; split; reflexivity).
  destruct (checkout_call sample_again (opened_world, [])) as [[out log] [w' b']] eqn:E. destruct Hc as [Hok Hst].
  cbn [fst snd] in Hok, Hst.
  destruct (replayed_checkout_reuses_its_session sample_provider sample_again sample_request 3 opened_world [] out log w' b'
    "pat_1" opened_attempt "cs_1" "https://pay.example/" 500 opened_well_formed eq_refl) as [[-> [->|[err ->]]]|(r' & Hr' & Hs)].
  - vm_compute. reflexivity.
  - reflexivity.
  - discriminate.
  - reflexivity.
  - discriminate.
  - reflexivity.
  - discriminate.
  - reflexivity.
  - discriminate.
  - exact E.
  - exists log, w'. reflexivity.
  - discriminate Hok.
  - rewrite Hr' in Hst. injection Hst as Hst. rewrite Hst in Hs. discriminate Hs.
Defined.
