(* ===== verification/Pipeline.v ===== *)
(** * The whole program on one database

    Every operation that writes, under every fault schedule, as one step
    relation on the database: order creation, checkout, reception, relay,
    consumption and replay. The theorems at the end are the invariants of
    everything reachable from the empty database, and they discharge what the
    component theorems ask of concurrent sessions. *)

From S2P Require Import Prelude GoLib Orders Payments Transitions Webhooks Store Queries Consumer EventRepo Processing.
From S2P Require Import Outbox OutboxRepo Receive WebhookRepo Inbox Replay OrderApp Gorm CheckoutApp CheckoutRepo Checkout Samples.

(** ** The books *)

Lemma lookup_alter_if {R} (f : R -> R) k (m : gmap string R) i :
  alter f k m !! i = if bool_decide (i = k) then f <$> m !! i else m !! i.
Proof. rewrite lookup_alter. case_decide; case_bool_decide; congruence. Qed.

Lemma sound_same_books d d' :
  sound d -> schema d' -> orders d' = orders d -> payments d' = payments d -> queued d' -> sound d'.
Proof. intros [Hs Hpr Hst Hp Hc Hq] Hs' Ho Hpay Hq'. by split; rewrite ?Ho, ?Hpay. Qed.

Lemma event_db_queued id agg eff d : queued d -> queued (event_db id agg eff d).
Proof.
  intros Hq i e. rewrite lookup_event_db. case_decide; [|apply Hq].
  destruct (webhook_events d !! i) as [r|]; simpl; [|done]. by intros [= <-].
Qed.

Lemma failure_db_queued id terminal max cause row d :
  webhook_events d !! id = Some row -> queued d -> queued (failure_db id terminal max cause row d).
Proof.
  intros Hr Hq i e. unfold failure_db. simpl. rewrite lookup_insert. case_decide as Hi; [subst i|apply Hq].
  intros [= <-]. simpl. destruct (_ || _); [done|]. by apply Hq.
Qed.

Lemma replayed_queued id d d' : schema d -> restarted id d d' -> queued d -> queued d'.
Proof.
  intros Hs [e o He [Ho Hi] _ _ ->] Hq i e' He' Hp. unfold replayed_db in *. simpl in *.
  assert (exists j o', outbox_events d !! j = Some o' /\ OutboxRow_WebhookEventID o' = i) as (j & o' & Ho' & <-).
  { rewrite lookup_alter in He'. case_decide; [subst; eauto|by eapply Hq]. }
  exists j. rewrite lookup_alter_if, Ho'. case_bool_decide; simpl; eexists; (split; [reflexivity|done]).
Qed.

Lemma accepted_queued `{Postgres} `{Verifier} s input d d' o : accepted s input d d' o -> queued d -> queued d'.
Proof.
  intros [p e Hv Hh [payload _ _ _ _ ->]|p e m Hv _ Hm [payload _ _ _ Hfree ->]] Hq i r; simpl;
    rewrite lookup_insert; case_decide as Hi.
  - intros [= <-]. simpl. apply verified_event in Hv. apply NewEvent_fields in Hv. unfold Webhooks.Handled in Hh.
    rewrite Hv in Hh |- *. simpl in *. by apply negb_false_iff in Hh as ->.
  - apply Hq.
  - intros _ _. exists (Message_ID m). eexists. rewrite lookup_insert_eq. split; [done|]. subst i. apply Hm.
  - intros Hr Hp. destruct (Hq _ _ Hr Hp) as (j & w & Ho & Hoe). exists j, w. split; [|done].
    by apply insert_keeps; [apply Hfree|].
Qed.

Lemma moves_queued {B} (publish : Message -> M B unit) d d' : moves publish d d' -> queued d -> queued d'.
Proof.
  intros (_ & He & _ & _ & _ & Hdom & Hrows) Hq i e. rewrite He. intros Hi Hp.
  destruct (Hq _ _ Hi Hp) as (j & o & Ho & Hoe).
  assert (is_Some (outbox_events d' !! j)) as [o' Ho'] by (apply elem_of_dom; rewrite Hdom; by apply elem_of_dom_2 in Ho).
  exists j, o'. split; [done|]. destruct (Hrows _ _ Ho') as (r & Hr & Hk & _). congruence.
Qed.

Lemma extends_same d d' :
  orders d' = orders d -> payments d' = payments d -> payment_attempts d' = payment_attempts d -> extends d d'.
Proof. intros Ho Hp Ha. apply extends_tables; by rewrite ?Ho, ?Hp, ?Ha. Qed.

Lemma charged_target o p a :
  charged (Transition_Payment (Decide o p a)) = true -> Transition_OrderPaid (Decide o p a) = true.
Proof. by_rows o p a. Qed.

(** A payment that neither failed nor was cancelled holds its order. *)
Lemma holds_order p :
  charged (PaymentRow_Status p) = true \/ paymentSettled (PaymentRow_Status p) = false ->
  payments_order_id_active_key p = Some (PaymentRow_OrderID p).
Proof.
  intros Hc. unfold payments_order_id_active_key, one_of. simpl.
  destruct (String.eqb_spec (PaymentRow_Status p) "failed") as [E|]; [rewrite E in Hc; by destruct Hc|].
  destruct (String.eqb_spec (PaymentRow_Status p) "cancelled") as [E|]; [rewrite E in Hc; by destruct Hc|done].
Qed.

(** The four states of a message. *)
Lemma outbox_status o :
  outbox_check o = true ->
  OutboxRow_Status o = "pending" \/
  (OutboxRow_Status o = "publishing" /\ is_Some (OutboxRow_LockedUntil o) /\ is_Some (OutboxRow_LockedBy o)) \/
  OutboxRow_Status o = "published" \/ OutboxRow_Status o = "failed".
Proof.
  unfold outbox_check, one_of. simpl. intros [H Hl%eqb_prop]%andb_true_iff.
  do 5 apply andb_true_iff in H as [H _].
  destruct (String.eqb_spec (OutboxRow_Status o) "pending"); [by left|].
  destruct (String.eqb_spec (OutboxRow_Status o) "publishing"); [right; left|].
  { symmetry in Hl. apply andb_true_iff in Hl as [Hu Hb].
    destruct (OutboxRow_LockedUntil o), (OutboxRow_LockedBy o); naive_solver. }
  destruct (String.eqb_spec (OutboxRow_Status o) "published"); [by right; right; left|].
  destruct (String.eqb_spec (OutboxRow_Status o) "failed"); [by right; right; right|done].
Qed.

Lemma attempt_settled_terminal a :
  attempts_check a = true -> settled_attempt (AttemptRow_Status a) = one_of attempt_terminal (AttemptRow_Status a).
Proof.
  unfold attempts_check, settled_attempt, one_of. simpl. intros H. revert H.
  destruct (String.eqb_spec (AttemptRow_Status a) "created") as [->|]; [done|].
  destruct (String.eqb_spec (AttemptRow_Status a) "pending") as [->|]; [done|]. simpl.
  by intros ->.
Qed.

Lemma event_db_order id agg eff d i :
  orders (event_db id agg eff d) !! i =
    if Effect_OrderPaid eff && bool_decide (i = Aggregate_OrderID agg)
    then order_paid (db_now d) <$> orders d !! i else orders d !! i.
Proof. unfold event_db. simpl. by destruct (Effect_OrderPaid eff); simpl; rewrite ?lookup_alter_if. Qed.

Lemma event_db_payment id agg eff d i :
  payments (event_db id agg eff d) !! i =
    if (Effect_PaymentStatus eff <>s? "") && bool_decide (i = Aggregate_PaymentID agg)
    then payment_moved (Effect_PaymentStatus eff) (db_now d) <$> payments d !! i else payments d !! i.
Proof. unfold event_db. simpl. by destruct (_ <>s? _); simpl; rewrite ?lookup_alter_if. Qed.

Lemma event_db_attempt id agg eff d i :
  payment_attempts (event_db id agg eff d) !! i =
    if (Effect_AttemptStatus eff <>s? "") && bool_decide (i = Aggregate_AttemptID agg)
    then attempt_moved (Effect_AttemptStatus eff) (db_now d) <$> payment_attempts d !! i else payment_attempts d !! i.
Proof. unfold event_db. simpl. by destruct (_ <>s? _); simpl; rewrite ?lookup_alter_if. Qed.

(** The conditions under which an effect keeps the books. *)
Record balanced (agg : Aggregate) (eff : Effect) (d : DB) : Prop := {
  bal_paid : Effect_OrderPaid eff = true <-> Effect_PaymentStatus eff = "succeeded";
  bal_charged : charged (Effect_PaymentStatus eff) = true -> Effect_OrderPaid eff = true;
  bal_payment : exists p, payments d !! Aggregate_PaymentID agg = Some p /\ PaymentRow_OrderID p = Aggregate_OrderID agg /\
    (Effect_PaymentStatus eff <> "" -> paymentSettled (PaymentRow_Status p) = false);
  bal_attempt : Effect_AttemptStatus eff <> "" -> attemptSettled (Effect_AttemptStatus eff) = true /\
    exists a, payment_attempts d !! Aggregate_AttemptID agg = Some a /\ settled_attempt (AttemptRow_Status a) = false;
  bal_order : exists o, orders d !! Aggregate_OrderID agg = Some o;
}.

Lemma decided_balanced `{UnicodeTables} `{Interpreter} id d d' :
  schema d -> decided id d d' -> exists agg eff, d' = event_db id agg eff d /\ balanced agg eff d.
Proof.
  intros Hs [row agg a p o eff outcome _ _ _ _ Hat _ Heff Hmov ->]. exists agg, eff. split; [done|].
  apply decideEffect_Ok in Heff as (_ & -> & Hd). cbv zeta in *. destruct Hmov as [Ma Mp _]. split; simpl in *.
  - apply apply_order_paid.
  - apply charged_target.
  - exists p. split; [apply Hat|]. split; [apply Hat|]. intros (p' & Hp' & Ht)%Mp.
    assert (p' = p) as -> by (pose proof (at_payment _ _ _ _ _ Hat); congruence).
    by rewrite payment_terminal_settled in Ht.
  - intros Hne. split.
    + destruct Hd as [Hd|(Hd & _)]; [|done]. by apply apply_attempt_unsettled in Hd as [_ ?].
    + destruct (Ma Hne) as (a' & Ha' & Ht). exists a'. split; [done|].
      by rewrite attempt_settled_terminal by apply (attempts_ok _ Hs _ _ Ha').
  - exists o. apply Hat.
Qed.

Lemma balanced_sound id agg eff d :
  sound d -> schema (event_db id agg eff d) -> balanced agg eff d -> sound (event_db id agg eff d).
Proof.
  intros [Hs Hpr Hst Hpaid Hch Hqu] Hs' [B1 B2 (p & Hp & Hpo & Hpc) _ (o & Ho)]. split; [done|..].
  - intros i x. rewrite event_db_order. destruct (_ && _); [|apply Hpr].
    destruct (orders d !! i) as [x0|] eqn:Ex; simpl; [|done]. intros [= <-]. apply (Hpr _ _ Ex).
  - intros i x. rewrite event_db_order. destruct (_ && _); [|apply Hst].
    destruct (orders d !! i) as [x0|]; simpl; [|done]. intros [= <-]. by right.
  - intros i x Hx Hxp. rewrite event_db_order in Hx.
    destruct (Effect_OrderPaid eff && bool_decide (i = Aggregate_OrderID agg)) eqn:E.
    + apply andb_true_iff in E as [Epaid ->%bool_decide_eq_true]. apply B1 in Epaid as Esucc.
      exists (Aggregate_PaymentID agg). eexists. rewrite event_db_payment, Esucc, bool_decide_true, Hp by done. simpl.
      split; [done|]. by split.
    + destruct (Hpaid _ _ Hx Hxp) as (j & q & Hq & Hqo & Hqc). exists j, q.
      clear E. rewrite event_db_payment, Hq. destruct (_ && _) eqn:E2; [exfalso|by split_and!].
      apply andb_true_iff in E2 as [Ene ->%bool_decide_eq_true]. apply negb_true_iff, String.eqb_neq in Ene.
      assert (q = p) as -> by congruence. apply charged_settled in Hqc. by rewrite Hpc in Hqc.
  - intros j q. rewrite event_db_payment.
    destruct ((Effect_PaymentStatus eff <>s? "") && bool_decide (j = Aggregate_PaymentID agg)) eqn:E.
    + apply andb_true_iff in E as [_ ->%bool_decide_eq_true]. rewrite Hp. simpl. intros [= <-] Hc.
      change (charged (Effect_PaymentStatus eff) = true) in Hc.
      change (exists x, orders (event_db id agg eff d) !! PaymentRow_OrderID p = Some x /\ OrderRow_Status x = "paid").
      apply B2 in Hc. eexists. rewrite event_db_order, Hc, Hpo, bool_decide_true, Ho by done. done.
    + intros Hq Hqc. destruct (Hch _ _ Hq Hqc) as (x & Hx & Hxp). clear E. rewrite event_db_order, Hx.
      destruct (_ && _); eexists; (split; [reflexivity | done]).
  - by apply event_db_queued.
Qed.

Lemma balanced_extends id agg eff d : balanced agg eff d -> extends d (event_db id agg eff d).
Proof.
  intros [_ _ (p & Hp & _ & Hpu) B4 _]. split; intros i r; [intros Hr|intros Hr|intros Hr|intros r' Hr Hr'..].
  - rewrite event_db_order, Hr. destruct (_ && _); eexists; (split; [reflexivity | done]).
  - rewrite event_db_payment, Hr. destruct (_ && _); eexists; (split; [reflexivity | done]).
  - rewrite event_db_attempt, Hr.
    destruct ((Effect_AttemptStatus eff <>s? "") && bool_decide (i = Aggregate_AttemptID agg)) eqn:E;
      [|exists r; by split_and!].
    apply andb_true_iff in E as [Ene%negb_true_iff%String.eqb_neq ->%bool_decide_eq_true].
    destruct (B4 Ene) as [Hset (a & Ha & Hns)]. assert (a = r) as -> by congruence.
    eexists. split; [done|]. split_and!; try done.
    + intros _. simpl. split_and!; try done. by intros Hc; rewrite Hc in Hset.
    + congruence.
  - rewrite event_db_order, Hr in Hr'. destruct (_ && _); simpl in Hr'; by simplify_eq.
  - rewrite event_db_payment, Hr in Hr'.
    destruct ((Effect_PaymentStatus eff <>s? "") && bool_decide (i = Aggregate_PaymentID agg)) eqn:E; [|by simplify_eq].
    apply andb_true_iff in E as [Ene%negb_true_iff%String.eqb_neq ->%bool_decide_eq_true].
    assert (p = r) as -> by congruence. intros Hset. by rewrite Hpu in Hset.
Qed.

Lemma decided_sound `{UnicodeTables} `{Interpreter} id d d' :
  sound d -> schema d' -> decided id d d' -> sound d' /\ extends d d'.
Proof.
  intros Hd Hs' (agg & eff & -> & Hb)%decided_balanced; [|apply Hd].
  split; [by apply balanced_sound | by apply balanced_extends].
Qed.

(** ** Steps *)

Section Program.
Context `{UnicodeTables} `{Interpreter} `{Postgres} `{FloatConversion} `{Verifier}.
Context `{Gorm} `{!GormDocumented} `{Catalog} `{UrlParser}.
Context (catalog_honest : honest).

Definition at_time (now : Time) (d : DB) : DB :=
  mkDB (orders d) (payments d) (payment_attempts d) (webhook_events d) (outbox_events d) now.

(** One call of an entry point of the program, on an idle connection, with any
    faults; a checkout also with what other sessions do between its statements. *)
Inductive step (d d' : DB) : Prop :=
| step_clock (now : Time) (Hd : d' = at_time now d)
| step_handle (s : Consumer.Service) (id : string) (faults : list fault)
    (Hd : d' = st_db (answer_world (handle s id (mkStore d None faults))))
| step_receive (s : Receive.Service) (input : ReceiveInput) (elapsed : Duration) (faults : list fault)
    (Hd : d' = st_db (Receive.Receive s input elapsed (mkStore d None faults)).2)
| step_reprocess (id : string) (faults : list fault)
    (Hd : d' = st_db (Reprocess id (mkStore d None faults)).2)
| step_relay (B : Type) (publish : Message -> M B unit) (s : Outbox.Service) (env : Env) (faults : list fault) (b : B)
    (Hd : d' = st_db (@runOnce _ (broker_publisher publish) _ _ s env (mkStore d None faults, b)).2.1)
| step_order (s : OrderApp.Service) (i : OrderApp.CreateInput) (faults : list fault) (races : list Race)
    (Hraces : Forall lawful races)
    (Hd : d' = st_db (OrderApp.Create s i (mkStore d None faults, races)).2.1)
| step_checkout (B : Type) (create : ProviderRequest -> M B Session) (s : CheckoutApp.Service)
    (i : CheckoutApp.CreateInput) (elapsed : Duration) (faults : list fault) (races : list Race) (b : B)
    (Hraces : Forall lawful races)
    (Hd : d' = st_db (@CreateCheckout _ world_orders world_payments (world_provider create) _ s i elapsed
                        (mkStore d None faults, races, b)).2.1.1).

Lemma handle_sound s id w :
  sound (st_db w) -> idle w -> let d' := st_db (answer_world (handle s id w)) in sound d' /\ extends (st_db w) d'.
Proof.
  intros Hd Hi d'. destruct (handle_db s id w) as [[Hs' _] (db1 & Hs1 & Hdb1 & Hdb2)]; [split; [apply Hd|done]|].
  fold d' in Hs', Hdb2. assert (sound db1 /\ extends (st_db w) db1) as [Hd1 He1].
  { destruct Hdb1 as [->|Hdec]; [by split|]. by eapply decided_sound. }
  destruct Hdb2 as [->|(cause & terminal & row & Hrow & Hd')]; [by split|]. split.
  - apply (sound_same_books db1); [done|done|by rewrite Hd'..|]. rewrite Hd'. apply failure_db_queued; [done|apply Hd1].
  - etrans; [exact He1|]. apply extends_same; by rewrite Hd'.
Qed.

Lemma accepted_books s input d d' o :
  accepted s input d d' o -> orders d' = orders d /\ payments d' = payments d /\ payment_attempts d' = payment_attempts d.
Proof. intros [p e _ _ []|p e m _ _ _ []]; by subst. Qed.

Lemma step_sound d d' : sound d -> step d d' -> sound d' /\ extends d d'.
Proof.
  intros Hd [now ->|s id faults ->|s input elapsed faults ->|id faults ->|B publish s env faults b ->
    |s i faults races Hr ->|B create s i elapsed faults races b Hr ->].
  - split; [|by apply extends_same]. apply (sound_same_books d); try done; [|apply Hd].
    destruct Hd as [Hs _ _ _ _ _]. by destruct Hs.
  - by apply (handle_sound s id (mkStore d None faults)).
  - destruct (Receive.Receive _ _ _ _) as [[out log] w] eqn:Hrun; cbn [fst snd]. apply Receive_cases in Hrun as (_ & Hs' & [[-> _]|(o & Hacc & _)]); [by split| |apply Hd|done]. simpl in Hacc.
    apply accepted_books in Hacc as Hb. destruct Hb as (Ho & Hp & Ha). split; [|by apply extends_same].
    apply (sound_same_books d); try done. eapply accepted_queued; [exact Hacc|apply Hd].
  - unfold Reprocess. destruct (ValidateEventID id) as [[]|e]; [|by split].
    destruct (Inspection_Reprocess _ _) as [out w] eqn:Hrun; cbn [fst snd].
    apply Reprocess_answer in Hrun as (_ & Hs' & [->|Hre] & _); [by split| |apply Hd|done]. simpl in Hre.
    assert (orders (st_db w) = orders d /\ payments (st_db w) = payments d /\
            payment_attempts (st_db w) = payment_attempts d) as (Ho & Hp & Ha) by (by destruct Hre as [e o _ _ _ _ ->]).
    split; [|by apply extends_same]. apply (sound_same_books d); try done.
    eapply replayed_queued; [apply Hd|exact Hre|apply Hd].
  - destruct (runOnce _ _ _) as [[[[r stage] err] log] w] eqn:Hrun; cbn [fst snd]. apply runOnce_moves in Hrun as Hm; [|apply Hd]. apply moves_queued in Hm as Hq; [|apply Hd].
    destruct Hm as (Hs' & _ & Ho & Hp & Ha & _). split; [by apply (sound_same_books d) | by apply extends_same].
  - assert (well_formed (mkStore d None faults, races)) as Hw by (by split).
    destruct (OrderApp.Create _ _ _) as [[out log] w] eqn:Hrun; cbn [fst snd].
    apply (Create_later _ _ _ _ _ _ catalog_honest Hw) in Hrun as [[[Hs' _ _] He _] _]. by split.
  - assert (well_formed (mkStore d None faults, races)) as Hw by (by split).
    destruct (CreateCheckout _ _ _ _) as [[out log] [w b']] eqn:Hrun; cbn [fst snd].
    apply (CreateCheckout_cases _ (fun _ => True) (fun _ => True)) in Hrun as [[[Hs' _ _] He _] _]; try done.
Qed.

Lemma steps_sound d d' : sound d -> rtc step d d' -> sound d' /\ extends d d'.
Proof.
  intros Hd Hr. revert Hd. induction Hr as [d|d1 d2 d3 H12 _ IH]; intros Hd; [by split|].
  destruct (step_sound _ _ Hd H12) as [Hd2 He]. destruct (IH Hd2) as [? ?]. split; [done|by etrans].
Qed.

Lemma sound_empty now : sound (empty_db now).
Proof. split; [apply schema_empty|..]; unfold map_Forall, queued; simpl; intros *; by rewrite lookup_empty. Qed.
End Program.

(** A paying success finds its order pending. *)
Lemma paying_order_pending `{UnicodeTables} d agg a p o outcome provider eff :
  sound d -> aggregate_at d agg a p o -> decideEffect outcome agg provider = Ok eff ->
  Effect_OrderPaid eff = true -> OrderRow_Status o = "pending".
Proof.
  intros Hd Hat Heff Hpaid. destruct (sound_status _ Hd _ _ (at_order _ _ _ _ _ Hat)) as [?|Hop]; [done|exfalso].
  destruct (sound_paid _ Hd _ _ (at_order _ _ _ _ _ Hat) Hop) as (j & q & Hq & Hqo & Hqc).
  apply decideEffect_Ok in Heff as (_ & -> & _). cbv zeta in Hpaid. simpl in Hpaid.
  destruct (order_paid_apply _ _ _ Hpaid) as (_ & Hap & _). apply apply_unsettled in Hap as Hu.
  rewrite <- (at_payment_status _ _ _ _ _ Hat) in Hu.
  assert (j = Aggregate_PaymentID agg) as ->.
  { eapply (payments_active_unique _ (sound_schema _ Hd)); [exact Hq|apply Hat| |].
    - apply holds_order. by left.
    - rewrite Hqo, <- (at_order_of _ _ _ _ _ Hat). apply holds_order. by right. }
  pose proof (at_payment _ _ _ _ _ Hat) as Hp. assert (q = p) as -> by congruence.
  apply charged_settled in Hqc. congruence.
Qed.

(** ** A day of the program

    One order from its creation to the payment, for the theorems that need a
    state the program reaches. *)

Definition day_interpreter : Interpreter := {|
  Interpret := fun e => Ok (mkSessionOutcome "ord_00000000000000000000000000000001" "pay_1" "pat_1" "cs_pat_1" "pi_1"
                              20000 "brl" OutcomeSucceeded 7);
  Interpreter_Provider := "stripe";
|}.

Section Day.
#[local] Existing Instance sample_unicode.
#[local] Existing Instance day_interpreter.
#[local] Existing Instance sample_postgres.
#[local] Instance day_float : FloatConversion := fun z => z.
#[local] Existing Instance sample_verifier.
#[local] Existing Instance sql_gorm.
#[local] Existing Instance sql_gorm_documented.
#[local] Existing Instance demo_catalog.
#[local] Existing Instance sample_urls.

Definition day_start : DB := empty_db 10.
Definition day_order : DB :=
  st_db (OrderApp.Create (sample_order_service "ord_00000000000000000000000000000001") sample_order_input
           (mkStore day_start None [], [])).2.1.
Definition day_checkout : DB :=
  st_db (checkout_call sample_checkout (mkStore day_order None [], [], [])).2.1.1.
Definition day_receive : DB :=
  st_db (Receive.Receive sample_receiver sample_input 0 (mkStore day_checkout None [])).2.
Definition day_relay : DB :=
  st_db (@runOnce _ (broker_publisher confirming_broker) _ _ sample_relay sample_env (mkStore day_receive None [], 0%nat)).2.1.
Definition day_end : DB :=
  st_db (answer_world (handle (Consumer.NewService (Consumer.mkConfig 5) []) "evt_2" (mkStore day_relay None []))).

Lemma day_received : rtc step day_start day_receive.
Proof.
  eapply rtc_l; [by apply (step_order _ _ (sample_order_service "ord_00000000000000000000000000000001") sample_order_input [] [])|].
  eapply rtc_l; [by apply (step_checkout _ _ _ sample_provider sample_checkout sample_request 3 [] [] [])|].
  apply rtc_once. by apply (step_receive _ _ sample_receiver sample_input 0 []).
Qed.

Lemma day_relayed : rtc step day_start day_relay.
Proof.
  etrans; [apply day_received|].
  apply rtc_once. by apply (step_relay _ _ _ confirming_broker sample_relay sample_env [] 0%nat).
Qed.

Lemma day_steps : rtc step day_start day_end.
Proof.
  etrans; [apply day_relayed|].
  apply rtc_once. by apply (step_handle _ _ (Consumer.NewService (Consumer.mkConfig 5) []) "evt_2" []).
Qed.

End Day.

Definition day_paid : OrderRow :=
  mkOrderRow "ord_00000000000000000000000000000001" "paid" 20000 "BRL" "product_demo" 2 "key-o" 20 10.

(** The account of an order: pending or paid, paid exactly when one of its
    payments was charged, for its own amount, and only that one. *)
Definition account (d : DB) (oid : string) (o : OrderRow) : Prop :=
  (OrderRow_Status o = Orders.StatusPending \/ OrderRow_Status o = Orders.StatusPaid) /\
  (OrderRow_Status o = Orders.StatusPaid <->
   exists pid p, payments d !! pid = Some p /\ PaymentRow_OrderID p = oid /\ charged (PaymentRow_Status p) = true) /\
  forall pid p, payments d !! pid = Some p -> PaymentRow_OrderID p = oid -> charged (PaymentRow_Status p) = true ->
    PaymentRow_Amount p = OrderRow_Amount o /\ PaymentRow_Currency p = OrderRow_Currency o /\
    forall pid' p', payments d !! pid' = Some p' -> PaymentRow_OrderID p' = oid ->
      charged (PaymentRow_Status p') = true -> pid' = pid.

Lemma sound_accounts d oid o : sound d -> orders d !! oid = Some o -> account d oid o.
Proof.
  intros Hd Ho.
  split; [by apply (sound_status _ Hd _ _ Ho)|]. split; [split|].
  - intros Hp. by apply (sound_paid _ Hd _ _ Ho).
  - intros (pid & p & Hp & Hpo & Hc). destruct (sound_charged _ Hd _ _ Hp Hc) as (o' & Ho' & Hpaid). rewrite Hpo in Ho'. by assert (o' = o) as -> by congruence.
  - intros pid p Hp Hpo Hc. destruct (payments_order_fkey _ (sound_schema _ Hd) _ _ Hp) as (o' & Ho' & Ha & Hcur).
    assert (o' = o) as -> by congruence. split_and!; [done..|]. intros pid' p' Hp' Hpo' Hc'.
    eapply (payments_active_unique _ (sound_schema _ Hd)); [exact Hp'|exact Hp|apply holds_order; by left|].
    rewrite holds_order by (by left). congruence.
Qed.

(** ** Properties *)

(** C1: the books always balance. In every database the program can reach from
    the empty one, by any calls of its entry points in any order, with any
    database faults, any broker and provider answers and any lawful sessions
    between the statements of a checkout: an order is pending or paid; it is
    paid exactly when one of its payments was charged; that payment has the
    order's amount and currency and is the only one charged for it. *)
Theorem order_paid_iff_charged `{UnicodeTables} `{Interpreter} `{Postgres} `{FloatConversion} `{Verifier}
    `{Gorm} `{!GormDocumented} `{Catalog} `{UrlParser} (start : Time) (d : DB) (oid : string) (o : OrderRow) :
  honest -> rtc step (empty_db start) d -> orders d !! oid = Some o ->
  (OrderRow_Status o = Orders.StatusPending \/ OrderRow_Status o = Orders.StatusPaid) /\
  (OrderRow_Status o = Orders.StatusPaid <->
   exists pid p, payments d !! pid = Some p /\ PaymentRow_OrderID p = oid /\ charged (PaymentRow_Status p) = true) /\
  forall pid p, payments d !! pid = Some p -> PaymentRow_OrderID p = oid -> charged (PaymentRow_Status p) = true ->
    PaymentRow_Amount p = OrderRow_Amount o /\ PaymentRow_Currency p = OrderRow_Currency o /\
    forall pid' p', payments d !! pid' = Some p' -> PaymentRow_OrderID p' = oid ->
      charged (PaymentRow_Status p') = true -> pid' = pid.
Proof.
  intros Hh Hr Ho. destruct (steps_sound Hh _ _ (sound_empty start) Hr) as [Hd _]. by apply sound_accounts.
Qed.

Lemma order_paid_iff_charged_witness :
  exists pid p, payments day_end !! pid = Some p /\ PaymentRow_OrderID p = "ord_00000000000000000000000000000001" /\
    charged (PaymentRow_Status p) = true.
Proof.
  assert (orders day_end !! "ord_00000000000000000000000000000001" = Some day_paid) as Ho by (vm_compute; reflexivity).
  destruct (@order_paid_iff_charged sample_unicode day_interpreter sample_postgres (fun z => z) sample_verifier
    sql_gorm sql_gorm_documented demo_catalog sample_urls 10 day_end _ day_paid demo_honest day_steps Ho) as (_ & Hiff & _).
  apply Hiff. reflexivity.
Defined.

(** C8: what is durable stays. Once a session ran, nothing the program does later
    takes it back: an order keeps its price, product and key, and stays paid; a
    payment keeps its order and amount, and its status once it is settled; an
    attempt keeps its payment and key, its session once it has one and its
    status once it is settled. This is the very promise that the theorems about
    checkouts among concurrent sessions ask of those sessions. *)
Theorem history_is_kept `{UnicodeTables} `{Interpreter} `{Postgres} `{FloatConversion} `{Verifier}
    `{Gorm} `{!GormDocumented} `{Catalog} `{UrlParser} (start : Time) (d d' : DB) (f : Race) :
  honest -> rtc step (empty_db start) d -> rtc step d d' -> (forall x, sound x -> rtc step x (f x)) ->
  (forall i o, orders d !! i = Some o -> OrderRow_Status o = Orders.StatusPaid ->
     exists o', orders d' !! i = Some o' /\ OrderRow_Status o' = Orders.StatusPaid /\
       OrderRow_Amount o' = OrderRow_Amount o /\ OrderRow_Currency o' = OrderRow_Currency o) /\
  (forall i p, payments d !! i = Some p -> paymentSettled (PaymentRow_Status p) = true ->
     exists p', payments d' !! i = Some p' /\ PaymentRow_Status p' = PaymentRow_Status p /\
       PaymentRow_Amount p' = PaymentRow_Amount p /\ PaymentRow_OrderID p' = PaymentRow_OrderID p) /\
  (forall i a, payment_attempts d !! i = Some a -> AttemptRow_Status a <> AttemptStatusCreated ->
     exists a', payment_attempts d' !! i = Some a' /\ AttemptRow_CheckoutURL a' = AttemptRow_CheckoutURL a /\
       AttemptRow_ProviderSessionID a' = AttemptRow_ProviderSessionID a /\
       (settled_attempt (AttemptRow_Status a) = true -> AttemptRow_Status a' = AttemptRow_Status a)) /\
  extends d d' /\ lawful f.
Proof.
  intros Hh Hr Hr' Hf. destruct (steps_sound Hh _ _ (sound_empty start) Hr) as [Hd _].
  destruct (steps_sound Hh _ _ Hd Hr') as [_ He]. split_and!; [..|done|].
  - intros i o Ho Hp. destruct (extends_orders _ _ He _ _ Ho) as (o' & Ho' & Ha & Hc & _).
    exists o'. split_and!; [done|by eapply extends_paid|done..].
  - intros i p Hp Hs. destruct (extends_payments _ _ He _ _ Hp) as (p' & Hp' & Ho & _ & Ha & _).
    exists p'. split_and!; [done|by eapply extends_settled|done..].
  - intros i a Ha Hs. destruct (extends_attempts _ _ He _ _ Ha) as (a' & Ha' & _ & _ & _ & Hsess & Hset).
    destruct (Hsess Hs) as (_ & ? & ? & _). by exists a'.
  - intros x Hx. exact (steps_sound Hh _ _ Hx (Hf _ Hx)).
Qed.

Lemma history_is_kept_witness :
  orders day_end !! "ord_00000000000000000000000000000001" = Some day_paid /\
  exists o', orders (at_time 99 day_end) !! "ord_00000000000000000000000000000001" = Some o' /\
    OrderRow_Status o' = Orders.StatusPaid /\ OrderRow_Amount o' = 20000 /\ OrderRow_Currency o' = "BRL".
Proof.
  assert (orders day_end !! "ord_00000000000000000000000000000001" = Some day_paid) as Ho by (vm_compute; reflexivity).
  split; [exact Ho|].
  destruct (@history_is_kept sample_unicode day_interpreter sample_postgres (fun z => z) sample_verifier
    sql_gorm sql_gorm_documented demo_catalog sample_urls 10 day_end (at_time 99 day_end) (at_time 5) demo_honest day_steps)
    as (Hk & _).
  - apply rtc_once. apply (step_clock _ _ 99 eq_refl).
  - intros x _. apply rtc_once. apply (step_clock _ _ 5 eq_refl).
  - exact (Hk _ _ Ho eq_refl).
Defined.

(** C15: no accepted event is stranded. In every reachable database an event that
    still waits has exactly one message announcing it, and that message is to be
    published, held by a relay up to a deadline, published, or failed in a way
    [Reprocess] accepts. *)
Theorem waiting_event_has_one_message `{UnicodeTables} `{Interpreter} `{Postgres} `{FloatConversion} `{Verifier}
    `{Gorm} `{!GormDocumented} `{Catalog} `{UrlParser} (start : Time) (d : DB) (id : string) (e : EventRow) :
  honest -> rtc step (empty_db start) d -> webhook_events d !! id = Some e -> EventRow_Status e = StatusPending ->
  exists o, message_for id d o /\ (forall o', message_for id d o' -> o' = o) /\
    (OutboxRow_Status o = MessageStatusPending \/
     (OutboxRow_Status o = "publishing" /\ is_Some (OutboxRow_LockedUntil o) /\ is_Some (OutboxRow_LockedBy o)) \/
     OutboxRow_Status o = MessagePublished \/
     (OutboxRow_Status o = MessageStatusFailed /\ not_replayable (EventRow_Status e) (OutboxRow_Status o) = false)).
Proof.
  intros Hh Hr He Hp. destruct (steps_sound Hh _ _ (sound_empty start) Hr) as [Hd _].
  destruct (sound_queued _ Hd _ _ He Hp) as (i & o & Ho & Hoe). pose proof (sound_schema _ Hd) as Hs.
  assert (message_for id d o) as Hm by (split; [by rewrite (outbox_keyed _ Hs _ _ Ho)|done]).
  exists o. split; [done|]. split; [intros o' Ho'; by eapply message_unique|].
  rewrite Hp. by destruct (outbox_status o (outbox_ok _ Hs _ _ Ho)) as [?|[?|[?| ->]]]; auto.
Qed.

Lemma waiting_event_has_one_message_witness :
  exists o, message_for "evt_2" day_receive o /\ OutboxRow_Status o <> MessageStatusFailed.
Proof.
  assert (exists e, webhook_events day_receive !! "evt_2" = Some e /\ EventRow_Status e = StatusPending) as (e & He & Hp)
    by (eexists; split; vm_compute; reflexivity).
  destruct (@waiting_event_has_one_message sample_unicode day_interpreter sample_postgres (fun z => z) sample_verifier
    sql_gorm sql_gorm_documented demo_catalog sample_urls 10 day_receive "evt_2" e demo_honest day_received He Hp)
    as (o & Hm & _).
  exists o. split; [exact Hm|]. destruct Hm as [Ho _]. revert Ho.
  assert (forall i r, outbox_events day_receive !! i = Some r -> OutboxRow_Status r <> MessageStatusFailed) as Hall
    by (apply map_Forall_to_list; vm_compute; by repeat constructor).
  apply Hall.
Defined.

(** Reading the entry and the aggregate fails for other reasons. *)
Definition other_error (e : error) : Prop := Is e ErrInvariantViolated = false.

Lemma exec_other {A} (stmt : Stmt A) s e s' :
  (forall d e, stmt d = Err e -> other_error e) -> exec stmt s = (Err e, s') -> other_error e.
Proof. intros Hs Ex. eapply (exec_error _ other_error); [exact Ex|done|]. intros e1. apply Hs. Qed.

Lemma select_one_other {A} (rows : DB -> list A) d e : select_one rows d = Err e -> other_error e.
Proof. unfold select_one, scan_one. destruct (rows d); simpl; [by intros [= <-]|done]. Qed.

Lemma lockEntry_other id s e s' : lockEntry id s = (Err e, s') -> other_error e.
Proof.
  unfold lockEntry, gwrap, gbind. destruct (exec (LockWebhookEvent id) s) as [[row|e1] s1] eqn:Ex; simpl; [done|].
  intros [= <- _]. case_match; [done|]. unfold other_error. rewrite Is_wrapf.
  eapply exec_other; [|exact Ex]. intros d e2. apply select_one_other.
Qed.

Lemma lockAggregate_other {S} entry (r : Resolver S) s c e w :
  (forall e c', r entry c = (Err e, c') -> other_error e) ->
  lockAggregate entry r (s, c) = (Err e, w) -> other_error e.
Proof.
  intros Hr. unfold lockAggregate, gbind. simpl. destruct (r entry c) as [[ref|e1] c1] eqn:Er.
  - unfold gwrap, gbind. simpl. destruct (exec _ s) as [[row|e1] s1] eqn:Ex; simpl; [done|].
    intros [= <- _]. case_match; [done|]. unfold other_error. rewrite Is_wrapf.
    eapply exec_other; [|exact Ex]. intros d e2. apply select_one_other.
  - intros [= <- _]. by eapply Hr.
Qed.

Lemma decideEffect_other `{UnicodeTables} outcome agg provider e :
  decideEffect outcome agg provider = Err e -> other_error e.
Proof. unfold decideEffect. cbv zeta. repeat case_match; try done; by intros [= <-]. Qed.

Lemma settled_other id agg eff s e s' :
  (forall e s', applyEffect agg eff s = (Err e, s') -> other_error e) ->
  (let! applied := applyEffect agg eff in
   let! _ := gwrap (wrapf "mark webhook event processed")
               (exec (MarkWebhookEventProcessed id (nullableText (Effect_Note eff)))) in
   let! _ := gwrap (wrapf "commit consumer transaction") Commit in
   gret (Consumer.mkResult applied (Effect_Note eff))) s = (Err e, s') -> other_error e.
Proof.
  intros Ha. unfold gbind at 1. destruct (applyEffect agg eff s) as [[b|e1] s1]; [|intros [= <- <-]; by eapply Ha].
  unfold gbind at 1, gwrap at 1. destruct (exec _ s1) as [[n|e1] s2] eqn:E2; simpl.
  2:{ intros [= <- <-]. unfold other_error. rewrite Is_wrapf. eapply exec_other; [|exact E2].
      intros d e2 Hw%with_foreign. by apply update_table_error in Hw as [text ->]. }
  unfold gbind, gwrap. destruct (Commit s2) as [[[]|e1] s3] eqn:E3; simpl; [done|].
  intros [= <- <-]. unfold other_error. rewrite Is_wrapf. apply Commit_error in E3 as [text ->]. done.
Qed.

Lemma process_in_tx_other `{UnicodeTables} `{Interpreter} id s c e w :
  sound (st_db s) -> (forall ev e, Interpret ev = Err e -> other_error e) ->
  process_in_tx id resolve decider (s, c) = (Err e, w) -> other_error e.
Proof.
  intros Hd Hi. unfold process_in_tx, gbind at 1. simpl.
  destruct (lockEntry id s) as [[entry|e1] s1] eqn:E1; [|intros [= <- _]; by eapply lockEntry_other].
  apply lockEntry_Ok in E1 as (row & Hrow & -> & Hd1); [|apply Hd]. rewrite <- Hd1 in Hd.
  destruct (_ =s? _); [done|].
  unfold gbind at 1. destruct (lockAggregate _ resolve (s1, c)) as [[agg|e1] [s2 c2]] eqn:E2.
  2:{ intros [= <- _]. eapply lockAggregate_other; [|exact E2]. intros e2 c'. unfold resolve.
      case_match; [by intros [= <- _]|]. destruct (Interpret _) as [?|e3] eqn:Ei; [done|]. intros [= <- _]. by eapply Hi. }
  apply lockAggregate_Ok in E2 as (Hd2 & ref & a & p & o & _ & Hat & _); [|apply Hd]. rewrite <- Hd2 in Hat, Hd.
  unfold gbind at 1. destruct (on_captured _ (s2, c2)) as [[eff|e1] w1] eqn:E3;
    apply on_captured_inv in E3 as (c3 & E3 & ->).
  2:{ intros [= <- _]. unfold decider in E3. destruct (decideEffect _ _ _) as [|e2] eqn:Ed; [done|].
      injection E3 as <- _. by eapply decideEffect_other. }
  apply decider_Ok in E3. intros (s4 & E4 & _)%on_store_inv. eapply settled_other; [|exact E4].
  intros e1 s' Ha. eapply applyEffect_approved; [apply Hd|exact Hat|exact E3| |reflexivity|exact Ha].
  by eapply paying_order_pending.
Qed.

(** C14: an approved transition always finds its rows. Whatever reachable database
    an event is processed in, and whatever faults occur, the consumer never
    reports [ErrInvariantViolated]: the guards of the three update statements
    admit every move the matrix approves, because an unsettled payment belongs
    to an order nothing else paid. *)
Theorem approved_transition_finds_its_rows `{UnicodeTables} `{Interpreter} `{Postgres} `{FloatConversion} `{Verifier}
    `{Gorm} `{!GormDocumented} `{Catalog} `{UrlParser} (start : Time) (s : Store) (id : string) (e : error) w :
  honest -> (forall ev e, Interpret ev = Err e -> Is e ErrInvariantViolated = false) ->
  rtc step (empty_db start) (st_db s) ->
  EventRepository_Process id resolve decider (s, captured_zero) = (Err e, w) ->
  Is e ErrInvariantViolated = false.
Proof.
  intros Hh Hi Hr. destruct (steps_sound Hh _ _ (sound_empty start) Hr) as [Hd _].
  unfold EventRepository_Process, gbind at 1. simpl. unfold gwrap.
  destruct (BeginTx s) as [[[]|e1] s1] eqn:EB; simpl.
  - destruct w as [s' c']. intros (s2 & c2 & Hb & _)%deferring_rollback_inv. eapply process_in_tx_other; [|exact Hi|exact Hb].
    by rewrite (BeginTx_db _ _ _ EB).
  - intros [= <- _]. rewrite Is_wrapf. by apply BeginTx_error in EB as [text ->].
Qed.

(** The first guarded write of the day's event fails. *)
Definition day_fault : Store := mkStore day_relay None [Fine; Fine; Fine; Fails "timeout"].

Lemma approved_transition_finds_its_rows_witness :
  exists e w, EventRepository_Process "evt_2" (@resolve day_interpreter) (@decider sample_unicode day_interpreter)
      (day_fault, captured_zero) = (Err e, w) /\ Is e ErrInvariantViolated = false.
Proof.
  assert (match (EventRepository_Process "evt_2" (@resolve day_interpreter) (@decider sample_unicode day_interpreter)
      (day_fault, captured_zero)).1 with Err _ => true | Ok _ => false end = true) as Hc by (vm_compute; reflexivity).
  destruct (EventRepository_Process _ _ _ _) as [[r|e] w] eqn:E; [discriminate Hc|].
  exists e, w. split; [reflexivity|].
  exact (@approved_transition_finds_its_rows sample_unicode day_interpreter sample_postgres (fun z => z) sample_verifier
    sql_gorm sql_gorm_documented demo_catalog sample_urls 10 day_fault "evt_2" e w demo_honest
    (fun ev e He => match He with eq_refl => I end) day_relayed E).
Defined.
