(* ===== verification/Serving.v ===== *)
(** * The API process: [internal/runtime/api]

    [Run] composed: which use case stands behind which operation, on one
    database and one payment provider, and what a loaded configuration makes of
    the server. The first part carries any reflexive and transitive relation of
    the worlds from the ports through the handlers, the middlewares and the
    mux. *)

From S2P Require Import Prelude GoLib JsonText Netip Wire Openapi Ratelimit ClientIP Http Handlers Samples.
From S2P Require Api.
From S2P Require Orders.
From S2P Require Payments.
From S2P Require Webhooks.
From S2P Require Config.
From S2P Require Auth.
From S2P Require Health.
From S2P Require Store.
From S2P Require Gorm.
From S2P Require Checkout.
From S2P Require CheckoutRepo.
From S2P Require Pipeline.
From S2P Require Metrics.
From S2P Require OrderApp.
From S2P Require CheckoutApp.
From S2P Require Receive.
From S2P Require WebhookRepo.
From S2P Require EventRepo.
From S2P Require Consumer.
From S2P Require Stripe.
From S2P Require Replay.
Import Openapi.

#[local] Arguments Returned {S A}.
#[local] Arguments Panicked {S A}.

(** ** What a request does to the world *)

Section Moves.
Context {W : Type} (R : W -> W -> Prop) `{!PreOrder R} `{FloatConversion}.
Implicit Types (s : Server W) (next : Handler' (Server W)).

Definition moved {A} (m : M W A) : Prop := forall w, R w (m w).2.

Definition moving (h : Handler' (Server W)) : Prop :=
  forall r w s, R (world s) (world (served_state (h r w s))).

Definition moved_to s (served : Served' (Server W)) : Prop := R (world s) (world (served_state served)).

Lemma moved_same s s' w : world s' = world s -> moved_to s (done_with w s').
Proof. unfold moved_to. cbn [served_state done_with]. by intros ->. Qed.

Lemma moved_quiet s s' served : world s' = world s -> moved_to s' served -> moved_to s served.
Proof. unfold moved_to. by intros ->. Qed.

Lemma moving_correlation next : moving next -> moving (correlationMiddleware next).
Proof. intros Hn r w s. unfold correlationMiddleware. apply Hn. Qed.

Lemma moving_security next : moving next -> moving (securityHeadersMiddleware next).
Proof. intros Hn r w s. apply Hn. Qed.

Lemma moving_address resolver next : moving next -> moving (clientAddressMiddleware resolver next).
Proof. intros Hn r w s. unfold clientAddressMiddleware. case_match; apply Hn. Qed.

Lemma moving_limit next : moving next -> moving (clientRateLimitMiddleware next).
Proof.
  intros Hn r w s. unfold clientRateLimitMiddleware. destruct (limiters s) as [l|]; [|by apply Hn].
  assert (forall o, moved_to s (refuse_or next r w s o)) as Ho.
  { intros [[d l'] told]. unfold refuse_or. apply (moved_quiet _ (with_limiters s l' told)); [done|].
    destruct (negb (Allowed d)); [by apply moved_same | by apply Hn]. }
  repeat case_match; apply Ho || apply Hn.
Qed.

Lemma moving_access next : moving next -> moving (accessLogMiddleware next).
Proof. intros Hn r w s. unfold accessLogMiddleware. pose proof (Hn r w s). by destruct (served_panic _). Qed.

Lemma moving_recovery next : moving next -> moving (recoveryMiddleware next).
Proof. intros Hn r w s. unfold recoveryMiddleware. pose proof (Hn r w s). by destruct (served_panic _). Qed.

Lemma moving_body next : moving next -> moving (bodyLimitMiddleware next).
Proof. intros Hn r w s. unfold bodyLimitMiddleware. case_match; apply Hn. Qed.

Lemma moving_mux (mux : Mux Payload (Server W)) : (forall p h, (p, h) ∈ mux -> moving h) -> moving (ServeHTTP mux).
Proof.
  intros Hm r w s. unfold ServeHTTP. case_match; [by apply moved_same|].
  destruct (List.find _ mux) as [[p h]|] eqn:E; [|case_match; by apply moved_same].
  apply find_some in E as [Hin _]. apply list_elem_of_In in Hin. apply (Hm _ _ Hin).
Qed.

Lemma moving_server trusted mux : (forall p h, (p, h) ∈ mux -> moving h) -> moving (newServer trusted mux).
Proof.
  intros Hm. unfold newServer.
  apply moving_correlation, moving_security, moving_address, moving_limit, moving_access, moving_recovery, moving_body.
  by apply moving_mux.
Qed.

Lemma moved_request_error r w s err : moved_to s (requestErrorHandler r w s err).
Proof. unfold requestErrorHandler. case_match; by apply moved_same. Qed.

Lemma moved_response_error r w s err : moved_to s (responseErrorHandler r w s err).
Proof. unfold responseErrorHandler. repeat case_match; by apply moved_same. Qed.

Definition moved_call {A} s (c : Openapi.Call (Server W) A) : Prop :=
  match c with Returned _ s' | Panicked _ s' => R (world s) (world s') end.

Lemma moving_strict_answer {A} apiHandler verifier op (call : Request -> Server W -> Openapi.Call (Server W) A)
    (inject : A -> AnyResponse) (as_own : AnyResponse -> option A) visit :
  (forall r s, moved_call s (call r s)) ->
  moving (strict_answer (mkStrictHandler apiHandler [apiKeyAuthenticationMiddleware verifier; operationRateLimitMiddleware]
            requestErrorHandler responseErrorHandler) op (fun r s => answer_as inject (call r s)) as_own visit).
Proof.
  intros Hc r w s. unfold strict_answer. cbn [fold_left middlewares ResponseErrorHandlerFunc].
  set (handler := fun r s => answer_as inject (call r s)).
  assert (forall s', world s' = world s -> moved_to s
    match handler r s' with
    | Panicked text s => mkServed w s (Some text)
    | Returned (Err err) s => responseErrorHandler r w s err
    | Returned (Ok response) s =>
        match as_own response with
        | Some own => match visit own w with
                      | (w, None) => done_with w s
                      | (w, Some err) => responseErrorHandler r w s err
                      end
        | None => responseErrorHandler r w s (ErrNew "unexpected response type")
        end
    end) as Hh.
  { intros s' Es. specialize (Hc r s'). unfold handler, moved_to. rewrite <- Es.
    destruct (call r s') as [[a|err] s2|text s2]; cbn [answer_as moved_call] in *; [| |exact Hc];
      (etrans; [exact Hc|]); [|apply moved_response_error].
    repeat case_match; first [apply moved_response_error | by apply moved_same]. }
  assert (forall s' err, world s' = world s -> moved_to s (responseErrorHandler r w s' err)) as He.
  { intros s' err Es. apply (moved_quiet _ s'); [done | apply moved_response_error]. }
  unfold operationRateLimitMiddleware, apiKeyAuthenticationMiddleware.
  repeat match goal with
  | |- context [limiters s] => destruct (limiters s) as [l|]
  | |- context [allowCredential ?l ?n ?c ?k] => destruct (allowCredential l n c k) as [[d l'] told]
  | |- context [if ?b then _ else _] => destruct b
  | |- context [match verifier with _ => _ end] => destruct verifier as [valid|]
  end; first [by apply Hh | by apply He].
Qed.

Lemma moved_bind_header `{Runtime} siw r w s name k : ErrorHandlerFunc siw = requestErrorHandler ->
  (forall v, moved_to s (k v)) -> moved_to s (bind_header siw r w s name k).
Proof. intros He Hk. unfold bind_header. rewrite He. repeat case_match; apply Hk || apply moved_request_error. Qed.

Lemma moved_required `{Runtime} siw r w s name k : ErrorHandlerFunc siw = requestErrorHandler ->
  (forall v, moved_to s (k v)) -> moved_to s (bind_required_header siw r w s name k).
Proof. intros He Hk. apply moved_bind_header; [done|]. intros [v|]; [apply Hk|]. rewrite He. apply moved_request_error. Qed.

Lemma moved_bind_path `{Runtime} siw r w s name k : ErrorHandlerFunc siw = requestErrorHandler ->
  (forall v, moved_to s (k v)) -> moved_to s (bind_path siw r w s name k).
Proof. intros He Hk. unfold bind_path. rewrite He. case_match; apply Hk || apply moved_request_error. Qed.

Lemma moved_bind_query `{Runtime} siw r w s {A} name (bound : option A + BindError) k :
  ErrorHandlerFunc siw = requestErrorHandler -> (forall v, moved_to s (k v)) -> moved_to s (bind_query siw r w s name bound k).
Proof. intros He Hk. unfold bind_query. rewrite He. repeat case_match; apply Hk || apply moved_request_error. Qed.

(** The ports keep the relation. *)
Record ports_move (h : APIHandler W) : Prop := {
  pm_create : forall o ctx i, orders h = Some o -> moved (Creator_Create o ctx i);
  pm_get : forall o ctx id, orders h = Some o -> moved (Creator_Get o ctx id);
  pm_checkout : forall c ctx i, checkouts h = Some c -> moved (c ctx i);
  pm_receive : forall c ctx i, webhooks h = Some c -> moved (c ctx i);
  pm_list : forall o ctx st n, operations h = Some o -> moved (Operations_List o ctx st n);
  pm_reprocess : forall o ctx id, operations h = Some o -> moved (Operations_Reprocess o ctx id)
}.

Lemma on_world_moves {A} (m : M W A) s a s' : moved m -> on_world m s = (a, s') -> R (world s) (world s').
Proof. intros Hm. unfold on_world. specialize (Hm (world s)). destruct (m (world s)). by intros [= _ <-]. Qed.

Section Operations.
Variables (h : APIHandler W).
Hypothesis Hh : ports_move h.

Ltac move_port :=
  cbn [moved_call];
  repeat match goal with
  | |- context [on_world ?m ?s] => let E := fresh "E" in destruct (on_world m s) as [? ?] eqn:E; apply on_world_moves in E
  | |- context [match ?x with _ => _ end] => destruct x eqn:?
  end; cbn [moved_call]; try done; eauto using pm_create, pm_get, pm_checkout, pm_receive, pm_list, pm_reprocess.

Lemma moved_GetHealth r s : moved_call s (GetHealth h r s).
Proof. unfold GetHealth, answer. move_port. Qed.

Lemma moved_CreateOrder q r s : moved_call s (CreateOrder h r q s).
Proof. unfold CreateOrder, createOrderError, answer, failure. move_port. Qed.

Lemma moved_GetOrder q r s : moved_call s (GetOrder h r q s).
Proof. unfold GetOrder, answer, failure. move_port. Qed.

Lemma moved_CreateCheckout q r s : moved_call s (CreateCheckout h r q s).
Proof. unfold CreateCheckout, createCheckoutError, answer, failure. cbv zeta. move_port. Qed.

Lemma moved_ListWebhookEvents q r s : moved_call s (ListWebhookEvents h r q s).
Proof. unfold ListWebhookEvents, answer, failure. cbv zeta. move_port. Qed.

Lemma moved_ReprocessWebhookEvent q r s : moved_call s (ReprocessWebhookEvent h r q s).
Proof. unfold ReprocessWebhookEvent, answer, failure. move_port. Qed.

Lemma moved_ReceiveStripeWebhook q r s : moved_call s (ReceiveStripeWebhook h r q s).
Proof. unfold ReceiveStripeWebhook, answer, failure. move_port. Qed.

Lemma moving_routes `{Runtime} `{UnicodeTables} `{JsonErrors} valid p hd :
  (p, hd) ∈ Api.api_routes (strict_interface h) valid -> moving hd.
Proof.
  unfold Api.api_routes, HandlerWithOptions. rewrite !elem_of_cons, elem_of_nil.
  intros [[= _ ->]|[[= _ ->]|[[= _ ->]|[[= _ ->]|[[= _ ->]|[[= _ ->]|[[= _ ->]|[]]]]]]]]; intros r w s.
  - apply (moving_strict_answer _ _ _ (fun r s => GetHealth h r s) RGetHealth). intros. apply moved_GetHealth.
  - apply moved_required; [done|]. intros key. unfold through. cbn [fold_left HandlerMiddlewares Wrapped].
    cbn [SI_CreateOrder newStrictHandler NewStrictHandlerWithOptions]. unfold Strict_CreateOrder.
    destruct (Decode _ _ _) as [body [err|]]; [apply moved_request_error|].
    apply (moving_strict_answer _ _ _ (fun r s => CreateOrder h r _ s) RCreateOrder). intros. apply moved_CreateOrder.
  - apply moved_bind_path; [done|]. intros id.
    apply (moving_strict_answer _ _ _ (fun r s => GetOrder h r _ s) RGetOrder). intros. apply moved_GetOrder.
  - apply moved_bind_path; [done|]. intros id. apply moved_required; [done|]. intros key.
    unfold through. cbn [fold_left HandlerMiddlewares Wrapped SI_CreateCheckout newStrictHandler NewStrictHandlerWithOptions].
    unfold Strict_CreateCheckout.
    apply (moving_strict_answer _ _ _ (fun r s => CreateCheckout h r _ s) RCreateCheckout). intros. apply moved_CreateCheckout.
  - apply moved_bind_query; [done|]. intros st. apply moved_bind_query; [done|]. intros n.
    apply (moving_strict_answer _ _ _ (fun r s => ListWebhookEvents h r _ s) RListWebhookEvents).
    intros. apply moved_ListWebhookEvents.
  - apply moved_bind_path; [done|]. intros id.
    apply (moving_strict_answer _ _ _ (fun r s => ReprocessWebhookEvent h r _ s) RReprocessWebhookEvent).
    intros. apply moved_ReprocessWebhookEvent.
  - apply moved_bind_header; [done|]. intros sig.
    apply (moving_strict_answer _ _ _ (fun r' s => ReceiveStripeWebhook h r' _ s) RReceiveStripeWebhook).
    intros. apply moved_ReceiveStripeWebhook.
Qed.

Lemma moving_docs mode valid page hashes document p hd : moving page ->
  (p, hd) ∈ registerDocs (W := W) mode valid page hashes document -> moving hd.
Proof.
  intros Hp Hin r w s. unfold registerDocs in Hin.
  assert (forall d, ui d = page -> moved_to s (docs_ServeHTTP d r w s)) as Hd.
  { intros d Hu. unfold docs_ServeHTTP. rewrite Hu.
    repeat match goal with |- context [if ?b then _ else _] => destruct b end; first [by apply moved_same | apply Hp]. }
  destruct mode; [by apply not_elem_of_nil in Hin| |]; rewrite !elem_of_cons, elem_of_nil in Hin;
    destruct Hin as [[= _ ->]|[[= _ ->]|[[= _ ->]|[]]]]; by apply Hd.
Qed.

Lemma moving_api `{Runtime} `{UnicodeTables} `{JsonErrors} cfg valid fingerprinter observer page hashes document w handler s0 :
  moving page ->
  NewWithRateLimits cfg (strict_interface h) (Some valid) fingerprinter observer page hashes document w = Ok (handler, s0) ->
  moving handler /\ world s0 = w.
Proof.
  intros Hp HN. unfold NewWithRateLimits in HN. destruct (newRateLimiters _ _ _); [|done]. injection HN as <- <-.
  split; [|done].
  assert (moving (newServer (TrustedProxies cfg) (Api.api_routes (strict_interface h) valid ++
    registerDocs (Docs cfg) (Some valid) page hashes document))) as Hm; [|exact Hm].
  apply moving_server. intros p hd [Hin|Hin]%elem_of_app; [by eapply moving_routes | by eapply moving_docs].
Qed.
End Operations.
End Moves.

(** ** [api.go]: the ports *)

Definition ServiceName : string := "payments-api".
Definition DefaultAddress : string := ":8080".

(** What one call of a use case meets: faults of the database, what other
    sessions commit between its statements, the clock, the entropy of its
    identifiers, the time it takes. *)
Record Circumstance := mkCircumstance {
  c_faults : list Store.fault;
  c_races : list Gorm.Race;
  c_now : Time;
  c_later : Time;
  c_first : res (list Z);
  c_second : res (list Z);
  c_elapsed : Duration
}.
Definition calm_call : Circumstance := mkCircumstance [] [] 0 0 (Ok []) (Ok []) 0.

(** The database, the provider's side, the calls to come, and what the
    observers have been told. *)
Record ApiWorld (B : Type) := mkApiWorld {
  api_db : Store.DB;
  api_provider : B;
  api_calls : list Circumstance;
  api_events : list Metrics.event
}.
Arguments mkApiWorld {B}.
Arguments api_db {B}.
Arguments api_provider {B}.
Arguments api_calls {B}.
Arguments api_events {B}.

Section Ports.
Context {B : Type}.

(** A use case runs on a connection of its own. *)
Definition with_call {A} (use : Circumstance -> Store.DB -> B -> res A * list Metrics.event * Store.DB * B)
    : M (ApiWorld B) A := fun w =>
  let c := default calm_call (head (api_calls w)) in
  let '(out, events, d, b) := use c (api_db w) (api_provider w) in
  (out, mkApiWorld d b (tail (api_calls w)) (api_events w ++ events)).

Definition store_of (c : Circumstance) (d : Store.DB) : Store.Store := Store.mkStore d None (c_faults c).

Context `{Gorm.Gorm} `{OrderApp.Catalog} `{UrlParser} `{Queries.Postgres}.
Variables (create : CheckoutApp.ProviderRequest -> M B Payments.Session) (verifier : Receive.Verifier).

Definition orderService : OrderCreator (ApiWorld B) := mkOrderCreator _
  (fun _ i => with_call (fun c d b =>
     let s := OrderApp.NewService (c_now c) (c_first c) [OrderApp.WithObserver] in
     let '(out, log, w) := @OrderApp.Create _ _ CheckoutRepo.OrderRepository s i (store_of c d, c_races c) in
     (out, Metrics.OrderEvent <$> log, Store.st_db w.1, b)))
  (fun _ id => with_call (fun c d b =>
     let '(out, w) := @OrderApp.Get _ CheckoutRepo.OrderRepository id (store_of c d, []) in
     (out, [], Store.st_db w.1, b))).

Definition checkoutService : CheckoutCreator (ApiWorld B) := fun _ i => with_call (fun c d b =>
  let s := CheckoutApp.NewService (c_now c) (c_later c) (c_first c) (c_second c) [CheckoutApp.WithObserver] in
  let '(out, log, w) := @CheckoutApp.CreateCheckout _ Checkout.world_orders Checkout.world_payments
                          (Checkout.world_provider create) _ s i (c_elapsed c) (store_of c d, c_races c, b) in
  (out, Metrics.CheckoutEvent <$> log, Store.st_db w.1.1, w.2)).

Definition webhookService : WebhookReceiver (ApiWorld B) := fun _ i => with_call (fun c d b =>
  let s := Receive.NewService (c_now c) (c_first c) (c_second c) [Receive.WithObserver] in
  let '(out, log, w) := @Receive.Receive _ verifier WebhookRepo.WebhookRepository s i (c_elapsed c) (store_of c d) in
  (out, Metrics.WebhookEvent <$> log, Store.st_db w, b)).

Definition operationsService : WebhookOperations (ApiWorld B) := mkWebhookOperations _
  (fun _ status limit => with_call (fun c d b =>
     let '(out, w) := @Receive.List _ WebhookRepo.WebhookInspection status limit (store_of c d) in (out, [], Store.st_db w, b)))
  (fun _ id => with_call (fun c d b =>
     let '(out, w) := @Receive.Reprocess _ WebhookRepo.WebhookInspection id (store_of c d) in (out, [], Store.st_db w, b))).

(** [ping] is the answer of the database's own check. *)
Definition apiHandler (name version : string) (ping : Health.Checker (ApiWorld B)) : APIHandler (ApiWorld B) :=
  NewAPIHandler (Health.New name version {["postgres" := ping]}) (Some orderService) (Some checkoutService)
    (Some webhookService) [Some operationsService].
End Ports.

(** ** [api.go]: the composition *)

(** The ports a caller may substitute; the listener and the logger are left
    out. *)
Record Options (B : Type) := mkOptions {
  PaymentProvider : option (CheckoutApp.ProviderRequest -> M B Payments.Session);
  WebhookVerifier : option Receive.Verifier
}.
Arguments mkOptions {B}.
Arguments PaymentProvider {B}.
Arguments WebhookVerifier {B}.

Definition rateLimitConfig (policy : Config.RateLimitPolicy) : RateLimitConfig :=
  mkRateLimitConfig (Config.Enabled policy)
    (mkPolicy (Config.ClientBurst policy) (Config.ClientInterval policy)) (Config.ClientCapacity policy)
    (mkPolicy (Config.CredentialBurst policy) (Config.CredentialInterval policy)) (Config.CredentialCapacity policy)
    (mkPolicy (Config.WebhookBurst policy) (Config.WebhookInterval policy))
    (mkPolicy (Config.HealthBurst policy) (Config.HealthInterval policy)) (Config.HealthCapacity policy)
    (Config.IdleTTL policy).

Definition validateStripeConfiguration `{UrlParser} {B} (cfg : Config.Config) (opts : Options B) : option error :=
  let checkout := match PaymentProvider opts with None => Config.ValidateStripeCheckout cfg | Some _ => None end in
  let webhook := match WebhookVerifier opts with None => Config.ValidateStripeWebhook cfg | Some _ => None end in
  match checkout, webhook with
  | Some err, _ => Some (wrapf "configure Stripe checkout" err)
  | None, Some err => Some (wrapf "configure Stripe webhook" err)
  | None, None => None
  end.

Section Run.
Context {B : Type} `{Gorm.Gorm} `{UrlParser} `{Queries.Postgres}.
Context `{UnicodeTables} `{JsonErrors} `{Runtime} `{FloatConversion} `{Auth.Hmac}.
Context `{Stripe.StripeSDK} `{Stripe.SessionCreator B}.

(** [catalog.Demo()]. *)
#[local] Existing Instance Checkout.demo_catalog.

Definition provider_of (cfg : Config.Config) (opts : Options B) : CheckoutApp.ProviderRequest -> M B Payments.Session :=
  match PaymentProvider opts with
  | Some provider => provider
  | None => Stripe.CreateCheckout (Stripe.mkCheckoutAdapter (Config.StripeSuccessURL cfg) (Config.StripeCancelURL cfg))
  end.

Definition verifier_of (cfg : Config.Config) (opts : Options B) : Receive.Verifier :=
  match WebhookVerifier opts with
  | Some verifier => verifier
  | None => Stripe.stripe_verifier (Config.StripeWebhookSecret cfg)
  end.

Definition server_config (cfg : Config.Config) : Config :=
  mkConfig (DocsModeFor (Config.DocsEnabled cfg) (Config.IsDevelopment cfg)) (Config.TrustedProxies cfg)
    (rateLimitConfig (Config.Config_RateLimitPolicy cfg)).

Definition handler_of (cfg : Config.Config) (opts : Options B) (version : string) (ping : Health.Checker (ApiWorld B))
    : APIHandler (ApiWorld B) :=
  apiHandler (provider_of cfg opts) (verifier_of cfg opts) (Config.ServiceName cfg) version ping.

(** The server with its two roles of the verifier. *)
Definition server_of (cfg : Config.Config) (opts : Options B) (apiKeyVerifier : Auth.APIKeyVerifier)
    (version : string) (ping : Health.Checker (ApiWorld B)) (page : HandlerFunc (W := ApiWorld B))
    (hashes : option (list string)) (document : string) (w : ApiWorld B)
    : res (HandlerFunc (W := ApiWorld B) * Server (ApiWorld B)) :=
  res_wrap (wrapf "configure rate limiting")
    (NewWithRateLimits (server_config cfg) (strict_interface (handler_of cfg opts version ping))
       (Some (Auth.Valid (Some apiKeyVerifier))) (Some (Auth.Fingerprint apiKeyVerifier)) true page hashes document w).

(** [Run] up to the server it starts. [random] fills the secret of the key
    verifier; [started] is the first error of what is opened on the way: the
    logger, telemetry, the instruments, the database and its pool metrics. *)
Definition Run (cfg : Config.Config) (opts : Options B) (random : res (list Z)) (started : option error)
    (version : string) (ping : Health.Checker (ApiWorld B)) (page : HandlerFunc (W := ApiWorld B))
    (hashes : option (list string)) (document : string) (w : ApiWorld B)
    : res (HandlerFunc (W := ApiWorld B) * Server (ApiWorld B)) :=
  try apiKeyVerifier := res_wrap (wrapf "configure integration authentication")
    (Auth.NewAPIKeyVerifier random (Config.IntegrationAPIKeys cfg)) in
  match validateStripeConfiguration cfg opts with
  | Some err => Err err
  | None =>
  match started with
  | Some err => Err err
  | None => server_of cfg opts apiKeyVerifier version ping page hashes document w
  end end.

(** Requests served one after another. *)
Fixpoint serve_all (handler : HandlerFunc (W := ApiWorld B)) (requests : list Request) (s : Server (ApiWorld B))
    : list (Served' (Server (ApiWorld B))) * Server (ApiWorld B) :=
  match requests with
  | [] => ([], s)
  | r :: requests =>
      let served := handler r (mkWriter ∅ None []) s in
      let '(answers, s) := serve_all handler requests (served_state served) in (served :: answers, s)
  end.
End Run.

(** ** Lemmas: the ports are steps of the program *)

(** The races of a call are what other sessions may lawfully commit. *)
Definition lawful_call (c : Circumstance) : Prop := Forall Gorm.lawful (c_races c).

Lemma List_reads `{Queries.Postgres} status limit s :
  Store.st_db (@Receive.List _ WebhookRepo.WebhookInspection status limit s).2 = Store.st_db s.
Proof.
  unfold Receive.List, gfail. destruct (_ && _); [done|]. cbv zeta. destruct (_ || _); [done|].
  cbn [Receive.Inspection_List WebhookRepo.WebhookInspection].
  unfold WebhookRepo.WebhookRepository_List, gbind, gwrap.
  match goal with |- context [Store.exec ?q s] => assert (Store.st_db (Store.exec q s).2 = Store.st_db s) as Hq end.
  { apply Store.exec_reads. intros d a d' [? _]%Replay.ListWebhookEvents_Ok. done. }
  destruct (Store.exec _ s) as [[rows|err] s1]; exact Hq.
Qed.

Lemma Get_reads `{Gorm.Gorm} `{!Gorm.GormDocumented} id s :
  Store.st_db (@OrderApp.Get _ CheckoutRepo.OrderRepository id (s, [])).2.1 = Store.st_db s.
Proof.
  unfold OrderApp.Get, gfail. case_match; [|done]. cbn [OrderApp.Repository_Get CheckoutRepo.OrderRepository].
  unfold CheckoutRepo.OrderRepository_Get, gbind, gwrap, gret. cbn [Gorm.run].
  match goal with |- context [Store.exec ?q s] => assert (Store.st_db (Store.exec q s).2 = Store.st_db s) as Hq end.
  { apply Store.exec_reads. intros d row d'. rewrite Gorm.First_Order_sql. unfold Gorm.sql_first.
    destruct (merge_sort _ _) as [|? ?]; [done|]. by intros [= _ <-]. }
  destruct (Store.exec _ s) as [[row|err] s1]; exact Hq.
Qed.

Section Steps.
Context {B : Type} `{Gorm.Gorm} `{!Gorm.GormDocumented} `{OrderApp.Catalog} `{UrlParser} `{Queries.Postgres}.
Context `{UnicodeTables} `{Consumer.Interpreter} `{FloatConversion}.
Variables (create : CheckoutApp.ProviderRequest -> M B Payments.Session) (verifier : Receive.Verifier).
#[local] Existing Instance verifier.
#[local] Existing Instance CheckoutRepo.OrderRepository.
#[local] Existing Instance WebhookRepo.WebhookRepository.
#[local] Existing Instance WebhookRepo.WebhookInspection.

Definition advances (w w' : ApiWorld B) : Prop := Forall lawful_call (api_calls w) ->
  Forall lawful_call (api_calls w') /\ rtc Pipeline.step (api_db w) (api_db w').

#[export] Instance advances_preorder : PreOrder advances.
Proof.
  split.
  - intros w Hw. by split.
  - intros w1 w2 w3 H12 H23 Hw. destruct (H12 Hw) as [Hw2 S12]. destruct (H23 Hw2) as [Hw3 S23].
    split; [done|]. by etrans.
Qed.

Lemma with_call_advances {A} (use : Circumstance -> Store.DB -> B -> res A * list Metrics.event * Store.DB * B) :
  (forall c d b, lawful_call c -> rtc Pipeline.step d (use c d b).1.2) -> moved advances (with_call use).
Proof.
  intros Hu w Hw. unfold with_call.
  assert (lawful_call (default calm_call (head (api_calls w))) /\ Forall lawful_call (tail (api_calls w))) as [Hc Ht].
  { destruct Hw; [split; constructor | by split]. }
  specialize (Hu _ (api_db w) (api_provider w) Hc). by destruct (use _ _ _) as [[[out events] d] b].
Qed.

Lemma api_ports_advance name version ping : ports_move advances (apiHandler create verifier name version ping).
Proof.
  constructor; cbn [apiHandler NewAPIHandler orders checkouts webhooks operations head default]; intros ? ? * [= <-];
    apply with_call_advances; intros c d b Hc; cbv zeta.
  - apply rtc_once, (Pipeline.step_order _ _ (OrderApp.NewService (c_now c) (c_first c) [OrderApp.WithObserver]) i
      (c_faults c) (c_races c) Hc). unfold store_of. by destruct (OrderApp.Create _ _ _) as [[? ?] ?].
  - pose proof (Get_reads id (store_of c d)) as E. destruct (OrderApp.Get _ _) as [out w']. cbn [fst snd] in *.
    rewrite E. apply rtc_refl.
  - apply rtc_once, (Pipeline.step_checkout _ _ B create
      (CheckoutApp.NewService (c_now c) (c_later c) (c_first c) (c_second c) [CheckoutApp.WithObserver]) i
      (c_elapsed c) (c_faults c) (c_races c) b Hc). unfold store_of. by destruct (CheckoutApp.CreateCheckout _ _ _ _) as [[? ?] [? ?]].
  - apply rtc_once, (Pipeline.step_receive _ _
      (Receive.NewService (c_now c) (c_first c) (c_second c) [Receive.WithObserver]) i (c_elapsed c) (c_faults c)).
    unfold store_of. by destruct (Receive.Receive _ _ _ _) as [[? ?] ?].
  - pose proof (List_reads st n (store_of c d)) as E. destruct (Receive.List _ _ _) as [out w']. cbn [fst snd] in *.
    rewrite E. apply rtc_refl.
  - apply rtc_once, (Pipeline.step_reprocess _ _ id (c_faults c)). unfold store_of. by destruct (Receive.Reprocess _ _) as [? ?].
Qed.
End Steps.

(** ** Lemmas: the composition *)

Lemma New_ok policy opts name : Policy_Validate policy name = None -> 1 <= Options_Capacity opts -> 0 <= Options_TTL opts ->
  exists l, Ratelimit.New policy opts name = Ok l.
Proof.
  intros Hv Hc Ht. unfold Ratelimit.New. rewrite Hv. destruct (Z.ltb_spec (Options_Capacity opts) 1); [lia|].
  destruct (Z.ltb_spec (Options_TTL opts) 0); [lia|]. by eexists.
Qed.

(** A loaded configuration never makes the limiters fail. *)
Lemma limiters_built cfg rabbit f observer : Config.accepted cfg rabbit ->
  exists l, newRateLimiters (rateLimitConfig (Config.Config_RateLimitPolicy cfg)) (Some f) observer = Ok l /\
    (is_Some l <-> Config.RateLimitEnabled cfg = true).
Proof.
  intros Ha. unfold newRateLimiters. change (RL_Enabled _) with (Config.RateLimitEnabled cfg).
  destruct (Config.RateLimitEnabled cfg); cbn [negb]; [|by eexists; split; [|split; [intros []|]]].
  destruct (Config.ac_capacities _ _ Ha) as (C1 & C2 & C3). destruct (Config.ac_ttl _ _ Ha) as [T _].
  pose proof (Config.ac_limits _ _ Ha) as Hl. unfold Config.limits_of in Hl.
  apply Forall_cons in Hl as [L1 Hl]. apply Forall_cons in Hl as [L2 Hl]. apply Forall_cons in Hl as [L3 Hl].
  apply Forall_cons in Hl as [L4 _].
  assert (forall n b i name, Config.sound_limit (Config.mkLimit n b i) -> Policy_Validate (mkPolicy b i) name = None) as Hv.
  { intros n b i name [S1 S2 S3]. apply Policy_Validate_ok. by split_and!. }
  cbv zeta. cbn [rateLimitConfig Config.Config_RateLimitPolicy RL_Client RL_ClientCapacity RL_Credential RL_CredentialCapacity
    RL_Webhook RL_Health RL_HealthCapacity RL_IdleTTL Config.ClientBurst Config.ClientInterval Config.ClientCapacity
    Config.CredentialBurst Config.CredentialInterval Config.CredentialCapacity Config.WebhookBurst Config.WebhookInterval
    Config.HealthBurst Config.HealthInterval Config.HealthCapacity Config.IdleTTL].
  repeat match goal with |- context [Ratelimit.New ?p ?o ?n] =>
    let l := fresh "l" in destruct (New_ok p o n) as [l ->]; [by eapply Hv | done || lia | done | cbn [res_bind]]
  end.
  eexists. split; [done|]. by split.
Qed.

(** A URL the provider can return a customer to. *)
Definition absolute `{UrlParser} (value : string) : Prop :=
  exists u, url_parse value = Some u /\ URL_Host u <> "" /\ (URL_Scheme u = "http" \/ URL_Scheme u = "https").

Lemma validateReturnURL_ok `{UrlParser} name value : Config.validateReturnURL name value = None <-> absolute value.
Proof.
  unfold Config.validateReturnURL, absolute. destruct (url_parse value) as [u|].
  2:{ split; [done | by intros (? & ? & _)]. }
  cbv zeta. destruct (String.eqb_spec (URL_Host u) ""); cbn [orb].
  { split; [done|]. by intros (? & [= <-] & ? & _). }
  destruct (String.eqb_spec (URL_Scheme u) "http"); cbn [negb andb]; [split; [eauto 10 | done]|].
  destruct (String.eqb_spec (URL_Scheme u) "https"); cbn [negb]; [split; [eauto 10 | done]|].
  split; [done|]. by intros (? & [= <-] & _ & [?|?]).
Qed.

(** What the two adapters need, each only when it is not replaced. *)
Record stripe_configured `{UrlParser} {B} (cfg : Config.Config) (opts : Options B) : Prop := {
  sc_checkout : PaymentProvider opts = None ->
    Config.StripeSecretKey cfg <> "" /\ absolute (Config.StripeSuccessURL cfg) /\ absolute (Config.StripeCancelURL cfg);
  sc_webhook : WebhookVerifier opts = None -> Config.StripeWebhookSecret cfg <> ""
}.

Lemma validateStripe_ok `{UrlParser} {B} cfg (opts : Options B) :
  validateStripeConfiguration cfg opts = None <-> stripe_configured cfg opts.
Proof.
  assert (Config.ValidateStripeCheckout cfg = None <-> Config.StripeSecretKey cfg <> "" /\
    absolute (Config.StripeSuccessURL cfg) /\ absolute (Config.StripeCancelURL cfg)) as Hc.
  { unfold Config.ValidateStripeCheckout. destruct (String.eqb_spec (Config.StripeSecretKey cfg) ""); [naive_solver|].
    destruct (Config.validateReturnURL _ (Config.StripeSuccessURL cfg)) eqn:E.
    - split; [done|]. intros (_ & E'%(validateReturnURL_ok "STRIPE_SUCCESS_URL") & _). congruence.
    - apply validateReturnURL_ok in E. rewrite validateReturnURL_ok. naive_solver. }
  assert (Config.ValidateStripeWebhook cfg = None <-> Config.StripeWebhookSecret cfg <> "") as Hw.
  { unfold Config.ValidateStripeWebhook. destruct (String.eqb_spec (Config.StripeWebhookSecret cfg) ""); naive_solver. }
  unfold validateStripeConfiguration. cbv zeta.
  split.
  - intros E. destruct (PaymentProvider opts) eqn:E1, (WebhookVerifier opts) eqn:E2;
      constructor; intros ?; try congruence; first [apply Hc | apply Hw]; repeat case_match; congruence.
  - intros [S1 S2]. destruct (PaymentProvider opts), (WebhookVerifier opts);
      rewrite ?(proj2 Hc (S1 eq_refl)), ?(proj2 Hw (S2 eq_refl)); done.
Qed.

Lemma NewAPIKeyVerifier_exists `{Auth.Hmac} random keys :
  (exists v, Auth.NewAPIKeyVerifier random keys = Ok v) <->
  keys <> [] /\ NoDup keys /\ Forall (fun key => Auth.MinAPIKeyLength <= len key /\ TrimSpace key = key) keys /\
  exists bytes, random = Ok bytes.
Proof.
  pose proof (Auth.check_keys_spec keys ∅) as Hc.
  assert (Forall (fun key => key ∉ (∅ : gset string)) keys) as He by (apply Forall_true; set_solver).
  unfold Auth.NewAPIKeyVerifier. destruct keys as [|key keys]; [split; [by intros []| naive_solver]|].
  destruct (Auth.check_keys _ _).
  - split; [by intros []|]. intros (_ & Hn & Hf & _). by assert (Some e = None) by tauto.
  - assert (None = None :> option error) as (Hf & Hn & _)%Hc by done. destruct random as [bytes|err]; cbn [res_wrap res_bind].
    + split; [|by eauto]. intros _. split_and!; [done..|by eexists].
    + split; [by intros []|]. by intros (_ & _ & _ & ? & ?).
Qed.

Section Composed.
Context {B : Type} `{Gorm.Gorm} `{UrlParser} `{Queries.Postgres}.
Context `{UnicodeTables} `{JsonErrors} `{Runtime} `{FloatConversion} `{Auth.Hmac}.
Context `{Stripe.StripeSDK} `{Stripe.SessionCreator B}.
Variables (cfg : Config.Config) (opts : Options B) (random : res (list Z)) (started : option error) (version : string).
Variables (ping : Health.Checker (ApiWorld B)) (page : HandlerFunc (W := ApiWorld B)) (hashes : option (list string)).
Variables (document : string) (w : ApiWorld B).

Lemma Run_cases handler s0 : Run cfg opts random started version ping page hashes document w = Ok (handler, s0) ->
  exists v, Auth.NewAPIKeyVerifier random (Config.IntegrationAPIKeys cfg) = Ok v /\
    NewWithRateLimits (server_config cfg) (strict_interface (handler_of cfg opts version ping))
      (Some (Auth.Valid (Some v))) (Some (Auth.Fingerprint v)) true page hashes document w = Ok (handler, s0).
Proof.
  unfold Run, server_of. destruct (Auth.NewAPIKeyVerifier _ _) as [v|err]; [|done]. cbn [res_wrap res_bind].
  destruct (validateStripeConfiguration cfg opts); [done|]. destruct started; [done|].
  destruct (NewWithRateLimits _ _ _ _ _ _ _ _ _) as [built|err] eqn:E; [|done]. intros [= ->]. by exists v.
Qed.

(** Served one after another, requests keep a relation each of them keeps. *)
Lemma serve_all_moves (R : ApiWorld B -> ApiWorld B -> Prop) `{!PreOrder R} handler requests s :
  moving R handler -> R (world s) (world (serve_all handler requests s).2).
Proof.
  intros Hm. revert s. induction requests as [|r requests IH]; intros s; [done|]. cbn [serve_all].
  specialize (IH (served_state (handler r (mkWriter ∅ None []) s))).
  destruct (serve_all handler requests _) as [answers s']. cbn [snd] in *. etrans; [apply Hm | exact IH].
Qed.

Lemma Run_starts rabbit : Config.accepted cfg rabbit ->
  (exists handler s0, Run cfg opts random started version ping page hashes document w = Ok (handler, s0)) <->
  (exists v, Auth.NewAPIKeyVerifier random (Config.IntegrationAPIKeys cfg) = Ok v) /\ stripe_configured cfg opts /\ started = None.
Proof.
  intros Ha. unfold Run, server_of. rewrite <- validateStripe_ok.
  destruct (Auth.NewAPIKeyVerifier _ _) as [v|err]; cbn [res_wrap res_bind].
  2:{ split; [by intros (? & ? & ?) | by intros [[? ?] _]]. }
  destruct (validateStripeConfiguration cfg opts); [split; [by intros (? & ? & ?) | naive_solver]|].
  destruct started; [split; [by intros (? & ? & ?) | naive_solver]|].
  split; [by eauto|]. intros _. unfold NewWithRateLimits, server_config. cbn [RateLimit].
  destruct (limiters_built cfg rabbit (Auth.Fingerprint v) true Ha) as (l & -> & _). cbn [res_bind res_wrap]. by do 2 eexists.
Qed.
End Composed.

(** The composed handler takes steps of the program. *)
Lemma Run_moving {B : Type} `{Gorm.Gorm} `{!Gorm.GormDocumented} `{UrlParser} `{Queries.Postgres}
    `{UnicodeTables} `{JsonErrors} `{Runtime} `{FloatConversion} `{Auth.Hmac} `{Stripe.StripeSDK}
    `{Stripe.SessionCreator B} `{Consumer.Interpreter} (cfg : Config.Config) (opts : Options B) random started version
    (ping : Health.Checker (ApiWorld B)) (page : HandlerFunc (W := ApiWorld B)) hashes document (w : ApiWorld B)
    handler s0 :
  Run cfg opts random started version ping page hashes document w = Ok (handler, s0) ->
  (forall r wr s, world (served_state (page r wr s)) = world s) ->
  moving (@advances B _ Checkout.demo_catalog _ _ _ _ _ (verifier_of cfg opts)) handler /\ world s0 = w.
Proof.
  intros HR Hp. apply Run_cases in HR as (v & _ & HN).
  pose proof (@api_ports_advance B _ _ Checkout.demo_catalog _ _ _ _ _ (provider_of cfg opts) (verifier_of cfg opts)
    (Config.ServiceName cfg) version ping) as Ha.
  eapply (moving_api _ _ Ha); [|exact HN]. intros r wr s. rewrite Hp. reflexivity.
Qed.

(** ** Properties *)

(** The API process only ever takes steps of the program. Whatever requests
    it serves, in whatever order, with any faults of the database and any
    lawful commits of other sessions in between, the database it leaves is
    reached by the operations of the program alone; so sound books stay sound,
    and no order, payment or attempt is lost, re-priced or taken back. The
    page of the API browser is assumed to touch nothing. *)
Theorem serving_refines_the_program {B : Type} `{Gorm.Gorm} `{!Gorm.GormDocumented} `{UrlParser} `{Queries.Postgres}
    `{UnicodeTables} `{JsonErrors} `{Runtime} `{FloatConversion} `{Auth.Hmac} `{Stripe.StripeSDK}
    `{Stripe.SessionCreator B} `{Consumer.Interpreter} (cfg : Config.Config) (opts : Options B) random started version
    (ping : Health.Checker (ApiWorld B)) (page : HandlerFunc (W := ApiWorld B)) hashes document (w : ApiWorld B)
    handler s0 (requests : list Request) :
  Run cfg opts random started version ping page hashes document w = Ok (handler, s0) ->
  (forall r wr s, world (served_state (page r wr s)) = world s) ->
  Forall lawful_call (api_calls w) ->
  let s := (serve_all handler requests s0).2 in
  rtc (@Pipeline.step _ _ _ _ (verifier_of cfg opts) _ Checkout.demo_catalog _) (api_db w) (api_db (world s)) /\
  (Gorm.sound (api_db w) -> Gorm.sound (api_db (world s)) /\ Gorm.extends (api_db w) (api_db (world s))).
Proof.
  intros HR Hp Hw s. destruct (Run_moving _ _ _ _ _ _ _ _ _ _ _ _ HR Hp) as [Hm Ew].
  pose proof (serve_all_moves _ handler requests s0 Hm) as Hs. rewrite Ew in Hs. destruct (Hs Hw) as [_ Hr].
  split; [exact Hr|]. intros Hd. pose (V := verifier_of cfg opts : Receive.Verifier).
  exact (Pipeline.steps_sound Checkout.demo_honest _ _ Hd Hr).
Qed.

(** C33: With a loaded configuration the API starts exactly when its keys are at
    least one and distinct, long enough and without surrounding space, what
    each real Stripe adapter needs is there (a replaced port asks for nothing,
    and waives nothing of the other), the entropy source answers and the
    process's own parts open. No loaded configuration fails on its limits. The
    server started has limiters exactly when they are enabled, serves
    documentation to callers without a key in development only, and begins with
    the world it was given and an empty log. *)
Theorem api_starts_exactly_when_configured {B : Type} `{GoQuote} `{Gorm.Gorm} `{UrlParser} `{Queries.Postgres}
    `{UnicodeTables} `{JsonErrors} `{Runtime} `{FloatConversion} `{Auth.Hmac} `{Stripe.StripeSDK}
    `{Stripe.SessionCreator B} (dotenv : option error) (parsed : res Config.Config) (name fallback : string)
    (rabbit : bool) (cfg : Config.Config) (opts : Options B) random started version
    (ping : Health.Checker (ApiWorld B)) (page : HandlerFunc (W := ApiWorld B)) hashes document (w : ApiWorld B) :
  Config.Load dotenv parsed name fallback rabbit = Ok cfg ->
  let keys := Config.IntegrationAPIKeys cfg in
  let outcome := Run cfg opts random started version ping page hashes document w in
  ((exists handler s0, outcome = Ok (handler, s0)) <->
   (keys <> [] /\ NoDup keys /\ Forall (fun key => Auth.MinAPIKeyLength <= len key /\ TrimSpace key = key) keys /\
    exists bytes, random = Ok bytes) /\ stripe_configured cfg opts /\ started = None) /\
  (forall handler s0, outcome = Ok (handler, s0) ->
   world s0 = w /\ log s0 = [] /\ (is_Some (limiters s0) <-> Config.RateLimitEnabled cfg = true) /\
   (Docs (server_config cfg) = DocsPublic <-> Config.DocsEnabled cfg = true /\ Config.IsDevelopment cfg = true)).
Proof.
  intros HL keys outcome. apply Config.Load_accepted in HL as Ha. split.
  - unfold outcome, keys. rewrite (Run_starts cfg opts random started version ping page hashes document w rabbit Ha).
    by rewrite NewAPIKeyVerifier_exists.
  - intros handler s0 (v & _ & HN)%Run_cases. unfold NewWithRateLimits, server_config in HN. cbn [RateLimit] in HN.
    destruct (limiters_built cfg rabbit (Auth.Fingerprint v) true Ha) as (l & El & Hl). rewrite El in HN.
    injection HN as _ <-. split_and!; [done | done | exact Hl |]. unfold server_config, DocsModeFor. cbn [Docs].
    destruct (Config.DocsEnabled cfg), (Config.IsDevelopment cfg); cbn [negb];
      (split; [intros ?; split | intros [? ?]]; first [reflexivity | discriminate]).
Qed.

(** C10: The API the process composes knows its callers. A request whose
    X-API-Key is none of the configured keys (and collides with none of their
    tags), to anything but the probe, the provider's endpoint and, in
    development, public documentation, is answered 301, 400, 401, 404, 405,
    413 or 429: no use case runs, so database, provider and metrics of the use
    cases are as before. *)
Theorem strangers_are_refused {B : Type} `{Gorm.Gorm} `{UrlParser} `{Queries.Postgres}
    `{UnicodeTables} `{JsonErrors} `{Runtime} `{FloatConversion} `{Auth.Hmac} `{Stripe.StripeSDK}
    `{Stripe.SessionCreator B} (cfg : Config.Config) (opts : Options B) random started version
    (ping : Health.Checker (ApiWorld B)) (page : HandlerFunc (W := ApiWorld B)) hashes document (w : ApiWorld B)
    handler s0 (r : Request) (s : Server (ApiWorld B)) :
  Run cfg opts random started version ping page hashes document w = Ok (handler, s0) ->
  let candidate := Wire.Get (Headers r) apiKeyHeader in
  candidate ∉ Config.IntegrationAPIKeys cfg ->
  (forall v key, Auth.NewAPIKeyVerifier random (Config.IntegrationAPIKeys cfg) = Ok v ->
     key ∈ Config.IntegrationAPIKeys cfg -> Auth.tag v candidate = Auth.tag v key -> candidate = key) ->
  segments r <> ["health"] -> segments r <> ["v1"; "webhooks"; "stripe"] ->
  (Config.IsDevelopment cfg = true -> ~ Api.docs_route r) ->
  let served := handler r (mkWriter ∅ None []) s in
  world (served_state served) = world s /\ served_panic served = None /\
  (response (served_writer served)).1 ∈ [301; 400; 401; 404; 405; 413; 429].
Proof.
  intros (v & Hv & HN)%Run_cases candidate Hk Ht Hh Hw Hd.
  apply (Api.unauthenticated_requests_change_nothing _ _ _ _ _ _ _ _ _ _ _ _ _ HN); [| done | done |].
  - apply not_true_iff_false. intros Hin%Auth.Valid_tag. apply Auth.NewAPIKeyVerifier_ok in Hv as Hv'. destruct Hv' as [_ Et].
    rewrite Et in Hin. apply list_elem_of_fmap in Hin as (key & E & Hkey). apply Hk.
    rewrite (Ht v key Hv Hkey E). exact Hkey.
  - unfold server_config, DocsModeFor. cbn [Docs].
    destruct (Config.DocsEnabled cfg), (Config.IsDevelopment cfg); cbn [negb]; intros [=]. by apply Hd.
Qed.

(** ** Witnesses *)

#[local] Instance sample_float : FloatConversion := fun z => z.
#[local] Instance sample_runtime : Runtime := {|
  BindStyledParameter := fun _ value => Ok value;
  BindQueryString := fun _ _ => inl None;
  BindQueryInt := fun _ _ => inl None;
|}.
#[local] Existing Instance sample_unicode.
#[local] Existing Instance sample_errors.
#[local] Existing Instance sample_postgres.
#[local] Existing Instance sample_interpreter.
#[local] Existing Instance Auth.sample_hmac.
#[local] Existing Instance Checkout.sample_urls.
#[local] Instance sample_stripe : Stripe.StripeSDK := Stripe.sample_sdk (Stripe.sample_session "paid").
#[local] Instance sample_sessions : Stripe.SessionCreator unit := fun _ b => (Ok None, b).
#[local] Instance sample_text : GoQuote := fun s => s.
#[local] Existing Instance Gorm.sql_gorm.
#[local] Existing Instance Gorm.sql_gorm_documented.

(** The default configuration, both adapters real, on an empty database. *)
Definition sample_cfg : Config.Config := Config.default_config 20 (2 * Minute).
Definition sample_opts : Options unit := mkOptions None None.
Definition sample_call (k : Z) : Circumstance :=
  mkCircumstance [] [] k k (Ok (repeat k 16)) (Ok (repeat (k + 1) 16)) Millisecond.
Definition sample_world : ApiWorld unit := mkApiWorld (Store.empty_db 5) tt [sample_call 1; sample_call 2] [].
Definition sample_page : HandlerFunc (W := ApiWorld unit) := fun r w s => done_with w s.
Definition sample_api : res (HandlerFunc (W := ApiWorld unit) * Server (ApiWorld unit)) :=
  Run sample_cfg sample_opts (Ok (repeat 7 32)) None "dev" (fun _ => None) sample_page None "" sample_world.

Definition in_quotes (text : string) : string := of_codes [34] +:+ text +:+ of_codes [34].
Definition sample_body : string :=
  "{" +:+ in_quotes "productId" +:+ ":" +:+ in_quotes "product_demo" +:+ "," +:+ in_quotes "quantity" +:+ ":2}".

(** An order, by a caller with a key or without. *)
Definition sample_order (keys : list string) : Request :=
  mkRequest "POST" ["v1"; "orders"] ""
    (<["X-Api-Key" := keys]> {["Idempotency-Key" := ["key-1"]; "Content-Type" := ["application/json"]]})
    "203.0.113.10:4711" (Some (mkBody sample_body None)) "" None [] (mkDraws (Ok [1; 2]) 0 0 0).

Definition sample_key : string := "integration-key-0123456789abcdef-1".

(** An order created twice under one key: one row, a step of the program. *)
Lemma serving_refines_the_program_witness : exists handler s0,
  sample_api = Ok (handler, s0) /\
  let s := (serve_all handler [sample_order [sample_key]; sample_order [sample_key]] s0).2 in
  size (Store.orders (api_db (world s))) = 1%nat /\
  api_events (world s) = [Metrics.OrderEvent OrderApp.Replayed] /\
  Gorm.sound (api_db (world s)) /\ Gorm.extends (api_db sample_world) (api_db (world s)).
Proof.
  destruct sample_api as [[handler s0]|err] eqn:E; [|discriminate E].
  exists handler, s0. split; [reflexivity|].
  assert (size (Store.orders (api_db (world (serve_all handler [sample_order [sample_key]; sample_order [sample_key]] s0).2))) = 1%nat /\
    api_events (world (serve_all handler [sample_order [sample_key]; sample_order [sample_key]] s0).2) =
      [Metrics.OrderEvent OrderApp.Replayed]) as [H1 H2].
  { assert (match sample_api with
            | Ok (h, s) => let s := (serve_all h [sample_order [sample_key]; sample_order [sample_key]] s).2 in
                size (Store.orders (api_db (world s))) = 1%nat /\ api_events (world s) = [Metrics.OrderEvent OrderApp.Replayed]
            | Err _ => False
            end) as Hv by (vm_compute; split; reflexivity).
    rewrite E in Hv. exact Hv. }
  destruct (serving_refines_the_program sample_cfg sample_opts (Ok (repeat 7 32)) None "dev" (fun _ => None) sample_page
    None "" sample_world handler s0 [sample_order [sample_key]; sample_order [sample_key]]) as [_ Hs].
  - exact E.
  - reflexivity.
  - repeat constructor.
  - split; [exact H1|]. split; [exact H2|]. apply Hs. apply Pipeline.sound_empty.
Defined.

Lemma api_starts_exactly_when_configured_witness : exists cfg,
  Config.Load (Some Config.ErrNotExist) (Ok sample_cfg) ServiceName DefaultAddress false = Ok cfg /\
  exists handler s0, Run cfg sample_opts (Ok (repeat 7 32)) None "dev" (fun _ => None) sample_page None "" sample_world
    = Ok (handler, s0) /\ is_Some (limiters s0).
Proof.
  destruct (Config.Load (Some Config.ErrNotExist) (Ok sample_cfg) ServiceName DefaultAddress false) as [cfg|err] eqn:E;
    [|discriminate E].
  assert (Config.IntegrationAPIKeys cfg = [sample_key] /\ Config.RateLimitEnabled cfg = true /\
    stripe_configured cfg sample_opts) as (Ek & El & Es).
  { injection E as <-. split; [reflexivity|]. split; [reflexivity|]. apply validateStripe_ok. vm_compute. reflexivity. }
  exists cfg. split; [reflexivity|].
  destruct (api_starts_exactly_when_configured (Some Config.ErrNotExist) (Ok sample_cfg) ServiceName DefaultAddress false
    cfg sample_opts (Ok (repeat 7 32)) None "dev" (fun _ => None) sample_page None "" sample_world E) as [H1 H2].
  destruct (proj2 H1) as (handler & s0 & HR).
  - split; [|by split]. rewrite Ek. split; [discriminate|]. split; [apply NoDup_singleton|].
    split; [by repeat constructor | by eexists].
  - exists handler, s0. split; [exact HR|]. destruct (H2 handler s0 HR) as (_ & _ & Hl & _). by apply Hl.
Defined.

Lemma strangers_are_refused_witness : exists handler s0,
  sample_api = Ok (handler, s0) /\
  let served := handler (sample_order ["guess"]) (mkWriter ∅ None []) s0 in
  world (served_state served) = world s0 /\ (response (served_writer served)).1 = 401.
Proof.
  destruct sample_api as [[handler s0]|err] eqn:E; [|discriminate E].
  exists handler, s0. split; [reflexivity|].
  assert ((response (served_writer (handler (sample_order ["guess"]) (mkWriter ∅ None []) s0))).1 = 401) as H1.
  { assert (match sample_api with
            | Ok (h, s) => (response (served_writer (h (sample_order ["guess"]) (mkWriter ∅ None []) s))).1 = 401
            | Err _ => False
            end) as Hv by (vm_compute; reflexivity).
    rewrite E in Hv. exact Hv. }
  destruct (strangers_are_refused sample_cfg sample_opts (Ok (repeat 7 32)) None "dev" (fun _ => None) sample_page
    None "" sample_world handler s0 (sample_order ["guess"]) s0) as (H2 & _ & _).
  - exact E.
  - intros Hk. apply (elem_of_cons [] _ sample_key) in Hk as [Hk|Hk]; [|by apply not_elem_of_nil in Hk].
    vm_compute in Hk. discriminate Hk.
  - intros v key Hv Hk. apply elem_of_cons in Hk as [->|Hk]; [|by apply not_elem_of_nil in Hk].
    injection Hv as <-. vm_compute. discriminate.
  - discriminate.
  - discriminate.
  - intros _ Hd. unfold Api.docs_route in Hd. vm_compute in Hd. naive_solver.
  - split; [exact H2 | exact H1].
Defined.
