(* ===== verification/Contract.v ===== *)
(** * What the API answers: [internal/transport/http/openapi] against the database

    The enumerations and bounds of the contract, and what a successful answer of
    the composed handlers says about the rows behind it. *)

From S2P Require Import Prelude GoLib Wire Openapi Http Handlers Serving Store Queries.
From S2P Require Orders.
From S2P Require Webhooks.
From S2P Require Health.
From S2P Require OrderApp.
From S2P Require Receive.
From S2P Require Gorm.
From S2P Require Transitions.
From S2P Require Checkout.
From S2P Require CheckoutRepo.
From S2P Require WebhookRepo.
From S2P Require Replay.
From S2P Require CheckoutApp.
From S2P Require Payments.
From S2P Require Inbox.
From S2P Require Pipeline.
From S2P Require Samples.
Import Openapi.

#[local] Arguments Returned {S A}.
#[local] Existing Instance CheckoutRepo.OrderRepository.
#[local] Existing Instance WebhookRepo.WebhookInspection.

(** ** What answers promise *)

(** An order as the books have it: its row, valid for the contract, and paid
    exactly when a payment of it was charged. *)
Record order_truth (b : Order) (d : DB) : Prop := {
  ot_row : exists r, orders d !! Order_Id b = Some r /\ OrderRow_Amount r = Order_Amount b /\
    OrderRow_Currency r = Order_Currency b /\ OrderRow_Status r = Order_Status b;
  ot_status : OrderStatus_Valid (Order_Status b) = true;
  ot_amount : 0 < Order_Amount b;
  ot_currency : upper3 (Order_Currency b) = true;
  ot_paid : Order_Status b = "paid" <->
    exists j p, payments d !! j = Some p /\ PaymentRow_OrderID p = Order_Id b /\ Transitions.charged (PaymentRow_Status p) = true /\
      PaymentRow_Amount p = Order_Amount b /\ PaymentRow_Currency p = Order_Currency b
}.

(** An inbox entry as its row, within the enumerations and bounds. *)
Record inspection_truth (b : WebhookEventInspection) (d : DB) : Prop := {
  it_row : exists r, webhook_events d !! EI_Id b = Some r /\ EventRow_Status r = EI_Status b /\ EventRow_Attempts r = EI_Attempts b;
  it_status : WebhookEventStatus_Valid (EI_Status b) = true;
  it_attempts : 0 <= EI_Attempts b /\ 0 <= EI_ReplayCount b;
  it_outbox : forall o, EI_Outbox b = Some o -> OutboxInspectionStatus_Valid (OI_Status o) = true /\ 0 <= OI_Attempts o /\
    exists r, outbox_events d !! OI_Id o = Some r /\ OutboxRow_Status r = OI_Status o /\ OutboxRow_Attempts r = OI_Attempts o /\
      OutboxRow_WebhookEventID r = EI_Id b;
  it_no_outbox : EI_Outbox b = None -> forall i r, outbox_events d !! i = Some r -> OutboxRow_WebhookEventID r <> EI_Id b;
  it_published : forall o, EI_Outbox b = Some o -> OI_Status o = "published" <-> is_Some (OI_PublishedAt o)
}.

(** A report of health: the database's own check is its one entry, and the API
    is ready when that check passes. *)
Record health_truth {W} (ready : bool) (ping : Health.Checker W) (w : W) (b : HealthResponse) : Prop := {
  ht_status : Health_Status b = (if ready then Ok_ else Unavailable);
  ht_checks : Health_Checks b = {["postgres" := match ping w with None => Up | Some _ => Down end]};
  ht_ready : ready = true <-> ping w = None
}.

(** ** Lemmas: rows *)

Lemma order_row_truth (o : Orders.Order) d : Gorm.sound d -> Checkout.persisted o d -> Checkout.shown o d -> order_truth (orderResponse o) d.
Proof.
  intros Hd (r & Hr & Ha & Hc & _) (r' & Hr' & Hst). simplify_eq.
  pose proof (orders_ok _ (Gorm.sound_schema _ Hd) _ _ Hr) as Hok. unfold orders_check in Hok. go_bool.
  assert (OrderStatus_Valid (OrderRow_Status r) = true) as Hv.
  { unfold OrderStatus_Valid. by destruct (Gorm.sound_status _ Hd _ _ Hr) as [->| ->]. }
  constructor; cbn [orderResponse Order_Id Order_Amount Order_Currency Order_Status].
  - by exists r.
  - by rewrite <- Hst.
  - lia.
  - congruence.
  - rewrite <- Hst, <- Ha, <- Hc. split.
    + intros Hp. destruct (Gorm.sound_paid _ Hd _ _ Hr Hp) as (j & p & Hj & Ho & Hch). exists j, p.
      destruct (payments_order_fkey _ (Gorm.sound_schema _ Hd) _ _ Hj) as (r' & Hr' & Ea & Ec).
      rewrite Ho in Hr'. simplify_eq. split_and!; congruence.
    + intros (j & p & Hj & Ho & Hch & _). destruct (Gorm.sound_charged _ Hd _ _ Hj Hch) as (r' & Hr' & Hpaid).
      rewrite Ho in Hr'. by simplify_eq.
Qed.

(** A row of a listing, with a message of its own if it has one. *)
Definition inspected (row : InspectionRow) (d : DB) : Prop :=
  webhook_events d !! EventRow_ID row.1 = Some row.1 /\
  (forall o, row.2 = Some o -> outbox_events d !! OutboxRow_ID o = Some o /\ OutboxRow_WebhookEventID o = EventRow_ID row.1) /\
  (row.2 = None -> forall i r, outbox_events d !! i = Some r -> OutboxRow_WebhookEventID r <> EventRow_ID row.1).

Lemma inspected_truth row d : schema d -> inspected row d ->
  inspection_truth (webhookEventResponse (WebhookRepo.inspectionFromRow row)) d.
Proof.
  intros Hs (He & Ho & Hno). destruct row as [e o]. cbn [fst snd] in *.
  pose proof (events_ok _ Hs _ _ He) as Hok. unfold events_check, one_of in Hok. cbn [existsb] in Hok.
  constructor; cbn -[String.eqb Z.le].
  - by exists e.
  - unfold WebhookEventStatus_Valid. destruct (EventRow_Status e =s? "failed"), (EventRow_Status e =s? "pending"),
      (EventRow_Status e =s? "processed"), (EventRow_Status e =s? "processing"), (EventRow_Status e =s? "skipped"); done.
  - go_bool. lia.
  - intros oi Hoi. destruct o as [o|]; [|done]. injection Hoi as <-. destruct (Ho _ eq_refl) as [Hr Hw].
    pose proof (outbox_ok _ Hs _ _ Hr) as Hoo. unfold outbox_check, one_of in Hoo. cbn [existsb] in Hoo.
    cbn -[String.eqb Z.le]. split_and!; [|go_bool; lia|by exists o].
    unfold OutboxInspectionStatus_Valid. destruct (OutboxRow_Status o =s? "failed"), (OutboxRow_Status o =s? "pending"),
      (OutboxRow_Status o =s? "published"), (OutboxRow_Status o =s? "publishing"); done.
  - intros Hn. apply Hno. by destruct o.
  - intros oi Hoi. destruct o as [o|]; [|done]. injection Hoi as <-. destruct (Ho _ eq_refl) as [Hr Hw].
    pose proof (outbox_ok _ Hs _ _ Hr) as Hoo. unfold outbox_check in Hoo. cbn -[String.eqb].
    apply andb_true_iff in Hoo as [[_ Hp]%andb_true_iff _]. apply Bool.eqb_prop in Hp.
    rewrite <- String.eqb_eq, Hp. unfold is_some, WebhookRepo.operationNullableTime.
    by destruct (OutboxRow_PublishedAt o); [split; [eauto|] | split; [|intros [? ?]]].
Qed.

Lemma left_join_inspected d e row : schema d -> webhook_events d !! EventRow_ID e = Some e -> row ∈ left_join d e -> inspected row d.
Proof.
  intros Hs He Hr. unfold left_join in Hr.
  destruct (rows_where (fun o => OutboxRow_WebhookEventID o =s? EventRow_ID e) (outbox_events d)) as [|o os] eqn:E.
  { apply list_elem_of_singleton in Hr as ->. split_and!; [done..|]. intros _ i r Hi Er.
    assert (r ∈ rows_where (fun o => OutboxRow_WebhookEventID o =s? EventRow_ID e) (outbox_events d)) as Hin
      by (eapply rows_where_elem; [exact Hi | by apply String.eqb_eq]).
    rewrite E in Hin. by apply not_elem_of_nil in Hin. }
  rewrite <- E in Hr. apply list_elem_of_fmap in Hr as (x & -> & [Hx (j & Hj)]%rows_where_inv).
  split_and!; [done | | done]. intros ? [= <-]. split; [by rewrite (outbox_keyed _ Hs _ _ Hj)|]. by apply String.eqb_eq.
Qed.

Lemma listed_inspected status limit d rows d' : schema d -> ListWebhookEvents status limit d = Ok (rows, d') ->
  d' = d /\ Forall (fun row => inspected row d) rows.
Proof.
  intros Hs. unfold ListWebhookEvents. destruct (limit <? 0); [done|]. intros [= <- <-]. split; [done|].
  apply Forall_forall. intros row Hr%Replay.take_merge_sort_elem.
  apply list_elem_of_bind in Hr as (e & Hj & [_ (i & Hi)]%rows_where_inv).
  eapply left_join_inspected; [done | by rewrite (events_keyed _ Hs _ _ Hi) | exact Hj].
Qed.

(** ** Lemmas: the use cases behind the handlers *)

Section Calls.
Context {B : Type} `{Gorm.Gorm} `{!Gorm.GormDocumented} `{OrderApp.Catalog} `{UrlParser} `{Queries.Postgres}.
Implicit Types (w : ApiWorld B).

(** What an answer of a use case is on the database after it. *)
Definition tells {A} (P : A -> DB -> Prop) (m : M (ApiWorld B) A) : Prop := forall w,
  Gorm.sound (api_db w) -> Forall lawful_call (api_calls w) -> forall a, (m w).1 = Ok a -> P a (api_db (m w).2).

Lemma tells_call {A} (P : A -> DB -> Prop) (use : Circumstance -> DB -> B -> res A * list Metrics.event * DB * B) :
  (forall c d b, Gorm.sound d -> lawful_call c -> forall a, (use c d b).1.1.1 = Ok a -> P a (use c d b).1.2) ->
  tells P (with_call use).
Proof.
  intros Hu w Hd Hc a. unfold with_call.
  assert (lawful_call (default calm_call (head (api_calls w)))) as Hl by (destruct Hc; [constructor | done]).
  specialize (Hu _ (api_db w) (api_provider w) Hd Hl). destruct (use _ _ _) as [[[out events] d] b]. exact (Hu a).
Qed.

Lemma Create_tells ctx i : Checkout.honest ->
  tells (fun o d => order_truth (orderResponse o) d) (Creator_Create (@orderService B _ _) ctx i).
Proof.
  intros Hh. apply tells_call. intros c d b Hd Hc a. cbv zeta.
  destruct (OrderApp.Create _ _ _) as [[out log] w'] eqn:E. cbn [fst snd]. intros ->.
  apply Checkout.Create_later in E as [Hl Hq]; [|done|by split].
  destruct (Hq _ eq_refl) as (Hp & _ & _ & _ & Hsh). apply order_row_truth; [apply Hl | done | done].
Qed.

Lemma Get_tells ctx id :
  tells (fun o d => order_truth (orderResponse o) d /\ Orders.Order_ID o = id) (Creator_Get (@orderService B _ _) ctx id).
Proof.
  apply tells_call. intros c d b Hd Hc a. cbv zeta. unfold OrderApp.Get, gwrap. destruct (Orders.ValidateID id); [|done].
  destruct (OrderApp.Repository_Get id _) as [out w'] eqn:E. cbn [fst snd].
  destruct out as [o|err]; cbn [res_wrap]; [|done]. intros [= ->].
  assert (Gorm.well_formed (store_of c d, [])) as Hw by (unfold store_of; split; cbn; [done | done | constructor]).
  destruct (Checkout.OrderRepository_Get_triple (fun _ => True) id Checkout.stable_true _ _ _ Hw I E) as [Hl Hq].
  destruct (Hq _ eq_refl) as (_ & Hid & Hp & r & Hr & Ho). split; [|exact Hid]. apply order_row_truth; [apply Hl | done |].
  exists r. by rewrite Hid, Ho.
Qed.

Lemma List_tells ctx status limit :
  tells (fun vs d => Z.of_nat (length vs) <= 100 /\ Forall (fun v => inspection_truth (webhookEventResponse v) d) vs)
    (Operations_List (@operationsService B) ctx status limit).
Proof.
  apply tells_call. intros c d b Hd Hc a.
  destruct (Receive.List status limit (store_of c d)) as [out s'] eqn:E. cbn [fst snd]. intros ->.
  pose proof (Replay.List_is_bounded_and_sanitized _ _ _ _ _ E) as (Es & _ & _ & Hb).
  split; [destruct (Hb _ eq_refl) as [? _]; lia|]. rewrite Es. cbn [store_of st_db]. revert E. unfold Receive.List, gfail.
  destruct (_ && _); [done|]. cbv zeta. destruct (_ || _); [done|].
  cbn [Receive.Inspection_List WebhookRepo.WebhookInspection]. unfold WebhookRepo.WebhookRepository_List, gbind, gwrap.
  destruct (exec _ _) as [[rows|err] s1] eqn:E; [|done]. intros [= <- _].
  apply exec_Ok in E. apply listed_inspected in E as [_ Hr]; [|apply Hd].
  apply Forall_fmap. eapply Forall_impl; [exact Hr|]. intros row. by apply inspected_truth, Hd.
Qed.

(** What a replay shows: the event and its message, both waiting again. *)
Definition waits_again (b : WebhookEventInspection) (id : string) : Prop :=
  EI_Id b = id /\ EI_Status b = "pending" /\
  exists o, EI_Outbox b = Some o /\ OI_Status o = "pending" /\ OI_Attempts o = 0.

Lemma Reprocess_tells ctx id :
  tells (fun v d => inspection_truth (webhookEventResponse v) d /\ waits_again (webhookEventResponse v) id)
    (Operations_Reprocess (@operationsService B) ctx id).
Proof.
  apply tells_call. intros c d b Hd Hc a.
  destruct (Receive.Reprocess id (store_of c d)) as [out s'] eqn:E. cbn [fst snd]. intros ->.
  revert E. unfold Receive.Reprocess. destruct (Webhooks.ValidateEventID id) as [[]|]; [|done]. intros E.
  apply Replay.Reprocess_answer in E as (_ & Hs' & _ & Hok & _); [|apply Hd|done].
  destruct (Hok _ eq_refl) as (Hre & e & o & He & Ho & ->).
  destruct (Replay.replayed_rows _ _ _ (Gorm.sound_schema _ Hd) Hre) as (e' & o' & He' & Ho' & Hst & Hso & Hno).
  pose proof (Replay.message_unique _ _ _ _ Hs' Ho Ho') as ->. rewrite He in He'. injection He' as <-.
  pose proof (events_keyed _ Hs' _ _ He) as Eid. split.
  - apply inspected_truth; [done|]. split_and!; cbn [fst snd]; [by rewrite Eid | | done].
    intros ? [= <-]. destruct Ho as [Ho Hw]. split; [done | by rewrite Eid].
  - split_and!; [done..|]. eexists. split; [reflexivity|]. by split.
Qed.
End Calls.

Lemma on_world_tells {B A} (P : A -> DB -> Prop) (m : M (ApiWorld B) A) (s s' : Server (ApiWorld B)) a :
  tells P m -> Gorm.sound (api_db (world s)) -> Forall lawful_call (api_calls (world s)) ->
  on_world m s = (Ok a, s') -> P a (api_db (world s')).
Proof.
  intros Hm Hd Hc. unfold on_world. specialize (Hm _ Hd Hc a). destruct (m (world s)) as [out w]. intros [= -> <-].
  by apply Hm.
Qed.

(** ** Lemmas: health *)

Lemma health_reported {W} name version (ping : Health.Checker W) (w : W) :
  let h := Health.New name version {["postgres" := ping]} in
  let result := Health.Check_ h w in
  let b := mkHealthResponse ((fun available : bool => if available then Up else Down) <$> Health.Checks result)
             (Health.ServiceName h) (if Health.Ready result then Ok_ else Unavailable) (Health.Version h) in
  health_truth (Health.Ready result) ping w b.
Proof.
  cbv zeta. constructor; cbn [Health_Status Health_Checks]; [done| |].
  - unfold Health.Check_. cbn [Health.Checks Health.New Health.checks]. rewrite !map_fmap_singleton. by destruct (ping w).
  - rewrite Health.Check_ready. cbn [Health.New Health.checks]. by rewrite map_Forall_singleton.
Qed.

(** ** Properties *)

(** C6: What the API answers is what the books say. A successful answer of the
    composed handlers, among faults and whatever other sessions lawfully
    commit, describes rows of the database it leaves, within the enumerations
    and bounds of the contract. An order has its price, its currency and its
    status, and reads as paid exactly when a payment of that amount was charged
    for it; a listing has at most a hundred entries, each with its message if it
    has one; a replayed event is the one asked for and is pending again, and so
    is its message, with no attempts; health reports the database's own check
    and is ok exactly when that passes. *)
Theorem answers_are_true {B : Type} `{Gorm.Gorm} `{!Gorm.GormDocumented} `{OrderApp.Catalog} `{UrlParser} `{Queries.Postgres}
    (create : CheckoutApp.ProviderRequest -> M B Payments.Session) (verifier : Receive.Verifier) (name version : string)
    (ping : Health.Checker (ApiWorld B)) (ctx : Request) (s s' : Server (ApiWorld B)) (correlation : string) :
  Checkout.honest -> Gorm.sound (api_db (world s)) -> Forall lawful_call (api_calls (world s)) ->
  let h := apiHandler create verifier name version ping in
  let d' := api_db (world s') in
  (forall r b, Handlers.CreateOrder h ctx r s = Returned (Ok (CreateOrder201JSONResponse b correlation)) s' -> order_truth b d') /\
  (forall r b, Handlers.GetOrder h ctx r s = Returned (Ok (GetOrder200JSONResponse b correlation)) s' ->
     order_truth b d' /\ Order_Id b = GetOrder_OrderId r) /\
  (forall r bs, Handlers.ListWebhookEvents h ctx r s = Returned (Ok (ListWebhookEvents200JSONResponse bs correlation)) s' ->
     Z.of_nat (length bs) <= 100 /\ Forall (fun b => inspection_truth b d') bs) /\
  (forall r b, Handlers.ReprocessWebhookEvent h ctx r s = Returned (Ok (ReprocessWebhookEvent202JSONResponse b correlation)) s' ->
     inspection_truth b d' /\ waits_again b (Reprocess_WebhookEventId r)) /\
  (forall b, Handlers.GetHealth h ctx s = Returned (Ok (GetHealth200JSONResponse b correlation)) s' ->
     health_truth true ping (world s) b) /\
  (forall b, Handlers.GetHealth h ctx s = Returned (Ok (GetHealth503JSONResponse b correlation)) s' ->
     health_truth false ping (world s) b).
Proof.
  intros Hh Hd Hc h d'. split_and!.
  - intros r b. unfold Handlers.CreateOrder. cbn [h apiHandler NewAPIHandler Handlers.orders]. destruct (CreateOrder_Body r); [|done].
    destruct (on_world _ s) as [[o|err] s1] eqn:E; [intros [= <- _ <-] | unfold createOrderError; repeat case_match; done].
    exact (on_world_tells _ _ _ _ _ (Create_tells ctx _ Hh) Hd Hc E).
  - intros r b. unfold Handlers.GetOrder. cbn [h apiHandler NewAPIHandler Handlers.orders].
    destruct (on_world _ s) as [[o|err] s1] eqn:E; [intros [= <- _ <-] | by destruct (Is _ _)].
    exact (on_world_tells _ _ _ _ _ (Get_tells ctx _) Hd Hc E).
  - intros r bs. unfold Handlers.ListWebhookEvents. change (operations h) with (Some (@operationsService B)). cbv iota zeta.
    destruct (on_world _ s) as [[vs|err] s1] eqn:E; [intros [= <- _ <-] | by destruct (_ || _)].
    rewrite length_fmap, Forall_fmap. exact (on_world_tells _ _ _ _ _ (List_tells ctx _ _) Hd Hc E).
  - intros r b. unfold Handlers.ReprocessWebhookEvent. change (operations h) with (Some (@operationsService B)). cbv iota.
    destruct (on_world _ s) as [[v|err] s1] eqn:E; [intros [= <- _ <-] | repeat case_match; done].
    exact (on_world_tells _ _ _ _ _ (Reprocess_tells ctx _) Hd Hc E).
  - intros b. unfold Handlers.GetHealth. pose proof (health_reported name version ping (world s)) as Hr. revert Hr. cbv zeta.
    change (health h) with (Health.New name version {["postgres" := ping]}).
    destruct (Health.Ready _); intros Hr; [|done]. intros [= <- _ _]. exact Hr.
  - intros b. unfold Handlers.GetHealth. pose proof (health_reported name version ping (world s)) as Hr. revert Hr. cbv zeta.
    change (health h) with (Health.New name version {["postgres" := ping]}).
    destruct (Health.Ready _); intros Hr; [done|]. intros [= <- _ _]. exact Hr.
Qed.

(** *** The order of a paid day *)

#[local] Existing Instance Samples.sample_postgres.
#[local] Existing Instance Gorm.sql_gorm.
#[local] Existing Instance Gorm.sql_gorm_documented.
#[local] Existing Instance Checkout.demo_catalog.
#[local] Existing Instance Checkout.sample_urls.

Definition paid_api : APIHandler (ApiWorld (list CheckoutApp.ProviderRequest)) :=
  apiHandler Checkout.sample_provider Inbox.sample_verifier "payments-api" "dev" (fun _ => None).
Definition paid_server : Server (ApiWorld (list CheckoutApp.ProviderRequest)) :=
  mkServer (mkApiWorld Pipeline.day_end [] [] []) None [] [].
Definition paid_id : string := "ord_00000000000000000000000000000001".

Lemma day_sound : Gorm.sound Pipeline.day_end.
Proof.
  refine (proj1 (Pipeline.steps_sound Checkout.demo_honest _ _ (Pipeline.sound_empty 10) Pipeline.day_steps)).
Qed.

(** The client reads that its order is paid, and so it is. *)
Lemma answers_are_true_witness : exists b s',
  Handlers.GetOrder paid_api (sample_order []) (mkGetOrderRequestObject paid_id) paid_server =
    Returned (Ok (GetOrder200JSONResponse b "")) s' /\
  Order_Status b = "paid" /\
  exists j p, payments (api_db (world s')) !! j = Some p /\ Transitions.charged (PaymentRow_Status p) = true /\
    PaymentRow_Amount p = Order_Amount b.
Proof.
  destruct (Handlers.GetOrder paid_api (sample_order []) (mkGetOrderRequestObject paid_id) paid_server) as [[[b x| | | |]|err] s'|] eqn:E.
  all: assert (match Handlers.GetOrder paid_api (sample_order []) (mkGetOrderRequestObject paid_id) paid_server with
               | Returned (Ok (GetOrder200JSONResponse b x)) _ => Order_Status b = "paid" /\ x = ""
               | _ => False end) as Hv by (vm_compute; split; reflexivity);
       rewrite E in Hv; try contradiction Hv.
  destruct Hv as [Hp ->]. exists b, s'. split; [reflexivity|]. split; [exact Hp|].
  destruct (answers_are_true Checkout.sample_provider Inbox.sample_verifier "payments-api" "dev" (fun _ => None) (sample_order [])
    paid_server s' "") as (_ & Hget & _).
  - exact Checkout.demo_honest.
  - exact day_sound.
  - apply Forall_nil_2.
  - destruct (Hget _ _ E) as [[_ _ _ _ Hpaid] _]. apply Hpaid in Hp as (j & p & Hj & _ & Hc & Ha & _). exists j, p. auto.
Defined.
