(* ===== verification/Deployment.v ===== *)
(** * The deployed system

    Any number of API processes and workers on one database, one broker and one
    payment provider, each taking turns of its own: a request served, a cycle of
    the relay, a delivery handled. The first part shows that the AMQP layer
    touches the database only through the consuming service it calls. *)

From S2P Require Import Prelude GoLib JsonText Amqp Delivery.
From S2P Require Store.
From S2P Require Queries.
From S2P Require Gorm.
From S2P Require Orders.
From S2P Require Payments.
From S2P Require Checkout.
From S2P Require Consumer.
From S2P Require EventRepo.
From S2P Require Outbox.
From S2P Require OutboxRepo.
From S2P Require Pipeline.
From S2P Require Stripe.
From S2P Require Config.
From S2P Require Worker.
From S2P Require Auth.
From S2P Require Health.
From S2P Require Wire.
From S2P Require Import Openapi.
From S2P Require Http.
From S2P Require Serving.
From S2P Require CheckoutApp.
From S2P Require Receive.
From S2P Require Samples.
From S2P Require Messaging.

(** ** The handler's world behind a delivery *)

Section Carry.
Context `{UnicodeTables} `{JsonErrors} {B : Type} `{Driver B} {St : Type} `{Handler St}.
Variables (R : St -> St -> Prop).
Context `{!PreOrder R}.

Definition carries {A} (m : M (Deliveries (B:=B) (St:=St)) A) : Prop := forall w, R w.2.1 (m w).2.2.1.

Lemma carries_lift {A} (r : res A) : carries (glift r).
Proof. intros w. reflexivity. Qed.

Lemma carries_bind {A C} (m : M Deliveries A) (k : A -> M Deliveries C) :
  carries m -> (forall a, carries (k a)) -> carries (gbind m k).
Proof.
  intros Hm Hk w. unfold gbind. specialize (Hm w). destruct (m w) as [[a|err] w1]; [|exact Hm].
  etrans; [exact Hm | apply Hk].
Qed.

Lemma carries_wrap {A} f (m : M Deliveries A) : carries m -> carries (gwrap f m).
Proof. intros Hm w. unfold gwrap. specialize (Hm w). by destruct (m w). Qed.

Lemma carries_beside {A} (m : M (Net B) A) : carries (beside_var m).
Proof. intros [n st]. unfold beside_var. destruct (m n). reflexivity. Qed.

Lemma carries_notify observers note : carries (notify observers note).
Proof. intros [n [st log]]. reflexivity. Qed.

Lemma carries_closing {A} ch (m : M Deliveries A) : carries m -> carries (closing ch m).
Proof.
  intros Hm w. unfold closing. specialize (Hm w). destruct (m w) as [r [n st]]. destruct (drive _ n). exact Hm.
Qed.

Lemma carries_deadline ctx (m : M Deliveries unit) : carries m -> carries (withDeadline ctx m).
Proof.
  intros Hm [n st]. unfold withDeadline. destruct (Ctx_Deadline ctx); [|reflexivity].
  destruct (connect ctx n) as [[|] n1]; [|reflexivity]. destruct (Connection_transport _); [|reflexivity].
  destruct (on_transport _ _ n1) as [[|] n2]; [|reflexivity].
  specialize (Hm (n2, st)). destruct (m (n2, st)) as [r [n3 st3]]. destruct (on_transport _ _ n3). exact Hm.
Qed.
End Carry.

Section Deliveries.
Context `{UnicodeTables} `{JsonErrors} {B : Type} `{Driver B} {St : Type} `{Handler St}.
Variables (R : St -> St -> Prop).
Context `{!PreOrder R}.
Hypothesis Hhandle : forall id st, R st (HandleMessage id st).2.

Lemma carries_ack c d : carries R (ack c d).
Proof. unfold ack. apply carries_bind; [done | apply carries_lift; done | intros _]. by apply carries_wrap, carries_beside. Qed.

Lemma carries_republish_on c exchange d ch : carries R (republish_on c exchange d ch).
Proof.
  unfold republish_on.
  repeat first
    [ apply carries_bind; [done | | intros ?] | apply carries_wrap | by apply carries_beside
    | by apply carries_lift | match goal with |- carries R (if ?b then _ else _) => destruct b end
    | match goal with |- carries R (match ?r with _ => _ end) => destruct r end ].
Qed.

Lemma carries_republish c ctx exchange d : carries R (republish c ctx exchange d).
Proof.
  intros w. unfold republish. destruct (Hook_Republish _); [reflexivity|].
  apply carries_deadline; [done|]. apply carries_bind; [done | by apply carries_beside | intros ch].
  apply carries_closing, carries_republish_on.
Qed.

Lemma carries_settle c ctx d handling : carries R (settle_delivery c ctx d handling).
Proof.
  assert (forall exchange what note, carries R (let! _ := gwrap (wrapf what) (republish c ctx exchange d) in
    let! _ := notify (Consumer_observers c) note in ack c d)) as Hr.
  { intros. apply carries_bind; [done | apply carries_wrap, carries_republish | intros _].
    apply carries_bind; [done | by apply carries_notify | intros _]. apply carries_ack. }
  unfold settle_delivery, republishForRetry, republishToDeadLetter.
  destruct (Consumer.Handling_Disposition handling); [apply carries_ack | destruct (TierFor _ _); apply Hr | apply Hr].
Qed.

Lemma carries_failing c id m : carries R m -> carries R (failing c id m).
Proof.
  intros Hm w. unfold failing. specialize (Hm w). destruct (m w) as [[u|err] w1]; [exact Hm|].
  etrans; [exact Hm|]. unfold failed. apply carries_bind; [done | by apply carries_notify | intros _; by apply carries_lift].
Qed.

(** A delivery moves the handler's world only by the call of the handler. *)
Lemma carries_delivery c ctx d : carries R (Consumer_handle c ctx d).
Proof.
  unfold Consumer_handle. apply carries_bind; [done | destruct (Redelivered d); [by apply carries_notify | by apply carries_lift] |].
  intros _. destruct (webhookEventID _) as [id|err].
  - intros [n [st log]]. specialize (Hhandle id st). unfold on_handler.
    destruct (HandleMessage id st) as [[handling|err] st1]; cbn [snd] in Hhandle.
    + etrans; [exact Hhandle|]. exact (carries_failing _ _ _ (carries_settle c ctx d handling) (n, (st1, log))).
    + etrans; [exact Hhandle|]. reflexivity.
  - apply carries_bind; [done | by apply carries_notify | intros _]. apply carries_failing, carries_wrap.
    exact (carries_settle c ctx d (Consumer.mkHandling Consumer.DispositionDead 0 (Some err) "" false)).
Qed.
End Deliveries.

(** ** The system *)

Section System.
Context {B P : Type} `{Driver B} `{Gorm.Gorm} `{!Gorm.GormDocumented} `{UrlParser} `{Queries.Postgres}.
Context `{UnicodeTables} `{JsonErrors} `{Openapi.Runtime} `{FloatConversion} `{Auth.Hmac} `{GoQuote}.
Context `{Stripe.StripeSDK} `{Stripe.SessionCreator P}.

(** The configuration of the API processes; each worker has its own. *)
Variables (cfg : Config.Config) (opts : Serving.Options P).

(** What the processes share; a connection and a channel belong to one. *)
Record Shared := mkShared {
  sh_db : Store.DB;
  sh_broker : B;
  sh_heap : list deadlineConn;
  sh_provider : P
}.

(** A turn of a process, with the state of its own it starts from. *)
Inductive Turn :=
| Serves (handler : Http.HandlerFunc (W := Serving.ApiWorld P)) (own : Http.Server (Serving.ApiWorld P))
    (calls : list Serving.Circumstance) (r : Wire.Request)
| Relays (worker : Config.Config) (instanceID : string) (connection : Connection B) (publisher : Publisher)
    (ctx : Ctx) (env : Outbox.Env) (elapsed : Duration) (faults : list Store.fault)
| Consumes (worker : Config.Config) (connection : Connection B) (ctx : Ctx) (d : Delivery) (elapsed : Duration)
    (faults : list Store.fault)
| Ticks (now : Time).

(** The drain of stale returns gets the two receives that are enough. *)
Definition relay_cycle (worker : Config.Config) (instanceID : string) (ctx : Ctx) (env : Outbox.Env) (elapsed : Duration)
    (w : Store.Store * (Net B * Publisher)) : Outbox.Result * option error * Outbox.Log * (Store.Store * (Net B * Publisher)) :=
  @Outbox.RunOnce _ (OutboxRepo.broker_publisher (Publish 2 ctx)) OutboxRepo.OutboxRepository _
    (Worker.relay_of worker instanceID) env elapsed w.

Definition consumer_turn (worker : Config.Config) (ctx : Ctx) (d : Delivery) (elapsed : Duration)
    (w : Deliveries (B:=B) (St:=Store.Store)) : res unit * Deliveries :=
  @Consumer_handle _ _ B _ Store.Store
    (@service_handler _ Stripe.stripe_interpreter _ EventRepo.EventRepository (Worker.consumer_of worker) elapsed)
    (Worker.messageConsumer worker) ctx d w.

Definition take (t : Turn) (s : Shared) : Shared :=
  match t with
  | Serves handler own calls r =>
      let start := Http.mkServer (Serving.mkApiWorld (sh_db s) (sh_provider s) calls [])
                     (Http.limiters own) (Http.rejected own) (Http.log own) in
      let w := Http.world (Wire.served_state (handler r (Wire.mkWriter ∅ None []) start)) in
      mkShared (Serving.api_db w) (sh_broker s) (sh_heap s) (Serving.api_provider w)
  | Relays worker instanceID connection publisher ctx env elapsed faults =>
      let '(_, (st, (n, _))) := relay_cycle worker instanceID ctx env elapsed
        (Store.mkStore (sh_db s) None faults, (mkNet (sh_broker s) (sh_heap s) connection, publisher)) in
      mkShared (Store.st_db st) (net_broker n) (net_heap n) (sh_provider s)
  | Consumes worker connection ctx d elapsed faults =>
      let '(_, (n, (st, _))) := consumer_turn worker ctx d elapsed
        (mkNet (sh_broker s) (sh_heap s) connection, (Store.mkStore (sh_db s) None faults, [])) in
      mkShared (Store.st_db st) (net_broker n) (net_heap n) (sh_provider s)
  | Ticks now => mkShared (Pipeline.at_time now (sh_db s)) (sh_broker s) (sh_heap s) (sh_provider s)
  end.

Definition run_turns (turns : list Turn) (s : Shared) : Shared := fold_left (fun s t => take t s) turns s.

(** A handler is one [Serving.Run] composed; the other sessions between its
    statements are lawful. *)
Definition composed (t : Turn) : Prop :=
  match t with
  | Serves handler _ calls _ =>
      Forall Serving.lawful_call calls /\
      exists random started version ping page hashes document w s0,
        Serving.Run cfg opts random started version ping page hashes document w = Ok (handler, s0) /\
        (forall r wr s, Http.world (Wire.served_state (page r wr s)) = Http.world s)
  | _ => True
  end.

#[local] Instance system_verifier : Receive.Verifier := Serving.verifier_of cfg opts.
#[local] Existing Instance Stripe.stripe_interpreter.
#[local] Existing Instance Checkout.demo_catalog.
#[local] Existing Instance EventRepo.EventRepository.
#[local] Existing Instance OutboxRepo.OutboxRepository.

(** A connection that went from [st] to [st'] took steps of the program. *)
Definition stepped (st st' : Store.Store) : Prop := Gorm.sound (Store.st_db st) -> Store.idle st ->
  Store.idle st' /\ rtc Pipeline.step (Store.st_db st) (Store.st_db st').

#[local] Instance stepped_preorder : PreOrder stepped.
Proof.
  split.
  - intros st Hs Hi. by split.
  - intros st1 st2 st3 H12 H23 Hs Hi. destruct (H12 Hs Hi) as [Hi2 R12].
    destruct (Pipeline.steps_sound Checkout.demo_honest _ _ Hs R12) as [Hs2 _].
    destruct (H23 Hs2 Hi2) as [Hi3 R23]. split; [done | by etrans].
Qed.

Lemma handler_steps s elapsed id st :
  stepped st (@service_handler _ _ _ EventRepo.EventRepository s elapsed id st).2.
Proof.
  intros Hs Hi.
  assert ((@service_handler _ _ _ EventRepo.EventRepository s elapsed id st).2 =
    Consumer.answer_world (Consumer.handle s id st)) as ->.
  { unfold service_handler, Consumer.Handle. by destruct (Consumer.handle s id st) as [[[[? ?] ?] ?] ?]. }
  destruct (Processing.handle_db s id st) as [[_ Hi'] _]; [split; [apply Hs | done]|]. split; [exact Hi'|].
  apply rtc_once, (Pipeline.step_handle _ _ s id (Store.st_faults st)).
  destruct st as [d saved faults]. unfold Store.idle in Hi. cbn in Hi. by subst saved.
Qed.

Lemma relay_steps worker instanceID ctx env elapsed d faults b :
  rtc Pipeline.step d (Store.st_db (relay_cycle worker instanceID ctx env elapsed (Store.mkStore d None faults, b)).2.1).
Proof.
  unfold relay_cycle, Outbox.RunOnce.
  apply rtc_once, (Pipeline.step_relay _ _ _ (Publish 2 ctx) (Worker.relay_of worker instanceID) env faults b).
  by destruct (Outbox.runOnce _ _ _) as [[[[? ?] ?] ?] ?].
Qed.

Lemma consumer_steps worker ctx d elapsed n db faults log : Gorm.sound db ->
  rtc Pipeline.step db
    (Store.st_db (consumer_turn worker ctx d elapsed (n, (Store.mkStore db None faults, log))).2.2.1).
Proof.
  intros Hs. unfold consumer_turn.
  apply (carries_delivery stepped (fun id st => handler_steps _ elapsed id st) (Worker.messageConsumer worker) ctx d
    (n, (Store.mkStore db None faults, log)) Hs eq_refl).
Qed.

(** A turn of any process is steps of the program on the shared database. *)
Lemma take_steps t s : composed t -> Gorm.sound (sh_db s) -> rtc Pipeline.step (sh_db s) (sh_db (take t s)).
Proof.
  intros Ht Hs. destruct t as [handler own calls r|worker inst conn pub ctx env elapsed faults
    |worker conn ctx d elapsed faults|now]; cbn [take composed] in *.
  - destruct Ht as (Hc & random & started & version & page & ping & hashes & document & w & s0 & HR & Hp).
    destruct (Serving.Run_moving _ _ _ _ _ _ _ _ _ _ _ _ HR Hp) as [Hm _]. cbn [sh_db].
    refine (proj2 (Hm r (Wire.mkWriter ∅ None [])
      (Http.mkServer (Serving.mkApiWorld (sh_db s) (sh_provider s) calls []) (Http.limiters own) (Http.rejected own)
         (Http.log own)) _)). exact Hc.
  - pose proof (relay_steps worker inst ctx env elapsed (sh_db s) faults
      (mkNet (sh_broker s) (sh_heap s) conn, pub)) as Hr.
    by destruct (relay_cycle _ _ _ _ _ _) as [[[? ?] ?] [? [? ?]]].
  - pose proof (consumer_steps worker ctx d elapsed (mkNet (sh_broker s) (sh_heap s) conn) (sh_db s) faults [] Hs) as Hr.
    by destruct (consumer_turn _ _ _ _ _) as [? [? [? ?]]].
  - by apply rtc_once, (Pipeline.step_clock _ _ now).
Qed.

Lemma run_turns_steps turns s : Forall composed turns -> Gorm.sound (sh_db s) ->
  rtc Pipeline.step (sh_db s) (sh_db (run_turns turns s)).
Proof.
  intros Ht. revert s. induction Ht as [|t turns Ht _ IH]; intros s Hs; [done|].
  pose proof (take_steps t s Ht Hs) as Hr. etrans; [exact Hr|]. apply IH.
  apply (Pipeline.steps_sound Checkout.demo_honest _ _ Hs Hr).
Qed.

Lemma run_turns_app before after s : run_turns (before ++ after) s = run_turns after (run_turns before s).
Proof. apply fold_left_app. Qed.
End System.

(** ** Properties *)

(** C9: The deployed system keeps its books. However many API processes and
    workers share one database, in whatever order their turns come (a request
    to a composed API, a cycle of a relay publishing through its own
    connection, a delivery consumed over AMQP, time passing), with any faults
    of the database, any broker and any payment provider: the database is
    reached by steps of the program; every order's account balances; every
    event that waits has the message that announces it; and later turns take
    back nothing earlier turns recorded. *)
Theorem deployment_keeps_the_books {B P : Type} `{Driver B} `{Gorm.Gorm} `{!Gorm.GormDocumented} `{UrlParser}
    `{Queries.Postgres} `{UnicodeTables} `{JsonErrors} `{Openapi.Runtime} `{FloatConversion} `{Auth.Hmac}
    `{GoQuote} `{Stripe.StripeSDK} `{Stripe.SessionCreator P} (cfg : Config.Config) (opts : Serving.Options P) (start : Time)
    (broker : B) (heap : list deadlineConn) (provider : P) (before after : list Turn) :
  Forall (composed cfg opts) (before ++ after) ->
  let opened := mkShared (Store.empty_db start) broker heap provider in
  let d := sh_db (run_turns before opened) in
  let d' := sh_db (run_turns (before ++ after) opened) in
  rtc (@Pipeline.step _ Stripe.stripe_interpreter _ _ (Serving.verifier_of cfg opts) _ Checkout.demo_catalog _)
    (Store.empty_db start) d' /\
  (forall oid o, Store.orders d' !! oid = Some o -> Pipeline.account d' oid o) /\
  (forall id e, Store.webhook_events d' !! id = Some e -> Store.EventRow_Status e = Webhooks.StatusPending ->
     exists i m, Store.outbox_events d' !! i = Some m /\ Store.OutboxRow_WebhookEventID m = id) /\
  Gorm.extends d d'.
Proof.
  intros [Hb Ha]%Forall_app opened d d'. pose proof (Pipeline.sound_empty start) as Hempty.
  pose proof (run_turns_steps cfg opts before opened Hb Hempty) as R1.
  destruct (Pipeline.steps_sound Checkout.demo_honest _ _ Hempty R1) as [S1 _].
  pose proof (run_turns_steps cfg opts after (run_turns before opened) Ha S1) as R2.
  destruct (Pipeline.steps_sound Checkout.demo_honest _ _ S1 R2) as [S2 X2].
  unfold d, d'. rewrite run_turns_app. split; [by etrans|]. split; [|split; [|exact X2]].
  - intros oid o. by apply Pipeline.sound_accounts.
  - intros id e He Hp. exact (Gorm.sound_queued _ S2 _ _ He Hp).
Qed.

(** ** Witness *)

#[local] Existing Instance Serving.sample_float.
#[local] Existing Instance Serving.sample_runtime.
#[local] Existing Instance Serving.sample_stripe.
#[local] Existing Instance Serving.sample_sessions.
#[local] Existing Instance Serving.sample_text.
#[local] Existing Instance Samples.sample_unicode.
#[local] Existing Instance Samples.sample_errors.
#[local] Existing Instance Samples.sample_postgres.
#[local] Existing Instance Auth.sample_hmac.
#[local] Existing Instance Checkout.sample_urls.
#[local] Existing Instance Gorm.sql_gorm.
#[local] Existing Instance Gorm.sql_gorm_documented.
#[local] Existing Instance Messaging.sample_driver.

Definition sample_connection : Connection Messaging.Broker := New "amqp://x" "worker".

(** A caller's order at a process that just started. *)
Definition sample_serving (handler : Http.HandlerFunc) (s0 : Http.Server (Serving.ApiWorld unit)) : Turn :=
  Serves handler s0 [Serving.sample_call 1] (Serving.sample_order [Serving.sample_key]).

(** A relay with nothing to publish, and a delivery nobody can read. *)
Definition sample_background : list (Turn (P := unit)) :=
  [ Relays Serving.sample_cfg "worker-1" sample_connection NewPublisher (mkCtx None) OutboxRepo.sample_env Millisecond [];
    Consumes Serving.sample_cfg sample_connection (mkCtx None)
      (mkDelivery 7 false "msg_1" "payment.webhook.checkout.completed" "" "" "" 0 [] "")
      Millisecond [];
    Ticks 9 ].

(** Two API processes given the same order with a worker's turns between
    them: the order of the first is still there, once. *)
Lemma deployment_keeps_the_books_witness : exists handler s0,
  Serving.sample_api = Ok (handler, s0) /\
  let opened := mkShared (Store.empty_db 5) (Messaging.mkBroker [] [] 1) [] tt in
  let before := [sample_serving handler s0] in
  let after := sample_background ++ [sample_serving handler s0] in
  size (Store.orders (sh_db (run_turns (before ++ after) opened))) = 1%nat /\
  Messaging.br_acked (sh_broker (run_turns (before ++ after) opened)) = [7] /\
  (forall oid o, Store.orders (sh_db (run_turns (before ++ after) opened)) !! oid = Some o ->
     Pipeline.account (sh_db (run_turns (before ++ after) opened)) oid o) /\
  Gorm.extends (sh_db (run_turns before opened)) (sh_db (run_turns (before ++ after) opened)).
Proof.
  destruct Serving.sample_api as [[handler s0]|err] eqn:E; [|discriminate E].
  exists handler, s0. split; [reflexivity|]. intros opened before after.
  assert (match Serving.sample_api with
          | Ok (h, s) =>
              let s' := run_turns (sample_serving h s :: sample_background ++ [sample_serving h s]) opened in
              size (Store.orders (sh_db s')) = 1%nat /\ Messaging.br_acked (sh_broker s') = [7]
          | Err _ => False
          end) as Hv by (vm_compute; split; reflexivity).
  rewrite E in Hv. destruct Hv as [H1 H2]. split; [exact H1|]. split; [exact H2|].
  destruct (deployment_keeps_the_books Serving.sample_cfg Serving.sample_opts 5 (Messaging.mkBroker [] [] 1) [] tt
    before after) as (_ & Hacc & _ & Hext).
  - assert (composed Serving.sample_cfg Serving.sample_opts (sample_serving handler s0)) as Hc.
    { split; [repeat constructor|]. exists (Ok (repeat 7 32)), None, "dev", (fun _ => None), Serving.sample_page, None, "", Serving.sample_world, s0.
      split; [exact E|]. reflexivity. }
    repeat (apply Forall_cons_2; [first [exact Hc | exact I]|]). apply Forall_nil_2.
  - split; [exact Hacc | exact Hext].
Defined.
