(* ===== verification/Lifecycle.v ===== *)
(** * The processes: [internal/runtime], [internal/platform] and [cmd]

    What a process acquires on its way up and gives back on its way down: the
    logger, telemetry, the pool, the connections to the broker. A process is
    the list of what it did together with its answer; its deferred calls run
    when its body has ended, in whatever way. *)

From S2P Require Import Prelude GoLib Errsanitize Netip Config Worker Samples.
From S2P Require JsonText.
From S2P Require Openapi.
From S2P Require Http.
From S2P Require Outbox.
From S2P Require Consumer.
From S2P Require Auth.
From S2P Require Health.
From S2P Require Metrics.
From S2P Require Gorm.
From S2P Require Queries.
From S2P Require Stripe.
From S2P Require Serving.

(** ** What a process does *)

Inductive Resource : Type :=
| LoggerSink
| TracerProvider (endpoint : string)
| MeterProvider (endpoint : string) (interval : Duration)
| Pool (maxOpen maxIdle : Z) (lifetime : Duration)
| Connection (url name : string)
| PublisherChannel.

#[export] Instance Resource_eq_dec : EqDecision Resource.
Proof. solve_decision. Defined.

(** [Running] is the time its components serve; their own lines are theirs. *)
Inductive Event : Type :=
| Acquired (r : Resource)
| Released (r : Resource)
| Logged (l : line)
| Running.

(** Its events, and its answer. *)
Definition Proc (A : Type) : Type := (list Event * res A)%type.

Definition pret {A} (a : A) : Proc A := ([], Ok a).
Definition pfail {A} (err : error) : Proc A := ([], Err err).
Definition lifted {A} (r : res A) : Proc A := ([], r).
Definition emit (es : list Event) : Proc unit := (es, Ok tt).

Definition pbind {A B} (p : Proc A) (k : A -> Proc B) : Proc B :=
  match p.2 with
  | Ok a => (p.1 ++ (k a).1, (k a).2)
  | Err err => (p.1, Err err)
  end.
Notation "'do*' x := p 'in' k" := (pbind p (fun x => k)) (at level 10, x pattern, k at level 200) : go_scope.

Definition pwrap {A} (f : error -> error) (p : Proc A) : Proc A := (p.1, res_wrap f p.2).

(** [defer close] before [body]. *)
Definition defer {A} (close : list Event) (body : Proc A) : Proc A := (body.1 ++ close, body.2).

(** [if err := r.Close(); err != nil { logger.Error(message, ...) }]. *)
Definition complaint (message : string) (err : option error) : list Event :=
  match err with Some _ => [Logged (mkLine ErrorLevel message (SanitizedError err))] | None => [] end.
Definition closing (r : Resource) (message : string) (err : option error) : list Event :=
  Released r :: complaint message err.

(** [if err := ...; err != nil { logger.Warn(message, ...) }]. *)
Definition tolerated {A} (message : string) (p : Proc A) : Proc unit :=
  match p.2 with
  | Ok _ => (p.1, Ok tt)
  | Err err => (p.1 ++ [Logged (mkLine Warn message (SanitizedError (Some err)))], Ok tt)
  end.

(** [retry.Do]: the attempts that ran, the context ending with [cause] in the
    wait after the last one. [Worker.Do] has the waits. *)
Fixpoint Retry {X A} (attempt : X -> Proc A) (cause : error) (x : X) (more : list X) : Proc A :=
  match (attempt x).2, more with
  | Ok a, _ => attempt x
  | Err lastErr, [] => ((attempt x).1, Err (ErrWrap2 "retry deadline reached: last error: " lastErr "; context: " cause ""))
  | Err _, y :: more => ((attempt x).1 ++ (Retry attempt cause y more).1, (Retry attempt cause y more).2)
  end.

(** ** [logging.go]

    [zapcore.Level.UnmarshalText] and [zap.Config.Build] answer [parse_level]
    and [build]. The fields every line of the logger carries: *)
Section Logging.
Context `{UnicodeTables} `{GoQuote}.

Definition logging_New (cfg : Config) (parse_level : string -> option error) (build : option error) : res (list field) :=
  match parse_level (ToLower (LogLevel cfg)) with
  | Some err => Err (wrapf "parse LOG_LEVEL" err)
  | None =>
      if negb (((LogFormat cfg =s? "console") || (LogFormat cfg =s? "json"))) then Err (ErrNew ("unsupported LOG_FORMAT " +:+ Quote (LogFormat cfg)))
      else match build with
           | Some err => Err (wrapf "build logger" err)
           | None => Ok [("service", Config.ServiceName cfg); ("environment", Environment cfg)]
           end
  end.

(** The logger a process builds when it was given none. *)
Definition open_logger (cfg : Config) (given : bool) (parse_level : string -> option error) (build : option error)
    : Proc (list Resource) :=
  if given then pret []
  else do* _ := lifted (logging_New cfg parse_level build) in ([Acquired LoggerSink], Ok [LoggerSink]).
End Logging.

(** ** [telemetry.go] *)

Record TelemetryAnswers := mkTelemetryAnswers {
  ta_resource : option error;
  ta_traces : option error;
  ta_metrics : option error;
  ta_runtime : option error
}.

Definition signalEndpoint (base signalPath : string) : string := TrimRight base 47 +:+ signalPath.

Definition tracer (cfg : Config) : Resource := TracerProvider (signalEndpoint (OTelExporterEndpoint cfg) "/v1/traces").
Definition meter (cfg : Config) : Resource :=
  MeterProvider (signalEndpoint (OTelExporterEndpoint cfg) "/v1/metrics") (OTelExportInterval cfg).

(** What [Shutdown] has to shut down, in its order. *)
Definition telemetry_New (cfg : Config) (a : TelemetryAnswers) : Proc (list Resource) :=
  if negb (OTelEnabled cfg) then pret [] else
  match ta_resource a with
  | Some err => pfail (wrapf "create telemetry resource" err)
  | None =>
  match ta_traces a with
  | Some err => pfail (wrapf "create trace exporter" err)
  | None =>
      do* _ := emit [Acquired (tracer cfg)] in
      match ta_metrics a with
      | Some err => ([Released (tracer cfg)], Err (wrapf "create metric exporter" err))
      | None =>
          do* _ := emit [Acquired (meter cfg)] in
          match ta_runtime a with
          | Some err => ([Released (meter cfg); Released (tracer cfg)], Err (wrapf "start runtime instrumentation" err))
          | None => pret [meter cfg; tracer cfg]
          end
      end
  end end.

(** The deferred shutdown, each provider with its answer. *)
Definition shutdown_telemetry (providers : list Resource) (meterErr tracerErr : option error) : list Event :=
  (Released <$> providers) ++
  match providers with [] => [] | _ => complaint "telemetry shutdown failed" (Http.Join meterErr tracerErr) end.

(** ** [database.go] *)

Record OpenAnswers := mkOpenAnswers {
  oa_driver : option error;
  oa_gorm : option error;
  oa_tracing : option error;
  oa_ping : option error
}.

Definition pool (cfg : Config) : Resource :=
  Pool (DatabaseMaxOpenConnections cfg) (DatabaseMaxIdleConnections cfg) (DatabaseConnectionMaxLifetime cfg).

Definition database_Open (cfg : Config) (a : OpenAnswers) : Proc unit :=
  match oa_driver a with
  | Some err => pfail (wrapf "open postgres driver" err)
  | None =>
      do* _ := emit [Acquired (pool cfg)] in
      match oa_gorm a with
      | Some err => ([Released (pool cfg)], Err (wrapf "initialize gorm" err))
      | None =>
      match oa_tracing a with
      | Some err => ([Released (pool cfg)], Err (wrapf "enable gorm telemetry" err))
      | None =>
      match oa_ping a with
      | Some err => ([Released (pool cfg)], Err (wrapf "ping postgres" err))
      | None => emit [Logged (mkLine Info "postgres connection established" [])]
      end end end
  end.

(** ** What both processes open first *)

(** [pl_open] is the first attempt to open the pool and [pl_reopen] the later
    ones; [pl_timeout] is the error of the startup context. *)
Record Platform := mkPlatform {
  pl_level : string -> option error;
  pl_build : option error;
  pl_telemetry : TelemetryAnswers;
  pl_meter_close : option error;
  pl_tracer_close : option error;
  pl_refuses : Metrics.Provider;
  pl_open : OpenAnswers;
  pl_reopen : list OpenAnswers;
  pl_timeout : error;
  pl_pool_close : option error;
  pl_callback : option error
}.

Section Platform.
Context `{UnicodeTables} `{GoQuote}.

Definition with_platform (cfg : Config) (given_logger : bool) (p : Platform) (body : Proc unit) : Proc unit :=
  do* logger := open_logger cfg given_logger (pl_level p) (pl_build p) in
  defer (Released <$> logger) (
  do* providers := telemetry_New cfg (pl_telemetry p) in
  defer (shutdown_telemetry providers (pl_meter_close p) (pl_tracer_close p)) (
  do* _ := lifted (res_wrap (wrapf "build metrics") (Metrics.NewWithProvider (pl_refuses p))) in
  do* _ := pwrap (wrapf "initialize postgres") (Retry (database_Open cfg) (pl_timeout p) (pl_open p) (pl_reopen p)) in
  defer (closing (pool cfg) "postgres shutdown failed" (pl_pool_close p)) (
  do* _ := lifted (res_wrap (wrapf "instrument postgres pool") (Metrics.RegisterPoolMetrics (pl_refuses p) (pl_callback p) true)) in
  body))).
End Platform.

(** ** [internal/runtime/worker] *)

(** [go_relay] and [go_relay_again] answer the attempts to reach the broker;
    [w_returned] is the components in the order in which they return. *)
Record WorkerAnswers := mkWorkerAnswers {
  w_relay : option error;
  w_relay_again : list (option error);
  w_warm : option error;
  w_random : res (list Z);
  w_hostname : res string;
  w_returned : list (option error);
  w_publisher_close : option error;
  w_metrics_close : option error;
  w_republish_close : option error;
  w_consumer_close : option error;
  w_relay_close : option error
}.

Definition answer (err : option error) : Proc unit := match err with None => pret tt | Some err => pfail err end.

(** The probe of the worker. *)
Definition worker_health {W} (cfg : Config) (version : string) (ping_db ping_broker : Health.Checker W) : Health.Service W :=
  Health.New (Config.ServiceName cfg) version {["postgres" := ping_db; "rabbitmq" := ping_broker]}.

Definition broker (cfg : Config) (suffix : string) : Resource := Connection (RabbitMQURL cfg) (Config.ServiceName cfg +:+ suffix).

(** The line of a start, values as text. *)
Definition worker_starting (cfg : Config) (version commit instanceID : string) : line :=
  let relay := Outbox.config (relay_of cfg instanceID) in
  mkLine Info "worker starting"
    [("health_address", HTTPAddress cfg); ("version", version); ("commit", commit); ("instance", instanceID);
     ("outbox_batch_size", pretty (Outbox.Config_BatchSize relay));
     ("outbox_interval", Duration_String (Outbox.Config_Interval relay));
     ("outbox_lease", Duration_String (Outbox.Config_LeaseDuration relay));
     ("consumer_concurrency", pretty (ConsumerConcurrency cfg)); ("consumer_prefetch", pretty (ConsumerPrefetch cfg));
     ("consumer_max_attempts", pretty (Consumer.Config_MaxAttempts (Consumer.config (consumer_of cfg))));
     ("consumer_retry_delays", String.concat "," (Duration_String <$> ConsumerRetryDelays cfg))].

Definition worker_components (cfg : Config) (version commit instanceID : string) (a : WorkerAnswers) : Proc unit :=
  do* _ := emit [Logged (worker_starting cfg version commit instanceID)] in
  do* _ := emit [Running] in answer (Wait (w_returned a)).

Definition worker_broker (cfg : Config) (version commit given_instance : string) (p : Platform) (a : WorkerAnswers) : Proc unit :=
  do* _ := emit [Acquired (broker cfg "-relay")] in
  do* _ := tolerated "rabbitmq unavailable at startup; the relay will keep retrying"
             (Retry answer (pl_timeout p) (w_relay a) (w_relay_again a)) in
  defer (closing (broker cfg "-relay") "rabbitmq shutdown failed" (w_relay_close a)) (
  do* _ := emit [Acquired (broker cfg "-consumer")] in
  defer (closing (broker cfg "-consumer") "consumer connection shutdown failed" (w_consumer_close a)) (
  do* _ := emit [Acquired (broker cfg "-republish")] in
  defer (closing (broker cfg "-republish") "republish connection shutdown failed" (w_republish_close a)) (
  do* _ := emit [Acquired (broker cfg "-metrics")] in
  defer (closing (broker cfg "-metrics") "metrics sampling connection shutdown failed" (w_metrics_close a)) (
  do* _ := emit [Acquired PublisherChannel] in
  do* _ := tolerated "outbox publisher not ready yet" (answer (w_warm a)) in
  defer (closing PublisherChannel "publisher shutdown failed" (w_publisher_close a)) (
  do* instanceID := lifted (instance_of given_instance (w_random a) (w_hostname a) cfg) in
  worker_components cfg version commit instanceID a))))).

Definition worker_Run `{UnicodeTables} `{GoQuote} (cfg : Config) (given_logger : bool) (given_instance version commit : string)
    (p : Platform) (a : WorkerAnswers) : Proc unit :=
  with_platform cfg given_logger p (worker_broker cfg version commit given_instance p a).

(** ** [internal/runtime/api] *)

Section Api.
Context {B : Type} `{Gorm.Gorm} `{UrlParser} `{Queries.Postgres}.
Context `{UnicodeTables} `{GoQuote} `{JsonText.JsonErrors} `{Openapi.Openapi.Runtime} `{FloatConversion} `{Auth.Hmac}.
Context `{Stripe.StripeSDK} `{Stripe.SessionCreator B}.
Variables (cfg : Config) (opts : Serving.Options B) (version commit : string) (ping : Health.Checker (Serving.ApiWorld B))
  (page : Http.HandlerFunc (W := Serving.ApiWorld B)) (hashes : option (list string)) (document : string)
  (w : Serving.ApiWorld B).

(** The documentation outside development is announced. *)
Definition docs_warning : list Event :=
  match Http.DocsModeFor (DocsEnabled cfg) (IsDevelopment cfg) with
  | Http.DocsProtected =>
      [Logged (mkLine Warn "api documentation enabled outside development; /docs and /openapi.yaml require a valid X-API-Key"
         [("environment", Environment cfg)])]
  | _ => []
  end.

Definition api_starting : line :=
  mkLine Info "api starting" [("address", HTTPAddress cfg); ("version", version); ("commit", commit)].

(** [ended] is how the server ends. *)
Definition api_Run (given_logger : bool) (random : res (list Z)) (p : Platform) (ended : Http.RunEnd) : Proc unit :=
  do* apiKeyVerifier := lifted (res_wrap (wrapf "configure integration authentication")
                                  (Auth.NewAPIKeyVerifier random (IntegrationAPIKeys cfg))) in
  do* _ := answer (Serving.validateStripeConfiguration cfg opts) in
  with_platform cfg given_logger p (
  do* _ := emit docs_warning in
  do* server := lifted (Serving.server_of cfg opts apiKeyVerifier version ping page hashes document w) in
  do* _ := emit [Logged api_starting] in
  do* _ := emit [Running] in answer (Http.Run ended)).
End Api.

(** ** [cmd] *)

(** What [main] writes to standard error, and the exit code. *)
Definition main {A} (r : res A) : string * Z :=
  match r with Ok _ => ("", 0) | Err err => (WriteSanitizedError (Some err), 1) end.

(** [gooseLogger]: the messages of the migrations, fatal ones among them. *)
Definition gooseLogger (message : bool * string) : line :=
  mkLine (if message.1 then ErrorLevel else Info) (if message.1 then "migration fatal error" else "migration")
    [("message", Sanitize message.2)].

Record MigrateAnswers := mkMigrateAnswers {
  m_level : string -> option error;
  m_build : option error;
  m_driver : option error;
  m_ping : option error;
  m_dialect : option error;
  m_goose : string -> list (bool * string) * option error;
  m_close : option error
}.

(** A pool with the driver's settings. *)
Definition default_pool : Resource := Pool 0 2 0.

Definition migrate_run `{UnicodeTables} `{GoQuote} (loaded : res Config) (arguments : list string) (a : MigrateAnswers) : Proc unit :=
  match arguments with
  | [command] =>
      do* cfg := lifted loaded in
      do* logger := open_logger cfg false (m_level a) (m_build a) in
      defer (Released <$> logger) (
      do* _ := pwrap (wrapf "open postgres") (answer (m_driver a)) in
      do* _ := emit [Acquired default_pool] in
      defer (closing default_pool "postgres shutdown failed" (m_close a)) (
      do* _ := pwrap (wrapf "ping postgres") (answer (m_ping a)) in
      do* _ := pwrap (wrapf "set migration dialect") (answer (m_dialect a)) in
      if (command =s? "up") || (command =s? "down") || (command =s? "status") then
        do* _ := emit (Logged <$> (gooseLogger <$> (m_goose a command).1)) in
        pwrap (wrapf ("migrate " +:+ command)) (answer (m_goose a command).2)
      else pfail (ErrNew ("unknown migration command " +:+ Quote command))))
  | _ => pfail (ErrNew "usage: migrate <up|down|status>")
  end.

(** The processes as they are started: no dependency is substituted, the
    configuration is loaded first ([dotenv] and [parsed] are the local file and
    the environment). *)
Definition worker_main `{UnicodeTables} `{GoQuote} (dotenv : option error) (parsed : res Config) (version commit : string)
    (p : Platform) (a : WorkerAnswers) : string * Z :=
  main (do* cfg := lifted (Load dotenv parsed Worker.ServiceName Worker.DefaultAddress true) in
        worker_Run cfg false "" version commit p a).2.

Definition api_main {B : Type} `{Gorm.Gorm} `{UrlParser} `{Queries.Postgres} `{UnicodeTables} `{GoQuote} `{JsonText.JsonErrors}
    `{Openapi.Openapi.Runtime} `{FloatConversion} `{Auth.Hmac} `{Stripe.StripeSDK} `{Stripe.SessionCreator B}
    (dotenv : option error) (parsed : res Config) (version commit : string) (ping : Health.Checker (Serving.ApiWorld B))
    (page : Http.HandlerFunc (W := Serving.ApiWorld B)) (hashes : option (list string)) (document : string)
    (w : Serving.ApiWorld B) (random : res (list Z)) (p : Platform) (ended : Http.RunEnd) : string * Z :=
  main (do* cfg := lifted (Load dotenv parsed Serving.ServiceName Serving.DefaultAddress false) in
        api_Run cfg (Serving.mkOptions None None) version commit ping page hashes document w false random p ended).2.

Definition migrate_main `{UnicodeTables} `{GoQuote} (dotenv : option error) (parsed : res Config) (arguments : list string)
    (a : MigrateAnswers) : string * Z :=
  main (migrate_run (Load dotenv parsed "payments-migrate" ":0" false) arguments a).2.

(** ** Watching a process

    The resources held, the last acquired first, and what was held each time
    the components ran; [None] once something is released that is not the last
    acquired, or twice, or without having been acquired. *)
Fixpoint watch (held : list Resource) (es : list Event) : option (list Resource * list (list Resource)) :=
  match es with
  | [] => Some (held, [])
  | Acquired r :: es => watch (r :: held) es
  | Released r :: es =>
      match held with
      | top :: held => if decide (top = r) then watch held es else None
      | [] => None
      end
  | Logged _ :: es => watch held es
  | Running :: es => '(after, runs) ← watch held es; Some (after, held :: runs)
  end.

Lemma watch_app held es es' : watch held (es ++ es') =
  '(after, runs) ← watch held es; '(after', runs') ← watch after es'; Some (after', runs ++ runs').
Proof.
  revert held. induction es as [|[r|r|l|] es IH]; intros held; cbn [watch app mbind option_bind]; [|apply IH| |apply IH|].
  - by destruct (watch held es') as [[after runs]|].
  - destruct held as [|top held]; [done|]. destruct (decide (top = r)); [apply IH | done].
  - rewrite IH. destruct (watch held es) as [[after runs]|]; [|done]. cbn [mbind option_bind].
    by destruct (watch after es') as [[after' runs']|].
Qed.

(** A process that starts with [held] ends with [after], its components having
    run with [runs], and its answer satisfies [P]. *)
Record goes {A} (held after : list Resource) (runs : list (list Resource)) (P : res A -> Prop) (p : Proc A) : Prop := {
  goes_watch : watch held p.1 = Some (after, runs);
  goes_answer : P p.2
}.

Section Goes.
Context {A : Type}.
Implicit Types (P : res A -> Prop) (p : Proc A).

Lemma goes_lifted held P (r : res A) : P r -> goes held held [] P (lifted r).
Proof. by split. Qed.

Lemma goes_weaken held after runs (P P' : res A -> Prop) p :
  (forall r, P r -> P' r) -> goes held after runs P p -> goes held after runs P' p.
Proof. intros HP [? ?]. split; [done | by apply HP]. Qed.

Lemma goes_wrap held after runs (P : res A -> Prop) f p :
  goes held after runs (fun r => P (res_wrap f r)) p -> goes held after runs P (pwrap f p).
Proof. by intros [? ?]. Qed.

(** What a deferred call gives back. *)
Lemma goes_defer held mid after runs P close p :
  goes held mid runs P p -> watch mid close = Some (after, []) -> goes held after runs P (defer close p).
Proof.
  intros [Hw Ha] Hc. split; [|exact Ha]. cbn [defer fst]. rewrite watch_app, Hw. cbn [mbind option_bind].
  rewrite Hc. cbn [mbind option_bind]. by rewrite app_nil_r.
Qed.

Lemma goes_bind {X} held mid after runs (a : X) (p : Proc X) (k : X -> Proc A) P :
  goes held mid [] (fun r => r = Ok a) p -> goes mid after runs P (k a) -> goes held after runs P (pbind p k).
Proof.
  intros [Hw Ha] [Hw' Ha']. unfold pbind. rewrite Ha. split; [|exact Ha']. cbn [fst].
  rewrite watch_app, Hw. cbn [mbind option_bind]. rewrite Hw'. by destruct (watch _ _); cbn.
Qed.

Lemma goes_stop {X} held after P (p : Proc X) (k : X -> Proc A) err :
  goes held after [] (fun r => r = Err err) p -> P (Err err) -> goes held after [] P (pbind p k).
Proof. intros [Hw Ha] HP. unfold pbind. rewrite Ha. by split. Qed.
End Goes.

Lemma goes_emit held after runs es : watch held es = Some (after, runs) -> goes held after runs (fun r => r = Ok tt) (emit es).
Proof. by split. Qed.

Lemma watch_closing held r message err : watch (r :: held) (closing r message err) = Some (held, []).
Proof. cbn [closing watch]. rewrite decide_True by done. by destruct err. Qed.

Lemma goes_tolerated {A} held (p : Proc A) message : watch held p.1 = Some (held, []) ->
  goes held held [] (fun r => r = Ok tt) (tolerated message p).
Proof.
  intros Hw. unfold tolerated. destruct p.2; split; cbn [fst snd]; [done..| |done].
  by rewrite watch_app, Hw.
Qed.

(** ** Lemmas: what each part opens *)

Definition fails {A} (r : res A) : Prop := exists err, r = Err err.

(** A call that leaves [after] and answers [a], or opens nothing and fails. *)
Definition opens {A} (ready : bool) (held after : list Resource) (a : A) (p : Proc A) : Prop :=
  if ready then goes held after [] (fun r => r = Ok a) p else goes held held [] fails p.

(** A process whose components run with [runs] if it starts, and that fails
    otherwise. *)
Definition goes_if {A} (ready : bool) (held after : list Resource) (runs : list (list Resource)) (P : res A -> Prop)
    (p : Proc A) : Prop :=
  goes held after (if ready then runs else []) (fun r => if ready then P r else fails r) p.

Lemma goes_if_bind {X A} b b' held mid runs P (x : X) (p : Proc X) (k : X -> Proc A) :
  opens b held mid x p -> goes_if b' mid held runs P (k x) -> goes_if (b && b') held held runs P (pbind p k).
Proof.
  intros Hp Hk. destruct b; cbn [andb opens] in *; [by eapply goes_bind|]. destruct Hp as [Hw [err E]].
  eapply goes_stop; [by split | by exists err].
Qed.

Lemma goes_if_lift {X A} b held runs P (r : res X) (k : X -> Proc A) :
  (forall x, r = Ok x -> goes_if b held held runs P (k x)) -> goes_if (is_ok r && b) held held runs P (pbind (lifted r) k).
Proof.
  intros Hk. destruct r as [x|err]; cbn [is_ok andb].
  - eapply goes_bind; [by apply goes_lifted | by apply Hk].
  - eapply goes_stop; [by apply goes_lifted | by exists err].
Qed.

Lemma is_ok_wrap {X} f (r : res X) : is_ok (res_wrap f r) = is_ok r.
Proof. by destruct r. Qed.

(** A resource held around a body. *)
Lemma goes_hold {A} held runs (P : res A -> Prop) r message err body :
  goes (r :: held) (r :: held) runs P body -> goes (r :: held) held runs P (defer (closing r message err) body).
Proof. intros Hb. eapply goes_defer; [exact Hb | apply watch_closing]. Qed.

(** *** The logger and telemetry *)

Definition logger_held (given : bool) : list Resource := if given then [] else [LoggerSink].

Lemma open_logger_opens `{UnicodeTables} `{GoQuote} held cfg given level build :
  opens (given || is_ok (logging_New cfg level build)) held (logger_held given ++ held) (logger_held given)
    (open_logger cfg given level build).
Proof.
  unfold open_logger. destruct given; [by split|]. destruct (logging_New cfg level build) as [fields|err]; [by split|].
  split; [done | by exists err].
Qed.

Definition all_fine (answers : list (option error)) : bool :=
  forallb (fun a => match a with None => true | Some _ => false end) answers.

Definition telemetry_ready (cfg : Config) (a : TelemetryAnswers) : bool :=
  negb (OTelEnabled cfg) || all_fine [ta_resource a; ta_traces a; ta_metrics a; ta_runtime a].

Definition telemetry_held (cfg : Config) : list Resource := if OTelEnabled cfg then [meter cfg; tracer cfg] else [].

Lemma telemetry_opens held cfg a :
  opens (telemetry_ready cfg a) held (telemetry_held cfg ++ held) (telemetry_held cfg) (telemetry_New cfg a).
Proof.
  unfold telemetry_ready, telemetry_New, telemetry_held. destruct (OTelEnabled cfg); cbn [negb orb]; [|by split].
  destruct a as [[?|] [?|] [?|] [?|]]; (split; [cbn; by rewrite ?decide_True by done | first [done | by eexists]]).
Qed.

Lemma watch_telemetry held cfg e1 e2 : watch (telemetry_held cfg ++ held) (shutdown_telemetry (telemetry_held cfg) e1 e2) = Some (held, []).
Proof.
  unfold telemetry_held, shutdown_telemetry. destruct (OTelEnabled cfg); [|done]. cbn. rewrite !decide_True by done.
  by destruct (Http.Join e1 e2).
Qed.

Lemma watch_logger held given : watch (logger_held given ++ held) (Released <$> logger_held given) = Some (held, []).
Proof. destruct given; [done|]. cbn. by rewrite decide_True. Qed.

(** *** The pool, after any number of attempts *)

Definition open_ready (a : OpenAnswers) : bool := all_fine [oa_driver a; oa_gorm a; oa_tracing a; oa_ping a].

Lemma database_opens held cfg a : opens (open_ready a) held (pool cfg :: held) tt (database_Open cfg a).
Proof.
  unfold database_Open, open_ready. destruct a as [[?|] [?|] [?|] [?|]];
    (split; [cbn; by rewrite ?decide_True by done | first [done | by eexists]]).
Qed.

Lemma Retry_opens {X A} (ready : X -> bool) held after (a : A) (attempt : X -> Proc A) cause x more :
  (forall x, opens (ready x) held after a (attempt x)) -> opens (existsb ready (x :: more)) held after a (Retry attempt cause x more).
Proof.
  intros Ha. revert x. induction more as [|y more IH]; intros x; pose proof (Ha x) as Hx; cbn [existsb Retry];
    destruct (ready x); cbn [orb opens] in *; destruct Hx as [Hw Hr].
  - rewrite Hr. by split.
  - destruct Hr as [err ->]. by split; [|eexists].
  - rewrite Hr. by split.
  - destruct Hr as [err ->]. specialize (IH y). cbn [existsb] in IH. unfold opens in *.
    destruct (ready y || existsb ready more); destruct IH as [Hw' Hr']; (split; [|exact Hr']); cbn [fst];
      rewrite watch_app, Hw; cbn [mbind option_bind]; by rewrite Hw'.
Qed.

Lemma opens_wrap {A} b held after (a : A) f p : opens b held after a p -> opens b held after a (pwrap f p).
Proof. destruct b; intros [Hw Hr]; (split; [exact Hw|]); cbn [pwrap snd]; [by rewrite Hr|]. destruct Hr as [err ->]. by eexists. Qed.

(** *** What both processes open first *)

Section Opened.
Context `{UnicodeTables} `{GoQuote}.
Variables (cfg : Config) (given_logger : bool) (p : Platform).

Definition platform_held : list Resource := pool cfg :: telemetry_held cfg ++ logger_held given_logger ++ [].

(** The parts that must answer, [rest] being what comes behind them. *)
Definition platform_ready (rest : bool) : bool :=
  (given_logger || is_ok (logging_New cfg (pl_level p) (pl_build p))) &&
  (telemetry_ready cfg (pl_telemetry p) &&
   (is_ok (Metrics.NewWithProvider (pl_refuses p)) &&
    (existsb open_ready (pl_open p :: pl_reopen p) &&
     (is_ok (Metrics.RegisterPoolMetrics (pl_refuses p) (pl_callback p) true) && rest)))).

Lemma goes_platform rest runs P body : goes_if rest platform_held platform_held runs P body ->
  goes_if (platform_ready rest) [] [] runs P (with_platform cfg given_logger p body).
Proof.
  intros Hb. unfold platform_ready, with_platform.
  eapply goes_if_bind; [apply open_logger_opens|]. eapply goes_defer; [|apply watch_logger].
  eapply goes_if_bind; [apply telemetry_opens|]. eapply goes_defer; [|apply watch_telemetry].
  rewrite <- (is_ok_wrap (wrapf "build metrics")). eapply goes_if_lift. intros metrics _.
  eapply goes_if_bind; [apply opens_wrap, Retry_opens; intros a; apply database_opens|]. apply goes_hold.
  rewrite <- (is_ok_wrap (wrapf "instrument postgres pool") (Metrics.RegisterPoolMetrics _ _ _)). by eapply goes_if_lift.
Qed.
End Opened.

(** *** The broker, which need not answer *)

Lemma Retry_quiet {X A} (attempt : X -> Proc A) cause x more : (forall x, (attempt x).1 = []) -> (Retry attempt cause x more).1 = [].
Proof.
  intros Ha. revert x. induction more as [|y more IH]; intros x; cbn [Retry]; destruct (attempt x).2 eqn:E; cbn [fst];
    rewrite ?Ha, ?IH; done.
Qed.

Lemma answer_quiet err : (answer err).1 = [].
Proof. by destruct err. Qed.

(** The attempts as turns of [Worker.Do]. *)
Fixpoint turns_of {X A} (attempt : X -> Proc A) (cause : error) (x : X) (more : list X) : list Turn :=
  let failed := match (attempt x).2 with Ok _ => None | Err err => Some err end in
  match more with
  | [] => [mkTurn failed (Some cause)]
  | y :: more => mkTurn failed None :: turns_of attempt cause y more
  end.

Lemma Retry_is_Do {X A} (attempt : X -> Proc A) cause x more delay maximum :
  (Do delay maximum (turns_of attempt cause x more)).1 =
  Some (match (Retry attempt cause x more).2 with Ok _ => None | Err err => Some err end).
Proof.
  revert x delay. induction more as [|y more IH]; intros x delay; cbn [turns_of Retry Do turn_result];
    destruct (attempt x) as [es [a|err]]; cbn [snd]; [done..|done|].
  cbn [turn_ended]. specialize (IH y (next_delay maximum delay)).
  by destruct (Do _ _ (turns_of attempt cause y more)) as [answer waits].
Qed.

Definition worker_held (cfg : Config) (given_logger : bool) : list Resource :=
  PublisherChannel :: broker cfg "-metrics" :: broker cfg "-republish" :: broker cfg "-consumer" :: broker cfg "-relay" ::
  platform_held cfg given_logger.

Lemma goes_acquire {A} held runs (P : res A -> Prop) r body :
  goes (r :: held) held runs P body -> goes held held runs P (do* _ := emit [Acquired r] in body).
Proof. intros Hb. eapply goes_bind; [by apply goes_emit | exact Hb]. Qed.

Lemma goes_components held cfg version commit instanceID a :
  goes held held [held] (fun r => r = (answer (Wait (w_returned a))).2) (worker_components cfg version commit instanceID a).
Proof.
  eapply goes_bind; [by apply goes_emit|]. split; [by destruct (Wait _) | by destruct (Wait _)].
Qed.

Lemma goes_broker cfg given_logger version commit given_instance p a :
  goes_if (is_ok (instance_of given_instance (w_random a) (w_hostname a) cfg))
    (platform_held cfg given_logger) (platform_held cfg given_logger) [worker_held cfg given_logger]
    (fun r => r = (answer (Wait (w_returned a))).2) (worker_broker cfg version commit given_instance p a).
Proof.
  unfold worker_broker. apply goes_acquire. eapply goes_bind.
  { apply goes_tolerated. by rewrite Retry_quiet by apply answer_quiet. }
  apply goes_hold, goes_acquire, goes_hold, goes_acquire, goes_hold, goes_acquire, goes_hold, goes_acquire.
  eapply goes_bind; [apply goes_tolerated; by rewrite answer_quiet|]. apply goes_hold.
  rewrite <- (andb_true_r (is_ok _)). eapply goes_if_lift. intros instanceID _. apply goes_components.
Qed.

Lemma platform_ready_and `{UnicodeTables} `{GoQuote} cfg given_logger p b : platform_ready cfg given_logger p b = platform_ready cfg given_logger p true && b.
Proof. unfold platform_ready. by rewrite !andb_true_r, !andb_assoc. Qed.

Lemma docs_warning_quiet cfg held : watch held (docs_warning cfg) = Some (held, []).
Proof. unfold docs_warning. by destruct (Http.DocsModeFor _ _). Qed.

(** *** The commands *)

Lemma goes_stop_answer {A} held f err (k : unit -> Proc A) : (forall u, goes held held [] (fun _ => True) (k u)) ->
  goes held held [] (fun _ => True) (pbind (pwrap f (answer err)) k).
Proof.
  intros Hk. destruct err as [err|].
  - by eapply (goes_stop _ _ _ _ _ (f err)).
  - eapply goes_bind; [|apply Hk]. by split.
Qed.

Lemma watch_lines held (ls : list line) : watch held (Logged <$> ls) = Some (held, []).
Proof. induction ls as [|l ls IH]; [done | exact IH]. Qed.

(** A migration, too, gives back what it took. *)
Lemma migrate_releases `{UnicodeTables} `{GoQuote} loaded arguments a :
  watch [] (migrate_run loaded arguments a).1 = Some ([], []).
Proof.
  enough (goes [] [] [] (fun _ => True) (migrate_run loaded arguments a)) as [Hw _] by exact Hw.
  unfold migrate_run. destruct arguments as [|command [|? ?]]; [by split| |by split].
  destruct loaded as [cfg|err]; [|by split].
  eapply goes_bind; [by apply goes_lifted|].
  pose proof (open_logger_opens [] cfg false (m_level a) (m_build a)) as Hl.
  destruct (_ || _); cbn [opens] in Hl; [|destruct Hl as [Hw [err E]]; eapply goes_stop; [by split | done]].
  eapply goes_bind; [exact Hl|]. eapply goes_defer; [|apply watch_logger].
  apply goes_stop_answer. intros _. apply goes_acquire, goes_hold.
  apply goes_stop_answer. intros _. apply goes_stop_answer. intros _.
  destruct (_ || _); [|by split]. eapply goes_bind.
  - apply goes_emit, watch_lines.
  - apply goes_wrap. by destruct (m_goose a command).2.
Qed.

(** What a failed process writes is one sanitized line. *)
Lemma main_writes {A} (r : res A) : (main r).2 = 0 /\ (main r).1 = "" \/
  (main r).2 = 1 /\ exists text, (main r).1 = text +:+ of_codes [10] /\ len text <= MaxLength /\ clean text.
Proof. destruct r as [x|err]; [by left | right]. split; [done|]. exists (Sanitize (Error err)). split; [done | apply Sanitize_fits]. Qed.

(** ** Properties *)

(** C37: The processes hold what they need while they serve, and give everything
    back. In whatever way a worker or an API process starts, serves, fails and
    ends, and whatever its parts answer: each thing it acquired, in failed
    attempts too, is released once, in reverse order, before it ends; its
    components ran at most once, and then exactly the resources named here were
    open. It serves exactly when its own parts answer: for the worker the
    logger, telemetry, the instruments, the pool (in one of its attempts) and an
    identity, but not the broker; for the API what [Serving.Run] asks. A process
    that served answers what its components did, one that could not start
    fails. *)
Theorem processes_release_what_they_hold {B : Type} `{Gorm.Gorm} `{UrlParser} `{Queries.Postgres}
    `{UnicodeTables} `{GoQuote} `{JsonText.JsonErrors} `{Openapi.Openapi.Runtime} `{FloatConversion} `{Auth.Hmac}
    `{Stripe.StripeSDK} `{Stripe.SessionCreator B} (cfg : Config) (given_logger : bool) (given_instance version commit : string)
    (p : Platform) (a : WorkerAnswers) (opts : Serving.Options B) (ping : Health.Checker (Serving.ApiWorld B))
    (page : Http.HandlerFunc (W := Serving.ApiWorld B)) (hashes : option (list string)) (document : string)
    (w : Serving.ApiWorld B) (random : res (list Z)) (ended : Http.RunEnd) (e : error) :
  let worker := worker_Run cfg given_logger given_instance version commit p a in
  let worker_starts := platform_ready cfg given_logger p (is_ok (instance_of given_instance (w_random a) (w_hostname a) cfg)) in
  let api := api_Run cfg opts version commit ping page hashes document w given_logger random p ended in
  let unready := if platform_ready cfg given_logger p true then None else Some e in
  let api_starts := is_ok (Serving.Run cfg opts random unready version ping page hashes document w) in
  (watch [] worker.1 = Some ([], if worker_starts then [worker_held cfg given_logger] else []) /\
   if worker_starts then worker.2 = (answer (Wait (w_returned a))).2 else fails worker.2) /\
  (watch [] api.1 = Some ([], if api_starts then [platform_held cfg given_logger] else []) /\
   if api_starts then api.2 = (answer (Http.Run ended)).2 else fails api.2).
Proof.
  intros worker worker_starts api unready api_starts. split.
  - by destruct (goes_platform cfg given_logger p _ _ _ _ (goes_broker cfg given_logger version commit given_instance p a)) as [? ?].
  - subst api api_starts unready. unfold api_Run, Serving.Run.
    destruct (Auth.NewAPIKeyVerifier random (IntegrationAPIKeys cfg)) as [v|err]; [|split; [done | by eexists]].
    cbn [res_wrap res_bind]. unfold pbind at 1. cbn [lifted fst snd app].
    destruct (Serving.validateStripeConfiguration cfg opts) as [err|]; [split; [done | by eexists]|].
    set (served := Serving.server_of cfg opts v version ping page hashes document w).
    assert (goes_if (is_ok served) (platform_held cfg given_logger) (platform_held cfg given_logger) [platform_held cfg given_logger]
      (fun r => r = (answer (Http.Run ended)).2)
      (do* _ := emit (docs_warning cfg) in do* server := lifted served in
       do* _ := emit [Logged (api_starting cfg version commit)] in do* _ := emit [Running] in answer (Http.Run ended))) as Hb.
    { eapply goes_bind; [apply goes_emit, docs_warning_quiet|]. rewrite <- (andb_true_r (is_ok _)). eapply goes_if_lift. intros server _.
      eapply goes_bind; [by apply goes_emit|]. split; by destruct (Http.Run ended). }
    apply (goes_platform cfg given_logger p) in Hb as [Hw Hr]. rewrite platform_ready_and in Hw, Hr.
    cbn [answer pret pbind fst snd app]. destruct (platform_ready cfg given_logger p true); by split.
Qed.

(** ** A worker without a broker

    The database answers the second attempt, the broker none: the worker
    serves, warns twice, and gives everything back although one connection
    fails to close. *)
Definition outage : error := ErrNew "connection refused".
Definition fine_platform : Platform :=
  mkPlatform (fun _ => None) None (mkTelemetryAnswers None None None None) None None (fun _ => None)
    (mkOpenAnswers None None None (Some outage)) [mkOpenAnswers None None None None] (ErrNew "deadline") None None.
Definition brokerless : WorkerAnswers :=
  mkWorkerAnswers (Some outage) [Some outage] (Some outage) (Ok [1; 2]) (Ok "") [None; Some outage; None]
    None None None (Some outage) None.

Example worker_serves_without_a_broker :
  let cfg := default_config 20 (2 * Minute) in
  let '(events, answered) := @worker_Run sample_unicode (fun s => s) cfg true "" "dev" "unknown" fine_platform brokerless in
  answered = Err outage /\
  watch [] events = Some ([], [worker_held cfg true]) /\
  (events ≫= fun e => match e with Logged l => [line_message l] | _ => [] end) =
    ["postgres connection established"; "rabbitmq unavailable at startup; the relay will keep retrying";
     "outbox publisher not ready yet"; "worker starting"; "consumer connection shutdown failed"].
Proof. vm_compute. split_and!; reflexivity. Qed.
