(* ===== verification/Sandbox.v ===== *)
(** * The sandbox: [internal/sandbox]

    Local tooling for reproducible payment flows: its configuration
    ([config.go]), the events it renders and signs ([events.go]), and what it
    reads from and removes in the local database ([store.go]). [SandboxCmd] has
    its client and its commands. *)

From S2P Require Import Prelude GoLib Errsanitize Json JsonText Netip Wire Store Queries Gorm Payments Stripe Samples.
From S2P Require Webhooks.
From S2P Require Config.
From S2P Require Auth.
From S2P Require OrderApp.
From S2P Require CheckoutRepo.
From S2P Require Checkout.
From S2P Require Inbox.
From S2P Require Pipeline.

(** ** [config.go] *)

Record Config := mkConfig {
  Environment : string;
  APIURL : string;
  APIKey : string;
  DatabaseURL : string;
  StripeKey : string;
  WebhookSecret : string
}.

Record Requirements := mkRequirements {
  Req_API : bool;
  Req_Database : bool;
  Req_Stripe : bool;
  Req_WebhookSecret : bool
}.

Definition defaultAPIURL : string := "http://localhost:8080".

(** [strings.Split] of a byte. *)
Fixpoint split_codes (c : Z) (l : list Z) : list (list Z) :=
  match l with
  | [] => [[]]
  | x :: t =>
      match split_codes c t with
      | [] => [[x]]
      | field :: fields => if x =? c then [] :: field :: fields else (x :: field) :: fields
      end
  end.

Definition firstAPIKey (value : string) : string :=
  default "" (List.find (fun key => key <>s? "") ((fun l => TrimSpace (of_codes l)) <$> split_codes 44 (codes value))).

(** [godotenv.Load] answers first; the environment is a function. *)
Definition LoadConfig (dotenv : option error) (Getenv : string -> string) : res Config :=
  match dotenv ≫= (fun err => if Is err Config.ErrNotExist then None else Some err) with
  | Some err => Err (wrapf "load .env" err)
  | None =>
      let apiURL := TrimSpace (Getenv "SANDBOX_API_URL") in
      let apiURL := if apiURL =s? "" then defaultAPIURL else apiURL in
      Ok (mkConfig (TrimSpace (Getenv "APP_ENV")) (TrimRight apiURL 47) (firstAPIKey (Getenv "INTEGRATION_API_KEYS"))
            (TrimSpace (Getenv "DATABASE_URL")) (TrimSpace (Getenv "STRIPE_SECRET_KEY"))
            (TrimSpace (Getenv "STRIPE_WEBHOOK_SECRET")))
  end.

(** [url.URL.Hostname]: the host without its port and brackets. *)
Definition validOptionalPort (l : list Z) : bool :=
  match l with [] => true | c :: ds => (c =? 58) && forallb Netip.is_digit ds end.

Definition Hostname (host : string) : string :=
  let l := codes host in
  let l := match cut_last 58 l with
           | Some (name, port) => if validOptionalPort (58 :: port) then name else l
           | None => l
           end in
  of_codes match l with
           | 91 :: rest => if bool_decide (last rest = Some 93) then removelast rest else l
           | _ => l
           end.

(** [net.ParseIP] refuses a zone; [net.IP.IsLoopback]. *)
Definition ParseIP (s : string) : option Addr :=
  match ParseAddr s with
  | Some (V6 bits zone) => if zone =s? "" then Some (V6 bits "") else None
  | a => a
  end.

Definition IsLoopback (a : Addr) : bool :=
  match Unmap a with
  | V4 bits => Z.shiftr bits 24 =? 127
  | V6 bits _ => bits =? 1
  | NoAddr => false
  end.

Section Validate.
Context `{UnicodeTables} `{UrlParser}.

Definition isLoopbackHost (host : string) : bool :=
  if EqualFold host "localhost" then true
  else match ParseIP host with Some address => IsLoopback address | None => false end.

Definition validateLoopbackHTTP (value : string) : option error :=
  match url_parse value with
  | None => Some (ErrNew "SANDBOX_API_URL must be an HTTP origin such as http://localhost:8080")
  | Some parsed =>
      if (URL_Scheme parsed <>s? "http") || (URL_Host parsed =s? "") || (URL_Path parsed <>s? "")
      then Some (ErrNew "SANDBOX_API_URL must be an HTTP origin such as http://localhost:8080")
      else if negb (isLoopbackHost (Hostname (URL_Host parsed)))
      then Some (ErrNew "SANDBOX_API_URL must point to localhost or a loopback address")
      else None
  end.

Definition TrimPrefix (s prefix : string) : string :=
  if HasPrefix s prefix then slice_from (String.length prefix) s else s.

Definition validateLoopbackPostgres (value : string) : option error :=
  match url_parse value with
  | None => Some (ErrNew "DATABASE_URL must be a PostgreSQL URL for the local sandbox")
  | Some parsed =>
      if ((URL_Scheme parsed <>s? "postgres") && (URL_Scheme parsed <>s? "postgresql")) || (URL_Host parsed =s? "")
      then Some (ErrNew "DATABASE_URL must be a PostgreSQL URL for the local sandbox")
      else if negb (isLoopbackHost (Hostname (URL_Host parsed)))
      then Some (ErrNew "sandbox DATABASE_URL must point to localhost or a loopback address")
      else if TrimPrefix (URL_Path parsed) "/" =s? ""
      then Some (ErrNew "sandbox DATABASE_URL must name a database")
      else None
  end.

Definition Validate (c : Config) (require : Requirements) : option error :=
  if (Environment c <>s? "development") && (Environment c <>s? "test")
  then Some (ErrNew "sandbox requires APP_ENV=development or APP_ENV=test") else
  match (if Req_API require then
           if APIKey c =s? "" then Some (ErrNew "sandbox requires at least one INTEGRATION_API_KEYS entry")
           else validateLoopbackHTTP (APIURL c)
         else None) with
  | Some err => Some err
  | None =>
  match (if Req_Database require then validateLoopbackPostgres (DatabaseURL c) else None) with
  | Some err => Some err
  | None =>
      if Req_Stripe require && negb (HasPrefix (StripeKey c) "sk_test_")
      then Some (ErrNew "sandbox requires a Stripe test key beginning with sk_test_")
      else if Req_WebhookSecret require && negb (HasPrefix (WebhookSecret c) "whsec_")
      then Some (ErrNew "sandbox requires STRIPE_WEBHOOK_SECRET beginning with whsec_")
      else None
  end end.
End Validate.

(** ** [store.go] *)

(** [payload #>> path] of a [jsonb] value, as text. *)
Class JsonPath : Type := json_text : string -> list string -> option string.

Record Reference := mkReference {
  Ref_OrderID : string;
  Ref_PaymentID : string;
  Ref_AttemptID : string;
  Ref_SessionID : string;
  Ref_PaymentIntentID : string;
  Ref_Amount : Z;
  Ref_Currency : string
}.

Record AggregateStatus := mkAggregateStatus {
  AS_OrderID : string;
  AS_OrderStatus : string;
  AS_PaymentID : string;
  AS_PaymentStatus : string;
  AS_AttemptID : string;
  AS_AttemptStatus : string;
  AS_ProviderEvent : string;
  AS_WebhookStatus : string;
  AS_OutboxStatus : string
}.

Definition zero_status : AggregateStatus := mkAggregateStatus "" "" "" "" "" "" "" "" "".

Record CleanupResult := mkCleanupResult {
  CR_OrderID : string;
  CR_Orders : Z;
  CR_Payments : Z;
  CR_Attempts : Z;
  CR_WebhookEvents : Z;
  CR_OutboxEvents : Z
}.

Record Scenario := mkScenario {
  Name : string;
  Fixture : string;
  Sc_OrderStatus : string;
  Sc_PaymentStatus : string;
  Sc_AttemptStatus : string;
  Sc_WebhookStatus : string;
  Sc_OutboxStatus : string
}.

(** [ORDER BY a.created_at DESC]; PostgreSQL does not say how ties are
    broken. *)
Definition Joined : Type := OrderRow * PaymentRow * AttemptRow.
Definition newest_attempt (a b : Joined) : Prop := AttemptRow_CreatedAt b.2 <= AttemptRow_CreatedAt a.2.
#[export] Instance newest_attempt_dec a b : base.Decision (newest_attempt a b) := Z_le_dec _ _.

Definition joined (orderID : string) (d : DB) : list Joined :=
  o ← rows_where (fun o => (OrderRow_ID o =s? orderID) && true) (orders d);
  p ← rows_where (fun p => PaymentRow_OrderID p =s? OrderRow_ID o) (payments d);
  a ← rows_where (fun a => AttemptRow_PaymentID a =s? PaymentRow_ID p) (payment_attempts d);
  [(o, p, a)].

Definition select_latest (orderID : string) : Stmt Joined :=
  select_one (fun d => merge_sort newest_attempt (joined orderID d)).

(** A string cannot hold the NULL of an attempt without a session. *)
Definition scan_reference (r : Joined) : res (Reference * string * option string) :=
  let '(o, p, a) := r in
  match AttemptRow_ProviderSessionID a with
  | None => Err (ErrNew "sql: Scan error: converting NULL to string is unsupported")
  | Some session =>
      Ok (mkReference (OrderRow_ID o) (PaymentRow_ID p) (AttemptRow_ID a) session "" (PaymentRow_Amount p)
            (PaymentRow_Currency p), OrderRow_IdempotencyKey o, AttemptRow_ProviderPaymentIntentID a)
  end.

Definition order_marker : string := "sandbox_order_".

Section Store.
Context `{GoQuote} `{JsonPath}.

(** [sql.ErrNoRows] becomes a message of its own. *)
Definition or_missing (missing what : string) (err : error) : error :=
  if Is err ErrNoRows then ErrNew missing else wrapf what err.

Definition Store_Reference (orderID : string) : M Store Reference :=
  let! row := gwrap (or_missing ("sandbox order " +:+ Quote orderID +:+ " or its checkout was not found")
                       "read sandbox checkout reference")
                (let! row := exec (select_latest orderID) in glift (scan_reference row)) in
  let '(reference, idempotencyKey, paymentIntent) := row in
  if negb (HasPrefix idempotencyKey order_marker)
  then gfail (ErrNew ("order " +:+ Quote orderID +:+ " was not created by the sandbox tool"))
  else gret (match paymentIntent with
             | Some intent => mkReference (Ref_OrderID reference) (Ref_PaymentID reference) (Ref_AttemptID reference)
                                (Ref_SessionID reference) intent (Ref_Amount reference) (Ref_Currency reference)
             | None => reference
             end).

(** The event a provider reported, with the status of its message. *)
Definition select_event (providerEventID : string) : Stmt (string * string) :=
  select_one (fun d =>
    w ← rows_where (fun w => (EventRow_Provider w =s? "stripe") && (EventRow_ProviderEventID w =s? providerEventID))
          (webhook_events d);
    (fun row => (EventRow_Status row.1, match row.2 with Some ob => OutboxRow_Status ob | None => "" end)) <$> left_join d w).

Definition Status (orderID providerEventID : string) : M Store AggregateStatus := fun s =>
  match exec (select_latest orderID) s with
  | (Err err, s) => (Err (or_missing ("sandbox order " +:+ Quote orderID +:+ " was not found") "read sandbox aggregate" err), s)
  | (Ok (o, p, a), s) =>
      let status event webhook outbox :=
        mkAggregateStatus (OrderRow_ID o) (OrderRow_Status o) (PaymentRow_ID p) (PaymentRow_Status p)
          (AttemptRow_ID a) (AttemptRow_Status a) event webhook outbox in
      if providerEventID =s? "" then (Ok (status "" "" ""), s)
      else match exec (select_event providerEventID) s with
           | (Ok (webhook, outbox), s) => (Ok (status providerEventID webhook outbox), s)
           | (Err err, s) =>
               if Is err ErrNoRows then (Ok (status providerEventID "" ""), s)
               else (Err (wrapf "read sandbox pipeline state" err), s)
           end
  end.

Definition matches (c : Scenario) (status : AggregateStatus) : bool :=
  (AS_OrderStatus status =s? Sc_OrderStatus c) && (AS_PaymentStatus status =s? Sc_PaymentStatus c) &&
  (AS_AttemptStatus status =s? Sc_AttemptStatus c) && (AS_WebhookStatus status =s? Sc_WebhookStatus c) &&
  (AS_OutboxStatus status =s? Sc_OutboxStatus c).

(** One wait of a polling loop: the context ended, or the ticker fired after
    others had changed what is polled. *)
Record Wait (S : Type) := mkWait { wait_ended : option error; wait_meanwhile : S -> S }.
#[global] Arguments wait_ended {S}.
#[global] Arguments wait_meanwhile {S}.

(** The loop over the waits so far: the last status it saw and its error, or
    [None] while it still polls. *)
Fixpoint WaitForScenario (orderID providerEventID : string) (scenario : Scenario) (waits : list (Wait DB))
    : Store -> option (AggregateStatus * option error) * Store := fun s =>
  match Status orderID providerEventID s with
  | (Err err, s) => (Some (zero_status, Some err), s)
  | (Ok status, s) =>
      if matches scenario status then (Some (status, None), s)
      else match waits with
           | [] => (None, s)
           | w :: waits =>
               match wait_ended w with
               | Some err => (Some (status, Some (wrapf ("wait for " +:+ Name scenario) err)), s)
               | None => WaitForScenario orderID providerEventID scenario waits
                           (mkStore (wait_meanwhile w (st_db s)) (st_saved s) (st_faults s))
               end
           end
  end.

(** *** [Cleanup] *)

(** [DELETE ... WHERE p]: what stays, and how many rows went. *)
Definition rest {R} (p : R -> bool) (m : gmap string R) : gmap string R := filter (fun kv => p kv.2 = false) m.
Definition delete_where {R} (p : R -> bool) (m : gmap string R) : gmap string R * Z :=
  (rest p m, Z.of_nat (length (rows_where p m))).

Definition still_referenced (table : string) : error :=
  ErrNew ("update or delete on table " +:+ table +:+ " violates foreign key constraint").

Definition mentions (orderID : string) (e : EventRow) : bool :=
  sql_eq (json_text (EventRow_Payload e) ["data"; "object"; "metadata"; "order_id"]) (Some orderID) ||
  sql_eq (json_text (EventRow_Payload e) ["data"; "object"; "client_reference_id"]) (Some orderID).

Definition mentioned (orderID : string) (d : DB) : list string :=
  EventRow_ID <$> rows_where (mentions orderID) (webhook_events d).

Definition lock_order (orderID : string) : Stmt string :=
  select_one (fun d => OrderRow_IdempotencyKey <$> rows_where (fun o => (OrderRow_ID o =s? orderID) && true) (orders d)).

Definition in_progress (row : InspectionRow) : bool :=
  one_of ["pending"; "processing"] (EventRow_Status row.1) ||
  negb (one_of ["published"; "failed"] match row.2 with Some ob => OutboxRow_Status ob | None => "published" end).

Definition count_busy (orderID : string) : Stmt Z := fun d =>
  Ok (Z.of_nat (length (List.filter in_progress
       (w ← rows_where (mentions orderID) (webhook_events d); left_join d w))), d).

Definition delete_outbox (orderID : string) : Stmt Z := fun d =>
  let '(t, n) := delete_where (fun ob => one_of (mentioned orderID d) (OutboxRow_WebhookEventID ob)) (outbox_events d) in
  Ok (n, set_outbox d t).

Definition delete_events (orderID : string) : Stmt Z := fun d =>
  if existsb (fun ob => one_of (mentioned orderID d) (OutboxRow_WebhookEventID ob)) (snd <$> map_to_list (outbox_events d))
  then Err (still_referenced "webhook_events")
  else let '(t, n) := delete_where (mentions orderID) (webhook_events d) in Ok (n, set_events d t).

Definition payments_of (orderID : string) (d : DB) : list PaymentRow :=
  rows_where (fun p => PaymentRow_OrderID p =s? orderID) (payments d).

Definition delete_attempts (orderID : string) : Stmt Z := fun d =>
  let '(t, n) := delete_where (fun a => one_of (PaymentRow_ID <$> payments_of orderID d) (AttemptRow_PaymentID a))
                   (payment_attempts d) in
  Ok (n, set_attempts d t).

Definition delete_payments (orderID : string) : Stmt Z := fun d =>
  if existsb (fun a => existsb (fun p => (AttemptRow_PaymentID a =s? PaymentRow_ID p) &&
                                         (AttemptRow_Provider a =s? PaymentRow_Provider p)) (payments_of orderID d))
       (snd <$> map_to_list (payment_attempts d))
  then Err (still_referenced "payments")
  else let '(t, n) := delete_where (fun p => PaymentRow_OrderID p =s? orderID) (payments d) in Ok (n, set_payments d t).

Definition delete_orders (orderID : string) : Stmt Z := fun d =>
  if existsb (fun p => existsb (fun o => (PaymentRow_OrderID p =s? OrderRow_ID o) &&
                                         (PaymentRow_Amount p =? OrderRow_Amount o) &&
                                         (PaymentRow_Currency p =s? OrderRow_Currency o))
                         (rows_where (fun o => OrderRow_ID o =s? orderID) (orders d)))
       (snd <$> map_to_list (payments d))
  then Err (still_referenced "orders")
  else let '(t, n) := delete_where (fun o => OrderRow_ID o =s? orderID) (orders d) in Ok (n, set_orders d t).

Definition execRows (stmt : Stmt Z) : M Store Z := gwrap (wrapf "delete sandbox rows") (exec stmt).

Definition cleanup_in_tx (orderID : string) : M Store CleanupResult :=
  let! idempotencyKey := gwrap (or_missing ("sandbox order " +:+ Quote orderID +:+ " was not found") "lock sandbox order")
                           (exec (lock_order orderID)) in
  if negb (HasPrefix idempotencyKey order_marker)
  then gfail (ErrNew ("refusing to delete order " +:+ Quote orderID +:+ ": it was not created by the sandbox tool"))
  else
  let! busy := gwrap (wrapf "check sandbox work in progress") (exec (count_busy orderID)) in
  if negb (busy =? 0)
  then gfail (ErrNew ("refusing to delete order " +:+ Quote orderID +:+ " while " +:+ pretty busy +:+
                      " event(s) are still in progress"))
  else
  let! outboxEvents := execRows (delete_outbox orderID) in
  let! webhookEvents := execRows (delete_events orderID) in
  let! attempts := execRows (delete_attempts orderID) in
  let! payments := execRows (delete_payments orderID) in
  let! orders := execRows (delete_orders orderID) in
  let! _ := gwrap (wrapf "commit sandbox cleanup") Commit in
  gret (mkCleanupResult orderID orders payments attempts webhookEvents outboxEvents).

Definition Cleanup (orderID : string) : M Store CleanupResult :=
  let! _ := gwrap (wrapf "begin sandbox cleanup") BeginTx in rollback_after (cleanup_in_tx orderID).
End Store.

(** ** [fixtures/*.json]

    [text] writes a quotation mark for each apostrophe. *)
Definition fixture_card_paid : string := text "{
  'id': 'evt_fixture',
  'object': 'event',
  'api_version': 'fixture',
  'created': 0,
  'type': 'checkout.session.completed',
  'data': {
    'object': {
      'id': 'cs_fixture',
      'object': 'checkout.session',
      'payment_status': 'paid',
      'status': 'complete',
      'amount_total': 0,
      'currency': 'brl',
      'client_reference_id': 'ord_fixture',
      'payment_intent': {
        'id': 'pi_fixture',
        'object': 'payment_intent'
      },
      'metadata': {
        'order_id': 'ord_fixture',
        'payment_id': 'pay_fixture',
        'payment_attempt_id': 'pat_fixture'
      }
    }
  }
}
".

Definition fixture_pix_processing : string := text "{
  'id': 'evt_fixture',
  'object': 'event',
  'api_version': 'fixture',
  'created': 0,
  'type': 'checkout.session.completed',
  'data': {
    'object': {
      'id': 'cs_fixture',
      'object': 'checkout.session',
      'payment_status': 'unpaid',
      'status': 'complete',
      'amount_total': 0,
      'currency': 'brl',
      'client_reference_id': 'ord_fixture',
      'payment_intent': {
        'id': 'pi_fixture',
        'object': 'payment_intent'
      },
      'metadata': {
        'order_id': 'ord_fixture',
        'payment_id': 'pay_fixture',
        'payment_attempt_id': 'pat_fixture'
      }
    }
  }
}
".

Definition fixture_pix_succeeded : string := text "{
  'id': 'evt_fixture',
  'object': 'event',
  'api_version': 'fixture',
  'created': 0,
  'type': 'checkout.session.async_payment_succeeded',
  'data': {
    'object': {
      'id': 'cs_fixture',
      'object': 'checkout.session',
      'payment_status': 'paid',
      'status': 'complete',
      'amount_total': 0,
      'currency': 'brl',
      'client_reference_id': 'ord_fixture',
      'payment_intent': {
        'id': 'pi_fixture',
        'object': 'payment_intent'
      },
      'metadata': {
        'order_id': 'ord_fixture',
        'payment_id': 'pay_fixture',
        'payment_attempt_id': 'pat_fixture'
      }
    }
  }
}
".

Definition fixture_pix_failed : string := text "{
  'id': 'evt_fixture',
  'object': 'event',
  'api_version': 'fixture',
  'created': 0,
  'type': 'checkout.session.async_payment_failed',
  'data': {
    'object': {
      'id': 'cs_fixture',
      'object': 'checkout.session',
      'payment_status': 'unpaid',
      'status': 'complete',
      'amount_total': 0,
      'currency': 'brl',
      'client_reference_id': 'ord_fixture',
      'payment_intent': {
        'id': 'pi_fixture',
        'object': 'payment_intent'
      },
      'metadata': {
        'order_id': 'ord_fixture',
        'payment_id': 'pay_fixture',
        'payment_attempt_id': 'pat_fixture'
      }
    }
  }
}
".

Definition fixture_checkout_expired : string := text "{
  'id': 'evt_fixture',
  'object': 'event',
  'api_version': 'fixture',
  'created': 0,
  'type': 'checkout.session.expired',
  'data': {
    'object': {
      'id': 'cs_fixture',
      'object': 'checkout.session',
      'payment_status': 'unpaid',
      'status': 'expired',
      'amount_total': 0,
      'currency': 'brl',
      'client_reference_id': 'ord_fixture',
      'payment_intent': {
        'id': 'pi_fixture',
        'object': 'payment_intent'
      },
      'metadata': {
        'order_id': 'ord_fixture',
        'payment_id': 'pay_fixture',
        'payment_attempt_id': 'pat_fixture'
      }
    }
  }
}
".

Definition fixtureFiles : gmap string string :=
  {["fixtures/card-paid.json" := fixture_card_paid;
    "fixtures/pix-processing.json" := fixture_pix_processing;
    "fixtures/pix-succeeded.json" := fixture_pix_succeeded;
    "fixtures/pix-failed.json" := fixture_pix_failed;
    "fixtures/checkout-expired.json" := fixture_checkout_expired]}.

(** ** [events.go] *)

Definition scenario_list : list Scenario :=
  [mkScenario "card-paid" "fixtures/card-paid.json" "paid" "succeeded" "succeeded" "processed" "published";
   mkScenario "pix-processing" "fixtures/pix-processing.json" "pending" "processing" "pending" "processed" "published";
   mkScenario "pix-succeeded" "fixtures/pix-succeeded.json" "paid" "succeeded" "succeeded" "processed" "published";
   mkScenario "pix-failed" "fixtures/pix-failed.json" "pending" "failed" "failed" "processed" "published";
   mkScenario "checkout-expired" "fixtures/checkout-expired.json" "pending" "pending" "expired" "processed" "published"].

Definition scenarios : gmap string Scenario := list_to_map ((fun s => (Name s, s)) <$> scenario_list).

Record fixtureObject := mkFixtureObject { FO_ID : string; FO_Object : string }.

Record fixtureSession := mkFixtureSession {
  FS_ID : string;
  FS_Object : string;
  FS_PaymentStatus : string;
  FS_Status : string;
  FS_AmountTotal : Z;
  FS_Currency : string;
  FS_ClientReferenceID : string;
  FS_PaymentIntent : option fixtureObject;
  FS_Metadata : gmap string string
}.

Record fixtureEnvelope := mkFixtureEnvelope {
  FE_ID : string;
  FE_Object : string;
  FE_APIVersion : string;
  FE_Created : Z;
  FE_Type : string;
  FE_Data_Object : fixtureSession
}.

Definition zero_object : fixtureObject := mkFixtureObject "" "".
Definition zero_session : fixtureSession := mkFixtureSession "" "" "" "" 0 "" "" None ∅.
Definition zero_fixture : fixtureEnvelope := mkFixtureEnvelope "" "" "" 0 "" zero_session.

Definition ScenarioNames : list string := ["card-paid"; "pix-processing"; "pix-succeeded"; "pix-failed"; "checkout-expired"].

Definition set_object (x : string) (s : fixtureSession) : fixtureSession :=
  mkFixtureSession (FS_ID s) x (FS_PaymentStatus s) (FS_Status s) (FS_AmountTotal s) (FS_Currency s)
    (FS_ClientReferenceID s) (FS_PaymentIntent s) (FS_Metadata s).

(** *** The codec of the fixtures *)

Section Codec.
Context `{UnicodeTables} `{JsonErrors}.

(** A field that holds a struct. *)
Definition store_in {S T} (get : S -> T) (set : T -> S -> S) (put : store T) : store S := fun v s =>
  let '(x, err) := put v (get s) in (set x s, err).

(** A pointer to a struct: [null] clears it, anything else fills what it
    points to. *)
Definition store_pointer {T} (zero : T) (fs : fields T) : store (option T) := fun v x =>
  match kind_of v with
  | KNull => (None, None)
  | _ => let '(y, err) := store_struct fs v (default zero x) in (Some y, err)
  end.

(** A [map[string]string]; a value that is no string leaves the zero one. *)
Fixpoint store_entries (ms : list (list Z * list Z)) (m : gmap string string) : gmap string string * option error :=
  match ms with
  | [] => (m, None)
  | (key, v) :: ms =>
      let '(x, e1) := store_string (fun x _ => x) v "" in
      let '(m, e2) := store_entries ms (<[unquote key := x]> m) in
      (m, first_error e1 e2)
  end.

Definition store_map : store (gmap string string) := fun v m =>
  match kind_of v with
  | KObject => store_entries (members v) m
  | KNull => (∅, None)
  | _ => (m, Some (ErrNew (type_error v)))
  end.

Definition object_fields : fields fixtureObject :=
  [("id", store_string (fun x o => mkFixtureObject x (FO_Object o)));
   ("object", store_string (fun x o => mkFixtureObject (FO_ID o) x))].

Definition session_fields : fields fixtureSession :=
  [("id", store_string (fun x s => mkFixtureSession x (FS_Object s) (FS_PaymentStatus s) (FS_Status s)
      (FS_AmountTotal s) (FS_Currency s) (FS_ClientReferenceID s) (FS_PaymentIntent s) (FS_Metadata s)));
   ("object", store_string set_object);
   ("payment_status", store_string (fun x s => mkFixtureSession (FS_ID s) (FS_Object s) x (FS_Status s)
      (FS_AmountTotal s) (FS_Currency s) (FS_ClientReferenceID s) (FS_PaymentIntent s) (FS_Metadata s)));
   ("status", store_string (fun x s => mkFixtureSession (FS_ID s) (FS_Object s) (FS_PaymentStatus s) x
      (FS_AmountTotal s) (FS_Currency s) (FS_ClientReferenceID s) (FS_PaymentIntent s) (FS_Metadata s)));
   ("amount_total", store_int (fun x s => mkFixtureSession (FS_ID s) (FS_Object s) (FS_PaymentStatus s) (FS_Status s)
      x (FS_Currency s) (FS_ClientReferenceID s) (FS_PaymentIntent s) (FS_Metadata s)));
   ("currency", store_string (fun x s => mkFixtureSession (FS_ID s) (FS_Object s) (FS_PaymentStatus s) (FS_Status s)
      (FS_AmountTotal s) x (FS_ClientReferenceID s) (FS_PaymentIntent s) (FS_Metadata s)));
   ("client_reference_id", store_string (fun x s => mkFixtureSession (FS_ID s) (FS_Object s) (FS_PaymentStatus s)
      (FS_Status s) (FS_AmountTotal s) (FS_Currency s) x (FS_PaymentIntent s) (FS_Metadata s)));
   ("payment_intent", store_in FS_PaymentIntent
      (fun x s => mkFixtureSession (FS_ID s) (FS_Object s) (FS_PaymentStatus s) (FS_Status s) (FS_AmountTotal s)
         (FS_Currency s) (FS_ClientReferenceID s) x (FS_Metadata s)) (store_pointer zero_object object_fields));
   ("metadata", store_in FS_Metadata
      (fun x s => mkFixtureSession (FS_ID s) (FS_Object s) (FS_PaymentStatus s) (FS_Status s) (FS_AmountTotal s)
         (FS_Currency s) (FS_ClientReferenceID s) (FS_PaymentIntent s) x) store_map)].

Definition fixture_fields : fields fixtureEnvelope :=
  [("id", store_string (fun x e => mkFixtureEnvelope x (FE_Object e) (FE_APIVersion e) (FE_Created e) (FE_Type e)
      (FE_Data_Object e)));
   ("object", store_string (fun x e => mkFixtureEnvelope (FE_ID e) x (FE_APIVersion e) (FE_Created e) (FE_Type e)
      (FE_Data_Object e)));
   ("api_version", store_string (fun x e => mkFixtureEnvelope (FE_ID e) (FE_Object e) x (FE_Created e) (FE_Type e)
      (FE_Data_Object e)));
   ("created", store_int (fun x e => mkFixtureEnvelope (FE_ID e) (FE_Object e) (FE_APIVersion e) x (FE_Type e)
      (FE_Data_Object e)));
   ("type", store_string (fun x e => mkFixtureEnvelope (FE_ID e) (FE_Object e) (FE_APIVersion e) (FE_Created e) x
      (FE_Data_Object e)));
   ("data", store_struct
      [("object", store_in FE_Data_Object
          (fun x e => mkFixtureEnvelope (FE_ID e) (FE_Object e) (FE_APIVersion e) (FE_Created e) (FE_Type e) x)
          (store_struct session_fields))])].
End Codec.

(** [json.Marshal]: fields in their order, the keys of a map sorted. *)
Definition key_le (a b : string * string) : Prop := String.leb a.1 b.1 = true.
#[export] Instance key_le_dec a b : base.Decision (key_le a b).
Proof. unfold key_le. apply _. Defined.

Definition encode_map (m : gmap string string) : list (string * list Z) :=
  (fun kv => (kv.1, quote_json kv.2)) <$> merge_sort key_le (map_to_list m).

Definition encode_intent (o : fixtureObject) : list (string * list Z) :=
  [("id", quote_json (FO_ID o)); ("object", quote_json (FO_Object o))].

Definition encode_session (s : fixtureSession) : list (string * list Z) :=
  [("id", quote_json (FS_ID s)); ("object", quote_json (FS_Object s));
   ("payment_status", quote_json (FS_PaymentStatus s)); ("status", quote_json (FS_Status s));
   ("amount_total", codes (pretty (FS_AmountTotal s))); ("currency", quote_json (FS_Currency s));
   ("client_reference_id", quote_json (FS_ClientReferenceID s))] ++
  match FS_PaymentIntent s with Some o => [("payment_intent", object_of (encode_intent o))] | None => [] end ++
  [("metadata", object_of (encode_map (FS_Metadata s)))].

Definition encode_event (e : fixtureEnvelope) : list (string * list Z) :=
  [("id", quote_json (FE_ID e)); ("object", quote_json (FE_Object e));
   ("api_version", quote_json (FE_APIVersion e)); ("created", codes (pretty (FE_Created e)));
   ("type", quote_json (FE_Type e));
   ("data", object_of [("object", object_of (encode_session (FE_Data_Object e)))])].

Definition Marshal (e : fixtureEnvelope) : string := of_codes (object_of (encode_event e)).

(** *** Rendering and signing *)

Definition Reference_validate (r : Reference) : option error :=
  if (TrimSpace (Ref_OrderID r) =s? "") || (TrimSpace (Ref_PaymentID r) =s? "") ||
     (TrimSpace (Ref_AttemptID r) =s? "") || (TrimSpace (Ref_SessionID r) =s? "")
  then Some (ErrNew "sandbox reference requires order, payment, attempt and Checkout Session ids")
  else if (Ref_Amount r <=? 0) || negb (len (Ref_Currency r) =? 3)
  then Some (ErrNew "sandbox reference requires a positive amount and three-letter currency")
  else None.

Definition randomSuffix (random : res (list Z)) : res string :=
  try value := res_wrap (wrapf "generate sandbox identifier") random in Ok (hex_encode value).

Section Render.
Context `{UnicodeTables} `{JsonErrors} `{GoQuote} `{StripeSDK}.

(** The seconds since 1970 of an instant. *)
Definition unix_seconds (now : Time) : Z := now / Second - 62135596800.

(** What [RenderEvent] assigns to the decoded fixture. *)
Definition fill (event : fixtureEnvelope) (eventID : string) (reference : Reference) (now : Time) : fixtureEnvelope :=
  let s := FE_Data_Object event in
  mkFixtureEnvelope eventID (FE_Object event) SupportedAPIVersion (unix_seconds (UTC now)) (FE_Type event)
    (mkFixtureSession (Ref_SessionID reference) (FS_Object s) (FS_PaymentStatus s) (FS_Status s)
       (Ref_Amount reference) (ToLower (Ref_Currency reference)) (Ref_OrderID reference)
       (if Ref_PaymentIntentID reference =s? "" then None
        else match FS_PaymentIntent s with
             | Some o => Some (mkFixtureObject (Ref_PaymentIntentID reference) (FO_Object o))
             | None => None
             end)
       {["order_id" := Ref_OrderID reference; "payment_id" := Ref_PaymentID reference;
         "payment_attempt_id" := Ref_AttemptID reference]}).

Definition RenderEvent (random : res (list Z)) (name eventID : string) (reference : Reference) (now : Time)
    : res (string * Scenario * string) :=
  match scenarios !! name with
  | None => Err (ErrNew ("unknown scenario " +:+ Quote name +:+ "; choose " +:+ String.concat ", " ScenarioNames))
  | Some scenario =>
      try eventID := (if TrimSpace eventID =s? ""
                      then try suffix := randomSuffix random in Ok ("evt_sandbox_" +:+ suffix)
                      else Ok eventID) in
      match Reference_validate reference with
      | Some err => Err err
      | None =>
          match fixtureFiles !! Fixture scenario with
          | None => Err (wrapf "read sandbox fixture" (ErrNew "file does not exist"))
          | Some raw =>
              let '(event, err) := Unmarshal fixture_fields raw zero_fixture in
              match err with
              | Some err => Err (wrapf "decode sandbox fixture" err)
              | None => Ok (Marshal (fill event eventID reference now), scenario, eventID)
              end
          end
      end
  end.
End Render.

Definition StripeSignature `{Auth.Hmac} (payload secret : string) (now : Time) : res string :=
  if negb (HasPrefix secret "whsec_") then Err (ErrNew "webhook secret must begin with whsec_")
  else
    let t := pretty (unix_seconds now) in
    Ok ("t=" +:+ t +:+ ",v1=" +:+ hex_encode (Auth.hmac_sha256 (codes secret) (t +:+ "." +:+ payload))).

(** ** Lemmas: what is rendered *)

(** The fixtures, decoded. *)
Definition fixture_of (type payment_status status : string) : fixtureEnvelope :=
  mkFixtureEnvelope "evt_fixture" "event" "fixture" 0 type
    (mkFixtureSession "cs_fixture" "checkout.session" payment_status status 0 "brl" "ord_fixture"
       (Some (mkFixtureObject "pi_fixture" "payment_intent"))
       {["order_id" := "ord_fixture"; "payment_id" := "pay_fixture"; "payment_attempt_id" := "pat_fixture"]}).

(** What each scenario says: the type of its event, the payment status and the
    status of its session, and the outcome that makes. *)
Record Said := mkSaid { said_type : string; said_paid : string; said_status : string; said_outcome : Payments.Outcome }.

Definition said_list : list (string * Said) :=
  [("card-paid", mkSaid "checkout.session.completed" "paid" "complete" OutcomeSucceeded);
   ("pix-processing", mkSaid "checkout.session.completed" "unpaid" "complete" OutcomePending);
   ("pix-succeeded", mkSaid "checkout.session.async_payment_succeeded" "paid" "complete" OutcomeSucceeded);
   ("pix-failed", mkSaid "checkout.session.async_payment_failed" "unpaid" "complete" OutcomeFailed);
   ("checkout-expired", mkSaid "checkout.session.expired" "unpaid" "expired" OutcomeExpired)].
Definition says (name : string) : option Said := (list_to_map said_list : gmap string Said) !! name.

Lemma says_cases (P : Said -> Prop) :
  Forall (fun p => P p.2) said_list -> forall name said, says name = Some said -> P said.
Proof.
  intros HP name said Hs. unfold says in Hs. apply elem_of_list_to_map_2 in Hs.
  rewrite Forall_forall in HP. by apply (HP (name, said)).
Qed.

Definition metadata_of (orderID paymentID attemptID : string) : gmap string string :=
  {["order_id" := orderID; "payment_id" := paymentID; "payment_attempt_id" := attemptID]}.

Lemma encode_metadata orderID paymentID attemptID : encode_map (metadata_of orderID paymentID attemptID) =
  [("order_id", quote_json orderID); ("payment_attempt_id", quote_json attemptID); ("payment_id", quote_json paymentID)].
Proof. reflexivity. Qed.

(** The scenarios, one by one. *)
Lemma scenarios_cases (P : string -> Scenario -> Prop) :
  Forall (fun s => P (Name s) s) scenario_list -> forall name s, scenarios !! name = Some s -> P name s.
Proof.
  intros HP name s Hs. apply elem_of_list_to_map_2 in Hs.
  apply list_elem_of_fmap in Hs as (s' & [= -> ->] & Hin). rewrite Forall_forall in HP. by apply HP.
Qed.

Section Rendered.
Context `{UnicodeTables} `{JsonErrors} `{GoQuote} `{StripeSDK}.

Lemma fixtures_decode name scenario : scenarios !! name = Some scenario ->
  exists said raw, says name = Some said /\ fixtureFiles !! Fixture scenario = Some raw /\
    Unmarshal fixture_fields raw zero_fixture = (fixture_of (said_type said) (said_paid said) (said_status said), None).
Proof.
  revert name scenario. apply scenarios_cases.
  repeat (apply Forall_cons; split; [eexists _, _; split; [reflexivity|]; split; [reflexivity | vm_compute; reflexivity]|]).
  constructor.
Qed.

Lemma RenderEvent_Ok random name eventID reference now payload scenario resolved :
  RenderEvent random name eventID reference now = Ok (payload, scenario, resolved) ->
  scenarios !! name = Some scenario /\ Reference_validate reference = None /\
  exists said, says name = Some said /\
    payload = Marshal (fill (fixture_of (said_type said) (said_paid said) (said_status said)) resolved reference now).
Proof.
  unfold RenderEvent. destruct (scenarios !! name) as [sc|] eqn:E; [|done].
  destruct (fixtures_decode _ _ E) as (said & raw & Hs & Hf & Hd). rewrite Hf, Hd.
  destruct (if TrimSpace eventID =s? "" then _ else _) as [id|err]; [|done]. cbn [res_bind].
  destruct (Reference_validate reference); [done|]. intros [= <- <- <-]. split; [done|]. split; [done|]. by exists said.
Qed.

(** Text that is UTF-8. *)
Definition readable (reference : Reference) : Prop :=
  Forall (fun x => utf8 (codes x)) [Ref_OrderID reference; Ref_PaymentID reference; Ref_AttemptID reference;
    Ref_SessionID reference; Ref_PaymentIntentID reference; ToLower (Ref_Currency reference)].

Section Filled.
Variables (said : Said) (resolved : string) (reference : Reference) (now : Time).
Hypothesis Hsaid : exists name, says name = Some said.
Hypothesis Hid : utf8 (codes resolved).
Hypothesis Href : readable reference.
Hypothesis Hversion : utf8 (codes APIVersion).

Definition filled : fixtureEnvelope :=
  fill (fixture_of (said_type said) (said_paid said) (said_status said)) resolved reference now.

Lemma said_literals : utf8 (codes (said_type said)) /\ utf8 (codes (said_paid said)) /\ utf8 (codes (said_status said)).
Proof.
  destruct Hsaid as [name Hn].
  refine (says_cases (fun s => utf8 (codes (said_type s)) /\ utf8 (codes (said_paid s)) /\ utf8 (codes (said_status s)))
            _ name said Hn).
  repeat (apply Forall_cons; split; [cbn [snd said_type said_paid said_status]; split_and!; utf8_literal|]). constructor.
Qed.

Lemma filled_members : Forall (member 1) (encode_session (FE_Data_Object filled)) /\
  Forall (member 3) (encode_event filled).
Proof.
  destruct said_literals as (L1 & L2 & L3).
  apply Forall_cons in Href as [U1 [U2 [U3 [U4 [U5 [U6 _]%Forall_cons]%Forall_cons]%Forall_cons]%Forall_cons]%Forall_cons].
  assert (Forall (member 1) (encode_session (FE_Data_Object filled))) as Hs.
  { unfold encode_session, filled, fill.
    cbn [FE_Data_Object FS_ID FS_Object FS_PaymentStatus FS_Status FS_AmountTotal FS_Currency FS_ClientReferenceID
      FS_PaymentIntent FS_Metadata fixture_of].
    fold (metadata_of (Ref_OrderID reference) (Ref_PaymentID reference) (Ref_AttemptID reference)).
    rewrite encode_metadata. apply Forall_app. split; [|apply Forall_app; split].
    - repeat (apply Forall_cons; split;
        [first [apply member_int; utf8_literal | apply member_quote; [utf8_literal | first [assumption | utf8_literal]]]|]).
      constructor.
    - destruct (_ =s? _); [constructor|]. apply Forall_cons. split; [|constructor].
      apply member_object; [utf8_literal | | done].
      repeat (apply Forall_cons; split; [apply member_quote; [utf8_literal | first [assumption | utf8_literal]]|]). constructor.
    - apply Forall_cons. split; [|constructor]. apply member_object; [utf8_literal | | done].
      repeat (apply Forall_cons; split; [apply member_quote; [utf8_literal | assumption]|]). constructor. }
  split; [exact Hs|]. unfold encode_event, filled, fill.
  cbn [FE_ID FE_Object FE_APIVersion FE_Created FE_Type FE_Data_Object fixture_of].
  repeat (apply Forall_cons; split;
    [first [apply member_int; utf8_literal | apply member_quote; [utf8_literal | first [assumption | utf8_literal]]]|]).
  apply Forall_cons. split; [|constructor]. apply member_object; [utf8_literal | | done].
  apply Forall_cons. split; [|constructor]. apply member_object; [utf8_literal | exact Hs | done].
Qed.

(** The adapter's envelope of the rendered event. *)
Lemma filled_envelope : Unmarshal envelope_fields (Marshal filled) zero_envelope =
  (mkEventEnvelope APIVersion (said_type said) (of_codes (object_of (encode_session (FE_Data_Object filled)))), None).
Proof.
  destruct filled_members as [Hs He]. destruct said_literals as (L1 & _ & _).
  unfold Marshal. rewrite (Unmarshal_object _ 3 _ _ He) by done.
  unfold encode_event at 1. unfold quoted_keys. cbn [fmap list_fmap fst snd store_members].
  repeat match goal with |- context [field_of envelope_fields (unquote (quote_json ?k))] =>
    rewrite (unquote_quote k) by utf8_literal end.
  assert (forall k, k ∈ ["id"; "object"; "created"] -> field_of envelope_fields k = None) as F.
  { apply Forall_forall. repeat (apply Forall_cons; split; [vm_compute; reflexivity|]). constructor. }
  rewrite !F by (rewrite !elem_of_cons; auto 10).
  change (field_of envelope_fields "api_version") with
    (Some (store_string (fun v e => mkEventEnvelope v (Env_Type e) (Env_Data_Object e)))).
  change (field_of envelope_fields "type") with
    (Some (store_string (fun v e => mkEventEnvelope (Env_APIVersion e) v (Env_Data_Object e)))).
  change (field_of envelope_fields "data") with (Some (store_struct
      [("object", store_raw (fun v e => mkEventEnvelope (Env_APIVersion e) (Env_Type e) v))])).
  unfold store_string at 1 2. change (kind_of (quote_json (FE_APIVersion filled))) with KString.
  change (kind_of (quote_json (FE_Type filled))) with KString. cbv iota.
  change (FE_APIVersion filled) with APIVersion. change (FE_Type filled) with (said_type said).
  rewrite !unquote_quote by done.
  set (session := object_of (encode_session (FE_Data_Object filled))).
  unfold store_struct. change (kind_of (object_of [("object", session)])) with KObject. cbv iota.
  assert (Forall (member 2) [("object", session)]) as Hd.
  { apply Forall_cons. split; [|constructor]. apply member_object; [utf8_literal | exact Hs | done]. }
  rewrite (members_object 2 _ Hd) by done. unfold quoted_keys. cbn [fmap list_fmap fst snd store_members].
  rewrite unquote_quote by utf8_literal. reflexivity.
Qed.
End Filled.
End Rendered.

(** ** Lemmas: what is removed *)

Lemma lookup_rest {R} (p : R -> bool) (m : gmap string R) i r : rest p m !! i = Some r <-> m !! i = Some r /\ p r = false.
Proof. unfold rest. rewrite map_lookup_filter_Some. done. Qed.

Lemma unique_rest {R K} (index : R -> option K) p m : unique_on index m -> unique_on index (rest p m).
Proof. intros Hu i j r s k [Hi _]%lookup_rest [Hj _]%lookup_rest. by eapply Hu. Qed.

Lemma keyed_rest {R} (id : R -> string) p m : keyed id m -> keyed id (rest p m).
Proof. intros Hk i r [Hi _]%lookup_rest. by apply Hk. Qed.

Lemma all_rest {R} (P : R -> Prop) p (m : gmap string R) : map_Forall (fun _ r => P r) m -> map_Forall (fun _ r => P r) (rest p m).
Proof. intros H i r [Hi _]%lookup_rest. by eapply H. Qed.

Section Removed.
Context `{JsonPath}.

(** The database without an order: its payments, their attempts, the events
    that mention it and their messages. *)
Definition of_order (orderID : string) (d : DB) (a : AttemptRow) : bool :=
  one_of (PaymentRow_ID <$> payments_of orderID d) (AttemptRow_PaymentID a).

Definition removed (orderID : string) (d : DB) : DB :=
  mkDB (rest (fun o => OrderRow_ID o =s? orderID) (orders d))
       (rest (fun p => PaymentRow_OrderID p =s? orderID) (payments d))
       (rest (of_order orderID d) (payment_attempts d))
       (rest (mentions orderID) (webhook_events d))
       (rest (fun ob => one_of (mentioned orderID d) (OutboxRow_WebhookEventID ob)) (outbox_events d)) (db_now d).

(** An order the tool may delete: it carries the tool's marker, and every event
    that mentions it has been dealt with, its message too. *)
Record removable (orderID : string) (d : DB) : Prop := {
  rm_marked : exists o, orders d !! orderID = Some o /\ HasPrefix (OrderRow_IdempotencyKey o) order_marker = true;
  rm_done : forall i e, webhook_events d !! i = Some e -> mentions orderID e = true ->
    ~ (EventRow_Status e = "pending" \/ EventRow_Status e = "processing") /\
    forall j ob, outbox_events d !! j = Some ob -> OutboxRow_WebhookEventID ob = EventRow_ID e ->
      OutboxRow_Status ob = "published" \/ OutboxRow_Status ob = "failed";
}.

Lemma mentioned_spec orderID d id : keyed EventRow_ID (webhook_events d) ->
  one_of (mentioned orderID d) id = true <-> exists e, webhook_events d !! id = Some e /\ mentions orderID e = true.
Proof.
  intros Hk. rewrite one_of_In. unfold mentioned. rewrite list_elem_of_fmap. split.
  - intros (e & -> & [Hm [i Hi]]%rows_where_inv). exists e. by rewrite (Hk _ _ Hi).
  - intros (e & He & Hm). exists e. split; [by rewrite (Hk _ _ He) | by eapply rows_where_elem].
Qed.

Lemma of_order_spec orderID d a : keyed PaymentRow_ID (payments d) ->
  of_order orderID d a = true <-> exists p, payments d !! AttemptRow_PaymentID a = Some p /\ PaymentRow_OrderID p = orderID.
Proof.
  intros Hk. unfold of_order. rewrite one_of_In, list_elem_of_fmap. split.
  - intros (p & -> & [Hp%String.eqb_eq [i Hi]]%rows_where_inv). exists p. by rewrite (Hk _ _ Hi).
  - intros (p & Hp & Ho). exists p. split; [by rewrite (Hk _ _ Hp)|]. eapply rows_where_elem; [exact Hp|].
    by apply String.eqb_eq.
Qed.

Lemma removed_schema orderID d : schema d -> schema (removed orderID d).
Proof.
  intros Hs. split; cbn [removed orders payments payment_attempts webhook_events outbox_events];
    try (by apply keyed_rest, Hs); try (by apply all_rest, Hs); try (by apply unique_rest, Hs).
  - intros i p [Hp Ho]%lookup_rest. destruct (payments_order_fkey _ Hs _ _ Hp) as (o & Hlo & Ha).
    exists o. split; [|exact Ha]. apply lookup_rest. split; [done|]. by rewrite (orders_keyed _ Hs _ _ Hlo).
  - intros i a [Ha Ho]%lookup_rest. destruct (payment_attempts_payment_fkey _ Hs _ _ Ha) as (p & Hp & Hpr).
    exists p. split; [|exact Hpr]. apply lookup_rest. split; [done|]. apply String.eqb_neq. intros E.
    apply not_true_iff_false in Ho. apply Ho. apply of_order_spec; [apply Hs|]. by exists p.
  - intros i ob [Hob Hm]%lookup_rest. destruct (outbox_events_webhook_event_fkey _ Hs _ _ Hob) as [e He].
    exists e. apply lookup_rest. split; [done|]. apply not_true_iff_false. intros E.
    apply not_true_iff_false in Hm. apply Hm. apply mentioned_spec; [apply Hs|]. by exists e.
Qed.

Lemma removed_sound orderID d : sound d -> removable orderID d -> sound (removed orderID d).
Proof.
  intros Hd Hr. pose proof (sound_schema _ Hd) as Hs. split; [by apply removed_schema | | | | |];
    cbn [removed orders payments payment_attempts webhook_events outbox_events].
  - apply all_rest, Hd.
  - intros i o [Ho _]%lookup_rest. by apply (sound_status _ Hd _ _ Ho).
  - intros i o [Ho Hi]%lookup_rest Hp. destruct (sound_paid _ Hd _ _ Ho Hp) as (j & p & Hj & Hpo & Hc).
    exists j, p. split; [|done]. apply lookup_rest. split; [done|].
    rewrite Hpo, <- (orders_keyed _ Hs _ _ Ho). done.
  - intros j p [Hp Hi]%lookup_rest Hc. destruct (sound_charged _ Hd _ _ Hp Hc) as (o & Ho & Hpaid).
    exists o. split; [|done]. apply lookup_rest. split; [done|]. by rewrite (orders_keyed _ Hs _ _ Ho).
  - intros id e [He Hm]%lookup_rest Hp. destruct (sound_queued _ Hd _ _ He Hp) as (j & ob & Hob & Hoe).
    exists j, ob. split; [|done]. apply lookup_rest. split; [done|]. apply not_true_iff_false.
    intros (e' & He' & Hm')%mentioned_spec; [|apply Hs]. rewrite Hoe in He'. congruence.
Qed.
End Removed.

Section Cleaned.
Context `{GoQuote} `{JsonPath}.

Lemma lock_order_Ok orderID d key d' : keyed OrderRow_ID (orders d) -> lock_order orderID d = Ok (key, d') ->
  d' = d /\ exists o, orders d !! orderID = Some o /\ OrderRow_IdempotencyKey o = key.
Proof.
  intros Hk. unfold lock_order, select_one. rewrite (rows_where_pk OrderRow_ID) by done.
  destruct (orders d !! orderID) as [o|]; [|done]. intros [= <- <-]. split; [done|]. by exists o.
Qed.

Lemma left_join_elem d e row : row ∈ left_join d e -> row.1 = e.
Proof.
  unfold left_join. destruct (rows_where _ _) as [|ob obs].
  - by intros ->%list_elem_of_singleton.
  - by intros (x & -> & _)%list_elem_of_fmap.
Qed.

Lemma left_join_some d e : exists o, (e, o) ∈ left_join d e.
Proof. unfold left_join. destruct (rows_where _ _) as [|ob obs]; [exists None | exists (Some ob)]; apply elem_of_cons; by left. Qed.

Lemma left_join_outbox d e j ob : outbox_events d !! j = Some ob -> OutboxRow_WebhookEventID ob = EventRow_ID e ->
  (e, Some ob) ∈ left_join d e.
Proof.
  intros Ho He. unfold left_join.
  assert (ob ∈ rows_where (fun o => OutboxRow_WebhookEventID o =s? EventRow_ID e) (outbox_events d)) as Hin.
  { eapply rows_where_elem; [exact Ho|]. by apply String.eqb_eq. }
  destruct (rows_where _ _) as [|x xs]; [by apply not_elem_of_nil in Hin|].
  apply list_elem_of_fmap. by exists ob.
Qed.

Lemma none_busy orderID d d' : count_busy orderID d = Ok (0, d') -> d' = d /\
  forall i e, webhook_events d !! i = Some e -> mentions orderID e = true ->
    ~ (EventRow_Status e = "pending" \/ EventRow_Status e = "processing") /\
    forall j ob, outbox_events d !! j = Some ob -> OutboxRow_WebhookEventID ob = EventRow_ID e ->
      OutboxRow_Status ob = "published" \/ OutboxRow_Status ob = "failed".
Proof.
  unfold count_busy. intros [= Hn <-]. split; [done|]. intros i e He Hm.
  assert (forall row, row ∈ left_join d e -> in_progress row = false) as Hall.
  { intros row Hrow. apply not_true_iff_false. intros Hp.
    assert (row ∈ List.filter in_progress (w ← rows_where (mentions orderID) (webhook_events d); left_join d w)) as Hin.
    { apply list_elem_of_In, List.filter_In. split; [|done]. apply list_elem_of_In, list_elem_of_bind.
      exists e. split; [done|]. by eapply rows_where_elem. }
    destruct (List.filter _ _); [by apply not_elem_of_nil in Hin | done]. }
  split.
  - intros Hs. destruct (left_join_some d e) as [o Hin]. specialize (Hall _ Hin). unfold in_progress in Hall.
    apply orb_false_iff in Hall as [Hall _]. apply not_true_iff_false in Hall. apply Hall, one_of_In.
    cbn [fst]. rewrite !elem_of_cons. destruct Hs; auto.
  - intros j ob Ho Hoe. specialize (Hall _ (left_join_outbox _ _ _ _ Ho Hoe)). unfold in_progress in Hall.
    apply orb_false_iff in Hall as [_ Hall%negb_false_iff%one_of_In]. cbn [snd] in Hall.
    rewrite !elem_of_cons, elem_of_nil in Hall. tauto.
Qed.

(** One statement of the transaction. *)
Lemma step_in_tx {A B} f (stmt : Stmt A) (k : A -> M Store B) d0 (P : res B -> Store -> Prop) s r s' :
  st_saved s = Some d0 -> (forall e s1, st_saved s1 = Some d0 -> P (Err e) s1) ->
  (forall a s1, stmt (st_db s) = Ok (a, st_db s1) -> st_saved s1 = Some d0 -> k a s1 = (r, s') -> P r s') ->
  gbind (gwrap f (exec stmt)) k s = (r, s') -> P r s'.
Proof.
  intros Hs He Hk. unfold gbind, gwrap. destruct (exec stmt s) as [[a|e] s1] eqn:E; cbn [res_wrap].
  - intros Er. apply (Hk a s1); [by eapply exec_Ok | by rewrite (exec_saved _ _ _ _ E) | done].
  - intros [= <- <-]. apply He. by rewrite (exec_saved _ _ _ _ E).
Qed.

(** What a run of [Cleanup] may leave. *)
Inductive cleaned (orderID : string) (d : DB) : res CleanupResult -> Store -> Prop :=
| cleaned_refused e s : st_saved s = Some d -> cleaned orderID d (Err e) s
| cleaned_done c s : removable orderID d -> st_saved s = None -> st_db s = removed orderID d ->
    CR_OrderID c = orderID -> CR_Orders c = 1 -> cleaned orderID d (Ok c) s
| cleaned_lost text s : removable orderID d -> st_saved s = None -> st_db s = removed orderID d ->
    cleaned orderID d (Err (wrapf "commit sandbox cleanup" (ErrNew text))) s.

Lemma cleanup_cases orderID d s r s' : schema d -> st_db s = d -> st_saved s = Some d ->
  cleanup_in_tx orderID s = (r, s') -> cleaned orderID d r s'.
Proof.
  intros Hd Es Hs. unfold cleanup_in_tx. apply (step_in_tx _ _ _ d); [done | by constructor|].
  intros key s1 (Ed & o & Ho & <-)%lock_order_Ok Hs1; [|by rewrite Es; apply Hd]. rewrite Es in Ed, Ho. clear Es Hs s.
  destruct (HasPrefix (OrderRow_IdempotencyKey o) order_marker) eqn:Hmark; cbn [negb]; [|intros [= <- <-]; by constructor].
  apply (step_in_tx _ _ _ d); [done | by constructor|]. intros busy s2 Hb Hs2. rewrite Ed in Hb.
  destruct (Z.eqb_spec busy 0) as [->|]; cbn [negb]; [|intros [= <- <-]; by constructor].
  apply none_busy in Hb as [Ed2 Hdone]. clear Ed Hs1 s1.
  assert (removable orderID d) as Hr by (split; [by exists o | exact Hdone]). clear Hdone.
  apply (step_in_tx _ _ _ d); [done | by constructor|]. intros n1 s3 [= _ Ed3] Hs3. rewrite Ed2 in Ed3.
  apply (step_in_tx _ _ _ d); [done | by constructor|]. intros n2 s4 He Hs4. rewrite <- Ed3 in He.
  unfold delete_events in He. destruct (existsb _ _); [done|]. injection He as _ Ed4.
  apply (step_in_tx _ _ _ d); [done | by constructor|]. intros n3 s5 [= _ Ed5] Hs5. rewrite <- Ed4 in Ed5.
  apply (step_in_tx _ _ _ d); [done | by constructor|]. intros n4 s6 He Hs6. rewrite <- Ed5 in He.
  unfold delete_payments in He. destruct (existsb _ _); [done|]. injection He as _ Ed6.
  apply (step_in_tx _ _ _ d); [done | by constructor|]. intros n5 s7 He Hs7. rewrite <- Ed6 in He.
  unfold delete_orders in He. destruct (existsb _ _); [done|]. injection He as Hn5 Ed7.
  assert (st_db s7 = removed orderID d) as Hfinal by (symmetry; exact Ed7).
  assert (n5 = 1) as ->.
  { rewrite <- Hn5. cbn [orders set_payments set_attempts set_events set_outbox].
    assert (rows_where (fun o => OrderRow_ID o =s? orderID) (orders d) = [o]) as ->; [|done].
    pose proof (rows_where_pk OrderRow_ID orderID (fun _ => true) (orders d) (orders_keyed _ Hd)) as E.
    rewrite Ho in E. rewrite <- E. unfold rows_where. apply filter_ext. intros x. by rewrite andb_true_r. }
  unfold gbind, gwrap. destruct (Commit s7) as [[[]|e] s8] eqn:Ec; cbn [res_wrap]; intros [= <- <-].
  - apply Commit_Ok in Ec as [E8 Hi]. apply cleaned_done; [done | exact Hi | by rewrite E8 | done..].
  - destruct (Commit_error _ _ _ Ec) as [text ->]. apply Commit_cases in Ec as [E8 [Hi|[Hi _]]].
    + apply cleaned_lost; [done..|by rewrite E8].
    + constructor. by rewrite Hi.
Qed.
End Cleaned.

(** *** A currency survives both cases *)

Lemma runes_ascii l : Forall (fun b => 0 <= b <= 127) l -> runes_from 0 l = l.
Proof.
  induction 1 as [|b l Hb _ IH]; [done|]. cbn [runes_from rune_len].
  rewrite (proj2 (Z.leb_le b 127)) by lia. cbn [rune_value pred]. by rewrite IH.
Qed.

Lemma currency_cases `{UnicodeTables} c : upper3 c = true -> ToUpper (ToLower c) = c /\ utf8 (codes (ToLower c)).
Proof.
  unfold upper3. destruct (codes c) as [|x [|y [|z [|? ?]]]] eqn:E; try done.
  rewrite !andb_true_iff. intros [[Hx Hy] Hz].
  assert (forall r, is_upper r = true -> 65 <= r <= 90) as U by (unfold is_upper; intros; lia).
  pose proof (U _ Hx). pose proof (U _ Hy). pose proof (U _ Hz).
  assert (forall r, is_upper r = true -> encode_rune (lower_rune r) = [r + 32]) as Hl.
  { intros r Hr. pose proof (U _ Hr). unfold lower_rune, lower_ascii, encode_rune. rewrite Hr.
    rewrite (proj2 (Z.ltb_lt r 128)), (proj2 (Z.leb_le 0 (r + 32))), (proj2 (Z.leb_le (r + 32) 127)) by lia. done. }
  assert (forall r, is_upper r = true -> encode_rune (upper_rune (r + 32)) = [r]) as Hu.
  { intros r Hr. pose proof (U _ Hr). unfold upper_rune, upper_ascii, is_lower, encode_rune.
    rewrite (proj2 (Z.ltb_lt (r + 32) 128)), (proj2 (Z.leb_le 97 (r + 32))), (proj2 (Z.leb_le (r + 32) 122)) by lia.
    cbn [andb]. replace (r + 32 - 32) with r by lia.
    rewrite (proj2 (Z.leb_le 0 r)), (proj2 (Z.leb_le r 127)) by lia. done. }
  assert (ToLower c = of_codes [x + 32; y + 32; z + 32]) as El.
  { unfold ToLower, runes. rewrite E, runes_ascii by (repeat constructor; lia).
    cbn [mbind list_bind]. by rewrite !Hl. }
  assert (codes (ToLower c) = [x + 32; y + 32; z + 32]) as Ec.
  { rewrite El. apply codes_of_codes. repeat constructor; unfold is_byte; lia. }
  split; [|rewrite Ec; apply utf8_ascii; repeat constructor; lia].
  unfold ToUpper, runes. rewrite Ec, runes_ascii by (repeat constructor; lia).
  cbn [mbind list_bind]. rewrite !Hu by done. change ([x] ++ [y] ++ [z] ++ []) with [x; y; z].
  by rewrite <- E, of_codes_codes.
Qed.

(** ** Properties *)

(** What an order owns besides its row. *)
Definition owned (orderID : string) (d : DB) (p : string) : Prop :=
  exists r, payments d !! p = Some r /\ PaymentRow_OrderID r = orderID.

(** C31: Cleaning up removes one order of the tool and nothing else. Under any
    faults of the database, [Cleanup] either leaves it exactly as it was, with
    an error, or removes the order with its payments, attempts, events and
    messages; it does so only when the key of the order carries the tool's
    marker and no event that mentions it is still in progress, and the error of
    a lost acknowledgement is then the only one. Every row of another order,
    every event that does not mention this one and every message of such an
    event stays as it is; the books stay sound, and no transaction stays open.
    Other sessions are taken to be quiet meanwhile. *)
Theorem cleanup_removes_one_order `{GoQuote} `{JsonPath} (orderID : string) (s s' : Store) (r : res CleanupResult) :
  sound (st_db s) -> idle s -> Cleanup orderID s = (r, s') ->
  let d := st_db s in let d' := st_db s' in
  idle s' /\ sound d' /\
  ((d' = d /\ exists err, r = Err err) \/
   (removable orderID d /\
    ((exists c, r = Ok c /\ CR_OrderID c = orderID /\ CR_Orders c = 1) \/
     exists text, r = Err (wrapf "commit sandbox cleanup" (ErrNew text))) /\
    (forall i o, orders d' !! i = Some o <-> orders d !! i = Some o /\ i <> orderID) /\
    (forall i p, payments d' !! i = Some p <-> payments d !! i = Some p /\ PaymentRow_OrderID p <> orderID) /\
    (forall i a, payment_attempts d' !! i = Some a <->
       payment_attempts d !! i = Some a /\ ~ owned orderID d (AttemptRow_PaymentID a)) /\
    (forall i e, webhook_events d' !! i = Some e <-> webhook_events d !! i = Some e /\ mentions orderID e = false) /\
    (forall i m, outbox_events d' !! i = Some m <-> outbox_events d !! i = Some m /\
       forall e, webhook_events d !! OutboxRow_WebhookEventID m = Some e -> mentions orderID e = false))).
Proof.
  intros Hd Hi E d d'. pose proof (sound_schema _ Hd) as Hs. fold d in Hd, Hs.
  unfold Cleanup, gbind at 1, gwrap at 1 in E. destruct (BeginTx s) as [[[]|e] s1] eqn:EB; cbn [res_wrap] in E.
  2:{ injection E as <- <-. apply BeginTx_cases in EB as [Ed [[? _]|[_ [_ Hi1]]]]; [done | | done].
      split; [exact Hi1|]. unfold d'. rewrite Ed. split; [exact Hd|]. left. by eauto. }
  apply BeginTx_cases in EB as [Ed [[_ Hsv]|[? [? _]]]]; [|done..].
  unfold rollback_after in E. destruct (cleanup_in_tx orderID s1) as [out s2] eqn:Ec. injection E as <- <-.
  apply (cleanup_cases orderID d) in Ec; [|done..]. split; [apply idle_Rollback|].
  assert (st_saved s2 = None -> st_db s2 = removed orderID d -> removable orderID d -> sound d' /\
    (forall i o, orders d' !! i = Some o <-> orders d !! i = Some o /\ i <> orderID) /\
    (forall i p, payments d' !! i = Some p <-> payments d !! i = Some p /\ PaymentRow_OrderID p <> orderID) /\
    (forall i a, payment_attempts d' !! i = Some a <->
       payment_attempts d !! i = Some a /\ ~ owned orderID d (AttemptRow_PaymentID a)) /\
    (forall i e, webhook_events d' !! i = Some e <-> webhook_events d !! i = Some e /\ mentions orderID e = false) /\
    (forall i m, outbox_events d' !! i = Some m <-> outbox_events d !! i = Some m /\
       forall e, webhook_events d !! OutboxRow_WebhookEventID m = Some e -> mentions orderID e = false)) as Hgone.
  { intros Hn E2 Hr. unfold d'. rewrite (Rollback_idle _ Hn), E2. split; [by apply removed_sound|].
    cbn [removed orders payments payment_attempts webhook_events outbox_events].
    split_and!; intros i x; rewrite lookup_rest; (split; intros [Hx Hy]; (split; [exact Hx|])).
    - intros ->. by rewrite (orders_keyed _ Hs _ _ Hx), String.eqb_refl in Hy.
    - rewrite (orders_keyed _ Hs _ _ Hx). by apply String.eqb_neq.
    - by apply String.eqb_neq.
    - by apply String.eqb_neq.
    - intros Ho. apply not_true_iff_false in Hy. by apply Hy, of_order_spec; [apply Hs|].
    - apply not_true_iff_false. by intros Ho%of_order_spec; [|apply Hs].
    - exact Hy.
    - exact Hy.
    - intros e He. apply not_true_iff_false. intros Hm. apply not_true_iff_false in Hy. apply Hy.
      apply mentioned_spec; [apply Hs|]. by exists e.
    - apply not_true_iff_false. intros (e & He & Hm)%mentioned_spec; [|apply Hs]. rewrite (Hy e He) in Hm. done. }
  destruct Ec as [e s2 Hn|c s2 Hr Hn E2 E3 E4|text s2 Hr Hn E2].
  - unfold d'. destruct (Rollback_saved _ _ Hn) as [-> _]. split; [exact Hd|]. left. by eauto.
  - destruct (Hgone Hn E2 Hr) as (S & G). split; [exact S|]. right. split; [exact Hr|]. split; [left; by exists c | exact G].
  - destruct (Hgone Hn E2 Hr) as (S & G). split; [exact S|]. right. split; [exact Hr|]. split; [right; by exists text | exact G].
Qed.

(** What the SDK calls the payment statuses, and a version that is a word. *)
Record stripe_vocabulary `{StripeSDK} : Prop := {
  sv_version : utf8 (codes APIVersion) /\ TrimSpace APIVersion <> "";
  sv_paid : PaymentStatusPaid = "paid";
  sv_none : PaymentStatusNoPaymentRequired = "no_payment_required";
  sv_unpaid : PaymentStatusUnpaid = "unpaid";
}.
Arguments stripe_vocabulary {_}.

(** The session the SDK makes of a session's text: its fields by name, the
    expanded payment intent by its identifier. *)
Definition session_of (s : fixtureSession) : CheckoutSession :=
  mkCheckoutSession (FS_ID s) (FS_Object s) "" 0 (FO_ID <$> FS_PaymentIntent s) (FS_PaymentStatus s)
    (FS_AmountTotal s) (FS_Currency s) (FS_ClientReferenceID s) (FS_Metadata s).

(** The identifiers of the program have no space around them. *)
Definition tidy (reference : Reference) : Prop :=
  Forall (fun x => TrimSpace x = x) [Ref_OrderID reference; Ref_PaymentID reference; Ref_AttemptID reference].

Definition moved_to (target current : string) : string := if target =s? "" then current else target.

Lemma localReference_metadata s orderID paymentID attemptID :
  FS_Metadata s = metadata_of orderID paymentID attemptID ->
  TrimSpace orderID = orderID -> TrimSpace paymentID = paymentID -> TrimSpace attemptID = attemptID ->
  orderID <> "" -> paymentID <> "" -> attemptID <> "" ->
  localReference (session_of s) = Ok (Stripe.mkReference orderID paymentID attemptID).
Proof.
  intros Hm To Tp Ta No Np Na. unfold localReference, Stripe.metadata, session_of. cbn [CS_Metadata]. rewrite Hm.
  change (default "" (metadata_of orderID paymentID attemptID !! metadataOrderID)) with orderID.
  change (default "" (metadata_of orderID paymentID attemptID !! metadataPaymentID)) with paymentID.
  change (default "" (metadata_of orderID paymentID attemptID !! metadataAttemptID)) with attemptID.
  rewrite To, Tp, Ta. cbn [Stripe.orderID Stripe.paymentID Stripe.attemptID].
  rewrite (proj2 (String.eqb_neq orderID "") No). cbn [Stripe.orderID Stripe.paymentID Stripe.attemptID].
  by rewrite (proj2 (String.eqb_neq _ _) No), (proj2 (String.eqb_neq _ _) Np), (proj2 (String.eqb_neq _ _) Na).
Qed.

Lemma said_financial `{GoQuote} `{StripeSDK} name said s : stripe_vocabulary -> says name = Some said ->
  FS_PaymentStatus s = said_paid said -> financialOutcome (eventKind (said_type said)) (session_of s) = Ok (said_outcome said).
Proof.
  intros [_ Hp Hn Hu] Hs E. unfold financialOutcome, session_of. cbn [CS_PaymentStatus]. rewrite E, Hp, Hn, Hu.
  clear E. revert name said Hs. apply says_cases. repeat (apply Forall_cons; split; [reflexivity|]). constructor.
Qed.

Lemma said_kind name said : says name = Some said -> eventKind (said_type said) <> Webhooks.KindUnknown.
Proof.
  revert name said. apply (says_cases (fun said => eventKind (said_type said) <> Webhooks.KindUnknown)).
  repeat (apply Forall_cons; split; [vm_compute; discriminate|]). constructor.
Qed.

Lemma valid_reference r : Reference_validate r = None ->
  TrimSpace (Ref_OrderID r) <> "" /\ TrimSpace (Ref_PaymentID r) <> "" /\ TrimSpace (Ref_AttemptID r) <> "" /\
  TrimSpace (Ref_SessionID r) <> "".
Proof. unfold Reference_validate. str_cases; done. Qed.

Lemma filled_interpreted `{UnicodeTables} `{JsonErrors} `{GoQuote} `{StripeSDK} name said resolved reference now event :
  stripe_vocabulary -> says name = Some said -> Reference_validate reference = None ->
  readable reference -> tidy reference -> utf8 (codes resolved) ->
  let e := filled said resolved reference now in
  let s := FE_Data_Object e in
  decode_session (of_codes (object_of (encode_session s))) = inr (session_of s) ->
  Webhooks.Event_Payload event = Marshal e ->
  Webhooks.Event_Kind event = eventKind (said_type said) ->
  Session_Interpret NewSession event =
    Ok (Consumer.mkSessionOutcome (Ref_OrderID reference) (Ref_PaymentID reference) (Ref_AttemptID reference)
          (Ref_SessionID reference) (Ref_PaymentIntentID reference) (Ref_Amount reference)
          (ToUpper (ToLower (Ref_Currency reference))) (said_outcome said) (Webhooks.Event_ReceivedAt event)).
Proof.
  intros Hv Hs Hval Hr Ht Hid e s Hd Hp Hk. pose proof (ex_intro _ name Hs : exists n, says n = Some said) as Hsaid.
  destruct (sv_version Hv) as [U V].
  destruct (valid_reference _ Hval) as (E1 & E2 & E3 & E4%String.eqb_neq).
  unfold Session_Interpret. rewrite Hp. unfold e.
  rewrite (filled_envelope said resolved reference now Hsaid Hid Hr U). fold e s.
  unfold checkVersion. cbn [Env_APIVersion Env_Data_Object]. rewrite (proj2 (String.eqb_neq _ _) V).
  rewrite bool_decide_true by (cbn [supportedVersions NewSession]; by apply elem_of_singleton). cbn [negb].
  unfold unmarshal_session.
  rewrite (object_valid 1) by (try done; apply (filled_members said resolved reference now Hsaid Hid Hr U)).
  rewrite Hd. change (CS_Object (session_of s)) with "checkout.session". cbn [String.eqb Ascii.eqb Bool.eqb andb negb].
  change (CS_ID (session_of s)) with (Ref_SessionID reference). rewrite E4.
  assert ((if Webhooks.Event_Kind event =s? Webhooks.KindUnknown then eventKind (Webhooks.Event_Type event)
           else Webhooks.Event_Kind event) = eventKind (said_type said)) as ->.
  { rewrite Hk. by rewrite (proj2 (String.eqb_neq _ _) (said_kind name said Hs)). }
  rewrite (said_financial name said s Hv Hs) by done.
  apply Forall_cons in Ht as [T1 [T2 [T3 _]%Forall_cons]%Forall_cons].
  rewrite (localReference_metadata s _ _ _ eq_refl T1 T2 T3) by congruence.
  cbn [Stripe.orderID Stripe.paymentID Stripe.attemptID]. do 2 f_equal.
  change (CS_PaymentIntent (session_of s)) with (FO_ID <$>
    (if Ref_PaymentIntentID reference =s? "" then None
     else Some (mkFixtureObject (Ref_PaymentIntentID reference) "payment_intent"))).
  by destruct (String.eqb_spec (Ref_PaymentIntentID reference) "") as [->|].
Qed.

(** The aggregate of a checkout that waits for its payment. *)
Record waiting (reference : Reference) (agg : Consumer.Aggregate) : Prop := {
  wa_provider : Consumer.Aggregate_Provider agg = Webhooks.Stripe;
  wa_amount : Consumer.Aggregate_Amount agg = Ref_Amount reference;
  wa_currency : Consumer.Aggregate_Currency agg = Ref_Currency reference;
  wa_iso : upper3 (Ref_Currency reference) = true;
  wa_session : Consumer.Aggregate_SessionID agg = Ref_SessionID reference;
  wa_order : Consumer.Aggregate_OrderStatus agg = "pending";
  wa_payment : Consumer.Aggregate_PaymentStatus agg = StatusPending;
  wa_attempt : Consumer.Aggregate_AttemptStatus agg = AttemptStatusPending;
}.

(** An emitted event ends where its scenario says. The payload rendered
    from any fixture for a valid reference is JSON; the Stripe adapter
    interprets it, whatever identifiers, amount and currency the reference
    carries, as the outcome of the scenario for exactly that order, payment,
    attempt, session and amount; and for the aggregate of a checkout that waits
    for its payment the consumer decides an effect that leaves order, payment
    and attempt in the very states the sandbox will wait for. Assumed of the
    SDK: its names of the payment statuses and that it decodes the rendered
    session by the names of its fields. *)
Theorem emitted_event_reaches_its_scenario `{UnicodeTables} `{JsonErrors} `{GoQuote} `{StripeSDK}
    (random : res (list Z)) (name eventID payload resolved : string) (scenario : Scenario) (reference : Reference)
    (now : Time) :
  stripe_vocabulary -> readable reference -> tidy reference -> utf8 (codes resolved) ->
  RenderEvent random name eventID reference now = Ok (payload, scenario, resolved) ->
  (forall said, says name = Some said -> let s := FE_Data_Object (filled said resolved reference now) in
     decode_session (of_codes (object_of (encode_session s))) = inr (session_of s)) ->
  json_Valid payload = true /\
  exists type, forall event, Webhooks.Event_Payload event = payload ->
    Webhooks.Event_Type event = type -> Webhooks.Event_Kind event = eventKind type ->
    exists outcome, Session_Interpret NewSession event = Ok outcome /\
      Consumer.SessionOutcome_OrderID outcome = Ref_OrderID reference /\
      Consumer.SessionOutcome_PaymentID outcome = Ref_PaymentID reference /\
      Consumer.SessionOutcome_AttemptID outcome = Ref_AttemptID reference /\
      Consumer.SessionOutcome_SessionID outcome = Ref_SessionID reference /\
      Consumer.SessionOutcome_Amount outcome = Ref_Amount reference /\
      forall agg, waiting reference agg -> exists eff, Consumer.decideEffect outcome agg Webhooks.Stripe = Ok eff /\
        (if Consumer.Effect_OrderPaid eff then "paid" else Consumer.Aggregate_OrderStatus agg) = Sc_OrderStatus scenario /\
        moved_to (Consumer.Effect_PaymentStatus eff) (Consumer.Aggregate_PaymentStatus agg) = Sc_PaymentStatus scenario /\
        moved_to (Consumer.Effect_AttemptStatus eff) (Consumer.Aggregate_AttemptStatus agg) = Sc_AttemptStatus scenario.
Proof.
  intros Hv Hr Ht Hid (Hsc & Hval & said & Hs & ->)%RenderEvent_Ok Hd. specialize (Hd said Hs).
  pose proof (ex_intro _ name Hs : exists n, says n = Some said) as Hsaid. destruct (sv_version Hv) as [U _].
  split; [apply (object_valid 3); [apply (filled_members said resolved reference now Hsaid Hid Hr U)|done..]|].
  exists (said_type said). intros event Hp _ Hk. eexists.
  split; [by apply (filled_interpreted name said resolved reference now event)|].
  cbn [Consumer.SessionOutcome_OrderID Consumer.SessionOutcome_PaymentID Consumer.SessionOutcome_AttemptID
    Consumer.SessionOutcome_SessionID Consumer.SessionOutcome_Amount]. split_and!; [done..|].
  intros agg [W1 W2 W3 W4 W5 W6 W7 W8]. destruct (currency_cases _ W4) as [Hcur _].
  unfold Consumer.decideEffect. cbn [Consumer.SessionOutcome_Amount Consumer.SessionOutcome_Currency
    Consumer.SessionOutcome_SessionID Consumer.SessionOutcome_Outcome].
  rewrite W1, W2, W3, W5, W6, W7, W8, Hcur, !EqualFold_refl, Z.eqb_refl, String.eqb_refl, !andb_false_r. cbn [negb orb].
  clear -Hs Hsc. revert said Hs. revert name scenario Hsc. apply (scenarios_cases (fun name scenario => forall said, _ = _ -> _)).
  repeat (apply Forall_cons; split; [intros said [= <-]; eexists; split; [reflexivity | split_and!; reflexivity]|]).
  constructor.
Qed.

(** An SDK that decodes sessions by their fields. *)
Definition decoding_sdk : StripeSDK :=
  let sdk := sample_sdk (sample_session "paid") in {|
  APIVersion := @APIVersion sdk;
  CheckoutSessionModePayment := @CheckoutSessionModePayment sdk;
  PaymentMethodTypeCard := @PaymentMethodTypeCard sdk;
  PaymentMethodTypePix := @PaymentMethodTypePix sdk;
  PaymentStatusPaid := @PaymentStatusPaid sdk;
  PaymentStatusNoPaymentRequired := @PaymentStatusNoPaymentRequired sdk;
  PaymentStatusUnpaid := @PaymentStatusUnpaid sdk;
  decode_session := fun data =>
    match @Unmarshal sample_unicode sample_errors _ (@session_fields sample_unicode sample_errors) data zero_session with
    | (s, None) => inr (session_of s)
    | (_, Some _) => inl "unreadable session"
    end;
  sdk_event := @sdk_event sdk;
  sdk_event_ID := @sdk_event_ID sdk;
  sdk_event_Type := @sdk_event_Type sdk;
  sdk_event_Created := @sdk_event_Created sdk;
  ConstructEvent := @ConstructEvent sdk;
  marshal_event := @marshal_event sdk;
  DefaultTolerance := @DefaultTolerance sdk;
|}.

Definition sample_reference : Reference := mkReference "ord_1" "pay_1" "pat_1" "cs_1" "pi_1" 20000 "BRL".
Definition sample_waiting : Consumer.Aggregate :=
  Consumer.mkAggregate "ord_1" "pending" "pay_1" "pending" "stripe" 20000 "BRL" "pat_1" "pending" "cs_1".
Definition sample_emitted (payload : string) : Webhooks.Event :=
  Webhooks.mkEvent "evt_1" "stripe" "evt_9" "checkout.session.completed" Webhooks.KindCheckoutCompleted payload payload
    "pending" 7.

(** A card payment of two hundred reais. *)
Lemma emitted_event_reaches_its_scenario_witness : exists payload scenario,
  @RenderEvent sample_unicode sample_errors (fun s => s) decoding_sdk (Ok []) "card-paid" "evt_9" sample_reference 5
    = Ok (payload, scenario, "evt_9") /\ json_Valid payload = true /\ Sc_OrderStatus scenario = "paid".
Proof.
  destruct (@RenderEvent sample_unicode sample_errors (fun s => s) decoding_sdk (Ok []) "card-paid" "evt_9" sample_reference 5)
    as [[[payload scenario] resolved]|err] eqn:E.
  - assert (resolved = "evt_9" /\ Sc_OrderStatus scenario = "paid") as [-> Ho].
    { set (seen (r : res (string * Scenario * string)) := match r with Ok (_, sc, id) => (id, Sc_OrderStatus sc) | Err _ => ("", "") end).
      assert ((resolved, Sc_OrderStatus scenario) = ("evt_9", "paid")) as Es.
      { etransitivity; [exact (f_equal seen (eq_sym E)) | vm_compute; reflexivity]. }
      injection Es as -> Ho. by split. }
    destruct (@emitted_event_reaches_its_scenario sample_unicode sample_errors (fun s => s) decoding_sdk (Ok []) "card-paid"
      "evt_9" payload "evt_9" scenario sample_reference 5) as [Hv _].
    + split; [split; [utf8_literal | vm_compute; discriminate] | reflexivity..].
    + repeat (apply Forall_cons_2; [utf8_literal|]). apply Forall_nil_2.
    + repeat (apply Forall_cons_2; [reflexivity|]). apply Forall_nil_2.
    + utf8_literal.
    + exact E.
    + intros said Hs. injection Hs as <-. vm_compute. reflexivity.
    + exists payload, scenario. split; [reflexivity|]. split; [exact Hv | exact Ho].
  - vm_compute in E. discriminate E.
Defined.

(** *** A checkout the tool opened, on a database the program reaches *)

Section Opened.
#[local] Existing Instance sample_unicode.
#[local] Existing Instance sample_postgres.
#[local] Existing Instance sql_gorm.
#[local] Existing Instance sql_gorm_documented.
#[local] Existing Instance Checkout.demo_catalog.
#[local] Existing Instance Checkout.sample_urls.
#[local] Existing Instance CheckoutRepo.OrderRepository.
#[local] Existing Instance Pipeline.day_interpreter.
#[local] Existing Instance Inbox.sample_verifier.
#[local] Instance opened_float : FloatConversion := fun z => z.

Definition sandbox_input : OrderApp.CreateInput := OrderApp.mkCreateInput "product_demo" 2 "sandbox_order_1".

Definition ordered_db : DB :=
  st_db (OrderApp.Create (Checkout.sample_order_service "ord_00000000000000000000000000000001") sandbox_input
           (mkStore (empty_db 10) None [], [])).2.1.
Definition opened_db : DB :=
  st_db (Checkout.checkout_call Checkout.sample_checkout (mkStore ordered_db None [], [], [])).2.1.1.

Lemma opened_sound : sound opened_db.
Proof.
  refine (proj1 (Pipeline.steps_sound Checkout.demo_honest (empty_db 10) _ (Pipeline.sound_empty 10) _)).
  eapply rtc_l; [by apply (Pipeline.step_order _ _ (Checkout.sample_order_service "ord_00000000000000000000000000000001") sandbox_input [] [])|].
  apply rtc_once. by apply (Pipeline.step_checkout _ _ _ Checkout.sample_provider Checkout.sample_checkout Checkout.sample_request 3 [] [] []).
Qed.
End Opened.

#[local] Instance no_path : JsonPath := fun _ _ => None.
#[local] Instance plain_quote : GoQuote := fun s => s.

(** The open checkout is removed although its payment and its attempt still
    wait and the customer can still pay the session. *)
Lemma cleanup_removes_one_order_witness : exists c s',
  (exists a, payment_attempts opened_db !! "pat_1" = Some a /\ AttemptRow_Status a = "pending") /\
  Cleanup "ord_00000000000000000000000000000001" (mkStore opened_db None []) = (Ok c, s') /\
  sound (st_db s') /\ orders (st_db s') !! "ord_00000000000000000000000000000001" = None /\
  payment_attempts (st_db s') !! "pat_1" = None.
Proof.
  destruct (Cleanup "ord_00000000000000000000000000000001" (mkStore opened_db None [])) as [[c|err] s'] eqn:E.
  2:{ assert (match (Cleanup "ord_00000000000000000000000000000001" (mkStore opened_db None [])).1 with
              | Ok _ => true | Err _ => false end = true) as Hc by (vm_compute; reflexivity).
      rewrite E in Hc. discriminate Hc. }
  destruct (cleanup_removes_one_order "ord_00000000000000000000000000000001" (mkStore opened_db None []) s' (Ok c))
    as (_ & Hs & Hout).
  - exact opened_sound.
  - reflexivity.
  - exact E.
  - exists c, s'. split; [eexists; split; vm_compute; reflexivity|]. split; [reflexivity|]. split; [exact Hs|].
    destruct Hout as [[_ [err Herr]]|(_ & _ & Ho & _ & Ha & _)]; [discriminate Herr|].
    split; apply eq_None_not_Some.
    + intros [o Hx]. apply Ho in Hx as [_ Hx]. by apply Hx.
    + intros [a Hx]. apply Ha in Hx as [Hx Hno]. apply Hno.
      assert (option_map AttemptRow_PaymentID (payment_attempts opened_db !! "pat_1") = Some "pay_1") as Hp
        by (vm_compute; reflexivity).
      cbn [st_db] in Hx. rewrite Hx in Hp. injection Hp as ->.
      assert (option_map PaymentRow_OrderID (payments opened_db !! "pay_1") = Some "ord_00000000000000000000000000000001") as Hq
        by (vm_compute; reflexivity).
      cbn [st_db]. destruct (payments opened_db !! "pay_1") as [p|] eqn:Ep; [|discriminate Hq].
      injection Hq as Hq. unfold owned. exists p. split; [exact Ep | exact Hq].
Defined.
