(* ===== verification/SandboxCmd.v ===== *)
(** * The sandbox's client and commands: [internal/sandbox/client.go], [cmd/sandbox]

    The client speaks to the local API over a transport that is a parameter;
    every request it sends is recorded. The commands parse their flags, check
    the configuration they need, and use the client and the store of
    [Sandbox]. *)

From S2P Require Import Prelude GoLib Errsanitize Json JsonText Netip Wire Store Gorm Stripe Samples Sandbox.
From S2P Require Auth.
From S2P Require Webhooks.

(** ** [client.go] *)

Record HTTPRequest := mkHTTPRequest {
  HR_Method : string;
  HR_URL : string;
  HR_Header : Wire.Header;
  HR_Body : option string
}.

Record HTTPResponse := mkHTTPResponse { StatusCode : Z; StatusText : string; ResponseBody : Wire.Body }.

(** [http.Client.Do] within its timeout, redirects it follows included. *)
Class Transport (W : Type) : Type := Do : HTTPRequest -> M W HTTPResponse.

(** [time.Time.UnmarshalJSON] of a string. *)
Class TimeText : Type := unmarshal_time : list Z -> option Time.

(** The other end, and what was sent to it. *)
Definition Network (W : Type) : Type := (W * list HTTPRequest)%type.

Definition maxResponseBody : Z := Z.shiftl 1 20.

Record Client := mkClient { baseURL : string; apiKey : string }.

Record Order := mkOrder { Order_ID : string; Order_Status : string; Order_Amount : Z; Order_Currency : string }.
Definition zero_order : Order := mkOrder "" "" 0 "".

Record checkoutResponse := mkCheckoutResponse { CR_CheckoutURL : string; CR_ExpiresAt : Time }.

Record CheckoutResult := mkCheckoutResult {
  Result_OrderID : string;
  Result_OrderStatus : string;
  Result_Amount : Z;
  Result_Currency : string;
  Result_CheckoutURL : string;
  Result_ExpiresAt : Time
}.

Record apiError := mkApiError { ErrorCode : string; ErrorMessage : string }.

Definition NewClient (cfg : Config) : Client := mkClient (APIURL cfg) (APIKey cfg).

Section Client.
Context `{UnicodeTables} `{JsonErrors} `{GoQuote} `{UrlParser} `{TimeText} {W : Type} `{Transport W}.

Definition error_fields : fields apiError :=
  [("code", store_string (fun x e => mkApiError x (ErrorMessage e)));
   ("message", store_string (fun x e => mkApiError (ErrorCode e) x))].

Definition order_fields : fields Order :=
  [("id", store_string (fun x o => mkOrder x (Order_Status o) (Order_Amount o) (Order_Currency o)));
   ("status", store_string (fun x o => mkOrder (Order_ID o) x (Order_Amount o) (Order_Currency o)));
   ("amount", store_int (fun x o => mkOrder (Order_ID o) (Order_Status o) x (Order_Currency o)));
   ("currency", store_string (fun x o => mkOrder (Order_ID o) (Order_Status o) (Order_Amount o) x))].

Definition store_time : store Time := fun v t =>
  match kind_of v with
  | KNull => (t, None)
  | _ => match unmarshal_time v with Some t => (t, None) | None => (t, Some (ErrNew "parsing time")) end
  end.

Definition checkout_fields : fields checkoutResponse :=
  [("checkoutUrl", store_string (fun x c => mkCheckoutResponse x (CR_ExpiresAt c)));
   ("expiresAt", store_in CR_ExpiresAt (fun x c => mkCheckoutResponse (CR_CheckoutURL c) x) store_time)].

(** The request is recorded, whatever comes of it. *)
Definition send (r : HTTPRequest) : M (Network W) HTTPResponse := fun '(w, sent) =>
  let '(out, w) := Do r w in (out, (w, sent ++ [r])).

(** [io.ReadAll(io.LimitReader(body, maxResponseBody))]. *)
Definition read_limited (b : Body) : res string :=
  if maxResponseBody <=? len (body_bytes b)
  then Ok (String.substring 0 (Z.to_nat maxResponseBody) (body_bytes b))
  else match body_end b with Some err => Err err | None => Ok (body_bytes b) end.

(** What a response that is not a success is reported as. *)
Definition refused (who : string) (response : HTTPResponse) (body : string) : error :=
  match Unmarshal error_fields body (mkApiError "" "") with
  | (reported, None) =>
      if ErrorCode reported <>s? "" then
        ErrNew (who +:+ " returned " +:+ StatusText response +:+ " (" +:+ ErrorCode reported +:+ "): " +:+ ErrorMessage reported)
      else ErrNew (who +:+ " returned " +:+ StatusText response)
  | (_, Some _) => ErrNew (who +:+ " returned " +:+ StatusText response)
  end.

Definition successful (response : HTTPResponse) : bool := (200 <=? StatusCode response) && (StatusCode response <? 300).

Definition PostEvent (c : Client) (payload signature : string) : M (Network W) unit :=
  let url := baseURL c +:+ "/v1/webhooks/stripe" in
  match url_parse url with
  | None => gfail (wrapf "build webhook request" (ErrNew "invalid URL"))
  | Some _ =>
      let headers := Set_ (Set_ (Set_ ∅ "Content-Type" "application/json") "Accept" "application/json")
                       "Stripe-Signature" signature in
      let! response := gwrap (wrapf "call local webhook") (send (mkHTTPRequest "POST" url headers (Some payload))) in
      let! body := glift (res_wrap (wrapf "read local webhook response") (read_limited (ResponseBody response))) in
      if negb (successful response) then gfail (refused "local webhook" response body) else gret tt
  end.

(** [output] is the struct the answer is decoded into, if any. *)
Definition jsonRequest {S} (c : Client) (method path : string) (input : option string) (headers : list (string * string))
    (output : option (fields S)) (zero : S) : M (Network W) S :=
  let url := baseURL c +:+ path in
  match url_parse url with
  | None => gfail (wrapf "build request" (ErrNew "invalid URL"))
  | Some _ =>
      let h := Set_ ∅ "Accept" "application/json" in
      let h := match input with Some _ => Set_ h "Content-Type" "application/json" | None => h end in
      let h := if apiKey c <>s? "" then Set_ h "X-API-Key" (apiKey c) else h in
      let h := fold_left (fun h kv => Set_ h kv.1 kv.2) headers h in
      let! response := gwrap (wrapf "call local API") (send (mkHTTPRequest method url h input)) in
      let! body := glift (res_wrap (wrapf "read local API response") (read_limited (ResponseBody response))) in
      if negb (successful response) then gfail (refused "local API" response body)
      else match output with
           | Some fs =>
               if TrimSpace body =s? "" then gret zero
               else match Unmarshal fs body zero with
                    | (value, None) => gret value
                    | (_, Some err) => gfail (wrapf "decode local API response" err)
                    end
           | None => gret zero
           end
  end.

Definition order_request (quantity : Z) : string :=
  of_codes (object_of [("productId", quote_json "product_demo"); ("quantity", codes (pretty quantity))]).

Definition CreateCheckout (c : Client) (random : res (list Z)) (quantity : Z) : M (Network W) CheckoutResult :=
  if (quantity <? 1) || (1000 <? quantity) then gfail (ErrNew "quantity must be between 1 and 1000") else
  let! suffix := glift (randomSuffix random) in
  let! order := gwrap (wrapf "create sandbox order")
    (jsonRequest c "POST" "/v1/orders" (Some (order_request quantity))
       [("Idempotency-Key", "sandbox_order_" +:+ suffix)] (Some order_fields) zero_order) in
  let! checkout := gwrap (wrapf "create sandbox checkout")
    (jsonRequest c "POST" ("/v1/orders/" +:+ Order_ID order +:+ "/checkout") None
       [("Idempotency-Key", "sandbox_checkout_" +:+ suffix)] (Some checkout_fields) (mkCheckoutResponse "" 0)) in
  gret (mkCheckoutResult (Order_ID order) (Order_Status order) (Order_Amount order) (Order_Currency order)
          (CR_CheckoutURL checkout) (CR_ExpiresAt checkout)).

Definition GetOrder (c : Client) (orderID : string) : M (Network W) Order :=
  gwrap (wrapf "get sandbox order")
    (jsonRequest c "GET" ("/v1/orders/" +:+ orderID) None [] (Some order_fields) zero_order).

Definition Health (c : Client) : M (Network W) unit := jsonRequest c "GET" "/health" None [] None tt.

Definition CheckAuthentication (c : Client) : M (Network W) unit :=
  jsonRequest c "GET" "/v1/webhook-events?limit=1" None [] None tt.

(** [store.go]: [WaitForOrder], over the waits so far. *)
Fixpoint WaitForOrder (c : Client) (orderID expected : string) (waits : list (Wait W))
    : Network W -> option (res Order) * Network W := fun n =>
  match GetOrder c orderID n with
  | (Err err, n) => (Some (Err err), n)
  | (Ok order, n) =>
      if Order_Status order =s? expected then (Some (Ok order), n)
      else match waits with
           | [] => (None, n)
           | w :: waits =>
               match wait_ended w with
               | Some err => (Some (Err (wrapf ("wait for order status " +:+ Quote expected) err)), n)
               | None => WaitForOrder c orderID expected waits (wait_meanwhile w n.1, n.2)
               end
           end
  end.
End Client.

(** ** Flags: [flag.FlagSet] with [ContinueOnError]

    No flag of the tool is boolean. A flag knows which texts it accepts. *)

Definition ErrHelp : error := ErrSentinel "flag.ErrHelp" "flag: help requested".

Definition Formals : Type := list (string * (string -> bool)).

(** The name of a flag and the value written behind an equals sign. *)
Definition split_flag (l : list Z) : string * option string :=
  match cut 61 l with
  | Some (name, value) => (of_codes name, Some (of_codes value))
  | None => (of_codes l, None)
  end.

Section Flags.
Context `{GoQuote}.

Definition set_flag (name : string) (accepts : string -> bool) (value : string) (given : gmap string string)
    : res (gmap string string) :=
  if accepts value then Ok (<[name := value]> given)
  else Err (ErrNew ("invalid value " +:+ Quote value +:+ " for flag -" +:+ name)).

(** What was given, and the positional arguments behind the flags. *)
Fixpoint Parse (formals : Formals) (arguments : list string) (given : gmap string string)
    : res (gmap string string * list string) :=
  match arguments with
  | [] => Ok (given, [])
  | s :: arguments =>
      let flag (l : list Z) :=
        match l with
        | [] | 45 :: _ | 61 :: _ => Err (ErrNew ("bad flag syntax: " +:+ s))
        | _ =>
            let '(name, value) := split_flag l in
            match List.find (fun f => f.1 =s? name) formals with
            | None => if (name =s? "help") || (name =s? "h") then Err ErrHelp
                      else Err (ErrNew ("flag provided but not defined: -" +:+ name))
            | Some (_, accepts) =>
                match value, arguments with
                | Some value, _ => try given := set_flag name accepts value given in Parse formals arguments given
                | None, value :: arguments => try given := set_flag name accepts value given in Parse formals arguments given
                | None, [] => Err (ErrNew ("flag needs an argument: -" +:+ name))
                end
            end
        end in
      match codes s with
      | [45; 45] => Ok (given, arguments)
      | 45 :: 45 :: l => flag l
      | 45 :: c :: l => flag (c :: l)
      | _ => Ok (given, s :: arguments)
      end
  end.
End Flags.

(** ** [cmd/sandbox/main.go] *)

Definition cleanupConfirmation : string := "delete-local-sandbox-order".

(** [strconv.ParseInt(s, 0, 64)] and [time.ParseDuration]. *)
Class FlagValues : Type := {
  parse_int_flag : string -> option Z;
  parse_duration : string -> option Duration;
}.

(** What the tool prints. *)
Inductive Output :=
| OutDoctor (environment : string)
| OutCheckout (result : CheckoutResult)
| OutEmit (eventID scenario : string) (state : AggregateStatus)
| OutStatus (status : AggregateStatus)
| OutOrder (order : Order)
| OutCleanup (result : CleanupResult)
| OutUsage.

(** What a command meets outside: the file and the environment of its
    configuration, the Stripe CLI in the path, the error of [OpenStore], entropy, the clock, the waits of its polling loop, and
    whether its output is taken. *)
Record Surroundings (W : Type) := mkSurroundings {
  su_dotenv : option error;
  su_env : string -> string;
  su_stripe_cli : bool;
  su_open : option error;
  su_random : res (list Z);
  su_now : Time;
  su_polls : list (Wait W);
  su_rounds : list (Wait DB);
  su_stdout : option error
}.
Arguments su_dotenv {W}.
Arguments su_env {W}.
Arguments su_stripe_cli {W}.
Arguments su_open {W}.
Arguments su_random {W}.
Arguments su_now {W}.
Arguments su_polls {W}.
Arguments su_rounds {W}.
Arguments su_stdout {W}.

(** The database, the network and what was printed. *)
Record World (W : Type) := mkWorld { cw_store : Store; cw_net : Network W; cw_out : list Output }.
Arguments mkWorld {W}.
Arguments cw_store {W}.
Arguments cw_net {W}.
Arguments cw_out {W}.

(** A command that returned, or one that still polls. *)
Inductive Exit := Exited (err : option error) | Polling.

Section Commands.
Context `{UnicodeTables} `{JsonErrors} `{GoQuote} `{UrlParser} `{TimeText} `{FlagValues} `{StripeSDK} `{Auth.Hmac}.
Context `{JsonPath} {W : Type} `{Transport W}.
Variables (su : Surroundings W).

Definition any_text (_ : string) : bool := true.
Definition is_int (s : string) : bool := is_some (parse_int_flag s).
Definition is_duration (s : string) : bool := is_some (parse_duration s).

Definition flag_text (given : gmap string string) (name fallback : string) : string := default fallback (given !! name).
Definition flag_int (given : gmap string string) (name : string) (fallback : Z) : Z :=
  default fallback (given !! name ≫= parse_int_flag).
Definition flag_duration (given : gmap string string) (name : string) (fallback : Duration) : Duration :=
  default fallback (given !! name ≫= parse_duration).

Definition exit (err : error) (w : World W) : Exit * World W := (Exited (Some err), w).

Definition writeJSON (o : Output) (w : World W) : Exit * World W :=
  match su_stdout su with
  | Some err => exit (wrapf "write sandbox output" err) w
  | None => (Exited None, mkWorld (cw_store w) (cw_net w) (cw_out w ++ [o]))
  end.

(** The parsed flags, for a command that takes no more. *)
Definition with_flags (formals : Formals) (arguments : list string) (acceptable : gmap string string -> bool) (usage : string)
    (k : gmap string string -> World W -> Exit * World W) (w : World W) : Exit * World W :=
  match Parse formals arguments ∅ with
  | Err err => exit err w
  | Ok (given, rest) =>
      if negb (bool_decide (rest = [])) || negb (acceptable given) then exit (ErrNew usage) w else k given w
  end.

Definition validated (cfg : Config) (require : Requirements) (k : World W -> Exit * World W) (w : World W) : Exit * World W :=
  match Validate cfg require with Some err => exit err w | None => k w end.

Definition openStore (k : World W -> Exit * World W) (w : World W) : Exit * World W :=
  match su_open su with Some err => exit err w | None => k w end.

(** A call of the client, a call of the store. *)
Definition on_net {A} (m : M (Network W) A) (k : A -> World W -> Exit * World W) (w : World W) : Exit * World W :=
  match m (cw_net w) with
  | (Err err, n) => exit err (mkWorld (cw_store w) n (cw_out w))
  | (Ok a, n) => k a (mkWorld (cw_store w) n (cw_out w))
  end.

Definition on_db {A} (m : M Store A) (k : A -> World W -> Exit * World W) (w : World W) : Exit * World W :=
  match m (cw_store w) with
  | (Err err, s) => exit err (mkWorld s (cw_net w) (cw_out w))
  | (Ok a, s) => k a (mkWorld s (cw_net w) (cw_out w))
  end.

Definition runDoctor (cfg : Config) (arguments : list string) : World W -> Exit * World W :=
  with_flags [] arguments (fun _ => true) "doctor does not accept positional arguments" (fun _ =>
  validated cfg (mkRequirements true true true true) (fun w =>
  if negb (su_stripe_cli su) then exit (ErrNew "stripe CLI was not found in PATH") w else
  on_net (gwrap (wrapf "API health check") (Health (NewClient cfg))) (fun _ =>
  on_net (gwrap (wrapf "API authentication check") (CheckAuthentication (NewClient cfg))) (fun _ =>
  openStore (writeJSON (OutDoctor (Environment cfg))))) w)).

Definition runCheckout (cfg : Config) (arguments : list string) : World W -> Exit * World W :=
  with_flags [("quantity", is_int)] arguments (fun _ => true) "checkout does not accept positional arguments" (fun given =>
  validated cfg (mkRequirements true false true false)
  (on_net (CreateCheckout (NewClient cfg) (su_random su) (flag_int given "quantity" 1)) (fun result =>
   writeJSON (OutCheckout result)))).

Definition runEmit (cfg : Config) (arguments : list string) : World W -> Exit * World W :=
  with_flags [("order", any_text); ("scenario", any_text); ("event-id", any_text); ("wait", is_duration)] arguments
    (fun given => (flag_text given "order" "" <>s? "") && (flag_text given "scenario" "" <>s? ""))
    "emit requires --order and --scenario and accepts no positional arguments" (fun given w =>
  let orderID := flag_text given "order" "" in
  let wait := flag_duration given "wait" (20 * Second) in
  if wait <? 0 then exit (ErrNew "emit --wait must not be negative") w else
  validated cfg (mkRequirements true true false true)
  (openStore (on_db (Store_Reference orderID) (fun reference w =>
   match RenderEvent (su_random su) (flag_text given "scenario" "") (flag_text given "event-id" "") reference (su_now su) with
   | Err err => exit err w
   | Ok (payload, scenario, resolvedEventID) =>
       match StripeSignature payload (WebhookSecret cfg) (su_now su) with
       | Err err => exit err w
       | Ok signature =>
           on_net (PostEvent (NewClient cfg) payload signature) (fun _ w =>
           if 0 <? wait then
             match WaitForScenario orderID resolvedEventID scenario (su_rounds su) (cw_store w) with
             | (None, s) => (Polling, mkWorld s (cw_net w) (cw_out w))
             | (Some (state, None), s) =>
                 writeJSON (OutEmit resolvedEventID (Name scenario) state) (mkWorld s (cw_net w) (cw_out w))
             | (Some (state, Some err), s) =>
                 exit err (writeJSON (OutEmit resolvedEventID (Name scenario) state) (mkWorld s (cw_net w) (cw_out w))).2
             end
           else writeJSON (OutEmit resolvedEventID (Name scenario) zero_status) w) w
       end
   end))) w).

Definition runStatus (cfg : Config) (arguments : list string) : World W -> Exit * World W :=
  with_flags [("order", any_text); ("event-id", any_text)] arguments (fun given => flag_text given "order" "" <>s? "")
    "status requires --order and accepts no positional arguments" (fun given =>
  validated cfg (mkRequirements false true false false)
  (openStore (on_db (Status (flag_text given "order" "") (flag_text given "event-id" "")) (fun status =>
   writeJSON (OutStatus status))))).

Definition runWait (cfg : Config) (arguments : list string) : World W -> Exit * World W :=
  with_flags [("order", any_text); ("status", any_text); ("timeout", is_duration)] arguments
    (fun given => flag_text given "order" "" <>s? "") "wait requires --order and accepts no positional arguments" (fun given w =>
  if flag_duration given "timeout" (2 * Minute) <=? 0 then exit (ErrNew "wait --timeout must be positive") w else
  validated cfg (mkRequirements true false false false) (fun w =>
  match WaitForOrder (NewClient cfg) (flag_text given "order" "") (flag_text given "status" "paid") (su_polls su) (cw_net w) with
  | (None, n) => (Polling, mkWorld (cw_store w) n (cw_out w))
  | (Some (Err err), n) => exit err (mkWorld (cw_store w) n (cw_out w))
  | (Some (Ok order), n) => writeJSON (OutOrder order) (mkWorld (cw_store w) n (cw_out w))
  end) w).

Definition runCleanup (cfg : Config) (arguments : list string) : World W -> Exit * World W :=
  with_flags [("order", any_text); ("confirm", any_text)] arguments (fun given => flag_text given "order" "" <>s? "")
    "cleanup requires --order and accepts no positional arguments" (fun given w =>
  if flag_text given "confirm" "" <>s? cleanupConfirmation
  then exit (ErrNew ("cleanup requires --confirm=" +:+ cleanupConfirmation)) w else
  validated cfg (mkRequirements false true false false)
  (openStore (on_db (Cleanup (flag_text given "order" "")) (fun result => writeJSON (OutCleanup result)))) w).

Definition usageError : error :=
  ErrNew "usage: sandbox <doctor|checkout|emit|status|wait|cleanup>; run sandbox help for details".

Definition run (arguments : list string) (w : World W) : Exit * World W :=
  match arguments with
  | [] => exit usageError w
  | command :: arguments =>
      match LoadConfig (su_dotenv su) (su_env su) with
      | Err err => exit err w
      | Ok cfg =>
          if command =s? "doctor" then runDoctor cfg arguments w
          else if command =s? "checkout" then runCheckout cfg arguments w
          else if command =s? "emit" then runEmit cfg arguments w
          else if command =s? "status" then runStatus cfg arguments w
          else if command =s? "wait" then runWait cfg arguments w
          else if command =s? "cleanup" then runCleanup cfg arguments w
          else if one_of ["help"; "-h"; "--help"] command then
            (Exited None, mkWorld (cw_store w) (cw_net w) (cw_out w ++ [OutUsage]))
          else exit (wrapf ("unknown sandbox command " +:+ Quote command) usageError) w
      end
  end.
End Commands.

(** ** Lemmas: what a command touches *)

(** A host of this machine. *)
Definition local_host `{UnicodeTables} (host : string) : Prop :=
  EqualFold host "localhost" = true \/ exists a, ParseIP host = Some a /\ IsLoopback a = true.

Lemma isLoopbackHost_ok `{UnicodeTables} host : isLoopbackHost host = true <-> local_host host.
Proof.
  unfold isLoopbackHost, local_host. destruct (EqualFold host "localhost"); [by split; [left|]|].
  destruct (ParseIP host) as [a|]; [|split; [done | by intros [?|(? & ? & _)]]].
  split; [right; by exists a | by intros [?|(? & [= <-] & ?)]].
Qed.

Definition sandboxed (cfg : Config) : Prop := Environment cfg = "development" \/ Environment cfg = "test".

Record local_api `{UnicodeTables} `{UrlParser} (cfg : Config) : Prop := {
  la_environment : sandboxed cfg;
  la_key : APIKey cfg <> "";
  la_url : exists u, url_parse (APIURL cfg) = Some u /\ URL_Scheme u = "http" /\ URL_Path u = "" /\
    local_host (Hostname (URL_Host u));
}.

Record local_database `{UnicodeTables} `{UrlParser} (cfg : Config) : Prop := {
  ld_environment : sandboxed cfg;
  ld_url : exists u, url_parse (DatabaseURL cfg) = Some u /\
    (URL_Scheme u = "postgres" \/ URL_Scheme u = "postgresql") /\ local_host (Hostname (URL_Host u));
}.

Section Validated.
Context `{UnicodeTables} `{UrlParser}.

Lemma loopback_http value : validateLoopbackHTTP value = None ->
  exists u, url_parse value = Some u /\ URL_Scheme u = "http" /\ URL_Path u = "" /\ local_host (Hostname (URL_Host u)).
Proof.
  unfold validateLoopbackHTTP. destruct (url_parse value) as [u|]; [|done].
  destruct (String.eqb_spec (URL_Scheme u) "http"); [|done]. destruct (URL_Host u =s? ""); [done|].
  destruct (String.eqb_spec (URL_Path u) ""); [|done]. cbn [negb orb].
  destruct (isLoopbackHost _) eqn:E; [|done]. intros _. exists u. split_and!; [done..|]. by apply isLoopbackHost_ok.
Qed.

Lemma loopback_postgres value : validateLoopbackPostgres value = None ->
  exists u, url_parse value = Some u /\ (URL_Scheme u = "postgres" \/ URL_Scheme u = "postgresql") /\
    local_host (Hostname (URL_Host u)).
Proof.
  unfold validateLoopbackPostgres. destruct (url_parse value) as [u|]; [|done].
  destruct (_ || _) eqn:E1; [done|]. destruct (isLoopbackHost _) eqn:E; [|done]. intros _. exists u.
  split; [done|]. apply isLoopbackHost_ok in E. split; [|done]. revert E1.
  destruct (String.eqb_spec (URL_Scheme u) "postgres"); [by left|].
  by destruct (String.eqb_spec (URL_Scheme u) "postgresql"); [right|].
Qed.

(** What a configuration that passes has. *)
Lemma Validate_ok cfg require : Validate cfg require = None ->
  (Req_API require = true -> local_api cfg) /\ (Req_Database require = true -> local_database cfg).
Proof.
  unfold Validate. destruct (_ && _) eqn:E1; [done|].
  assert (sandboxed cfg) as Hs.
  { unfold sandboxed. revert E1. destruct (String.eqb_spec (Environment cfg) "development"); [by left|].
    by destruct (String.eqb_spec (Environment cfg) "test"); [right|]. }
  destruct (if Req_API require then _ else _) eqn:E2; [done|].
  destruct (if Req_Database require then _ else _) eqn:E3; [done|]. intros _. split; intros Er; rewrite Er in *.
  - destruct (String.eqb_spec (APIKey cfg) ""); [done|]. split; [done..|by apply loopback_http].
  - split; [done | by apply loopback_postgres].
Qed.
End Validated.

Section Touched.
Context `{UnicodeTables} `{JsonErrors} `{GoQuote} `{UrlParser} `{TimeText} `{FlagValues} `{StripeSDK} `{Auth.Hmac}.
Context `{JsonPath} {W : Type} `{Transport W}.

(** *** The client sends to its base URL only *)

Definition to_base (c : Client) (r : HTTPRequest) : Prop := exists path, HR_URL r = baseURL c +:+ "/" +:+ path.

Definition sends {A} (P : HTTPRequest -> Prop) (m : M (Network W) A) : Prop := forall n, exists news,
  (m n).2.2 = n.2 ++ news /\ Forall P news.

Lemma sends_lift {A} P (r : res A) : sends P (glift r).
Proof. intros n. exists []. split; [by rewrite app_nil_r | constructor]. Qed.

Lemma sends_bind {A B} P (m : M (Network W) A) (k : A -> M (Network W) B) :
  sends P m -> (forall a, sends P (k a)) -> sends P (gbind m k).
Proof.
  intros Hm Hk n. unfold gbind. destruct (Hm n) as (news & E & Hn). destruct (m n) as [[a|err] n1]; cbn [snd] in *.
  - destruct (Hk a n1) as (more & E2 & Hn2). exists (news ++ more). rewrite E2, E, app_assoc. split; [done | by apply Forall_app].
  - by exists news.
Qed.

Lemma sends_wrap {A} P f (m : M (Network W) A) : sends P m -> sends P (gwrap f m).
Proof. intros Hm n. unfold gwrap. specialize (Hm n). by destruct (m n). Qed.

Lemma sends_send P r : P r -> sends P (send r).
Proof.
  intros Hr [w sent]. unfold send. destruct (Do r w) as [out w']. exists [r]. split; [done|]. by apply Forall_singleton.
Qed.

Lemma sends_json {S} c method path input headers (output : option (fields S)) zero :
  (exists p, path = "/" +:+ p) -> sends (to_base c) (jsonRequest c method path input headers output zero).
Proof.
  intros [p ->]. unfold jsonRequest. cbv zeta. destruct (url_parse _); [|apply sends_lift].
  apply sends_bind; [apply sends_wrap, sends_send; by exists p|]. intros response.
  apply sends_bind; [apply sends_lift|]. intros body.
  repeat case_match; apply sends_lift.
Qed.

Lemma sends_post c payload signature : sends (to_base c) (PostEvent c payload signature).
Proof.
  unfold PostEvent. cbv zeta. destruct (url_parse _); [|apply sends_lift].
  apply sends_bind; [apply sends_wrap, sends_send; by eexists|]. intros response.
  apply sends_bind; [apply sends_lift|]. intros body. case_match; apply sends_lift.
Qed.

Lemma sends_checkout c random quantity : sends (to_base c) (CreateCheckout c random quantity).
Proof.
  unfold CreateCheckout. destruct (_ || _); [apply sends_lift|].
  apply sends_bind; [apply sends_lift|]. intros suffix.
  apply sends_bind; [apply sends_wrap, sends_json; by eexists|]. intros order.
  apply sends_bind; [apply sends_wrap, sends_json; by eexists|]. intros checkout. apply sends_lift.
Qed.

Lemma sends_wait c orderID expected waits n : exists news,
  (WaitForOrder c orderID expected waits n).2.2 = n.2 ++ news /\ Forall (to_base c) news.
Proof.
  revert n. induction waits as [|w waits IH]; intros n; cbn [WaitForOrder];
    destruct (sends_wrap _ (wrapf "get sandbox order") _ (sends_json c "GET" ("/v1/orders/" +:+ orderID) None [] (Some order_fields) zero_order (ex_intro _ _ eq_refl)) n)
      as (news & E & Hn); change (gwrap _ _ n) with (GetOrder c orderID n) in E;
    destruct (GetOrder c orderID n) as [[order|err] n1]; cbn [snd] in E; try (by exists news).
  - destruct (_ =s? _); by exists news.
  - destruct (_ =s? _); [by exists news|]. destruct (wait_ended w); [by exists news|].
    destruct (IH (wait_meanwhile w n1.1, n1.2)) as (more & E2 & Hn2). exists (news ++ more).
    rewrite E2. cbn [snd]. rewrite E, app_assoc. split; [done | by apply Forall_app].
Qed.

(** *** Reading the database *)

Lemma Store_Reference_reads orderID s : st_db (Store_Reference orderID s).2 = st_db s.
Proof.
  unfold Store_Reference, gbind, gwrap, glift.
  pose proof (exec_reads (select_latest orderID) s (select_one_reads _)) as E.
  destruct (exec (select_latest orderID) s) as [[row|err] s1]; cbn [snd] in E; [|exact E].
  destruct (scan_reference row) as [[[ref key] intent]|err]; cbn [res_wrap]; [|exact E].
  by destruct (negb _).
Qed.

Lemma Status_reads orderID eventID s : st_db (Status orderID eventID s).2 = st_db s.
Proof.
  unfold Status. pose proof (exec_reads (select_latest orderID) s (select_one_reads _)) as E.
  destruct (exec (select_latest orderID) s) as [[[[o p] a]|err] s1]; cbn [snd] in E; [|exact E].
  destruct (eventID =s? ""); [exact E|].
  pose proof (exec_reads (select_event eventID) s1 (select_one_reads _)) as E2.
  destruct (exec (select_event eventID) s1) as [[[webhook outbox]|err] s2]; cbn [snd] in *; [congruence|].
  destruct (Is err ErrNoRows); cbn [snd]; congruence.
Qed.

Lemma wait_keeps (R : DB -> DB -> Prop) `{!PreOrder R} orderID eventID scenario waits s :
  Forall (fun w => forall d, R d (wait_meanwhile w d)) waits ->
  R (st_db s) (st_db (WaitForScenario orderID eventID scenario waits s).2).
Proof.
  intros Hw. revert s. induction Hw as [|w waits Hw _ IH]; intros s; cbn [WaitForScenario];
    pose proof (Status_reads orderID eventID s) as E;
    destruct (Status orderID eventID s) as [[status|err] s1]; cbn [snd] in E; try (by rewrite <- E).
  - destruct (matches scenario status); by rewrite <- E.
  - destruct (matches scenario status); [by rewrite <- E|]. destruct (wait_ended w); [by rewrite <- E|].
    etrans; [|apply IH]. cbn [st_db]. rewrite <- E. apply Hw.
Qed.
End Touched.

(** *** Commands *)

Section Kept.
Context `{UnicodeTables} `{JsonErrors} `{GoQuote} `{UrlParser} `{TimeText} `{FlagValues} `{StripeSDK} `{Auth.Hmac}.
Context `{JsonPath} {W : Type} `{Transport W}.
Variables (su : Surroundings W) (cfg : Config) (R : DB -> DB -> Prop).
Context `{!PreOrder R}.
Hypothesis Hrounds : Forall (fun w => forall d, R d (wait_meanwhile w d)) (su_rounds su).

Definition local_request (r : HTTPRequest) : Prop := local_api cfg /\ to_base (NewClient cfg) r.

Record touched (w w' : World W) : Prop := {
  td_sent : exists news, (cw_net w').2 = (cw_net w).2 ++ news /\ Forall local_request news;
  td_db : R (st_db (cw_store w)) (st_db (cw_store w'));
}.

#[local] Instance touched_preorder : PreOrder touched.
Proof.
  split.
  - intros w. split; [exists []; split; [by rewrite app_nil_r | constructor] | reflexivity].
  - intros w1 w2 w3 [(n1 & E1 & H1') R1] [(n2 & E2 & H2') R2]. split; [|by etrans].
    exists (n1 ++ n2). rewrite E2, E1, app_assoc. split; [done | by apply Forall_app].
Qed.

Definition keeps (command : World W -> Exit * World W) : Prop := forall w, touched w (command w).2.

Lemma keeps_exit err : keeps (exit err).
Proof. intros w. reflexivity. Qed.

Lemma keeps_write o : keeps (writeJSON su o).
Proof.
  intros w. unfold writeJSON. destruct (su_stdout su); [reflexivity|]. split; cbn [cw_net cw_store snd]; [|reflexivity].
  exists []. split; [by rewrite app_nil_r | constructor].
Qed.

Lemma keeps_flags formals arguments acceptable usage k : (forall given, keeps (k given)) ->
  keeps (with_flags formals arguments acceptable usage k).
Proof.
  intros Hk w. unfold with_flags. destruct (Parse _ _ _) as [[given rest]|err]; [|reflexivity].
  destruct (_ || _); [reflexivity | apply Hk].
Qed.

Lemma keeps_validated require k : (Validate cfg require = None -> keeps k) -> keeps (validated cfg require k).
Proof. intros Hk w. unfold validated. destruct (Validate cfg require) eqn:E; [reflexivity | by apply Hk]. Qed.

Lemma keeps_open k : keeps k -> keeps (openStore su k).
Proof. intros Hk w. unfold openStore. destruct (su_open su); [reflexivity | apply Hk]. Qed.

Lemma touched_net w n : (exists news, n.2 = (cw_net w).2 ++ news /\ Forall (to_base (NewClient cfg)) news) -> local_api cfg ->
  touched w (mkWorld (cw_store w) n (cw_out w)).
Proof.
  intros (news & E & Hn) Hl. split; cbn [cw_net cw_store]; [|reflexivity]. exists news. split; [exact E|].
  eapply Forall_impl; [exact Hn|]. intros r Hr. by split.
Qed.

Lemma keeps_on_net {A} (m : M (Network W) A) k : local_api cfg -> sends (to_base (NewClient cfg)) m -> (forall a, keeps (k a)) ->
  keeps (on_net m k).
Proof.
  intros Hl Hm Hk w. unfold on_net. pose proof (touched_net w (m (cw_net w)).2 (Hm (cw_net w)) Hl) as Ht.
  destruct (m (cw_net w)) as [[a|err] n]; [|exact Ht]. etrans; [exact Ht | apply Hk].
Qed.

Lemma touched_db w s : R (st_db (cw_store w)) (st_db s) -> touched w (mkWorld s (cw_net w) (cw_out w)).
Proof. intros Hs. split; [|exact Hs]. exists []. split; [by rewrite app_nil_r | constructor]. Qed.

Lemma keeps_on_db {A} (m : M Store A) k : (forall s, st_db (m s).2 = st_db s) -> (forall a, keeps (k a)) -> keeps (on_db m k).
Proof.
  intros Hm Hk w. unfold on_db.
  assert (touched w (mkWorld (m (cw_store w)).2 (cw_net w) (cw_out w))) as Ht by (apply touched_db; by rewrite Hm).
  destruct (m (cw_store w)) as [[a|err] s]; [|exact Ht]. etrans; [exact Ht | apply Hk].
Qed.

Lemma keeps_doctor arguments : keeps (runDoctor su cfg arguments).
Proof.
  apply keeps_flags. intros _. apply keeps_validated. intros [Hl _]%Validate_ok w. specialize (Hl eq_refl).
  destruct (negb _); [reflexivity|].
  apply keeps_on_net; [done | apply sends_wrap, sends_json; by eexists | intros _].
  apply keeps_on_net; [done | apply sends_wrap, sends_json; by eexists | intros _]. apply keeps_open, keeps_write.
Qed.

Lemma keeps_checkout arguments : keeps (runCheckout su cfg arguments).
Proof.
  apply keeps_flags. intros given. apply keeps_validated. intros [Hl _]%Validate_ok. specialize (Hl eq_refl).
  apply keeps_on_net; [done | apply sends_checkout | intros result; apply keeps_write].
Qed.

Lemma keeps_emit arguments : keeps (runEmit su cfg arguments).
Proof.
  apply keeps_flags. intros given w. cbv zeta. destruct (_ <? 0); [reflexivity|].
  apply keeps_validated. intros [Hl _]%Validate_ok. specialize (Hl eq_refl). apply keeps_open.
  apply keeps_on_db; [apply Store_Reference_reads|]. clear w. intros reference w.
  destruct (RenderEvent _ _ _ _ _) as [[[payload scenario] resolved]|err]; [|reflexivity].
  destruct (StripeSignature _ _ _) as [signature|err]; [|reflexivity].
  apply keeps_on_net; [done | apply sends_post|]. clear w. intros _ w. destruct (0 <? _); [|apply keeps_write].
  pose proof (touched_db w _ (wait_keeps R (flag_text given "order" "") resolved scenario (su_rounds su) (cw_store w) Hrounds)) as Ht.
  destruct (WaitForScenario _ _ _ _ _) as [[[state [err|]]|] s]; cbn [snd] in Ht; [| |exact Ht];
    (etrans; [exact Ht | apply keeps_write]).
Qed.

Lemma keeps_status arguments : keeps (runStatus su cfg arguments).
Proof.
  apply keeps_flags. intros given. apply keeps_validated. intros _. apply keeps_open.
  apply keeps_on_db; [apply Status_reads | intros status; apply keeps_write].
Qed.

Lemma keeps_wait arguments : keeps (runWait su cfg arguments).
Proof.
  apply keeps_flags. intros given w. destruct (_ <=? 0); [reflexivity|].
  apply keeps_validated. intros [Hl _]%Validate_ok. specialize (Hl eq_refl). clear w. intros w.
  pose proof (touched_net w _ (sends_wait (NewClient cfg) (flag_text given "order" "") (flag_text given "status" "paid")
    (su_polls su) (cw_net w)) Hl) as Ht.
  destruct (WaitForOrder _ _ _ _ _) as [[[order|err]|] n]; cbn [snd] in Ht; [|exact Ht..].
  etrans; [exact Ht | apply keeps_write].
Qed.

(** Cleaning up: nothing, or the one transaction, confirmed, on a local
    database. *)
Lemma cleanup_touches arguments w : touched w (runCleanup su cfg arguments w).2 \/
  (cw_net (runCleanup su cfg arguments w).2 = cw_net w /\ local_database cfg /\ exists given,
    Parse [("order", any_text); ("confirm", any_text)] arguments ∅ = Ok (given, []) /\
    given !! "confirm" = Some cleanupConfirmation /\
    cw_store (runCleanup su cfg arguments w).2 = (Cleanup (flag_text given "order" "") (cw_store w)).2).
Proof.
  unfold runCleanup, with_flags. destruct (Parse _ _ _) as [[given rest]|err]; [|left; reflexivity].
  case_bool_decide as Er; cbn [negb orb]; [|left; reflexivity]. subst rest.
  destruct (negb _); [left; reflexivity|].
  destruct (String.eqb_spec (flag_text given "confirm" "") cleanupConfirmation) as [Ec|]; cbn [negb]; [|left; reflexivity].
  unfold validated. destruct (Validate _ _) eqn:Ev; [left; reflexivity|]. apply Validate_ok in Ev as [_ Hd].
  unfold openStore. destruct (su_open su); [left; reflexivity|]. right.
  assert (given !! "confirm" = Some cleanupConfirmation) as Hg.
  { unfold flag_text in Ec. by destruct (given !! "confirm") as [x|]; [cbn in Ec; subst|]. }
  unfold on_db. destruct (Cleanup _ _) as [[result|err] s] eqn:E; unfold writeJSON.
  - destruct (su_stdout su); (split; [done|]; split; [by apply Hd|]; exists given; split_and!; [done..|by rewrite E]).
  - split; [done|]. split; [by apply Hd|]. exists given. split_and!; [done..|by rewrite E].
Qed.
(** What is left of a run to say. *)
Definition cleaned (arguments : list string) (w w' : World W) : Prop :=
  local_database cfg /\ cw_net w' = cw_net w /\ exists rest given, arguments = "cleanup" :: rest /\
    Parse [("order", any_text); ("confirm", any_text)] rest ∅ = Ok (given, []) /\
    given !! "confirm" = Some cleanupConfirmation /\
    cw_store w' = (Cleanup (flag_text given "order" "") (cw_store w)).2.

Lemma run_touches arguments w : LoadConfig (su_dotenv su) (su_env su) = Ok cfg ->
  touched w (run su arguments w).2 \/ cleaned arguments w (run su arguments w).2.
Proof.
  intros Ec. unfold run. destruct arguments as [|command rest]; [left; reflexivity|]. rewrite Ec.
  destruct (command =s? "doctor"); [left; apply keeps_doctor|].
  destruct (command =s? "checkout"); [left; apply keeps_checkout|].
  destruct (command =s? "emit"); [left; apply keeps_emit|].
  destruct (command =s? "status"); [left; apply keeps_status|].
  destruct (command =s? "wait"); [left; apply keeps_wait|].
  destruct (String.eqb_spec command "cleanup") as [->|_].
  - destruct (cleanup_touches rest w) as [Ht|(En & Hd & given & Hp & Hg & Es)]; [by left|]. right.
    split; [done|]. split; [exact En|]. by exists rest, given.
  - left. destruct (one_of _ _); [|reflexivity]. split; [|reflexivity]. exists [].
    split; [by rewrite app_nil_r | constructor].
Qed.
End Kept.

(** ** Properties *)

(** The sandbox stays on this machine and asks before it deletes. Whatever
    its arguments, its environment, the network and the database answer: every
    request it gives to its HTTP client goes below the configured base URL,
    which was found to be a plain HTTP origin on a loopback host, in development
    or test; and it never changes the database (what others change while it polls aside),
    unless the command is [cleanup] with the exact confirmation, the
    environment is development or test and the database URL names a loopback
    host: then it runs that one transaction of [Cleanup] and sends nothing. *)
Theorem sandbox_stays_local `{UnicodeTables} `{JsonErrors} `{GoQuote} `{UrlParser} `{TimeText} `{FlagValues} `{StripeSDK}
    `{Auth.Hmac} `{JsonPath} {W : Type} `{Transport W} (su : Surroundings W) (R : DB -> DB -> Prop) (arguments : list string)
    (w w' : World W) (out : Exit) :
  PreOrder R -> Forall (fun wait => forall d, R d (wait_meanwhile wait d)) (su_rounds su) ->
  run su arguments w = (out, w') ->
  (exists news, (cw_net w').2 = (cw_net w).2 ++ news /\
     Forall (fun r => exists cfg path, LoadConfig (su_dotenv su) (su_env su) = Ok cfg /\ local_api cfg /\
              HR_URL r = APIURL cfg +:+ "/" +:+ path) news) /\
  (R (st_db (cw_store w)) (st_db (cw_store w')) \/
   exists cfg rest given, arguments = "cleanup" :: rest /\ LoadConfig (su_dotenv su) (su_env su) = Ok cfg /\
     local_database cfg /\ Parse [("order", any_text); ("confirm", any_text)] rest ∅ = Ok (given, []) /\
     given !! "confirm" = Some cleanupConfirmation /\ cw_net w' = cw_net w /\
     cw_store w' = (Cleanup (flag_text given "order" "") (cw_store w)).2).
Proof.
  intros HR Hrounds E. destruct (LoadConfig (su_dotenv su) (su_env su)) as [cfg|err] eqn:Ec.
  - pose proof (run_touches su cfg R Hrounds arguments w Ec) as Hw. rewrite E in Hw. cbn [snd] in Hw.
    destruct Hw as [[(news & En & Hn) Hd]|(Hd & En & rest & given & -> & Hp & Hg & Es)].
    + split; [|by left]. exists news. split; [exact En|]. eapply Forall_impl; [exact Hn|].
      intros r [Hl [path Hu]]. by exists cfg, path.
    + split; [exists []; rewrite En, app_nil_r; split; [done | constructor]|]. right. by exists cfg, rest, given.
  - assert (w' = w) as ->.
    { unfold run, exit in E. destruct arguments; [by simplify_eq|]. rewrite Ec in E. by simplify_eq. }
    split; [|by left]. exists []. rewrite app_nil_r. split; [done | constructor].
Qed.

(** *** A checkout on this machine *)

(** The API in one answer: the order, then its session. *)
Definition answering_api : Transport unit := fun r w =>
  let body := if HR_URL r =s? "http://[::1]:8080/v1/orders"
              then [("id", quote_json "ord_1"); ("status", quote_json "pending"); ("amount", codes "20000");
                    ("currency", quote_json "BRL")]
              else [("checkoutUrl", quote_json "https://pay.example/1"); ("expiresAt", quote_json "soon")] in
  (Ok (mkHTTPResponse 201 "201 Created" (mkBody (of_codes (object_of body)) None)), w).

Definition local_urls : UrlParser := fun s =>
  if s =s? "postgres://127.0.0.1:5432/app" then Some (mkURL "postgres" "127.0.0.1:5432" "/app")
  else if s =s? "http://[::1]:8080" then Some (mkURL "http" "[::1]:8080" "")
  else if HasPrefix s "http://[::1]:8080/" then Some (mkURL "http" "[::1]:8080" "/")
  else None.

Definition local_environment (name : string) : string :=
  if name =s? "APP_ENV" then "test"
  else if name =s? "SANDBOX_API_URL" then " http://[::1]:8080/ "
  else if name =s? "INTEGRATION_API_KEYS" then ", key-1 ,key-2"
  else if name =s? "DATABASE_URL" then "postgres://127.0.0.1:5432/app"
  else if name =s? "STRIPE_SECRET_KEY" then "sk_test_1"
  else "".

Section Local.
#[local] Existing Instance sample_unicode.
#[local] Existing Instance sample_errors.
#[local] Existing Instance plain_quote.
#[local] Existing Instance local_urls.
#[local] Existing Instance decoding_sdk.
#[local] Existing Instance Auth.sample_hmac.
#[local] Existing Instance no_path.
#[local] Existing Instance answering_api.
#[local] Instance one_time : TimeText := fun _ => Some 900.
#[local] Instance two_flags : FlagValues := {| parse_int_flag := fun s => if s =s? "2" then Some 2 else None; parse_duration := fun _ => None |}.

Definition local_surroundings : Surroundings unit :=
  mkSurroundings _ (Some Config.ErrNotExist) local_environment true None (Ok [1; 255]) 7 [] [] None.
Definition local_world : World unit := mkWorld (mkStore (empty_db 10) None []) (tt, []) [].

(** Two requests leave, both to the loopback address, and the order's session
    is printed. *)
Lemma sandbox_stays_local_witness : exists w',
  run local_surroundings ["checkout"; "--quantity=2"] local_world = (Exited None, w') /\
  cw_out w' = [OutCheckout (mkCheckoutResult "ord_1" "pending" 20000 "BRL" "https://pay.example/1" 900)] /\
  (HR_URL <$> (cw_net w').2) = ["http://[::1]:8080/v1/orders"; "http://[::1]:8080/v1/orders/ord_1/checkout"] /\
  st_db (cw_store w') = empty_db 10.
Proof.
  destruct (run local_surroundings ["checkout"; "--quantity=2"] local_world) as [out w'] eqn:E.
  destruct (sandbox_stays_local local_surroundings eq ["checkout"; "--quantity=2"] local_world w' out) as [_ Hd].
  - exact _.
  - apply Forall_nil_2.
  - exact E.
  - assert (out = Exited None /\ cw_out w' = [OutCheckout (mkCheckoutResult "ord_1" "pending" 20000 "BRL" "https://pay.example/1" 900)] /\
      (HR_URL <$> (cw_net w').2) = ["http://[::1]:8080/v1/orders"; "http://[::1]:8080/v1/orders/ord_1/checkout"]) as (-> & Ho & Hu).
    { rewrite <- (f_equal fst E : _ = out), <- (f_equal snd E : _ = w'). vm_compute. split_and!; reflexivity. }
    exists w'. split; [reflexivity|]. split; [exact Ho|]. split; [exact Hu|].
    destruct Hd as [Hd|(cfg & rest & given & Ha & _)]; [exact (eq_sym Hd) | discriminate Ha].
Defined.
End Local.
