(* ===== verification/Chaos.v ===== *)
(** * The chaos proxy: [tests/chaos/proxy.go]

    The TCP proxy the recovery suites put between the program and its
    dependencies, as a transition system: the loop that accepts, one goroutine
    per connection, the calls of the tests. A step is what a goroutine does
    between two points where another may run: one critical section of the
    mutex, one system call, one choice of a [select]. The steps the proxy takes
    by itself are kept apart from those it needs somebody else for: a client,
    the upstream, an error of the network, a test. *)

From S2P Require Import Prelude.
From stdpp Require Import relations.

Inductive proxyMode : Type := modeForward | modeRejectNew | modeSilent.
#[export] Instance proxyMode_eq_dec : EqDecision proxyMode.
Proof. solve_decision. Defined.

(** ** State *)

(** A socket is its number; a [changed] channel is the number of channels made
    before it, and it is closed once another has replaced it. *)
Definition conn : Type := nat.

(** Where [handle] is, for its client. *)
Inductive handling : Type :=
(** in [waitUntilForward], before it reads the mode *)
| Deciding
(** in its [select], on the channel it read *)
| Silenced (changed : nat)
(** before and after [DialContext] *)
| Dialling
| Dialled (upstream : conn)
(** both copies started *)
| Copying (upstream : conn)
(** the deferred calls, one critical section each *)
| ClosingUpstream (upstream : conn)
| UntrackingUpstream (upstream : conn)
| ClosingClient
| UntrackingClient
| Leaving.

(** Where [accept] is. *)
Inductive accepting : Type := Accepting | Accepted (c : conn) | Tracked (c : conn) | Returned.

(** Where the call of [Close] is, if there is one. *)
Inductive closing : Type :=
| NotCalled
| ContextCancelled
| ListenerClosed
| Severing (left_to_close : gset conn)
| Waiting
| Closed.

(** Where a call of [WaitForConnections] is. *)
Inductive waiting : Type :=
| Looking (want : nat)
| Blocked (want got changed : nat)
| Met (want : nat)
| Expired (want got : nat).

Record Proxy := mkProxy {
  mode : proxyMode;
  changed : nat;
  conns : gset conn;
  cancelled : bool;
  listening : bool;
  (** every socket that is open, and the number of the next *)
  sockets : gset conn;
  next_socket : conn;
  (** the upstream connections made so far *)
  dials : list conn;
  acceptor : accepting;
  handlers : list (conn * handling);
  closer : closing;
  (** sockets a [CloseExisting] of a test has still to close *)
  severed : gset conn;
  waiters : list waiting
}.

Definition NewTCPProxy : Proxy :=
  mkProxy modeForward 0 ∅ false true ∅ 0 [] Accepting [] NotCalled ∅ [].

(** *** Setters *)

Definition with_mode (p : Proxy) m := mkProxy m (changed p) (conns p) (cancelled p) (listening p) (sockets p) (next_socket p)
  (dials p) (acceptor p) (handlers p) (closer p) (severed p) (waiters p).
(** [close(p.changed)] and a fresh channel. *)
Definition signal (p : Proxy) := mkProxy (mode p) (S (changed p)) (conns p) (cancelled p) (listening p) (sockets p)
  (next_socket p) (dials p) (acceptor p) (handlers p) (closer p) (severed p) (waiters p).
Definition with_conns (p : Proxy) cs := mkProxy (mode p) (changed p) cs (cancelled p) (listening p) (sockets p)
  (next_socket p) (dials p) (acceptor p) (handlers p) (closer p) (severed p) (waiters p).
Definition with_acceptor (p : Proxy) a := mkProxy (mode p) (changed p) (conns p) (cancelled p) (listening p) (sockets p)
  (next_socket p) (dials p) a (handlers p) (closer p) (severed p) (waiters p).
Definition with_handlers (p : Proxy) hs := mkProxy (mode p) (changed p) (conns p) (cancelled p) (listening p) (sockets p)
  (next_socket p) (dials p) (acceptor p) hs (closer p) (severed p) (waiters p).
Definition with_closer (p : Proxy) c := mkProxy (mode p) (changed p) (conns p) (cancelled p) (listening p) (sockets p)
  (next_socket p) (dials p) (acceptor p) (handlers p) c (severed p) (waiters p).
Definition with_severed (p : Proxy) cs := mkProxy (mode p) (changed p) (conns p) (cancelled p) (listening p) (sockets p)
  (next_socket p) (dials p) (acceptor p) (handlers p) (closer p) cs (waiters p).
Definition with_waiters (p : Proxy) ws := mkProxy (mode p) (changed p) (conns p) (cancelled p) (listening p) (sockets p)
  (next_socket p) (dials p) (acceptor p) (handlers p) (closer p) (severed p) ws.
Definition cancel (p : Proxy) := mkProxy (mode p) (changed p) (conns p) true (listening p) (sockets p)
  (next_socket p) (dials p) (acceptor p) (handlers p) (closer p) (severed p) (waiters p).
Definition stop_listening (p : Proxy) := mkProxy (mode p) (changed p) (conns p) (cancelled p) false (sockets p)
  (next_socket p) (dials p) (acceptor p) (handlers p) (closer p) (severed p) (waiters p).
(** A socket appears, and one is closed. *)
Definition open_socket (p : Proxy) := mkProxy (mode p) (changed p) (conns p) (cancelled p) (listening p)
  ({[next_socket p]} ∪ sockets p) (S (next_socket p)) (dials p) (acceptor p) (handlers p) (closer p) (severed p) (waiters p).
Definition close_socket (c : conn) (p : Proxy) := mkProxy (mode p) (changed p) (conns p) (cancelled p) (listening p)
  (sockets p ∖ {[c]}) (next_socket p) (dials p) (acceptor p) (handlers p) (closer p) (severed p) (waiters p).
Definition with_dial (p : Proxy) u := mkProxy (mode p) (changed p) (conns p) (cancelled p) (listening p) (sockets p)
  (next_socket p) (dials p ++ [u]) (acceptor p) (handlers p) (closer p) (severed p) (waiters p).

(** ** The methods, as far as the mutex makes them atomic *)

Definition setMode (m : proxyMode) (p : Proxy) : Proxy := signal (with_mode p m).
Definition RejectNew : Proxy -> Proxy := setMode modeRejectNew.
Definition Silence : Proxy -> Proxy := setMode modeSilent.
Definition Restore : Proxy -> Proxy := setMode modeForward.
Definition track (c : conn) (p : Proxy) : Proxy := signal (with_conns p ({[c]} ∪ conns p)).
(** The second half of [untrackAndClose], which closes first. *)
Definition untrack (c : conn) (p : Proxy) : Proxy := signal (with_conns p (conns p ∖ {[c]})).

(** What [waitUntilForward] does with the mode it reads. *)
Definition decide_mode (p : Proxy) : handling :=
  match mode p with
  | modeForward => Dialling
  | modeRejectNew => ClosingClient
  | modeSilent => Silenced (changed p)
  end.

(** ** Steps *)

(** One step of [handle] for [client] that waits for nobody: what it becomes,
    and the proxy. A dial is given up once the context has ended; the [select]
    on the two copies is left once the context has ended, or once a copy has met
    a socket that was closed. *)
Inductive handler_step (client : conn) (p : Proxy) : handling -> handling -> Proxy -> Prop :=
| reads_mode : handler_step client p Deciding (decide_mode p) p
| silence_cancelled g : cancelled p = true -> handler_step client p (Silenced g) ClosingClient p
| silence_changed g : (g < changed p)%nat -> handler_step client p (Silenced g) Deciding p
| dial_cancelled : cancelled p = true -> handler_step client p Dialling ClosingClient p
| tracks_upstream u : handler_step client p (Dialled u) (Copying u) (track u p)
| copy_cancelled u : cancelled p = true -> handler_step client p (Copying u) (ClosingUpstream u) p
| copy_closed u : client ∉ sockets p \/ u ∉ sockets p -> handler_step client p (Copying u) (ClosingUpstream u) p
| closes_upstream u : handler_step client p (ClosingUpstream u) (UntrackingUpstream u) (close_socket u p)
| untracks_upstream u : handler_step client p (UntrackingUpstream u) ClosingClient (untrack u p)
| closes_client : handler_step client p ClosingClient UntrackingClient (close_socket client p)
| untracks_client : handler_step client p UntrackingClient Leaving (untrack client p).

(** One step of [handle] that an answer of the network lets it take: the
    upstream accepts the dial or does not, a peer ends the stream it sends. *)
Inductive peer_step (client : conn) (p : Proxy) : handling -> handling -> Proxy -> Prop :=
| dial_fails : peer_step client p Dialling ClosingClient p
| dial_succeeds : peer_step client p Dialling (Dialled (next_socket p)) (with_dial (open_socket p) (next_socket p))
| copy_ends u : peer_step client p (Copying u) (ClosingUpstream u) p.

(** The steps of the proxy itself: those that nobody else has to make possible. *)
Inductive own : Proxy -> Proxy -> Prop :=
| handler_moves p pre c h h' post p' : handlers p = pre ++ (c, h) :: post -> handler_step c p h h' p' ->
    own p (with_handlers p' (pre ++ (c, h') :: post))
(** [wg.Done] *)
| handler_leaves p pre c post : handlers p = pre ++ (c, Leaving) :: post -> own p (with_handlers p (pre ++ post))
(** [Accept] does not watch the context: it is the closed listener that makes it
    fail, and that error ends the loop *)
| accept_returns p : acceptor p = Accepting -> listening p = false -> own p (with_acceptor p Returned)
| accept_tracks p c : acceptor p = Accepted c -> own p (with_acceptor (track c p) (Tracked c))
| accept_spawns p c : acceptor p = Tracked c ->
    own p (with_acceptor (with_handlers p (handlers p ++ [(c, Deciding)])) Accepting)
| close_listener p : closer p = ContextCancelled -> own p (with_closer (stop_listening p) ListenerClosed)
| close_snapshot p : closer p = ListenerClosed -> own p (with_closer p (Severing (conns p)))
| close_severs p c rest : closer p = Severing ({[c]} ∪ rest) -> c ∉ rest ->
    own p (with_closer (close_socket c p) (Severing rest))
| close_signals p : closer p = Severing ∅ -> own p (with_closer (signal p) Waiting)
(** [p.wg.Wait()] *)
| close_returns p : closer p = Waiting -> acceptor p = Returned -> handlers p = [] -> own p (with_closer p Closed)
(** the loop of a test's [CloseExisting] *)
| existing_closed p c rest : severed p = {[c]} ∪ rest -> c ∉ rest -> own p (with_severed (close_socket c p) rest).

(** The steps of the surroundings: clients that connect, an [Accept] that fails,
    the peers of a connection, calls of the tests and of the waiters. *)
Inductive outside : Proxy -> Proxy -> Prop :=
| peer_moves p pre c h h' post p' : handlers p = pre ++ (c, h) :: post -> peer_step c p h h' p' ->
    outside p (with_handlers p' (pre ++ (c, h') :: post))
(** any other error of [Accept] ends the loop only once the context has ended *)
| accept_fails p : acceptor p = Accepting ->
    outside p (with_acceptor p (if cancelled p then Returned else Accepting))
| client_connects p : acceptor p = Accepting -> listening p = true ->
    outside p (with_acceptor (open_socket p) (Accepted (next_socket p)))
| mode_changes p m : outside p (setMode m p)
| existing_snapshot p : outside p (with_severed p (severed p ∪ conns p))
| close_called p : closer p = NotCalled -> outside p (with_closer (cancel p) ContextCancelled)
(** the context the proxy was made with ends *)
| parent_ends p : outside p (cancel p)
| wait_called p want : outside p (with_waiters p (waiters p ++ [Looking want]))
| wait_met p pre want post : waiters p = pre ++ Looking want :: post -> size (conns p) = want ->
    outside p (with_waiters p (pre ++ Met want :: post))
| wait_blocks p pre want post : waiters p = pre ++ Looking want :: post -> size (conns p) <> want ->
    outside p (with_waiters p (pre ++ Blocked want (size (conns p)) (changed p) :: post))
| wait_wakes p pre want got g post : waiters p = pre ++ Blocked want got g :: post -> (g < changed p)%nat ->
    outside p (with_waiters p (pre ++ Looking want :: post))
| wait_expires p pre want got g post : waiters p = pre ++ Blocked want got g :: post ->
    outside p (with_waiters p (pre ++ Expired want got :: post)).

Definition step (p p' : Proxy) : Prop := own p p' \/ outside p p'.
Definition reachable (p : Proxy) : Prop := rtc step NewTCPProxy p.

(** ** Termination

    A step of the proxy either signals, and fewer signals remain for what is
    under way, or moves something nearer to its end. *)

Definition signals_left (h : handling) : nat :=
  match h with
  | Deciding | Silenced _ | Dialling | Dialled _ => 3
  | Copying _ | ClosingUpstream _ | UntrackingUpstream _ => 2
  | ClosingClient | UntrackingClient => 1
  | Leaving => 0
  end.

Definition moves_left (now : nat) (h : handling) : nat :=
  match h with
  | Silenced g => if bool_decide (g < now)%nat then 11 else 9
  | Deciding => 10
  | Dialling => 8
  | Dialled _ => 7
  | Copying _ => 6
  | ClosingUpstream _ => 5
  | UntrackingUpstream _ => 4
  | ClosingClient => 3
  | UntrackingClient => 2
  | Leaving => 1
  end.

Definition accept_signals (a : accepting) : nat := match a with Accepted _ => 4 | Tracked _ => 3 | _ => 0 end.
Definition accept_moves (a : accepting) : nat :=
  match a with Accepted _ => 13 | Tracked _ => 12 | Accepting => 1 | Returned => 0 end.
Definition close_signals_left (c : closing) : nat := match c with Waiting | Closed => 0 | _ => 1 end.
Definition close_moves (p : Proxy) : nat :=
  match closer p with
  | NotCalled | Closed => 0
  | ContextCancelled => size (conns p) + 3
  | ListenerClosed => size (conns p) + 2
  | Severing left_to_close => size left_to_close + 1
  | Waiting => 1
  end.

Definition signals (p : Proxy) : nat :=
  sum_list_with (fun ch => signals_left ch.2) (handlers p) + accept_signals (acceptor p) + close_signals_left (closer p).
Definition moves (p : Proxy) : nat :=
  sum_list_with (fun ch => moves_left (changed p) ch.2) (handlers p) + accept_moves (acceptor p) + close_moves p +
  size (severed p).

Definition nearer (p p' : Proxy) : Prop :=
  (signals p' < signals p)%nat \/ (signals p' <= signals p)%nat /\ (moves p' < moves p)%nat.

Lemma size_insert (c : conn) (rest : gset conn) : c ∉ rest -> size ({[c]} ∪ rest) = S (size rest).
Proof. intros Hc. rewrite size_union by set_solver. by rewrite size_singleton. Qed.

Lemma moves_left_positive now h : (1 <= moves_left now h)%nat.
Proof. destruct h; cbn; try lia. destruct (bool_decide _); lia. Qed.

Lemma handler_step_nearer c p h h' p' : handler_step c p h h' p' ->
  acceptor p' = acceptor p /\ closer p' = closer p /\ severed p' = severed p /\
  ((signals_left h' < signals_left h)%nat \/
   changed p' = changed p /\ conns p' = conns p /\ (signals_left h' <= signals_left h)%nat /\
   (moves_left (changed p) h' < moves_left (changed p) h)%nat).
Proof.
  intros Hs. split_and!; [by destruct Hs..|]. destruct Hs; cbn; try (left; lia); right; split_and!; try done; try lia.
  - unfold decide_mode. destruct (mode p); cbn; lia.
  - unfold decide_mode. destruct (mode p); cbn; [lia | lia|]. rewrite bool_decide_eq_false_2; lia.
  - rewrite bool_decide_eq_true_2; lia.
Qed.

Lemma own_nearer p p' : own p p' -> nearer p p'.
Proof.
  unfold nearer. destruct 1 as [p pre c h h' post p' Eh Hs|p pre c post Eh|p Ea|p c Ea|p c Ea|p Ec|p Ec|p c rest Ec Hc|p Ec
    |p Ec Ea Eh|p c rest Es Hc]; unfold signals, moves, close_moves.
  - apply handler_step_nearer in Hs as (Ea & Ec & Es & Hs). cbn [with_handlers acceptor closer severed conns changed handlers].
    rewrite Ea, Ec, Es, Eh, !sum_list_with_app. cbn [sum_list_with snd].
    destruct Hs as [Hs|(Eg & -> & Hs & Hm)]; [left; lia|]. right. rewrite Eg. split; lia.
  - cbn [with_handlers acceptor closer severed conns changed handlers]. right. rewrite Eh, !sum_list_with_app.
    cbn [sum_list_with snd signals_left moves_left]. lia.
  - cbn. right. rewrite Ea. cbn. lia.
  - cbn. left. rewrite Ea. cbn. lia.
  - cbn [with_acceptor with_handlers acceptor closer severed conns changed handlers]. right. rewrite Ea, !sum_list_with_app.
    cbn. lia.
  - cbn. right. rewrite Ec. cbn. lia.
  - cbn. right. rewrite Ec. cbn. lia.
  - cbn. right. rewrite Ec. cbn [close_signals_left]. rewrite size_insert by done. lia.
  - cbn. left. rewrite Ec. cbn. lia.
  - cbn. right. rewrite Ec. cbn. lia.
  - cbn. right. rewrite Es, size_insert by done. lia.
Qed.

(** Left alone, the proxy comes to rest. *)
Lemma own_terminates p : sn own p.
Proof.
  remember (signals p) as n eqn:En. assert (signals p <= n)%nat as Hn by lia. clear En. revert p Hn.
  induction n as [n IHn] using lt_wf_ind. intros p Hn. remember (moves p) as m eqn:Em. assert (moves p <= m)%nat as Hm by lia.
  clear Em. revert p Hn Hm. induction m as [m IHm] using lt_wf_ind. intros p Hn Hm. constructor. intros p' Hs.
  apply own_nearer in Hs as [Hs|[Hs Hd]].
  - apply (IHn (signals p')); lia.
  - apply (IHm (moves p')); lia.
Qed.

(** ** Invariants *)

(** The sockets a goroutine has tracked and not untracked, and those it has not
    closed. *)
Definition tracked_by (ch : conn * handling) : list conn :=
  let '(c, h) := ch in
  match h with
  | Deciding | Silenced _ | Dialling | Dialled _ | ClosingClient | UntrackingClient => [c]
  | Copying u | ClosingUpstream u | UntrackingUpstream u => [c; u]
  | Leaving => []
  end.
Definition opened_by (ch : conn * handling) : list conn :=
  let '(c, h) := ch in
  match h with
  | Deciding | Silenced _ | Dialling | UntrackingUpstream _ | ClosingClient => [c]
  | Dialled u | Copying u | ClosingUpstream u => [c; u]
  | UntrackingClient | Leaving => []
  end.
Definition tracked_in (a : accepting) : list conn := match a with Tracked c => [c] | _ => [] end.
Definition opened_in (a : accepting) : list conn := match a with Accepted c | Tracked c => [c] | _ => [] end.

(** A goroutine that waits on the current channel waits for a reason that holds. *)
Definition silenced_ok (p : Proxy) (h : handling) : Prop :=
  match h with Silenced g => (g <= changed p)%nat /\ (g = changed p -> mode p = modeSilent) | _ => True end.
Definition waiter_ok (p : Proxy) (w : waiting) : Prop :=
  match w with
  | Blocked want got g => (g <= changed p)%nat /\ (g = changed p -> size (conns p) = got /\ got <> want)
  | _ => True
  end.

Record proxy_wf (p : Proxy) : Prop := {
  conns_held : forall x, x ∈ conns p -> x ∈ tracked_in (acceptor p) ++ (handlers p ≫= tracked_by);
  sockets_held : forall x, x ∈ sockets p -> x ∈ opened_in (acceptor p) ++ (handlers p ≫= opened_by);
  silence_is_current : Forall (fun ch => silenced_ok p ch.2) (handlers p);
  waits_are_current : Forall (waiter_ok p) (waiters p);
  close_cancels : closer p <> NotCalled -> cancelled p = true;
  close_stops : closer p <> NotCalled -> closer p <> ContextCancelled -> listening p = false;
  closed_is_quiet : closer p = Closed -> acceptor p = Returned /\ handlers p = []
}.

(** A step of a goroutine, whoever makes it possible. *)
Definition handled (c : conn) (p : Proxy) (h h' : handling) (p' : Proxy) : Prop :=
  handler_step c p h h' p' \/ peer_step c p h h' p'.

Lemma handler_keeps c p h h' p' : handled c p h h' p' ->
  acceptor p' = acceptor p /\ closer p' = closer p /\ cancelled p' = cancelled p /\ listening p' = listening p /\
  waiters p' = waiters p /\ mode p' = mode p /\ (changed p <= changed p')%nat /\
  (changed p' = changed p -> conns p' = conns p).
Proof. intros [[]|[]]; cbn; split_and!; try done; lia. Qed.

(** The tracked sockets of the others, and of this goroutine after its step. *)
Lemma handler_conns c p h h' p' x : handled c p h h' p' -> x ∈ conns p' ->
  x ∈ tracked_by (c, h') \/ x ∈ conns p /\ (x ∈ tracked_by (c, h) -> x ∈ tracked_by (c, h')).
Proof.
  intros [[]|[]]; cbn [conns track untrack signal with_conns with_dial open_socket close_socket tracked_by];
    try (unfold decide_mode; destruct (mode p); cbn [tracked_by]); set_solver.
Qed.

Lemma handler_sockets c p h h' p' x : handled c p h h' p' -> x ∈ sockets p' ->
  x ∈ opened_by (c, h') \/ x ∈ sockets p /\ (x ∈ opened_by (c, h) -> x ∈ opened_by (c, h')).
Proof.
  intros [[]|[]]; cbn [sockets track untrack signal with_conns with_dial open_socket close_socket opened_by];
    try (unfold decide_mode; destruct (mode p); cbn [opened_by]); set_solver.
Qed.

Lemma handler_silenced c p h h' p' : handled c p h h' p' -> silenced_ok p h -> silenced_ok p' h'.
Proof.
  intros [[]|[]]; cbn; try done. unfold decide_mode. destruct (mode p) eqn:E; cbn; [done | done|]. intros _. split; [lia | done].
Qed.

(** What others wait for stays current when the channel moves on. *)
Lemma silenced_later p p' h : (changed p <= changed p')%nat -> (changed p' = changed p -> mode p' = mode p) ->
  silenced_ok p h -> silenced_ok p' h.
Proof.
  intros Hc Hm. destruct h; cbn; try done. intros [Hg Hs]. split; [lia|]. intros ->.
  assert (changed p' = changed p) as E by lia. rewrite Hm by done. apply Hs. lia.
Qed.

Lemma waiter_later p p' w : (changed p <= changed p')%nat -> (changed p' = changed p -> conns p' = conns p) ->
  waiter_ok p w -> waiter_ok p' w.
Proof.
  intros Hc Hm. destruct w; cbn; try done. intros [Hg Hs]. split; [lia|]. intros ->.
  assert (changed p' = changed p) as E by lia. rewrite Hm by done. apply Hs. lia.
Qed.

Lemma handler_wf c p h h' p' pre post : handlers p = pre ++ (c, h) :: post -> handled c p h h' p' -> proxy_wf p ->
  proxy_wf (with_handlers p' (pre ++ (c, h') :: post)).
Proof.
  intros Eh Hs [Hc Ho Hq Hw Hx Hl Hz].
  destruct (handler_keeps _ _ _ _ _ Hs) as (Ea & Ec & Ex & El & Ew & Em & Hg & Hcs).
  rewrite Eh in Hq. rewrite Forall_app, Forall_cons in Hq. destruct Hq as (Hpre & Hh & Hpost).
  constructor; cbn [with_handlers conns sockets acceptor handlers waiters changed mode closer cancelled listening].
  - intros x Hin. rewrite Ea, bind_app, bind_cons, !elem_of_app. rewrite Eh, bind_app, bind_cons in Hc.
    apply (handler_conns _ _ _ _ _ _ Hs) in Hin as [Hin|[Hin Hk]]; [tauto|]. apply Hc in Hin. rewrite !elem_of_app in Hin. tauto.
  - intros x Hin. rewrite Ea, bind_app, bind_cons, !elem_of_app. rewrite Eh, bind_app, bind_cons in Ho.
    apply (handler_sockets _ _ _ _ _ _ Hs) in Hin as [Hin|[Hin Hk]]; [tauto|]. apply Ho in Hin. rewrite !elem_of_app in Hin. tauto.
  - apply Forall_app. split; [|apply Forall_cons; split].
    + eapply Forall_impl; [exact Hpre|]. intros ch. by apply silenced_later.
    + by eapply (handler_silenced _ _ _ _ _ Hs).
    + eapply Forall_impl; [exact Hpost|]. intros ch. by apply silenced_later.
  - rewrite Ew. eapply Forall_impl; [exact Hw|]. intros w. by apply waiter_later.
  - by rewrite Ec, Ex.
  - by rewrite Ec, El.
  - rewrite Ec. intros E. destruct (Hz E) as [_ E']. rewrite Eh in E'. by destruct pre.
Qed.

(** Most steps leave the handlers alone. *)
Lemma quiet_wf p p' : proxy_wf p -> handlers p' = handlers p -> waiters p' = waiters p ->
  (changed p <= changed p')%nat -> (changed p' = changed p -> mode p' = mode p /\ conns p' = conns p) ->
  (forall x, x ∈ conns p' -> x ∈ conns p \/ x ∈ tracked_in (acceptor p')) ->
  (forall x, x ∈ sockets p' -> x ∈ sockets p \/ x ∈ opened_in (acceptor p')) ->
  (forall x, x ∈ tracked_in (acceptor p) -> x ∈ tracked_in (acceptor p')) ->
  (forall x, x ∈ opened_in (acceptor p) -> x ∈ opened_in (acceptor p')) ->
  (closer p' <> NotCalled -> cancelled p' = true) ->
  (closer p' <> NotCalled -> closer p' <> ContextCancelled -> listening p' = false) ->
  (closer p' = Closed -> acceptor p' = Returned /\ handlers p' = []) -> proxy_wf p'.
Proof.
  intros [Hc Ho Hq Hw _ _ _] Eh Ew Hg Hcs Hc' Ho' Ht Hop Hx Hl Hz. constructor; try done.
  - intros x Hin. rewrite Eh. apply Hc' in Hin as [Hin|Hin]; [apply Hc in Hin|]; rewrite !elem_of_app in *; naive_solver.
  - intros x Hin. rewrite Eh. apply Ho' in Hin as [Hin|Hin]; [apply Ho in Hin|]; rewrite !elem_of_app in *; naive_solver.
  - rewrite Eh. eapply Forall_impl; [exact Hq|]. intros ch. apply silenced_later; [done|]. intros E. by apply Hcs.
  - rewrite Ew. eapply Forall_impl; [exact Hw|]. intros w. apply waiter_later; [done|]. intros E. by apply Hcs.
Qed.

(** Discharges what a step that leaves the handlers alone keeps. *)
Ltac quiet p Ea := apply (quiet_wf p); [assumption|..]; cbn; rewrite ?Ea; try done; try lia; try tauto;
  try (intros ? Hin; left; exact Hin); try (intros ? [Hin _]%elem_of_difference; left; exact Hin);
  try (intros ? [->%elem_of_singleton|Hin]%elem_of_union; [right; left | left; exact Hin]);
  try (intros ? Hin; by apply not_elem_of_nil in Hin).

Lemma own_wf p p' : own p p' -> proxy_wf p -> proxy_wf p'.
Proof.
  destruct 1 as [p pre c h h' post p' Eh Hs|p pre c post Eh|p Ea Hor|p c Ea|p c Ea|p Ec|p Ec|p c rest Ec Hc|p Ec
    |p Ec Ea Eh|p c rest Es Hc]; intros Hwf; pose proof Hwf as [Hcs Hso Hq Hw Hx Hl Hz].
  - eapply handler_wf; [exact Eh | by left | done].
  - rewrite Eh in Hcs, Hso, Hq. constructor; cbn [with_handlers conns sockets acceptor handlers waiters changed mode closer cancelled listening]; try done.
    + intros x Hin. apply Hcs in Hin. rewrite !bind_app, ?bind_cons, !elem_of_app in *. cbn in Hin. set_solver.
    + intros x Hin. apply Hso in Hin. rewrite !bind_app, ?bind_cons, !elem_of_app in *. cbn in Hin. set_solver.
    + rewrite Forall_app, Forall_cons in Hq. apply Forall_app. tauto.
    + intros E. destruct (Hz E) as [_ E']. rewrite Eh in E'. by destruct pre.
  - quiet p Ea; intros E; by destruct (Hz E) as [_ ?].
  - quiet p Ea; intros E; destruct (Hz E) as [E' _]; congruence.
  - constructor; cbn [with_acceptor with_handlers conns sockets acceptor handlers waiters changed mode closer cancelled listening]; try done.
    + intros x Hin. apply Hcs in Hin. rewrite Ea in Hin. rewrite bind_app, !elem_of_app in *. cbn in *. set_solver.
    + intros x Hin. apply Hso in Hin. rewrite Ea in Hin. rewrite bind_app, !elem_of_app in *. cbn in *. set_solver.
    + apply Forall_app. split; [done|]. by repeat constructor.
    + intros E. destruct (Hz E) as [E' _]. congruence.
  - quiet p Ec; intros _; apply Hx; by rewrite Ec.
  - quiet p Ec; intros; [apply Hx | apply Hl]; by rewrite Ec.
  - quiet p Ec; intros; [apply Hx | apply Hl]; by rewrite Ec.
  - quiet p Ec; intros; [apply Hx | apply Hl]; by rewrite Ec.
  - quiet p Ec; intros; [apply Hx | apply Hl]; by rewrite Ec.
  - quiet p Es.
Qed.

(** A wait that moves on waits for nothing, or for what holds now. *)
Lemma waiters_wf p pre w w' post : proxy_wf p -> waiters p = pre ++ w :: post -> (waiter_ok p w -> waiter_ok p w') ->
  proxy_wf (with_waiters p (pre ++ w' :: post)).
Proof.
  intros [Hc Ho Hq Hw Hx Hl Hz] Ew Hw'. constructor; try done. cbn [with_waiters waiters].
  rewrite Ew, Forall_app, Forall_cons in Hw. apply Forall_app. rewrite Forall_cons. tauto.
Qed.

Lemma outside_wf p p' : outside p p' -> proxy_wf p -> proxy_wf p'.
Proof.
  destruct 1 as [p pre c h h' post p' Eh Hs|p Ea|p Ea El|p m|p|p Ec|p|p want|p pre want post Ew Es|p pre want post Ew Es
    |p pre want got g post Ew Hg|p pre want got g post Ew]; intros Hwf; pose proof Hwf as [Hcs Hso Hq Hw Hx Hl Hz].
  - eapply handler_wf; [exact Eh | by right | done].
  - assert (forall a, a = Returned \/ a = Accepting -> closer p <> Closed \/ a = Returned -> proxy_wf (with_acceptor p a)) as Hall.
    { intros a [-> | ->] Ha; quiet p Ea; intros E; destruct (Hz E) as [E' ?]; try congruence; done. }
    apply Hall; destruct (cancelled p); try tauto. left. intros E. destruct (Hz E). congruence.
  - quiet p Ea; intros E; destruct (Hz E) as [E' _]; congruence.
  - quiet p Hwf.
  - quiet p Hwf.
  - quiet p Ec.
  - quiet p Hwf.
  - constructor; try done. cbn [with_waiters waiters]. apply Forall_app. split; [done|]. by repeat constructor.
  - by eapply waiters_wf.
  - eapply waiters_wf; [done | exact Ew |]. intros _. cbn. split; [lia | done].
  - by eapply waiters_wf.
  - by eapply waiters_wf.
Qed.

Lemma reachable_wf p : reachable p -> proxy_wf p.
Proof.
  unfold reachable. intros Hr. remember NewTCPProxy as p0 eqn:E. assert (proxy_wf p0) as H0.
  { subst. constructor; cbn; try done; set_solver. }
  clear E. induction Hr as [|p1 p2 p3 [Hs|Hs] _ IH]; [done| |]; apply IH; [by eapply own_wf | by eapply outside_wf].
Qed.

(** ** Coming to rest *)

Lemma moves_from_head p c h post h' p' : handlers p = (c, h) :: post -> handler_step c p h h' p' -> ~ nf own p.
Proof. intros Eh Hs Hn. apply Hn. eexists. by apply (handler_moves p [] c h h' post p'). Qed.

Lemma rest_handlers p : cancelled p = true -> nf own p -> handlers p = [].
Proof.
  intros Hc Hn. destruct (handlers p) as [|[c h] post] eqn:Eh; [done|]. exfalso.
  destruct h.
  1-9: (eapply moves_from_head; [exact Eh | | exact Hn]); eauto using handler_step.
  apply Hn. eexists. by apply (handler_leaves p [] c post).
Qed.

(** A [Close] under way has closed the listener before the proxy rests. *)
Lemma rest_listener p : proxy_wf p -> closer p <> NotCalled -> nf own p -> listening p = false.
Proof.
  intros Hwf Hc Hn. apply (close_stops _ Hwf Hc). intros E. apply Hn. eexists. by apply close_listener.
Qed.

Lemma rest_acceptor p : listening p = false -> nf own p -> acceptor p = Returned.
Proof. intros Hc Hn. destruct (acceptor p) eqn:Ea; [..|done]; exfalso; apply Hn; eexists; eauto using own. Qed.

Lemma rest_closer p : handlers p = [] -> acceptor p = Returned -> closer p <> NotCalled -> nf own p -> closer p = Closed.
Proof.
  intros Eh Ea Hcl Hn.
  destruct (closer p) as [| | |l| |] eqn:E; [done| | | | |done]; exfalso; apply Hn; [eexists; eauto using own..|  |eexists; eauto using own].
  destruct (set_choose_or_empty l) as [[c Hin]|He]; [|apply leibniz_equiv in He as ->; eexists; by apply close_signals].
  eexists. apply (close_severs p c (l ∖ {[c]})); [|set_solver]. rewrite E. f_equal. by apply union_difference_singleton_L.
Qed.

Lemma own_closer p p' : own p p' -> closer p <> NotCalled -> closer p' <> NotCalled.
Proof.
  destruct 1 as [p pre c h h' post p' Eh Hs| | | | | | | | | |]; cbn; try done.
  by destruct (handler_keeps _ _ _ _ _ (or_introl Hs)) as (_ & -> & _).
Qed.

Lemma rtc_own_closing p p' : rtc own p p' -> proxy_wf p -> closer p <> NotCalled -> proxy_wf p' /\ closer p' <> NotCalled.
Proof.
  induction 1 as [|p p1 p' Hs _ IH]; [done|]. intros Hwf Hc. apply IH; [by eapply own_wf | by eapply own_closer].
Qed.

(** ** Properties *)

(** C38: [Close] comes to its end and leaves nothing behind. Once it is called,
    whatever the connections are doing and whichever mode the proxy is in, the
    proxy takes finitely many steps of its own and comes to rest only when the
    call has returned, without waiting for a client, the upstream or a test: the
    closed listener ends the loop that accepts, the ended context every dial,
    copy and wait. By then every goroutine has ended, no connection is tracked
    and every socket the proxy accepted or dialled is closed. *)
Theorem close_ends_and_leaves_nothing p : reachable p -> closer p <> NotCalled ->
  sn own p /\
  forall p', rtc own p p' -> nf own p' ->
    closer p' = Closed /\ acceptor p' = Returned /\ handlers p' = [] /\ conns p' = ∅ /\ sockets p' = ∅.
Proof.
  intros Hr Hc. split; [apply own_terminates|]. intros p' Hrun Hn.
  destruct (rtc_own_closing p p' Hrun (reachable_wf p Hr) Hc) as [Hwf Hc'].
  pose proof (rest_handlers p' (close_cancels _ Hwf Hc') Hn) as Eh.
  pose proof (rest_acceptor p' (rest_listener p' Hwf Hc' Hn) Hn) as Ea.
  split_and!; [by apply rest_closer | done | done | |]; apply leibniz_equiv, elem_of_equiv_empty; intros x Hin.
  - apply (conns_held _ Hwf) in Hin. rewrite Ea, Eh in Hin. by apply not_elem_of_nil in Hin.
  - apply (sockets_held _ Hwf) in Hin. rewrite Ea, Eh in Hin. by apply not_elem_of_nil in Hin.
Qed.

(** No goroutine is between the decision to forward and its dial. *)
Definition nobody_dials (p : Proxy) : Prop := Forall (fun ch => ch.2 <> Dialling) (handlers p).

Lemma step_without_forward p p' : mode p <> modeForward -> nobody_dials p -> step p p' -> dials p' = dials p /\ nobody_dials p'.
Proof.
  intros Hm Hn [Hs|Hs]; unfold nobody_dials in *.
  - destruct Hs as [p pre c h h' post p' Eh Hs|p pre c post Eh|p Ea Hor|p c Ea|p c Ea|p Ec|p Ec|p c rest Ec Hc|p Ec|p Ec Ea Eh|p c rest Es Hc];
      try done; cbn [with_handlers with_acceptor handlers dials].
    + rewrite Eh, Forall_app, Forall_cons in Hn. destruct Hn as (Hpre & Hh & Hpost). rewrite Forall_app, Forall_cons.
      destruct Hs; try done; cbn in Hh; try done; (split; [done|]); (split; [done|]); (split; [|done]); try done.
      unfold decide_mode. by destruct (mode p).
    + rewrite Eh, Forall_app, Forall_cons in Hn. rewrite Forall_app. tauto.
    + split; [done|]. apply Forall_app. split; [done|]. by repeat constructor.
  - destruct Hs as [p pre c h h' post p' Eh Hs|p Ea|p Ea El|p m|p|p Ec|p|p want|p pre want post Ew Es|p pre want post Ew Es
      |p pre want got g post Ew Hg|p pre want got g post Ew]; try done.
    cbn [with_handlers handlers dials]. rewrite Eh, Forall_app, Forall_cons in Hn. destruct Hn as (Hpre & Hh & Hpost).
    rewrite Forall_app, Forall_cons. by destruct Hs.
Qed.

(** A proxy that does not forward reaches no upstream. From a moment when no
    goroutine has already decided to dial, as long as the mode is to reject or
    to stay silent, no connection to the upstream is made, whoever connects and
    whatever else is called. *)
Theorem withheld_connections_are_not_forwarded p p' : mode p <> modeForward -> nobody_dials p ->
  rtc (fun p p' => step p p' /\ mode p' <> modeForward) p p' -> dials p' = dials p.
Proof.
  intros Hm Hn Hrun. revert Hm Hn. induction Hrun as [|p p1 p' [Hs Hm1] _ IH]; [done|]. intros Hm Hn.
  destruct (step_without_forward p p1 Hm Hn Hs) as [E Hn1]. rewrite <- E. by apply IH.
Qed.

(** No wake-up is lost. A call that waits for a number of connections is
    woken once that number is tracked, and a silenced connection once the mode
    is another: the channel each waits on is closed by then. *)
Theorem wake_ups_are_not_lost p : reachable p ->
  (forall want got g, Blocked want got g ∈ waiters p -> size (conns p) = want -> (g < changed p)%nat) /\
  (forall c g, (c, Silenced g) ∈ handlers p -> mode p <> modeSilent -> (g < changed p)%nat).
Proof.
  intros Hr%reachable_wf. destruct Hr as [_ _ Hq Hw _ _ _]. rewrite Forall_forall in Hq. rewrite Forall_forall in Hw. split.
  - intros want got g Hin Hs. destruct (Hw _ Hin) as [Hg Hc]. destruct (decide (g = changed p)) as [->|]; [|lia].
    destruct Hc; [done|]. congruence.
  - intros c g Hin Hm. destruct (Hq _ Hin) as [Hg Hc]. destruct (decide (g = changed p)) as [->|]; [|lia]. by destruct Hm, Hc.
Qed.

(** ** Witnesses *)

(** A client connects to a silenced proxy and waits; then the proxy is closed. *)
Definition silent_proxy : Proxy := Silence NewTCPProxy.
Definition connected : Proxy := with_acceptor (open_socket silent_proxy) (Accepted 0).
Definition accepted : Proxy := with_acceptor (track 0 connected) (Tracked 0).
Definition spawned : Proxy := with_acceptor (with_handlers accepted [(0%nat, Deciding)]) Accepting.
Definition held_back : Proxy := with_handlers spawned [(0%nat, Silenced 2)].
Definition being_closed : Proxy := with_closer (cancel held_back) ContextCancelled.

Lemma silent_run : rtc (fun p p' => step p p' /\ mode p' <> modeForward) silent_proxy held_back.
Proof.
  eapply rtc_l; [split; [right; by apply client_connects | done]|].
  eapply rtc_l; [split; [left; by apply accept_tracks | done]|].
  eapply rtc_l; [split; [left; by apply accept_spawns | done]|].
  eapply rtc_l; [split; [left; eapply (handler_moves _ [] 0%nat Deciding); [reflexivity | constructor] | done]|].
  apply rtc_refl.
Qed.

Lemma held_back_reachable : reachable held_back.
Proof.
  apply (rtc_l _ _ silent_proxy); [right; apply (mode_changes NewTCPProxy modeSilent)|].
  refine (rtc_subrel _ _ _ _ _ silent_run). by intros p p' [Hs _].
Qed.

Lemma being_closed_reachable : reachable being_closed.
Proof. eapply rtc_r; [apply held_back_reachable|]. right. by apply close_called. Qed.

Lemma close_ends_and_leaves_nothing_witness : sockets being_closed = {[0%nat]} /\ sn own being_closed /\
  forall p', rtc own being_closed p' -> nf own p' -> closer p' = Closed /\ sockets p' = ∅.
Proof.
  destruct (close_ends_and_leaves_nothing being_closed) as [Hsn Hend]; [exact being_closed_reachable | discriminate |].
  split; [reflexivity|]. split; [exact Hsn|]. intros p' Hrun Hn. destruct (Hend p' Hrun Hn) as (Hc & _ & _ & _ & Hs). by split.
Defined.

Lemma withheld_connections_are_not_forwarded_witness : size (conns held_back) = 1%nat /\ dials held_back = [].
Proof.
  split; [reflexivity|].
  apply (withheld_connections_are_not_forwarded silent_proxy held_back); [discriminate | constructor | exact silent_run].
Defined.

(** The test restores the proxy: the silenced connection is woken. *)
Lemma wake_ups_are_not_lost_witness : (0%nat, Silenced 2) ∈ handlers (Restore held_back) /\ (2 < changed (Restore held_back))%nat.
Proof.
  assert ((0%nat, Silenced 2) ∈ handlers (Restore held_back)) as Hin by (left).
  split; [exact Hin|]. apply (wake_ups_are_not_lost (Restore held_back)) with (c := 0%nat); [|exact Hin | discriminate].
  eapply rtc_r; [apply held_back_reachable|]. right. apply mode_changes.
Defined.
